(* ===== verification/_CoqProject ===== *)
-Q . S2P
Prelude.v
Protocol.v
FileUtils.v
Password.v
Config.v
ConnectionPool.v
TcpServer.v
TcpServerProps.v
Payloads.v
Tables.v
ExampleCodec.v
Database.v
Integrity.v
Transactions.v
DatabaseProps.v
Statements.v
Registry.v
Redis.v
BasicsProps.v
FileService.v
FileServiceProps.v
Policy.v
World.v
Delivery.v
Accounts.v
Friends.v
Groups.v
Messages.v
Files.v
Server.v
ServerLogic.v
ServerThreads.v
HandlerLogic.v
EventLogic.v
ServerProps.v
UploadProps.v
Buffer.v
EventLoop.v
Connection.v
ConnectionProps.v
ConnectionFrames.v
ConnectionOrder.v
ConnectionLive.v
ServerConnections.v
Dispatch.v
Filesystem.v
FtpServer.v
FtpMain.v
FtpProps.v
FtpClient.v
FtpExchange.v
LocalStore.v
ClientTransport.v
TlsSetup.v
RedisLink.v
ServerMain.v
ClientMain.v
TransportProps.v
ClientState.v
ClientFiles.v
ClientChat.v
ClientApp.v
ClientLogic.v
ClientSafety.v
ClientConversation.v
ClientDownload.v
ClientLoop.v
ClientMessages.v
LoopProps.v
ClientUpload.v
Scenario.v
Witnesses.v
ThreadPool.v
FileWorkers.v
Matrix.v
MatrixTasks.v
ThreadWitnesses.v
ClientWitnesses.v
FtpWitnesses.v
