(* ===== verification/Prelude.v ===== *)
(** * A chat room and its verification

    The repository holds a chat room in C++: a server ([ChatRoom/src/chat_server.cpp]
    and [ChatRoom/src/server]) that talks a line protocol with its clients over
    TLS, keeps accounts, friendships, groups, messages and file transfers in
    MySQL, presence and unread counters in Redis, and uploaded files on disk;
    a terminal client ([ChatRoom/src/client]) with a local SQLite cache; a network
    library [minimuduo] under the server; and, as exercises beside it, an FTP
    server and an FTP client ([linux_ftp_server]) and a thread pool that
    multiplies matrices ([Threadpool]).  This library models the chat server
    down to its prepared statements, Redis commands and file-system calls, the
    client down to its transport, the event loop, buffers, connections and
    threads of the network library, the FTP programs and the thread pool, and
    proves what makes them correct, alone and together.

    ** The parts and how they interact

    A connection delivers bytes to [ChatServer::on_message], which cuts them into
    text lines and binary upload frames; a line is parsed and dispatched by the
    command router to a handler; a handler reads and changes its session, the
    registry of online users, the database, Redis and the file service, and
    queues output on connections.  Beside the connections run a thread that
    writes delivery marks, a thread that refreshes presence keys, and the
    download pumps.  The database methods lease connections from a pool.  Below,
    an acceptor hands new sockets to a server object, which spreads them over
    loops in threads of their own and keeps a map of the connections alive.

    The client turns typed lines and numbers of its menus into commands, reads
    the server's lines and file frames from the same stream, keeps the state of
    conversations and transfers, writes downloads to disk and messages to its
    cache.

    ** The files

    - [Prelude] (this file): strings, characters, machine words, lists, the state
      and error monad [M] of the whole library with its rules ([hoare], [preserves],
      [meets]), its notations and its tactics.
    - [Protocol], [FileUtils], [Password], [Config]: [protocol.cpp],
      [file_utils.cpp], [password.cpp], [config.cpp], function by function.
    - [ConnectionPool]: [mysql_connection_pool.cpp], the operations under the mutex
      and a step relation for the threads, with its two theorems.
    - [Payloads]: the messages of [ChatRoom/proto]; the generated codec is the class
      [ProtoCodec], its round trip the class [ProtoLaws].
    - [Tables]: the schema of [ChatRoom/sql] as lists of rows, with keys, CHECK
      clauses, foreign keys and cascades; [Database]: one definition per method
      of [MySqlDatabase], with its pool lease, statements, transaction and
      errors; every statement takes the next entry of a schedule of failures, and
      the calls whose failure the source ignores ([mysql_rollback],
      [mysql_autocommit] behind a failure) the next of a schedule of their own.
    - [Integrity], [Transactions], [DatabaseProps]: theorems about the two.
      [Statements]: the prepared statements under the methods, over what the
      client library documents of binding and fetching.
    - [Registry], [Redis], [FileService], [Policy]: the registry of online users,
      the Redis client, the file transfer service with its download pump, and
      the direct message policy over an interface of three store queries.
    - [World]: the state of [ChatServer] and what all handlers share; [Delivery],
      [Accounts], [Friends], [Groups], [Messages], [Files]: the handlers, each the
      whole function of the source; [Server]: router, framing loop and events;
      [ServerThreads]: the two background threads of the server and its destructor.
    - [ServerLogic], [HandlerLogic], [EventLogic]: a small program logic.  An
      invariant states what it promises about the primitive steps as instances
      of classes; the lemmas carry it through handlers, loop and runs.
    - [Buffer], [EventLoop], [Connection]: the byte buffer, the loop with its
      wake-up protocol and its poller, and the state machine of one connection,
      of [ChatRoom/src/minimuduo/net].  [ConnectionProps] has the invariant of the
      byte stream, [ConnectionFrames] proves that the recursion of file frames ends,
      [ConnectionOrder] that what is handed over is what is sent, [ConnectionLive]
      that a connection does not stall.  [TcpServer]: acceptor,
      server, pool of loops and loop thread; [TcpServerProps]: its invariant,
      over the class [Life] of what a server asks of a connection;
      [ServerConnections]: the connections of [Connection] are an instance;
      [Dispatch]: polling and dispatching, and the pointers to channels they keep.
    - [RedisLink]: connecting, authenticating and closing in [redis_client.cpp];
      [ServerMain]: [server_main.cpp], [server_console.cpp], [server_log.cpp], and the
      constructors that they run, from the command line to the loop; [ClientMain]: the
      same of the client, with the opening of its cache.
    - [LocalStore]: [sqlite_client.cpp]; [ClientTransport]: [tls_client_transport.cpp]
      with [TransportProps]; [TlsSetup]: [TlsContext.cpp], [SocketOptions.cpp] and the
      opening and closing of the client's transport, over tables of the objects of
      OpenSSL and of the kernel; [ClientState], [ClientFiles], [ClientChat], [ClientApp]:
      the files of [ChatRoom/src/client], function by function, over one record
      of what the client reads and changes.
    - [ClientLogic]: the rules by which the client's theorems are proved;
      [ClientSafety], [ClientConversation], [ClientLoop]: what downloads may touch,
      when conversations open, that the loops end; [ClientDownload],
      [ClientUpload], [ClientMessages]: server and client together.
    - [Filesystem]: paths, symbolic links and the operations of [std::filesystem];
      [FtpServer], [FtpClient]: the two FTP programs; [FtpMain]: the descriptors and
      the accepting loop of the server; [FtpProps], [FtpExchange]:
      their theorems, the last about both together.
    - [ThreadPool]: [ThreadPool.h], as a step relation of workers and callers;
      [FileWorkers]: the workers of the file service, which implement it;
      [Matrix], [MatrixTasks]: the matrices, dispatcher, scheduler and demo of
      [MatrixTaskScheduler.h] and [CallbackDispatcher.h].
    - [ServerProps], [UploadProps], [LoopProps], [BasicsProps],
      [FileServiceProps]: the theorems about whole runs and about the small
      components.
    - [ExampleCodec], [Scenario], [Witnesses], [ClientWitnesses], [FtpWitnesses],
      [ThreadWitnesses]: a concrete engine, codec and server, and for each
      theorem with hypotheses an instance that satisfies them.

    ** The theorems

    - The store: every method of the database layer is all or nothing under any
      schedule of failures of pool, statements, begin and commit, as long as
      rolling back works ([failed_rollback_commits] and [failed_rollback_stays_open]
      are what happens otherwise); every history of calls keeps the schema, also
      when rolling back fails; friendships,
      blocks, accounts, groups and offline queues behave as their methods say.  A
      prepared query returns exactly the rows of its result.
    - The server: whatever clients send and whatever fails, the stored data stays
      consistent, a user is logged in on at most one connection, uploads and
      frames stay inside their bounds; commands reach their handlers and the
      framing loop ends.  The destructor leaves no update behind and returns, but
      for a wake-up that can be lost ([stop_wakeup_lost]).
    - Files: an upload in progress is a prefix of the file sent, a finished one
      has the declared size and digest and is one plain name in its directory, a
      download sends a beginning of the right frames and reports success when it
      is complete;
      every download accepted is started, also when the service stops.
    - The network: a buffer is a queue of bytes; no wake-up of the loop is lost
      and an iteration serves its queue; epoll watches what the channels ask
      for; the bytes on the wire of a connection are texts and frames, whole, the
      texts in the order in which they were handed over, and nothing handed over
      is lost before the close but frames without their file; nothing waits
      without its event; callbacks come in order.  [first_callback_stalls], [missing_file_counts_as_sent],
      [shutdown_in_frame_forgotten], [shutdown_cuts_frame] and
      [quit_before_loop_lost] are runs that show what the code leaves open.
      Under any interleaving of the loops each accepted connection is
      established once and destroyed at most once, in its own loop, and the
      server's map holds the connections that live; no loop handles an event
      through a pointer to a freed channel.
    - The connection pool: a connection is leased to one thread at most, opened
      and closed once; no thread sleeps while a connection is free for it.
    - The client: whatever a server sends, it writes only plain-named files of
      its download directory; a conversation opens only when the server confirms
      it; its loops end; its bytes leave in order; its cache answers with the
      newest messages.
    - Client and server: a download gives the client exactly the server's file,
      and an upload the server exactly the client's, however
      the bytes are cut; the texts of messages are read back, but for the message
      ["-"] ([dash_message_lost]).
    - FTP: a session stays inside its directory, but for a dangling symbolic
      link ([dangling_link_escapes]); an upload resumed with REST and downloaded
      gives its bytes; client and server together store the client's file; the
      server starts one session for each client that comes.
    - The thread pool: each task runs once, in the order of submission; the pool
      always gets its work done and its callers return; the product of matrices
      is the product; the demo ends in every interleaving with its output.
    - Start-up: the server and the client get to their loops only with valid
      settings and everything they need, or release all they have taken
      ([port_in_use_terminates] and [cache_directory_terminates] are the ways
      in which they end without a word); a client's connection is protected as
      configured, and no object of OpenSSL or descriptor is lost or used after
      it is freed.
    - Text: round trips of command lines, percent encoding and configuration
      files, bounds of numbers, safe file names, passwords.

    ** Modelling decisions

    A function that returns [bool] and sets an error text returns a sum; a
    function that stores its results through references returns them.  A
    handler that returns early ends the monad [H] of [World] without changing
    the rest.  The handlers are atomic: a lock of the source is not visible,
    except that the model lets [others], an arbitrary change of the world by the
    other threads, happen where the source evaluates a permission without
    holding the lock.  Unsigned 64-bit numbers are [Z] with [wrap 64] where the
    source adds them.  Loops over input have the length of the input as fuel, and
    a loop that runs out of it says so; [LoopProps.message_loop_ends] proves that
    this does not happen.  The writing loops of a
    connection have one round per outcome left in the schedule and one, and the
    recursion of file frames one level per frame asked for and not started
    ([ConnectionFrames.file_frames_end]).  The client's loop over received bytes
    has one round per byte and one ([ClientLoop.client_lines_end]); the loops of
    the FTP programs one per byte or per outcome.

    The store is seen through one connection of the pool at a time: a transaction
    left open by a failed method is met by the next one.  A failing
    [mysql_commit] has not committed, and the [mysql_autocommit] behind it does; a
    failing [mysql_autocommit] behind a commit is reported although the rows are
    committed.

    The event loop is a step relation over its program counter, its queue, the
    eventfd and the foreign threads before their [wakeup()], so that every
    interleaving is a run.  A connection is a function of schedules: the next
    outcome of each call of the kernel or of OpenSSL, and the next reaction of
    the application to each callback, so that a theorem about all schedules
    holds for every kernel, peer and application.  Two lists in it are kept for
    the statements only: what the application hands over, written before the
    code sees it, and what the code puts on the wire; the theorems of
    [ConnectionOrder] compare them.  The server model uses the
    contract of a connection: bytes arrive in order, output is queued.

    Parameters, with what the code relies on as hypotheses of the theorems that
    need it: OpenSSL's random bytes, digest and key derivation; the Protocol
    Buffers codec; the error texts of MySQL; the formatting of dates; [others].

    ** Not modelled

    What OpenSSL does inside its calls: records, certificates and handshakes are
    answers of a schedule; the directories of the client's downloads; a [pread] that
    fails while the client sends a file (only a file that got shorter does); and the shell
    exercise ([shell]), which is written in C. *)
From stdpp Require Export gmap strings list fin_maps sorting.
From Stdlib Require Export ZArith Ascii Lia.
From Stdlib Require String.
From stdpp Require Import options.

Declare Scope chat_scope.
Delimit Scope chat_scope with chat.
Open Scope chat_scope.

(** ** Characters

    A C++ [std::string] is a [string]: a sequence of bytes.  The character
    classes are those of [<cctype>] in the "C" locale, applied to the byte as
    an [unsigned char], as every call site of the program does. *)

Definition byte_val (c : ascii) : Z := Z.of_N (N_of_ascii c).

Definition in_range (lo hi : Z) (c : ascii) : bool :=
  (lo <=? byte_val c)%Z && (byte_val c <=? hi)%Z.

Definition isspace (c : ascii) : bool := in_range 9 13 c || in_range 32 32 c.
Definition isdigit (c : ascii) : bool := in_range 48 57 c.
Definition isupper (c : ascii) : bool := in_range 65 90 c.
Definition islower (c : ascii) : bool := in_range 97 122 c.
Definition isalnum (c : ascii) : bool := isdigit c || isupper c || islower c.
Definition iscntrl (c : ascii) : bool := in_range 0 31 c || in_range 127 127 c.
Definition isxdigit (c : ascii) : bool :=
  isdigit c || in_range 65 70 c || in_range 97 102 c.

Definition char_of (z : Z) : ascii := ascii_of_N (Z.to_N z).

Definition toupper (c : ascii) : ascii :=
  if islower c then char_of (byte_val c - 32) else c.
Definition tolower (c : ascii) : ascii :=
  if isupper c then char_of (byte_val c + 32) else c.

Definition nl : string := String "010"%char EmptyString.

(** ** Strings as byte sequences *)

Fixpoint str_forall (p : ascii -> bool) (s : string) : bool :=
  match s with
  | EmptyString => true
  | String c s' => p c && str_forall p s'
  end.

Fixpoint str_map (f : ascii -> ascii) (s : string) : string :=
  match s with
  | EmptyString => EmptyString
  | String c s' => String (f c) (str_map f s')
  end.

Fixpoint drop_while (p : ascii -> bool) (s : string) : string :=
  match s with
  | EmptyString => EmptyString
  | String c s' => if p c then drop_while p s' else s
  end.

Fixpoint take_while (p : ascii -> bool) (s : string) : string :=
  match s with
  | EmptyString => EmptyString
  | String c s' => if p c then String c (take_while p s') else EmptyString
  end.

(** [drop_while_end p s] removes the longest suffix of [s] satisfying [p]. *)
Fixpoint drop_while_end (p : ascii -> bool) (s : string) : string :=
  match s with
  | EmptyString => EmptyString
  | String c s' =>
      match drop_while_end p s' with
      | EmptyString => if p c then EmptyString else String c EmptyString
      | t => String c t
      end
  end.

Fixpoint str_take (n : nat) (s : string) : string :=
  match n, s with
  | S n', String c s' => String c (str_take n' s')
  | _, _ => EmptyString
  end.

Fixpoint str_drop (n : nat) (s : string) : string :=
  match n, s with
  | S n', String _ s' => str_drop n' s'
  | _, _ => s
  end.

Fixpoint str_nth (n : nat) (s : string) : option ascii :=
  match n, s with
  | 0, String c _ => Some c
  | S n', String _ s' => str_nth n' s'
  | _, EmptyString => None
  end.

(** [find_first p s] is [std::string::find_first_of] (and [find] for one
    character): the index of the first byte satisfying [p], [None] for
    [npos]. *)
Fixpoint find_first (p : ascii -> bool) (s : string) : option nat :=
  match s with
  | EmptyString => None
  | String c s' => if p c then Some 0 else S <$> find_first p s'
  end.

(** [substr(pos, count)] and [substr(pos)] with [pos <= size()]. *)
Definition substr (pos count : nat) (s : string) : string :=
  str_take count (str_drop pos s).

Definition is_empty (s : string) : bool :=
  match s with EmptyString => true | _ => false end.

Definition strlen (s : string) : Z := Z.of_nat (String.length s).

(** Boolean equality of strings, [operator==]. *)
Notation "s =s? t" := (String.eqb s t) (at level 70) : chat_scope.

(** ** Machine integers *)

Definition wrap (w z : Z) : Z := (z mod 2 ^ w)%Z.
Definition u64_max : Z := (2 ^ 64 - 1)%Z.

(** ** Decimal numbers: [std::from_chars] and [std::to_string] *)

Definition digit_val (c : ascii) : Z := (byte_val c - 48)%Z.

Fixpoint dec_value (acc : Z) (s : string) : Z :=
  match s with
  | EmptyString => acc
  | String c s' => dec_value (10 * acc + digit_val c) s'
  end.

(** [std::from_chars] on an unsigned type of [w] bits: the value of the
    longest digit prefix and the rest of the input.  [None] stands for both
    error codes, [invalid_argument] (no digit) and [result_out_of_range]. *)
Definition from_chars_unsigned (w : Z) (s : string) : option (Z * string) :=
  let d := take_while isdigit s in
  if is_empty d then None
  else if (dec_value 0 d <? 2 ^ w)%Z
       then Some (dec_value 0 d, drop_while isdigit s)
       else None.

(** [std::from_chars] on a signed type: an optional minus sign first. *)
Definition from_chars_signed (w : Z) (s : string) : option (Z * string) :=
  let neg := match s with String "-"%char _ => true | _ => false end in
  let body := if neg then str_drop 1 s else s in
  let d := take_while isdigit body in
  if is_empty d then None
  else
    let v := if neg then (- dec_value 0 d)%Z else dec_value 0 d in
    if (- 2 ^ (w - 1) <=? v)%Z && (v <? 2 ^ (w - 1))%Z
    then Some (v, drop_while isdigit body)
    else None.

(** A conversion that must consume the whole text ([result.ptr == end]). *)
Definition whole {A} (r : option (A * string)) : option A :=
  match r with
  | Some (a, EmptyString) => Some a
  | _ => None
  end.

Fixpoint dec_digits (fuel : nat) (n : Z) (acc : string) : string :=
  match fuel with
  | 0 => acc
  | S f =>
      let acc' := String (char_of (48 + n mod 10)) acc in
      if (n <? 10)%Z then acc' else dec_digits f (n / 10) acc'
  end.

(** [std::to_string] on an unsigned value.  A value below [2 ^ k] has at most
    [k] decimal digits, so [Z.log2 n + 1] steps are enough. *)
Definition to_string (n : Z) : string :=
  dec_digits (S (Z.to_nat (Z.log2 n))) n EmptyString.

Definition to_string_signed (n : Z) : string :=
  if (n <? 0)%Z then String "-" (to_string (- n)) else to_string n.

(** ** Automation

    [chat] collects the rewriting and resolution lemmas the components share;
    [case_bools] turns boolean tests of the code into propositions. *)
Create HintDb chat.

Ltac case_bools :=
  repeat match goal with
    | H : _ && _ = true |- _ => apply andb_true_iff in H; destruct H
    | H : _ || _ = false |- _ => apply orb_false_iff in H; destruct H
    | H : negb _ = true |- _ => apply negb_true_iff in H
    | H : negb _ = false |- _ => apply negb_false_iff in H
    | H : (_ =? _)%Z = true |- _ => apply Z.eqb_eq in H
    | H : (_ =? _)%Z = false |- _ => apply Z.eqb_neq in H
    | H : (_ <=? _)%Z = true |- _ => apply Z.leb_le in H
    | H : (_ <=? _)%Z = false |- _ => apply Z.leb_gt in H
    | H : (_ <? _)%Z = true |- _ => apply Z.ltb_lt in H
    | H : (_ <? _)%Z = false |- _ => apply Z.ltb_ge in H
    | H : (_ =? _)%nat = true |- _ => apply Nat.eqb_eq in H
    | H : (_ =? _)%nat = false |- _ => apply Nat.eqb_neq in H
    | H : (_ =s? _) = true |- _ => apply String.eqb_eq in H
    | H : (_ =s? _) = false |- _ => apply String.eqb_neq in H
    end.

(** Split on the first boolean or match scrutinee of the goal or of the
    hypothesis [H], keeping the equation. *)
Ltac case_test :=
  match goal with
  | |- context [if ?b then _ else _] =>
      lazymatch b with context [if _ then _ else _] => fail | _ => destruct b eqn:? end
  | |- context [match ?x with _ => _ end] =>
      lazymatch x with context [match _ with _ => _ end] => fail | _ => destruct x eqn:? end
  end.

Ltac case_test_in H :=
  match type of H with
  | context [if ?b then _ else _] =>
      lazymatch b with context [if _ then _ else _] => fail | _ => destruct b eqn:? end
  | context [match ?x with _ => _ end] =>
      lazymatch x with context [match _ with _ => _ end] => fail | _ => destruct x eqn:? end
  end.

(** ** Lemmas on bytes *)

Definition all_bytes : list ascii := map (fun n => ascii_of_nat n) (seq 0 256).

Lemma byte_forall (P : ascii -> Prop) `{forall c, Decision (P c)} :
  forallb (fun c => bool_decide (P c)) all_bytes = true -> forall c, P c.
Proof.
  rewrite forallb_forall. intros Hall c. apply (bool_decide_unpack (P c)).
  rewrite (Hall c); [done|]. apply in_map_iff. exists (nat_of_ascii c).
  split; [apply ascii_nat_embedding|]. apply in_seq. pose proof (nat_ascii_bounded c). lia.
Qed.

(** [byte_cases c] proves a decidable statement about one byte by evaluating it
    on all 256 of them. *)
Ltac byte_cases c :=
  revert c; refine (byte_forall _ _); vm_compute; reflexivity.

Lemma byte_val_range c : (0 <= byte_val c < 256)%Z.
Proof. byte_cases c. Qed.

Lemma char_of_byte_val c : char_of (byte_val c) = c.
Proof. unfold char_of, byte_val. rewrite N2Z.id. apply ascii_N_embedding. Qed.

Lemma byte_val_char_of z : (0 <= z < 256)%Z -> byte_val (char_of z) = z.
Proof.
  intros H. unfold char_of, byte_val. rewrite N_ascii_embedding; lia.
Qed.

Lemma isspace_toupper c : isspace (toupper c) = isspace c.
Proof. byte_cases c. Qed.

Lemma toupper_idem c : toupper (toupper c) = toupper c.
Proof. byte_cases c. Qed.

Lemma isalnum_not_space c : isalnum c = true -> isspace c = false.
Proof. byte_cases c. Qed.

Lemma isdigit_isxdigit c : isdigit c = true -> isxdigit c = true.
Proof. byte_cases c. Qed.

(** ** Lemmas on strings *)

Lemma str_app_nil_r s : s +:+ "" = s.
Proof. induction s as [|c s IH]; [done|]. change (String c (s +:+ "") = String c s). by rewrite IH. Qed.

Lemma str_app_cons c s t : String c s +:+ t = String c (s +:+ t).
Proof. done. Qed.

Lemma str_app_nil_l t : "" +:+ t = t.
Proof. done. Qed.

Lemma str_app_assoc s t u : (s +:+ t) +:+ u = s +:+ (t +:+ u).
Proof.
  induction s as [|c s IH]; [done|]. rewrite !str_app_cons. by rewrite IH.
Qed.

Lemma str_length_app s t :
  String.length (s +:+ t) = String.length s + String.length t.
Proof. induction s as [|c s IH]; [done|]. rewrite str_app_cons. simpl. by rewrite IH. Qed.

Lemma strlen_app s t : strlen (s +:+ t) = (strlen s + strlen t)%Z.
Proof. unfold strlen. rewrite str_length_app. lia. Qed.

Lemma str_forall_app p s t : str_forall p (s +:+ t) = str_forall p s && str_forall p t.
Proof.
  induction s as [|c s IH]; [done|]. rewrite str_app_cons. simpl.
  by rewrite IH, andb_assoc.
Qed.

Lemma str_forall_impl p q s :
  (forall c, p c = true -> q c = true) -> str_forall p s = true -> str_forall q s = true.
Proof.
  intros Hpq. induction s as [|c s IH]; simpl; [done|].
  rewrite !andb_true_iff. intros [??]; split; auto.
Qed.

Lemma str_forall_map p f s : str_forall p (str_map f s) = str_forall (fun c => p (f c)) s.
Proof. induction s as [|c s IH]; simpl; [done|]. by rewrite IH. Qed.

Lemma str_map_length f s : String.length (str_map f s) = String.length s.
Proof. induction s as [|c s IH]; simpl; [done|]. by rewrite IH. Qed.

Lemma str_take_drop n s : str_take n s +:+ str_drop n s = s.
Proof.
  revert s. induction n as [|n IH]; intros [|c s]; try done.
  simpl. rewrite str_app_cons. by rewrite IH.
Qed.

Lemma str_forall_take p n s : str_forall p s = true -> str_forall p (str_take n s) = true.
Proof.
  revert n. induction s as [|c s IH]; intros [|n]; simpl; try done.
  rewrite !andb_true_iff. intros [??]; split; auto.
Qed.

Lemma str_take_length n s : String.length (str_take n s) = n `min` String.length s.
Proof.
  revert n. induction s as [|c s IH]; intros [|n]; simpl; try done. by rewrite IH.
Qed.

Lemma str_take_app_length s t : str_take (String.length s) (s +:+ t) = s.
Proof. induction s as [|c s IH]; [by destruct t|]. rewrite str_app_cons. simpl. by rewrite IH. Qed.

Lemma str_drop_app_length s t : str_drop (String.length s) (s +:+ t) = t.
Proof. induction s as [|c s IH]; [by destruct t|]. rewrite str_app_cons. simpl. by rewrite IH. Qed.

Lemma take_drop_while p s : take_while p s +:+ drop_while p s = s.
Proof.
  induction s as [|c s IH]; simpl; [done|]. destruct (p c); [|done].
  rewrite str_app_cons. by rewrite IH.
Qed.

Lemma take_while_forall p s : str_forall p (take_while p s) = true.
Proof. induction s as [|c s IH]; simpl; [done|]. destruct (p c) eqn:E; simpl; [by rewrite E|done]. Qed.

Lemma take_while_all p s : str_forall p s = true -> take_while p s = s.
Proof.
  induction s as [|c s IH]; simpl; [done|]. rewrite andb_true_iff. intros [-> Hs].
  by rewrite IH.
Qed.

Lemma drop_while_all p s : str_forall p s = true -> drop_while p s = "".
Proof.
  induction s as [|c s IH]; simpl; [done|]. rewrite andb_true_iff. intros [-> Hs]. auto.
Qed.

Lemma drop_while_head p s c t : drop_while p s = String c t -> p c = false.
Proof.
  induction s as [|d s IH]; simpl; [done|]. destruct (p d) eqn:E; [auto|].
  intros [= -> ->]. done.
Qed.

Lemma drop_while_noop p s :
  (forall c t, s = String c t -> p c = false) -> drop_while p s = s.
Proof. destruct s as [|c s]; simpl; [done|]. intros H. by rewrite (H c s). Qed.

Lemma drop_while_app p s t :
  str_forall p s = false -> drop_while p (s +:+ t) = drop_while p s +:+ t.
Proof.
  induction s as [|c s IH]; [done|]. rewrite str_app_cons. simpl.
  destruct (p c); simpl; [auto|done].
Qed.

(** A maximal run of [p] followed by a byte outside [p]. *)
Lemma take_while_run p w rest :
  str_forall p w = true -> (forall c t, rest = String c t -> p c = false) ->
  take_while p (w +:+ rest) = w /\ drop_while p (w +:+ rest) = rest.
Proof.
  intros Hw Hrest. induction w as [|d w IH].
  - change ("" +:+ rest) with rest. destruct rest as [|d t]; [done|].
    simpl. by rewrite (Hrest d t eq_refl).
  - simpl in Hw. apply andb_true_iff in Hw as [Hd Hw]. rewrite str_app_cons. simpl.
    rewrite Hd. destruct (IH Hw) as [-> ->]. done.
Qed.

(** Induction from the right end of a string. *)
Lemma str_snoc_ind (P : string -> Prop) :
  P "" -> (forall s c, P s -> P (s +:+ String c "")) -> forall s, P s.
Proof.
  intros H0 Hs s.
  assert (forall t u, P u -> P (u +:+ t)) as H.
  { induction t as [|c t IH]; intros u Hu; [by rewrite str_app_nil_r|].
    replace (u +:+ String c t) with ((u +:+ String c "") +:+ t) by apply str_app_assoc.
    auto. }
  apply (H s "" H0).
Qed.

Lemma drop_while_end_snoc p s c :
  drop_while_end p (s +:+ String c "") =
  if p c then drop_while_end p s else s +:+ String c "".
Proof.
  induction s as [|d s IH].
  - simpl. by destruct (p c).
  - rewrite !str_app_cons. simpl. rewrite IH. destruct (p c); [done|].
    by destruct s.
Qed.

Lemma drop_while_end_app p s t :
  drop_while_end p (s +:+ t) =
  if str_forall p t then drop_while_end p s else s +:+ drop_while_end p t.
Proof.
  induction t as [|t c IH] using str_snoc_ind; [by rewrite str_app_nil_r|].
  rewrite <- str_app_assoc, !drop_while_end_snoc, str_forall_app. simpl.
  rewrite andb_true_r. destruct (p c); [by rewrite andb_true_r|].
  by rewrite andb_false_r, str_app_assoc.
Qed.

Lemma drop_while_end_prefix p s : exists t, s = drop_while_end p s +:+ t /\ str_forall p t = true.
Proof.
  induction s as [|s c [t [Hs Ht]]] using str_snoc_ind; [by exists ""|].
  rewrite drop_while_end_snoc. destruct (p c) eqn:E.
  - exists (t +:+ String c ""). rewrite <- str_app_assoc, <- Hs.
    split; [done|]. rewrite str_forall_app, Ht. simpl. by rewrite E.
  - exists "". by rewrite str_app_nil_r.
Qed.

Lemma drop_while_end_idem p s : drop_while_end p (drop_while_end p s) = drop_while_end p s.
Proof.
  induction s as [|s c IH] using str_snoc_ind; [done|].
  rewrite drop_while_end_snoc. destruct (p c) eqn:E; [done|].
  by rewrite drop_while_end_snoc, E.
Qed.

Lemma drop_while_end_none p s :
  str_forall (fun c => negb (p c)) s = true -> drop_while_end p s = s.
Proof.
  induction s as [|s c IH] using str_snoc_ind; [done|].
  rewrite str_forall_app, drop_while_end_snoc. simpl.
  rewrite !andb_true_iff, negb_true_iff. by intros (_ & -> & _).
Qed.

Lemma str_forall_drop_while_end p q s :
  str_forall p s = true -> str_forall p (drop_while_end q s) = true.
Proof.
  destruct (drop_while_end_prefix q s) as (t & Hs & _). rewrite Hs at 1.
  rewrite str_forall_app, andb_true_iff. by intros [].
Qed.

Lemma drop_while_drop_while_end p s :
  drop_while p (drop_while_end p (drop_while p s)) = drop_while_end p (drop_while p s).
Proof.
  destruct (drop_while p s) as [|c t] eqn:E; [done|].
  apply drop_while_head in E. simpl.
  destruct (drop_while_end p t) eqn:E'; rewrite ?E; simpl; by rewrite E.
Qed.

Lemma str_nth_app_length s c t : str_nth (String.length s) (s +:+ String c t) = Some c.
Proof. induction s as [|d s IH]; [done|]. rewrite str_app_cons. simpl. done. Qed.

Lemma str_nth_app_l s t n : n < String.length s -> str_nth n (s +:+ t) = str_nth n s.
Proof.
  revert n. induction s as [|c s IH]; intros n H; simpl in H; [lia|].
  rewrite str_app_cons. destruct n as [|n]; simpl; [done|]. apply IH. lia.
Qed.

Lemma str_nth_length s : str_nth (String.length s) s = None.
Proof. by induction s. Qed.

Lemma str_take_ge n s : String.length s <= n -> str_take n s = s.
Proof.
  revert n. induction s as [|c s IH]; intros [|n]; simpl; intros; try done; [lia|].
  f_equal. apply IH. lia.
Qed.

Lemma str_drop_0 s : str_drop 0 s = s.
Proof. by destruct s. Qed.

Lemma str_take_0 s : str_take 0 s = "".
Proof. by destruct s. Qed.

Lemma str_take_drop_take n m s : str_take n s +:+ str_take m (str_drop n s) = str_take (n + m) s.
Proof.
  revert s. induction n as [|n IH]; intros s.
  - by rewrite str_take_0, str_drop_0.
  - destruct s as [|c s]; simpl; [by destruct m|]. rewrite str_app_cons. by rewrite IH.
Qed.

Lemma str_drop_drop n m s : str_drop m (str_drop n s) = str_drop (n + m) s.
Proof. revert s. induction n as [|n IH]; intros [|c s]; simpl; try done. by destruct m. Qed.

Lemma str_drop_length n s : String.length (str_drop n s) = (String.length s - n)%nat.
Proof. revert s. induction n as [|n IH]; intros [|ch s]; simpl; auto. Qed.

Lemma str_drop_ge n s : String.length s <= n -> str_drop n s = "".
Proof. revert s. induction n as [|n IH]; intros [|c s]; simpl; try done; [lia|]. intros. apply IH. lia. Qed.

Lemma str_take_app_le n s t : n <= String.length s -> str_take n (s +:+ t) = str_take n s.
Proof.
  revert s. induction n as [|n IH]; intros s Hn; [by rewrite !str_take_0|].
  destruct s as [|c s]; [simpl in Hn; lia|]. rewrite str_app_cons. simpl in *. rewrite IH by lia. done.
Qed.

Lemma str_drop_app_le n s t : n <= String.length s -> str_drop n (s +:+ t) = str_drop n s +:+ t.
Proof.
  revert s. induction n as [|n IH]; intros s Hn; [by rewrite !str_drop_0|].
  destruct s as [|c s]; [simpl in Hn; lia|]. rewrite str_app_cons. simpl in *. apply IH. lia.
Qed.

Lemma str_drop_app_ge n s t : String.length s <= n -> str_drop n (s +:+ t) = str_drop (n - String.length s) t.
Proof.
  intros Hn. replace n with (String.length s + (n - String.length s)) at 1 by lia.
  by rewrite <- str_drop_drop, str_drop_app_length.
Qed.

Lemma str_take_app_ge n s t : String.length s <= n -> str_take n (s +:+ t) = s +:+ str_take (n - String.length s) t.
Proof.
  intros Hn. replace n with (String.length s + (n - String.length s)) at 1 by lia.
  by rewrite <- str_take_drop_take, str_take_app_length, str_drop_app_length.
Qed.

Lemma str_take_take n m s : str_take n (str_take m s) = str_take (n `min` m) s.
Proof. revert m s. induction n as [|n IH]; intros [|m] [|c s]; simpl; try done. by rewrite IH. Qed.

Lemma str_drop_min n s : str_drop (n `min` String.length s) s = str_drop n s.
Proof. revert s. induction n as [|n IH]; intros [|c s]; simpl; auto. Qed.

Lemma find_first_app p s c t :
  str_forall (fun c => negb (p c)) s = true -> p c = true ->
  find_first p (s +:+ String c t) = Some (String.length s).
Proof.
  intros Hs Hc. induction s as [|d s IH].
  - change ("" +:+ String c t) with (String c t). simpl. by rewrite Hc.
  - rewrite str_app_cons. simpl in *. apply andb_true_iff in Hs as [Hd Hs].
    apply negb_true_iff in Hd. rewrite Hd. by rewrite IH.
Qed.

Lemma find_first_none p s :
  str_forall (fun c => negb (p c)) s = true -> find_first p s = None.
Proof.
  induction s as [|d s IH]; simpl; [done|]. rewrite andb_true_iff, negb_true_iff.
  intros [-> Hs]. by rewrite IH.
Qed.

Lemma find_first_some p s n :
  find_first p s = Some n ->
  exists c t, s = str_take n s +:+ String c t /\ String.length (str_take n s) = n /\
    p c = true /\ str_forall (fun c => negb (p c)) (str_take n s) = true.
Proof.
  revert n. induction s as [|d s IH]; intros n; simpl; [done|].
  destruct (p d) eqn:E.
  - intros [= <-]. exists d, s. done.
  - destruct (find_first p s) as [m|] eqn:F; [|done]. intros [= <-].
    destruct (IH m eq_refl) as (c & t & Hs & Hl & Hc & Hf). exists c, t.
    change (str_take (S m) (String d s)) with (String d (str_take m s)).
    rewrite str_app_cons, <- Hs. simpl. by rewrite Hl, E, Hf.
Qed.

Lemma find_first_lt p s i : find_first p s = Some i -> (i < String.length s)%nat.
Proof.
  intros Hi. apply find_first_some in Hi as (c & t & Hs & Hl & _). rewrite Hs, str_length_app, Hl. simpl. lia.
Qed.

(** ** Decimal round trip *)

Lemma dec_value_app a s t : dec_value a (s +:+ t) = dec_value (dec_value a s) t.
Proof. revert a. induction s as [|c s IH]; intros a; [done|]. rewrite str_app_cons. simpl. apply IH. Qed.

Lemma dec_digits_spec fuel n acc :
  (0 <= n < 2 ^ Z.of_nat fuel)%Z -> (0 < fuel)%nat ->
  exists d, dec_digits fuel n acc = d +:+ acc /\ d <> "" /\
    str_forall isdigit d = true /\ dec_value 0 d = n.
Proof.
  revert n acc. induction fuel as [|fuel IH]; intros n acc Hn Hf; [lia|].
  assert (forall z, (0 <= z < 10)%Z ->
    isdigit (char_of (48 + z)) = true /\ digit_val (char_of (48 + z)) = z) as Hdig.
  { intros z Hz. unfold isdigit, in_range, digit_val.
    rewrite byte_val_char_of by lia. split; [|lia].
    apply andb_true_iff; split; apply Z.leb_le; lia. }
  pose proof (Z.mod_pos_bound n 10 ltac:(lia)) as Hm.
  destruct (Hdig (n mod 10)%Z Hm) as [Hd Hv].
  simpl. destruct (n <? 10)%Z eqn:E; case_bools.
  - exists (String (char_of (48 + n mod 10)) ""). simpl. rewrite Hd, Hv.
    repeat split; [done|]. rewrite Z.mod_small by lia. lia.
  - rewrite Nat2Z.inj_succ, Z.pow_succ_r in Hn by lia.
    assert (0 <= n / 10 < 2 ^ Z.of_nat fuel)%Z as Hn'.
    { split; [apply Z.div_pos; lia|]. apply Z.div_lt_upper_bound; lia. }
    assert (0 < fuel)%nat as Hf'.
    { destruct fuel; [|lia]. exfalso. change (2 ^ Z.of_nat 0)%Z with 1%Z in Hn. lia. }
    destruct (IH (n / 10)%Z (String (char_of (48 + n mod 10)) acc) Hn' Hf')
      as (d & -> & Hne & Hall & Hval).
    exists (d +:+ String (char_of (48 + n mod 10)) "").
    rewrite str_app_assoc, str_forall_app, dec_value_app, Hall, Hval. simpl. rewrite Hd, Hv.
    repeat split; [by destruct d|]. pose proof (Z.div_mod n 10). lia.
Qed.

Lemma to_string_spec n :
  (0 <= n)%Z -> to_string n <> "" /\ str_forall isdigit (to_string n) = true /\
  dec_value 0 (to_string n) = n.
Proof.
  intros Hn. unfold to_string.
  destruct (dec_digits_spec (S (Z.to_nat (Z.log2 n))) n "") as (d & -> & ? & ? & ?).
  - split; [done|]. rewrite Nat2Z.inj_succ, Z2Nat.id by apply Z.log2_nonneg.
    destruct (decide (n = 0)%Z) as [->|]; [done|]. apply Z.log2_spec. lia.
  - lia.
  - by rewrite str_app_nil_r.
Qed.

Lemma is_empty_false s : s <> "" -> is_empty s = false.
Proof. by destruct s. Qed.

Lemma is_empty_true s : is_empty s = true -> s = "".
Proof. by destruct s. Qed.

Lemma from_chars_to_string w n :
  (0 <= n < 2 ^ w)%Z -> from_chars_unsigned w (to_string n) = Some (n, "").
Proof.
  intros Hn. destruct (to_string_spec n) as (Hne & Hd & Hv); [lia|].
  unfold from_chars_unsigned.
  rewrite take_while_all, drop_while_all, is_empty_false, Hv by done.
  by rewrite (proj2 (Z.ltb_lt _ _) (proj2 Hn)).
Qed.

Lemma dec_value_nonneg a s :
  (0 <= a)%Z -> str_forall isdigit s = true -> (0 <= dec_value a s)%Z.
Proof.
  revert a. induction s as [|c s IH]; intros a Ha; simpl; [done|].
  rewrite andb_true_iff. intros [Hc Hs]. apply IH; [|done].
  unfold isdigit, in_range in Hc. unfold digit_val. case_bools. lia.
Qed.

Lemma from_chars_unsigned_range w s n rest :
  from_chars_unsigned w s = Some (n, rest) -> (0 <= n < 2 ^ w)%Z.
Proof.
  unfold from_chars_unsigned. case_match; [done|]. case_match; [|done]. intros [= <- <-].
  case_bools. split; [|done]. apply dec_value_nonneg; [done|]. apply take_while_forall.
Qed.

Lemma whole_unsigned_range w s n :
  whole (from_chars_unsigned w s) = Some n -> (0 <= n < 2 ^ w)%Z.
Proof.
  unfold whole. destruct (from_chars_unsigned w s) as [[m [|]]|] eqn:E; try done.
  intros [= <-]. eapply from_chars_unsigned_range; eauto.
Qed.

#[export] Hint Resolve whole_unsigned_range from_chars_to_string : chat.

(** ** Fallible state-passing code

    The program reports failure by returning [false] and filling an error
    string, and keeps the state changes made before the failure.  [M S A] is
    code over a state [S] that returns an [A] or fails with an error text. *)
Definition M (S A : Type) : Type := S -> (string + A) * S.

#[export] Instance M_ret S : MRet (M S) := fun A a s => (inr a, s).
#[export] Instance M_bind S : MBind (M S) := fun A B k m s =>
  match m s with
  | (inr a, s') => k a s'
  | (inl e, s') => (inl e, s')
  end.

Definition fail {S A} (error : string) : M S A := fun s => (inl error, s).
Definition get {S} : M S S := fun s => (inr s, s).
Definition modify {S} (f : S -> S) : M S unit := fun s => (inr (), f s).

(** [if (b) { error = text; return false; }] *)
Definition reject_if {S} (b : bool) (error : string) : M S unit :=
  if b then fail error else mret ().

(** [preserves I m]: code [m] keeps the state property [I], also when it
    fails. *)
Definition preserves {S A} (I : S -> Prop) (m : M S A) : Prop :=
  forall s, I s -> I (m s).2.

(** [hoare P m Q]: from a state in [P], [m] fails or returns with [Q]. *)
Definition hoare {S A} (P : S -> Prop) (m : M S A) (Q : A -> S -> Prop) : Prop :=
  forall s a s', P s -> m s = (inr a, s') -> Q a s'.

Lemma bind_inr {S A B} (m : M S A) (k : A -> M S B) s b s' :
  (m ≫= k) s = (inr b, s') <-> exists a s1, m s = (inr a, s1) /\ k a s1 = (inr b, s').
Proof.
  unfold mbind, M_bind. destruct (m s) as [[e|a] s1]; split.
  - done.
  - by intros (a & s2 & ? & _).
  - intros H. by exists a, s1.
  - by intros (a' & s2 & [= -> ->] & H).
Qed.

Lemma hoare_bind {S A B} P (m : M S A) (k : A -> M S B) Q R :
  hoare P m Q -> (forall a, hoare (Q a) (k a) R) -> hoare P (m ≫= k) R.
Proof.
  intros Hm Hk s b s' Hs H. apply bind_inr in H as (a & s1 & H1 & H2).
  eapply Hk; [|exact H2]. eapply Hm; eauto.
Qed.

Lemma hoare_ret {S A} (P : S -> Prop) (a : A) (Q : A -> S -> Prop) :
  (forall s, P s -> Q a s) -> hoare P (mret a) Q.
Proof. intros H s b s' Hs [= <- <-]. auto. Qed.

Lemma hoare_modify {S} (P : S -> Prop) f (Q : unit -> S -> Prop) :
  (forall s, P s -> Q () (f s)) -> hoare P (modify f) Q.
Proof. intros H s b s' Hs [= <- <-]. auto. Qed.

Lemma hoare_reject {S} (P : S -> Prop) b e (Q : unit -> S -> Prop) :
  (forall s, P s -> b = false -> Q () s) -> hoare P (reject_if b e) Q.
Proof. unfold reject_if. destruct b; intros H s a s' Hs; [done|]. intros [= <- <-]. auto. Qed.

Lemma hoare_weaken {S A} (P P' : S -> Prop) (m : M S A) (Q Q' : A -> S -> Prop) :
  hoare P m Q -> (forall s, P' s -> P s) -> (forall a s, Q a s -> Q' a s) -> hoare P' m Q'.
Proof. intros H HP HQ s a s' Hs Hm. eauto. Qed.

Lemma preserves_bind {S A B} (I : S -> Prop) (m : M S A) (k : A -> M S B) :
  preserves I m -> (forall a, preserves I (k a)) -> preserves I (m ≫= k).
Proof.
  intros Hm Hk s Hs. unfold mbind, M_bind. specialize (Hm s Hs).
  destruct (m s) as [[e|a] s1]; simpl in *; [done|]. by apply Hk.
Qed.

Lemma preserves_ret {S A} (I : S -> Prop) (a : A) : preserves I (mret a).
Proof. intros s Hs; exact Hs. Qed.

Lemma preserves_fail {S A} (I : S -> Prop) e : preserves I (fail (A := A) e).
Proof. intros s Hs; exact Hs. Qed.

Lemma preserves_get {S} (I : S -> Prop) : preserves I get.
Proof. intros s Hs; exact Hs. Qed.

Lemma preserves_reject {S} (I : S -> Prop) b e : preserves I (reject_if b e).
Proof. destruct b; intros s Hs; exact Hs. Qed.

Lemma preserves_modify {S} (I : S -> Prop) f :
  (forall s, I s -> I (f s)) -> preserves I (modify f).
Proof. intros H s Hs. by apply H. Qed.

Lemma preserves_if {S A} (I : S -> Prop) (b : bool) (m1 m2 : M S A) :
  preserves I m1 -> preserves I m2 -> preserves I (if b then m1 else m2).
Proof. by destruct b. Qed.

#[export] Hint Resolve preserves_ret preserves_fail preserves_get preserves_reject : chat.
#[export] Hint Resolve preserves_bind preserves_if : chat.

(** ** Calls that return or fail *)

(** From [P], the code returns with [Q] or fails with [E]. *)
Definition meets {S A} (P : S -> Prop) (c : M S A) (Q : A -> S -> Prop) (E : S -> Prop) : Prop :=
  forall s, P s -> match c s with (inr a, s') => Q a s' | (inl _, s') => E s' end.

Lemma meets_bind {S A B} P (c : M S A) (k : A -> M S B) Q R E :
  meets P c Q E -> (forall a, meets (Q a) (k a) R E) -> meets P (c ≫= k) R E.
Proof.
  intros Hc Hk s Hs. specialize (Hc s Hs). unfold mbind, M_bind. destruct (c s) as [[e|a] s']; [done|]. by apply Hk.
Qed.
Lemma meets_ret {S A} (P : S -> Prop) (a : A) (Q : A -> S -> Prop) E : (forall s, P s -> Q a s) -> meets P (mret a) Q E.
Proof. intros HQ s Hs. by apply HQ. Qed.
Lemma meets_fail {S A} (P : S -> Prop) e (Q : A -> S -> Prop) (E : S -> Prop) : (forall s, P s -> E s) -> meets P (fail e) Q E.
Proof. intros HE s Hs. by apply HE. Qed.
Lemma meets_modify {S} (P : S -> Prop) f (Q : unit -> S -> Prop) E : (forall s, P s -> Q tt (f s)) -> meets P (modify f) Q E.
Proof. intros HQ s Hs. by apply HQ. Qed.
Lemma meets_get {S} (P : S -> Prop) E : meets P get (fun a s => P s /\ a = s) E.
Proof. by intros s Hs. Qed.
Lemma meets_reject {S} (P : S -> Prop) b e (E : S -> Prop) : (forall s, P s -> E s) -> meets P (reject_if b e) (fun _ s => P s /\ b = false) E.
Proof. intros HE s Hs. unfold reject_if. destruct b; [by apply HE|by split]. Qed.
Lemma meets_weaken {S A} (P P' : S -> Prop) (c : M S A) Q Q' (E E' : S -> Prop) :
  meets P c Q E -> (forall s, P' s -> P s) -> (forall a s, Q a s -> Q' a s) -> (forall s, E s -> E' s) -> meets P' c Q' E'.
Proof. intros Hc HP HQ HE s Hs. specialize (Hc s (HP s Hs)). destruct (c s) as [[e|a] s']; auto. Qed.
Lemma meets_pull {S A} (P : S -> Prop) (phi : Prop) (c : M S A) Q E : (phi -> meets P c Q E) -> meets (fun s => P s /\ phi) c Q E.
Proof. intros Hc s [Hs Hphi]. by apply Hc. Qed.
Lemma meets_pull_ex {S A X} (P : X -> S -> Prop) (c : M S A) Q E : (forall x, meets (P x) c Q E) -> meets (fun s => exists x, P x s) c Q E.
Proof. intros Hc s [x Hs]. by apply (Hc x). Qed.
