(* ===== verification/Protocol.v ===== *)
(** * The text protocol helpers, [ChatRoom/src/protocol.cpp]

    Trimming, upper-casing, splitting a command line into its name and raw
    arguments, splitting arguments into words, and the bounded number parsers.
    Every function that reports success through a [bool] and writes its results
    through references returns an [option]. *)
From S2P Require Import Prelude.

Module Protocol.

(** [struct Command] of protocol.hpp. *)
Record Command := mkCommand { cmd_name : string; raw_arguments : string }.

(** The first loop of [trim]: advance [begin] over white space. *)
Fixpoint trim_begin (fuel : nat) (text : string) (begin : nat) : nat :=
  match fuel with
  | 0 => begin
  | S fuel' =>
      match str_nth begin text with
      | Some c => if isspace c then trim_begin fuel' text (S begin) else begin
      | None => begin
      end
  end.

(** The second loop: move [last] back over white space, not beyond [begin]. *)
Fixpoint trim_end (text : string) (begin last : nat) : nat :=
  match last with
  | 0 => 0
  | S last' =>
      if (begin <? S last')%nat &&
         match str_nth last' text with Some c => isspace c | None => false end
      then trim_end text begin last'
      else S last'
  end.

Definition trim (text : string) : string :=
  let begin := trim_begin (String.length text) text 0 in
  let last := trim_end text begin (String.length text) in
  substr begin (last - begin) text.

Definition to_upper_ascii (text : string) : string := str_map toupper text.

Definition is_blank (c : ascii) : bool := in_range 32 32 c || in_range 9 9 c.

Definition parse_command (line : string) : Command :=
  let cleaned := trim line in
  match find_first is_blank cleaned with
  | None => mkCommand (to_upper_ascii cleaned) ""
  | Some separator =>
      mkCommand (to_upper_ascii (substr 0 separator cleaned))
                (trim (str_drop (S separator) cleaned))
  end.

Definition nonspace (c : ascii) : bool := negb (isspace c).

(** [input >> word]: skip white space, then read up to the next white space;
    extraction fails when nothing is left. *)
Definition read_word (s : string) : option (string * string) :=
  let s' := drop_while isspace s in
  if is_empty s' then None
  else Some (take_while nonspace s', drop_while nonspace s').

Fixpoint split_words_loop (fuel : nat) (s : string) : list string :=
  match fuel with
  | 0 => []
  | S fuel' =>
      match read_word s with
      | None => []
      | Some (word, rest) => word :: split_words_loop fuel' rest
      end
  end.

(** Every iteration but the last consumes at least one byte. *)
Definition split_words (text : string) : list string :=
  split_words_loop (S (String.length text)) text.

Definition split_first_token (text : string) : option (string * string) :=
  let cleaned := trim text in
  match find_first is_blank cleaned with
  | None => None
  | Some separator =>
      if is_empty cleaned then None
      else
        let first := substr 0 separator cleaned in
        let rest := trim (str_drop (S separator) cleaned) in
        if negb (is_empty first) && negb (is_empty rest)
        then Some (first, rest) else None
  end.

Definition parse_port (text : string) : option Z :=
  match whole (from_chars_signed 32 text) with
  | Some parsed =>
      if (parsed <? 1)%Z || (65535 <? parsed)%Z then None else Some parsed
  | None => None
  end.

Definition parse_count (text : string) (minimum maximum : Z) : option Z :=
  if is_empty text then None
  else
    match whole (from_chars_unsigned 64 text) with
    | Some parsed =>
        if (parsed <? minimum)%Z || (maximum <? parsed)%Z then None
        else Some parsed
    | None => None
    end.

(** ** Reference definitions *)

(** What [trim] promises: [text] without its leading and trailing white
    space. *)
Definition trim_spec (text : string) : string :=
  drop_while_end isspace (drop_while isspace text).

(** A word list written with single blanks, the way the client writes the
    arguments of a command. *)
Fixpoint join_words (ws : list string) : string :=
  match ws with
  | [] => ""
  | [w] => w
  | w :: ws' => w +:+ String " " (join_words ws')
  end.

Definition is_word (w : string) : bool := negb (is_empty w) && str_forall nonspace w.

(** ** [trim] *)

Lemma trim_begin_spec fuel pre s :
  String.length s <= fuel ->
  trim_begin fuel (pre +:+ s) (String.length pre) =
  String.length pre + String.length (take_while isspace s).
Proof.
  revert pre s. induction fuel as [|fuel IH]; intros pre s Hf; simpl.
  - destruct s; simpl in *; lia.
  - destruct s as [|c s].
    + rewrite str_app_nil_r, str_nth_length. simpl. lia.
    + rewrite str_nth_app_length. simpl in *. destruct (isspace c); simpl; [|lia].
      specialize (IH (pre +:+ String c "") s ltac:(lia)).
      rewrite str_app_assoc, str_length_app in IH. simpl in IH.
      replace (S (String.length pre)) with (String.length pre + 1) by lia.
      change (String c "" +:+ s) with (String c s) in IH. rewrite IH. lia.
Qed.

Lemma trim_end_spec pre core :
  trim_end (pre +:+ core) (String.length pre) (String.length pre + String.length core) =
  String.length pre + String.length (drop_while_end isspace core).
Proof.
  assert (forall t, trim_end (pre +:+ core +:+ t) (String.length pre)
     (String.length pre + String.length core) =
     String.length pre + String.length (drop_while_end isspace core)) as H.
  { induction core as [|core c IH] using str_snoc_ind; intros t.
    - simpl. rewrite Nat.add_0_r. destruct (String.length pre) as [|n] eqn:E; simpl; [done|].
      by rewrite Nat.ltb_irrefl.
    - rewrite drop_while_end_snoc, str_length_app, str_app_assoc. simpl String.length.
      replace (String.length pre + (String.length core + 1))
        with (S (String.length pre + String.length core)) by lia.
      change (String c "" +:+ t) with (String c t).
      simpl trim_end. rewrite <- (str_app_assoc pre core), <- str_length_app, str_nth_app_length.
      replace (String.length pre <? S (String.length (pre +:+ core)))%nat with true
        by (symmetry; apply Nat.ltb_lt; rewrite str_length_app; lia).
      simpl. destruct (isspace c).
      + rewrite str_app_assoc, str_length_app. apply IH.
      + rewrite !str_length_app. simpl. lia. }
  specialize (H ""). by rewrite str_app_nil_r in H.
Qed.

Lemma trim_correct text : trim text = trim_spec text.
Proof.
  unfold trim, trim_spec.
  pose proof (trim_begin_spec (String.length text) "" text ltac:(lia)) as Hb.
  change ("" +:+ text) with text in Hb. simpl in Hb. rewrite Hb.
  pose proof (take_drop_while isspace text) as Hs.
  pose proof (trim_end_spec (take_while isspace text) (drop_while isspace text)) as He.
  rewrite <- str_length_app, Hs in He. rewrite He.
  unfold substr.
  assert (str_drop (String.length (take_while isspace text)) text = drop_while isspace text) as ->
    by (rewrite <- Hs at 2; apply str_drop_app_length).
  replace (_ + _ - _) with (String.length (drop_while_end isspace (drop_while isspace text))) by lia.
  destruct (drop_while_end_prefix isspace (drop_while isspace text)) as (t & Ht & _).
  rewrite Ht at 2. apply str_take_app_length.
Qed.

Lemma trim_idem text : trim (trim text) = trim text.
Proof.
  rewrite !trim_correct. unfold trim_spec.
  rewrite drop_while_drop_while_end. apply drop_while_end_idem.
Qed.

(** A text with no white space at either end is left alone. *)
Lemma trim_word w : str_forall nonspace w = true -> trim w = w.
Proof.
  intros H. rewrite trim_correct. unfold trim_spec.
  rewrite (drop_while_noop isspace w).
  - by apply drop_while_end_none.
  - intros c t ->. simpl in H. apply andb_true_iff in H as [H _]. by apply negb_true_iff.
Qed.

(** ** [split_words] *)

Lemma read_word_progress s w rest :
  read_word s = Some (w, rest) ->
  is_word w = true /\ String.length rest < String.length s.
Proof.
  unfold read_word. destruct (drop_while isspace s) as [|c t] eqn:E; [done|].
  cbn [is_empty]. intros [= <- <-]. pose proof (drop_while_head _ _ _ _ E) as Hc.
  assert (nonspace c = true) as Hn by (unfold nonspace; by rewrite Hc).
  pose proof (take_while_forall nonspace (String c t)) as Hf.
  pose proof (take_drop_while isspace s) as Hs. rewrite E in Hs.
  pose proof (take_drop_while nonspace (String c t)) as Ht.
  apply (f_equal String.length) in Hs, Ht. rewrite !str_length_app in *.
  unfold is_word. simpl in *. rewrite Hn in *. simpl in *. rewrite Hn in *. simpl in *.
  split; [done|lia].
Qed.

(** Any fuel beyond the length of the text gives the same words. *)
Lemma split_words_fuel fuel s :
  String.length s < fuel -> split_words_loop fuel s = split_words s.
Proof.
  unfold split_words. generalize (le_n (S (String.length s))).
  generalize (S (String.length s)) at 2 3 as fuel'. revert s.
  induction fuel as [|fuel IH]; intros s fuel' Hf' Hf; [lia|].
  destruct fuel' as [|fuel']; [lia|]. simpl.
  destruct (read_word s) as [[w rest]|] eqn:E; [|done].
  apply read_word_progress in E as [_ Hr]. f_equal.
  rewrite (IH rest (S (String.length rest))) by lia.
  rewrite <- (IH rest fuel') by lia. symmetry. apply IH; lia.
Qed.

Lemma split_words_unfold s :
  split_words s =
  match read_word s with None => [] | Some (w, rest) => w :: split_words rest end.
Proof.
  unfold split_words at 1. simpl. destruct (read_word s) as [[w rest]|] eqn:E; [|done].
  apply read_word_progress in E as [_ ?]. by rewrite split_words_fuel.
Qed.

Lemma split_words_forall s : Forall (fun w => is_word w = true) (split_words s).
Proof.
  induction s as [s IH] using (induction_ltof1 _ String.length). unfold ltof in IH.
  rewrite split_words_unfold. destruct (read_word s) as [[w rest]|] eqn:E; [|constructor].
  apply read_word_progress in E as [Hw Hr]. constructor; auto.
Qed.

Lemma read_word_app w rest :
  is_word w = true ->
  (forall c t, rest = String c t -> isspace c = true) ->
  read_word (w +:+ rest) = Some (w, rest).
Proof.
  unfold is_word. rewrite andb_true_iff. intros [Hne Hw] Hrest. unfold read_word.
  destruct w as [|c w]; [done|]. rewrite str_app_cons.
  assert (isspace c = false) as Hc.
  { simpl in Hw. apply andb_true_iff in Hw as [Hw _]. by apply negb_true_iff. }
  rewrite (drop_while_noop isspace) by (by intros ?? [= <- _]).
  cbn [is_empty]. rewrite <- str_app_cons.
  destruct (take_while_run nonspace (String c w) rest) as [-> ->]; [done| |done].
  intros d t Ht. unfold nonspace. by rewrite (Hrest d t Ht).
Qed.

Lemma split_words_skip_space c s : isspace c = true -> split_words (String c s) = split_words s.
Proof.
  intros Hc. rewrite !split_words_unfold. unfold read_word. simpl. by rewrite Hc.
Qed.

Lemma split_words_join ws :
  Forall (fun w => is_word w = true) ws -> split_words (join_words ws) = ws.
Proof.
  induction 1 as [|w ws Hw Hws IH]; [done|].
  assert (split_words "" = []) as Hnil by reflexivity.
  destruct ws as [|w' ws].
  - pose proof (read_word_app w "" Hw) as H. rewrite str_app_nil_r in H.
    simpl. rewrite split_words_unfold, H by done. by rewrite Hnil.
  - change (join_words (w :: w' :: ws)) with (w +:+ String " " (join_words (w' :: ws))).
    rewrite split_words_unfold, read_word_app; [|done|by intros ?? [= <- _]].
    rewrite split_words_skip_space by done. by rewrite IH.
Qed.

(** ** Commands and numbers *)

Lemma find_first_blank_none w : str_forall nonspace w = true -> find_first is_blank w = None.
Proof.
  intros H. apply find_first_none. revert H. apply str_forall_impl.
  intros c. byte_cases c.
Qed.

(** A trimmed text has no white space at either end. *)
Lemma trim_fixed t :
  trim t = t -> drop_while isspace t = t /\ drop_while_end isspace t = t.
Proof.
  rewrite trim_correct. unfold trim_spec. intros Ht.
  destruct (drop_while_end_prefix isspace (drop_while isspace t)) as (u & Hu & _).
  rewrite Ht in Hu. apply (f_equal String.length) in Hu.
  pose proof (take_drop_while isspace t) as Hs. apply (f_equal String.length) in Hs as Hl.
  rewrite !str_length_app in *.
  assert (take_while isspace t = "") as Hz by (destruct (take_while isspace t); [done|simpl in *; lia]).
  rewrite Hz in Hs. change (drop_while isspace t = t) in Hs. by rewrite Hs in Ht.
Qed.

(** Two trimmed texts around a visible separator, or a word and a blank. *)
Lemma trim_join w c t :
  w <> "" -> trim w = w -> trim t = t -> (isspace c = false \/ t <> "") ->
  trim (w +:+ String c t) = w +:+ String c t.
Proof.
  intros Hne Hw Ht Hc. apply trim_fixed in Hw as [Hw _], Ht as [Ht Hte].
  rewrite trim_correct. unfold trim_spec.
  rewrite drop_while_app.
  - rewrite Hw, drop_while_end_app. change (String c t) with (String c "" +:+ t).
    rewrite str_forall_app, drop_while_end_app, Hte. simpl. rewrite andb_true_r.
    destruct (str_forall isspace t) eqn:E; rewrite ?andb_false_r, ?andb_true_r; [|done].
    rewrite drop_while_all in Ht by done. destruct Hc as [-> | Hc]; [|done]. by rewrite <- Ht.
  - destruct (str_forall isspace w) eqn:E; [|done]. rewrite drop_while_all in Hw by done. done.
Qed.

Lemma trim_app w t :
  is_word w = true -> t <> "" -> trim t = t -> trim (w +:+ String " " t) = w +:+ String " " t.
Proof.
  unfold is_word. rewrite andb_true_iff. intros [Hne Hw] Ht Htrim.
  apply trim_join; auto using trim_word. by intros ->.
Qed.

(** A command line written as a name, one blank and trimmed arguments is parsed
    back, with the name in upper case. *)
Lemma parse_command_line w args :
  is_word w = true -> args <> "" -> trim args = args ->
  parse_command (w +:+ String " " args) = mkCommand (to_upper_ascii w) args.
Proof.
  intros Hw Hne Hargs. unfold parse_command. rewrite trim_app by done.
  rewrite (find_first_app is_blank w " "%char args); [|revert Hw|done].
  - unfold substr. rewrite str_drop_0, str_take_app_length.
    replace (str_drop (S (String.length w)) (w +:+ String " " args)) with args; [by rewrite Hargs|].
    change (String " " args) with (String " " "" +:+ args). rewrite <- str_app_assoc.
    replace (S (String.length w)) with (String.length (w +:+ String " " ""))
      by (rewrite str_length_app; simpl; lia).
    by rewrite str_drop_app_length.
  - unfold is_word. rewrite andb_true_iff. intros [_ Hw]. revert Hw. apply str_forall_impl.
    intros c. byte_cases c.
Qed.

Lemma parse_count_bounds text lo hi n :
  parse_count text lo hi = Some n -> (lo <= n <= hi)%Z /\ (0 <= n < 2 ^ 64)%Z.
Proof.
  unfold parse_count. case_match; [done|]. case_match eqn:E; [|done].
  case_match; [done|]. intros [= <-]. case_bools. apply whole_unsigned_range in E. lia.
Qed.

Lemma parse_count_to_string n lo hi :
  (0 <= n < 2 ^ 64)%Z ->
  parse_count (to_string n) lo hi = if decide (lo <= n <= hi)%Z then Some n else None.
Proof.
  intros Hn. unfold parse_count. destruct (to_string_spec n) as (Hne & _); [lia|].
  rewrite is_empty_false, from_chars_to_string by done. simpl.
  destruct (n <? lo)%Z eqn:E1, (hi <? n)%Z eqn:E2; case_bools; simpl; case_decide; try done; lia.
Qed.

Lemma parse_port_bounds text n : parse_port text = Some n -> (1 <= n <= 65535)%Z.
Proof.
  unfold parse_port. case_match; [|done]. case_match; [done|]. intros [= <-]. case_bools. lia.
Qed.

Lemma from_chars_signed_digits w s :
  str_forall isdigit s = true -> s <> "" -> (dec_value 0 s < 2 ^ (w - 1))%Z -> (0 < w)%Z ->
  from_chars_signed w s = Some (dec_value 0 s, "").
Proof.
  intros Hs Hne Hv Hw. unfold from_chars_signed.
  destruct s as [|c s]; [done|].
  assert (c <> "-"%char) as Hc by (intros ->; by simpl in Hs).
  assert (match String c s with String "-" _ => true | _ => false end = false) as ->
    by (clear Hs Hne Hv; revert Hc; revert c; intros [[] [] [] [] [] [] [] []]; done).
  rewrite take_while_all, drop_while_all by done. simpl is_empty. cbn iota.
  pose proof (dec_value_nonneg 0 (String c s) ltac:(lia) Hs).
  rewrite (proj2 (Z.ltb_lt _ _) Hv), andb_true_r.
  by rewrite (proj2 (Z.leb_le _ _)) by (pose proof (Z.pow_nonneg 2 (w-1)); lia).
Qed.

Lemma parse_port_to_string n :
  (0 <= n < 2 ^ 31)%Z ->
  parse_port (to_string n) = if decide (1 <= n <= 65535)%Z then Some n else None.
Proof.
  intros Hn. destruct (to_string_spec n) as (Hne & Hd & Hv); [lia|].
  unfold parse_port. rewrite from_chars_signed_digits by (rewrite ?Hv; done || lia).
  rewrite Hv. simpl.
  destruct (n <? 1)%Z eqn:E1, (65535 <? n)%Z eqn:E2; case_bools; simpl; case_decide; try done; lia.
Qed.

End Protocol.
