(* ===== verification/FileUtils.v ===== *)
(** * File and encoding helpers, [ChatRoom/src/file_utils.cpp]

    Percent encoding of text carried in one protocol word, sanitising of file
    names, transfer tokens, the format checks of tokens and SHA-256 digests, and
    the chunked digest of a file.  OpenSSL is not part of the sources: the
    random bytes are an argument and the digest engine is the class
    [DigestEngine]. *)
From S2P Require Import Prelude Protocol.

Module FileUtils.

(** ** Percent encoding *)

Definition unreserved (c : ascii) : bool :=
  isalnum c || in_range 45 45 c || in_range 95 95 c || in_range 46 46 c || in_range 126 126 c.

Definition upper_hex_digits : string := "0123456789ABCDEF".
Definition lower_hex_digits : string := "0123456789abcdef".

Definition hex_digit (digits : string) (n : Z) : ascii :=
  default "000"%char (str_nth (Z.to_nat n) digits).

Fixpoint percent_encode (text : string) : string :=
  match text with
  | EmptyString => ""
  | String c rest =>
      if unreserved c then String c (percent_encode rest)
      else
        String "%" (String (hex_digit upper_hex_digits (Z.land (Z.shiftr (byte_val c) 4) 15))
          (String (hex_digit upper_hex_digits (Z.land (byte_val c) 15)) (percent_encode rest)))
  end.

(** The lambda [hex_value]; [None] for [-1]. *)
Definition hex_value (c : ascii) : option Z :=
  if in_range 48 57 c then Some (byte_val c - 48)%Z
  else if in_range 97 102 c then Some (10 + byte_val c - 97)%Z
  else if in_range 65 70 c then Some (10 + byte_val c - 65)%Z
  else None.

Inductive decode_error :=
  | IncompleteEscape   (** "百分号编码不完整" *)
  | InvalidEscape.     (** "百分号编码无效" *)

Definition decode_error_text (e : decode_error) : string :=
  match e with
  | IncompleteEscape => "百分号编码不完整"
  | InvalidEscape => "百分号编码无效"
  end.

Fixpoint percent_decode (encoded : string) : decode_error + string :=
  match encoded with
  | EmptyString => inr ""
  | String c rest =>
      if negb (in_range 37 37 c)
      then match percent_decode rest with
           | inr t => inr (String c t)
           | inl e => inl e
           end
      else
        match rest with
        | String h (String l rest') =>
            match hex_value h, hex_value l with
            | Some high, Some low =>
                match percent_decode rest' with
                | inr t => inr (String (char_of (Z.lor (Z.shiftl high 4) low)) t)
                | inl e => inl e
                end
            | _, _ => inl InvalidEscape
            end
        | _ => inl IncompleteEscape
        end
  end.

(** ** Hexadecimal output: [std::hex << std::setw(2) << std::setfill('0')] *)

Fixpoint to_hex (data : string) : string :=
  match data with
  | EmptyString => ""
  | String c rest =>
      String (hex_digit lower_hex_digits (byte_val c / 16))
        (String (hex_digit lower_hex_digits (byte_val c mod 16)) (to_hex rest))
  end.

(** [make_transfer_token]: [rand] is what [RAND_bytes] wrote into the 16-byte
    array, [None] when it failed. *)
Definition make_transfer_token (rand : option string) : string :=
  match rand with
  | Some bytes => to_hex bytes
  | None => ""
  end.

(** ** File names *)

(** [std::filesystem::path(filename).filename()]: what follows the last
    slash. *)
Fixpoint path_filename (path : string) : string :=
  match path with
  | EmptyString => ""
  | String c rest =>
      if in_range 47 47 c || negb (str_forall (fun d => negb (in_range 47 47 d)) rest)
      then path_filename rest
      else path
  end.

Definition safe_char (c : ascii) : bool :=
  isalnum c || in_range 46 46 c || in_range 95 95 c || in_range 45 45 c.

Definition sanitize_filename (filename : string) : string :=
  let name := path_filename filename in
  if is_empty name || (name =s? ".") || (name =s? "..") then "file.bin"
  else
    let name := str_map (fun c => if safe_char c then c else "_"%char) name in
    let name := if (180 <? strlen name)%Z then str_take 180 name else name in
    if is_empty name then "file.bin" else name.

(** ** Format checks *)

Definition is_valid_transfer_token (token : string) : bool :=
  if negb (strlen token =? 32)%Z then false else str_forall isxdigit token.

Definition is_valid_sha256_hex (value : string) : bool :=
  if negb (strlen value =? 64)%Z then false else str_forall isxdigit value.

(** ** The digest of a file *)

(** What the code uses of OpenSSL's EVP digest interface; [None] is a failing
    call. *)
Class DigestEngine := {
  md_ctx : Type;
  EVP_MD_CTX_new : option md_ctx;
  EVP_DigestInit : md_ctx -> option md_ctx;
  EVP_DigestUpdate : md_ctx -> string -> option md_ctx;
  EVP_DigestFinal : md_ctx -> option string;
}.

Definition kDigestChunk : nat := Z.to_nat (64 * 1024).

(** The read loop: full chunks until the input is exhausted; [fuel] bounds the
    number of chunks. *)
Fixpoint digest_loop `{DigestEngine} (fuel chunk : nat) (ctx : md_ctx) (content : string)
    : option md_ctx :=
  match fuel with
  | 0 => Some ctx
  | S fuel' =>
      if is_empty content then Some ctx
      else
        match EVP_DigestUpdate ctx (str_take chunk content) with
        | None => None
        | Some ctx' => digest_loop fuel' chunk ctx' (str_drop chunk content)
        end
  end.

(** What opening and reading a file in binary mode gives: nothing, or the bytes
    read and whether the end of the file was reached without a read error. *)
Inductive file_read :=
  | CannotOpen
  | ReadBytes (bytes : string) (eof : bool).

Definition sha256_file_hex `{DigestEngine} (path : string) (content : file_read)
    : string + string :=
  match content with
  | CannotOpen => inl ("无法打开文件计算 SHA-256：" +:+ path)
  | ReadBytes bytes eof =>
      match EVP_MD_CTX_new with
      | None => inl "创建 EVP 摘要上下文失败"
      | Some ctx =>
          match EVP_DigestInit ctx with
          | None => inl "初始化 SHA-256 摘要失败"
          | Some ctx =>
              match digest_loop (S (String.length bytes)) kDigestChunk ctx bytes with
              | None => inl "更新 SHA-256 摘要失败"
              | Some ctx =>
                  if negb eof then inl "计算 SHA-256 时读取文件失败"
                  else
                    match EVP_DigestFinal ctx with
                    | None => inl "完成 SHA-256 摘要失败"
                    | Some digest => inr (to_hex digest)
                    end
              end
          end
      end
  end.

(** What the engine promises: feeding the chunks of a text one after the other
    gives the digest of the whole text. *)
Class DigestLaws `{DigestEngine} (sha256 : string -> string) := {
  digest_chunks : forall ctx0 ctx chunks,
    (EVP_MD_CTX_new ≫= EVP_DigestInit) = Some ctx0 ->
    foldr (fun c k ctx => EVP_DigestUpdate ctx c ≫= k) Some chunks ctx0 = Some ctx ->
    forall d, EVP_DigestFinal ctx = Some d -> d = sha256 (foldr String.append "" chunks);
}.

(** The bytes that may appear in an encoded text. *)
Definition encoded_char (c : ascii) : bool := unreserved c || in_range 37 37 c.

(** ** Percent encoding: lemmas *)

Lemma hex_digits_decode c :
  unreserved c = false ->
  (high ← hex_value (hex_digit upper_hex_digits (Z.land (Z.shiftr (byte_val c) 4) 15));
   low ← hex_value (hex_digit upper_hex_digits (Z.land (byte_val c) 15));
   Some (char_of (Z.lor (Z.shiftl high 4) low))) = Some c.
Proof. byte_cases c. Qed.

Lemma unreserved_not_percent c : unreserved c = true -> in_range 37 37 c = false.
Proof. byte_cases c. Qed.

Lemma decode_encode text : percent_decode (percent_encode text) = inr text.
Proof.
  induction text as [|c text IH]; [done|]. cbn [percent_encode].
  destruct (unreserved c) eqn:E; cbn [percent_decode].
  - rewrite (unreserved_not_percent _ E). simpl. by rewrite IH.
  - change (in_range 37 37 "%") with true. cbn [negb].
    generalize (hex_digits_decode c E). generalize (percent_encode text), IH. clear.
    intros t IH.
    generalize (hex_value (hex_digit upper_hex_digits (Z.land (Z.shiftr (byte_val c) 4) 15))).
    generalize (hex_value (hex_digit upper_hex_digits (Z.land (byte_val c) 15))).
    intros [low|] [high|]; try done. intros [= Hc]. by rewrite IH, Hc.
Qed.

Lemma hex_digit_encoded c :
  encoded_char (hex_digit upper_hex_digits (Z.land (Z.shiftr (byte_val c) 4) 15)) = true /\
  encoded_char (hex_digit upper_hex_digits (Z.land (byte_val c) 15)) = true.
Proof. byte_cases c. Qed.

Lemma percent_encode_chars text : str_forall encoded_char (percent_encode text) = true.
Proof.
  induction text as [|c text IH]; [done|]. cbn [percent_encode].
  destruct (unreserved c) eqn:E; cbn [str_forall].
  - unfold encoded_char at 1. by rewrite E, IH.
  - destruct (hex_digit_encoded c) as [-> ->]. by rewrite IH.
Qed.

Lemma encoded_char_nonspace c : encoded_char c = true -> Protocol.nonspace c = true.
Proof. byte_cases c. Qed.

Lemma percent_encode_word text : text <> "" -> Protocol.is_word (percent_encode text) = true.
Proof.
  intros Hne. unfold Protocol.is_word. apply andb_true_iff. split.
  - destruct text as [|c text]; [done|]. simpl. by destruct (unreserved c).
  - eapply str_forall_impl; [apply encoded_char_nonspace|apply percent_encode_chars].
Qed.

Lemma percent_encode_length text :
  (String.length text <= String.length (percent_encode text) <= 3 * String.length text)%nat.
Proof. induction text as [|c text IH]; simpl; [lia|]. destruct (unreserved c); simpl; lia. Qed.

Lemma percent_decode_length encoded text :
  percent_decode encoded = inr text -> (String.length text <= String.length encoded)%nat.
Proof.
  revert text. induction encoded as [encoded IH] using (induction_ltof1 _ String.length).
  unfold ltof in IH. intros text. destruct encoded as [|c rest]; simpl; [by intros [= <-]|].
  destruct (negb (in_range 37 37 c)).
  - destruct (percent_decode rest) eqn:E; [done|]. intros [= <-]. apply IH in E; simpl; lia.
  - destruct rest as [|h [|l rest]]; try done.
    destruct (hex_value h), (hex_value l); try done.
    destruct (percent_decode rest) eqn:E; [done|]. intros [= <-]. apply IH in E; simpl in *; lia.
Qed.

(** ** File names: lemmas *)

Definition no_slash (c : ascii) : bool := negb (in_range 47 47 c).

Lemma path_filename_no_slash path : str_forall no_slash (path_filename path) = true.
Proof.
  induction path as [|c path IH]; simpl; [done|].
  destruct (in_range 47 47 c) eqn:Ec; simpl; [done|].
  destruct (str_forall _ path) eqn:Ep; simpl; [|done].
  unfold no_slash at 1. by rewrite Ec.
Qed.

Lemma path_filename_plain name : str_forall no_slash name = true -> path_filename name = name.
Proof.
  destruct name as [|c name]; simpl; [done|]. rewrite andb_true_iff. intros [Hc Hn].
  apply negb_true_iff in Hc. unfold no_slash in Hn. by rewrite Hc, Hn.
Qed.

Definition clean (name : string) : string :=
  str_map (fun c => if safe_char c then c else "_"%char) name.

Lemma clean_safe name : str_forall safe_char (clean name) = true.
Proof.
  unfold clean. rewrite str_forall_map. induction name as [|c name IH]; simpl; [done|].
  rewrite IH, andb_true_r. by destruct (safe_char c) eqn:E.
Qed.

Lemma clean_id name : str_forall safe_char name = true -> clean name = name.
Proof.
  unfold clean. induction name as [|c name IH]; simpl; [done|].
  rewrite andb_true_iff. intros [-> H]. by rewrite IH.
Qed.

Lemma safe_char_no_slash c : safe_char c = true -> no_slash c = true.
Proof. byte_cases c. Qed.

(** A cleaned name is a dot name only if the name was. *)
Lemma clean_dots name :
  (clean name = "" -> name = "") /\ (clean name = "." -> name = ".") /\
  (clean name = ".." -> name = "..").
Proof.
  assert (forall c, (if safe_char c then c else "_"%char) = "."%char -> c = "."%char) as Hdot
    by (intros c; byte_cases c).
  destruct name as [|a [|b [|c name]]]; unfold clean; simpl; split_and!; try done;
    intros [=]; repeat match goal with H : _ = "."%char |- _ => apply Hdot in H end; by subst.
Qed.

Record safe_name (name : string) : Prop := {
  safe_chars : str_forall safe_char name = true;
  safe_nonempty : name <> "";
  safe_not_dot : name <> ".";
  safe_not_dotdot : name <> "..";
  safe_length : (String.length name <= 180)%nat;
}.

Lemma strlen_gt s k : (k <? strlen s)%Z = true <-> (k < Z.of_nat (String.length s))%Z.
Proof. unfold strlen. apply Z.ltb_lt. Qed.

Lemma sanitize_safe filename : safe_name (sanitize_filename filename).
Proof.
  unfold sanitize_filename. set (name := path_filename filename).
  destruct (is_empty name || (name =s? ".") || (name =s? "..")) eqn:E; [by constructor; vm_compute; try lia|].
  case_bools. fold (clean name).
  destruct (clean_dots name) as (Hd0 & Hd1 & Hd2).
  assert (name <> "") as Hne by (by destruct name).
  assert (String.length (clean name) = String.length name) as Hlen by apply str_map_length.
  pose proof (clean_safe name) as Hs. fold name.
  destruct (180 <? strlen (clean name))%Z eqn:El.
  - apply strlen_gt in El.
    assert (String.length (str_take 180 (clean name)) = 180)%nat as Ht
      by (rewrite str_take_length; lia).
    rewrite is_empty_false by (intros Hz; rewrite Hz in Ht; done).
    constructor; [by apply str_forall_take| | | |lia];
      intros Hz; rewrite Hz in Ht; done.
  - unfold strlen in El. case_bools.
    rewrite is_empty_false by auto. constructor; auto. lia.
Qed.

Lemma sanitize_safe_id name : safe_name name -> sanitize_filename name = name.
Proof.
  intros [Hs Hn0 Hn1 Hn2 Hl]. unfold sanitize_filename.
  rewrite path_filename_plain
    by (eapply str_forall_impl; [apply safe_char_no_slash|done]).
  rewrite is_empty_false by done.
  apply String.eqb_neq in Hn1, Hn2. rewrite Hn1, Hn2. simpl.
  fold (clean name). rewrite clean_id by done.
  destruct (180 <? strlen name)%Z eqn:El; [apply strlen_gt in El; lia|].
  by rewrite is_empty_false.
Qed.

(** ** Tokens *)

Lemma hex_digit_lower c :
  isxdigit (hex_digit lower_hex_digits (byte_val c / 16)) = true /\
  isxdigit (hex_digit lower_hex_digits (byte_val c mod 16)) = true /\
  tolower (hex_digit lower_hex_digits (byte_val c / 16)) = hex_digit lower_hex_digits (byte_val c / 16) /\
  tolower (hex_digit lower_hex_digits (byte_val c mod 16)) = hex_digit lower_hex_digits (byte_val c mod 16).
Proof. byte_cases c. Qed.

Lemma to_hex_xdigits data : str_forall isxdigit (to_hex data) = true.
Proof.
  induction data as [|c data IH]; [done|]. cbn [to_hex str_forall].
  destruct (hex_digit_lower c) as (-> & -> & _). by rewrite IH.
Qed.

Lemma to_hex_lower data : str_map tolower (to_hex data) = to_hex data.
Proof.
  induction data as [|c data IH]; [done|]. cbn [to_hex str_map].
  destruct (hex_digit_lower c) as (_ & _ & -> & ->). by rewrite IH.
Qed.

Lemma to_hex_length data : String.length (to_hex data) = (2 * String.length data)%nat.
Proof. induction data as [|c data IH]; simpl; [done|]. rewrite IH. lia. Qed.

(** ** The chunked digest *)

Section Digest.
Context `{Hlaws : DigestLaws sha256}.

(** The loop feeds consecutive chunks whose concatenation is the content. *)
Lemma digest_loop_chunks fuel chunk ctx content ctx' :
  (0 < chunk)%nat -> (String.length content < fuel)%nat ->
  digest_loop fuel chunk ctx content = Some ctx' ->
  exists chunks, foldr String.append "" chunks = content /\
    foldr (fun c k ctx => EVP_DigestUpdate ctx c ≫= k) Some chunks ctx = Some ctx'.
Proof.
  intros Hc. revert ctx content. induction fuel as [|fuel IH]; intros ctx content Hf; [lia|].
  simpl. destruct (is_empty content) eqn:E.
  - intros [= <-]. exists []. by rewrite (is_empty_true _ E).
  - destruct (EVP_DigestUpdate ctx (str_take chunk content)) as [ctx1|] eqn:Eu; [|done].
    intros Hl. apply IH in Hl as (chunks & Hcat & Hfold).
    + exists (str_take chunk content :: chunks). simpl. rewrite Hcat, str_take_drop.
      split; [done|]. by rewrite Eu.
    + pose proof (str_take_drop chunk content) as Ht. apply (f_equal String.length) in Ht.
      rewrite str_length_app, str_take_length in Ht. destruct content; [done|]. simpl in *. lia.
Qed.

Lemma sha256_file_hex_correct path bytes hex :
  sha256_file_hex path (ReadBytes bytes true) = inr hex -> hex = to_hex (sha256 bytes).
Proof.
  unfold sha256_file_hex. destruct EVP_MD_CTX_new as [ctx|] eqn:E1; [|done].
  destruct (EVP_DigestInit ctx) as [ctx0|] eqn:E2; [|done].
  destruct (digest_loop _ _ ctx0 bytes) as [ctx1|] eqn:E3; [|done].
  destruct (EVP_DigestFinal ctx1) as [d|] eqn:E4; [|done]. intros [= <-].
  apply digest_loop_chunks in E3 as (chunks & <- & Hfold); [|unfold kDigestChunk; lia|lia].
  f_equal. eapply digest_chunks; eauto. rewrite E1. done.
Qed.
End Digest.

End FileUtils.
