(* ===== verification/Password.v ===== *)
(** * Password storage, [ChatRoom/src/password.cpp]

    The stored form is [pbkdf2_sha256$<iterations>$<salt hex>$<hash hex>].
    OpenSSL's [RAND_bytes] and [PKCS5_PBKDF2_HMAC] are parameters: the random
    salt is an argument and the derivation is the section variable [derive]. *)
From S2P Require Import Prelude Protocol FileUtils.

Module Password.

Definition kIterations : Z := 210000.
Definition kSaltBytes : nat := 16.
Definition kHashBytes : nat := 32.

Definition to_hex (data : string) : string := FileUtils.to_hex data.

(** The digits a stream extraction in base 16 reads. *)
Fixpoint hex_number (acc : Z) (s : string) : Z :=
  match s with
  | EmptyString => acc
  | String c s' => hex_number (16 * acc + default 0%Z (FileUtils.hex_value c)) s'
  end.

Definition is_hex_char (c : ascii) : bool := bool_decide (is_Some (FileUtils.hex_value c)).

(** [input >> std::hex >> value] for an [unsigned int]: leading white space is
    skipped, then an optional sign, an optional [0x] prefix and the longest run
    of hexadecimal digits; the extraction fails without a digit, and what
    follows the digits is left unread.  A negative value wraps around. *)
Definition extract_hex (text : string) : option Z :=
  let t := drop_while isspace text in
  let '(neg, t) :=
    match t with
    | String "-" t' => (true, t')
    | String "+" t' => (false, t')
    | _ => (false, t)
    end in
  let t :=
    match t with
    | String "0" (String "x" t') | String "0" (String "X" t') => t'
    | _ => t
    end in
  let digits := take_while is_hex_char t in
  if is_empty digits then None
  else Some (wrap 32 (if neg then - hex_number 0 digits else hex_number 0 digits)%Z).

Fixpoint from_hex_loop (text : string) : option string :=
  match text with
  | EmptyString => Some ""
  | String a (String b rest) =>
      match extract_hex (String a (String b "")) with
      | None => None
      | Some value =>
          if (255 <? value)%Z then None
          else String (char_of value) <$> from_hex_loop rest
      end
  | String _ EmptyString => None
  end.

Definition from_hex (text : string) : option string :=
  if negb (strlen text mod 2 =? 0)%Z then None else from_hex_loop text.

(** [std::stoi]: white space, an optional sign, decimal digits, the rest
    ignored; [None] when it throws (no digit, or out of range of [int]). *)
Definition stoi (text : string) : option Z :=
  let t := drop_while isspace text in
  let '(neg, t) :=
    match t with
    | String "-" t' => (true, t')
    | String "+" t' => (false, t')
    | _ => (false, t)
    end in
  let digits := take_while isdigit t in
  if is_empty digits then None
  else
    let v := if neg then (- dec_value 0 digits)%Z else dec_value 0 digits in
    if (- 2 ^ 31 <=? v)%Z && (v <? 2 ^ 31)%Z then Some v else None.

Definition is_dollar (c : ascii) : bool := in_range 36 36 c.

(** [encoded.find('$', pos)], as an absolute position. *)
Definition find_dollar (encoded : string) (pos : nat) : option nat :=
  Nat.add pos <$> find_first is_dollar (str_drop pos encoded).

Section Password.
(** [PKCS5_PBKDF2_HMAC] with SHA-256: password, salt, iterations and output
    size; [None] when it does not return 1. *)
Variable derive : string -> string -> Z -> nat -> option string.

Inductive hash_result :=
  | Hashed (encoded : string)
  | HashThrow (what : string).

(** [rand] is the content of the salt array after [RAND_bytes]. *)
Definition hash_password_pbkdf2 (rand : option string) (password : string) : hash_result :=
  match rand with
  | None => HashThrow "RAND_bytes failed"
  | Some salt =>
      match derive password salt kIterations kHashBytes with
      | None => HashThrow "PBKDF2 failed"
      | Some hash =>
          Hashed ("pbkdf2_sha256$" +:+ to_string kIterations +:+ "$" +:+
                  to_hex salt +:+ "$" +:+ to_hex hash)
      end
  end.

Definition verify_password_pbkdf2 (password encoded : string) : bool :=
  match find_dollar encoded 0 with
  | None => false
  | Some first =>
  match find_dollar encoded (S first) with
  | None => false
  | Some second =>
  match find_dollar encoded (S second) with
  | None => false
  | Some third =>
  if negb (substr 0 first encoded =s? "pbkdf2_sha256") then false else
  match stoi (substr (S first) (second - first - 1) encoded) with
  | None => false
  | Some iterations =>
  if (iterations <? 10000)%Z || (2000000 <? iterations)%Z then false else
  match from_hex (substr (S second) (third - second - 1) encoded),
        from_hex (str_drop (S third) encoded) with
  | Some salt, Some expected =>
      if is_empty salt || is_empty expected then false
      else
        match derive password salt iterations (String.length expected) with
        | None => false
        | Some actual => actual =s? expected
        end
  | _, _ => false
  end end end end end.
End Password.

(** ** Hexadecimal round trip *)

Lemma extract_hex_byte c :
  extract_hex (String (FileUtils.hex_digit FileUtils.lower_hex_digits (byte_val c / 16))
    (String (FileUtils.hex_digit FileUtils.lower_hex_digits (byte_val c mod 16)) ""))
  = Some (byte_val c).
Proof. byte_cases c. Qed.

Lemma from_hex_to_hex data : from_hex (to_hex data) = Some data.
Proof.
  unfold from_hex, to_hex, strlen. rewrite FileUtils.to_hex_length.
  replace (Z.of_nat (2 * String.length data) mod 2 =? 0)%Z with true.
  - simpl negb. cbn iota. induction data as [|c data IH]; [done|].
    cbn [FileUtils.to_hex from_hex_loop]. rewrite extract_hex_byte.
    destruct (255 <? byte_val c)%Z eqn:E.
    + case_bools. pose proof (byte_val_range c). lia.
    + rewrite IH. simpl. by rewrite char_of_byte_val.
  - symmetry. apply Z.eqb_eq. rewrite Nat2Z.inj_mul, Z.mul_comm. apply Z.mod_mul. lia.
Qed.

(** ** The field structure of a stored password *)

Definition plain (s : string) : Prop := str_forall (fun c => negb (is_dollar c)) s = true.

Definition encode_fields (algo iters salt hash : string) : string :=
  algo +:+ String "$" (iters +:+ String "$" (salt +:+ String "$" hash)).

(** Reading one field and its separator at the end of a prefix. *)
Lemma read_field encoded pre s t :
  encoded = pre +:+ s +:+ String "$" t -> plain s ->
  let pos := String.length pre in
  find_dollar encoded pos = Some (pos + String.length s) /\
  substr pos (String.length s) encoded = s /\
  str_drop (S (pos + String.length s)) encoded = t /\
  encoded = (pre +:+ s +:+ "$") +:+ t /\
  S (pos + String.length s) = String.length (pre +:+ s +:+ "$").
Proof.
  intros -> Hs pos. unfold find_dollar, substr, pos. rewrite str_drop_app_length.
  rewrite (find_first_app is_dollar s "$" t Hs eq_refl), str_take_app_length.
  assert (S (String.length pre + String.length s) = String.length (pre +:+ s +:+ "$")) as Hlen
    by (rewrite !str_length_app; simpl; lia).
  assert (pre +:+ s +:+ String "$" t = (pre +:+ s +:+ "$") +:+ t) as Hassoc
    by (by rewrite !str_app_assoc).
  split_and!; [done|done| |done|done].
  rewrite Hlen, Hassoc. apply str_drop_app_length.
Qed.

Lemma find_dollar_some encoded pos n :
  find_dollar encoded pos = Some n ->
  exists s t, str_drop pos encoded = s +:+ String "$" t /\ plain s /\ n = pos + String.length s.
Proof.
  unfold find_dollar. destruct (find_first is_dollar (str_drop pos encoded)) as [m|] eqn:E; [|done].
  intros [= <-]. apply find_first_some in E as (c & t & Hs & Hl & Hc & Hp).
  assert (c = "$"%char) as -> by (revert Hc; clear; byte_cases c).
  exists (str_take m (str_drop pos encoded)), t. rewrite Hl. done.
Qed.

Section Correct.
Variable derive : string -> string -> Z -> nat -> option string.

(** [verify] on a text with the four fields. *)
Lemma verify_fields password algo iters salt hash :
  plain algo -> plain iters -> plain salt ->
  verify_password_pbkdf2 derive password (encode_fields algo iters salt hash) =
  if negb (algo =s? "pbkdf2_sha256") then false else
  match stoi iters with
  | None => false
  | Some iterations =>
  if (iterations <? 10000)%Z || (2000000 <? iterations)%Z then false else
  match from_hex salt, from_hex hash with
  | Some salt, Some expected =>
      if is_empty salt || is_empty expected then false
      else match derive password salt iterations (String.length expected) with
           | None => false
           | Some actual => actual =s? expected
           end
  | _, _ => false
  end end.
Proof.
  intros Ha Hi Hs. unfold verify_password_pbkdf2.
  remember (encode_fields algo iters salt hash) as encoded eqn:He.
  destruct (read_field encoded "" algo _ He Ha) as (F1 & S1 & _ & He1 & L1).
  rewrite str_app_nil_l in He1, L1. cbn [String.length Nat.add] in F1, S1, L1.
  destruct (read_field encoded _ iters _ He1 Hi) as (F2 & S2 & _ & He2 & L2).
  rewrite <- L1 in F2, S2, L2.
  destruct (read_field encoded _ salt _ He2 Hs) as (F3 & S3 & D3 & _).
  rewrite <- L2 in F3, S3, D3.
  rewrite F1, F2, F3, S1.
  replace (S (String.length algo) + String.length iters - String.length algo - 1)
    with (String.length iters) by lia.
  replace (S (S (String.length algo) + String.length iters) + String.length salt -
    (S (String.length algo) + String.length iters) - 1) with (String.length salt) by lia.
  by rewrite S2, S3, D3.
Qed.

(** The texts [verify] can accept are exactly those with four fields. *)
Lemma verify_shape password encoded :
  verify_password_pbkdf2 derive password encoded = true ->
  exists algo iters salt hash, encoded = encode_fields algo iters salt hash /\
    plain algo /\ plain iters /\ plain salt.
Proof.
  unfold verify_password_pbkdf2. intros H.
  destruct (find_dollar encoded 0) as [first|] eqn:E1; [|done].
  destruct (find_dollar encoded (S first)) as [second|] eqn:E2; [|done].
  destruct (find_dollar encoded (S second)) as [third|] eqn:E3; [|done]. clear H.
  apply find_dollar_some in E1 as (algo & t1 & H1 & Ha & ->). rewrite str_drop_0 in H1.
  destruct (read_field encoded "" algo t1 H1 Ha) as (_ & _ & D1 & _).
  cbn [String.length Nat.add] in D1, E2, E3.
  apply find_dollar_some in E2 as (iters & t2 & H2 & Hi & ->). rewrite D1 in H2. subst t1.
  destruct (read_field encoded (algo +:+ "$") iters t2) as (_ & _ & D2 & _);
    [by rewrite H1, !str_app_assoc|done|].
  rewrite str_length_app, Nat.add_1_r in D2. cbn [String.length Nat.add] in D2.
  apply find_dollar_some in E3 as (salt & hash & H3 & Hs & _).
  cbn [Nat.add] in H3. rewrite D2 in H3. subst t2.
  exists algo, iters, salt, hash. done.
Qed.
End Correct.

Lemma digits_plain s : str_forall isdigit s = true -> plain s.
Proof. apply str_forall_impl. intros c. byte_cases c. Qed.

Lemma hex_plain data : plain (to_hex data).
Proof.
  unfold plain. eapply str_forall_impl; [|apply FileUtils.to_hex_xdigits].
  intros c. byte_cases c.
Qed.

(** ** Storing and checking *)

(** A password checks against the text it was hashed to, whatever the random
    salt, provided the derivation returns as many bytes as it is asked for. *)
Theorem verify_hash (derive : string -> string -> Z -> nat -> option string)
    password salt encoded :
  (forall p s i n out, derive p s i n = Some out -> String.length out = n) ->
  String.length salt = kSaltBytes ->
  hash_password_pbkdf2 derive (Some salt) password = Hashed encoded ->
  verify_password_pbkdf2 derive password encoded = true.
Proof.
  intros Hlen Hsalt. unfold hash_password_pbkdf2.
  destruct (derive password salt kIterations kHashBytes) as [hash|] eqn:E; [|done].
  intros [= <-]. pose proof (Hlen _ _ _ _ _ E) as Hh.
  change (verify_password_pbkdf2 derive password
    (encode_fields "pbkdf2_sha256" (to_string kIterations) (to_hex salt) (to_hex hash)) = true).
  rewrite verify_fields; [|done|apply digits_plain, to_string_spec; done|apply hex_plain].
  replace (stoi (to_string kIterations)) with (Some kIterations) by reflexivity.
  rewrite !from_hex_to_hex, Hh, E.
  rewrite !is_empty_false by (intros ->; done).
  change (String.eqb hash hash = true). apply String.eqb_refl.
Qed.

(** [verify_password_pbkdf2] accepts only a four-field text naming the
    algorithm, with an iteration count in 10000..2000000, whose non-empty hash
    is what the derivation computes from the candidate password and the stored
    non-empty salt. *)
Theorem verify_sound (derive : string -> string -> Z -> nat -> option string) password encoded :
  verify_password_pbkdf2 derive password encoded = true ->
  exists iters salt_hex hash_hex iterations salt hash,
    encoded = encode_fields "pbkdf2_sha256" iters salt_hex hash_hex /\
    stoi iters = Some iterations /\ (10000 <= iterations <= 2000000)%Z /\
    from_hex salt_hex = Some salt /\ salt <> "" /\
    from_hex hash_hex = Some hash /\ hash <> "" /\
    derive password salt iterations (String.length hash) = Some hash.
Proof.
  intros H. destruct (verify_shape derive password encoded H)
    as (algo & iters & sh & hh & -> & Ha & Hi & Hs).
  rewrite verify_fields in H by done.
  destruct (algo =s? "pbkdf2_sha256") eqn:Ea; [|done]. cbn [negb] in H.
  destruct (stoi iters) as [n|] eqn:En; [|done].
  destruct ((n <? 10000)%Z || (2000000 <? n)%Z) eqn:Eb; [done|].
  destruct (from_hex sh) as [salt|] eqn:Es; [|done].
  destruct (from_hex hh) as [hash|] eqn:Eh; [|done].
  destruct (is_empty salt || is_empty hash) eqn:Ee; [done|].
  destruct (derive password salt n (String.length hash)) as [out|] eqn:Ed; [|done].
  case_bools. subst. exists iters, sh, hh, n, salt, hash.
  split_and!; try done; try lia; by intros ->.
Qed.

End Password.
