(* ===== verification/Config.v ===== *)
(** * Configuration files, [ChatRoom/src/config.cpp]

    A configuration file is a list of [key = value] lines with [#] and [;]
    comments.  Each loader reads the file into a map, copies the keys it knows
    over the defaults of its struct (config.hpp, tls_config.hpp) and rejects
    values outside their range.  The struct is changed in place, also when the
    loader fails later. *)
From S2P Require Import Prelude Protocol.
Import Protocol.

Module Config.

Record MySqlConfig := mkMySql {
  my_host : string; my_port : Z; my_user : string; my_password : string;
  my_database : string; connect_timeout_seconds : Z; pool_size : Z }.

Definition default_mysql : MySqlConfig :=
  mkMySql "127.0.0.1" 3306 "" "" "chatroom" 5 8.

Record RedisConfig := mkRedis {
  rd_host : string; rd_port : Z; rd_password : string; rd_database : Z;
  connect_timeout_ms : Z; presence_ttl_seconds : Z;
  key_prefix : string; rd_server_name : string }.

Definition default_redis : RedisConfig :=
  mkRedis "127.0.0.1" 6379 "" 0 1000 120 "chatroom" "chat-server".

Record TlsServerConfig := mkTlsServer {
  srv_enabled : bool; certificate_file : string; private_key_file : string }.

Definition default_tls_server : TlsServerConfig :=
  mkTlsServer true "config/tls/server.crt" "config/tls/server.key".

Record TlsClientConfig := mkTlsClient {
  cl_enabled : bool; verify_peer : bool; ca_file : string; cl_server_name : string }.

Definition default_tls_client : TlsClientConfig :=
  mkTlsClient true true "config/tls/ca.crt" "".

Definition parse_unsigned (text : string) : option Z := whole (from_chars_unsigned 32 text).

Definition parse_bool (text : string) : option bool :=
  if (text =s? "true") || (text =s? "1") || (text =s? "yes") || (text =s? "on") then Some true
  else if (text =s? "false") || (text =s? "0") || (text =s? "no") || (text =s? "off")
  then Some false
  else None.

Definition is_newline (c : ascii) : bool := in_range 10 10 c.

(** The lines [std::getline] produces: the text is cut at each newline, and a
    final newline does not start another line. *)
Fixpoint getlines (fuel : nat) (text : string) : list string :=
  match fuel with
  | 0 => []
  | S fuel' =>
      if is_empty text then []
      else
        match find_first is_newline text with
        | None => [text]
        | Some n => str_take n text :: getlines fuel' (str_drop (S n) text)
        end
  end.

Definition lines_of (text : string) : list string := getlines (S (String.length text)) text.

(** One iteration of the loop of [load_key_values]. *)
Definition config_line (label : string) (line_number : Z) (line : string)
    (values : gmap string string) : string + gmap string string :=
  let cleaned := trim line in
  if is_empty cleaned || (str_take 1 cleaned =s? "#") || (str_take 1 cleaned =s? ";")
  then inr values
  else
    match find_first (in_range 61 61) cleaned with
    | None => inl ("invalid " +:+ label +:+ " config line " +:+ to_string line_number)
    | Some equals =>
        let key := trim (substr 0 equals cleaned) in
        let value := trim (str_drop (S equals) cleaned) in
        if is_empty key then inl ("配置文件存在空键，行号：" +:+ to_string line_number)
        else inr (<[key := value]> values)
    end.

Fixpoint config_lines (label : string) (line_number : Z) (lines : list string)
    (values : gmap string string) : string + gmap string string :=
  match lines with
  | [] => inr values
  | line :: rest =>
      match config_line label (line_number + 1) line values with
      | inl e => inl e
      | inr values' => config_lines label (line_number + 1) rest values'
      end
  end.

(** [input] is the content of the file, [None] when it cannot be opened. *)
Definition load_key_values {S} (path : string) (input : option string) (label : string)
    : M S (gmap string string) :=
  match input with
  | None => fail ("无法打开 " +:+ label +:+ " 配置文件：" +:+ path)
  | Some text =>
      match config_lines label 0 (lines_of text) ∅ with
      | inl e => fail e
      | inr values => mret values
      end
  end.

(** [if (values.count(key)) set(values[key])] *)
Definition copy_text {S} (values : gmap string string) (key : string)
    (set : string -> S -> S) : M S unit :=
  match values !! key with
  | Some v => modify (set v)
  | None => mret ()
  end.

(** A bounded number: [parse_unsigned] and the range test of the loader. *)
Definition copy_number {S} (values : gmap string string) (key : string) (lo hi : Z)
    (error : string) (set : Z -> S -> S) : M S unit :=
  match values !! key with
  | None => mret ()
  | Some v =>
      match parse_unsigned v with
      | None => fail error
      | Some parsed =>
          reject_if ((parsed <? lo)%Z || (hi <? parsed)%Z) error ;; modify (set parsed)
      end
  end.

Definition copy_bool {S} (values : gmap string string) (key : string) (error : string)
    (set : bool -> S -> S) : M S unit :=
  match values !! key with
  | None => mret ()
  | Some v =>
      match parse_bool v with
      | None => fail error
      | Some b => modify (set b)
      end
  end.

Definition load_mysql_config (path : string) (input : option string) : M MySqlConfig unit :=
  values ← load_key_values path input "MySQL";
  copy_text values "host" (fun v c =>
    mkMySql v (my_port c) (my_user c) (my_password c) (my_database c)
      (connect_timeout_seconds c) (pool_size c)) ;;
  copy_text values "user" (fun v c =>
    mkMySql (my_host c) (my_port c) v (my_password c) (my_database c)
      (connect_timeout_seconds c) (pool_size c)) ;;
  copy_text values "password" (fun v c =>
    mkMySql (my_host c) (my_port c) (my_user c) v (my_database c)
      (connect_timeout_seconds c) (pool_size c)) ;;
  copy_text values "database" (fun v c =>
    mkMySql (my_host c) (my_port c) (my_user c) (my_password c) v
      (connect_timeout_seconds c) (pool_size c)) ;;
  copy_number values "port" 1 65535 "MySQL 端口无效" (fun v c =>
    mkMySql (my_host c) v (my_user c) (my_password c) (my_database c)
      (connect_timeout_seconds c) (pool_size c)) ;;
  copy_number values "connect_timeout_seconds" 1 60 "连接超时秒数无效" (fun v c =>
    mkMySql (my_host c) (my_port c) (my_user c) (my_password c) (my_database c)
      v (pool_size c)) ;;
  copy_number values "pool_size" 1 64 "MySQL 连接池大小必须在 1-64 之间" (fun v c =>
    mkMySql (my_host c) (my_port c) (my_user c) (my_password c) (my_database c)
      (connect_timeout_seconds c) v) ;;
  config ← get;
  reject_if (is_empty (my_user config)) "MySQL 配置缺少 user" ;;
  reject_if (is_empty (my_database config)) "MySQL 配置缺少 database".

Definition load_redis_config (path : string) (input : option string) : M RedisConfig unit :=
  values ← load_key_values path input "Redis";
  copy_text values "host" (fun v c =>
    mkRedis v (rd_port c) (rd_password c) (rd_database c) (connect_timeout_ms c)
      (presence_ttl_seconds c) (key_prefix c) (rd_server_name c)) ;;
  copy_text values "password" (fun v c =>
    mkRedis (rd_host c) (rd_port c) v (rd_database c) (connect_timeout_ms c)
      (presence_ttl_seconds c) (key_prefix c) (rd_server_name c)) ;;
  copy_text values "key_prefix" (fun v c =>
    mkRedis (rd_host c) (rd_port c) (rd_password c) (rd_database c) (connect_timeout_ms c)
      (presence_ttl_seconds c) v (rd_server_name c)) ;;
  copy_text values "server_name" (fun v c =>
    mkRedis (rd_host c) (rd_port c) (rd_password c) (rd_database c) (connect_timeout_ms c)
      (presence_ttl_seconds c) (key_prefix c) v) ;;
  copy_number values "port" 1 65535 "Redis 端口无效" (fun v c =>
    mkRedis (rd_host c) v (rd_password c) (rd_database c) (connect_timeout_ms c)
      (presence_ttl_seconds c) (key_prefix c) (rd_server_name c)) ;;
  copy_number values "database" 0 255 "Redis 数据库编号无效" (fun v c =>
    mkRedis (rd_host c) (rd_port c) (rd_password c) v (connect_timeout_ms c)
      (presence_ttl_seconds c) (key_prefix c) (rd_server_name c)) ;;
  copy_number values "connect_timeout_ms" 1 30000 "Redis 连接超时毫秒数无效" (fun v c =>
    mkRedis (rd_host c) (rd_port c) (rd_password c) (rd_database c) v
      (presence_ttl_seconds c) (key_prefix c) (rd_server_name c)) ;;
  copy_number values "presence_ttl_seconds" 30 86400 "在线状态 TTL 必须在 30-86400 秒之间" (fun v c =>
    mkRedis (rd_host c) (rd_port c) (rd_password c) (rd_database c) (connect_timeout_ms c)
      v (key_prefix c) (rd_server_name c)) ;;
  config ← get;
  reject_if (is_empty (rd_host config)) "Redis 配置缺少 host" ;;
  reject_if (is_empty (key_prefix config)) "Redis 配置缺少 key_prefix" ;;
  reject_if (is_empty (rd_server_name config)) "Redis 配置缺少 server_name".

Definition load_tls_server_config (path : string) (input : option string) : M TlsServerConfig unit :=
  values ← load_key_values path input "TLS server";
  copy_bool values "enabled" "TLS 服务端 enabled 配置值无效" (fun v c =>
    mkTlsServer v (certificate_file c) (private_key_file c)) ;;
  copy_text values "certificate_file" (fun v c =>
    mkTlsServer (srv_enabled c) v (private_key_file c)) ;;
  copy_text values "private_key_file" (fun v c =>
    mkTlsServer (srv_enabled c) (certificate_file c) v) ;;
  config ← get;
  reject_if (negb (srv_enabled config)) "当前版本不允许关闭 TLS 服务端" ;;
  reject_if (is_empty (certificate_file config) || is_empty (private_key_file config))
    "TLS 服务端配置缺少证书文件或私钥文件".

Definition load_tls_client_config (path : string) (input : option string) : M TlsClientConfig unit :=
  values ← load_key_values path input "TLS client";
  copy_bool values "enabled" "TLS 客户端 enabled 配置值无效" (fun v c =>
    mkTlsClient v (verify_peer c) (ca_file c) (cl_server_name c)) ;;
  copy_bool values "verify_peer" "TLS 客户端 verify_peer 配置值无效" (fun v c =>
    mkTlsClient (cl_enabled c) v (ca_file c) (cl_server_name c)) ;;
  copy_text values "ca_file" (fun v c =>
    mkTlsClient (cl_enabled c) (verify_peer c) v (cl_server_name c)) ;;
  copy_text values "server_name" (fun v c =>
    mkTlsClient (cl_enabled c) (verify_peer c) (ca_file c) v) ;;
  config ← get;
  reject_if (negb (cl_enabled config)) "当前版本不允许关闭 TLS 客户端" ;;
  reject_if (verify_peer config && is_empty (ca_file config))
    "启用 TLS 对端校验时必须配置 ca_file".

(** ** What a loaded configuration satisfies *)

Definition mysql_ranges (c : MySqlConfig) : Prop :=
  (1 <= my_port c <= 65535)%Z /\ (1 <= connect_timeout_seconds c <= 60)%Z /\
  (1 <= pool_size c <= 64)%Z.

Definition mysql_valid (c : MySqlConfig) : Prop :=
  mysql_ranges c /\ my_user c <> "" /\ my_database c <> "".

Definition redis_ranges (c : RedisConfig) : Prop :=
  (1 <= rd_port c <= 65535)%Z /\ (0 <= rd_database c <= 255)%Z /\
  (1 <= connect_timeout_ms c <= 30000)%Z /\ (30 <= presence_ttl_seconds c <= 86400)%Z.

Definition redis_valid (c : RedisConfig) : Prop :=
  redis_ranges c /\ rd_host c <> "" /\ key_prefix c <> "" /\ rd_server_name c <> "".

Definition tls_server_valid (c : TlsServerConfig) : Prop :=
  srv_enabled c = true /\ certificate_file c <> "" /\ private_key_file c <> "".

Definition tls_client_valid (c : TlsClientConfig) : Prop :=
  cl_enabled c = true /\ (verify_peer c = true -> ca_file c <> "").

(** ** Rules for the loader steps *)

Section Rules.
Context {S : Type} (I : S -> Prop).

Lemma hoare_load_key_values path input label :
  hoare I (load_key_values path input label) (fun _ => I).
Proof.
  unfold load_key_values. intros s a s' Hs. destruct input as [text|]; [|done].
  destruct (config_lines label 0 (lines_of text) ∅); [done|]. by intros [= _ <-].
Qed.

Lemma hoare_copy_text values key set :
  (forall v c, I c -> I (set v c)) -> hoare I (copy_text values key set) (fun _ => I).
Proof.
  intros H. unfold copy_text. intros s a s' Hs. destruct (values !! key); intros [= _ <-]; auto.
Qed.

Lemma hoare_copy_number values key lo hi error set :
  (forall v c, (lo <= v <= hi)%Z -> I c -> I (set v c)) ->
  hoare I (copy_number values key lo hi error set) (fun _ => I).
Proof.
  intros H s a s' Hs. unfold copy_number. destruct (values !! key) as [v|]; [|by intros [= _ <-]].
  destruct (parse_unsigned v) as [n|]; [|done]. unfold reject_if.
  destruct ((n <? lo)%Z || (hi <? n)%Z) eqn:E; [done|]. intros [= _ <-].
  case_bools. apply H; [lia|done].
Qed.

Lemma hoare_copy_bool values key error set :
  (forall v c, I c -> I (set v c)) -> hoare I (copy_bool values key error set) (fun _ => I).
Proof.
  intros H s a s' Hs. unfold copy_bool. destruct (values !! key) as [v|]; [|by intros [= _ <-]].
  destruct (parse_bool v); [|done]. intros [= _ <-]. auto.
Qed.
End Rules.

(** Run the loader steps under an invariant and stop at the final checks. *)
Ltac loader_steps I :=
  repeat (eapply (hoare_bind _ _ _ (fun _ => I));
    [first [ apply hoare_load_key_values | apply hoare_copy_text
           | apply hoare_copy_number | apply hoare_copy_bool ] | intros ?]);
  unfold mysql_ranges, redis_ranges in *; simpl; try tauto.

(** Unfold the checks at the end of a successful loader run. *)
Ltac loader_checks :=
  let s := fresh "c" in let r := fresh "r" in let s' := fresh "c'" in
  intros s r s' ? Hm;
  repeat (apply bind_inr in Hm as (? & ? & Hstep & Hm);
          first [ injection Hstep as <- <-
                | unfold reject_if in Hstep; case_match; [done|]; injection Hstep as _ <- ]);
  unfold reject_if in Hm; case_match; [done|]; injection Hm as _ <-; case_bools.

Lemma not_empty s : is_empty s = false -> s <> "".
Proof. by intros H ->. Qed.

Lemma load_mysql_hoare path input :
  hoare mysql_ranges (load_mysql_config path input) (fun _ => mysql_valid).
Proof.
  unfold load_mysql_config. loader_steps mysql_ranges; try (intros; lia).
  loader_checks. split_and!; auto using not_empty.
Qed.

Lemma load_redis_hoare path input :
  hoare redis_ranges (load_redis_config path input) (fun _ => redis_valid).
Proof.
  unfold load_redis_config. loader_steps redis_ranges; try (intros; lia).
  loader_checks. split_and!; auto using not_empty.
Qed.

Lemma load_tls_server_hoare path input :
  hoare (fun _ => True) (load_tls_server_config path input) (fun _ => tls_server_valid).
Proof.
  unfold load_tls_server_config. loader_steps (fun _ : TlsServerConfig => True).
  loader_checks. split_and!; auto using not_empty.
Qed.

Lemma load_tls_client_hoare path input :
  hoare (fun _ => True) (load_tls_client_config path input) (fun _ => tls_client_valid).
Proof.
  unfold load_tls_client_config. loader_steps (fun _ : TlsClientConfig => True).
  loader_checks. split_and!; auto using not_empty.
  intros Hv. rewrite Hv in *. auto using not_empty.
Qed.

(** ** Reading back a printed file *)

(** A file that assigns the pairs of a list in order, one per line. *)
Fixpoint render (pairs : list (string * string)) : string :=
  match pairs with
  | [] => ""
  | (key, value) :: rest => (key +:+ String "=" value) +:+ String "010" (render rest)
  end.

Definition no_char (p : ascii -> bool) (s : string) : Prop :=
  str_forall (fun c => negb (p c)) s = true.

(** The keys and values that survive printing. *)
Record printable (pair : string * string) : Prop := {
  key_nonempty : pair.1 <> "";
  key_trimmed : trim pair.1 = pair.1;
  key_plain : no_char (in_range 61 61) pair.1;
  key_line : no_char is_newline pair.1;
  key_not_comment : str_take 1 pair.1 <> "#" /\ str_take 1 pair.1 <> ";";
  value_trimmed : trim pair.2 = pair.2;
  value_line : no_char is_newline pair.2;
}.

Lemma getlines_fuel fuel text :
  (String.length text < fuel)%nat -> getlines fuel text = lines_of text.
Proof.
  unfold lines_of. generalize (le_n (S (String.length text))).
  generalize (S (String.length text)) at 2 3 as fuel'. revert text.
  induction fuel as [|fuel IH]; intros text fuel' Hf' Hf; [lia|].
  destruct fuel' as [|fuel']; [lia|]. cbn [getlines].
  destruct (is_empty text) eqn:E; [done|].
  destruct (find_first is_newline text) as [n|] eqn:F; [|done]. f_equal.
  apply find_first_some in F as (c & t & Ht & Hl & _).
  assert (String.length (str_drop (S n) text) < String.length text)%nat as Hlt.
  { clear IH. pose proof (str_take_drop (S n) text) as H. apply (f_equal String.length) in H.
    assert (0 < String.length text)%nat by (destruct text; simpl; [done|lia]).
    rewrite str_length_app, str_take_length in H. lia. }
  rewrite (IH _ (S (String.length (str_drop (S n) text)))) by lia.
  symmetry. rewrite <- (IH _ fuel') by lia. apply IH; lia.
Qed.

Lemma lines_of_cons line rest :
  no_char is_newline line -> lines_of (line +:+ String "010" rest) = line :: lines_of rest.
Proof.
  intros Hl. unfold lines_of at 1. cbn [getlines].
  rewrite is_empty_false by (by destruct line).
  rewrite (find_first_app is_newline line "010" rest Hl eq_refl).
  rewrite str_take_app_length.
  replace (str_drop (S (String.length line)) (line +:+ String "010" rest)) with rest.
  - f_equal. apply getlines_fuel. rewrite str_length_app. simpl. lia.
  - change (String "010" rest) with (String "010" "" +:+ rest).
    rewrite <- str_app_assoc. replace (S (String.length line))
      with (String.length (line +:+ String "010" "")) by (rewrite str_length_app; simpl; lia).
    by rewrite str_drop_app_length.
Qed.

Lemma config_line_pair label n key value values :
  printable (key, value) ->
  config_line label n (key +:+ String "=" value) values = inr (<[key := value]> values).
Proof.
  intros [Hne Ht Hp _ [Hh Hs] Hv _]; cbn [fst snd] in *. unfold config_line.
  rewrite trim_join by auto.
  assert (str_take 1 (key +:+ String "=" value) = str_take 1 key) as Hk
    by (destruct key; done).
  rewrite Hk, is_empty_false by (by destruct key).
  apply String.eqb_neq in Hh, Hs. rewrite Hh, Hs. cbn [orb].
  rewrite (find_first_app _ key "=" value Hp eq_refl).
  unfold substr. rewrite str_drop_0, str_take_app_length, Ht, is_empty_false by done.
  change (String "=" value) with (String "=" "" +:+ value). rewrite <- str_app_assoc.
  replace (S (String.length key)) with (String.length (key +:+ String "=" ""))
    by (rewrite str_length_app; simpl; lia).
  by rewrite str_drop_app_length, Hv.
Qed.

Lemma config_lines_render label n pairs values :
  Forall printable pairs ->
  config_lines label n (lines_of (render pairs)) values =
  inr (foldl (fun m '(k, v) => <[k := v]> m) values pairs).
Proof.
  intros H. revert n values. induction H as [|[key value] pairs Hp Hps IH]; intros n values; [done|].
  cbn [render foldl]. rewrite lines_of_cons.
  - cbn [config_lines]. by rewrite config_line_pair.
  - unfold no_char. rewrite str_forall_app. cbn [str_forall].
    destruct Hp as [_ _ _ Hk _ _ Hv]. unfold no_char in *; simpl in *. by rewrite Hk, Hv.
Qed.

End Config.
