(* ===== verification/ConnectionPool.v ===== *)
(** * The pool of database connections, [ChatRoom/src/mysql_connection_pool.cpp]

    What the methods do under the mutex, and a step relation for the threads
    that take and give back connections, for the owner of the pool that
    initialises it and shuts it down, and for the condition variable they all
    wait on.  A handle is a number; opening one is a step of the MySQL library
    that fails or yields a handle not used before. *)
From S2P Require Import Prelude Config.

Module ConnectionPool.

(** ** The members and what is done under the mutex *)

Definition handle := nat.

Record Pool := mkPool { all_ : list handle; available_ : list handle; stopping_ : bool }.
Definition empty_pool : Pool := mkPool [] [] false.

(** The predicate of [wait_for]. *)
Definition ready (p : Pool) : bool := stopping_ p || negb (bool_decide (available_ p = [])).

(** A lease, or the error. *)
Inductive Lease := Leased (connection : handle) | NoLease (error : string).

(** [acquire] after the wait: [in_time] is what [wait_for] returned. *)
Definition acquire (in_time : bool) (p : Pool) : Lease * Pool :=
  if negb in_time then (NoLease "等待 MySQL 连接池连接超时", p)
  else
    match available_ p with
    | connection :: rest =>
        if stopping_ p then (NoLease "MySQL 连接池正在停止", p)
        else (Leased connection, mkPool (all_ p) rest (stopping_ p))
    | [] => (NoLease "MySQL 连接池正在停止", p)
    end.

Definition release (connection : handle) (p : Pool) : Pool :=
  mkPool (all_ p) (available_ p ++ [connection]) (stopping_ p).

Definition size (p : Pool) : nat := length (all_ p).

(** [shutdown] up to its wait: [true] when it returns at once. *)
Definition shutdown_begin (p : Pool) : bool * Pool :=
  match all_ p with
  | [] => (true, mkPool [] [] true)
  | _ => (false, mkPool (all_ p) (available_ p) true)
  end.
(** The predicate of its wait, and what follows: the connections to close. *)
Definition drained (p : Pool) : bool := length (available_ p) =? length (all_ p).
Definition shutdown_end (p : Pool) : list handle * Pool := (all_ p, mkPool [] [] (stopping_ p)).

(** What [mysql_init], [mysql_real_connect] and [mysql_set_character_set] answer
    in one call of [open_connection]: a handle or none, and the error texts. *)
Record Attempt := mkAttempt { mysql_init : option handle; mysql_real_connect : option string; mysql_set_character_set : option string }.

(** The handle, or the error and the handle closed before returning, if any. *)
Definition open_connection (a : Attempt) : (string * list handle) + handle :=
  match mysql_init a with
  | None => inl ("MySQL 初始化失败", [])
  | Some connection =>
      match mysql_real_connect a with
      | Some error => inl (error, [connection])
      | None => match mysql_set_character_set a with Some error => inl (error, [connection]) | None => inr connection end
      end
  end.

(** The loop of [initialize], from connection [i] on: the handles, or the error
    and the handles that have been closed, in order. *)
Fixpoint open_all (pool_size : Z) (attempts : list Attempt) (i : Z) (opened : list handle) :
    (string * list handle) + list handle :=
  match attempts with
  | [] => inr opened
  | a :: rest =>
      match open_connection a with
      | inl (error, closed) =>
          inl ("MySQL 连接池初始化失败，连接 " +:+ to_string (i + 1) +:+ "/" +:+ to_string pool_size +:+ ": " +:+ error,
               closed ++ opened)
      | inr connection => open_all pool_size rest (i + 1) (opened ++ [connection])
      end
  end.
Definition install (opened : list handle) (p : Pool) : Pool := mkPool opened (available_ p ++ opened) false.

(** ** Threads *)

(** A thread inside [acquire], awake or asleep on the condition variable, one
    that holds a lease, or one inside [release] that has left the mutex and has
    not called [notify_one] yet. *)
Inductive Thread := Acquiring (awake : bool) | Holding (connection : handle) | Notifying.
#[global] Instance Thread_eq_dec : EqDecision Thread.
Proof. solve_decision. Defined.

(** The owner calls [initialize] and [shutdown], one at a time: it waits in
    [shutdown], which [initialize] calls with the attempts to come, or
    opens connections. *)
Inductive Owner := Idle | Draining (awake : bool) (next : option (list Attempt)) | Opening (attempts : list Attempt).

(** [opened_] are the handles that the library has given so far, [closed_] those
    closed, in order. *)
Record Sys := mkSys { pool : Pool; owner : Owner; threads : list Thread; opened_ : list handle; closed_ : list handle }.
Definition start : Sys := mkSys empty_pool Idle [] [] [].

Definition wake_all (l : list Thread) : list Thread :=
  map (fun t => match t with Acquiring _ => Acquiring true | _ => t end) l.
Definition after_shutdown (next : option (list Attempt)) : Owner :=
  match next with Some attempts => Opening attempts | None => Idle end.
Definition given (attempts : list Attempt) : list handle := omap mysql_init attempts.

(** [notify_one]: one of the sleepers wakes up, if there is one. *)
Inductive notify_one : Owner -> list Thread -> Owner -> list Thread -> Prop :=
  | notify_thread o l1 l2 : notify_one o (l1 ++ Acquiring false :: l2) o (l1 ++ Acquiring true :: l2)
  | notify_owner next l : notify_one (Draining false next) l (Draining true next) l
  | notify_nobody o l : (forall next, o <> Draining false next) -> Acquiring false ∉ l -> notify_one o l o l.

(** A thread that has its answer holds a lease or is gone. *)
Definition answered (r : Lease) : list Thread :=
  match r with Leased c => [Holding c] | NoLease _ => [] end.

Inductive step : Sys -> Sys -> Prop :=
  | s_acquire p o l op cl : step (mkSys p o l op cl) (mkSys p o (l ++ [Acquiring true]) op cl)
  (** The thread looks at the predicate, and goes on or to sleep. *)
  | s_check p o l1 l2 op cl :
      step (mkSys p o (l1 ++ Acquiring true :: l2) op cl)
        (if ready p then mkSys (acquire true p).2 o (l1 ++ answered (acquire true p).1 ++ l2) op cl
         else mkSys p o (l1 ++ Acquiring false :: l2) op cl)
  (** The time is over. *)
  | s_timeout p o l1 l2 b op cl :
      step (mkSys p o (l1 ++ Acquiring b :: l2) op cl)
        (mkSys (acquire (ready p) p).2 o (l1 ++ answered (acquire (ready p) p).1 ++ l2) op cl)
  | s_release p o l1 l2 c op cl :
      step (mkSys p o (l1 ++ Holding c :: l2) op cl) (mkSys (release c p) o (l1 ++ Notifying :: l2) op cl)
  | s_notify p o l1 l2 o' l' op cl :
      notify_one o (l1 ++ l2) o' l' ->
      step (mkSys p o (l1 ++ Notifying :: l2) op cl) (mkSys p o' l' op cl)
  | s_shutdown p l next op cl :
      step (mkSys p Idle l op cl)
        (mkSys (shutdown_begin p).2 (if (shutdown_begin p).1 then after_shutdown next else Draining true next)
           (if (shutdown_begin p).1 then l else wake_all l) op cl)
  | s_drain p l next op cl :
      step (mkSys p (Draining true next) l op cl)
        (if drained p then mkSys (shutdown_end p).2 (after_shutdown next) l op (cl ++ (shutdown_end p).1)
         else mkSys p (Draining false next) l op cl)
  (** A valid configuration asks for one connection at least. *)
  | s_open p l attempts pool_size op cl :
      (0 < pool_size)%Z -> length attempts = Z.to_nat pool_size ->
      NoDup (given attempts) -> Forall (fun c => c ∉ op) (given attempts) ->
      step (mkSys p (Opening attempts) l op cl)
        (match open_all pool_size attempts 0 [] with
         | inl (_, opened) => mkSys p Idle l (op ++ opened) (cl ++ opened)
         | inr opened => mkSys (install opened p) Idle l (op ++ opened) cl
         end)
  (** Threads may wake up for no reason. *)
  | s_spurious p o l1 l2 op cl :
      step (mkSys p o (l1 ++ Acquiring false :: l2) op cl) (mkSys p o (l1 ++ Acquiring true :: l2) op cl)
  | s_spurious_owner p next l op cl :
      step (mkSys p (Draining false next) l op cl) (mkSys p (Draining true next) l op cl).

(** The system once [initialize] has returned for the first time. *)
Definition started (opened : list handle) : Sys := mkSys (install opened empty_pool) Idle [] opened [].

(** The connections that threads hold, and the threads in a given state. *)
Definition held (l : list Thread) : list handle := omap (fun t => match t with Holding c => Some c | _ => None end) l.
Definition count (t : Thread) (l : list Thread) : nat := length (filter (.= t) l).

(** ** Facts on the lists *)

Lemma held_app l1 l2 : held (l1 ++ l2) = held l1 ++ held l2.
Proof. apply omap_app. Qed.
Lemma held_cons t l : held (t :: l) = match t with Holding c => c :: held l | _ => held l end.
Proof. by destruct t. Qed.
Lemma held_wake_all l : held (wake_all l) = held l.
Proof.
  induction l as [|t l IH]; [done|]. cbn [wake_all map]. fold (wake_all l).
  rewrite !held_cons, IH. by destruct t.
Qed.
Lemma held_answered r : held (answered r) = match r with Leased c => [c] | NoLease _ => [] end.
Proof. by destruct r. Qed.
Lemma count_app t l1 l2 : count t (l1 ++ l2) = (count t l1 + count t l2)%nat.
Proof. unfold count. by rewrite filter_app, length_app. Qed.
Lemma count_cons t u l : count t (u :: l) = ((if decide (u = t) then 1 else 0) + count t l)%nat.
Proof. unfold count. rewrite filter_cons. by destruct (decide (u = t)). Qed.
Lemma count_in t l : t ∈ l <-> (0 < count t l)%nat.
Proof.
  induction l as [|u l IH]; [cbn; split; [intros []%elem_of_nil|lia]|].
  rewrite elem_of_cons, count_cons, IH. destruct (decide (u = t)) as [->|Hne]; [split; [lia|by left]|].
  split; [intros [->|Hc]; [done|lia]|intros Hc; right; lia].
Qed.
Lemma wake_all_awake l : count (Acquiring false) (wake_all l) = 0.
Proof.
  induction l as [|t l IH]; [done|]. cbn [wake_all map]. fold (wake_all l). rewrite count_cons, IH. by destruct t.
Qed.
Lemma count_answered t r :
  count t (answered r) = match r with Leased c => if decide (Holding c = t) then 1 else 0 | NoLease _ => 0 end.
Proof. destruct r; [|done]. cbn [answered]. rewrite count_cons. by destruct (decide _). Qed.

Lemma open_all_opened n attempts i acc :
  exists opened, opened `prefix_of` given attempts /\
    match open_all n attempts i acc with
    | inl (_, o) => o ≡ₚ acc ++ opened
    | inr o => o = acc ++ opened /\ length opened = length attempts
    end.
Proof.
  revert i acc. induction attempts as [|a rest IH]; intros i acc; cbn [open_all given omap list_omap].
  { exists []. by rewrite app_nil_r. }
  unfold open_connection. destruct a as [[c|] [e|] [e'|]]; cbn [mysql_init mysql_real_connect mysql_set_character_set].
  all: try (exists [c]; split; [by apply prefix_cons, prefix_nil|by rewrite (Permutation_app_comm acc)]).
  all: try (exists []; split; [apply prefix_nil|by rewrite app_nil_r]).
  destruct (IH (i + 1)%Z (acc ++ [c])) as (opened & Hp & Hm). exists (c :: opened). split; [by apply prefix_cons|].
  replace (acc ++ c :: opened) with ((acc ++ [c]) ++ opened) by (by rewrite <- app_assoc).
  destruct (open_all n rest (i + 1)%Z (acc ++ [c])) as [[e o]|o]; [done|].
  destruct Hm as [-> Hl]. cbn. by rewrite Hl.
Qed.

(** ** Leases *)

(** Every connection opened is in the pool or closed, once; every connection in
    the pool is free or leased to one thread.  Connections are only opened when
    the pool is empty. *)
Definition leases_ok (s : Sys) : Prop :=
  NoDup (opened_ s) /\ closed_ s ++ all_ (pool s) ≡ₚ opened_ s /\
  available_ (pool s) ++ held (threads s) ≡ₚ all_ (pool s) /\
  (forall attempts, owner s = Opening attempts -> all_ (pool s) = []).

(** What an answer takes from the pool. *)
Lemma acquire_takes b p :
  available_ p = (match (acquire b p).1 with Leased c => [c] | _ => [] end) ++ available_ (acquire b p).2 /\
  all_ (acquire b p).2 = all_ p /\ stopping_ (acquire b p).2 = stopping_ p /\
  (stopping_ p = true -> acquire b p = ((acquire b p).1, p)) /\
  (b = true -> stopping_ p = false -> available_ p <> [] -> exists c, (acquire b p).1 = Leased c).
Proof. unfold acquire. destruct p as [al [|c av] []], b; cbn; naive_solver. Qed.

Lemma perm_full (l1 l2 l3 : list handle) : l1 ++ l2 ≡ₚ l3 -> length l1 = length l3 -> l2 = [].
Proof. intros Hp%Permutation_length Hl. rewrite length_app in Hp. apply nil_length_inv. lia. Qed.

#[local] Ltac fields := cbn [pool owner threads opened_ closed_ all_ available_ stopping_] in *.

Lemma leases_answer b b' p l1 l2 o op cl :
  leases_ok (mkSys p o (l1 ++ Acquiring b' :: l2) op cl) ->
  leases_ok (mkSys (acquire b p).2 o (l1 ++ answered (acquire b p).1 ++ l2) op cl).
Proof.
  intros (Hn & Hc & Hp & Ho). destruct (acquire_takes b p) as (Ha & Hal & Hs & _). unfold leases_ok. fields.
  rewrite Hal. repeat split; auto. rewrite <- Hp, Ha, !held_app, held_answered, held_cons.
  destruct (acquire b p).1; cbn [app]; [|done]. solve_Permutation.
Qed.

Lemma leases_threads p o o' l l' op cl :
  held l' = held l -> (forall attempts, o' = Opening attempts -> o = Opening attempts) ->
  leases_ok (mkSys p o l op cl) -> leases_ok (mkSys p o' l' op cl).
Proof. intros He Ho (Hn & Hc & Hp & Hop). unfold leases_ok. fields. rewrite He. naive_solver. Qed.

Lemma notify_held o l o' l' :
  notify_one o l o' l' -> held l' = held l /\ (forall attempts, o' = Opening attempts -> o = Opening attempts).
Proof. destruct 1; [|naive_solver..]. split; [by rewrite !held_app, !held_cons|auto]. Qed.

Lemma leases_step s s' : step s s' -> leases_ok s -> leases_ok s'.
Proof.
  destruct 1 as [p o l op cl|p o l1 l2 op cl|p o l1 l2 b op cl|p o l1 l2 c op cl|p o l1 l2 o' l' op cl Hn|p l next op cl
    |p l next op cl|p l attempts n op cl Hpos Hlen Hnd Hnew|p o l1 l2 op cl|p next l op cl]; intros Hok.
  - revert Hok. apply leases_threads; [|auto]. by rewrite held_app, app_nil_r.
  - destruct (ready p); [by eapply leases_answer|]. revert Hok. apply leases_threads; [|auto]. by rewrite !held_app, !held_cons.
  - by eapply leases_answer.
  - destruct Hok as (Hnd & Hc & Hp & Ho). unfold leases_ok, release. fields. repeat split; auto.
    rewrite <- Hp, !held_app, !held_cons. solve_Permutation.
  - apply notify_held in Hn as [He Ho]. revert Hok. apply leases_threads; [|done]. by rewrite He, !held_app, held_cons.
  - destruct Hok as (Hnd & Hc & Hp & Ho). unfold leases_ok, shutdown_begin. destruct p as [[|c al] av st]; fields; cbn [fst snd].
    + repeat split; auto. by apply Permutation_nil_r, app_nil in Hp as [_ ->].
    + rewrite held_wake_all. done.
  - destruct Hok as (Hnd & Hc & Hp & Ho). unfold drained. case_eq (length (available_ p) =? length (all_ p)); intros Hd; [|done].
    apply Nat.eqb_eq in Hd. unfold leases_ok, shutdown_end. fields. cbn [fst snd]. rewrite app_nil_r.
    rewrite (perm_full _ _ _ Hp Hd). repeat split; auto.
  - destruct Hok as (Hno & Hc & Hp & Ho). fields. specialize (Ho _ eq_refl). rewrite Ho in *. 
    apply Permutation_nil_r, app_nil in Hp as [Ha Hh].
    destruct (open_all_opened n attempts 0 []) as (opened & [rest Hpre] & Hm).
    assert (NoDup (op ++ opened)) as Hnd'.
    { rewrite Hpre in Hnd, Hnew. apply NoDup_app in Hnd as (? & _ & _). apply Forall_app in Hnew as [Hnew _].
      apply NoDup_app. repeat split; [done| |done]. intros x Hx Hx'. rewrite Forall_forall in Hnew. by apply (Hnew x Hx'). }
    destruct (open_all n attempts 0 []) as [[e o]|o]; [|destruct Hm as [-> _]]; cbn [app] in *; unfold leases_ok, install; fields.
    all: rewrite app_nil_r in Hc.
    + rewrite Ho, Ha, Hh, app_nil_r, Hm. repeat split; auto. by rewrite Hc.
    + rewrite Ha, Hh, app_nil_r. repeat split; [done|by rewrite Hc|done|done].
  - revert Hok. apply leases_threads; [|auto]. by rewrite !held_app, !held_cons.
  - revert Hok. by apply leases_threads.
Qed.

Lemma leases_run s s' : rtc step s s' -> leases_ok s -> leases_ok s'.
Proof. induction 1; eauto using leases_step. Qed.

(** ** The condition variable *)

(** When a thread sleeps, the pool is not stopping and every free connection has
    a thread on its way; when the owner sleeps, a lease is out or a notification
    is on its way. *)
Definition waiters_ok (s : Sys) : Prop :=
  let p := pool s in let l := threads s in
  (stopping_ p = false -> all_ p <> []) /\
  ((0 < count (Acquiring false) l)%nat ->
     stopping_ p = false /\ (length (available_ p) <= count (Acquiring true) l + count Notifying l)%nat) /\
  (forall b next, owner s = Draining b next -> stopping_ p = true /\
     (b = false -> drained p = true -> (0 < count Notifying l)%nat)) /\
  (forall attempts, owner s = Opening attempts -> stopping_ p = true).

#[local] Ltac counts := rewrite ?count_app, ?count_cons, ?count_answered in *; repeat (case_decide; simplify_eq).

Lemma waiters_answer b p l1 l2 o op cl :
  waiters_ok (mkSys p o (l1 ++ Acquiring b :: l2) op cl) ->
  waiters_ok (mkSys (acquire (ready p) p).2 o (l1 ++ answered (acquire (ready p) p).1 ++ l2) op cl).
Proof.
  intros (Hne & Hs & Hd & Ho). destruct (acquire_takes (ready p) p) as (Ha & Hal & Hst & Hstop & Hget). fields.
  assert (stopping_ p = true -> (acquire (ready p) p).2 = p) as Hp by (intros Ht; by rewrite (Hstop Ht)).
  unfold waiters_ok. fields. rewrite Hal, Hst. split; [done|]. split_and!.
  - intros Hc. destruct (stopping_ p) eqn:Hsp; [|split; [done|]].
    { exfalso. destruct Hs as [? _]; [|done]. revert Hc. destruct (acquire (ready p) p).1; counts; lia. }
    revert Hc. destruct (decide (available_ p = [])) as [Hav|Hav].
    + intros _. rewrite Hav in Ha. symmetry in Ha. apply app_nil in Ha as [_ ->]. cbn. lia.
    + destruct (Hget) as [c Hc]; [|done|done|]. { unfold ready. rewrite Hsp. by rewrite bool_decide_eq_false_2. }
      rewrite Hc in *. intros Hc'. destruct Hs as [_ Hs]; [counts; lia|]. rewrite Ha in Hs. revert Hs Hc'. cbn [length app].
      destruct b; counts; cbn; lia.
  - intros b' next Hdr. destruct (Hd _ _ Hdr) as [Ht Hn]. split; [done|]. rewrite (Hp Ht). intros Hb Hdp. specialize (Hn Hb Hdp).
    revert Hn. destruct (acquire (ready p) p).1; counts; lia.
  - done.
Qed.

Lemma stopping_no_sleeper s : waiters_ok s -> stopping_ (pool s) = true -> count (Acquiring false) (threads s) = 0.
Proof. intros (_ & Hs & _) Ht. destruct (count _ _) eqn:Hc; [done|]. destruct Hs; [lia|congruence]. Qed.

Lemma waiters_notify p o l1 l2 o' l' op cl :
  notify_one o (l1 ++ l2) o' l' ->
  waiters_ok (mkSys p o (l1 ++ Notifying :: l2) op cl) -> waiters_ok (mkSys p o' l' op cl).
Proof.
  intros Hn Hok. pose proof (stopping_no_sleeper _ Hok) as Hz. destruct Hok as (Hne & Hs & Hd & Ho). fields.
  remember (l1 ++ l2) as l eqn:El. assert (forall t, count t l = (count t l1 + count t l2)%nat) as Hl by (intros; subst; apply count_app).
  unfold waiters_ok. destruct Hn as [o l3 l4|next l|o l Hno Hnt]; fields; (split; [done|]).
  - pose proof (Hl (Acquiring false)) as Hf. pose proof (Hl (Acquiring true)) as Ht. pose proof (Hl Notifying) as Hy.
    counts. cbn in *. split_and!; [| |done].
    + intros Hc. destruct Hs; [lia|]. split; [done|lia].
    + intros b next Hdr. destruct (Hd _ _ Hdr) as [Hst _]. specialize (Hz Hst). lia.
  - destruct (Hd _ _ eq_refl) as [Hst _]. specialize (Hz Hst). rewrite !Hl in *. counts. cbn in *. split_and!; [lia| |done].
    intros b nx [= <- <-]. done.
  - rewrite count_in in Hnt. rewrite !Hl in *. counts. cbn in *. split_and!; [lia| |done].
    intros [] next Hdr; [|by destruct (Hno next)]. destruct (Hd _ _ Hdr). done.
Qed.

Lemma waiters_shutdown p l next op cl :
  waiters_ok (mkSys p Idle l op cl) ->
  waiters_ok (mkSys (shutdown_begin p).2 (if (shutdown_begin p).1 then after_shutdown next else Draining true next)
    (if (shutdown_begin p).1 then l else wake_all l) op cl).
Proof.
  intros (Hne & Hs & Hd & Ho). unfold waiters_ok, shutdown_begin. destruct p as [[|c al] av st]; fields; cbn [fst snd].
  - split_and!; [done| |by destruct next|done]. intros Hc. destruct (Hs Hc) as [Hst _]. by destruct (Hne Hst).
  - rewrite wake_all_awake. split_and!; [done|lia|naive_solver|done].
Qed.

Lemma waiters_drain p l next op cl :
  waiters_ok (mkSys p (Draining true next) l op cl) ->
  waiters_ok (if drained p then mkSys (shutdown_end p).2 (after_shutdown next) l op (cl ++ (shutdown_end p).1)
    else mkSys p (Draining false next) l op cl).
Proof.
  intros Hok. pose proof (stopping_no_sleeper _ Hok) as Hz. destruct Hok as (Hne & Hs & Hd & Ho). fields.
  destruct (Hd _ _ eq_refl) as [Hsp _]. unfold waiters_ok.
  destruct (drained p) eqn:Hdr; fields; cbn [fst snd shutdown_end all_ available_ stopping_]; rewrite (Hz Hsp), Hsp.
  - split_and!; [done|lia|by destruct next|done].
  - split_and!; [done|lia|naive_solver congruence|done].
Qed.

Lemma waiters_open p l attempts n op cl :
  (0 < n)%Z -> length attempts = Z.to_nat n -> waiters_ok (mkSys p (Opening attempts) l op cl) ->
  waiters_ok (match open_all n attempts 0 [] with
    | inl (_, opened) => mkSys p Idle l (op ++ opened) (cl ++ opened)
    | inr opened => mkSys (install opened p) Idle l (op ++ opened) cl end).
Proof.
  intros Hpos Hlen Hok. pose proof (stopping_no_sleeper _ Hok) as Hz. destruct Hok as (Hne & Hs & Hd & Ho). fields.
  specialize (Hz (Ho _ eq_refl)). destruct (open_all_opened n attempts 0 []) as (opened & _ & Hm). unfold waiters_ok.
  destruct (open_all n attempts 0 []) as [[e o]|o]; [|destruct Hm as [-> Hl]]; cbn [app]; unfold install; fields; rewrite Hz.
  - split_and!; [done|lia|done|done].
  - split_and!; [|lia|done|done]. intros _ ->. cbn in Hl. lia.
Qed.

Lemma waiters_step s s' : step s s' -> waiters_ok s -> waiters_ok s'.
Proof.
  destruct 1 as [p o l op cl|p o l1 l2 op cl|p o l1 l2 b op cl|p o l1 l2 c op cl|p o l1 l2 o' l' op cl Hn|p l next op cl
    |p l next op cl|p l attempts n op cl Hpos Hlen Hnd Hnew|p o l1 l2 op cl|p next l op cl]; intros Hok.
  3: by eapply waiters_answer.
  2: destruct (ready p) eqn:Hr; [apply waiters_answer in Hok; by rewrite Hr in Hok|].
  4: by eapply waiters_notify.
  4: by apply waiters_shutdown.
  4: by apply waiters_drain.
  4: by apply waiters_open.
  all: destruct Hok as (Hne & Hs & Hd & Ho); unfold waiters_ok; fields.
  - counts. cbn. split_and!; [done| | |done]; [intros Hc; destruct Hs; [lia|]; split; [done|lia]|].
    intros b next Hdr. destruct (Hd _ _ Hdr) as [Hst Hny]. split; [done|]. intros Hb Hdp. specialize (Hny Hb Hdp). lia.
  - unfold ready in Hr. apply orb_false_iff in Hr as [Hsp Hav]. apply negb_false_iff, bool_decide_eq_true in Hav.
    rewrite Hav, Hsp. counts. cbn. split_and!; [auto|split; [done|lia]| |naive_solver].
    intros b next Hdr. destruct (Hd _ _ Hdr). congruence.
  - unfold release. fields. counts. rewrite length_app. cbn. split_and!; [done| | |done].
    + intros Hc. destruct Hs; [lia|]. split; [done|lia].
    + intros b next Hdr. destruct (Hd _ _ Hdr). split; [done|lia].
  - counts. cbn in *. split_and!; [done| | |done]; [intros Hc; destruct Hs; [lia|]; split; [done|lia]|].
    intros b next Hdr. destruct (Hd _ _ Hdr) as [Hst Hny]. split; [done|]. intros Hb Hdp. specialize (Hny Hb Hdp). lia.
  - split_and!; [done|done| |done]. intros b nx [= <- <-]. destruct (Hd _ _ eq_refl). done.
Qed.

Lemma waiters_run s s' : rtc step s s' -> waiters_ok s -> waiters_ok s'.
Proof. induction 1; eauto using waiters_step. Qed.

(** ** The claims *)

(** C11: at every moment the connections the library has opened are distinct, and
    each is either closed, once, or in the pool; each connection of the pool is
    either free or leased to exactly one thread.  So a leased connection is open,
    no other thread has it, and the next [acquire] cannot hand it out; and when
    the pool is empty, as after [shutdown], every connection opened is closed. *)
Theorem pool_leases s :
  rtc step start s ->
  NoDup (opened_ s) /\ closed_ s ++ all_ (pool s) ≡ₚ opened_ s /\
  available_ (pool s) ++ held (threads s) ≡ₚ all_ (pool s) /\
  (forall c, c ∈ held (threads s) ->
     c ∉ closed_ s /\ c ∉ available_ (pool s) /\ forall l1 l2 l3, threads s <> l1 ++ Holding c :: l2 ++ Holding c :: l3) /\
  (all_ (pool s) = [] -> held (threads s) = [] /\ closed_ s ≡ₚ opened_ s).
Proof.
  intros Hr. destruct (leases_run _ _ Hr) as (Hn & Hc & Hp & _); [by repeat split; try apply NoDup_nil_2|].
  split_and!; [done..| |].
  - intros c Hh. pose proof Hn as Hn'. rewrite <- Hc, <- Hp in Hn'. apply NoDup_app in Hn' as (_ & Hx & Hn').
    apply NoDup_app in Hn' as (_ & Hy & Hn'). split_and!.
    + intros Hcl. apply (Hx c Hcl), elem_of_app. by right.
    + intros Hav. by apply (Hy c Hav).
    + intros l1 l2 l3 Ht. rewrite Ht, held_app, held_cons, held_app, held_cons in Hn'.
      apply NoDup_app in Hn' as (_ & _ & Hn'). apply NoDup_cons in Hn' as [Hn' _]. apply Hn', elem_of_app. right. by left.
  - intros He. rewrite He in Hp, Hc. apply Permutation_nil_r, app_nil in Hp as [_ ->]. by rewrite app_nil_r in Hc.
Qed.

(** C12: once the pool has been initialised, no wake-up is lost.  If a thread
    sleeps in [acquire], the pool is not stopping, and there are no more free
    connections than threads that are awake in [acquire] or about to notify a
    sleeper; so a sleeper alone means that no connection is free.  If the owner
    sleeps in [shutdown], a lease is still out or a thread is about to notify. *)
Theorem pool_no_lost_wakeup opened s :
  opened <> [] -> NoDup opened -> rtc step (started opened) s ->
  (Acquiring false ∈ threads s ->
     stopping_ (pool s) = false /\
     (length (available_ (pool s)) <= count (Acquiring true) (threads s) + count Notifying (threads s))%nat) /\
  (forall next, owner s = Draining false next -> held (threads s) <> [] \/ Notifying ∈ threads s).
Proof.
  intros Hne Hnd Hr. destruct (waiters_run _ _ Hr) as (_ & Hs & Hd & _); [by unfold waiters_ok; cbn; split_and!; [|lia|..]|].
  destruct (leases_run _ _ Hr) as (_ & _ & Hp & _); [repeat split; cbn; rewrite ?app_nil_r; done|].
  split; [by rewrite count_in|]. intros next Hdr. destruct (Hd _ _ Hdr) as [_ Hn]. rewrite count_in.
  destruct (drained (pool s)) eqn:Hdd; [right; auto|left]. intros Hh. rewrite Hh, app_nil_r in Hp.
  apply Permutation_length in Hp. unfold drained in Hdd. apply Nat.eqb_neq in Hdd. done.
Qed.
End ConnectionPool.
