(* ===== verification/TcpServer.v ===== *)
(** * The listening server and its loops, [ChatRoom/src/minimuduo/net]

    [TcpServer.cpp], [Acceptor.cpp], [EventLoopThreadPool.cpp] and
    [EventLoopThread.cpp]: accepting connections, spreading them over the loops,
    and the functors by which the threads of the loops hand a connection's life
    to each other.  A connection is what the class [Life] promises; the
    connections of [Connection] do. *)
From S2P Require Import Prelude.

Module TcpServer.

(** ** The pool of loops, [EventLoopThreadPool] *)

(** Loop 0 is the base loop, the others those of the threads. *)
Record LoopPool := mkLoopPool { pool_started_ : bool; threadCount_ : Z; next_ : nat; loops_ : list nat }.
Definition new_pool : LoopPool := mkLoopPool false 0 0 [].

Definition setThreadNum (threadCount : Z) (p : LoopPool) : string + LoopPool :=
  if pool_started_ p then inl "cannot change thread count after start"
  else if (threadCount <? 0)%Z then inl "thread count cannot be negative"
  else inr (mkLoopPool (pool_started_ p) threadCount (next_ p) (loops_ p)).

(** Every thread is started and its loop waited for, in order. *)
Definition pool_start (p : LoopPool) : LoopPool :=
  if pool_started_ p then p
  else mkLoopPool true (threadCount_ p) (next_ p) (loops_ p ++ seq 1 (Z.to_nat (threadCount_ p))).

Definition getNextLoop (p : LoopPool) : nat * LoopPool :=
  match loops_ p with
  | [] => (0, p)
  | _ => (nth (next_ p) (loops_ p) 0, mkLoopPool (pool_started_ p) (threadCount_ p) ((next_ p + 1) mod length (loops_ p)) (loops_ p))
  end.

(** ** Connections *)

(** What the server uses of a connection: making one for a socket, whether it is
    disconnected, [connectEstablished], [connectDestroyed], and whatever its loop
    does with it in between. *)
Class Life (C S E : Type) := {
  make : S -> C;
  disconnected : C -> bool;
  connectEstablished : C -> C;
  connectDestroyed : C -> C;
  serve : E -> C -> C }.

(** A new connection is not disconnected, and a disconnected one stays so.  The
    close callback is called when, and only when, [connectEstablished] or
    [serve] disconnects the connection. *)
Class LifeLaws (C S E : Type) `{Life C S E} := {
  make_open s : disconnected (make s) = false;
  disconnected_stays e c : disconnected c = true -> disconnected (serve e c) = true;
  destroyed_stays c : disconnected c = true -> disconnected (connectDestroyed c) = true }.

(** ** The server *)

(** The functors that the server puts into loops; [Start] with the error that
    [listen] will meet. *)
Inductive functor := Start (listen : option string) | Establish (i : nat) | RemoveInLoop (i : nat) | DestroyConnection (i : nat).

(** The calls that a connection has got, each with the loop whose thread made
    it. *)
Inductive life_call := Established | Destroyed.

Section Server.
Context {C S E : Type} `{Life C S E}.
Variable name_ : string.

Record Object := mkObject { o_name : string; o_loop : nat; o_connection : C; o_calls : list (nat * life_call) }.

(** [pending] are the functors queued and not run yet, in the order in which they
    were queued, each with its loop.  [running]: the base loop runs; [gone]: the
    server has been destroyed. *)
Record Server := mkServer {
  threadPool_ : LoopPool;
  started_ : bool;
  listening_ : bool;
  nextConnectionId_ : Z;
  connections_ : gmap string nat;
  objects : list Object;
  pending : list (nat * functor);
  running : bool;
  gone : bool }.

Definition new_server : Server := mkServer new_pool false false 1 ∅ [] [] true false.

Definition set_pool p (s : Server) := mkServer p (started_ s) (listening_ s) (nextConnectionId_ s) (connections_ s) (objects s) (pending s) (running s) (gone s).
Definition set_started (s : Server) := mkServer (threadPool_ s) true (listening_ s) (nextConnectionId_ s) (connections_ s) (objects s) (pending s) (running s) (gone s).
Definition set_listening (s : Server) := mkServer (threadPool_ s) (started_ s) true (nextConnectionId_ s) (connections_ s) (objects s) (pending s) (running s) (gone s).
Definition set_next n (s : Server) := mkServer (threadPool_ s) (started_ s) (listening_ s) n (connections_ s) (objects s) (pending s) (running s) (gone s).
Definition set_connections m (s : Server) := mkServer (threadPool_ s) (started_ s) (listening_ s) (nextConnectionId_ s) m (objects s) (pending s) (running s) (gone s).
Definition set_objects l (s : Server) := mkServer (threadPool_ s) (started_ s) (listening_ s) (nextConnectionId_ s) (connections_ s) l (pending s) (running s) (gone s).
Definition set_pending l (s : Server) := mkServer (threadPool_ s) (started_ s) (listening_ s) (nextConnectionId_ s) (connections_ s) (objects s) l (running s) (gone s).
Definition set_running b (s : Server) := mkServer (threadPool_ s) (started_ s) (listening_ s) (nextConnectionId_ s) (connections_ s) (objects s) (pending s) b (gone s).
Definition set_gone (s : Server) := mkServer (threadPool_ s) (started_ s) (listening_ s) (nextConnectionId_ s) (connections_ s) (objects s) (pending s) (running s) true.

Definition queueInLoop (loop : nat) (f : functor) (s : Server) : Server := set_pending (pending s ++ [(loop, f)]) s.

(** *** The functors *)

(** [Acceptor::listen]; an exception stops the base loop. *)
Definition listen (error : option string) (s : Server) : Server :=
  if listening_ s then s
  else match error with Some _ => set_running false s | None => set_listening s end.

Definition start_functor (error : option string) (s : Server) : Server :=
  let s := set_pool (pool_start (threadPool_ s)) s in
  if negb (listening_ s) then listen error s else s.

Definition removeConnectionInLoop (i : nat) (s : Server) : Server :=
  match objects s !! i with
  | None => s
  | Some o =>
      match connections_ s !! o_name o with
      | None => s
      | Some _ => queueInLoop (o_loop o) (DestroyConnection i) (set_connections (delete (o_name o) (connections_ s)) s)
      end
  end.

(** [removeConnection], called in the thread of [loop]. *)
Definition removeConnection (loop i : nat) (s : Server) : Server :=
  if loop =? 0 then removeConnectionInLoop i s else queueInLoop 0 (RemoveInLoop i) s.

(** The connection goes from one state to another in the thread of [loop]; if that
    disconnects it, the close callback is called. *)
Definition live_on (loop i : nat) (call : list (nat * life_call)) (f : C -> C) (s : Server) : Server :=
  match objects s !! i with
  | None => s
  | Some o =>
      let c := f (o_connection o) in
      let s' := set_objects (<[i := mkObject (o_name o) (o_loop o) c (o_calls o ++ call)]> (objects s)) s in
      if negb (disconnected (o_connection o)) && disconnected c then removeConnection loop i s' else s'
  end.

Definition destroy_on (loop i : nat) (s : Server) : Server :=
  match objects s !! i with
  | None => s
  | Some o => set_objects (<[i := mkObject (o_name o) (o_loop o) (connectDestroyed (o_connection o)) (o_calls o ++ [(loop, Destroyed)])]> (objects s)) s
  end.

Definition call (loop : nat) (f : functor) (s : Server) : Server :=
  match f with
  | Start error => start_functor error s
  | Establish i => live_on loop i [(loop, Established)] connectEstablished s
  | RemoveInLoop i => removeConnectionInLoop i s
  | DestroyConnection i => destroy_on loop i s
  end.

(** [runInLoop], called in the thread of loop [me]. *)
Definition runInLoop (me loop : nat) (f : functor) (s : Server) : Server :=
  if me =? loop then call loop f s else queueInLoop loop f s.

(** [start], called in the thread of loop [me], if it is one. *)
Definition start (me : nat) (error : option string) (s : Server) : Server :=
  if started_ s then s else runInLoop me 0 (Start error) (set_started s).

(** *** Accepting *)

Definition connectionName (id : Z) : string := name_ +:+ "-conn-" +:+ to_string id.

(** The rest of a new connection once [getsockname] has answered and the
    connection is made. *)
Definition newConnection (getsockname ssl : option string) (socket : S) (s : Server) : option string * Server :=
  let '(ioLoop, p) := getNextLoop (threadPool_ s) in
  let s := set_pool p s in
  match getsockname with
  | Some error => (Some ("getsockname failed: " +:+ error), s)
  | None =>
      let connectionName := connectionName (nextConnectionId_ s) in
      let s := set_next (nextConnectionId_ s + 1) s in
      match ssl with
      | Some error => (Some ("TLS SSL_new failed for " +:+ connectionName +:+ ": " +:+ error), s)
      | None =>
          let i := length (objects s) in
          let s := set_objects (objects s ++ [mkObject connectionName ioLoop (make socket) []]) s in
          let s := set_connections (<[connectionName := i]> (connections_ s)) s in
          (None, runInLoop 0 ioLoop (Establish i) s)
      end
  end.

(** What [accept4] answers: a socket, with the errors that [getsockname] and
    [SSL_new] will meet; [EAGAIN]; [EINTR]; another error. *)
Inductive accepted := Socket (socket : S) (getsockname ssl : option string) | Again | Eintr | AcceptError (error : string).

(** [Acceptor::handleRead], with the exception that leaves it, if one does. *)
Fixpoint handleRead (answers : list accepted) (s : Server) : option string * Server :=
  match answers with
  | [] | Again :: _ => (None, s)
  | Socket socket getsockname ssl :: rest =>
      match newConnection getsockname ssl socket s with
      | (None, s) => handleRead rest s
      | r => r
      end
  | Eintr :: rest => handleRead rest s
  | AcceptError error :: _ => (Some ("accept4 failed: " +:+ error), s)
  end.

(** *** The end *)

(** [~TcpServer], in the thread of the base loop. *)
Definition destroy_server (s : Server) : Server :=
  foldl (fun s '(_, i) => match objects s !! i with
    | Some o => runInLoop 0 (o_loop o) (DestroyConnection i) s
    | None => s end)
  (set_gone (set_connections ∅ s)) (map_to_list (connections_ s)).

(** ** Interleavings *)

(** The steps of the threads.  Each loop runs its functors in order; the base loop
    accepts while it runs and the server listens, and stops when an exception
    leaves it; the server is destroyed once the base loop has stopped. *)
Inductive step : Server -> Server -> Prop :=
  | t_threads n p s : gone s = false -> setThreadNum n (threadPool_ s) = inr p -> step s (set_pool p s)
  | t_start me error s : gone s = false -> step s (start me error s)
  | t_run loop f l1 l2 s :
      pending s = l1 ++ (loop, f) :: l2 -> Forall (fun x => x.1 <> loop) l1 -> (loop = 0 -> running s = true) ->
      step s (call loop f (set_pending (l1 ++ l2) s))
  | t_accept answers s :
      running s = true -> listening_ s = true -> (nextConnectionId_ s + Z.of_nat (length answers) < 2 ^ 31)%Z ->
      step s (set_running (bool_decide ((handleRead answers s).1 = None)) (handleRead answers s).2)
  | t_serve i o e s :
      objects s !! i = Some o -> (o_loop o = 0 -> running s = true) ->
      o_calls o = [(o_loop o, Established)] \/ disconnected (o_connection o) = true ->
      step s (live_on (o_loop o) i [] (serve e) s)
  | t_stop s : running s = true -> step s (set_running false s)
  | t_destroy s : running s = false -> gone s = false -> step s (destroy_server s).
End Server.
End TcpServer.

(** ** The thread of a loop, [EventLoopThread] *)

Module LoopThread.

(** Where the thread is: not started; before it tells the owner its loop; before
    [loop()] has stored [false] in [quit_]; in the loop; out of it; finished, its
    loop object gone. *)
Inductive Thread := Unborn | Entered | Published | Looping | Left | Finished.

(** Where the owner is: before [startLoop]; waiting in it; after it; in the
    destructor, with the loop it has read; joining; done. *)
Inductive Owner := Fresh | Starting | Owning | Quitting | Joining | Joined.

(** [loop_] is not null; the loop's [quit_]. *)
Record Pair := mkPair { owner : Owner; thread : Thread; loop_ : bool; quit_ : bool }.
Definition born : Pair := mkPair Fresh Unborn false false.

Inductive thread_step : Pair -> Pair -> Prop :=
  (** [startLoop] *)
  | e_start l q : thread_step (mkPair Fresh Unborn l q) (mkPair Starting Entered l q)
  | e_started t q : thread_step (mkPair Starting t true q) (mkPair Owning t true q)
  (** [threadFunction] and [EventLoop::loop] *)
  | e_publish o l q : thread_step (mkPair o Entered l q) (mkPair o Published true q)
  | e_loop o l q : thread_step (mkPair o Published l q) (mkPair o Looping l false)
  | e_leave o l : thread_step (mkPair o Looping l true) (mkPair o Left l true)
  | e_finish o l q : thread_step (mkPair o Left l q) (mkPair o Finished false q)
  (** [~EventLoopThread] *)
  | e_destroy t l q : thread_step (mkPair Owning t l q) (mkPair (if l then Quitting else Joining) t l q)
  | e_quit t l q : thread_step (mkPair Quitting t l q) (mkPair Joining t l true)
  | e_join l q : thread_step (mkPair Joining Finished l q) (mkPair Joined Finished l q).

(** What holds: the owner has a loop that lives when it calls [quit], and once the
    thread loops, [quit_] is set by the owner alone. *)
Definition pair_ok (s : Pair) : bool :=
  match owner s, thread s, loop_ s, quit_ s with
  | Fresh, Unborn, false, false | Starting, Entered, false, false => true
  | (Starting | Owning | Quitting), (Published | Looping), true, false => true
  | Joining, (Published | Looping), true, _ | Joining, Left, true, true | Joining, Finished, false, true | Joined, Finished, false, true => true
  | _, _, _, _ => false
  end.

Lemma pair_ok_step s s' : thread_step s s' -> pair_ok s = true -> pair_ok s' = true.
Proof. destruct 1; repeat match goal with x : Owner |- _ => destruct x | x : Thread |- _ => destruct x | x : bool |- _ => destruct x end; done. Qed.
Lemma pair_ok_run s : rtc thread_step born s -> pair_ok s = true.
Proof.
  intros Hr. assert (pair_ok born = true) as Hok by done. revert Hok. induction Hr; eauto using pair_ok_step.
Qed.

(** The destructor calls [quit] on a loop that still exists. *)
Theorem quit_on_live_loop s : rtc thread_step born s -> owner s = Quitting -> loop_ s = true /\ thread s <> Finished.
Proof. intros Hr%pair_ok_run Ho. destruct s as [o t [] q]; cbn in *; subst; by destruct t. Qed.

(** A [quit] that comes before the thread has entered [loop()] is lost: the loop
    goes on, and the destructor waits for it for ever. *)
Theorem early_quit_lost :
  exists s, rtc thread_step born s /\ owner s = Joining /\ thread s = Looping /\ forall s', ~ thread_step s s'.
Proof.
  exists (mkPair Joining Looping true false). split_and!; [|done|done|].
  - eapply rtc_l; [apply e_start|]. eapply rtc_l; [apply e_publish|]. eapply rtc_l; [apply e_started|].
    eapply rtc_l; [apply e_destroy|]. eapply rtc_l; [apply e_quit|]. eapply rtc_l; [apply e_loop|]. apply rtc_refl.
  - intros s' Hs. inversion Hs.
Qed.
End LoopThread.
