(* ===== verification/TcpServerProps.v ===== *)
(** * The life of the connections of a server

    However the threads interleave, every accepted connection is established
    once and destroyed at most once, in that order and by the thread of its own
    loop; and the server's map holds exactly the connections that live. *)
From S2P Require Import Prelude TcpServer.
Import TcpServer.

Module TcpServerProps.

(** ** Spreading over the loops *)

(** The loops that [n] calls of [getNextLoop] give. *)
Fixpoint next_loops (n : nat) (p : LoopPool) : list nat :=
  match n with 0 => [] | Datatypes.S n => (getNextLoop p).1 :: next_loops n (getNextLoop p).2 end.

Lemma next_loops_rotate n st tc k loops :
  k < length loops ->
  next_loops n (mkLoopPool st tc k loops) = map (fun j => nth ((k + j) mod length loops) loops 0) (seq 0 n).
Proof.
  revert k. induction n as [|n IH]; intros k Hk; [done|]. destruct loops as [|x loops]; [cbn in Hk; lia|].
  cbn [next_loops]. unfold getNextLoop. cbn [loops_ next_ pool_started_ threadCount_ fst snd].
  rewrite (IH ((k + 1) mod length (x :: loops))) by (apply Nat.mod_upper_bound; done).
  cbn [seq map]. f_equal; [by rewrite Nat.add_0_r, Nat.mod_small|]. rewrite <- seq_shift, map_map.
  apply map_ext. intros j. f_equal. rewrite Nat.Div0.add_mod_idemp_l. f_equal. lia.
Qed.

Section Server.
Context {C S E : Type} `{LifeLaws C S E}.
Variable name_ : string.
Local Abbreviation Server := (@Server C).
Local Abbreviation Object := (@Object C).

(** ** The invariant *)

(** The life functors of connection [i] among those queued. *)
Definition life_functor (i : nat) (x : nat * functor) : option (nat * life_call) :=
  match x.2 with
  | Establish j => if j =? i then Some (x.1, Established) else None
  | DestroyConnection j => if j =? i then Some (x.1, Destroyed) else None
  | _ => None
  end.
Definition life (i : nat) (l : list (nat * functor)) : list (nat * life_call) := omap (life_functor i) l.
Definition member (s : Server) (i : nat) (o : Object) : bool := bool_decide (connections_ s !! o_name o = Some i).

(** The calls a connection has got and those queued: established, and destroyed
    if it is not in the map. *)
Definition whole_life (o : Object) (m : bool) : list (nat * life_call) :=
  (o_loop o, Established) :: if m then [] else [(o_loop o, Destroyed)].

Definition object_ok (s : Server) (i : nat) (o : Object) : Prop :=
  o_calls o ++ life i (pending s) = whole_life o (member s i o) /\
  (o_calls o = [] -> disconnected (o_connection o) = false) /\
  (gone s = false ->
     if member s i o then disconnected (o_connection o) = true <-> (0, RemoveInLoop i) ∈ pending s
     else disconnected (o_connection o) = true).

Definition functor_of (f : functor) : option nat :=
  match f with Start _ => None | Establish i | RemoveInLoop i | DestroyConnection i => Some i end.

(** Connections of the base loop are established at once, and the map is the
    business of the base loop. *)
Definition placed (x : nat * functor) : Prop :=
  match x.2 with Establish _ => x.1 <> 0 | RemoveInLoop _ => x.1 = 0 | _ => True end.

Record shape_ok (s : Server) : Prop := {
  map_objects n i : connections_ s !! n = Some i -> exists o, objects s !! i = Some o /\ o_name o = n;
  object_names i o : objects s !! i = Some o -> exists id, (1 <= id < nextConnectionId_ s)%Z /\ o_name o = connectionName name_ id;
  names_distinct i j o o' : objects s !! i = Some o -> objects s !! j = Some o' -> o_name o = o_name o' -> i = j;
  functor_objects x i : x ∈ pending s -> functor_of x.2 = Some i -> i < length (objects s);
  functors_placed x : x ∈ pending s -> placed x;
  next_positive : (1 <= nextConnectionId_ s)%Z;
  gone_stopped : gone s = true -> running s = false /\ connections_ s = ∅ }.

(** The invariant, but for connection [i]. *)
Definition inv_but (i : nat) (s : Server) : Prop :=
  shape_ok s /\ forall j o, j <> i -> objects s !! j = Some o -> object_ok s j o.
Definition inv (s : Server) : Prop :=
  shape_ok s /\ forall j o, objects s !! j = Some o -> object_ok s j o.

Lemma inv_restored i s : inv_but i s -> (forall o, objects s !! i = Some o -> object_ok s i o) -> inv s.
Proof. intros [Hs Hb] Hi. split; [done|]. intros j o Ho. destruct (decide (j = i)) as [->|]; eauto. Qed.
Lemma inv_weaken i s : inv s -> inv_but i s.
Proof. intros [Hs Hb]. split; eauto. Qed.

Lemma life_app i l1 l2 : life i (l1 ++ l2) = life i l1 ++ life i l2.
Proof. apply omap_app. Qed.
Lemma life_cons i x l : life i (x :: l) = option_list (life_functor i x) ++ life i l.
Proof. unfold life. cbn. by destruct (life_functor i x). Qed.

(** Functors of one connection mean nothing to another. *)
Lemma life_functor_other i j x : functor_of x.2 = Some i \/ functor_of x.2 = None -> j <> i -> life_functor j x = None.
Proof.
  destruct x as [k []]; unfold life_functor; cbn; intros [[= ->]|Hn] Hj; try done;
    (destruct (i =? j) eqn:Hij; [apply Nat.eqb_eq in Hij; congruence|done]).
Qed.

#[local] Ltac fields :=
  cbn [threadPool_ started_ listening_ nextConnectionId_ connections_ objects pending running gone set_pool set_started
    set_listening set_next set_connections set_objects set_pending set_running set_gone queueInLoop
    o_name o_loop o_connection o_calls] in *.

Lemma object_ok_ext (s s' : Server) j o :
  connections_ s' !! o_name o = connections_ s !! o_name o -> gone s' = gone s -> life j (pending s') = life j (pending s) ->
  ((0, RemoveInLoop j) ∈ pending s' <-> (0, RemoveInLoop j) ∈ pending s) -> object_ok s j o -> object_ok s' j o.
Proof.
  intros Hm Hg Hl Hr (H1 & H2 & H3). assert (member s' j o = member s j o) as Hmem by (unfold member; by rewrite Hm).
  unfold object_ok. rewrite Hmem, Hg, Hl. split_and!; [done..|]. intros Hgone. specialize (H3 Hgone).
  destruct (member s j o); [by rewrite Hr|done].
Qed.

(** A functor of connection [i] more or less. *)
Lemma pending_other i j l1 l2 k f :
  functor_of f = Some i -> j <> i ->
  life j (l1 ++ (k, f) :: l2) = life j (l1 ++ l2) /\
  ((0, RemoveInLoop j) ∈ l1 ++ (k, f) :: l2 <-> (0, RemoveInLoop j) ∈ l1 ++ l2).
Proof.
  intros Hf Hj. split.
  - rewrite !life_app, life_cons, (life_functor_other i); auto.
  - rewrite !elem_of_app, elem_of_cons. split; [|tauto]. intros [?|[[= -> <-]|?]]; [tauto| |tauto]. cbn in Hf. congruence.
Qed.

Lemma shape_pending (s : Server) l :
  shape_ok s -> (forall x i, x ∈ l -> functor_of x.2 = Some i -> i < length (objects s)) ->
  (forall x, x ∈ l -> placed x) -> shape_ok (set_pending l s).
Proof. intros [H1 H2 H3 H4 Hbe Hnx H5] Hl Hl'. split; done. Qed.

Lemma queue_shape i k f s :
  functor_of f = Some i -> placed (k, f) -> i < length (objects s) -> shape_ok s ->
  shape_ok (queueInLoop k f s).
Proof.
  intros Hf Hbe Hi Hs. apply shape_pending; [done|..].
  - intros x i' Hx Hx'. apply elem_of_app in Hx as [Hx|Hx]; [by eapply functor_objects|].
    apply list_elem_of_singleton in Hx as ->. cbn in Hx'. congruence.
  - intros x Hx. apply elem_of_app in Hx as [Hx|Hx]; [by eapply functors_placed|]. by apply list_elem_of_singleton in Hx as ->.
Qed.

Lemma queue_but i k f s :
  functor_of f = Some i -> placed (k, f) -> i < length (objects s) -> inv_but i s ->
  inv_but i (queueInLoop k f s).
Proof.
  intros Hf Hbe Hi [Hs Hb]. split; [by apply queue_shape with i|].
  intros j o Hj Ho. fields. destruct (pending_other i j (pending s) [] k f Hf Hj) as [F1 F2]. rewrite app_nil_r in F1, F2.
  apply object_ok_ext with s; auto.
Qed.

Lemma run_but i k f l1 l2 s :
  functor_of f = Some i -> pending s = l1 ++ (k, f) :: l2 -> inv_but i s -> inv_but i (set_pending (l1 ++ l2) s).
Proof.
  intros Hf Hp [Hs Hb]. split.
  - apply shape_pending; [done| |].
    + intros x i' Hx. apply functor_objects with (1 := Hs). rewrite Hp. revert Hx. rewrite !elem_of_app, elem_of_cons. tauto.
    + intros x Hx. apply functors_placed with (1 := Hs). rewrite Hp. revert Hx. rewrite !elem_of_app, elem_of_cons. tauto.
  - intros j o Hj Ho. fields. destruct (pending_other i j l1 l2 k f Hf Hj) as [F1 F2].
    apply object_ok_ext with s; rewrite ?Hp; auto.
Qed.

(** Another state of the object of connection [i]. *)
Lemma update_shape i o c calls s :
  objects s !! i = Some o -> shape_ok s ->
  shape_ok (set_objects (<[i := mkObject (o_name o) (o_loop o) c calls]> (objects s)) s).
Proof.
  intros Ho [H1 H2 H3 H4 Hbe Hnx H5]. pose proof (lookup_lt_Some _ _ _ Ho) as Hlt.
  assert (forall j o', <[i := mkObject (o_name o) (o_loop o) c calls]> (objects s) !! j = Some o' ->
    exists o0, objects s !! j = Some o0 /\ o_name o0 = o_name o') as Hback.
  { intros j o' Hl. destruct (decide (i = j)) as [<-|Hij].
    - rewrite list_lookup_insert_eq in Hl by done. injection Hl as <-. by exists o.
    - rewrite list_lookup_insert_ne in Hl by done. by exists o'. }
  split; fields; [| | | |done..].
  - intros n j Hc. destruct (H1 n j Hc) as (o' & Ho' & Hn). destruct (decide (i = j)) as [<-|Hij].
    + eexists. rewrite list_lookup_insert_eq by done. split; [done|]. cbn. congruence.
    + exists o'. by rewrite list_lookup_insert_ne.
  - intros j o' Hl. destruct (Hback j o' Hl) as (o0 & E1 & <-). eauto.
  - intros j j' o1 o2 Hl1 Hl2 Hn. destruct (Hback _ _ Hl1) as (? & ? & E1). destruct (Hback _ _ Hl2) as (? & ? & E2).
    eapply H3; [eassumption..|congruence].
  - intros x j. rewrite length_insert. apply H4.
Qed.

Lemma update_but i o c calls s :
  objects s !! i = Some o -> inv_but i s ->
  inv_but i (set_objects (<[i := mkObject (o_name o) (o_loop o) c calls]> (objects s)) s).
Proof.
  intros Ho [Hs Hb]. split; [by apply update_shape|]. intros j o' Hj. fields. rewrite list_lookup_insert_ne by done.
  intros Ho'. apply object_ok_ext with s; auto.
Qed.

(** A name of the map leads to its own object. *)
Lemma lookup_member i o s : shape_ok s -> objects s !! i = Some o ->
  connections_ s !! o_name o = if member s i o then Some i else None.
Proof.
  intros Hs Ho. unfold member. case_bool_decide as Hm; [done|]. destruct (connections_ s !! o_name o) as [j|] eqn:Hj; [|done].
  destruct (map_objects _ Hs _ _ Hj) as (o' & Ho' & Hn). exfalso. apply Hm. f_equal. by eapply names_distinct.
Qed.

Lemma delete_but i o s : objects s !! i = Some o -> inv_but i s -> inv_but i (set_connections (delete (o_name o) (connections_ s)) s).
Proof.
  intros Ho [[H1 H2 H3 H4 Hbe Hnx H5] Hb]. split; [split; fields; eauto|].
  - intros n j [_ Hc]%lookup_delete_Some. eauto.
  - intros Hg. destruct (H5 Hg) as [F1 F2]. rewrite F2. split; [done|apply delete_empty].
  - intros j o' Hj Ho'. fields. apply object_ok_ext with s; auto. fields. rewrite lookup_delete_ne; [done|]. intros Hn. apply Hj. by eapply H3.
Qed.

(** What is known of connection [i] when it has been disconnected and the server
    has not heard of it yet. *)
Definition closing (i : nat) (s : Server) : Prop :=
  inv_but i s /\ exists o, objects s !! i = Some o /\ o_calls o <> [] /\ disconnected (o_connection o) = true /\
    o_calls o ++ life i (pending s) = whole_life o (member s i o).

Lemma removeConnectionInLoop_inv i s : closing i s -> inv (removeConnectionInLoop i s).
Proof.
  intros (Hb & o & Ho & Hc & Hd & Hl). pose proof (lookup_lt_Some _ _ _ Ho) as Hlt.
  unfold removeConnectionInLoop. rewrite Ho, (lookup_member i o s) by (apply Hb || done).
  destruct (member s i o) eqn:Hm.
  - apply inv_restored with i; [apply queue_but; [done..|by apply delete_but]|].
    intros o' Ho'. fields. rewrite Ho in Ho'. injection Ho' as <-. set (s' := queueInLoop _ _ _).
    assert (member s' i o = false) as Hm'. { unfold member, s'. fields. by rewrite lookup_delete_eq. }
    unfold object_ok. rewrite Hm'. split_and!; [|done|done]. unfold s'. fields. rewrite life_app, app_assoc, Hl. cbn. by rewrite Nat.eqb_refl.
  - apply inv_restored with i; [done|]. intros o' Ho'. rewrite Ho in Ho'. injection Ho' as <-. unfold object_ok. by rewrite Hm.
Qed.

Lemma removeConnection_inv loop i s : closing i s -> inv (removeConnection loop i s).
Proof.
  intros Hcl. unfold removeConnection. destruct (loop =? 0); [by apply removeConnectionInLoop_inv|].
  destruct Hcl as (Hb & o & Ho & Hc & Hd & Hl). pose proof (lookup_lt_Some _ _ _ Ho) as Hlt.
  apply inv_restored with i; [by apply queue_but|]. intros o' Ho'. fields. rewrite Ho in Ho'. injection Ho' as <-.
  set (s' := queueInLoop _ _ _). assert (member s' i o = member s i o) as Hm by done.
  unfold object_ok. rewrite Hm. split_and!; [|done|].
  - unfold s'. fields. rewrite life_app. cbn. by rewrite app_nil_r.
  - intros _. destruct (member s i o); [|done]. split; [|done]. intros _. unfold s'. fields. apply elem_of_app. right. by left.
Qed.

(** ** The steps *)

(** A connection gets its events, or [connectEstablished]. *)
Lemma live_on_inv loop i o f calls s :
  inv_but i s -> objects s !! i = Some o -> o_calls o ++ calls <> [] ->
  (disconnected (o_connection o) = true -> disconnected (f (o_connection o)) = true) ->
  (o_calls o ++ calls) ++ life i (pending s) = whole_life o (member s i o) ->
  (gone s = false ->
     if member s i o then disconnected (o_connection o) = true <-> (0, RemoveInLoop i) ∈ pending s
     else disconnected (o_connection o) = true) ->
  inv (live_on loop i calls f s).
Proof.
  intros Hb Ho Hc Hst Hl Hd. unfold live_on. rewrite Ho. pose proof (lookup_lt_Some _ _ _ Ho) as Hlt.
  set (o' := mkObject _ _ _ _). set (s' := set_objects _ s).
  assert (inv_but i s') as Hb' by by apply update_but. assert (objects s' !! i = Some o') as Ho' by (by apply list_lookup_insert_eq).
  destruct (disconnected (o_connection o)) eqn:Hd1; cbn [negb andb]; [|destruct (disconnected (f (o_connection o))) eqn:Hd2].
  2: { apply removeConnection_inv. split; [done|]. exists o'. done. }
  all: apply inv_restored with i; [done|]; intros o2 Ho2; rewrite Ho' in Ho2; injection Ho2 as <-; split_and!; [done|done|];
    intros Hg; specialize (Hd Hg); change (member s' i o') with (member s i o); cbn [o_connection o'].
  - by rewrite (Hst eq_refl).
  - by rewrite Hd2.
Qed.

Lemma inv_ext (s s' : Server) :
  objects s' = objects s -> connections_ s' = connections_ s -> pending s' = pending s -> gone s' = gone s ->
  nextConnectionId_ s' = nextConnectionId_ s -> (running s = false -> running s' = false) -> inv s -> inv s'.
Proof.
  intros E1 E2 E3 E4 E5 E6 [[H1 H2 H3 H4 Hbe Hnx H5] Hb]. split.
  - split; rewrite ?E1, ?E2, ?E3, ?E4, ?E5; auto. intros Hg. destruct (H5 Hg). auto.
  - intros j o. rewrite E1. intros Ho. apply object_ok_ext with s; rewrite ?E2, ?E3; auto.
Qed.

Lemma queue_start_inv error s : inv s -> inv (queueInLoop 0 (Start error) s).
Proof.
  intros [Hs Hb]. split.
  - apply shape_pending; [done| |].
    + intros x i Hx Hf. apply elem_of_app in Hx as [Hx|Hx]; [by eapply functor_objects|].
      by apply list_elem_of_singleton in Hx as ->.
    + intros x Hx. apply elem_of_app in Hx as [Hx|Hx]; [by eapply functors_placed|]. by apply list_elem_of_singleton in Hx as ->.
  - intros j o Ho. fields. apply object_ok_ext with s; auto; fields.
    + rewrite life_app. apply app_nil_r.
    + rewrite elem_of_app, list_elem_of_singleton. naive_solver.
Qed.

Lemma drop_start_inv k error l1 l2 s : pending s = l1 ++ (k, Start error) :: l2 -> inv s -> inv (set_pending (l1 ++ l2) s).
Proof.
  intros Hp [Hs Hb]. assert (forall x, x ∈ l1 ++ l2 -> x ∈ pending s) as Hsub.
  { intros x. rewrite Hp, !elem_of_app, elem_of_cons. tauto. }
  split.
  - apply shape_pending; [done|..]; intros x; [intros i Hx%Hsub; by apply functor_objects|intros Hx%Hsub; by eapply functors_placed].
  - intros j o Ho. fields. apply object_ok_ext with s; auto; fields; rewrite Hp.
    + by rewrite !life_app, life_cons.
    + rewrite !elem_of_app, elem_of_cons. naive_solver.
Qed.

Lemma start_functor_inv error s : inv s -> inv (start_functor error s).
Proof. apply inv_ext; unfold start_functor, listen; fields; by destruct (listening_ s), error. Qed.

Lemma start_inv me error s : inv s -> inv (start me error s).
Proof.
  intros Hi. unfold start, runInLoop. destruct (started_ s); [done|].
  assert (inv (set_started s)) by (revert Hi; by apply inv_ext).
  destruct (me =? 0); [by apply start_functor_inv|by apply queue_start_inv].
Qed.

(** The functor at the head of what a loop has to run is the next of the
    connection's life. *)
Lemma life_first (l1 l2 : list (nat * life_call)) k L (d : list (nat * life_call)) :
  l1 ++ (k, Established) :: l2 = (L, Established) :: d -> Forall (fun x => x.2 = Destroyed) d -> l1 = [] /\ k = L /\ l2 = d.
Proof.
  destruct l1 as [|x l1]; [by intros [= -> ->]|]. intros [= -> Hd] Hf. exfalso. subst d.
  apply Forall_app in Hf as [_ Hf]. by inversion Hf.
Qed.
Lemma life_second (l1 l2 : list (nat * life_call)) k L (m : bool) :
  l1 ++ (k, Destroyed) :: l2 = (L, Established) :: (if m then [] else [(L, Destroyed)]) ->
  l1 = [(L, Established)] /\ k = L /\ l2 = [] /\ m = false.
Proof.
  destruct l1 as [|x [|y l1]]; [done|..]; destruct m; intros Heq; try (by injection Heq as -> Heq).
  exfalso. injection Heq as -> -> Heq. by destruct l1.
Qed.
Lemma whole_tail (m : bool) L : Forall (fun x : nat * life_call => x.2 = Destroyed) (if m then [] else [(L, Destroyed)]).
Proof. destruct m; auto. Qed.

Lemma life_here i k f (l1 l2 : list (nat * functor)) x : life_functor i (k, f) = Some x -> life i (l1 ++ (k, f) :: l2) = life i l1 ++ x :: life i l2.
Proof. intros Hx. by rewrite life_app, life_cons, Hx. Qed.

Lemma establish_inv k i l1 l2 s :
  pending s = l1 ++ (k, Establish i) :: l2 -> inv s ->
  inv (live_on k i [(k, Established)] connectEstablished (set_pending (l1 ++ l2) s)).
Proof.
  intros Hp Hi. pose proof Hi as [Hs Hok].
  assert (i < length (objects s)) as [o Ho]%lookup_lt_is_Some_2.
  { eapply functor_objects; [exact Hs|rewrite Hp; apply elem_of_app; right; by left|done]. }
  destruct (Hok _ _ Ho) as (F1 & F2 & F3). rewrite Hp, (life_here i k _ l1 l2 (k, Established)) in F1 by (cbn; by rewrite Nat.eqb_refl).
  rewrite app_assoc in F1. apply life_first in F1 as (F4 & -> & F5); [|apply whole_tail]. apply app_nil in F4 as [F6 F7].
  specialize (F2 F6). eapply live_on_inv; [by refine (run_but i _ _ l1 l2 s _ Hp (inv_weaken i s Hi))| exact Ho|by rewrite F6| | |]; fields.
  - by rewrite F2.
  - rewrite F6, life_app, F7, F5. done.
  - intros Hg. specialize (F3 Hg). unfold member in *. fields. destruct (bool_decide _); [|done]. rewrite F3, Hp.
    rewrite !elem_of_app, elem_of_cons. naive_solver.
Qed.

Lemma remove_functor_inv k i l1 l2 s :
  pending s = l1 ++ (k, RemoveInLoop i) :: l2 -> inv s -> k = 0 -> running s = true -> inv (removeConnectionInLoop i (set_pending (l1 ++ l2) s)).
Proof.
  intros Hp Hi -> Hr. pose proof Hi as [Hs Hok].
  assert (gone s = false) as Hg. { destruct (gone s) eqn:Hg; [|done]. destruct (gone_stopped _ Hs Hg). congruence. }
  assert (i < length (objects s)) as [o Ho]%lookup_lt_is_Some_2.
  { eapply functor_objects; [exact Hs|rewrite Hp; apply elem_of_app; right; by left|done]. }
  destruct (Hok _ _ Ho) as (F1 & F2 & F3). specialize (F3 Hg).
  assert (disconnected (o_connection o) = true) as Hd.
  { destruct (member s i o); [|done]. apply F3. rewrite Hp. apply elem_of_app. right. by left. }
  apply removeConnectionInLoop_inv. split; [by refine (run_but i _ _ l1 l2 s _ Hp (inv_weaken i s Hi))|]. exists o. fields.
  split_and!; [done| |done|].
  - intros Hc. specialize (F2 Hc). congruence.
  - rewrite Hp, life_app, life_cons in F1. by rewrite life_app.
Qed.

Lemma destroy_inv k i l1 l2 s :
  pending s = l1 ++ (k, DestroyConnection i) :: l2 -> Forall (fun x => x.1 <> k) l1 -> inv s ->
  inv (destroy_on k i (set_pending (l1 ++ l2) s)).
Proof.
  intros Hp Hl1 Hi. pose proof Hi as [Hs Hok].
  assert (i < length (objects s)) as [o Ho]%lookup_lt_is_Some_2.
  { eapply functor_objects; [exact Hs|rewrite Hp; apply elem_of_app; right; by left|done]. }
  destruct (Hok _ _ Ho) as (F1 & F2 & F3). rewrite Hp, (life_here i k _ l1 l2 (k, Destroyed)) in F1 by (cbn; by rewrite Nat.eqb_refl).
  rewrite app_assoc in F1. apply life_second in F1 as (F4 & -> & F5 & F6).
  assert (life i l1 = []) as F7.
  { destruct (life i l1) as [|x rest] eqn:Hx; [done|]. exfalso. 
    assert (x = (o_loop o, Established)) as ->. { destruct (o_calls o) as [|? [|]]; cbn in F4; by injection F4. }
    assert ((o_loop o, Established) ∈ life i l1) as Hin by (rewrite Hx; by left).
    apply list_elem_of_omap in Hin as ([k' f] & Hin & Hf). rewrite Forall_forall in Hl1. apply (Hl1 _ Hin).
    destruct f; cbn in Hf; try done; case_match; by simplify_eq/=. }
  rewrite F7, app_nil_r in F4. unfold destroy_on. fields. rewrite Ho. pose proof (lookup_lt_Some _ _ _ Ho) as Hlt.
  eapply inv_restored with i; [refine (update_but i o _ _ (set_pending (l1 ++ l2) s) Ho _); by refine (run_but i _ _ l1 l2 s _ Hp (inv_weaken i s Hi))|].
  intros o' Ho'. fields. rewrite list_lookup_insert_eq in Ho' by done. injection Ho' as <-. unfold object_ok.
  set (s' := set_objects _ _). assert (member s' i (mkObject (o_name o) (o_loop o) (connectDestroyed (o_connection o)) (o_calls o ++ [(o_loop o, Destroyed)])) = false) as Hm by exact F6.
  rewrite Hm. fields. split_and!.
  - unfold s'. fields. by rewrite life_app, F7, F5, F4.
  - rewrite F4. done.
  - intros Hg. specialize (F3 Hg). rewrite F6 in F3. by apply destroyed_stays.
Qed.

(** *** New connections *)

Lemma connectionName_inj id id' :
  (0 <= id)%Z -> (0 <= id')%Z -> connectionName name_ id = connectionName name_ id' -> id = id'.
Proof.
  intros Hi Hi' Hn. unfold connectionName in Hn. apply (inj (String.append name_)), (inj (String.append "-conn-")) in Hn.
  destruct (to_string_spec id Hi) as (_ & _ & <-). destruct (to_string_spec id' Hi') as (_ & _ & <-). by rewrite Hn.
Qed.

(** The state in which a new connection has its object and its name. *)
Definition with_object (o : Object) (s : Server) : Server :=
  set_connections (<[o_name o := length (objects s)]> (connections_ s)) (set_objects (objects s ++ [o]) (set_next (nextConnectionId_ s + 1) s)).

Lemma with_object_but o s :
  inv s -> gone s = false -> o_name o = connectionName name_ (nextConnectionId_ s) ->
  inv_but (length (objects s)) (with_object o s) /\ life (length (objects s)) (pending s) = [] /\
  (0, RemoveInLoop (length (objects s))) ∉ pending s.
Proof.
  intros [[H1 H2 H3 H4 Hbe Hnx H5] Hok] Hg Hn.
  assert (forall j o', objects s !! j = Some o' -> o_name o' <> o_name o) as Hfresh.
  { intros j o' Ho' He. destruct (H2 _ _ Ho') as (id & Hid & Hn'). rewrite He, Hn in Hn'. apply connectionName_inj in Hn'; lia. }
  assert (forall j o', (objects s ++ [o]) !! j = Some o' -> objects s !! j = Some o' \/ (j = length (objects s) /\ o' = o)) as Hback.
  { intros j o' [Hj|[Hj Ho']]%lookup_app_Some; [by left|right]. apply list_lookup_singleton_Some in Ho' as [? <-]. split; [lia|done]. }
  unfold with_object. split_and!; [split; [split; fields|]| |].
  - intros n j. rewrite lookup_insert. case_decide as He.
    + intros [= <-]. exists o. by rewrite lookup_app_r, Nat.sub_diag.
    + intros Hc. destruct (H1 _ _ Hc) as (o' & Ho' & Hn'). exists o'. by rewrite (lookup_app_l_Some _ _ _ _ Ho').
  - intros j o' [Ho'|[-> ->]]%Hback; [destruct (H2 _ _ Ho') as (id & ? & ?); exists id; split; [lia|done]|].
    exists (nextConnectionId_ s). split; [lia|done].
  - intros j j' o1 o2 [Ho1|[-> ->]]%Hback [Ho2|[-> ->]]%Hback He; [eauto|..|done]; exfalso; by eapply Hfresh.
  - intros x j Hx Hf. rewrite length_app. cbn. specialize (H4 _ _ Hx Hf). lia.
  - done.
  - lia.
  - congruence.
  - intros j o' Hj [Ho'|[-> ->]]%Hback; [|done]. apply object_ok_ext with s; auto. cbn. rewrite lookup_insert_ne; [done|]. intros He. by eapply Hfresh.
  - destruct (life _ _) as [|x l] eqn:Hl; [done|]. exfalso. assert (x ∈ life (length (objects s)) (pending s)) as Hin by (rewrite Hl; by left).
    apply list_elem_of_omap in Hin as ([k f] & Hin & Hf). destruct f as [error|j|j|j]; cbn in Hf; try done; case_match eqn:Hj; try done;
      apply Nat.eqb_eq in Hj; specialize (H4 _ j Hin eq_refl); lia.
  - intros Hin. specialize (H4 _ _ Hin eq_refl). lia.
Qed.

Lemma runInLoop_establish_inv o s :
  inv s -> gone s = false -> o_name o = connectionName name_ (nextConnectionId_ s) -> o_calls o = [] -> disconnected (o_connection o) = false ->
  inv (runInLoop 0 (o_loop o) (Establish (length (objects s))) (with_object o s)).
Proof.
  intros Hi Hg Hn Hc Hd. destruct (with_object_but o s Hi Hg Hn) as (Hb & Hl & Hr). set (i := length (objects s)) in *.
  assert (objects (with_object o s) !! i = Some o) as Ho by (cbn; by rewrite lookup_app_r, Nat.sub_diag).
  assert (member (with_object o s) i o = true) as Hm by (unfold member; cbn; apply bool_decide_eq_true_2, lookup_insert_eq).
  unfold runInLoop. destruct (0 =? o_loop o) eqn:Hz.
  - apply Nat.eqb_eq in Hz. cbn [call]. eapply live_on_inv; [done|exact Ho|by rewrite Hc|by rewrite Hd| |].
    + change (pending (with_object o s)) with (pending s). rewrite Hc, Hl. unfold whole_life. by rewrite Hm.
    + intros _. rewrite Hm, Hd. done.
  - apply inv_restored with i; [apply queue_but; [done| |cbn; rewrite length_app; cbn; lia|done]|].
    { intros Hj. cbn in Hj. by rewrite Hj in Hz. }
    intros o' Ho'. change (objects (with_object o s) !! i = Some o') in Ho'. rewrite Ho in Ho'. injection Ho' as <-.
    unfold object_ok. set (s' := queueInLoop _ _ _). change (member s' i o) with (member (with_object o s) i o). rewrite Hm. split_and!.
    + change (pending s') with (pending s ++ [(o_loop o, Establish i)]). rewrite life_app, Hl, Hc. cbn. by rewrite Nat.eqb_refl.
    + done.
    + intros _. rewrite Hd. split; [done|]. unfold s'. cbn. rewrite elem_of_app, list_elem_of_singleton. naive_solver.
Qed.

Lemma inv_next n s : (nextConnectionId_ s <= n)%Z -> inv s -> inv (set_next n s).
Proof.
  intros Hn [[H1 H2 H3 H4 Hbe Hnx H5] Hb]. split; [split; fields; eauto; try lia|].
  - intros j o Ho. destruct (H2 _ _ Ho) as (id & ? & ?). exists id. split; [lia|done].
  - intros j o Ho. apply object_ok_ext with s; auto.
Qed.

(** Nothing that the server does in the base loop destroys it or stops it. *)
Definition up (s s' : Server) : Prop := gone s' = gone s /\ running s' = running s.

Lemma removeConnection_up loop i s : up s (removeConnection loop i s).
Proof. unfold removeConnection, removeConnectionInLoop. repeat case_match; done. Qed.
Lemma live_on_up loop i calls f s : up s (live_on loop i calls f s).
Proof.
  unfold live_on. destruct (objects s !! i) as [o|]; [|done]. set (s' := set_objects _ s).
  case_match; [|done]. destruct (removeConnection_up loop i s') as [F1 F2]. split; [exact F1|exact F2].
Qed.

Lemma newConnection_inv getsockname ssl socket s :
  inv s -> gone s = false ->
  inv (newConnection name_ getsockname ssl socket s).2 /\ up s (newConnection name_ getsockname ssl socket s).2.
Proof.
  intros Hi Hg. unfold newConnection. destruct (getNextLoop (threadPool_ s)) as [ioLoop p].
  assert (inv (set_pool p s)) as Hp by (revert Hi; by apply inv_ext).
  destruct getsockname; [done|]. destruct ssl; [split; [|done]; apply inv_next; [fields; lia|done]|].
  set (o := mkObject (connectionName name_ (nextConnectionId_ (set_pool p s))) ioLoop (make socket) []).
  change (inv (runInLoop 0 (o_loop o) (Establish (length (objects (set_pool p s)))) (with_object o (set_pool p s))) /\
    up s (runInLoop 0 (o_loop o) (Establish (length (objects (set_pool p s)))) (with_object o (set_pool p s)))).
  split; [apply runInLoop_establish_inv; [done|done|done|done|apply make_open]|].
  unfold runInLoop. case_match; [|done]. cbn [call]. 
  destruct (live_on_up (o_loop o) (length (objects (set_pool p s))) [(o_loop o, Established)] connectEstablished (with_object o (set_pool p s))) as [F1 F2].
  split; [exact F1|exact F2].
Qed.

Lemma handleRead_inv answers s :
  inv s -> gone s = false -> inv (handleRead name_ answers s).2 /\ up s (handleRead name_ answers s).2.
Proof.
  revert s. induction answers as [|[socket gs ssl| | |e] rest IH]; intros s Hi Hg; cbn [handleRead]; try done.
  - destruct (newConnection_inv gs ssl socket s Hi Hg) as [F1 [F2 F3]].
    destruct (newConnection name_ gs ssl socket s) as [[e|] s1]; cbn [snd] in *; [done|].
    destruct (IH s1 F1) as [G1 [G2 G3]]; [congruence|]. split; [done|]. split; congruence.
  - by apply IH.
Qed.

(** *** The end of the server *)

(** While the server is being destroyed, connections [left] are still to be
    destroyed. *)
Definition ending (left : list nat) (s : Server) : Prop :=
  shape_ok s /\ gone s = true /\ forall j o, objects s !! j = Some o ->
    o_calls o ++ life j (pending s) = whole_life o (bool_decide (j ∈ left)) /\ (o_calls o = [] -> disconnected (o_connection o) = false).

Lemma ending_over s : ending [] s -> inv s.
Proof.
  intros (Hs & Hg & Hok). split; [done|]. intros j o Ho. destruct (Hok j o Ho) as [F1 F2].
  assert (member s j o = false) as Hm. { unfold member. by rewrite (proj2 (gone_stopped _ Hs Hg)), lookup_empty. }
  unfold object_ok. rewrite Hm. rewrite bool_decide_eq_false_2 in F1 by apply not_elem_of_nil. split_and!; [done|done|congruence].
Qed.

Lemma member_elem s j o : shape_ok s -> objects s !! j = Some o ->
  member s j o = bool_decide (j ∈ (map_to_list (connections_ s)).*2).
Proof.
  intros Hs Ho. unfold member. apply bool_decide_ext. rewrite list_elem_of_fmap. split.
  - intros Hm. exists (o_name o, j). split; [done|]. by apply elem_of_map_to_list.
  - intros ([n j'] & Hj & Hm). cbn in Hj. subst j'. apply elem_of_map_to_list in Hm.
    destruct (map_objects _ Hs _ _ Hm) as (o' & Ho' & <-). by simplify_eq.
Qed.

Lemma indices_distinct s : shape_ok s -> NoDup (map_to_list (connections_ s)).*2.
Proof.
  intros Hs. apply NoDup_fmap_2_strong; [|apply NoDup_map_to_list]. intros [n i] [n' i'] Hx Hx' Hi. cbn in Hi. subst i'.
  apply elem_of_map_to_list in Hx, Hx'. destruct (map_objects _ Hs _ _ Hx) as (o & Ho & <-).
  destruct (map_objects _ Hs _ _ Hx') as (o' & Ho' & <-). by simplify_eq.
Qed.

Lemma no_base_life i l : (forall x, x ∈ l -> placed x) -> (forall x, x ∈ life i l -> x = (0, Established)) -> life i l = [].
Proof.
  intros Hb Hx. destruct (life i l) as [|x rest] eqn:Hl; [done|]. exfalso.
  assert (x ∈ life i l) as Hin by (rewrite Hl; by left). rewrite (Hx x) in Hin by by left.
  apply list_elem_of_omap in Hin as ([k f] & Hin & Hf). destruct f as [error|j|j|j]; cbn in Hf; try done; case_match; simplify_eq.
  by apply (Hb _ Hin).
Qed.

Lemma end_one i o left s :
  ending (i :: left) s -> i ∉ left -> objects s !! i = Some o ->
  ending left (runInLoop 0 (o_loop o) (DestroyConnection i) s).
Proof.
  intros (Hs & Hg & Hok) Hi Ho. destruct (Hok i o Ho) as [F1 F2]. rewrite bool_decide_eq_true_2 in F1 by by left.
  pose proof (lookup_lt_Some _ _ _ Ho) as Hlt. unfold runInLoop.
  assert (forall j, j <> i -> bool_decide (j ∈ i :: left) = bool_decide (j ∈ left)) as Hl.
  { intros j Hj. apply bool_decide_ext. rewrite elem_of_cons. naive_solver. }
  destruct (0 =? o_loop o) eqn:Hz.
  - apply Nat.eqb_eq in Hz. cbn [call]. unfold destroy_on. rewrite Ho. split_and!; [by apply update_shape|done|].
    intros j o'. fields. destruct (decide (i = j)) as [<-|Hj].
    + rewrite list_lookup_insert_eq by done. intros [= <-]. fields. rewrite bool_decide_eq_false_2 by done.
      assert (life i (pending s) = []) as Hn.
      { apply no_base_life; [apply Hs|]. intros x Hx. rewrite Hz. destruct (o_calls o) as [|y l]; cbn in F1.
        - rewrite F1 in Hx. by apply list_elem_of_singleton in Hx as ->.
        - injection F1 as -> F1. apply app_nil in F1 as [_ F1]. rewrite F1 in Hx. by apply not_elem_of_nil in Hx. }
      rewrite Hn, app_nil_r in *. rewrite F1. split; [done|]. intros Hc. by apply app_nil in Hc as [_ ?].
    + rewrite list_lookup_insert_ne by done. intros Ho'. rewrite <- Hl by done. by apply Hok.
  - split_and!; [apply queue_shape with i; [done|done|done|done]|done|]. intros j o' Ho'. fields.
    destruct (Hok j o' Ho') as [G1 G2]. split; [|done]. rewrite life_app. destruct (decide (i = j)) as [<-|Hj].
    + rewrite bool_decide_eq_false_2 by done. simplify_eq. rewrite app_assoc, F1. cbn. by rewrite Nat.eqb_refl.
    + rewrite <- Hl, <- G1 by done. rewrite life_cons, (life_functor_other i); [|by left|done]. by rewrite !app_nil_r.
Qed.

Lemma runInLoop_length me loop i s : length (objects (runInLoop me loop (DestroyConnection i) s)) = length (objects s).
Proof.
  unfold runInLoop. case_match; [|done]. cbn [call]. unfold destroy_on. case_match; [|done]. cbn. apply length_insert.
Qed.

Lemma destroy_server_inv s : running s = false -> inv s -> inv (destroy_server s).
Proof.
  intros Hr [Hs Hok]. apply ending_over. unfold destroy_server.
  assert (ending (map_to_list (connections_ s)).*2 (set_gone (set_connections ∅ s))) as He.
  { split_and!; [|done|].
    - destruct Hs as [H1 H2 H3 H4 Hbe Hnx H5]. split; fields; [by intros n i|done..].
    - intros j o Ho. fields. destruct (Hok j o Ho) as (F1 & F2 & _). by rewrite <- (member_elem s j o). }
  pose proof (indices_distinct s Hs) as Hnd.
  assert (Forall (fun i => i < length (objects s)) (map_to_list (connections_ s)).*2) as Hidx.
  { apply Forall_fmap, Forall_forall. intros [n i] Hx. apply elem_of_map_to_list in Hx.
    destruct (map_objects _ Hs _ _ Hx) as (o & Ho & _). by eapply lookup_lt_Some. }
  change (length (objects s)) with (length (objects (set_gone (set_connections ∅ s)))) in Hidx.
  revert He Hnd Hidx. generalize (set_gone (set_connections ∅ s)). clear Hr Hs Hok.
  induction (map_to_list (connections_ s)) as [|[n i] left IH]; intros s' He Hnd Hidx; [done|].
  cbn [fmap list_fmap] in *. apply NoDup_cons in Hnd as [Hi Hnd]. apply Forall_cons in Hidx as [Hlt Hidx].
  cbn [foldl]. apply lookup_lt_is_Some_2 in Hlt as [o Ho]. cbn [snd] in Ho. rewrite Ho. apply IH; [by apply end_one|done|].
  by rewrite runInLoop_length.
Qed.

Lemma new_server_inv : inv new_server.
Proof.
  split; [split; cbn; try done; try lia|done]; [intros x i Hx|intros x Hx]; by apply not_elem_of_nil in Hx.
Qed.

Lemma step_inv s s' : step name_ s s' -> inv s -> inv s'.
Proof.
  destruct 1 as [n p s Hg Hp|me error s Hg|loop f l1 l2 s Hp Hl1 Hr|answers s Hr Hl Hn|i o e s Ho Hr Hc|s Hr|s Hr Hg]; intros Hi.
  - revert Hi. by apply inv_ext.
  - by apply start_inv.
  - destruct f as [error|i|i|i]; cbn [call].
    + by eapply start_functor_inv, drop_start_inv.
    + by apply establish_inv.
    + assert (loop = 0) as ->. { apply (functors_placed _ (proj1 Hi) (loop, RemoveInLoop i)). rewrite Hp. apply elem_of_app. right. by left. }
      apply remove_functor_inv with 0; auto.
    + by apply destroy_inv.
  - assert (gone s = false) as Hg. { destruct (gone s) eqn:Hg; [|done]. destruct Hi as [Hs _]. destruct (gone_stopped _ Hs Hg). congruence. }
    destruct (handleRead_inv answers s Hi Hg) as [F1 [F2 F3]]. revert F1. apply inv_ext; try done. fields. congruence.
  - pose proof Hi as [_ Hok]. destruct (Hok i o Ho) as (F1 & F2 & F3).
    apply live_on_inv with o; [by apply inv_weaken|done| |intros Hd; by apply disconnected_stays|by rewrite app_nil_r|done].
    rewrite app_nil_r. intros Hn. destruct Hc as [Hc|Hc]; [congruence|]. rewrite (F2 Hn) in Hc. done.
  - revert Hi. by apply inv_ext.
  - by apply destroy_server_inv.
Qed.

Lemma run_inv s s' : rtc (step name_) s s' -> inv s -> inv s'.
Proof. induction 1; eauto using step_inv. Qed.

End Server.

(** The connections go to the loops of the threads in turn. *)
Theorem loops_in_turn n k p :
  (0 < n)%Z -> setThreadNum n new_pool = inr p ->
  next_loops k (pool_start p) = map (fun j => 1 + j mod Z.to_nat n) (seq 0 k).
Proof.
  intros Hn Hp. unfold setThreadNum in Hp. cbn in Hp. case_match eqn:Hneg; [lia|]. injection Hp as <-.
  unfold pool_start. cbn [pool_started_ threadCount_ next_ loops_ new_pool app].
  rewrite next_loops_rotate; rewrite length_seq; [|lia]. apply map_ext. intros j. cbn [Nat.add].
  rewrite seq_nth; [done|]. apply Nat.mod_upper_bound. lia.
Qed.
End TcpServerProps.
