(* ===== verification/Payloads.v ===== *)
(** * Protocol Buffers payloads, [ChatRoom/proto/*.proto]

    The messages the program stores as blobs, with the fields of the .proto
    files.  The code protoc generates is not part of the sources: serialising
    and parsing are the class [ProtoCodec], and what the program relies on, that
    parsing inverts serialising, is [ProtoLaws]. *)
From S2P Require Import Prelude.

Module Payloads.

Inductive ChatMessageType := CHAT_MESSAGE_TYPE_UNSPECIFIED | PUBLIC | PRIVATE.

Definition message_type_code (t : ChatMessageType) : Z :=
  match t with CHAT_MESSAGE_TYPE_UNSPECIFIED => 0 | PUBLIC => 1 | PRIVATE => 2 end.

Record ChatMessagePayload := mkChatMessage {
  cm_type : ChatMessageType;
  cm_sender : string;
  cm_recipient : string;
  cm_content : string;
  cm_created_at : Z }.

Inductive FriendEventType :=
  | FRIEND_EVENT_TYPE_UNSPECIFIED
  | FRIEND_REQUEST_SENT
  | FRIEND_REQUEST_ACCEPTED
  | FRIEND_REQUEST_REJECTED
  | FRIEND_REMOVED.

Record FriendEventPayload := mkFriendEvent {
  fe_type : FriendEventType;
  fe_actor : string;
  fe_target : string;
  fe_occurred_at : Z }.

Record GroupMessagePayload := mkGroupMessage {
  gp_group_id : Z;
  gp_group_name : string;
  gp_sender : string;
  gp_content : string;
  gp_created_at : Z }.

Inductive FileTransferScope :=
  | FILE_TRANSFER_SCOPE_UNSPECIFIED
  | FILE_TRANSFER_PRIVATE
  | FILE_TRANSFER_GROUP.

Record FileTransferMetadata := mkFileMeta {
  fm_token : string;
  fm_scope : FileTransferScope;
  fm_sender : string;
  fm_recipient : string;
  fm_group_id : Z;
  fm_group_name : string;
  fm_file_name : string;
  fm_file_size : Z;
  fm_sha256_hex : string;
  fm_created_at : Z;
  fm_stored_path : string }.

Record FileUploadResumeState := mkResumeState {
  rs_metadata : option FileTransferMetadata;
  rs_recipients : list string }.

#[export] Instance message_type_eq_dec : EqDecision ChatMessageType.
Proof. solve_decision. Defined.
#[export] Instance friend_event_type_eq_dec : EqDecision FriendEventType.
Proof. solve_decision. Defined.
#[export] Instance scope_eq_dec : EqDecision FileTransferScope.
Proof. solve_decision. Defined.
#[export] Instance chat_message_eq_dec : EqDecision ChatMessagePayload.
Proof. solve_decision. Defined.
#[export] Instance group_message_eq_dec : EqDecision GroupMessagePayload.
Proof. solve_decision. Defined.
#[export] Instance file_meta_eq_dec : EqDecision FileTransferMetadata.
Proof. solve_decision. Defined.

(** [SerializeToString] and [ParseFromArray] of one message type; [None] is a
    [false] return. *)
Class ProtoCodec (A : Type) := {
  SerializeToString : A -> option string;
  ParseFromArray : string -> option A;
}.

(** The round trip, for the messages the wire format can carry ([proto_ok];
    string fields must be UTF-8 to be parsed again). *)
Class ProtoLaws (A : Type) `{ProtoCodec A} := {
  proto_ok : A -> Prop;
  serialize_ok : forall a, proto_ok a -> exists b, SerializeToString a = Some b;
  parse_serialize : forall a b,
    proto_ok a -> SerializeToString a = Some b -> ParseFromArray b = Some a;
}.

(** All the codecs the database and the file service use. *)
Class ProtoCodecs := {
  chat_codec :: ProtoCodec ChatMessagePayload;
  friend_codec :: ProtoCodec FriendEventPayload;
  group_codec :: ProtoCodec GroupMessagePayload;
  file_codec :: ProtoCodec FileTransferMetadata;
  resume_codec :: ProtoCodec FileUploadResumeState;
}.

End Payloads.
