(* ===== verification/Tables.v ===== *)
(** * The relational store, [ChatRoom/sql/*.sql]

    The tables of the MySQL schema as lists of rows, the constraints the schema
    declares (primary keys, unique keys, foreign keys with their ON DELETE
    actions, CHECK clauses), and the statements the program issues on them.
    The engine itself is not part of the sources.  A statement here has the
    meaning of its SQL text on the schema; whether the engine executes it is
    decided by the fault schedule of [Db]: every interaction with the engine
    takes the next entry, and an entry [Some text] makes it fail with that
    text.  The texts the engine reports for violated constraints are the class
    [SqlEngine]. *)
From S2P Require Import Prelude Payloads.
Import Payloads.

Module Tables.

(** ** Rows *)

Record UserRow := mkUser { u_name : string; u_hash : string }.
Record FriendEventRow := mkEventRow {
  e_id : Z; e_type : FriendEventType; e_actor : string; e_target : string;
  e_at : Z; e_payload : string }.
Record MessageRow := mkMessageRow {
  m_id : Z; m_type : Z; m_sender : string; m_recipient : option string;
  m_at : Z; m_payload : string }.
(** A row of any of the three delivery tables: the message or transfer, the
    recipient and the delivery time, NULL while the delivery is pending. *)
Record DeliveryRow := mkDelivery {
  d_id : Z; d_recipient : string; d_at : option Z }.
Record GroupRow := mkGroup { g_id : Z; g_name : string; g_owner : string }.

Inductive GroupRole := Owner | Admin | Member.
#[export] Instance group_role_eq_dec : EqDecision GroupRole.
Proof. solve_decision. Defined.
Definition role_code (r : GroupRole) : Z :=
  match r with Owner => 1 | Admin => 2 | Member => 3 end.

Record MemberRow := mkMember { gm_group : Z; gm_user : string; gm_role : GroupRole }.
Record JoinRequestRow := mkJoin { jr_group : Z; jr_user : string; jr_created : Z }.
Record GroupMessageRow := mkGroupMessageRow {
  q_id : Z; q_group : Z; q_sender : string; q_at : Z; q_payload : string }.
Record FileTransferRow := mkTransfer {
  f_id : Z; f_token : string; f_scope : FileTransferScope; f_sender : string;
  f_recipient : option string; f_group : option Z; f_name : string; f_size : Z;
  f_sha : string; f_path : string; f_at : Z; f_metadata : string }.

(** ** The database: all tables and the AUTO_INCREMENT counters *)

Record Tables := mkTables {
  users : list (UserRow);
  friend_requests : list (string * string);
  friendships : list (string * string);
  friend_blocks : list (string * string);
  friend_events : list (FriendEventRow);
  messages : list (MessageRow);
  private_message_deliveries : list (DeliveryRow);
  chat_groups : list (GroupRow);
  group_members : list (MemberRow);
  group_join_requests : list (JoinRequestRow);
  group_messages : list (GroupMessageRow);
  group_message_deliveries : list (DeliveryRow);
  file_transfers : list (FileTransferRow);
  file_transfer_deliveries : list (DeliveryRow);
  next_event_id : Z;
  next_message_id : Z;
  next_group_id : Z;
  next_group_message_id : Z;
  next_transfer_id : Z }.

Definition set_users (rows : list (UserRow)) (t : Tables) : Tables :=
  mkTables rows (friend_requests t) (friendships t) (friend_blocks t) (friend_events t)
    (messages t) (private_message_deliveries t) (chat_groups t) (group_members t)
    (group_join_requests t) (group_messages t) (group_message_deliveries t) (file_transfers t)
    (file_transfer_deliveries t) (next_event_id t) (next_message_id t) (next_group_id t)
    (next_group_message_id t) (next_transfer_id t).
Definition set_friend_requests (rows : list (string * string)) (t : Tables) : Tables :=
  mkTables (users t) rows (friendships t) (friend_blocks t) (friend_events t) (messages t)
    (private_message_deliveries t) (chat_groups t) (group_members t) (group_join_requests t)
    (group_messages t) (group_message_deliveries t) (file_transfers t)
    (file_transfer_deliveries t) (next_event_id t) (next_message_id t) (next_group_id t)
    (next_group_message_id t) (next_transfer_id t).
Definition set_friendships (rows : list (string * string)) (t : Tables) : Tables :=
  mkTables (users t) (friend_requests t) rows (friend_blocks t) (friend_events t) (messages t)
    (private_message_deliveries t) (chat_groups t) (group_members t) (group_join_requests t)
    (group_messages t) (group_message_deliveries t) (file_transfers t)
    (file_transfer_deliveries t) (next_event_id t) (next_message_id t) (next_group_id t)
    (next_group_message_id t) (next_transfer_id t).
Definition set_friend_blocks (rows : list (string * string)) (t : Tables) : Tables :=
  mkTables (users t) (friend_requests t) (friendships t) rows (friend_events t) (messages t)
    (private_message_deliveries t) (chat_groups t) (group_members t) (group_join_requests t)
    (group_messages t) (group_message_deliveries t) (file_transfers t)
    (file_transfer_deliveries t) (next_event_id t) (next_message_id t) (next_group_id t)
    (next_group_message_id t) (next_transfer_id t).
Definition set_friend_events (rows : list (FriendEventRow)) (t : Tables) : Tables :=
  mkTables (users t) (friend_requests t) (friendships t) (friend_blocks t) rows (messages t)
    (private_message_deliveries t) (chat_groups t) (group_members t) (group_join_requests t)
    (group_messages t) (group_message_deliveries t) (file_transfers t)
    (file_transfer_deliveries t) (next_event_id t) (next_message_id t) (next_group_id t)
    (next_group_message_id t) (next_transfer_id t).
Definition set_messages (rows : list (MessageRow)) (t : Tables) : Tables :=
  mkTables (users t) (friend_requests t) (friendships t) (friend_blocks t) (friend_events t)
    rows (private_message_deliveries t) (chat_groups t) (group_members t)
    (group_join_requests t) (group_messages t) (group_message_deliveries t) (file_transfers t)
    (file_transfer_deliveries t) (next_event_id t) (next_message_id t) (next_group_id t)
    (next_group_message_id t) (next_transfer_id t).
Definition set_private_message_deliveries (rows : list (DeliveryRow)) (t : Tables) : Tables :=
  mkTables (users t) (friend_requests t) (friendships t) (friend_blocks t) (friend_events t)
    (messages t) rows (chat_groups t) (group_members t) (group_join_requests t)
    (group_messages t) (group_message_deliveries t) (file_transfers t)
    (file_transfer_deliveries t) (next_event_id t) (next_message_id t) (next_group_id t)
    (next_group_message_id t) (next_transfer_id t).
Definition set_chat_groups (rows : list (GroupRow)) (t : Tables) : Tables :=
  mkTables (users t) (friend_requests t) (friendships t) (friend_blocks t) (friend_events t)
    (messages t) (private_message_deliveries t) rows (group_members t) (group_join_requests t)
    (group_messages t) (group_message_deliveries t) (file_transfers t)
    (file_transfer_deliveries t) (next_event_id t) (next_message_id t) (next_group_id t)
    (next_group_message_id t) (next_transfer_id t).
Definition set_group_members (rows : list (MemberRow)) (t : Tables) : Tables :=
  mkTables (users t) (friend_requests t) (friendships t) (friend_blocks t) (friend_events t)
    (messages t) (private_message_deliveries t) (chat_groups t) rows (group_join_requests t)
    (group_messages t) (group_message_deliveries t) (file_transfers t)
    (file_transfer_deliveries t) (next_event_id t) (next_message_id t) (next_group_id t)
    (next_group_message_id t) (next_transfer_id t).
Definition set_group_join_requests (rows : list (JoinRequestRow)) (t : Tables) : Tables :=
  mkTables (users t) (friend_requests t) (friendships t) (friend_blocks t) (friend_events t)
    (messages t) (private_message_deliveries t) (chat_groups t) (group_members t) rows
    (group_messages t) (group_message_deliveries t) (file_transfers t)
    (file_transfer_deliveries t) (next_event_id t) (next_message_id t) (next_group_id t)
    (next_group_message_id t) (next_transfer_id t).
Definition set_group_messages (rows : list (GroupMessageRow)) (t : Tables) : Tables :=
  mkTables (users t) (friend_requests t) (friendships t) (friend_blocks t) (friend_events t)
    (messages t) (private_message_deliveries t) (chat_groups t) (group_members t)
    (group_join_requests t) rows (group_message_deliveries t) (file_transfers t)
    (file_transfer_deliveries t) (next_event_id t) (next_message_id t) (next_group_id t)
    (next_group_message_id t) (next_transfer_id t).
Definition set_group_message_deliveries (rows : list (DeliveryRow)) (t : Tables) : Tables :=
  mkTables (users t) (friend_requests t) (friendships t) (friend_blocks t) (friend_events t)
    (messages t) (private_message_deliveries t) (chat_groups t) (group_members t)
    (group_join_requests t) (group_messages t) rows (file_transfers t)
    (file_transfer_deliveries t) (next_event_id t) (next_message_id t) (next_group_id t)
    (next_group_message_id t) (next_transfer_id t).
Definition set_file_transfers (rows : list (FileTransferRow)) (t : Tables) : Tables :=
  mkTables (users t) (friend_requests t) (friendships t) (friend_blocks t) (friend_events t)
    (messages t) (private_message_deliveries t) (chat_groups t) (group_members t)
    (group_join_requests t) (group_messages t) (group_message_deliveries t) rows
    (file_transfer_deliveries t) (next_event_id t) (next_message_id t) (next_group_id t)
    (next_group_message_id t) (next_transfer_id t).
Definition set_file_transfer_deliveries (rows : list (DeliveryRow)) (t : Tables) : Tables :=
  mkTables (users t) (friend_requests t) (friendships t) (friend_blocks t) (friend_events t)
    (messages t) (private_message_deliveries t) (chat_groups t) (group_members t)
    (group_join_requests t) (group_messages t) (group_message_deliveries t) (file_transfers t)
    rows (next_event_id t) (next_message_id t) (next_group_id t) (next_group_message_id t)
    (next_transfer_id t).
Definition set_next_event_id (n : Z) (t : Tables) : Tables :=
  mkTables (users t) (friend_requests t) (friendships t) (friend_blocks t) (friend_events t)
    (messages t) (private_message_deliveries t) (chat_groups t) (group_members t)
    (group_join_requests t) (group_messages t) (group_message_deliveries t) (file_transfers t)
    (file_transfer_deliveries t) n (next_message_id t) (next_group_id t)
    (next_group_message_id t) (next_transfer_id t).
Definition set_next_message_id (n : Z) (t : Tables) : Tables :=
  mkTables (users t) (friend_requests t) (friendships t) (friend_blocks t) (friend_events t)
    (messages t) (private_message_deliveries t) (chat_groups t) (group_members t)
    (group_join_requests t) (group_messages t) (group_message_deliveries t) (file_transfers t)
    (file_transfer_deliveries t) (next_event_id t) n (next_group_id t) (next_group_message_id t)
    (next_transfer_id t).
Definition set_next_group_id (n : Z) (t : Tables) : Tables :=
  mkTables (users t) (friend_requests t) (friendships t) (friend_blocks t) (friend_events t)
    (messages t) (private_message_deliveries t) (chat_groups t) (group_members t)
    (group_join_requests t) (group_messages t) (group_message_deliveries t) (file_transfers t)
    (file_transfer_deliveries t) (next_event_id t) (next_message_id t) n
    (next_group_message_id t) (next_transfer_id t).
Definition set_next_group_message_id (n : Z) (t : Tables) : Tables :=
  mkTables (users t) (friend_requests t) (friendships t) (friend_blocks t) (friend_events t)
    (messages t) (private_message_deliveries t) (chat_groups t) (group_members t)
    (group_join_requests t) (group_messages t) (group_message_deliveries t) (file_transfers t)
    (file_transfer_deliveries t) (next_event_id t) (next_message_id t) (next_group_id t) n
    (next_transfer_id t).
Definition set_next_transfer_id (n : Z) (t : Tables) : Tables :=
  mkTables (users t) (friend_requests t) (friendships t) (friend_blocks t) (friend_events t)
    (messages t) (private_message_deliveries t) (chat_groups t) (group_members t)
    (group_join_requests t) (group_messages t) (group_message_deliveries t) (file_transfers t)
    (file_transfer_deliveries t) (next_event_id t) (next_message_id t) (next_group_id t)
    (next_group_message_id t) n.

Definition empty_tables : Tables :=
  mkTables [] [] [] [] [] [] [] [] [] [] [] [] [] [] 1 1 1 1 1.

(** ** Selections *)

Definition select_where {A} (p : A -> bool) (rows : list A) : list A := List.filter p rows.
Definition delete_where {A} (p : A -> bool) (rows : list A) : list A :=
  List.filter (fun r => negb (p r)) rows.
Definition exists_row {A} (p : A -> bool) (rows : list A) : bool := List.existsb p rows.

Definition is_pair (a b : string) (r : string * string) : bool :=
  (r.1 =s? a) && (r.2 =s? b).
Definition mentions (a : string) (r : string * string) : bool :=
  (r.1 =s? a) || (r.2 =s? a).
Definition opt_is (a : string) (o : option string) : bool :=
  match o with Some b => b =s? a | None => false end.

Definition is_user (name : string) (r : UserRow) : bool := u_name r =s? name.
Definition has_user (t : Tables) (name : string) : bool := exists_row (is_user name) (users t).
Definition is_group_id (id : Z) (r : GroupRow) : bool := (g_id r =? id)%Z.
Definition is_group_named (name : string) (r : GroupRow) : bool := g_name r =s? name.
Definition is_member (group : Z) (user : string) (r : MemberRow) : bool :=
  (gm_group r =? group)%Z && (gm_user r =s? user).
Definition is_join (group : Z) (user : string) (r : JoinRequestRow) : bool :=
  (jr_group r =? group)%Z && (jr_user r =s? user).
Definition is_delivery (id : Z) (user : string) (r : DeliveryRow) : bool :=
  (d_id r =? id)%Z && (d_recipient r =s? user).

(** ** ORDER BY: keys compared as numbers or as binary strings *)

Definition by_num {A} (key : A -> Z) : relation A := fun a b => (key a <= key b)%Z.
Definition by_num_desc {A} (key : A -> Z) : relation A := fun a b => (key b <= key a)%Z.
Definition by_num_name {A} (key : A -> Z) (name : A -> string) : relation A :=
  fun a b => (key a < key b)%Z \/ key a = key b /\ String.le (name a) (name b).
Definition by_name {A} (name : A -> string) : relation A := fun a b => String.le (name a) (name b).

#[export] Instance by_num_dec {A} (key : A -> Z) : RelDecision (by_num key).
Proof. unfold by_num. intros a b. apply _. Defined.
#[export] Instance by_num_desc_dec {A} (key : A -> Z) : RelDecision (by_num_desc key).
Proof. unfold by_num_desc. intros a b. apply _. Defined.
#[export] Instance by_num_name_dec {A} (key : A -> Z) name : RelDecision (by_num_name key name).
Proof. unfold by_num_name. intros a b. apply _. Defined.
#[export] Instance by_name_dec {A} (name : A -> string) : RelDecision (by_name name).
Proof. unfold by_name. intros a b. apply _. Defined.

Definition order_by {A} (R : relation A) `{!RelDecision R} (rows : list A) : list A :=
  merge_sort R rows.
Definition limit {A} (n : Z) (rows : list A) : list A := take (Z.to_nat n) rows.

(** ** ON DELETE actions *)

(** Messages, with the deliveries that reference them. *)
Definition delete_messages (p : MessageRow -> bool) (t : Tables) : Tables :=
  let gone := select_where p (messages t) in
  set_private_message_deliveries
    (delete_where (fun d => exists_row (fun m => (m_id m =? d_id d)%Z) gone) (private_message_deliveries t))
    (set_messages (delete_where p (messages t)) t).

Definition delete_group_messages (p : GroupMessageRow -> bool) (t : Tables) : Tables :=
  let gone := select_where p (group_messages t) in
  set_group_message_deliveries
    (delete_where (fun d => exists_row (fun m => (q_id m =? d_id d)%Z) gone) (group_message_deliveries t))
    (set_group_messages (delete_where p (group_messages t)) t).

Definition delete_file_transfers (p : FileTransferRow -> bool) (t : Tables) : Tables :=
  let gone := select_where p (file_transfers t) in
  set_file_transfer_deliveries
    (delete_where (fun d => exists_row (fun f => (f_id f =? d_id d)%Z) gone) (file_transfer_deliveries t))
    (set_file_transfers (delete_where p (file_transfers t)) t).

(** A deleted group takes its members, join requests and messages with it; the
    group reference of its file transfers becomes NULL. *)
Definition forget_group (gone : list GroupRow) (f : FileTransferRow) : FileTransferRow :=
  match f_group f with
  | Some id =>
      if exists_row (is_group_id id) gone
      then mkTransfer (f_id f) (f_token f) (f_scope f) (f_sender f) (f_recipient f) None
             (f_name f) (f_size f) (f_sha f) (f_path f) (f_at f) (f_metadata f)
      else f
  | None => f
  end.

Definition delete_groups (p : GroupRow -> bool) (t : Tables) : Tables :=
  let gone := select_where p (chat_groups t) in
  let in_gone id := exists_row (is_group_id id) gone in
  let t := set_chat_groups (delete_where p (chat_groups t)) t in
  let t := set_group_members (delete_where (fun r => in_gone (gm_group r)) (group_members t)) t in
  let t := set_group_join_requests
             (delete_where (fun r => in_gone (jr_group r)) (group_join_requests t)) t in
  let t := set_file_transfers (map (forget_group gone) (file_transfers t)) t in
  delete_group_messages (fun m => in_gone (q_group m)) t.

(** The rows that go with a user, table by table. *)
Definition user_cascade (name : string) : list (Tables -> Tables) := [
  (fun t => set_friend_requests (delete_where (mentions name) (friend_requests t)) t);
  (fun t => set_friendships (delete_where (mentions name) (friendships t)) t);
  (fun t => set_friend_blocks (delete_where (mentions name) (friend_blocks t)) t);
  (fun t => set_friend_events
     (delete_where (fun e => (e_actor e =s? name) || (e_target e =s? name)) (friend_events t)) t);
  delete_messages (fun m => (m_sender m =s? name) || opt_is name (m_recipient m));
  (fun t => set_private_message_deliveries
     (delete_where (fun d => d_recipient d =s? name) (private_message_deliveries t)) t);
  delete_groups (fun g => g_owner g =s? name);
  (fun t => set_group_members (delete_where (fun r => gm_user r =s? name) (group_members t)) t);
  (fun t => set_group_join_requests
     (delete_where (fun r => jr_user r =s? name) (group_join_requests t)) t);
  delete_group_messages (fun m => q_sender m =s? name);
  (fun t => set_group_message_deliveries
     (delete_where (fun d => d_recipient d =s? name) (group_message_deliveries t)) t);
  delete_file_transfers (fun f => (f_sender f =s? name) || opt_is name (f_recipient f));
  (fun t => set_file_transfer_deliveries
     (delete_where (fun d => d_recipient d =s? name) (file_transfer_deliveries t)) t) ].

Definition delete_user_rows (name : string) (t : Tables) : Tables :=
  let t := fold_left (fun t f => f t) (user_cascade name) t in
  set_users (delete_where (is_user name) (users t)) t.

(** ** Statements with constraints *)

Class SqlEngine := {
  duplicate_key_text : string;
  foreign_key_text : string;
  check_text : string;
}.

(** A data-changing statement: the engine's error text, or a result and the new
    tables. *)
Definition statement (A : Type) : Type := Tables -> string + (A * Tables).

Section Statements.
Context `{SqlEngine}.

(** The constraint tests of an INSERT, in the order key, foreign keys, CHECK. *)
Definition insert_row (duplicate : bool) (parents : bool) (check : bool) (A : Type)
    (ok : A * Tables) : string + (A * Tables) :=
  if duplicate then inl duplicate_key_text
  else if negb parents then inl foreign_key_text
  else if negb check then inl check_text
  else inr ok.
Arguments insert_row _ _ _ {A} _.

Definition insert_user (name hash : string) : statement unit := fun t =>
  insert_row (has_user t name) true true
    (tt, set_users (users t ++ [mkUser name hash]) t).

Definition insert_friend_request (requester target : string) : statement unit := fun t =>
  insert_row (exists_row (is_pair requester target) (friend_requests t))
    (has_user t requester && has_user t target)
    (negb (requester =s? target))
    (tt, set_friend_requests (friend_requests t ++ [(requester, target)]) t).

Definition insert_friendship (low high : string) : statement unit := fun t =>
  insert_row (exists_row (is_pair low high) (friendships t))
    (has_user t low && has_user t high)
    (String.ltb low high)
    (tt, set_friendships (friendships t ++ [(low, high)]) t).

(** INSERT IGNORE: a violated constraint is no error and no row. *)
Definition insert_ignore_block (blocker blocked : string) : statement Z := fun t =>
  if exists_row (is_pair blocker blocked) (friend_blocks t)
     || negb (has_user t blocker && has_user t blocked)
     || (blocker =s? blocked)
  then inr (0%Z, t)
  else inr (1%Z, set_friend_blocks (friend_blocks t ++ [(blocker, blocked)]) t).

Definition insert_friend_event (type : FriendEventType) (actor target : string) (at_ms : Z)
    (payload : string) : statement unit := fun t =>
  insert_row false (has_user t actor && has_user t target) true
    (tt, set_next_event_id (next_event_id t + 1)
      (set_friend_events
        (friend_events t ++ [mkEventRow (next_event_id t) type actor target at_ms payload]) t)).

(** CHECK: a public message has no recipient, a private one has. *)
Definition message_check (type : Z) (recipient : option string) : bool :=
  match recipient with
  | None => (type =? 1)%Z
  | Some _ => (type =? 2)%Z
  end.

Definition insert_message (type : Z) (sender : string) (recipient : option string)
    (at_ms : Z) (payload : string) : statement Z := fun t =>
  let id := next_message_id t in
  insert_row false
    (has_user t sender && match recipient with Some r => has_user t r | None => true end)
    (message_check type recipient)
    (id, set_next_message_id (id + 1)
      (set_messages (messages t ++ [mkMessageRow id type sender recipient at_ms payload]) t)).

Definition insert_private_delivery (id : Z) (recipient : string) : statement unit := fun t =>
  insert_row (exists_row (fun d => (d_id d =? id)%Z) (private_message_deliveries t))
    (exists_row (fun m => (m_id m =? id)%Z) (messages t) && has_user t recipient) true
    (tt, set_private_message_deliveries
      (private_message_deliveries t ++ [mkDelivery id recipient None]) t).

Definition insert_group (name owner : string) : statement Z := fun t =>
  let id := next_group_id t in
  insert_row (exists_row (is_group_named name) (chat_groups t)) (has_user t owner) true
    (id, set_next_group_id (id + 1)
      (set_chat_groups (chat_groups t ++ [mkGroup id name owner]) t)).

Definition insert_member (group : Z) (user : string) (role : GroupRole) : statement unit := fun t =>
  insert_row (exists_row (is_member group user) (group_members t))
    (exists_row (is_group_id group) (chat_groups t) && has_user t user) true
    (tt, set_group_members (group_members t ++ [mkMember group user role]) t).

Definition insert_join_request (group : Z) (user : string) (now : Z) : statement unit := fun t =>
  insert_row (exists_row (is_join group user) (group_join_requests t))
    (exists_row (is_group_id group) (chat_groups t) && has_user t user) true
    (tt, set_group_join_requests (group_join_requests t ++ [mkJoin group user now]) t).

Definition insert_group_message (group : Z) (sender : string) (at_ms : Z) (payload : string)
    : statement Z := fun t =>
  let id := next_group_message_id t in
  insert_row false
    (exists_row (is_group_id group) (chat_groups t) && has_user t sender) true
    (id, set_next_group_message_id (id + 1)
      (set_group_messages (group_messages t ++ [mkGroupMessageRow id group sender at_ms payload]) t)).

Definition insert_group_delivery (id : Z) (recipient : string) : statement unit := fun t =>
  insert_row (exists_row (is_delivery id recipient) (group_message_deliveries t))
    (exists_row (fun m => (q_id m =? id)%Z) (group_messages t) && has_user t recipient) true
    (tt, set_group_message_deliveries
      (group_message_deliveries t ++ [mkDelivery id recipient None]) t).

Definition scope_check (s : FileTransferScope) : bool :=
  match s with FILE_TRANSFER_SCOPE_UNSPECIFIED => false | _ => true end.

Definition insert_file_transfer (token : string) (scope : FileTransferScope) (sender : string)
    (recipient : option string) (group : option Z) (name : string) (fsize : Z)
    (sha path : string) (at_ms : Z) (metadata : string) : statement Z := fun t =>
  let id := next_transfer_id t in
  insert_row (exists_row (fun f => f_token f =s? token) (file_transfers t))
    (has_user t sender &&
     match recipient with Some r => has_user t r | None => true end &&
     match group with Some g => exists_row (is_group_id g) (chat_groups t) | None => true end)
    (scope_check scope)
    (id, set_next_transfer_id (id + 1)
      (set_file_transfers (file_transfers t ++
        [mkTransfer id token scope sender recipient group name fsize sha path at_ms metadata]) t)).

Definition insert_file_delivery (id : Z) (recipient : string) : statement unit := fun t =>
  insert_row (exists_row (is_delivery id recipient) (file_transfer_deliveries t))
    (exists_row (fun f => (f_id f =? id)%Z) (file_transfers t) && has_user t recipient) true
    (tt, set_file_transfer_deliveries
      (file_transfer_deliveries t ++ [mkDelivery id recipient None]) t).
End Statements.

(** ** The connection to the engine *)

(** The connection of a method.  [saved] holds the committed rows while autocommit
    is off, [tables] the rows as the connection sees them.  [faults] are the
    answers to come of the pool and of the calls that a method checks,
    [recoveries] those of the calls whose failure it ignores: those of
    [rollback()] and the [mysql_autocommit] behind a failed commit. *)
Record Db := mkDb {
  tables : Tables;
  saved : option Tables;
  faults : list (option string);
  recoveries : list (option string);
  db_clock : Z }.

Definition set_tables (t : Tables) (db : Db) : Db :=
  mkDb t (saved db) (faults db) (recoveries db) (db_clock db).
Definition set_saved (o : option Tables) (db : Db) : Db :=
  mkDb (tables db) o (faults db) (recoveries db) (db_clock db).
Definition set_faults (fs : list (option string)) (db : Db) : Db :=
  mkDb (tables db) (saved db) fs (recoveries db) (db_clock db).
Definition set_recoveries (rs : list (option string)) (db : Db) : Db :=
  mkDb (tables db) (saved db) (faults db) rs (db_clock db).

(** One interaction with the engine or the connection pool. *)
Definition engine_step : M Db unit := fun db =>
  match faults db with
  | [] => (inr tt, db)
  | None :: fs => (inr tt, set_faults fs db)
  | Some text :: fs => (inl text, set_faults fs db)
  end.

(** A call whose failure is ignored: it has its effect or none. *)
Definition recovery (effect : Db -> Db) (db : Db) : Db :=
  match recoveries db with
  | [] => effect db
  | None :: rs => effect (set_recoveries rs db)
  | Some _ :: rs => set_recoveries rs db
  end.

(** Rolling back restores the rows; AUTO_INCREMENT counters keep their values. *)
Definition rollback_rows (old now : Tables) : Tables :=
  set_next_event_id (next_event_id now) (set_next_message_id (next_message_id now)
    (set_next_group_id (next_group_id now) (set_next_group_message_id (next_group_message_id now)
      (set_next_transfer_id (next_transfer_id now) old)))).

End Tables.
