(* ===== verification/ExampleCodec.v ===== *)
(** * A concrete engine and concrete codecs

    The generated Protocol Buffers code and the MySQL server are parameters of
    the development.  This file instantiates both, so that statements about
    them can be evaluated on concrete inputs: a message is written as the
    binary digits of the number stdpp's [encode] assigns to it. *)
From S2P Require Import Prelude Payloads Tables.
Import Payloads Tables.

Module ExampleCodec.

Definition example_engine : SqlEngine :=
  {| duplicate_key_text := "Duplicate entry";
     foreign_key_text := "foreign key constraint fails";
     check_text := "Check constraint is violated" |}.

#[export] Instance message_type_countable : Countable ChatMessageType.
Proof.
  apply (inj_countable' message_type_code
    (fun n => if (n =? 0)%Z then CHAT_MESSAGE_TYPE_UNSPECIFIED else if (n =? 1)%Z then PUBLIC else PRIVATE)).
  by intros [].
Defined.

#[export] Instance event_type_countable : Countable FriendEventType.
Proof.
  apply (inj_countable'
    (fun e => match e with FRIEND_EVENT_TYPE_UNSPECIFIED => 0 | FRIEND_REQUEST_SENT => 1
              | FRIEND_REQUEST_ACCEPTED => 2 | FRIEND_REQUEST_REJECTED => 3 | FRIEND_REMOVED => 4 end)
    (fun n => match n with 0 => FRIEND_EVENT_TYPE_UNSPECIFIED | 1 => FRIEND_REQUEST_SENT
              | 2 => FRIEND_REQUEST_ACCEPTED | 3 => FRIEND_REQUEST_REJECTED | _ => FRIEND_REMOVED end)).
  by intros [].
Defined.

#[export] Instance friend_event_eq_dec : EqDecision FriendEventPayload.
Proof. solve_decision. Defined.
#[export] Instance resume_state_eq_dec : EqDecision FileUploadResumeState.
Proof. solve_decision. Defined.

#[export] Instance chat_message_countable : Countable ChatMessagePayload.
Proof.
  apply (inj_countable' (fun p => (cm_type p, cm_sender p, cm_recipient p, cm_content p, cm_created_at p))
    (fun x => match x with (a, b, c, d, e) => mkChatMessage a b c d e end)). by intros [].
Defined.
#[export] Instance friend_event_countable : Countable FriendEventPayload.
Proof.
  apply (inj_countable' (fun p => (fe_type p, fe_actor p, fe_target p, fe_occurred_at p))
    (fun x => match x with (a, b, c, d) => mkFriendEvent a b c d end)). by intros [].
Defined.
#[export] Instance group_message_countable : Countable GroupMessagePayload.
Proof.
  apply (inj_countable'
    (fun p => (gp_group_id p, gp_group_name p, gp_sender p, gp_content p, gp_created_at p))
    (fun x => match x with (a, b, c, d, e) => mkGroupMessage a b c d e end)). by intros [].
Defined.
(** Eleven fields as a list of texts and a list of numbers: nested pairs would
    double the code eleven times. *)
Definition scope_code (e : FileTransferScope) : Z :=
  match e with FILE_TRANSFER_SCOPE_UNSPECIFIED => 0 | FILE_TRANSFER_PRIVATE => 1 | FILE_TRANSFER_GROUP => 2 end.
Definition code_scope (n : Z) : FileTransferScope :=
  if (n =? 0)%Z then FILE_TRANSFER_SCOPE_UNSPECIFIED
  else if (n =? 1)%Z then FILE_TRANSFER_PRIVATE else FILE_TRANSFER_GROUP.
#[export] Instance file_meta_countable : Countable FileTransferMetadata.
Proof.
  apply (inj_countable
    (fun p => ([fm_token p; fm_sender p; fm_recipient p; fm_group_name p; fm_file_name p; fm_sha256_hex p;
                fm_stored_path p],
               [scope_code (fm_scope p); fm_group_id p; fm_file_size p; fm_created_at p]))
    (fun x => match x with
      | ([a; c; d; f; g; i; k], [b; e; h; j]) => Some (mkFileMeta a (code_scope b) c d e f g h i j k)
      | _ => None
      end)). by intros [? [] ? ? ? ? ? ? ? ? ?].
Defined.
#[export] Instance resume_state_countable : Countable FileUploadResumeState.
Proof.
  apply (inj_countable' (fun p => (rs_metadata p, rs_recipients p))
    (fun x => match x with (a, b) => mkResumeState a b end)). by intros [].
Defined.

(** The binary digits of a code, the lowest first. *)
Fixpoint bits (p : positive) : string :=
  match p with
  | xH => ""
  | xO p => String "0" (bits p)
  | xI p => String "1" (bits p)
  end.
Fixpoint of_bits (s : string) : positive :=
  match s with
  | EmptyString => xH
  | String c s => if in_range 49 49 c then xI (of_bits s) else xO (of_bits s)
  end.

Definition bit_codec {A} `{Countable A} : ProtoCodec A :=
  {| SerializeToString := fun a => Some (bits (encode a));
     ParseFromArray := fun b => decode (of_bits b) |}.

Definition example_codecs : ProtoCodecs :=
  {| chat_codec := bit_codec; friend_codec := bit_codec; group_codec := bit_codec;
     file_codec := bit_codec; resume_codec := bit_codec |}.

(** The parameters' laws can hold: every message survives the round trip. *)
Lemma of_bits_bits p : of_bits (bits p) = p.
Proof. induction p as [p IH|p IH|]; simpl; [by rewrite IH..|done]. Qed.

Definition bit_laws {A} `{Countable A} : @ProtoLaws A bit_codec.
Proof.
  refine (@Build_ProtoLaws A bit_codec (fun _ => True) _ _).
  - intros a _. by eexists.
  - intros a b _ [= <-]. simpl. rewrite of_bits_bits. apply decode_encode.
Defined.

End ExampleCodec.
