(* ===== verification/Database.v ===== *)
(** * The database layer, [ChatRoom/src/mysql_database.cpp]

    One definition per method of [MySqlDatabase].  A method takes a connection
    from the pool, runs its prepared statements, and returns [false] with an
    error text as soon as one of them fails; methods that change more than one
    table run in a transaction.  The rows of a result set are read through the
    Protocol Buffers codecs where they carry a payload. *)
From S2P Require Import Prelude Payloads Tables.
Import Payloads Tables.

Module Database.

Record StoredMessage := mkStoredMessage { sm_id : Z; sm_payload : ChatMessagePayload }.
Record GroupInfo := mkGroupInfo { gi_id : Z; gi_name : string; gi_owner : string }.
Record GroupMembership := mkMembership { ms_group : GroupInfo; ms_role : GroupRole }.
Record GroupMemberInfo := mkMemberInfo { mi_username : string; mi_role : GroupRole }.
Record ManagedGroupRequestCount := mkRequestCount { rc_group : string; rc_count : Z }.
Record StoredGroupMessage := mkStoredGroupMessage { sg_id : Z; sg_payload : GroupMessagePayload }.
Record StoredFileTransfer := mkStoredFile { sf_id : Z; sf_metadata : FileTransferMetadata }.

(** ** Statements and transactions *)

(** [pool_.acquire(error)] followed by the body of the method. *)
Definition lease {A} (body : M Db A) : M Db A := engine_step ;; body.

Definition query_prepared {A} (q : Tables -> A) : M Db A :=
  engine_step ;; db ← get; mret (q (tables db)).

Definition execute_prepared {A} (s : statement A) : M Db A :=
  engine_step ;;
  ((fun db => match s (tables db) with
              | inl text => (inl text, db)
              | inr (a, t) => (inr a, set_tables t db)
              end) : M Db A).

(** DELETE and UPDATE never violate a constraint here. *)
Definition change {A} (f : Tables -> A * Tables) : statement A := fun t => inr (f t).

(** [mysql_autocommit(connection, 0)]: nothing new when it is off already. *)
Definition autocommit_off (db : Db) : Db :=
  match saved db with Some _ => db | None => set_saved (Some (tables db)) db end.
(** [mysql_autocommit(connection, 1)] commits what is open. *)
Definition autocommit_on (db : Db) : Db := set_saved None db.

(** [mysql_commit] and [mysql_rollback] leave autocommit off. *)
Definition mysql_commit (db : Db) : Db :=
  match saved db with Some _ => set_saved (Some (tables db)) db | None => db end.
Definition mysql_rollback (db : Db) : Db :=
  match saved db with
  | Some old => let rows := rollback_rows old (tables db) in set_saved (Some rows) (set_tables rows db)
  | None => db
  end.

Definition begin_tx : M Db unit := engine_step ;; modify autocommit_off.

(** A failure of [mysql_autocommit] is reported although the rows are committed; a
    failure of [mysql_commit] is reported, and then autocommit is switched on. *)
Definition commit : M Db unit := fun db =>
  match engine_step db with
  | (inl error, db) => (inl error, recovery autocommit_on db)
  | (inr _, db) => (engine_step ;; modify autocommit_on) (mysql_commit db)
  end.

Definition rollback (db : Db) : Db := recovery autocommit_on (recovery mysql_rollback db).

(** [if (!m) { rollback(); return false; }] *)
Definition or_rollback {A} (m : M Db A) : M Db A := fun db =>
  match m db with
  | (inl e, db') => (inl e, rollback db')
  | r => r
  end.

Definition serialize {A} `{ProtoCodec A} (what : string) (a : A) : M Db string :=
  match SerializeToString a with
  | Some bytes => mret bytes
  | None => fail ("Protobuf 序列化失败：" +:+ what)
  end.

(** The loop over the rows of a result set: parse every payload or fail. *)
Fixpoint decode_rows {A} `{ProtoCodec A} (error : string) (rows : list (Z * string))
    : string + list (Z * A) :=
  match rows with
  | [] => inr []
  | (id, bytes) :: rest =>
      match ParseFromArray bytes with
      | None => inl error
      | Some a =>
          match decode_rows error rest with
          | inl e => inl e
          | inr l => inr ((id, a) :: l)
          end
      end
  end.

Definition lift_sum {S A} (r : string + A) : M S A :=
  match r with inl e => fail e | inr a => mret a end.

Definition normalize_pair (left right : string) : string * string :=
  if String.leb left right then (left, right) else (right, left).

Section Database.
Context `{SqlEngine} `{ProtoCodecs}.

(** ** Accounts *)

Definition user_exists (username : string) : M Db bool :=
  lease (query_prepared (fun t => has_user t username)).

Definition create_user (username password_hash : string) : M Db unit :=
  lease (execute_prepared (insert_user username password_hash)).

Definition delete_user (username : string) : M Db bool :=
  lease (
    affected ← execute_prepared (change (fun t =>
      (Z.of_nat (length (select_where (is_user username) (users t))), delete_user_rows username t)));
    mret (affected =? 1)%Z).

Definition get_password_hash (username : string) : M Db (option string) :=
  lease (query_prepared (fun t => u_hash <$> head (select_where (is_user username) (users t)))).

(** ** Friends and blocks *)

Definition are_friends (left right : string) : M Db bool :=
  lease (
    let pair := normalize_pair left right in
    query_prepared (fun t => exists_row (is_pair pair.1 pair.2) (friendships t))).

Definition is_friend_blocked (blocker blocked : string) : M Db bool :=
  lease (query_prepared (fun t => exists_row (is_pair blocker blocked) (friend_blocks t))).

Definition add_friend_block (blocker blocked : string) : M Db bool :=
  lease (
    affected ← execute_prepared (insert_ignore_block blocker blocked);
    mret (affected =? 1)%Z).

Definition remove_friend_block (blocker blocked : string) : M Db bool :=
  lease (
    affected ← execute_prepared (change (fun t =>
      (Z.of_nat (length (select_where (is_pair blocker blocked) (friend_blocks t))),
       set_friend_blocks (delete_where (is_pair blocker blocked) (friend_blocks t)) t)));
    mret (affected =? 1)%Z).

Definition list_blocked_friends (blocker : string) : M Db (list string) :=
  lease (query_prepared (fun t =>
    order_by String.le (map snd (select_where (fun r => r.1 =s? blocker) (friend_blocks t))))).

Definition has_friend_request (requester target : string) : M Db bool :=
  lease (query_prepared (fun t => exists_row (is_pair requester target) (friend_requests t))).

Definition add_friend_request (requester target : string) : M Db unit :=
  lease (execute_prepared (insert_friend_request requester target)).

Definition delete_friend_request (requester target : string) : statement Z :=
  change (fun t =>
    (Z.of_nat (length (select_where (is_pair requester target) (friend_requests t))),
     set_friend_requests (delete_where (is_pair requester target) (friend_requests t)) t)).

Definition accept_friend_request (requester target : string) : M Db unit :=
  lease (
    begin_tx ;;
    or_rollback (
      affected ← execute_prepared (delete_friend_request requester target);
      reject_if (negb (affected =? 1)%Z) "好友申请不存在") ;;
    let pair := normalize_pair requester target in
    or_rollback (execute_prepared (insert_friendship pair.1 pair.2)) ;;
    or_rollback commit).

Definition reject_friend_request (requester target : string) : M Db bool :=
  lease (
    affected ← execute_prepared (delete_friend_request requester target);
    mret (affected =? 1)%Z).

Definition remove_friendship (left right : string) : M Db bool :=
  lease (
    let pair := normalize_pair left right in
    begin_tx ;;
    affected ← or_rollback (execute_prepared (change (fun t =>
      (Z.of_nat (length (select_where (is_pair pair.1 pair.2) (friendships t))),
       set_friendships (delete_where (is_pair pair.1 pair.2) (friendships t)) t))));
    let removed := (affected =? 1)%Z in
    if negb removed then or_rollback commit ;; mret removed
    else
      or_rollback (execute_prepared (change (fun t =>
        (tt, set_friend_blocks
               (delete_where (fun r => is_pair left right r || is_pair right left r)
                             (friend_blocks t)) t)))) ;;
      or_rollback commit ;;
      mret removed).

Definition list_friends (username : string) : M Db (list string) :=
  lease (query_prepared (fun t =>
    order_by String.le
      (map (fun r => if r.1 =s? username then r.2 else r.1)
           (select_where (mentions username) (friendships t))))).

Definition list_incoming_requests (username : string) : M Db (list string) :=
  lease (query_prepared (fun t =>
    order_by String.le (map fst (select_where (fun r => r.2 =s? username) (friend_requests t))))).

Definition list_outgoing_requests (username : string) : M Db (list string) :=
  lease (query_prepared (fun t =>
    order_by String.le (map snd (select_where (fun r => r.1 =s? username) (friend_requests t))))).

Definition add_friend_event (event : FriendEventPayload) : M Db unit :=
  lease (
    payload ← serialize "FriendEventPayload" event;
    execute_prepared (insert_friend_event (fe_type event) (fe_actor event) (fe_target event)
      (fe_occurred_at event) payload)).

(** ** Public and private messages *)

Definition insert_message_locked (payload : ChatMessagePayload) : M Db Z :=
  bytes ← serialize "ChatMessagePayload" payload;
  let recipient := if is_empty (cm_recipient payload) then None else Some (cm_recipient payload) in
  execute_prepared (insert_message (message_type_code (cm_type payload)) (cm_sender payload)
    recipient (cm_created_at payload) bytes).

Definition add_message (payload : ChatMessagePayload) : M Db Z :=
  lease (insert_message_locked payload).

Definition add_private_message_with_delivery (payload : ChatMessagePayload) : M Db Z :=
  lease (
    reject_if (negb (bool_decide (cm_type payload = PRIVATE)) || is_empty (cm_recipient payload))
      "私聊投递要求：a private message recipient" ;;
    begin_tx ;;
    message_id ← or_rollback (insert_message_locked payload);
    or_rollback (execute_prepared (insert_private_delivery message_id (cm_recipient payload))) ;;
    or_rollback commit ;;
    mret message_id).

Definition stored_messages (rows : list (Z * ChatMessagePayload)) : list StoredMessage :=
  map (fun r => mkStoredMessage r.1 r.2) rows.

Definition recent_public_messages (count : Z) : M Db (list StoredMessage) :=
  lease (
    rows ← query_prepared (fun t =>
      map (fun m => (m_id m, m_payload m))
        (limit count (order_by (by_num_desc m_id)
          (select_where (fun m => (m_type m =? 1)%Z) (messages t)))));
    l ← lift_sum (decode_rows "公共消息解码失败：message payload" rows);
    mret (reverse (stored_messages l))).

Definition between (user_a user_b : string) (m : MessageRow) : bool :=
  (m_sender m =s? user_a) && opt_is user_b (m_recipient m) ||
  (m_sender m =s? user_b) && opt_is user_a (m_recipient m).

Definition recent_private_messages (user_a user_b : string) (count : Z)
    : M Db (list StoredMessage) :=
  lease (
    rows ← query_prepared (fun t =>
      map (fun m => (m_id m, m_payload m))
        (limit count (order_by (by_num_desc m_id)
          (select_where (fun m => (m_type m =? 2)%Z && between user_a user_b m) (messages t)))));
    l ← lift_sum (decode_rows "私聊消息解码失败：message payload" rows);
    mret (reverse (stored_messages l))).

(** The pending deliveries of a recipient. *)
Definition pending (recipient : string) (d : DeliveryRow) : bool :=
  (d_recipient d =s? recipient) && match d_at d with None => true | Some _ => false end.

(** [d JOIN rows ON id = d.id WHERE pending d AND keep row] *)
Definition join_pending {A} (id : A -> Z) (keep : A -> bool) (recipient : string)
    (deliveries : list DeliveryRow) (rows : list A) : list A :=
  flat_map (fun d => select_where (fun r => (id r =? d_id d)%Z && keep r) rows)
    (select_where (pending recipient) deliveries).

Definition pending_private_messages (recipient : string) (count : Z) : M Db (list StoredMessage) :=
  lease (
    rows ← query_prepared (fun t =>
      map (fun m => (m_id m, m_payload m))
        (limit count (order_by (by_num m_id)
          (join_pending m_id
            (fun m => negb (exists_row (is_pair recipient (m_sender m)) (friend_blocks t)))
            recipient (private_message_deliveries t) (messages t)))));
    l ← lift_sum (decode_rows "离线消息解码失败：private message" rows);
    mret (stored_messages l)).

(** [UPDATE ... SET delivered_at WHERE id AND recipient AND delivered_at IS NULL] *)
Definition mark_delivered (id : Z) (recipient : string) (at_ms : Z) (d : DeliveryRow) : DeliveryRow :=
  if (d_id d =? id)%Z && pending recipient d
  then mkDelivery (d_id d) (d_recipient d) (Some at_ms) else d.

Definition mark_private_message_delivered (message_id : Z) (recipient : string) (at_ms : Z)
    : M Db unit :=
  lease (execute_prepared (change (fun t =>
    (tt, set_private_message_deliveries
           (map (mark_delivered message_id recipient at_ms) (private_message_deliveries t)) t)))).

(** ** Groups *)

Definition group_id_by_name (group_name : string) : M Db (option Z) :=
  query_prepared (fun t => g_id <$> head (select_where (is_group_named group_name) (chat_groups t))).

(** [if (!group_id) { error = "群不存在"; return false; }] *)
Definition required_group_id (group_name : string) : M Db Z :=
  group_id ← group_id_by_name group_name;
  match group_id with
  | None => fail "群不存在"
  | Some id => mret id
  end.

Definition create_group (group_name owner_username : string) : M Db Z :=
  lease (
    begin_tx ;;
    group_id ← or_rollback (execute_prepared (insert_group group_name owner_username));
    or_rollback (execute_prepared (insert_member group_id owner_username Owner)) ;;
    or_rollback commit ;;
    mret group_id).

Definition get_group (group_name : string) : M Db (option GroupInfo) :=
  lease (query_prepared (fun t =>
    (fun g => mkGroupInfo (g_id g) (g_name g) (g_owner g)) <$>
      head (select_where (is_group_named group_name) (chat_groups t)))).

Definition dissolve_group (group_name owner_username : string) : M Db bool :=
  lease (
    let p := fun g => is_group_named group_name g && (g_owner g =s? owner_username) in
    affected ← execute_prepared (change (fun t =>
      (Z.of_nat (length (select_where p (chat_groups t))), delete_groups p t)));
    mret (affected =? 1)%Z).

(** [group_members gm JOIN chat_groups g ON g.group_id = gm.group_id], restricted
    to the group of that name. *)
Definition members_of (group_name : string) (t : Tables) : list MemberRow :=
  select_where (fun r => exists_row
    (fun g => is_group_named group_name g && is_group_id (gm_group r) g) (chat_groups t))
    (group_members t).

Definition get_group_role (group_name username : string) : M Db (option GroupRole) :=
  lease (query_prepared (fun t =>
    gm_role <$> head (select_where (fun r => gm_user r =s? username) (members_of group_name t)))).

Definition list_user_groups (username : string) : M Db (list GroupMembership) :=
  lease (query_prepared (fun t =>
    order_by (by_name (fun m => gi_name (ms_group m)))
      (flat_map (fun r =>
         map (fun g => mkMembership (mkGroupInfo (g_id g) (g_name g) (g_owner g)) (gm_role r))
           (select_where (is_group_id (gm_group r)) (chat_groups t)))
        (select_where (fun r => gm_user r =s? username) (group_members t))))).

Definition list_group_members (group_name : string) : M Db (list GroupMemberInfo) :=
  lease (query_prepared (fun t =>
    map (fun r => mkMemberInfo (gm_user r) (gm_role r))
      (order_by (by_num_name (fun r => role_code (gm_role r)) gm_user)
        (members_of group_name t)))).

Definition list_group_member_usernames (group_name : string) : M Db (list string) :=
  lease (query_prepared (fun t => order_by String.le (map gm_user (members_of group_name t)))).

Definition joins_of (group_name : string) (t : Tables) : list JoinRequestRow :=
  select_where (fun r => exists_row
    (fun g => is_group_named group_name g && is_group_id (jr_group r) g) (chat_groups t))
    (group_join_requests t).

Definition has_group_join_request (group_name username : string) : M Db bool :=
  lease (query_prepared (fun t =>
    exists_row (fun r => jr_user r =s? username) (joins_of group_name t))).

Definition add_group_join_request (group_name username : string) : M Db unit :=
  lease (
    group_id ← required_group_id group_name;
    db ← get;
    execute_prepared (insert_join_request group_id username (db_clock db))).

Definition list_group_join_requests (group_name : string) : M Db (list string) :=
  lease (query_prepared (fun t =>
    map jr_user (order_by (by_num_name jr_created jr_user) (joins_of group_name t)))).

Definition is_manager_role (r : GroupRole) : bool :=
  match r with Owner | Admin => true | Member => false end.

Definition list_group_managers (group_name : string) : M Db (list string) :=
  lease (query_prepared (fun t =>
    map gm_user (order_by (by_num_name (fun r => role_code (gm_role r)) gm_user)
      (select_where (fun r => is_manager_role (gm_role r)) (members_of group_name t))))).

(** LEFT JOIN with GROUP BY group and HAVING COUNT > 0: the managed groups with
    at least one request. *)
Definition list_managed_group_request_counts (username : string)
    : M Db (list ManagedGroupRequestCount) :=
  lease (query_prepared (fun t =>
    order_by (by_name rc_group)
      (select_where (fun c => (0 <? rc_count c)%Z)
        (flat_map (fun r =>
           map (fun g => mkRequestCount (g_name g)
                  (Z.of_nat (length (select_where (fun j => (jr_group j =? g_id g)%Z)
                    (group_join_requests t)))))
             (select_where (is_group_id (gm_group r)) (chat_groups t)))
          (select_where (fun r => (gm_user r =s? username) && is_manager_role (gm_role r))
            (group_members t)))))).

Definition delete_join_request (group_id : Z) (username : string) : statement Z :=
  change (fun t =>
    (Z.of_nat (length (select_where (is_join group_id username) (group_join_requests t))),
     set_group_join_requests (delete_where (is_join group_id username) (group_join_requests t)) t)).

Definition approve_group_join_request (group_name username : string) : M Db unit :=
  lease (
    group_id ← required_group_id group_name;
    begin_tx ;;
    or_rollback (
      affected ← execute_prepared (delete_join_request group_id username);
      reject_if (negb (affected =? 1)%Z) "入群申请不存在") ;;
    or_rollback (execute_prepared (insert_member group_id username Member)) ;;
    or_rollback commit).

Definition reject_group_join_request (group_name username : string) : M Db bool :=
  lease (
    group_id ← required_group_id group_name;
    affected ← execute_prepared (delete_join_request group_id username);
    mret (affected =? 1)%Z).

(** The number of rows an UPDATE changes, which is what the client library
    reports: rows already holding the value do not count. *)
Definition set_group_member_role (group_name username : string) (role : GroupRole) : M Db bool :=
  lease (
    group_id ← required_group_id group_name;
    affected ← execute_prepared (change (fun t =>
      (Z.of_nat (length (select_where
         (fun r => is_member group_id username r && negb (bool_decide (gm_role r = role)))
         (group_members t))),
       set_group_members
         (map (fun r => if is_member group_id username r
                        then mkMember (gm_group r) (gm_user r) role else r)
              (group_members t)) t)));
    mret (affected =? 1)%Z).

Definition remove_group_member (group_name username : string) : M Db bool :=
  lease (
    group_id ← required_group_id group_name;
    affected ← execute_prepared (change (fun t =>
      (Z.of_nat (length (select_where (is_member group_id username) (group_members t))),
       set_group_members (delete_where (is_member group_id username) (group_members t)) t)));
    mret (affected =? 1)%Z).

(** ** Group messages *)

(** [for (recipient : recipients) if (!execute) { rollback(); return false; }] *)
Fixpoint insert_deliveries (insert : Z -> string -> statement unit) (id : Z)
    (recipients : list string) : M Db unit :=
  match recipients with
  | [] => mret ()
  | recipient :: rest =>
      or_rollback (execute_prepared (insert id recipient)) ;; insert_deliveries insert id rest
  end.

Definition add_group_message (payload : GroupMessagePayload) (recipients : list string) : M Db Z :=
  lease (
    begin_tx ;;
    bytes ← or_rollback (serialize "GroupMessagePayload" payload);
    message_id ← or_rollback (execute_prepared (insert_group_message (gp_group_id payload)
      (gp_sender payload) (gp_created_at payload) bytes));
    insert_deliveries insert_group_delivery message_id recipients ;;
    or_rollback commit ;;
    mret message_id).

Definition stored_group_messages (rows : list (Z * GroupMessagePayload)) : list StoredGroupMessage :=
  map (fun r => mkStoredGroupMessage r.1 r.2) rows.

Definition recent_group_messages (group_name : string) (count : Z) : M Db (list StoredGroupMessage) :=
  lease (
    rows ← query_prepared (fun t =>
      map (fun m => (q_id m, q_payload m))
        (limit count (order_by (by_num_desc q_id)
          (select_where (fun m => exists_row
            (fun g => is_group_named group_name g && is_group_id (q_group m) g) (chat_groups t))
            (group_messages t)))));
    l ← lift_sum (decode_rows "群消息解码失败：message payload" rows);
    mret (reverse (stored_group_messages l))).

Definition pending_group_messages (recipient : string) (count : Z) : M Db (list StoredGroupMessage) :=
  lease (
    rows ← query_prepared (fun t =>
      map (fun m => (q_id m, q_payload m))
        (limit count (order_by (by_num q_id)
          (join_pending q_id (fun _ => true) recipient
            (group_message_deliveries t) (group_messages t)))));
    l ← lift_sum (decode_rows "离线消息解码失败：group message" rows);
    mret (stored_group_messages l)).

Definition mark_group_message_delivered (message_id : Z) (recipient : string) (at_ms : Z)
    : M Db unit :=
  lease (execute_prepared (change (fun t =>
    (tt, set_group_message_deliveries
           (map (mark_delivered message_id recipient at_ms) (group_message_deliveries t)) t)))).

(** ** File transfers *)

Definition add_file_transfer (metadata : FileTransferMetadata) (recipients : list string)
    : M Db Z :=
  lease (
    reject_if (match recipients with [] => true | _ => false end)
      "文件传输要求：at least one recipient" ;;
    bytes ← serialize "FileTransferMetadata" metadata;
    begin_tx ;;
    let recipient := if is_empty (fm_recipient metadata) then None
                     else Some (fm_recipient metadata) in
    let group_id := if (fm_group_id metadata =? 0)%Z then None else Some (fm_group_id metadata) in
    transfer_id ← or_rollback (execute_prepared (insert_file_transfer (fm_token metadata)
      (fm_scope metadata) (fm_sender metadata) recipient group_id (fm_file_name metadata)
      (fm_file_size metadata) (fm_sha256_hex metadata) (fm_stored_path metadata)
      (fm_created_at metadata) bytes));
    insert_deliveries insert_file_delivery transfer_id recipients ;;
    or_rollback commit ;;
    mret transfer_id).

Definition stored_files (rows : list (Z * FileTransferMetadata)) : list StoredFileTransfer :=
  map (fun r => mkStoredFile r.1 r.2) rows.

Definition deliverable_file (recipient : string) (t : Tables) (f : FileTransferRow) : bool :=
  negb (bool_decide (f_scope f = FILE_TRANSFER_PRIVATE)) ||
  negb (exists_row (is_pair recipient (f_sender f)) (friend_blocks t)).

Definition pending_file_transfers (recipient : string) (count : Z) : M Db (list StoredFileTransfer) :=
  lease (
    rows ← query_prepared (fun t =>
      map (fun f => (f_id f, f_metadata f))
        (limit count (order_by (by_num f_id)
          (join_pending f_id (deliverable_file recipient t) recipient
            (file_transfer_deliveries t) (file_transfers t)))));
    l ← lift_sum (decode_rows "Protobuf 解析失败：FileTransferMetadata" rows);
    mret (stored_files l)).

Definition file_transfer_for_recipient (transfer_id : Z) (recipient : string)
    : M Db (option StoredFileTransfer) :=
  lease (
    rows ← query_prepared (fun t =>
      map (fun f => (f_id f, f_metadata f))
        (limit 1 (join_pending f_id (fun f => (f_id f =? transfer_id)%Z) recipient
          (file_transfer_deliveries t) (file_transfers t))));
    l ← lift_sum (decode_rows "Protobuf 解析失败：FileTransferMetadata" rows);
    mret (head (stored_files l))).

Definition mark_file_transfer_delivered (transfer_id : Z) (recipient : string) (at_ms : Z)
    : M Db unit :=
  lease (execute_prepared (change (fun t =>
    (tt, set_file_transfer_deliveries
           (map (mark_delivered transfer_id recipient at_ms) (file_transfer_deliveries t)) t)))).

End Database.
End Database.
