(* ===== verification/Integrity.v ===== *)
(** * Referential integrity of the store

    The invariant the schema promises: unique keys, foreign keys that point to
    existing rows, CHECK clauses, and AUTO_INCREMENT counters above every id in
    use.  Every statement of [Tables] preserves it, the ON DELETE cascades
    included. *)
From S2P Require Import Prelude Payloads Tables.
Import Payloads Tables.

Module Integrity.

Create HintDb rows.

(** ** Rows and keys *)

Section Rows.
Context {A K : Type}.
Implicit Types (rows : list A) (p q : A -> bool) (key : A -> K).

Lemma exists_row_true p rows : exists_row p rows = true <-> exists r, r ∈ rows /\ p r = true.
Proof.
  unfold exists_row. rewrite existsb_exists. setoid_rewrite list_elem_of_In. done.
Qed.

Lemma exists_row_false p rows : exists_row p rows = false <-> forall r, r ∈ rows -> p r = false.
Proof.
  destruct (exists_row p rows) eqn:E.
  - apply exists_row_true in E as (r & Hr & Hp). split; [done|].
    intros H. by rewrite (H r Hr) in Hp.
  - split; [|done]. intros _ r Hr. destruct (p r) eqn:Hp; [|done].
    assert (exists_row p rows = true) by (apply exists_row_true; eauto). congruence.
Qed.

Lemma elem_of_delete p rows r : r ∈ delete_where p rows <-> r ∈ rows /\ p r = false.
Proof.
  unfold delete_where. rewrite !list_elem_of_In, filter_In, negb_true_iff. done.
Qed.

Lemma elem_of_select p rows r : r ∈ select_where p rows <-> r ∈ rows /\ p r = true.
Proof. unfold select_where. by rewrite !list_elem_of_In, filter_In. Qed.

Lemma elem_of_map_delete key p rows k :
  k ∈ map key (delete_where p rows) <-> exists r, k = key r /\ r ∈ rows /\ p r = false.
Proof. rewrite list_elem_of_fmap. by setoid_rewrite elem_of_delete. Qed.

Lemma NoDup_delete key p rows : NoDup (map key rows) -> NoDup (map key (delete_where p rows)).
Proof.
  induction rows as [|r rows IH]; simpl; [done|]. rewrite NoDup_cons. intros [Hr Hn].
  unfold delete_where in *. simpl. destruct (negb (p r)); simpl; [|auto].
  apply NoDup_cons. split; [|auto]. intros Hin. apply Hr.
  apply (elem_of_map_delete key p) in Hin as (r' & -> & Hr' & _).
  by apply list_elem_of_fmap_2.
Qed.

Lemma NoDup_snoc key rows r :
  NoDup (map key rows) -> key r ∉ map key rows -> NoDup (map key (rows ++ [r])).
Proof.
  intros Hn Hr. rewrite map_app. apply NoDup_app. split; [done|]. split.
  - intros k Hk. simpl. rewrite list_elem_of_singleton. by intros ->.
  - apply NoDup_singleton.
Qed.

Lemma subset_delete key p rows (parents : list K) :
  map key rows ⊆ parents -> map key (delete_where p rows) ⊆ parents.
Proof.
  intros H k. rewrite elem_of_map_delete. intros (r & -> & Hr & _).
  apply H. by apply list_elem_of_fmap_2.
Qed.

Lemma subset_snoc key rows r (parents : list K) :
  map key rows ⊆ parents -> key r ∈ parents -> map key (rows ++ [r]) ⊆ parents.
Proof.
  intros H Hr k. rewrite map_app, elem_of_app. intros [Hk|Hk]; [by apply H|].
  simpl in Hk. apply list_elem_of_singleton in Hk. by subst.
Qed.

Lemma subset_parent_snoc (children : list K) key rows r :
  children ⊆ map key rows -> children ⊆ map key (rows ++ [r]).
Proof. intros H k Hk. rewrite map_app, elem_of_app. left. by apply H. Qed.

Lemma Forall_delete (P : A -> Prop) p rows : Forall P rows -> Forall P (delete_where p rows).
Proof. rewrite !Forall_forall. intros H r. rewrite elem_of_delete. intros [Hr _]. auto. Qed.

Lemma Forall_snoc (P : A -> Prop) rows r : Forall P rows -> P r -> Forall P (rows ++ [r]).
Proof. intros. apply Forall_app; auto. Qed.
End Rows.

(** A child row survives a deletion among its parents when the parents with its
    key survive. *)
Lemma subset_delete_parent {A B K} (key : A -> K) (pkey : B -> K) p q (rows : list A) parents :
  map key rows ⊆ map pkey parents ->
  (forall r x, r ∈ rows -> p r = false -> x ∈ parents -> pkey x = key r -> q x = false) ->
  map key (delete_where p rows) ⊆ map pkey (delete_where q parents).
Proof.
  intros H Hpq k. rewrite elem_of_map_delete. intros (r & -> & Hr & Hp).
  assert (key r ∈ map pkey parents) as Hk by (apply H; by apply list_elem_of_fmap_2).
  apply list_elem_of_fmap in Hk as (x & Hx & Hin).
  apply elem_of_map_delete. exists x. eauto.
Qed.

Lemma map_key_id {A K} (key : A -> K) (f : A -> A) (rows : list A) :
  (forall r, key (f r) = key r) -> map key (map f rows) = map key rows.
Proof. intros H. rewrite map_map. by apply map_ext. Qed.

Lemma has_user_spec t name : has_user t name = true <-> name ∈ map u_name (users t).
Proof.
  unfold has_user. rewrite exists_row_true, list_elem_of_fmap. unfold is_user. split.
  - intros (r & Hr & He). apply String.eqb_eq in He. eauto.
  - intros (r & -> & Hr). exists r. by rewrite String.eqb_refl.
Qed.

Lemma exists_id_spec {A} (id : A -> Z) (rows : list A) k :
  exists_row (fun r => (id r =? k)%Z) rows = true <-> k ∈ map id rows.
Proof.
  rewrite exists_row_true, list_elem_of_fmap. split.
  - intros (r & Hr & He). apply Z.eqb_eq in He. eauto.
  - intros (r & -> & Hr). exists r. by rewrite Z.eqb_refl.
Qed.

Lemma is_pair_spec a b r : is_pair a b r = true <-> r = (a, b).
Proof.
  destruct r as [c d]. unfold is_pair. simpl. rewrite andb_true_iff, !String.eqb_eq.
  split; [by intros [-> ->]|by intros [= -> ->]].
Qed.

Lemma exists_pair_spec a b rows : exists_row (is_pair a b) rows = true <-> (a, b) ∈ rows.
Proof.
  rewrite exists_row_true. split.
  - by intros (r & Hr & ->%is_pair_spec).
  - intros H. exists (a, b). by rewrite is_pair_spec.
Qed.

(** ** The invariant *)

Definition member_key (r : MemberRow) : Z * string := (gm_group r, gm_user r).
Definition join_key (r : JoinRequestRow) : Z * string := (jr_group r, jr_user r).
Definition delivery_key (r : DeliveryRow) : Z * string := (d_id r, d_recipient r).

Record integrity (t : Tables) : Prop := mkIntegrity {
  users_pk : NoDup (map u_name (users t));

  requests_pk : NoDup (map id (friend_requests t));
  requests_fk1 : map fst (friend_requests t) ⊆ map u_name (users t);
  requests_fk2 : map snd (friend_requests t) ⊆ map u_name (users t);
  requests_ck : Forall (fun r => r.1 <> r.2) (friend_requests t);

  friendships_pk : NoDup (map id (friendships t));
  friendships_fk1 : map fst (friendships t) ⊆ map u_name (users t);
  friendships_fk2 : map snd (friendships t) ⊆ map u_name (users t);
  friendships_ck : Forall (fun r => String.ltb r.1 r.2 = true) (friendships t);

  blocks_pk : NoDup (map id (friend_blocks t));
  blocks_fk1 : map fst (friend_blocks t) ⊆ map u_name (users t);
  blocks_fk2 : map snd (friend_blocks t) ⊆ map u_name (users t);
  blocks_ck : Forall (fun r => r.1 <> r.2) (friend_blocks t);

  events_pk : NoDup (map e_id (friend_events t));
  events_ids : Forall (fun r => (e_id r < next_event_id t)%Z) (friend_events t);
  events_fk1 : map e_actor (friend_events t) ⊆ map u_name (users t);
  events_fk2 : map e_target (friend_events t) ⊆ map u_name (users t);

  messages_pk : NoDup (map m_id (messages t));
  messages_ids : Forall (fun r => (m_id r < next_message_id t)%Z) (messages t);
  messages_fk1 : map m_sender (messages t) ⊆ map u_name (users t);
  messages_fk2 : forall r name, r ∈ messages t -> m_recipient r = Some name ->
    name ∈ map u_name (users t);
  messages_ck : Forall (fun r => message_check (m_type r) (m_recipient r) = true) (messages t);

  private_pk : NoDup (map d_id (private_message_deliveries t));
  private_fk1 : map d_id (private_message_deliveries t) ⊆ map m_id (messages t);
  private_fk2 : map d_recipient (private_message_deliveries t) ⊆ map u_name (users t);

  groups_pk : NoDup (map g_id (chat_groups t));
  groups_uq : NoDup (map g_name (chat_groups t));
  groups_ids : Forall (fun r => (g_id r < next_group_id t)%Z) (chat_groups t);
  groups_fk : map g_owner (chat_groups t) ⊆ map u_name (users t);

  members_pk : NoDup (map member_key (group_members t));
  members_fk1 : map gm_group (group_members t) ⊆ map g_id (chat_groups t);
  members_fk2 : map gm_user (group_members t) ⊆ map u_name (users t);

  joins_pk : NoDup (map join_key (group_join_requests t));
  joins_fk1 : map jr_group (group_join_requests t) ⊆ map g_id (chat_groups t);
  joins_fk2 : map jr_user (group_join_requests t) ⊆ map u_name (users t);

  group_messages_pk : NoDup (map q_id (group_messages t));
  group_messages_ids : Forall (fun r => (q_id r < next_group_message_id t)%Z) (group_messages t);
  group_messages_fk1 : map q_group (group_messages t) ⊆ map g_id (chat_groups t);
  group_messages_fk2 : map q_sender (group_messages t) ⊆ map u_name (users t);

  group_deliveries_pk : NoDup (map delivery_key (group_message_deliveries t));
  group_deliveries_fk1 : map d_id (group_message_deliveries t) ⊆ map q_id (group_messages t);
  group_deliveries_fk2 : map d_recipient (group_message_deliveries t) ⊆ map u_name (users t);

  transfers_pk : NoDup (map f_id (file_transfers t));
  transfers_uq : NoDup (map f_token (file_transfers t));
  transfers_ids : Forall (fun r => (f_id r < next_transfer_id t)%Z) (file_transfers t);
  transfers_fk1 : map f_sender (file_transfers t) ⊆ map u_name (users t);
  transfers_fk2 : forall r name, r ∈ file_transfers t -> f_recipient r = Some name ->
    name ∈ map u_name (users t);
  transfers_fk3 : forall r group, r ∈ file_transfers t -> f_group r = Some group ->
    group ∈ map g_id (chat_groups t);
  transfers_ck : Forall (fun r => scope_check (f_scope r) = true) (file_transfers t);

  file_deliveries_pk : NoDup (map delivery_key (file_transfer_deliveries t));
  file_deliveries_fk1 : map d_id (file_transfer_deliveries t) ⊆ map f_id (file_transfers t);
  file_deliveries_fk2 : map d_recipient (file_transfer_deliveries t) ⊆ map u_name (users t);
}.

Lemma empty_integrity : integrity empty_tables.
Proof. constructor; simpl; try constructor; set_solver. Qed.

(** AUTO_INCREMENT counters never go back. *)
Record counters_le (t t' : Tables) : Prop := mkCountersLe {
  le_event : (next_event_id t <= next_event_id t')%Z;
  le_message : (next_message_id t <= next_message_id t')%Z;
  le_group : (next_group_id t <= next_group_id t')%Z;
  le_group_message : (next_group_message_id t <= next_group_message_id t')%Z;
  le_transfer : (next_transfer_id t <= next_transfer_id t')%Z;
}.

#[export] Instance counters_le_refl : Reflexive counters_le.
Proof. intros t. constructor; lia. Qed.
#[export] Instance counters_le_trans : Transitive counters_le.
Proof. intros t u v [] []. constructor; lia. Qed.

Definition statement_ok {A} (s : statement A) : Prop :=
  forall t a t', integrity t -> s t = inr (a, t') -> integrity t' /\ counters_le t t'.

Lemma insert_row_ok `{SqlEngine} {A} duplicate parents check (ok : A * Tables) r :
  insert_row duplicate parents check A ok = inr r ->
  duplicate = false /\ parents = true /\ check = true /\ r = ok.
Proof.
  unfold insert_row. destruct duplicate; [done|]. destruct parents; [|done].
  destruct check; [|done]. by intros [= ->].
Qed.

Lemma fresh_id {A} (id : A -> Z) (rows : list A) next :
  Forall (fun r => (id r < next)%Z) rows -> next ∉ map id rows.
Proof.
  rewrite Forall_forall. intros H Hin. apply list_elem_of_fmap in Hin as (r & -> & Hr).
  specialize (H r Hr). lia.
Qed.

Lemma Forall_id_le {A} (id : A -> Z) (rows : list A) n m :
  (n <= m)%Z -> Forall (fun r => (id r < n)%Z) rows -> Forall (fun r => (id r < m)%Z) rows.
Proof. intros Hle H. eapply Forall_impl; [exact H|]. simpl. intros; lia. Qed.

Lemma fresh_key {A K} `{EqDecision K} (key : A -> K) (test : A -> bool) rows k :
  (forall r, test r = true <-> key r = k) -> exists_row test rows = false -> k ∉ map key rows.
Proof.
  intros Ht Hf Hin. apply list_elem_of_fmap in Hin as (r & -> & Hr).
  rewrite exists_row_false in Hf. specialize (Hf r Hr).
  assert (test r = true) by (by apply Ht). congruence.
Qed.

Lemma opt_fk_snoc {A} (rows : list A) r0 (fk : A -> option string) (parents : list string) :
  (forall r name, r ∈ rows -> fk r = Some name -> name ∈ parents) ->
  (forall name, fk r0 = Some name -> name ∈ parents) ->
  forall r name, r ∈ rows ++ [r0] -> fk r = Some name -> name ∈ parents.
Proof.
  intros H H0 r name. rewrite elem_of_app, list_elem_of_singleton. intros [Hr| ->]; eauto.
Qed.

#[export] Hint Resolve NoDup_delete subset_delete Forall_delete NoDup_snoc subset_snoc
  subset_parent_snoc Forall_snoc fresh_id : rows.
#[export] Hint Extern 2 (Forall _ _) => (eapply Forall_id_le; [|eassumption]; lia) : rows.

(** Open an INSERT: the constraint tests as facts, then the clauses of the
    invariant that the new row leaves open. *)
Ltac open_insert :=
  intros t ret t' Hinv Hs;
  destruct (insert_row_ok _ _ _ _ _ Hs) as (Hdup & Hpar & Hck & [= -> ->]); clear Hs;
  case_bools; split; [|constructor; simpl; lia];
  repeat match goal with
    | H : has_user _ _ = true |- _ => apply has_user_spec in H
    | H : exists_row (is_group_id ?g) _ = true |- _ => apply (exists_id_spec g_id) in H
    | H : exists_row (fun r => (?f r =? ?g)%Z) _ = true |- _ => apply (exists_id_spec f) in H
    end;
  destruct Hinv; constructor; simpl; auto with rows.

Section Inserts.
Context `{SqlEngine}.

Lemma insert_user_ok name hash : statement_ok (insert_user name hash).
Proof.
  open_insert.
  - apply NoDup_snoc; [done|]. eapply fresh_key; [|exact Hdup].
    intros r. apply String.eqb_eq.
  - intros r x Hr Hx. rewrite map_app, elem_of_app. left. eauto.
  - intros r x Hr Hx. rewrite map_app, elem_of_app. left. eauto.
Qed.

Lemma insert_friend_request_ok a b : statement_ok (insert_friend_request a b).
Proof.
  open_insert. apply NoDup_snoc; [done|]. eapply fresh_key; [|exact Hdup].
  intros r. apply is_pair_spec.
Qed.

Lemma insert_friendship_ok a b : statement_ok (insert_friendship a b).
Proof.
  open_insert. apply NoDup_snoc; [done|]. eapply fresh_key; [|exact Hdup].
  intros r. apply is_pair_spec.
Qed.

Lemma insert_ignore_block_ok a b : statement_ok (insert_ignore_block a b).
Proof.
  intros t n t' Hinv. unfold insert_ignore_block. case_match eqn:E.
  { intros [= <- <-]. split; [done|reflexivity]. }
  intros [= <- <-]. split; [|constructor; simpl; lia]. case_bools.
  repeat match goal with Hu : has_user _ _ = true |- _ => apply has_user_spec in Hu end.
  destruct Hinv; constructor; simpl; auto with rows.
  apply NoDup_snoc; [done|]. eapply fresh_key; [|eassumption]. intros r. apply is_pair_spec.
Qed.

Lemma insert_friend_event_ok ty a b at_ms payload :
  statement_ok (insert_friend_event ty a b at_ms payload).
Proof. open_insert. apply Forall_snoc; simpl; auto with rows. lia. Qed.

Lemma insert_message_ok ty s r at_ms payload : statement_ok (insert_message ty s r at_ms payload).
Proof.
  open_insert; try (apply Forall_snoc; simpl; auto with rows; lia).
  apply opt_fk_snoc; [done|]. simpl. intros name ->. by apply has_user_spec.
Qed.

Lemma insert_private_delivery_ok id0 r : statement_ok (insert_private_delivery id0 r).
Proof.
  open_insert. apply NoDup_snoc; [done|]. simpl. eapply fresh_key; [|exact Hdup].
  intros x. apply Z.eqb_eq.
Qed.

Lemma insert_group_ok name owner : statement_ok (insert_group name owner).
Proof.
  open_insert.
  - apply NoDup_snoc; [done|]. eapply fresh_key; [|exact Hdup]. intros r. apply String.eqb_eq.
  - apply Forall_snoc; simpl; auto with rows. lia.
  - intros r x Hr Hx. rewrite map_app, elem_of_app. left. eauto.
Qed.

Lemma pair_key_spec (a b : Z) (s u : string) :
  ((a =? b)%Z && (s =s? u)) = true <-> (a, s) = (b, u).
Proof.
  rewrite andb_true_iff, Z.eqb_eq, String.eqb_eq. split; [by intros [-> ->]|by intros [= -> ->]].
Qed.

Lemma insert_member_ok group user role : statement_ok (insert_member group user role).
Proof.
  open_insert. apply NoDup_snoc; [done|]. eapply fresh_key; [|exact Hdup].
  intros r. apply pair_key_spec.
Qed.

Lemma insert_join_request_ok group user now : statement_ok (insert_join_request group user now).
Proof.
  open_insert. apply NoDup_snoc; [done|]. eapply fresh_key; [|exact Hdup].
  intros r. apply pair_key_spec.
Qed.

Lemma insert_group_message_ok g s at_ms payload :
  statement_ok (insert_group_message g s at_ms payload).
Proof. open_insert. apply Forall_snoc; simpl; auto with rows. lia. Qed.

Lemma insert_group_delivery_ok id0 r : statement_ok (insert_group_delivery id0 r).
Proof.
  open_insert. apply NoDup_snoc; [done|]. eapply fresh_key; [|exact Hdup].
  intros x. apply pair_key_spec.
Qed.

Lemma insert_file_transfer_ok token scope s r g name fsize sha path at_ms meta :
  statement_ok (insert_file_transfer token scope s r g name fsize sha path at_ms meta).
Proof.
  open_insert.
  - apply NoDup_snoc; [done|]. eapply fresh_key; [|exact Hdup]. intros x. apply String.eqb_eq.
  - apply Forall_snoc; simpl; auto with rows. lia.
  - apply opt_fk_snoc; [done|]. simpl. intros x ->. by apply has_user_spec.
  - intros x k. rewrite elem_of_app, list_elem_of_singleton. intros [Hx| ->]; [eauto|].
    simpl. intros ->. by apply (exists_id_spec g_id).
Qed.

Lemma insert_file_delivery_ok id0 r : statement_ok (insert_file_delivery id0 r).
Proof.
  open_insert. apply NoDup_snoc; [done|]. eapply fresh_key; [|exact Hdup].
  intros x. apply pair_key_spec.
Qed.
End Inserts.

(** ** DELETE and UPDATE *)

Definition update_ok (f : Tables -> Tables) : Prop :=
  forall t, integrity t -> integrity (f t) /\ counters_le t (f t).

Lemma update_ok_comp f g : update_ok f -> update_ok g -> update_ok (fun t => g (f t)).
Proof.
  intros Hf Hg t Ht. destruct (Hf t Ht) as [H1 L1]. destruct (Hg (f t) H1) as [H2 L2].
  split; [done|]. by transitivity (f t).
Qed.

(** Open an update of tables no foreign key points to. *)
Ltac open_update :=
  intros t Hinv; split; [|constructor; simpl; lia];
  destruct Hinv; constructor; simpl; auto with rows.

Lemma delete_friend_requests_ok p :
  update_ok (fun t => set_friend_requests (delete_where p (friend_requests t)) t).
Proof. open_update. Qed.
Lemma delete_friendships_ok p :
  update_ok (fun t => set_friendships (delete_where p (friendships t)) t).
Proof. open_update. Qed.
Lemma delete_blocks_ok p :
  update_ok (fun t => set_friend_blocks (delete_where p (friend_blocks t)) t).
Proof. open_update. Qed.
Lemma delete_events_ok p :
  update_ok (fun t => set_friend_events (delete_where p (friend_events t)) t).
Proof. open_update. Qed.
Lemma delete_members_ok p :
  update_ok (fun t => set_group_members (delete_where p (group_members t)) t).
Proof. open_update. Qed.
Lemma delete_joins_ok p :
  update_ok (fun t => set_group_join_requests (delete_where p (group_join_requests t)) t).
Proof. open_update. Qed.
Lemma delete_private_deliveries_ok p :
  update_ok (fun t => set_private_message_deliveries
    (delete_where p (private_message_deliveries t)) t).
Proof. open_update. Qed.
Lemma delete_group_deliveries_ok p :
  update_ok (fun t => set_group_message_deliveries
    (delete_where p (group_message_deliveries t)) t).
Proof. open_update. Qed.
Lemma delete_file_deliveries_ok p :
  update_ok (fun t => set_file_transfer_deliveries
    (delete_where p (file_transfer_deliveries t)) t).
Proof. open_update. Qed.

(** An UPDATE that keeps the keys of its rows. *)
Lemma update_private_deliveries_ok f :
  (forall r, d_id (f r) = d_id r /\ d_recipient (f r) = d_recipient r) ->
  update_ok (fun t => set_private_message_deliveries
    (map f (private_message_deliveries t)) t).
Proof.
  intros Hf. open_update; rewrite map_key_id by (intros r; apply Hf); auto.
Qed.

Lemma delivery_key_id f :
  (forall r, d_id (f r) = d_id r /\ d_recipient (f r) = d_recipient r) ->
  forall r, delivery_key (f r) = delivery_key r.
Proof. intros Hf r. destruct (Hf r) as [H1 H2]. unfold delivery_key. by rewrite H1, H2. Qed.

Lemma update_group_deliveries_ok f :
  (forall r, d_id (f r) = d_id r /\ d_recipient (f r) = d_recipient r) ->
  update_ok (fun t => set_group_message_deliveries (map f (group_message_deliveries t)) t).
Proof.
  intros Hf. open_update; rewrite map_key_id; auto using delivery_key_id; intros r; apply Hf.
Qed.

Lemma update_file_deliveries_ok f :
  (forall r, d_id (f r) = d_id r /\ d_recipient (f r) = d_recipient r) ->
  update_ok (fun t => set_file_transfer_deliveries (map f (file_transfer_deliveries t)) t).
Proof.
  intros Hf. open_update; rewrite map_key_id; auto using delivery_key_id; intros r; apply Hf.
Qed.

Lemma update_members_ok f :
  (forall r, gm_group (f r) = gm_group r /\ gm_user (f r) = gm_user r) ->
  update_ok (fun t => set_group_members (map f (group_members t)) t).
Proof.
  intros Hf. open_update; rewrite map_key_id; auto; intros r; destruct (Hf r); auto.
  unfold member_key. congruence.
Qed.

(** A key found among the deleted parents is a key that left the table. *)
Lemma gone_false {A} (key : A -> Z) p (rows : list A) k x :
  exists_row (fun r => (key r =? k)%Z) (select_where p rows) = false ->
  x ∈ rows -> key x = k -> p x = false.
Proof.
  rewrite exists_row_false. intros H Hx Hk. destruct (p x) eqn:E; [|done].
  assert ((key x =? k)%Z = false) as Hf by (apply H; by apply elem_of_select).
  apply Z.eqb_neq in Hf. done.
Qed.

Lemma opt_fk_delete {A X} p (rows : list A) (fk : A -> option X) (Q : X -> Prop) :
  (forall r x, r ∈ rows -> fk r = Some x -> Q x) ->
  forall r x, r ∈ delete_where p rows -> fk r = Some x -> Q x.
Proof. intros H r x. rewrite elem_of_delete. intros [Hr _]. eauto. Qed.

(** ON DELETE CASCADE keeps the foreign key. *)
Lemma subset_cascade {A B} (key : A -> Z) (pkey : B -> Z) p (rows : list A) parents :
  map key rows ⊆ map pkey parents ->
  map key (delete_where (fun r =>
    exists_row (fun x => (pkey x =? key r)%Z) (select_where p parents)) rows) ⊆
  map pkey (delete_where p parents).
Proof.
  intros H. apply subset_delete_parent; [done|]. intros r x _ Hr Hx Hk.
  by eapply (gone_false pkey).
Qed.

Lemma delete_messages_ok p : update_ok (delete_messages p).
Proof. open_update; try (by apply opt_fk_delete). by apply subset_cascade. Qed.

Lemma delete_group_messages_ok p : update_ok (delete_group_messages p).
Proof. open_update. by apply subset_cascade. Qed.

Lemma delete_file_transfers_ok p : update_ok (delete_file_transfers p).
Proof. open_update; try (by apply opt_fk_delete). by apply subset_cascade. Qed.

Lemma forget_group_keeps gone f :
  f_id (forget_group gone f) = f_id f /\ f_token (forget_group gone f) = f_token f /\
  f_sender (forget_group gone f) = f_sender f /\
  f_recipient (forget_group gone f) = f_recipient f /\
  f_scope (forget_group gone f) = f_scope f.
Proof. unfold forget_group. destruct (f_group f); [case_match|]; done. Qed.

(** The groups of a store without their children in other tables. *)
Lemma drop_groups_ok p :
  update_ok (fun t =>
    let gone := select_where p (chat_groups t) in
    delete_group_messages (fun m => exists_row (is_group_id (q_group m)) gone)
      (set_group_join_requests
        (delete_where (fun r => exists_row (is_group_id (jr_group r)) gone) (group_join_requests t))
        (set_group_members
          (delete_where (fun r => exists_row (is_group_id (gm_group r)) gone) (group_members t))
          (set_file_transfers (map (forget_group gone) (file_transfers t))
            (set_chat_groups (delete_where p (chat_groups t)) t))))).
Proof.
  open_update; try (by apply (subset_cascade _ g_id)); try (by apply (subset_cascade _ q_id)).
  all: try (rewrite map_key_id; [done|intros; apply forget_group_keeps]).
  - apply Forall_map. eapply Forall_impl; [exact transfers_ids0|]. simpl. intros r.
    by rewrite (proj1 (forget_group_keeps _ r)).
  - intros r name (f & -> & Hf)%list_elem_of_fmap.
    destruct (forget_group_keeps (select_where p (chat_groups t)) f) as (_ & _ & _ & -> & _). eauto.
  - intros r group (f & -> & Hf)%list_elem_of_fmap. unfold forget_group.
    destruct (f_group f) as [g|] eqn:E; [|by rewrite E].
    case_match eqn:G; simpl; [done|]. rewrite E. intros [= ->].
    assert (group ∈ map g_id (chat_groups t)) as Hg by eauto.
    apply list_elem_of_fmap in Hg as (x & -> & Hx). apply elem_of_map_delete.
    exists x. split; [done|]. split; [done|]. eapply (gone_false g_id); eauto.
  - apply Forall_map. eapply Forall_impl; [exact transfers_ck0|]. simpl. intros r.
    destruct (forget_group_keeps (select_where p (chat_groups t)) r) as (_ & _ & _ & _ & ->). done.
Qed.

Lemma delete_groups_ok p : update_ok (delete_groups p).
Proof. exact (drop_groups_ok p). Qed.

(** ** Deleting a user *)

(** No row outside [users] mentions the name. *)
Record unreferenced (name : string) (t : Tables) : Prop := mkUnreferenced {
  no_request : Forall (fun r => mentions name r = false) (friend_requests t);
  no_friendship : Forall (fun r => mentions name r = false) (friendships t);
  no_block : Forall (fun r => mentions name r = false) (friend_blocks t);
  no_event : Forall (fun e => (e_actor e =s? name) || (e_target e =s? name) = false)
    (friend_events t);
  no_message : Forall (fun m => (m_sender m =s? name) || opt_is name (m_recipient m) = false)
    (messages t);
  no_private_delivery : Forall (fun d => (d_recipient d =s? name) = false)
    (private_message_deliveries t);
  no_group : Forall (fun g => (g_owner g =s? name) = false) (chat_groups t);
  no_member : Forall (fun r => (gm_user r =s? name) = false) (group_members t);
  no_join : Forall (fun r => (jr_user r =s? name) = false) (group_join_requests t);
  no_group_message : Forall (fun m => (q_sender m =s? name) = false) (group_messages t);
  no_group_delivery : Forall (fun d => (d_recipient d =s? name) = false)
    (group_message_deliveries t);
  no_transfer : Forall (fun f => (f_sender f =s? name) || opt_is name (f_recipient f) = false)
    (file_transfers t);
  no_file_delivery : Forall (fun d => (d_recipient d =s? name) = false)
    (file_transfer_deliveries t);
}.

Lemma Forall_delete_self {A} (p : A -> bool) rows :
  Forall (fun r => p r = false) (delete_where p rows).
Proof. apply Forall_forall. intros r. rewrite elem_of_delete. by intros []. Qed.

Lemma cascade_unreferenced name t :
  unreferenced name (fold_left (fun t f => f t) (user_cascade name) t).
Proof. constructor; apply Forall_delete_self. Qed.

Lemma unreferenced_set_users name rows t : unreferenced name t -> unreferenced name (set_users rows t).
Proof. intros []. by constructor. Qed.

Lemma delete_user_unreferenced name t : unreferenced name (delete_user_rows name t).
Proof. apply unreferenced_set_users, cascade_unreferenced. Qed.

Lemma user_cascade_ok name :
  update_ok (fun t => fold_left (fun t f => f t) (user_cascade name) t).
Proof.
  assert (Forall update_ok (user_cascade name)) as Hall.
  { repeat apply Forall_cons_2; [..|apply Forall_nil_2].
    all: first [ apply delete_friend_requests_ok | apply delete_friendships_ok
      | apply delete_blocks_ok | apply delete_events_ok | apply delete_messages_ok
      | apply delete_private_deliveries_ok | apply delete_groups_ok | apply delete_members_ok
      | apply delete_joins_ok | apply delete_group_messages_ok | apply delete_group_deliveries_ok
      | apply delete_file_transfers_ok | apply delete_file_deliveries_ok ]. }
  induction Hall as [|f fs Hf _ IH]; [intros t Ht; split; [done|reflexivity]|].
  exact (update_ok_comp _ _ Hf IH).
Qed.

Lemma in_remaining_users name (t : Tables) x :
  (x =s? name) = false -> x ∈ map u_name (users t) ->
  x ∈ map u_name (delete_where (is_user name) (users t)).
Proof.
  intros Hx (r & -> & Hr)%list_elem_of_fmap. apply elem_of_map_delete. by exists r.
Qed.

Lemma fk_remaining {A} name t (key : A -> string) rows (Q : A -> Prop) :
  (forall r, Q r -> (key r =s? name) = false) ->
  Forall Q rows ->
  map key rows ⊆ map u_name (users t) ->
  map key rows ⊆ map u_name (delete_where (is_user name) (users t)).
Proof.
  rewrite Forall_forall. intros Hp Hf Hs x (r & -> & Hr)%list_elem_of_fmap.
  apply in_remaining_users; [by apply Hp, Hf|]. apply Hs. by apply list_elem_of_fmap_2.
Qed.

Lemma opt_fk_remaining {A} name t (key : A -> option string) rows (Q : A -> Prop) :
  (forall r, Q r -> opt_is name (key r) = false) ->
  Forall Q rows ->
  (forall r x, r ∈ rows -> key r = Some x -> x ∈ map u_name (users t)) ->
  forall r x, r ∈ rows -> key r = Some x ->
    x ∈ map u_name (delete_where (is_user name) (users t)).
Proof.
  rewrite Forall_forall. intros Hp Hf Hs r x Hr Hk.
  apply in_remaining_users; [|by eapply Hs]. specialize (Hp r (Hf r Hr)).
  by rewrite Hk in Hp.
Qed.

Ltac not_the_user :=
  let H := fresh in intros ? H; unfold mentions in H; cbv beta in H; rewrite ?orb_false_iff in H; tauto.

Lemma drop_user_ok name t :
  integrity t -> unreferenced name t ->
  integrity (set_users (delete_where (is_user name) (users t)) t).
Proof.
  intros [] []. constructor; simpl; auto with rows.
  all: first [ eapply opt_fk_remaining; [|eassumption|eassumption]; not_the_user
             | eapply fk_remaining; [|eassumption|eassumption]; not_the_user ].
Qed.

Lemma counters_set_users rows t : counters_le t (set_users rows t).
Proof. constructor; simpl; lia. Qed.

Lemma delete_user_rows_ok name : update_ok (delete_user_rows name).
Proof.
  intros t Ht. destruct (user_cascade_ok name t Ht) as [Hi Hc].
  pose proof (cascade_unreferenced name t) as Hu. unfold delete_user_rows. cbv zeta.
  revert Hi Hc Hu. generalize (fold_left (fun t f => f t) (user_cascade name) t).
  intros u Hi Hc Hu. split; [by apply drop_user_ok|].
  etransitivity; [exact Hc|apply counters_set_users].
Qed.

(** ** Rollback *)

Lemma rollback_rows_ok old now :
  integrity old -> counters_le old now -> integrity (rollback_rows old now).
Proof.
  intros [] []. constructor; simpl; auto; by (eapply Forall_id_le; [|eassumption]).
Qed.

(** The same rows, whatever the AUTO_INCREMENT counters. *)
Definition same_rows (t t' : Tables) : Prop := rollback_rows t t' = t'.

#[export] Instance same_rows_equiv : Equivalence same_rows.
Proof.
  unfold same_rows, rollback_rows. split.
  - by intros [].
  - intros [] [] [=]. by subst.
  - intros [] [] [] [=] [=]. by subst.
Qed.

Lemma same_rows_rollback old now : same_rows (rollback_rows old now) old.
Proof. unfold same_rows, rollback_rows. by destruct old, now. Qed.

End Integrity.
