(* ===== verification/Transactions.v ===== *)
(** * Transactions and integrity of the database layer

    Two properties of every method of [Database]: it keeps the referential
    integrity of the store, and, as long as rolling back works, it is all or
    nothing under any schedule of engine failures.  The methods are enumerated by [DbCall], so that both
    properties are one theorem each, and hold of every sequence of calls. *)
From S2P Require Import Prelude Payloads Tables ExampleCodec Database Integrity.
Import Payloads Tables Database Integrity.

Module Transactions.

(** ** The calls of the interface *)

Section Calls.
Context `{SqlEngine} `{ProtoCodecs}.

Inductive DbCall : Type -> Type :=
  | UserExists (u : string) : DbCall bool
  | CreateUser (u hash : string) : DbCall unit
  | DeleteUser (u : string) : DbCall bool
  | GetPasswordHash (u : string) : DbCall (option string)
  | AreFriends (a b : string) : DbCall bool
  | IsFriendBlocked (a b : string) : DbCall bool
  | AddFriendBlock (a b : string) : DbCall bool
  | RemoveFriendBlock (a b : string) : DbCall bool
  | ListBlockedFriends (a : string) : DbCall (list string)
  | HasFriendRequest (a b : string) : DbCall bool
  | AddFriendRequest (a b : string) : DbCall unit
  | AcceptFriendRequest (a b : string) : DbCall unit
  | RejectFriendRequest (a b : string) : DbCall bool
  | RemoveFriendship (a b : string) : DbCall bool
  | ListFriends (u : string) : DbCall (list string)
  | ListIncomingRequests (u : string) : DbCall (list string)
  | ListOutgoingRequests (u : string) : DbCall (list string)
  | AddFriendEvent (e : FriendEventPayload) : DbCall unit
  | AddMessage (p : ChatMessagePayload) : DbCall Z
  | AddPrivateMessageWithDelivery (p : ChatMessagePayload) : DbCall Z
  | RecentPublicMessages (n : Z) : DbCall (list StoredMessage)
  | RecentPrivateMessages (a b : string) (n : Z) : DbCall (list StoredMessage)
  | PendingPrivateMessages (u : string) (n : Z) : DbCall (list StoredMessage)
  | MarkPrivateMessageDelivered (id : Z) (u : string) (at_ms : Z) : DbCall unit
  | CreateGroup (g u : string) : DbCall Z
  | GetGroup (g : string) : DbCall (option GroupInfo)
  | DissolveGroup (g u : string) : DbCall bool
  | GetGroupRole (g u : string) : DbCall (option GroupRole)
  | ListUserGroups (u : string) : DbCall (list GroupMembership)
  | ListGroupMembers (g : string) : DbCall (list GroupMemberInfo)
  | ListGroupMemberUsernames (g : string) : DbCall (list string)
  | HasGroupJoinRequest (g u : string) : DbCall bool
  | AddGroupJoinRequest (g u : string) : DbCall unit
  | ListGroupJoinRequests (g : string) : DbCall (list string)
  | ListGroupManagers (g : string) : DbCall (list string)
  | ListManagedGroupRequestCounts (u : string) : DbCall (list ManagedGroupRequestCount)
  | ApproveGroupJoinRequest (g u : string) : DbCall unit
  | RejectGroupJoinRequest (g u : string) : DbCall bool
  | SetGroupMemberRole (g u : string) (r : GroupRole) : DbCall bool
  | RemoveGroupMember (g u : string) : DbCall bool
  | AddGroupMessage (p : GroupMessagePayload) (us : list string) : DbCall Z
  | RecentGroupMessages (g : string) (n : Z) : DbCall (list StoredGroupMessage)
  | PendingGroupMessages (u : string) (n : Z) : DbCall (list StoredGroupMessage)
  | MarkGroupMessageDelivered (id : Z) (u : string) (at_ms : Z) : DbCall unit
  | AddFileTransfer (m : FileTransferMetadata) (us : list string) : DbCall Z
  | PendingFileTransfers (u : string) (n : Z) : DbCall (list StoredFileTransfer)
  | FileTransferForRecipient (id : Z) (u : string) : DbCall (option StoredFileTransfer)
  | MarkFileTransferDelivered (id : Z) (u : string) (at_ms : Z) : DbCall unit.

Definition run_call {A} (c : DbCall A) : M Db A :=
  match c with
  | UserExists u => user_exists u
  | CreateUser u hash => create_user u hash
  | DeleteUser u => delete_user u
  | GetPasswordHash u => get_password_hash u
  | AreFriends a b => are_friends a b
  | IsFriendBlocked a b => is_friend_blocked a b
  | AddFriendBlock a b => add_friend_block a b
  | RemoveFriendBlock a b => remove_friend_block a b
  | ListBlockedFriends a => list_blocked_friends a
  | HasFriendRequest a b => has_friend_request a b
  | AddFriendRequest a b => add_friend_request a b
  | AcceptFriendRequest a b => accept_friend_request a b
  | RejectFriendRequest a b => reject_friend_request a b
  | RemoveFriendship a b => remove_friendship a b
  | ListFriends u => list_friends u
  | ListIncomingRequests u => list_incoming_requests u
  | ListOutgoingRequests u => list_outgoing_requests u
  | AddFriendEvent e => add_friend_event e
  | AddMessage p => add_message p
  | AddPrivateMessageWithDelivery p => add_private_message_with_delivery p
  | RecentPublicMessages n => recent_public_messages n
  | RecentPrivateMessages a b n => recent_private_messages a b n
  | PendingPrivateMessages u n => pending_private_messages u n
  | MarkPrivateMessageDelivered id u at_ms => mark_private_message_delivered id u at_ms
  | CreateGroup g u => create_group g u
  | GetGroup g => get_group g
  | DissolveGroup g u => dissolve_group g u
  | GetGroupRole g u => get_group_role g u
  | ListUserGroups u => list_user_groups u
  | ListGroupMembers g => list_group_members g
  | ListGroupMemberUsernames g => list_group_member_usernames g
  | HasGroupJoinRequest g u => has_group_join_request g u
  | AddGroupJoinRequest g u => add_group_join_request g u
  | ListGroupJoinRequests g => list_group_join_requests g
  | ListGroupManagers g => list_group_managers g
  | ListManagedGroupRequestCounts u => list_managed_group_request_counts u
  | ApproveGroupJoinRequest g u => approve_group_join_request g u
  | RejectGroupJoinRequest g u => reject_group_join_request g u
  | SetGroupMemberRole g u r => set_group_member_role g u r
  | RemoveGroupMember g u => remove_group_member g u
  | AddGroupMessage p us => add_group_message p us
  | RecentGroupMessages g n => recent_group_messages g n
  | PendingGroupMessages u n => pending_group_messages u n
  | MarkGroupMessageDelivered id u at_ms => mark_group_message_delivered id u at_ms
  | AddFileTransfer m us => add_file_transfer m us
  | PendingFileTransfers u n => pending_file_transfers u n
  | FileTransferForRecipient id u => file_transfer_for_recipient id u
  | MarkFileTransferDelivered id u at_ms => mark_file_transfer_delivered id u at_ms
  end.

(** A history of calls, each with its own schedules of engine failures. *)
Record Event := mkEvent {
  ev_type : Type; ev_call : DbCall ev_type; ev_faults : list (option string); ev_recoveries : list (option string) }.

Definition run_event (e : Event) (db : Db) : Db :=
  (run_call (ev_call e) (set_recoveries (ev_recoveries e) (set_faults (ev_faults e) db))).2.
Definition run_history (h : list Event) (db : Db) : Db := fold_left (fun db e => run_event e db) h db.
End Calls.

(** ** Integrity *)

(** The rows satisfy the schema, and so do the rows a rollback restores. *)
Definition db_inv (db : Db) : Prop :=
  integrity (tables db) /\
  forall old, saved db = Some old -> integrity old /\ counters_le old (tables db).

Lemma engine_step_cases db :
  exists r fs, engine_step db = (r, set_faults fs db).
Proof.
  unfold engine_step. destruct (faults db) as [|[e|] fs] eqn:E.
  - exists (inr tt), (faults db). destruct db; simpl in *. by subst.
  - eauto.
  - eauto.
Qed.

Lemma engine_step_inv : preserves db_inv engine_step.
Proof. intros db Hdb. by destruct (engine_step_cases db) as (r & fs & ->). Qed.

Lemma query_inv {A} (q : Tables -> A) : preserves db_inv (query_prepared q).
Proof. unfold query_prepared. auto using engine_step_inv with chat. Qed.

Lemma lease_inv {A} (m : M Db A) : preserves db_inv m -> preserves db_inv (lease m).
Proof. unfold lease. auto using engine_step_inv with chat. Qed.

Lemma set_tables_inv db t :
  db_inv db -> integrity t /\ counters_le (tables db) t -> db_inv (set_tables t db).
Proof.
  intros [Hi Hs] [Ht Hc]. split; [done|]. intros old Ho. destruct (Hs old Ho).
  split; [done|]. by transitivity (tables db).
Qed.

Lemma execute_inv {A} (s : statement A) : statement_ok s -> preserves db_inv (execute_prepared s).
Proof.
  intros Hok. apply preserves_bind; [apply engine_step_inv|]. intros _ db Hdb. simpl.
  destruct (s (tables db)) as [e|[a t]] eqn:E; simpl; [done|].
  apply set_tables_inv; [done|]. apply (Hok (tables db) a t); [exact (proj1 Hdb)|done].
Qed.

Lemma change_inv {A} (f : Tables -> A * Tables) :
  update_ok (fun t => (f t).2) -> preserves db_inv (execute_prepared (change f)).
Proof.
  intros Hf. apply execute_inv. intros t a t' Ht [= E]. specialize (Hf t Ht).
  simpl in Hf. by rewrite E in Hf.
Qed.

Lemma recovery_cases effect db :
  (exists rs, recovery effect db = effect (set_recoveries rs db)) \/ exists rs, recovery effect db = set_recoveries rs db.
Proof.
  unfold recovery. destruct (recoveries db) as [|[e|] rs] eqn:E; [left|right; by eexists|left; by eexists].
  exists []. rewrite <- E. by destruct db.
Qed.

Lemma recovery_inv effect db : (forall db, db_inv db -> db_inv (effect db)) -> db_inv db -> db_inv (recovery effect db).
Proof. intros He Hi. destruct (recovery_cases effect db) as [[rs ->]|[rs ->]]; [by apply He|done]. Qed.

Lemma autocommit_off_inv db : db_inv db -> db_inv (autocommit_off db).
Proof.
  intros [Hi Hs]. unfold autocommit_off. destruct (saved db) eqn:E; [split; [done|]; by rewrite E|].
  split; [done|]. intros old [= <-]. split; [done|]. reflexivity.
Qed.
Lemma autocommit_on_inv db : db_inv db -> db_inv (autocommit_on db).
Proof. intros [Hi _]. by split. Qed.
Lemma mysql_commit_inv db : db_inv db -> db_inv (mysql_commit db).
Proof.
  intros [Hi Hs]. unfold mysql_commit. destruct (saved db) eqn:E; [|split; [done|]; by rewrite E].
  split; [done|]. intros old [= <-]. split; [done|]. reflexivity.
Qed.
Lemma mysql_rollback_inv db : db_inv db -> db_inv (mysql_rollback db).
Proof.
  intros [Hi Hs]. unfold mysql_rollback. destruct (saved db) as [old|] eqn:E; [|split; [done|]; by rewrite E].
  destruct (Hs old eq_refl) as [Ho Hc]. assert (integrity (rollback_rows old (tables db))) by by apply rollback_rows_ok.
  split; [done|]. intros old' [= <-]. split; [done|]. reflexivity.
Qed.

Lemma begin_inv : preserves db_inv begin_tx.
Proof. apply preserves_bind; [apply engine_step_inv|]. intros _. apply preserves_modify, autocommit_off_inv. Qed.

Lemma commit_inv : preserves db_inv commit.
Proof.
  intros db Hdb. unfold commit. destruct (engine_step_cases db) as ([e|[]] & fs & ->).
  - apply recovery_inv; [apply autocommit_on_inv|done].
  - apply (preserves_bind _ _ _ engine_step_inv); [intros _; apply preserves_modify, autocommit_on_inv|by apply mysql_commit_inv].
Qed.

Lemma rollback_inv db : db_inv db -> db_inv (rollback db).
Proof. intros Hi. apply recovery_inv; [apply autocommit_on_inv|]. apply recovery_inv; [apply mysql_rollback_inv|done]. Qed.

Lemma or_rollback_inv {A} (m : M Db A) : preserves db_inv m -> preserves db_inv (or_rollback m).
Proof.
  intros Hm db Hdb. unfold or_rollback. specialize (Hm db Hdb).
  destruct (m db) as [[e|a] db']; simpl in *; [by apply rollback_inv|done].
Qed.

Lemma serialize_inv {A} `{ProtoCodec A} what (a : A) : preserves db_inv (serialize what a).
Proof. unfold serialize. case_match; auto with chat. Qed.

Lemma lift_sum_inv {A} (r : string + A) : preserves db_inv (lift_sum r).
Proof. destruct r; simpl; auto with chat. Qed.

Lemma insert_deliveries_inv `{SqlEngine} insert id0 recipients :
  (forall r, statement_ok (insert id0 r)) ->
  preserves db_inv (insert_deliveries insert id0 recipients).
Proof.
  intros Hok. induction recipients as [|r rest IH]; simpl; [apply preserves_ret|].
  apply preserves_bind; [by apply or_rollback_inv, execute_inv|done].
Qed.

Lemma mark_delivered_keeps id0 recipient at_ms r :
  d_id (mark_delivered id0 recipient at_ms r) = d_id r /\
  d_recipient (mark_delivered id0 recipient at_ms r) = d_recipient r.
Proof. unfold mark_delivered. by case_match. Qed.

Create HintDb db_inv.
#[export] Hint Resolve engine_step_inv query_inv begin_inv commit_inv
  serialize_inv lift_sum_inv : db_inv.
#[export] Hint Resolve preserves_ret preserves_fail preserves_get preserves_reject : db_inv.
#[export] Hint Resolve insert_user_ok insert_friend_request_ok insert_friendship_ok
  insert_ignore_block_ok insert_friend_event_ok insert_message_ok insert_private_delivery_ok
  insert_group_ok insert_member_ok insert_join_request_ok insert_group_message_ok
  insert_group_delivery_ok insert_file_transfer_ok insert_file_delivery_ok : db_inv.

(** Walk through a method: every step keeps the invariant. *)
Ltac walk_inv :=
  cbv zeta;
  repeat lazymatch goal with
    | |- preserves _ (lease _) => apply lease_inv
    | |- preserves _ (mbind _ _) => apply preserves_bind; [|intros ?; cbv zeta]
    | |- preserves _ (or_rollback _) => apply or_rollback_inv
    | |- preserves _ (if _ then _ else _) => apply preserves_if
    | |- preserves _ (execute_prepared (change _)) => apply change_inv; simpl
    | |- preserves _ (execute_prepared _) => apply execute_inv
    | |- preserves _ (insert_deliveries _ _ _) => apply insert_deliveries_inv; intros ?
    end;
  auto with db_inv.

Section Integrity.
Context `{SqlEngine} `{ProtoCodecs}.

Lemma required_group_id_inv g : preserves db_inv (required_group_id g).
Proof. unfold required_group_id, group_id_by_name. walk_inv. case_match; walk_inv. Qed.

Lemma insert_message_locked_inv p : preserves db_inv (insert_message_locked p).
Proof. unfold insert_message_locked. walk_inv. Qed.

Lemma run_call_inv {A} (c : DbCall A) : preserves db_inv (run_call c).
Proof.
  destruct c; simpl; unfold user_exists, create_user, delete_user, get_password_hash, are_friends,
    is_friend_blocked, add_friend_block, remove_friend_block, list_blocked_friends,
    has_friend_request, add_friend_request, accept_friend_request, reject_friend_request,
    remove_friendship, list_friends, list_incoming_requests, list_outgoing_requests,
    add_friend_event, add_message, add_private_message_with_delivery, recent_public_messages,
    recent_private_messages, pending_private_messages, mark_private_message_delivered,
    create_group, get_group, dissolve_group, get_group_role, list_user_groups, list_group_members,
    list_group_member_usernames, has_group_join_request, add_group_join_request,
    list_group_join_requests, list_group_managers, list_managed_group_request_counts,
    approve_group_join_request, reject_group_join_request, set_group_member_role,
    remove_group_member, add_group_message, recent_group_messages, pending_group_messages,
    mark_group_message_delivered, add_file_transfer, pending_file_transfers,
    file_transfer_for_recipient, mark_file_transfer_delivered,
    delete_friend_request, delete_join_request; cbv zeta; walk_inv.
  all: auto using required_group_id_inv, insert_message_locked_inv.
  all: first [ apply delete_user_rows_ok | apply delete_groups_ok | apply delete_blocks_ok
    | apply delete_friend_requests_ok | apply delete_friendships_ok | apply delete_joins_ok
    | apply delete_members_ok
    | apply update_private_deliveries_ok, mark_delivered_keeps
    | apply update_group_deliveries_ok, mark_delivered_keeps
    | apply update_file_deliveries_ok, mark_delivered_keeps
    | apply update_members_ok; intros ?; by case_match ].
Qed.
End Integrity.

(** ** All or nothing *)

(** The same connection with an engine that does not fail. *)
Definition quiet (db : Db) : Db := set_recoveries [] (set_faults [] db).

(** The calls whose failure is ignored do not fail. *)
Definition recovers (db : Db) : Prop := Forall (.= None) (recoveries db).
Definition settled (db : Db) : Prop := saved db = None /\ recovers db.

(** A run that succeeds is a run in which no failure was injected. *)
Definition success_quiet {A} (m : M Db A) : Prop :=
  forall db a db', m db = (inr a, db') -> m (quiet db) = (inr a, quiet db').

(** A step of an open transaction: it fails with everything rolled back, or
    leaves the transaction open. *)
Definition tx_step {A} (m : M Db A) : Prop :=
  success_quiet m /\
  forall db old, saved db = Some old ->
    match m db with
    | (inl _, db') => recovers db -> settled db' /\ same_rows (tables db') old
    | (inr _, db') => saved db' = Some old /\ recoveries db' = recoveries db
    end.

(** The rest of a transaction, up to its end: it fails with everything rolled
    back, or the fault-free run commits the same rows. *)
Definition tx_rest {A} (m : M Db A) : Prop :=
  success_quiet m /\
  forall db old, saved db = Some old ->
    match m db with
    | (inl _, db') => recovers db -> settled db' /\
        (same_rows (tables db') old \/ exists a, m (quiet db) = (inr a, quiet db'))
    | (inr _, db') => saved db' = None /\ recoveries db' = recoveries db
    end.

(** Code that leaves rows and transaction alone. *)
Definition untouched (db db' : Db) : Prop :=
  tables db' = tables db /\ saved db' = saved db /\ recoveries db' = recoveries db.
Definition reads {A} (m : M Db A) : Prop := success_quiet m /\ forall db, untouched db (m db).2.

(** A whole method. *)
Definition atomic {A} (m : M Db A) : Prop :=
  success_quiet m /\
  forall db, saved db = None ->
    match m db with
    | (inl _, db') => recovers db -> settled db' /\
        (same_rows (tables db') (tables db) \/ exists a, m (quiet db) = (inr a, quiet db'))
    | (inr _, db') => saved db' = None /\ recoveries db' = recoveries db
    end.

Lemma quiet_bind {A B} (m : M Db A) (k : A -> M Db B) :
  success_quiet m -> (forall a, success_quiet (k a)) -> success_quiet (m ≫= k).
Proof.
  intros Hm Hk db b db' H. apply bind_inr in H as (a & db1 & H1 & H2).
  apply bind_inr. exists a, (quiet db1). split; [by apply Hm|by apply Hk].
Qed.

Lemma quiet_step : success_quiet engine_step.
Proof.
  intros db [] db'. unfold engine_step. destruct (faults db) as [|[e|] fs] eqn:E; [|done|].
  - by intros [= <-].
  - by intros [= <-].
Qed.

Lemma quiet_ret {A} (a : A) : success_quiet (mret a).
Proof. by intros db b db' [= <- <-]. Qed.

Lemma quiet_reject b e : success_quiet (reject_if b e).
Proof. destruct b; [by intros db [] db'|]. apply quiet_ret. Qed.

Lemma quiet_lift {A} (r : string + A) : success_quiet (lift_sum r).
Proof. destruct r; [by intros db a db'|]. apply quiet_ret. Qed.

Lemma quiet_serialize {A} `{ProtoCodec A} what (a : A) : success_quiet (serialize what a).
Proof. unfold serialize. case_match; [apply quiet_ret|by intros db b db']. Qed.

Lemma quiet_query {A} (q : Tables -> A) : success_quiet (query_prepared q).
Proof.
  apply quiet_bind; [apply quiet_step|]. intros _ db a db' [= <- <-]. done.
Qed.

Lemma quiet_execute {A} (s : statement A) : success_quiet (execute_prepared s).
Proof.
  apply quiet_bind; [apply quiet_step|]. intros _ db a db'. simpl.
  destruct (s (tables db)) as [e|[x t]]; [done|]. by intros [= <- <-].
Qed.

Lemma quiet_modify f :
  (forall db, f (quiet db) = quiet (f db)) -> success_quiet (modify f).
Proof. intros Hf db [] db' [= <-]. unfold modify. by rewrite Hf. Qed.

Lemma quiet_begin : success_quiet begin_tx.
Proof.
  apply quiet_bind; [apply quiet_step|]. intros _. apply quiet_modify. intros db. unfold autocommit_off. simpl. by destruct (saved db).
Qed.

Lemma quiet_commit : success_quiet commit.
Proof.
  intros db a db'. unfold commit. destruct (engine_step db) as [[e|u] db1] eqn:E; [done|]. rewrite (quiet_step _ _ _ E).
  assert (mysql_commit (quiet db1) = quiet (mysql_commit db1)) as -> by (unfold mysql_commit; simpl; by destruct (saved db1)).
  apply quiet_bind; [apply quiet_step|]. intros _. by apply quiet_modify.
Qed.

Lemma quiet_or_rollback {A} (m : M Db A) : success_quiet m -> success_quiet (or_rollback m).
Proof.
  intros Hm db a db'. unfold or_rollback. destruct (m db) as [[e|x] db1] eqn:E; [done|].
  intros [= <- <-]. apply Hm in E. by rewrite E.
Qed.

Lemma untouched_trans db db1 db2 : untouched db db1 -> untouched db1 db2 -> untouched db db2.
Proof. intros (F1 & F2 & F3) (G1 & G2 & G3). unfold untouched. by rewrite G1, G2, G3. Qed.

Lemma reads_bind {A B} (m : M Db A) (k : A -> M Db B) :
  reads m -> (forall a, reads (k a)) -> reads (m ≫= k).
Proof.
  intros [Qm Hm] Hk. split; [apply quiet_bind; [done|apply Hk]|]. intros db.
  unfold mbind, M_bind. specialize (Hm db). destruct (m db) as [[e|a] db1]; simpl in *; [done|].
  eapply untouched_trans; [exact Hm|]. apply Hk.
Qed.

Lemma reads_step : reads engine_step.
Proof.
  split; [apply quiet_step|]. intros db. by destruct (engine_step_cases db) as (r & fs & ->).
Qed.

Lemma reads_ret {A} (a : A) : reads (mret a).
Proof. split; [apply quiet_ret|]. by intros db. Qed.
Lemma reads_reject b e : reads (reject_if b e).
Proof. split; [apply quiet_reject|]. by destruct b. Qed.
Lemma reads_fail {A} e : reads (fail (A := A) e).
Proof. split; [by intros db a db'|]. by intros db. Qed.
Lemma reads_lift {A} (r : string + A) : reads (lift_sum r).
Proof. destruct r; [apply reads_fail|apply reads_ret]. Qed.
Lemma reads_serialize {A} `{ProtoCodec A} what (a : A) : reads (serialize what a).
Proof. unfold serialize. case_match; [apply reads_ret|apply reads_fail]. Qed.
Lemma reads_query {A} (q : Tables -> A) : reads (query_prepared q).
Proof.
  split; [apply quiet_query|]. intros db. unfold query_prepared, mbind, M_bind.
  by destruct (engine_step_cases db) as ([e|[]] & fs & ->).
Qed.

(** A failing statement changes nothing. *)
Lemma execute_cases {A} (s : statement A) db :
  match execute_prepared s db with
  | (inl _, db') => untouched db db'
  | (inr _, db') => saved db' = saved db /\ recoveries db' = recoveries db
  end.
Proof.
  unfold execute_prepared, mbind, M_bind.
  destruct (engine_step_cases db) as ([e|[]] & fs & ->); simpl; [done|].
  by destruct (s (tables db)) as [e|[a t]].
Qed.

Definition keeps_saved {A} (m : M Db A) : Prop :=
  forall db, saved (m db).2 = saved db /\ recoveries (m db).2 = recoveries db.

Lemma keeps_execute {A} (s : statement A) : keeps_saved (execute_prepared s).
Proof.
  intros db. pose proof (execute_cases s db) as H.
  destruct (execute_prepared s db) as [[e|a] db']; simpl; [apply H|done].
Qed.

Lemma keeps_reads {A} (m : M Db A) : reads m -> keeps_saved m.
Proof. intros [_ H] db. apply H. Qed.

Lemma keeps_rows_bind {A B} (m : M Db A) (k : A -> M Db B) :
  keeps_saved m -> (forall a, keeps_saved (k a)) -> keeps_saved (m ≫= k).
Proof.
  intros Hm Hk db. unfold mbind, M_bind. specialize (Hm db).
  destruct (m db) as [[e|a] db1]; simpl in *; [done|]. destruct (Hk a db1) as [-> ->]. done.
Qed.

(** Without failures of its own, [rollback()] restores the rows and settles. *)
Lemma recovery_works effect db : recovers db -> exists rs, recovery effect db = effect (set_recoveries rs db) /\ Forall (.= None) rs.
Proof.
  unfold recovers, recovery. destruct (recoveries db) as [|o rs] eqn:E; intros Hr.
  - exists []. split; [|done]. rewrite <- E. by destruct db.
  - apply Forall_cons in Hr as [-> Hr]. by exists rs.
Qed.

Lemma rollback_cases db old :
  saved db = Some old -> recovers db -> settled (rollback db) /\ same_rows (tables (rollback db)) old.
Proof.
  intros E Hr. unfold rollback. destruct (recovery_works mysql_rollback db Hr) as (rs & -> & Hrs). unfold mysql_rollback. simpl. rewrite E.
  destruct (recovery_works autocommit_on (set_saved (Some (rollback_rows old (tables db))) (set_tables (rollback_rows old (tables db)) (set_recoveries rs db))))
    as (rs' & -> & Hrs'); [done|]. split; [done|]. apply same_rows_rollback.
Qed.

(** Outside a transaction it changes nothing. *)
Lemma rollback_none db : saved db = None -> recovers db -> settled (rollback db) /\ quiet (rollback db) = quiet db.
Proof.
  intros E Hr. unfold rollback. destruct (recovery_works mysql_rollback db Hr) as (rs & -> & Hrs). unfold mysql_rollback. simpl. rewrite E.
  destruct (recovery_works autocommit_on (set_recoveries rs db)) as (rs' & -> & Hrs'); [done|]. split; [done|].
  unfold quiet, autocommit_on. destruct db; simpl in *. by subst.
Qed.

Lemma tx_step_or_rollback {A} (m : M Db A) :
  success_quiet m -> keeps_saved m -> tx_step (or_rollback m).
Proof.
  intros Qm Km. split; [by apply quiet_or_rollback|]. intros db old Hs.
  destruct (Km db) as [K1 K2]. rewrite Hs in K1. unfold or_rollback, recovers. rewrite <- K2.
  destruct (m db) as [[e|a] db']; simpl in *; [by apply rollback_cases|done].
Qed.

Lemma tx_step_ret {A} (a : A) : tx_step (mret a).
Proof. split; [apply quiet_ret|]. by intros db old. Qed.

Lemma tx_step_bind {A B} (m : M Db A) (k : A -> M Db B) :
  tx_step m -> (forall a, tx_step (k a)) -> tx_step (m ≫= k).
Proof.
  intros [Qm Hm] Hk. split; [apply quiet_bind; [done|apply Hk]|]. intros db old Hs.
  specialize (Hm db old Hs). unfold mbind, M_bind.
  destruct (m db) as [[e|a] db1]; [done|]. destruct Hm as [Hs1 Hr1]. unfold recovers. rewrite <- Hr1. by apply (Hk a).
Qed.

Lemma tx_rest_bind {A B} (m : M Db A) (k : A -> M Db B) :
  tx_step m -> (forall a, tx_rest (k a)) -> tx_rest (m ≫= k).
Proof.
  intros [Qm Hm] Hk. split; [apply quiet_bind; [done|apply Hk]|]. intros db old Hs.
  specialize (Hm db old Hs). unfold mbind, M_bind.
  destruct (m db) as [[e|a] db1] eqn:E; [tauto|]. rewrite (Qm _ _ _ E).
  destruct Hm as [Hs1 Hr1]. unfold recovers. rewrite <- Hr1. by apply (Hk a).
Qed.

Lemma tx_rest_if {A} (b : bool) (m1 m2 : M Db A) :
  tx_rest m1 -> tx_rest m2 -> tx_rest (if b then m1 else m2).
Proof. by destruct b. Qed.

(** After [mysql_commit] nothing is left to undo. *)
Lemma rollback_committed db : saved db = Some (tables db) -> recovers db ->
  settled (rollback db) /\ quiet (rollback db) = autocommit_on (quiet db).
Proof.
  intros E Hr. unfold rollback. destruct (recovery_works mysql_rollback db Hr) as (rs & -> & Hrs). unfold mysql_rollback. simpl. rewrite E.
  match goal with |- context [recovery _ ?d] => destruct (recovery_works autocommit_on d) as (rs' & -> & Hrs'); [done|] end.
  split; [done|]. unfold quiet, autocommit_on. destruct db as [t o f r k]. simpl in *. f_equal. by destruct t.
Qed.

(** [mysql_commit] fails, and switching autocommit on commits all the same; or it
    succeeds, and a failure of [mysql_autocommit] is only reported. *)
Lemma tx_rest_commit : tx_rest (or_rollback commit).
Proof.
  split; [apply quiet_or_rollback, quiet_commit|]. intros db old Hs.
  assert (or_rollback commit (quiet db) = (inr tt, autocommit_on (quiet db))) as Eq.
  { unfold or_rollback, commit, mysql_commit. cbn. by rewrite Hs. }
  destruct (or_rollback commit db) as [r db'] eqn:E. unfold or_rollback, commit in E.
  destruct (engine_step_cases db) as ([e|[]] & fs & Es); rewrite Es in E.
  - injection E as <- <-. intros Hr.
    destruct (recovery_works autocommit_on (set_faults fs db)) as (rs & -> & Hrs); [done|].
    destruct (rollback_none (autocommit_on (set_recoveries rs (set_faults fs db)))) as [G1 G2]; [done..|]. split; [done|].
    right. exists tt. by rewrite Eq, G2.
  - unfold mysql_commit in E. simpl saved in E. rewrite Hs in E. unfold mbind, M_bind in E.
    set (db1 := set_saved _ _) in E.
    destruct (engine_step_cases db1) as ([e|[]] & fs' & Es'); rewrite Es' in E; injection E as <- <-; [|done].
    intros Hr. destruct (rollback_committed (set_faults fs' db1)) as [G1 G2]; [done|done|]. split; [done|].
    right. exists tt. by rewrite Eq, G2.
Qed.

Lemma tx_rest_ret {A B} (m : M Db A) (b : B) : tx_rest m -> tx_rest (m ;; mret b).
Proof.
  intros [Qm Hm]. split; [apply quiet_bind; [done|intros; apply quiet_ret]|].
  intros db old Hs. specialize (Hm db old Hs). unfold mbind, M_bind.
  destruct (m db) as [[e|a] db1] eqn:E; [|done]. intros Hr. destruct (Hm Hr) as [? [?|[a Ha]]]; [tauto|].
  split; [done|]. right. exists b. by rewrite Ha.
Qed.

Lemma atomic_begin {A} (m : M Db A) : tx_rest m -> atomic (begin_tx ;; m).
Proof.
  intros [Qm Hm]. split; [apply quiet_bind; [apply quiet_begin|done]|]. intros db Hs.
  unfold begin_tx, mbind, M_bind, modify.
  destruct (engine_step_cases db) as ([e|[]] & fs & ->); simpl.
  { intros Hr. split; [done|]. by left. }
  unfold autocommit_off. simpl. rewrite Hs.
  exact (Hm (set_saved (Some (tables db)) (set_faults fs db)) (tables db) eq_refl).
Qed.

Lemma atomic_of_reads {A} (m : M Db A) : reads m -> atomic m.
Proof.
  intros [Qm Hm]. split; [done|]. intros db Hs. destruct (Hm db) as (Ht & H1 & H2).
  destruct (m db) as [[e|a] db']; simpl in *; [|by rewrite H1, Hs]. intros Hr. unfold settled, recovers. rewrite H1, H2, Ht.
  split; [done|]. by left.
Qed.

Lemma atomic_bind {A B} (m : M Db A) (k : A -> M Db B) :
  reads m -> (forall a, atomic (k a)) -> atomic (m ≫= k).
Proof.
  intros [Qm Hm] Hk. split; [apply quiet_bind; [done|apply Hk]|]. intros db Hs.
  unfold mbind, M_bind. destruct (Hm db) as (Ht1 & Hs1 & Hr1).
  destruct (m db) as [[e|a] db1] eqn:E; simpl in *.
  { intros Hr. unfold settled, recovers. rewrite Hs1, Hr1, Ht1. split; [done|by left]. }
  rewrite (Qm _ _ _ E). unfold recovers. rewrite <- Ht1, <- Hr1. apply (Hk a). congruence.
Qed.

Lemma atomic_lease {A} (m : M Db A) : atomic m -> atomic (lease m).
Proof. intros Hm. apply atomic_bind; [apply reads_step|done]. Qed.

Lemma atomic_get {B} (k : Db -> M Db B) :
  (forall db, k (quiet db) = k db) -> (forall db, atomic (k db)) -> atomic (get ≫= k).
Proof.
  intros Hq Hk. split.
  - intros db b db' H. change (k db db = (inr b, db')) in H.
    change (k (quiet db) (quiet db) = (inr b, quiet db')). rewrite Hq. by apply (Hk db).
  - intros db Hs. change ((get ≫= k) (quiet db)) with (k (quiet db) (quiet db)).
    rewrite Hq. by apply (Hk db).
Qed.

Lemma atomic_execute {A} (s : statement A) : atomic (execute_prepared s).
Proof.
  split; [apply quiet_execute|]. intros db Hs. pose proof (execute_cases s db) as H.
  destruct (execute_prepared s db) as [[e|a] db']; [|rewrite <- Hs; exact H].
  destruct H as (H1 & H2 & H3). intros Hr. unfold settled, recovers. rewrite H1, H2, H3. split; [done|by left].
Qed.

Lemma atomic_execute_ret {A B} (s : statement A) (f : A -> B) :
  atomic (a ← execute_prepared s; mret (f a)).
Proof.
  split; [apply quiet_bind; [apply quiet_execute|intros; apply quiet_ret]|]. intros db Hs.
  destruct (atomic_execute s) as [_ H]. specialize (H db Hs). unfold mbind, M_bind.
  pose proof (execute_cases s db) as Hc.
  destruct (execute_prepared s db) as [[e|a] db'] eqn:E; simpl in *; [|done].
  intros Hr. destruct (H Hr) as [H1 _]. destruct Hc as (-> & _). split; [done|]. by left.
Qed.

Lemma tx_step_deliveries insert id0 recipients :
  tx_step (insert_deliveries insert id0 recipients).
Proof.
  induction recipients as [|r rest IH]; simpl; [apply tx_step_ret|].
  apply tx_step_bind; [|done]. apply tx_step_or_rollback; [apply quiet_execute|apply keeps_execute].
Qed.

Create HintDb db_atomic.
#[export] Hint Resolve reads_step reads_ret reads_fail reads_reject reads_lift reads_serialize
  reads_query quiet_execute quiet_serialize quiet_reject keeps_execute keeps_reads
  tx_rest_commit tx_step_deliveries : db_atomic.

(** Walk through a method with the rules above: reads first, then one statement
    or one transaction. *)
Ltac walk_atomic :=
  cbv zeta;
  repeat lazymatch goal with
    | |- atomic (lease _) => apply atomic_lease
    | |- atomic (begin_tx ;; _) => apply atomic_begin
    | |- atomic (execute_prepared _) => apply atomic_execute
    | |- atomic (_ ← execute_prepared _; _) => apply atomic_execute_ret
    | |- atomic (get ≫= _) => apply atomic_get; [done|intros ?]
    | |- atomic (_ ≫= _) => apply atomic_bind; [|intros ?; cbv zeta]
    | |- atomic (insert_message_locked _) => fail
    | |- atomic _ => apply atomic_of_reads
    | |- reads (_ ≫= _) => apply reads_bind; [|intros ?]
    | |- tx_rest (or_rollback commit ;; _) => apply tx_rest_ret
    | |- tx_rest (_ ≫= _) => apply tx_rest_bind; [|intros ?; cbv zeta]
    | |- tx_rest (if _ then _ else _) => apply tx_rest_if
    | |- tx_step (or_rollback _) => apply tx_step_or_rollback
    | |- success_quiet (_ ≫= _) => apply quiet_bind; [|intros ?]
    | |- keeps_saved (_ ≫= _) => apply keeps_rows_bind; [|intros ?]
    end;
  auto with db_atomic.

Section Atomic.
Context `{SqlEngine} `{ProtoCodecs}.

Lemma required_group_id_reads g : reads (required_group_id g).
Proof. unfold required_group_id, group_id_by_name. walk_atomic. case_match; walk_atomic. Qed.

Lemma insert_message_locked_atomic p : atomic (insert_message_locked p).
Proof. unfold insert_message_locked. walk_atomic. Qed.

Lemma insert_message_locked_keeps p : keeps_saved (insert_message_locked p).
Proof. unfold insert_message_locked. walk_atomic. Qed.

Lemma run_call_atomic {A} (c : DbCall A) : atomic (run_call c).
Proof.
  destruct c; simpl; unfold user_exists, create_user, delete_user, get_password_hash, are_friends,
    is_friend_blocked, add_friend_block, remove_friend_block, list_blocked_friends,
    has_friend_request, add_friend_request, accept_friend_request, reject_friend_request,
    remove_friendship, list_friends, list_incoming_requests, list_outgoing_requests,
    add_friend_event, add_message, add_private_message_with_delivery, recent_public_messages,
    recent_private_messages, pending_private_messages, mark_private_message_delivered,
    create_group, get_group, dissolve_group, get_group_role, list_user_groups, list_group_members,
    list_group_member_usernames, has_group_join_request, add_group_join_request,
    list_group_join_requests, list_group_managers, list_managed_group_request_counts,
    approve_group_join_request, reject_group_join_request, set_group_member_role,
    remove_group_member, add_group_message, recent_group_messages, pending_group_messages,
    mark_group_message_delivered, add_file_transfer, pending_file_transfers,
    file_transfer_for_recipient, mark_file_transfer_delivered; walk_atomic.
  all: auto using required_group_id_reads, insert_message_locked_atomic,
    insert_message_locked_keeps.
  apply (proj1 (insert_message_locked_atomic p)).
Qed.
End Atomic.

(** A database with no rows, as the schema scripts leave it, with schedules of
    answers. *)
Definition new_db (answers ignored : list (option string)) (clock : Z) : Db := mkDb empty_tables None answers ignored clock.
Definition fresh_db (clock : Z) : Db := new_db [] [] clock.

Lemma run_call_settled `{SqlEngine} `{ProtoCodecs} {A} (c : DbCall A) db : settled db -> settled (run_call c db).2.
Proof.
  intros [Hs Hr]. destruct (run_call_atomic c) as [_ H1]. specialize (H1 db Hs).
  destruct (run_call c db) as [[e|a] db']; [by apply H1|]. destruct H1 as [H1 H2]. split; [done|]. unfold recovers. simpl. by rewrite H2.
Qed.

Lemma run_event_inv `{SqlEngine} `{ProtoCodecs} (e : Event) db : db_inv db -> db_inv (run_event e db).
Proof. intros Hi. by apply run_call_inv. Qed.

(** ** Theorems *)

(** C2: every method of the database layer is all or nothing.  Started outside a
    transaction, under any schedule of pool, statement, begin and commit
    failures: if it reports success, it has ended outside a transaction, and its
    result and the store are those of a run without failures; if it reports an
    error, and [mysql_rollback] and [mysql_autocommit] work when [rollback()] or a
    failed commit calls them, it has ended outside a transaction too, and the
    rows of the store are the old ones, or all changes of the method are
    committed (the failure came with or after the commit).  The proviso is
    needed: [failed_rollback_commits]. *)
Theorem call_all_or_nothing `{SqlEngine} `{ProtoCodecs} {A} (c : DbCall A) (db : Db) :
  saved db = None ->
  match run_call c db with
  | (inr a, db') => saved db' = None /\ run_call c (quiet db) = (inr a, quiet db')
  | (inl _, db') =>
      Forall (.= None) (recoveries db) ->
      saved db' = None /\
      (same_rows (tables db') (tables db) \/ exists a, run_call c (quiet db) = (inr a, quiet db'))
  end.
Proof.
  intros Hs. destruct (run_call_atomic c) as [Q H1]. specialize (H1 db Hs).
  destruct (run_call c db) as [[e|a] db'] eqn:E.
  - intros Hr. destruct (H1 Hr) as [[Hn _] He]. by split.
  - split; [apply H1|]. by apply Q.
Qed.

(** When [mysql_rollback] fails and [mysql_autocommit] does not, what the method had
    done is committed: an accepted friend request is gone, and there is no
    friendship. *)
Theorem failed_rollback_commits :
  let people := set_friend_requests [("ann", "bob")] (set_users [mkUser "ann" "x"; mkUser "bob" "y"] empty_tables) in
  let db := mkDb people None [None; None; None; Some "deadlock"] [Some "out of sync"] 0 in
  let r := @run_call ExampleCodec.example_engine ExampleCodec.example_codecs _ (AcceptFriendRequest "ann" "bob") db in
  r.1 = inl "deadlock" /\ saved r.2 = None /\ friend_requests (tables r.2) = [] /\ friendships (tables r.2) = [].
Proof. by vm_compute. Qed.

(** When neither works, the connection goes back to the pool inside a transaction. *)
Theorem failed_rollback_stays_open :
  let db := mkDb (set_users [mkUser "ann" "x"] empty_tables) None [None; None; None; Some "deadlock"] [Some "lost"; Some "lost"] 0 in
  let r := @run_call ExampleCodec.example_engine ExampleCodec.example_codecs _ (CreateGroup "crew" "ann") db in
  r.1 = inl "deadlock" /\ saved r.2 = Some (tables db) /\ length (chat_groups (tables r.2)) = 1.
Proof. by vm_compute. Qed.

(** The statement at a group creation whose second insertion fails. *)
Lemma call_all_or_nothing_witness :
  let db := mkDb (set_users [mkUser "ann" "x"] empty_tables) None
              [None; None; None; Some "lost connection"] [None; None] 0 in
  let r := @run_call ExampleCodec.example_engine ExampleCodec.example_codecs _
             (CreateGroup "crew" "ann") db in
  saved db = None /\ r.1 = inl "lost connection" /\ saved r.2 = None.
Proof.
  split; [reflexivity|]. split; [vm_compute; reflexivity|].
  refine (proj1 (@call_all_or_nothing ExampleCodec.example_engine ExampleCodec.example_codecs _
    (CreateGroup "crew" "ann") (mkDb (set_users [mkUser "ann" "x"] empty_tables) None
              [None; None; None; Some "lost connection"] [None; None] 0) eq_refl _)). by repeat constructor.
Defined.

(** C5: referential integrity.  From an empty database, any history of calls of
    the database layer, each under its own schedules of engine failures, those
    of the ignored calls included, leaves a store that satisfies every key,
    foreign key and CHECK constraint of the schema; and no transaction is left
    open unless one of the ignored calls fails. *)
Theorem history_integrity `{SqlEngine} `{ProtoCodecs} (h : list Event) (clock : Z) :
  integrity (tables (run_history h (fresh_db clock))) /\
  (Forall (fun e => Forall (.= None) (ev_recoveries e)) h -> saved (run_history h (fresh_db clock)) = None).
Proof.
  split.
  - assert (forall db, db_inv db -> db_inv (run_history h db)) as Hh.
    { induction h as [|e h IH]; intros db Hdb; [done|]. apply IH. by apply run_event_inv. }
    refine (proj1 (Hh (fresh_db clock) _)). split; [apply empty_integrity|by intros old].
  - assert (saved (fresh_db clock) = None) as Hs by done. revert Hs. generalize (fresh_db clock).
    induction h as [|e h IH]; intros db Hs Hf; [done|]. apply Forall_cons in Hf as [He Hf]. apply IH; [|done].
    by apply run_call_settled.
Qed.

(** A group whose creation fails half way leaves no transaction open. *)
Lemma history_integrity_witness :
  let h := [mkEvent _ (CreateUser "ann" "x") [] [];
            mkEvent _ (CreateGroup "crew" "ann") [None; None; None; Some "lost connection"] [None; None]] in
  users (tables (run_history (H := ExampleCodec.example_engine) (H0 := ExampleCodec.example_codecs) h (fresh_db 0))) = [mkUser "ann" "x"] /\
  saved (run_history (H := ExampleCodec.example_engine) (H0 := ExampleCodec.example_codecs) h (fresh_db 0)) = None.
Proof.
  intros h. split; [vm_compute; reflexivity|].
  apply (@history_integrity ExampleCodec.example_engine ExampleCodec.example_codecs h 0). by repeat constructor.
Defined.
End Transactions.
