(* ===== verification/DatabaseProps.v ===== *)
(** * What the methods of the database layer promise

    Functional properties of [Database]: friendships, blocks, accounts, the
    offline queues of private and group messages, groups and their members.
    Each is stated for every run that reports success, whatever the schedule of
    engine failures, and speaks about the answers of later queries. *)
From S2P Require Import Prelude Payloads Tables ExampleCodec Database Integrity Transactions.
Import Payloads Tables Database Integrity Transactions.

Module DatabaseProps.

(** The answer of a query when the engine answers. *)
Definition ask {A} (m : M Db A) (db : Db) : string + A := (m (quiet db)).1.

(** ** Runs of single statements *)

Lemma step_inr db u db' :
  engine_step db = (inr u, db') -> tables db' = tables db /\ saved db' = saved db.
Proof. intros H. destruct (engine_step_cases db) as (r & fs & E). rewrite E in H. by injection H as _ <-. Qed.

Lemma lease_inr {A} (m : M Db A) db a db' :
  lease m db = (inr a, db') -> exists db1, tables db1 = tables db /\ saved db1 = saved db /\
    m db1 = (inr a, db').
Proof.
  unfold lease. intros (u & db1 & H1 & H2)%bind_inr. apply step_inr in H1 as [].
  by exists db1.
Qed.

Lemma query_inr {A} (q : Tables -> A) db a db' :
  query_prepared q db = (inr a, db') ->
  a = q (tables db) /\ tables db' = tables db /\ saved db' = saved db.
Proof.
  unfold query_prepared. intros (u & db1 & H1 & H2)%bind_inr. apply step_inr in H1 as [H3 H4].
  injection H2 as <- <-. by rewrite H3.
Qed.

Lemma execute_inr {A} (s : statement A) db a db' :
  execute_prepared s db = (inr a, db') ->
  s (tables db) = inr (a, tables db') /\ saved db' = saved db.
Proof.
  unfold execute_prepared. intros (u & db1 & H1 & H2)%bind_inr. apply step_inr in H1 as [H3 H4].
  rewrite H3 in H2. destruct (s (tables db)) as [e|[x t]]; [done|]. by injection H2 as <- <-.
Qed.

Lemma change_inr {A} (f : Tables -> A * Tables) db a db' :
  execute_prepared (change f) db = (inr a, db') ->
  a = (f (tables db)).1 /\ tables db' = (f (tables db)).2 /\ saved db' = saved db.
Proof.
  intros [[= H] ?]%execute_inr. by rewrite H.
Qed.

Lemma or_rollback_inr {A} (m : M Db A) db a db' :
  or_rollback m db = (inr a, db') -> m db = (inr a, db').
Proof. unfold or_rollback. by destruct (m db) as [[e|x] db1]. Qed.

Lemma begin_inr db u db' : begin_tx db = (inr u, db') -> tables db' = tables db.
Proof.
  unfold begin_tx, autocommit_off. intros (v & db1 & H1 & H2)%bind_inr. apply step_inr in H1 as [H3 H4].
  injection H2 as <- <-. by destruct (saved db1).
Qed.

Lemma commit_inr db u db' : commit db = (inr u, db') -> tables db' = tables db.
Proof.
  unfold commit, mysql_commit. destruct (engine_step db) as [[e|v] db1] eqn:H1; [done|]. apply step_inr in H1 as [H3 H4].
  intros ([] & db2 & H2 & H5)%bind_inr. apply step_inr in H2 as [H5' _]. injection H5 as _ <-. simpl.
  rewrite H5'. by destruct (saved db1).
Qed.

Lemma reject_inr {S} b e (s s' : S) u :
  reject_if b e s = (inr u, s') -> b = false /\ s' = s.
Proof. destruct b; [done|]. by intros [= _ <-]. Qed.

Lemma serialize_inr {A} `{ProtoCodec A} what (a : A) db b db' :
  serialize what a db = (inr b, db') -> SerializeToString a = Some b /\ db' = db.
Proof. unfold serialize. destruct (SerializeToString a); [|done]. by intros [= <- <-]. Qed.

Lemma ret_inr {S A} (a b : A) (s s' : S) : (mret a : M S A) s = (inr b, s') -> a = b /\ s = s'.
Proof. by intros [= -> ->]. Qed.

(** Open a successful run: one equation per statement of the method. *)
Ltac run H :=
  repeat (cbv zeta in H; lazymatch type of H with
  | lease _ _ = (inr _, _) =>
      let db := fresh "db" in let E := fresh "E" in
      apply lease_inr in H as (db & E & _ & H)
  | (_ ≫= _) _ = (inr _, _) =>
      let a := fresh "a" in let db := fresh "db" in let H1 := fresh "R" in
      apply bind_inr in H as (a & db & H1 & H); run H1
  | or_rollback _ _ = (inr _, _) => apply or_rollback_inr in H
  | begin_tx _ = (inr _, _) => apply begin_inr in H
  | commit _ = (inr _, _) => apply commit_inr in H
  | execute_prepared (change _) _ = (inr _, _) =>
      let E := fresh "E" in apply change_inr in H as (E & H & _); simpl in E, H
  | execute_prepared _ _ = (inr _, _) => apply execute_inr in H as [H _]
  | query_prepared _ _ = (inr _, _) =>
      let E := fresh "E" in apply query_inr in H as (E & H & _)
  | reject_if _ _ _ = (inr _, _) =>
      let N := fresh "N" in apply reject_inr in H as [N ->]
  | serialize _ _ _ = (inr _, _) =>
      let E := fresh "E" in apply serialize_inr in H as [E ->]
  | insert_message_locked _ _ = (inr _, _) => unfold insert_message_locked in H
  | mret _ _ = (inr _, _) => apply ret_inr in H as [<- <-]
  end).

(** Follow the equations of a run back to the tables it started from. *)
Ltac chase :=
  repeat match goal with H : tables ?d = _ |- context [tables ?d] => rewrite H end.

(** A successful INSERT: its result and the new tables. *)
Ltac inserted H :=
  let T := fresh "T" in
  destruct (insert_row_ok _ _ _ _ _ H) as (_ & _ & _ & T); clear H; injection T as T H;
  match type of T with ?x = _ => try subst x end.

(** ** Friendships *)

Definition friends (t : Tables) (a b : string) : bool :=
  let pair := normalize_pair a b in exists_row (is_pair pair.1 pair.2) (friendships t).

Lemma normalize_pair_comm a b : normalize_pair a b = normalize_pair b a.
Proof.
  unfold normalize_pair. destruct (String.leb a b) eqn:E1, (String.leb b a) eqn:E2; try done.
  - by rewrite (String.leb_antisym a b E1 E2).
  - destruct (String.leb_total a b); congruence.
Qed.

Lemma friends_sym t a b : friends t a b = friends t b a.
Proof. unfold friends. by rewrite normalize_pair_comm. Qed.

Lemma ask_are_friends a b db : ask (are_friends a b) db = inr (friends (tables db) a b).
Proof. done. Qed.

Lemma friends_eq t a b :
  friends t a b = exists_row (is_pair (normalize_pair a b).1 (normalize_pair a b).2) (friendships t).
Proof. done. Qed.

Lemma ask_has_request a b db :
  ask (has_friend_request a b) db = inr (exists_row (is_pair a b) (friend_requests (tables db))).
Proof. done. Qed.

Lemma ask_is_blocked a b db :
  ask (is_friend_blocked a b) db = inr (exists_row (is_pair a b) (friend_blocks (tables db))).
Proof. done. Qed.

Lemma exists_row_snoc {A} (p : A -> bool) rows r :
  exists_row p (rows ++ [r]) = exists_row p rows || p r.
Proof. unfold exists_row. rewrite existsb_app. simpl. by rewrite orb_false_r. Qed.

Lemma exists_row_delete {A} (p q : A -> bool) rows :
  (forall r, p r = true -> q r = true) -> exists_row p (delete_where q rows) = false.
Proof.
  intros Hpq. apply exists_row_false. intros r [_ Hr]%elem_of_delete.
  destruct (p r) eqn:E; [|done]. apply Hpq in E. congruence.
Qed.

Lemma exists_row_delete_other {A} (p q : A -> bool) rows :
  (forall r, p r = true -> q r = false) -> exists_row p (delete_where q rows) = exists_row p rows.
Proof.
  intros Hpq. apply Bool.eq_true_iff_eq. rewrite !exists_row_true.
  setoid_rewrite elem_of_delete.
  split; intros (r & Hr & Hp); exists r; [tauto|auto].
Qed.

(** With unique keys at most one row matches. *)
Lemma count_select {A K} (key : A -> K) (p : A -> bool) rows :
  (forall r r', p r = true -> p r' = true -> key r = key r') -> NoDup (map key rows) ->
  (Z.of_nat (length (select_where p rows)) =? 1)%Z = exists_row p rows.
Proof.
  intros Hk. induction rows as [|r rows IH]; simpl; [done|]. rewrite NoDup_cons.
  intros [Hr Hn]. unfold select_where in *. simpl. destruct (p r) eqn:E; simpl; [|auto].
  assert (List.filter p rows = []) as ->; [|done].
  destruct (List.filter p rows) as [|x l] eqn:F; [done|]. exfalso.
  assert (x ∈ List.filter p rows) as Hx by (rewrite F; left).
  apply list_elem_of_In, filter_In in Hx as [Hx Hp]. apply Hr. rewrite (Hk r x E Hp).
  apply list_elem_of_fmap_2. by apply list_elem_of_In.
Qed.

Lemma count_pair a b rows :
  NoDup (map id rows) ->
  (Z.of_nat (length (select_where (is_pair a b) rows)) =? 1)%Z = exists_row (is_pair a b) rows.
Proof.
  intros Hn. apply (count_select id); [|done]. intros r r' H1 H2.
  apply is_pair_spec in H1, H2. by subst.
Qed.

(** ** ORDER BY *)

#[export] Instance by_num_total {A} (key : A -> Z) : Total (by_num key).
Proof. intros a b. unfold by_num. lia. Qed.
#[export] Instance by_num_trans {A} (key : A -> Z) : Transitive (by_num key).
Proof. intros a b c. unfold by_num. lia. Qed.

Definition key_inj {A} (key : A -> Z) (rows : list A) : Prop :=
  forall x y, x ∈ rows -> y ∈ rows -> key x = key y -> x = y.

Lemma NoDup_inj {A K} (key : A -> K) rows x y :
  NoDup (map key rows) -> x ∈ rows -> y ∈ rows -> key x = key y -> x = y.
Proof.
  revert x y. induction rows as [|r rows IH]; simpl; [intros x y _ Hx; by apply elem_of_nil in Hx|].
  intros x y.
  rewrite NoDup_cons. intros [Hr Hn] Hx Hy Hk.
  apply elem_of_cons in Hx as [->|Hx]; apply elem_of_cons in Hy as [->|Hy]; [done|..].
  - destruct Hr. rewrite Hk. by apply list_elem_of_fmap_2.
  - destruct Hr. rewrite <- Hk. by apply list_elem_of_fmap_2.
  - by apply IH.
Qed.

Lemma NoDup_key_inj {A} (key : A -> Z) rows : NoDup (map key rows) -> key_inj key rows.
Proof. intros Hn x y. by apply NoDup_inj. Qed.

Lemma order_by_unique {A} (key : A -> Z) (l l' : list A) :
  key_inj key l -> Sorted (by_num key) l' -> l' ≡ₚ l -> order_by (by_num key) l = l'.
Proof.
  intros Hk Hs Hp. unfold order_by.
  assert (merge_sort (by_num key) l ≡ₚ l) as Hm by apply merge_sort_Permutation.
  apply (Sorted_unique_strong (by_num key)).
  - intros x y. rewrite Hm, Hp. unfold by_num. intros Hx Hy H1 H2. apply Hk; [done|done|lia].
  - apply (Sorted_merge_sort _).
  - done.
  - by rewrite Hm, Hp.
Qed.

Lemma order_by_perm {A} (R : relation A) `{!RelDecision R} (l : list A) : order_by R l ≡ₚ l.
Proof. apply merge_sort_Permutation. Qed.

Lemma order_by_sorted {A} (R : relation A) `{!RelDecision R} `{!Total R} (l : list A) :
  Sorted R (order_by R l).
Proof. apply (Sorted_merge_sort _). Qed.

(** A row with the largest key comes last. *)
Lemma order_by_snoc {A} (key : A -> Z) (l : list A) x :
  key_inj key (l ++ [x]) -> (forall y, y ∈ l -> (key y < key x)%Z) ->
  order_by (by_num key) (l ++ [x]) = order_by (by_num key) l ++ [x].
Proof.
  intros Hk Hx. apply order_by_unique; [done| |by rewrite order_by_perm].
  apply StronglySorted_Sorted, StronglySorted_app_2.
  - intros y z Hy Hz. apply list_elem_of_singleton in Hz as ->. rewrite order_by_perm in Hy.
    specialize (Hx y Hy). unfold by_num. lia.
  - apply Sorted_StronglySorted; [apply _|]. apply (order_by_sorted _).
  - repeat constructor.
Qed.

Lemma filter_sorted {A} (R : relation A) `{!Transitive R} (p : A -> bool) (l : list A) :
  Sorted R l -> Sorted R (List.filter p l).
Proof.
  intros Hs. apply StronglySorted_Sorted. apply Sorted_StronglySorted in Hs; [|done].
  induction Hs as [|x l Hs IH Hx]; simpl; [constructor|]. destruct (p x); [|done].
  constructor; [done|]. rewrite Forall_forall in *. intros y Hy. apply Hx.
  by apply list_elem_of_In, filter_In in Hy as [?%list_elem_of_In _].
Qed.

Lemma filter_perm {A} (p : A -> bool) (l l' : list A) :
  l ≡ₚ l' -> List.filter p l ≡ₚ List.filter p l'.
Proof.
  induction 1 as [|x l1 l2 _ IH|x y l1|l1 l2 l3 _ IH1 _ IH2]; simpl.
  - done.
  - destruct (p x); [by constructor|done].
  - destruct (p x), (p y); try done. apply perm_swap.
  - by transitivity (List.filter p l2).
Qed.

(** Selecting before or after sorting is the same. *)
Lemma order_by_filter {A} (key : A -> Z) (p : A -> bool) (l : list A) :
  key_inj key l -> order_by (by_num key) (List.filter p l) = List.filter p (order_by (by_num key) l).
Proof.
  intros Hk. apply order_by_unique.
  - intros x y Hx Hy. apply list_elem_of_In, filter_In in Hx as [Hx%list_elem_of_In _].
    apply list_elem_of_In, filter_In in Hy as [Hy%list_elem_of_In _]. by apply Hk.
  - apply filter_sorted; [apply _|]. apply (order_by_sorted _).
  - apply filter_perm, order_by_perm.
Qed.

(** ** The offline queues *)

Section Queue.
Context {A : Type} (key : A -> Z).
Implicit Types (ds : list DeliveryRow) (rows : list A) (keep : A -> bool).

Lemma elem_of_join keep recipient ds rows x :
  x ∈ join_pending key keep recipient ds rows <->
  x ∈ rows /\ keep x = true /\ exists d, d ∈ ds /\ d_id d = key x /\ pending recipient d = true.
Proof.
  unfold join_pending. rewrite list_elem_of_In, in_flat_map. split.
  - intros (d & Hd & Hx). apply list_elem_of_In, elem_of_select in Hd as [Hd Hp].
    apply list_elem_of_In, elem_of_select in Hx as [Hx Hk]. case_bools. split; [done|].
    split; [done|]. by exists d.
  - intros (Hx & Hk & d & Hd & Hi & Hp). exists d. rewrite <- !list_elem_of_In, !elem_of_select.
    rewrite Hi, Z.eqb_refl, Hk. done.
Qed.

Lemma join_key_inj keep recipient ds rows :
  key_inj key rows -> key_inj key (join_pending key keep recipient ds rows).
Proof. intros Hk x y Hx Hy. apply elem_of_join in Hx, Hy. apply Hk; tauto. Qed.

Lemma select_app {B} (p : B -> bool) l l' : select_where p (l ++ l') = select_where p l ++ select_where p l'.
Proof. apply List.filter_app. Qed.

Lemma select_none {B} (p : B -> bool) l : (forall x, x ∈ l -> p x = false) -> select_where p l = [].
Proof.
  induction l as [|x l IH]; intros H; [done|]. unfold select_where in *. simpl.
  rewrite (H x) by left. apply IH. intros y Hy. apply H. by right.
Qed.

Lemma flat_map_ext_in {B C} (f g : B -> list C) l :
  (forall x, x ∈ l -> f x = g x) -> flat_map f l = flat_map g l.
Proof.
  induction l as [|x l IH]; intros H; simpl; [done|]. rewrite (H x) by left. f_equal.
  apply IH. intros y Hy. apply H. by right.
Qed.

(** New deliveries of a new row: the row is appended to the queue once for
    each of them that is for [recipient]. *)
Lemma join_push keep recipient ds rows x new :
  map d_id ds ⊆ map key rows -> Forall (fun y => (key y < key x)%Z) rows ->
  Forall (fun d => d_id d = key x) new ->
  join_pending key keep recipient (ds ++ new) (rows ++ [x]) =
  join_pending key keep recipient ds rows ++
    flat_map (fun d => if keep x then [x] else []) (select_where (pending recipient) new).
Proof.
  intros Hfk Hmax Hd. rewrite Forall_forall in Hmax. rewrite Forall_forall in Hd. unfold join_pending.
  rewrite select_app, flat_map_app. f_equal; apply flat_map_ext_in; intros e [He _]%elem_of_select;
    rewrite select_app.
  - rewrite (select_none _ [x]); [by rewrite app_nil_r|].
    intros y ->%list_elem_of_singleton. apply andb_false_iff. left. apply Z.eqb_neq.
    assert (d_id e ∈ map key rows) as Hin by (apply Hfk; by apply list_elem_of_fmap_2).
    apply list_elem_of_fmap in Hin as (z & Hz & Hin). specialize (Hmax z Hin). simpl in Hmax. lia.
  - rewrite select_none; simpl; [by rewrite (Hd e He), Z.eqb_refl|].
    intros y Hy. apply andb_false_iff. left. apply Z.eqb_neq.
    specialize (Hmax y Hy). specialize (Hd e He). simpl in Hmax, Hd. lia.
Qed.

(** The deliveries one [insert_deliveries] writes. *)
Definition deliveries_for (id0 : Z) (recipients : list string) : list DeliveryRow :=
  map (fun r => mkDelivery id0 r None) recipients.

Lemma deliveries_for_ids id0 recipients :
  Forall (fun d => d_id d = id0) (deliveries_for id0 recipients).
Proof. apply Forall_forall. by intros d (r & -> & _)%list_elem_of_fmap. Qed.

Lemma select_deliveries_for id0 who recipients :
  NoDup recipients ->
  select_where (pending who) (deliveries_for id0 recipients) =
  if bool_decide (who ∈ recipients) then [mkDelivery id0 who None] else [].
Proof.
  induction recipients as [|r rest IH]; [done|]. rewrite NoDup_cons. intros [Hr Hn].
  unfold select_where in *. simpl. unfold pending at 1. simpl. rewrite andb_true_r, IH by done.
  destruct (r =s? who) eqn:E; case_bools; [subst r|].
  - rewrite bool_decide_false, bool_decide_true by (done || by left). done.
  - rewrite (bool_decide_ext (who ∈ r :: rest) (who ∈ rest)); [done|].
    rewrite elem_of_cons. split; [intros [->|]; [done|done]|tauto].
Qed.

Lemma pending_delivered who id0 r at_ms : pending who (mkDelivery id0 r (Some at_ms)) = false.
Proof. unfold pending. simpl. apply andb_false_r. Qed.

(** Marking a delivery takes its row out of the queue of [recipient]. *)
Lemma select_mark id0 recipient who at_ms ds :
  select_where (pending who) (map (mark_delivered id0 recipient at_ms) ds) =
  List.filter (fun d => negb ((who =s? recipient) && (d_id d =? id0)%Z)) (select_where (pending who) ds).
Proof.
  unfold select_where. induction ds as [|d ds IH]; simpl; [done|].
  destruct ((d_id d =? id0)%Z && pending recipient d) eqn:E;
    unfold mark_delivered at 1 2; rewrite E.
  - rewrite pending_delivered, IH.
    destruct (pending who d) eqn:P; [|done]. simpl. unfold pending in *. case_bools. subst.
    by rewrite String.eqb_refl, Z.eqb_refl.
  - rewrite IH. destruct (pending who d) eqn:P; [|done]. simpl.
    destruct (who =s? recipient) eqn:W; [|done]. case_bools. subst who. rewrite P, andb_true_r in E.
    by rewrite E.
Qed.

Lemma filter_filter {B} (p q : B -> bool) l :
  List.filter p (List.filter q l) = List.filter (fun x => q x && p x) l.
Proof. induction l as [|x l IH]; simpl; [done|]. destruct (q x); simpl; [|done]. destruct (p x); by rewrite IH. Qed.

Lemma join_mark keep id0 recipient who at_ms ds rows :
  join_pending key keep who (map (mark_delivered id0 recipient at_ms) ds) rows =
  List.filter (fun x => negb ((who =s? recipient) && (key x =? id0)%Z))
    (join_pending key keep who ds rows).
Proof.
  unfold join_pending. rewrite select_mark.
  induction (select_where (pending who) ds) as [|d l IH]; simpl; [done|].
  rewrite List.filter_app, <- IH. destruct ((who =s? recipient) && (d_id d =? id0)%Z) eqn:E; simpl.
  - replace (List.filter _ (select_where _ rows)) with (@nil A); [done|].
    symmetry. apply select_none. intros x [Hx Hk]%elem_of_select.
    apply andb_true_iff in Hk as [Hk%Z.eqb_eq _]. apply negb_false_iff. by rewrite Hk.
  - f_equal. unfold select_where. rewrite filter_filter. apply List.filter_ext. intros x.
    destruct (key x =? d_id d)%Z eqn:K; [|done]. apply Z.eqb_eq in K. rewrite K, E. simpl.
    by rewrite andb_true_r.
Qed.

(** The queue of a recipient, oldest first. *)
Definition queue keep recipient ds rows : list A :=
  order_by (by_num key) (join_pending key keep recipient ds rows).

Lemma queue_push keep who ds rows x recipients :
  map d_id ds ⊆ map key rows -> NoDup (map key rows) ->
  Forall (fun y => (key y < key x)%Z) rows -> NoDup recipients ->
  queue keep who (ds ++ deliveries_for (key x) recipients) (rows ++ [x]) =
  queue keep who ds rows ++ (if bool_decide (who ∈ recipients) && keep x then [x] else []).
Proof.
  intros Hfk Hn Hmax Hr. unfold queue.
  rewrite join_push, select_deliveries_for by auto using deliveries_for_ids.
  case_bool_decide; simpl; [|by rewrite !app_nil_r]. rewrite app_nil_r.
  destruct (keep x); [|by rewrite !app_nil_r]. apply order_by_snoc.
  - intros y z Hy Hz. apply (NoDup_key_inj key (rows ++ [x])).
    + apply NoDup_snoc; [done|]. by apply fresh_id.
    + rewrite elem_of_app in Hy |- *. destruct Hy as [Hy|]; [|by right]. apply elem_of_join in Hy. tauto.
    + rewrite elem_of_app in Hz |- *. destruct Hz as [Hz|]; [|by right]. apply elem_of_join in Hz. tauto.
  - rewrite Forall_forall in Hmax. intros y Hy. apply elem_of_join in Hy. apply Hmax. tauto.
Qed.

Lemma queue_mark keep id0 recipient who at_ms ds rows :
  NoDup (map key rows) ->
  queue keep who (map (mark_delivered id0 recipient at_ms) ds) rows =
  List.filter (fun x => negb ((who =s? recipient) && (key x =? id0)%Z)) (queue keep who ds rows).
Proof.
  intros Hn. unfold queue. rewrite join_mark. apply order_by_filter.
  apply join_key_inj, NoDup_key_inj, Hn.
Qed.
End Queue.

(** Accepting a friend request consumes it and makes the two users friends,
    whichever of the two asks. *)
Theorem accept_makes_friends `{SqlEngine} requester target db db' :
  db_inv db ->
  accept_friend_request requester target db = (inr tt, db') ->
  ask (has_friend_request requester target) db = inr true /\
  ask (has_friend_request requester target) db' = inr false /\
  ask (are_friends requester target) db' = inr true /\
  ask (are_friends target requester) db' = inr true.
Proof.
  intros [Hi _] Hrun. unfold accept_friend_request in Hrun. run Hrun.
  injection R1 as Ha Ht3. rewrite R, E in Ha, Ht3.
  apply negb_false_iff, Z.eqb_eq in N.
  inserted R0.
  rewrite !ask_are_friends, !ask_has_request, (friends_sym _ target), friends_eq, Hrun, R0.
  simpl. rewrite exists_row_snoc, <- Ht3. simpl.
  rewrite (proj2 (is_pair_spec _ _ _) eq_refl), orb_true_r.
  rewrite <- (count_pair requester target _ (requests_pk _ Hi)), Ha, N, Z.eqb_refl.
  by rewrite exists_row_delete.
Qed.

(** Ending a friendship.  The method reports whether the two were friends;
    afterwards they are not, and if they were, neither blocks the other any
    more, and the rest of the block list is untouched. *)
Theorem remove_friendship_effect `{SqlEngine} left right db removed db' :
  db_inv db ->
  remove_friendship left right db = (inr removed, db') ->
  ask (are_friends left right) db = inr removed /\
  ask (are_friends left right) db' = inr false /\
  (removed = true ->
     ask (is_friend_blocked left right) db' = inr false /\
     ask (is_friend_blocked right left) db' = inr false) /\
  (forall a b, (a, b) <> (left, right) -> (a, b) <> (right, left) ->
     ask (is_friend_blocked a b) db' = ask (is_friend_blocked a b) db).
Proof.
  intros [Hi _] Hrun. unfold remove_friendship in Hrun. run Hrun.
  rewrite R, E in E0, R0. clear R E.
  assert ((a0 =? 1)%Z = friends (tables db) left right) as Hf.
  { subst a0. apply count_pair. apply friendships_pk, Hi. }
  rewrite Hf in Hrun. clear Hf E0.
  assert (removed = friends (tables db) left right /\
    friendships (tables db') = friendships (tables db2) /\
    friend_blocks (tables db') =
      if removed then delete_where (fun r => is_pair left right r || is_pair right left r)
                        (friend_blocks (tables db))
      else friend_blocks (tables db)) as (-> & Hff & Hb).
  { destruct (friends (tables db) left right) eqn:F; simpl in Hrun; run Hrun.
    all: chase; done. }
  rewrite !ask_are_friends, (friends_eq (tables db')), Hff, R0. simpl. rewrite exists_row_delete by done.
  do 2 (split; [done|]). split.
  - intros F. rewrite !ask_is_blocked, Hb, F.
    rewrite !exists_row_delete; [done|..]; intros r ->; by rewrite ?orb_true_r.
  - intros a1 b H1 H2. rewrite !ask_is_blocked, Hb. destruct (friends _ _ _); [|done].
    rewrite exists_row_delete_other; [done|]. intros r ->%is_pair_spec.
    apply orb_false_iff. split; apply not_true_iff_false; rewrite is_pair_spec; congruence.
Qed.

(** ** Reading a queue through the codec *)

Section Decode.
Context {A : Type} `{ProtoCodec A}.

Lemma decode_rows_app error l l' :
  decode_rows error (l ++ l') =
  match decode_rows error l with
  | inl e => inl e
  | inr x => match decode_rows error l' with inl e => inl e | inr y => inr (x ++ y) end
  end.
Proof.
  induction l as [|[id0 bytes] l IH]; simpl; [by destruct (decode_rows error l')|].
  destruct (ParseFromArray bytes); [|done]. rewrite IH.
  destruct (decode_rows error l); [done|]. by destruct (decode_rows error l').
Qed.

Lemma decode_rows_ids error l x : decode_rows error l = inr x -> map fst x = map fst l.
Proof.
  revert x. induction l as [|[id0 bytes] l IH]; intros x; simpl; [by intros [= <-]|].
  destruct (ParseFromArray bytes); [|done]. destruct (decode_rows error l); [done|].
  intros [= <-]. simpl. f_equal. auto.
Qed.

Lemma decode_rows_length error l x : decode_rows error l = inr x -> length x = length l.
Proof. intros E%decode_rows_ids. by rewrite <- (length_map fst x), E, length_map. Qed.

Lemma decode_rows_filter error (p : Z -> bool) l x :
  decode_rows error l = inr x ->
  decode_rows error (List.filter (fun r => p r.1) l) = inr (List.filter (fun r => p r.1) x).
Proof.
  revert x. induction l as [|[id0 bytes] l IH]; intros x; simpl; [by intros [= <-]|].
  destruct (ParseFromArray bytes) eqn:E; [|done]. destruct (decode_rows error l) eqn:D; [done|].
  intros [= <-]. simpl. specialize (IH _ eq_refl).
  destruct (p id0); simpl; [by rewrite E, IH|done].
Qed.

(** A SELECT whose rows are decoded, as a function of the tables. *)
Lemma ask_decoded {B} (q : Tables -> list (Z * string)) error (f : list (Z * A) -> B) db :
  ask (lease (rows ← query_prepared q; l ← lift_sum (decode_rows error rows); mret (f l))) db =
  match decode_rows error (q (tables db)) with inl e => inl e | inr l => inr (f l) end.
Proof.
  unfold ask, lease, query_prepared, mbind, M_bind. simpl.
  by destruct (decode_rows error (q (tables db))).
Qed.
End Decode.

Section Offline.
Context `{SqlEngine} `{ProtoCodecs}.

Definition not_blocked_by (t : Tables) (recipient : string) (m : MessageRow) : bool :=
  negb (exists_row (is_pair recipient (m_sender m)) (friend_blocks t)).

(** The undelivered private messages of a user, oldest first. *)
Definition private_queue (t : Tables) (recipient : string) : list MessageRow :=
  queue m_id (not_blocked_by t recipient) recipient (private_message_deliveries t) (messages t).

Definition private_error : string := "离线消息解码失败：private message".

Definition decode_messages (rows : list (Z * string)) : string + list StoredMessage :=
  match decode_rows private_error rows with
  | inl e => inl e
  | inr l => inr (stored_messages l)
  end.

Lemma ask_pending_private recipient n db :
  ask (pending_private_messages recipient n) db =
  decode_messages (map (fun m => (m_id m, m_payload m)) (limit n (private_queue (tables db) recipient))).
Proof. exact (ask_decoded _ _ _ _). Qed.

Lemma limit_short {A} n (l l' : list A) :
  (Z.of_nat (length (limit n l)) < n)%Z -> limit n (l ++ l') = l ++ limit (n - Z.of_nat (length l)) l'.
Proof.
  unfold limit. rewrite length_take. intros Hn. rewrite take_app, take_ge by lia. f_equal. f_equal. lia.
Qed.

Lemma limit_ge {A} n (l : list A) : (Z.of_nat (length l) <= n)%Z -> limit n l = l.
Proof. unfold limit. intros Hn. apply take_ge. lia. Qed.

Lemma filter_map {A B} (f : A -> B) (p : B -> bool) l :
  List.filter p (map f l) = map f (List.filter (fun x => p (f x)) l).
Proof. induction l as [|x l IH]; simpl; [done|]. rewrite IH. by destruct (p (f x)). Qed.

Lemma filter_true {A} (l : list A) : List.filter (fun _ => true) l = l.
Proof. induction l as [|x l IH]; simpl; by rewrite ?IH. Qed.

Lemma limit_all {A} n (l : list A) : (Z.of_nat (length (limit n l)) < n)%Z -> limit n l = l.
Proof. unfold limit. rewrite length_take. intros Hn. apply take_ge. lia. Qed.


Lemma add_private_tables p db id0 db' :
  add_private_message_with_delivery p db = (inr id0, db') ->
  exists bytes, SerializeToString p = Some bytes /\ id0 = next_message_id (tables db) /\
    messages (tables db') = messages (tables db) ++
      [mkMessageRow id0 2 (cm_sender p) (Some (cm_recipient p)) (cm_created_at p) bytes] /\
    private_message_deliveries (tables db') = private_message_deliveries (tables db) ++
      deliveries_for id0 [cm_recipient p] /\
    friend_blocks (tables db') = friend_blocks (tables db).
Proof.
  intros Hrun. unfold add_private_message_with_delivery in Hrun. run Hrun.
  apply orb_false_iff in N as [N1%negb_false_iff%bool_decide_eq_true N2].
  exists a2. split; [done|]. rewrite N1, N2 in R0.
  inserted R0. inserted R1. chase. simpl. chase. simpl. chase. done.
Qed.

Lemma private_queue_push p db id0 db' :
  integrity (tables db) ->
  add_private_message_with_delivery p db = (inr id0, db') ->
  exists bytes, SerializeToString p = Some bytes /\
    let x := mkMessageRow id0 2 (cm_sender p) (Some (cm_recipient p)) (cm_created_at p) bytes in
    forall who, private_queue (tables db') who = private_queue (tables db) who ++
      (if bool_decide (who = cm_recipient p) && not_blocked_by (tables db) who x then [x] else []).
Proof.
  intros Hi Hrun. apply add_private_tables in Hrun as (bytes & Hb & -> & Hm & Hd & Hbl).
  exists bytes. split; [done|]. intros x who. unfold private_queue. rewrite Hm, Hd.
  unfold not_blocked_by. rewrite Hbl. fold x. change (next_message_id (tables db)) with (m_id x) at 1.
  rewrite queue_push by first [ apply (private_fk1 _ Hi) | apply (messages_pk _ Hi)
    | apply (messages_ids _ Hi) | apply NoDup_singleton ].
  by rewrite (bool_decide_ext _ _ (list_elem_of_singleton who (cm_recipient p))).
Qed.

Lemma mark_private_tables id0 who at_ms db db' :
  mark_private_message_delivered id0 who at_ms db = (inr tt, db') ->
  tables db' = set_private_message_deliveries
    (map (mark_delivered id0 who at_ms) (private_message_deliveries (tables db))) (tables db).
Proof. intros Hrun. unfold mark_private_message_delivered in Hrun. run Hrun. chase. done. Qed.

Lemma decode_messages_inr rows l :
  decode_messages rows = inr l -> exists x, decode_rows private_error rows = inr x /\ l = stored_messages x.
Proof. unfold decode_messages. destruct (decode_rows _ _) as [|x]; [done|]. intros [= <-]. by exists x. Qed.

Lemma pending_private_inr recipient n db l :
  ask (pending_private_messages recipient n) db = inr l ->
  exists x, decode_rows private_error (map (fun m => (m_id m, m_payload m))
      (limit n (private_queue (tables db) recipient))) = inr x /\ l = stored_messages x /\
    length l = length (limit n (private_queue (tables db) recipient)).
Proof.
  rewrite ask_pending_private. intros (x & Hx & ->)%decode_messages_inr. exists x.
  split; [done|]. split; [done|]. apply decode_rows_length in Hx. rewrite length_map in Hx.
  unfold stored_messages. by rewrite length_map.
Qed.

End Offline.

(** Storing a private message appends it, with its new id, to the offline
    queue of the recipient, unless the recipient blocks the sender; the queues
    of all other users keep their contents. *)
Theorem offline_push `{SqlEngine} `{ProtoCodecs} `{!ProtoLaws ChatMessagePayload} p db id0 db' n l :
  db_inv db -> proto_ok p ->
  ask (is_friend_blocked (cm_recipient p) (cm_sender p)) db = inr false ->
  ask (pending_private_messages (cm_recipient p) n) db = inr l -> (Z.of_nat (length l) < n)%Z ->
  add_private_message_with_delivery p db = (inr id0, db') ->
  ask (pending_private_messages (cm_recipient p) n) db' = inr (l ++ [mkStoredMessage id0 p]) /\
  forall who k, who <> cm_recipient p ->
    ask (pending_private_messages who k) db' = ask (pending_private_messages who k) db.
Proof.
  intros [Hi _] Hok Hbl Hl Hn Hrun.
  apply private_queue_push in Hrun as (bytes & Hb & Hq); [|done]. simpl in Hq. split.
  - apply pending_private_inr in Hl as (x & Hx & -> & Hlen). rewrite Hlen in Hn.
    rewrite ask_pending_private, Hq, bool_decide_true by done.
    rewrite ask_is_blocked in Hbl. injection Hbl as Hbl. unfold not_blocked_by. simpl. rewrite Hbl. simpl.
    rewrite limit_short by done. pose proof (limit_all _ _ Hn) as Ha. rewrite Ha in Hx, Hn. unfold decode_messages.
    rewrite map_app, decode_rows_app, Hx. unfold limit.
    destruct (Z.to_nat (n - _)) eqn:E; [lia|]. simpl.
    rewrite (parse_serialize p bytes Hok Hb), take_nil. simpl. unfold stored_messages.
    by rewrite map_app.
  - intros who k Hw. rewrite !ask_pending_private, Hq, bool_decide_false by done. simpl.
    by rewrite app_nil_r.
Qed.

(** A delivered message leaves the offline queue of its recipient, and no
    other message does, in this or in any other queue. *)
Theorem offline_pop `{SqlEngine} `{ProtoCodecs} id0 recipient at_ms db db' n l :
  db_inv db ->
  ask (pending_private_messages recipient n) db = inr l -> (Z.of_nat (length l) < n)%Z ->
  mark_private_message_delivered id0 recipient at_ms db = (inr tt, db') ->
  ask (pending_private_messages recipient n) db' =
    inr (List.filter (fun m => negb (sm_id m =? id0)%Z) l) /\
  forall who k, who <> recipient ->
    ask (pending_private_messages who k) db' = ask (pending_private_messages who k) db.
Proof.
  intros [Hi _] Hl Hn Hrun. apply mark_private_tables in Hrun.
  assert (forall who, private_queue (tables db') who =
    List.filter (fun x => negb ((who =s? recipient) && (m_id x =? id0)%Z))
      (private_queue (tables db) who)) as Hq.
  { intros who. unfold private_queue, not_blocked_by. rewrite Hrun. simpl.
    apply queue_mark, (messages_pk _ Hi). }
  split.
  - apply pending_private_inr in Hl as (x & Hx & -> & Hlen). rewrite Hlen in Hn.
    pose proof (limit_all _ _ Hn) as Ha. rewrite Ha in Hx, Hn. rewrite ask_pending_private, Hq, String.eqb_refl. simpl.
    rewrite limit_ge by (pose proof (filter_length_le (fun x => negb (m_id x =? id0)%Z)
      (private_queue (tables db) recipient)); lia).
    apply (decode_rows_filter _ (fun i => negb (i =? id0)%Z)) in Hx. rewrite filter_map in Hx.
    unfold decode_messages. simpl in Hx. rewrite Hx. unfold stored_messages. by rewrite filter_map.
  - intros who k Hw. rewrite !ask_pending_private, Hq.
    rewrite (proj2 (String.eqb_neq who recipient) Hw). simpl. by rewrite filter_true.
Qed.

Lemma count_user name t :
  integrity t ->
  (Z.of_nat (length (select_where (is_user name) (users t))) =? 1)%Z = has_user t name.
Proof.
  intros Hi. apply (count_select u_name); [|apply Hi]. unfold is_user.
  by intros r r' ->%String.eqb_eq ->%String.eqb_eq.
Qed.

Lemma ask_user_exists name db : ask (user_exists name) db = inr (has_user (tables db) name).
Proof. done. Qed.

Definition other_of (u : string) (r : string * string) : string := if r.1 =s? u then r.2 else r.1.

Lemma ask_list_friends u db :
  ask (list_friends u) db =
  inr (order_by String.le (map (other_of u) (select_where (mentions u) (friendships (tables db))))).
Proof. done. Qed.

Lemma ltb_leb a b : String.ltb a b = true -> String.leb a b = true /\ String.leb b a = false.
Proof.
  unfold String.ltb, String.leb. rewrite (String.compare_antisym b a).
  by destruct (String.compare a b).
Qed.

Lemma users_after_delete name t : users (delete_user_rows name t) = delete_where (is_user name) (users t).
Proof. done. Qed.

(** C33: deleting an account.  The method reports whether the account existed;
    afterwards it does not, no row of any table mentions it, and every other
    account is still there. *)
Theorem delete_user_forgets `{SqlEngine} `{ProtoCodecs} name db existed db' :
  db_inv db -> delete_user name db = (inr existed, db') ->
  ask (user_exists name) db = inr existed /\
  ask (user_exists name) db' = inr false /\
  unreferenced name (tables db') /\
  forall other, other <> name -> ask (user_exists other) db' = ask (user_exists other) db.
Proof.
  intros [Hi _] Hrun. unfold delete_user in Hrun. run Hrun. rewrite E in E0, R. subst a.
  setoid_rewrite ask_user_exists. rewrite count_user by done. rewrite R.
  split; [done|]. split; [|split; [apply delete_user_unreferenced|]].
  - unfold has_user. rewrite users_after_delete. by rewrite exists_row_delete.
  - intros other Ho. unfold has_user. rewrite users_after_delete.
    rewrite exists_row_delete_other; [done|]. unfold is_user. intros r ->%String.eqb_eq.
    by apply String.eqb_neq.
Qed.

Lemma normalize_other u r :
  String.ltb r.1 r.2 = true -> mentions u r = true -> r = normalize_pair u (other_of u r).
Proof.
  destruct r as [a b]. unfold mentions, other_of, normalize_pair. simpl.
  intros [Hle Hne]%ltb_leb Hm. destruct (a =s? u) eqn:E; simpl in Hm; case_bools; subst.
  - by rewrite Hle.
  - by rewrite Hne.
Qed.

Lemma NoDup_select {A} (p : A -> bool) rows : NoDup rows -> NoDup (select_where p rows).
Proof.
  intros Hn. assert (select_where p rows = map id (delete_where (fun r => negb (p r)) rows)) as ->.
  { rewrite map_id. apply List.filter_ext. intros r. by rewrite negb_involutive. }
  apply NoDup_delete. by rewrite map_id.
Qed.

Lemma friend_row t u v : integrity t ->
  friends t u v = true <->
  exists r, r ∈ friendships t /\ mentions u r = true /\ other_of u r = v.
Proof.
  intros Hi. pose proof (friendships_ck _ Hi) as Hck. rewrite Forall_forall in Hck.
  unfold friends. rewrite exists_pair_spec. split.
  - intros Hin. exists (normalize_pair u v). split; [by destruct (normalize_pair u v)|].
    unfold normalize_pair, mentions, other_of. destruct (String.leb u v); simpl;
      rewrite String.eqb_refl, ?orb_true_r; [done|]. split; [done|].
    destruct (v =s? u) eqn:E; [|done]. by apply String.eqb_eq in E.
  - intros (r & Hr & Hm & <-). rewrite <- (normalize_other u r) by auto. by destruct r.
Qed.

(** The friend list is sorted and holds exactly the users that
    [are_friends] confirms, each once. *)
Theorem list_friends_correct `{SqlEngine} u db l :
  db_inv db -> ask (list_friends u) db = inr l ->
  Sorted String.le l /\ NoDup l /\ forall v, v ∈ l <-> ask (are_friends u v) db = inr true.
Proof.
  intros [Hi _]. rewrite ask_list_friends. intros [= <-].
  split; [apply (order_by_sorted _)|]. split.
  - rewrite order_by_perm. apply NoDup_fmap_2_strong.
    + pose proof (friendships_ck _ Hi) as Hck. rewrite Forall_forall in Hck.
      intros r r' [Hr Hm]%elem_of_select [Hr' Hm']%elem_of_select He.
      rewrite (normalize_other u r), (normalize_other u r') by auto. by rewrite He.
    + apply NoDup_select. pose proof (friendships_pk _ Hi) as Hn. by rewrite map_id in Hn.
  - intros v. rewrite order_by_perm, ask_are_friends, list_elem_of_fmap.
    setoid_rewrite elem_of_select.
    assert (@inr string _ (friends (tables db) u v) = inr true <-> friends (tables db) u v = true) as ->
      by (split; [by intros [=]|by intros ->]).
    rewrite friend_row by done. split.
    + intros (r & -> & Hr & Hm). eauto.
    + intros (r & Hr & Hm & <-). eauto.
Qed.

Lemma decode_rows_elem {A} `{ProtoCodec A} error l x :
  decode_rows error l = inr x ->
  forall y, y ∈ x -> exists bytes, (y.1, bytes) ∈ l /\ ParseFromArray bytes = Some y.2.
Proof.
  revert x. induction l as [|[id0 bytes] l IH]; intros x; simpl.
  { intros [= <-] y Hy. by apply elem_of_nil in Hy. }
  destruct (ParseFromArray bytes) eqn:E; [|done]. destruct (decode_rows error l); [done|].
  intros [= <-] y [->|Hy]%elem_of_cons; [exists bytes; split; [left|done]|].
  destruct (IH _ eq_refl y Hy) as (b & Hb & Hp). exists b. split; [by right|done].
Qed.

Lemma Sorted_take {A} (R : relation A) n l : Sorted R l -> Sorted R (take n l).
Proof.
  intros Hs. revert n. induction Hs as [|x l Hs IH Hh]; intros [|n]; simpl; try constructor; auto.
  destruct Hh; destruct n; simpl; constructor; auto.
Qed.

(** A batch of offline messages has at most the requested number, is
    ordered by ascending id, and holds only stored messages with a pending
    delivery for the recipient, none of them from a blocked sender. *)
Theorem pending_batch `{SqlEngine} `{ProtoCodecs} recipient n db l :
  (0 <= n)%Z -> ask (pending_private_messages recipient n) db = inr l ->
  (Z.of_nat (length l) <= n)%Z /\
  Sorted Z.le (map sm_id l) /\
  forall m, m ∈ l -> exists row,
    row ∈ messages (tables db) /\ m_id row = sm_id m /\
    ParseFromArray (m_payload row) = Some (sm_payload m) /\
    (exists d, d ∈ private_message_deliveries (tables db) /\ d_id d = sm_id m /\
      pending recipient d = true) /\
    ask (is_friend_blocked recipient (m_sender row)) db = inr false.
Proof.
  intros Hn Hl. apply pending_private_inr in Hl as (x & Hx & -> & Hlen). split; [|split].
  - rewrite Hlen. unfold limit. rewrite length_take. lia.
  - assert (map sm_id (stored_messages x) = map fst x) as ->
      by (unfold stored_messages; by rewrite map_map).
    rewrite (decode_rows_ids _ _ _ Hx), map_map. simpl.
    apply (Sorted_fmap m_id (by_num m_id)); [done|]. apply Sorted_take, (order_by_sorted _).
  - intros m ([id0 pl] & -> & Hin)%list_elem_of_fmap.
    destruct (decode_rows_elem _ _ _ Hx _ Hin) as (bytes & Hb & Hp). simpl in *.
    apply list_elem_of_fmap in Hb as (row & [= -> ->] & Hrow). unfold limit in Hrow.
    apply elem_of_take in Hrow as (k & Hk & _). apply list_elem_of_lookup_2 in Hk.
    unfold private_queue, queue in Hk. rewrite order_by_perm, elem_of_join in Hk.
    destruct Hk as (Hrow & Hkeep & Hd). exists row. do 4 (split; [done|]).
    rewrite ask_is_blocked. apply negb_true_iff in Hkeep. by rewrite Hkeep.
Qed.

(** ** Groups *)

Section Groups.
Context `{SqlEngine} `{ProtoCodecs}.

Lemma required_group_inr g db id0 db' :
  required_group_id g db = (inr id0, db') ->
  tables db' = tables db /\ exists r, r ∈ chat_groups (tables db) /\ g_name r = g /\ g_id r = id0.
Proof.
  unfold required_group_id, group_id_by_name. intros (o & db1 & H1 & H2)%bind_inr.
  apply query_inr in H1 as (-> & Ht & _). destruct (head _) as [r|] eqn:E; [|done].
  simpl in H2. injection H2 as <- <-. split; [done|].
  destruct (select_where (is_group_named g) (chat_groups (tables db))) as [|r' rest] eqn:S; [done|].
  injection E as ->.
  assert (r ∈ select_where (is_group_named g) (chat_groups (tables db))) as Hr by (rewrite S; left).
  apply elem_of_select in Hr as [Hr Hn%String.eqb_eq]. eauto.
Qed.

Lemma members_of_spec g t m :
  m ∈ members_of g t <->
  m ∈ group_members t /\ exists r, r ∈ chat_groups t /\ g_name r = g /\ g_id r = gm_group m.
Proof.
  unfold members_of. rewrite elem_of_select, exists_row_true. unfold is_group_named, is_group_id.
  setoid_rewrite andb_true_iff. setoid_rewrite String.eqb_eq. setoid_rewrite Z.eqb_eq.
  split; [intros (? & r & ? & ? & ?)|intros (? & r & ? & ? & ?)]; eauto 10.
Qed.

Lemma ask_role g u db :
  ask (get_group_role g u) db =
  inr (gm_role <$> head (select_where (fun r => gm_user r =s? u) (members_of g (tables db)))).
Proof. done. Qed.

(** With integrity, at most one row of a group belongs to a user. *)
Lemma role_spec g u db role :
  integrity (tables db) ->
  (ask (get_group_role g u) db = inr (Some role) <->
   exists m, m ∈ members_of g (tables db) /\ gm_user m = u /\ gm_role m = role).
Proof.
  intros Hi. rewrite ask_role. split.
  - destruct (select_where _ _) as [|m l] eqn:E; [done|]. intros [= <-]. exists m.
    assert (m ∈ select_where (fun r => gm_user r =s? u) (members_of g (tables db))) as Hm
      by (rewrite E; left). apply elem_of_select in Hm as [Hm ->%String.eqb_eq]. done.
  - intros (m & Hm & <- & <-).
    assert (m ∈ select_where (fun r => gm_user r =s? gm_user m) (members_of g (tables db))) as Hs
      by (apply elem_of_select; by rewrite String.eqb_refl).
    destruct (select_where _ _) as [|m' l] eqn:E; [by apply elem_of_nil in Hs|]. simpl.
    assert (m' ∈ select_where (fun r => gm_user r =s? gm_user m) (members_of g (tables db))) as Hm'
      by (rewrite E; left). apply elem_of_select in Hm' as [Hm' Hu%String.eqb_eq].
    do 2 f_equal. apply members_of_spec in Hm as (Hm & r & Hr & Hg & Hid).
    apply members_of_spec in Hm' as (Hm' & r' & Hr' & Hg' & Hid').
    assert (member_key m' = member_key m) as Hk.
    { unfold member_key. rewrite Hu, <- Hid, <- Hid'. f_equal. f_equal.
      apply (NoDup_inj g_name (chat_groups (tables db))); [apply (groups_uq _ Hi)|done|done|congruence]. }
    f_equal. by apply (NoDup_inj member_key (group_members (tables db)));
      [apply (members_pk _ Hi)|..].
Qed.

Lemma ask_has_join g u db :
  ask (has_group_join_request g u) db =
  inr (exists_row (fun r => jr_user r =s? u) (joins_of g (tables db))).
Proof. done. Qed.

Lemma has_join_spec g u t :
  exists_row (fun r => jr_user r =s? u) (joins_of g t) = true <->
  exists j r, j ∈ group_join_requests t /\ jr_user j = u /\
    r ∈ chat_groups t /\ g_name r = g /\ g_id r = jr_group j.
Proof.
  unfold joins_of. rewrite exists_row_true. setoid_rewrite elem_of_select.
  setoid_rewrite exists_row_true. unfold is_group_named, is_group_id.
  setoid_rewrite andb_true_iff. setoid_rewrite String.eqb_eq. setoid_rewrite Z.eqb_eq.
  split; [intros (j & (? & r & ? & ? & ?) & ?)|intros (j & r & ? & ? & ? & ? & ?)]; eauto 10.
Qed.

(** Unique names: a group id determines the name and conversely. *)
Lemma group_unique t (r r' : GroupRow) :
  integrity t -> r ∈ chat_groups t -> r' ∈ chat_groups t ->
  g_name r = g_name r' \/ g_id r = g_id r' -> r = r'.
Proof.
  intros Hi Hr Hr' [E|E].
  - by apply (NoDup_inj g_name (chat_groups t)); [apply (groups_uq _ Hi)|..].
  - by apply (NoDup_inj g_id (chat_groups t)); [apply (groups_pk _ Hi)|..].
Qed.

Lemma is_join_spec k u j : is_join k u j = true <-> jr_group j = k /\ jr_user j = u.
Proof. unfold is_join. rewrite andb_true_iff, Z.eqb_eq, String.eqb_eq. done. Qed.

Lemma approve_tables g u db db' :
  integrity (tables db) ->
  approve_group_join_request g u db = (inr tt, db') ->
  exists r, r ∈ chat_groups (tables db) /\ g_name r = g /\
    chat_groups (tables db') = chat_groups (tables db) /\
    exists_row (is_join (g_id r) u) (group_join_requests (tables db)) = true /\
    group_join_requests (tables db') =
      delete_where (is_join (g_id r) u) (group_join_requests (tables db)) /\
    group_members (tables db') = group_members (tables db) ++ [mkMember (g_id r) u Member].
Proof.
  intros Hi Hrun. unfold approve_group_join_request in Hrun. run Hrun.
  apply required_group_inr in R as (R & r & Hr & Hg & <-). rewrite E in Hr, R.
  injection R2 as Ha Ht. inserted R1. exists r. split; [done|]. split; [done|].
  apply negb_false_iff in N. rewrite <- Ha in N.
  rewrite (count_select join_key) in N; [|intros j j' [? ?]%is_join_spec [? ?]%is_join_spec;
    unfold join_key; congruence|rewrite R0, R; apply (joins_pk _ Hi)].
  chase. simpl. rewrite <- Ht. simpl. rewrite R0, R in N |- *. done.
Qed.
End Groups.

(** Approving a join request consumes it and makes the user an ordinary
    member of the group; no other role in any group changes. *)
Theorem approve_makes_member `{SqlEngine} `{ProtoCodecs} g u db db' :
  db_inv db ->
  approve_group_join_request g u db = (inr tt, db') ->
  ask (has_group_join_request g u) db = inr true /\
  ask (has_group_join_request g u) db' = inr false /\
  ask (get_group_role g u) db' = inr (Some Member) /\
  forall g' u' role, (g', u') <> (g, u) ->
    ask (get_group_role g' u') db' = inr (Some role) <->
    ask (get_group_role g' u') db = inr (Some role).
Proof.
  intros Hdb Hrun. assert (integrity (tables db')) as Hi'.
  { pose proof (run_call_inv (ApproveGroupJoinRequest g u) db Hdb) as H1. simpl in H1.
    rewrite Hrun in H1. exact (proj1 H1). }
  destruct Hdb as [Hi _]. apply approve_tables in Hrun as (r & Hr & <- & Hg & Hj & Hjs & Hms); [|done].
  split; [|split; [|split]].
  - rewrite ask_has_join. f_equal. apply has_join_spec. apply exists_row_true in Hj as (j & Hj & [Hk Hu]%is_join_spec).
    by exists j, r.
  - rewrite ask_has_join. f_equal. apply not_true_iff_false. rewrite has_join_spec, Hjs, Hg.
    intros (j & r' & [Hin Hf]%elem_of_delete & Hu & Hr' & Hn & Hid).
    apply not_true_iff_false in Hf. apply Hf, is_join_spec.
    rewrite <- Hid. by rewrite (group_unique (tables db) r' r) by auto.
  - apply role_spec; [done|]. exists (mkMember (g_id r) u Member). split; [|done].
    apply members_of_spec. rewrite Hms, Hg. split; [apply elem_of_app; right; left|].
    by exists r.
  - intros g' u' role Hne. rewrite !role_spec by done. setoid_rewrite members_of_spec.
    rewrite Hms, Hg. split; intros (m & [Hm Hr2] & Hu & Ho); exists m; (split; [|done]).
    + split; [|done]. apply elem_of_app in Hm as [Hm|Hm]; [done|].
      apply list_elem_of_singleton in Hm as ->. destruct Hr2 as (r2 & Hin & Hn & Hid). simpl in *.
      destruct Hne. rewrite <- Hn, <- Hu. by rewrite (group_unique (tables db) r2 r) by auto.
    + split; [apply elem_of_app; by left|done].
Qed.
End DatabaseProps.
