(* ===== verification/Statements.v ===== *)
(** * Prepared statements

    The helpers at the top of [mysql_database.cpp] that every method of the
    database layer goes through: [Statement], [SqlParam], [bind_params],
    [execute_prepared], [query_prepared] and the readers of a row.  They run over
    what the MySQL client library documents of [mysql_stmt_*]: a statement is sent
    with the values its bindings describe, and a fetch copies a row into the
    buffers of the result bindings.  [Database.v] uses the functions of these
    names as single steps; [query_exact] is what entitles it to. *)
From S2P Require Import Prelude.

Module Statements.

(** ** The client library *)

(** A value of a parameter that reaches the server. *)
Inductive Value := VText (s : string) | VBlob (s : string) | VUnsigned (z : Z) | VSigned (z : Z) | VNull.

(** The type of a field of a result, as far as the code distinguishes them. *)
Inductive FieldType := BlobField | OtherField.

(** A result: per field its type and its [max_length], and the rows as texts. *)
Record Result := mkResult { fields : list (FieldType * nat); rows : list (list (option string)); insert_id : Z; affected : Z }.

(** The server: how many parameters a statement takes, and what running it does. *)
Class MySql (S : Type) := { param_count : string -> nat; run : string -> list Value -> S -> (string + Result) * S }.

(** A result is a table, and [STMT_ATTR_UPDATE_MAX_LENGTH] makes [max_length] a
    bound of its column. *)
Definition in_column (field : FieldType * nat) (value : option string) : Prop :=
  match value with Some text => String.length text <= field.2 | None => True end.
Class MySqlLaws (S : Type) `{MySql S} := {
  rows_fit sql values s r s' : run sql values s = (inr r, s') -> Forall (Forall2 in_column (fields r)) (rows r) }.

(** A connection: the server behind it, the failures of the calls to come, and how
    many statements are made and not closed. *)
Record Conn (S : Type) := mkConn { server : S; faults : list (option string); alive : nat }.
Arguments mkConn {S}.
Arguments server {S}.
Arguments faults {S}.
Arguments alive {S}.

Inductive BufferType := MYSQL_TYPE_STRING | MYSQL_TYPE_BLOB | MYSQL_TYPE_LONGLONG | MYSQL_TYPE_NULL.
(** What the pointer [buffer] of a binding leads to. *)
Inductive Pointee := NoBuffer | Bytes (s : string) | Integer (z : Z).
Record MYSQL_BIND := mkBind { buffer_type : BufferType; buffer : Pointee; buffer_length : Z; length_ : option Z; is_unsigned : bool; is_null : option bool }.
Definition MYSQL_BIND_0 : MYSQL_BIND := mkBind MYSQL_TYPE_NULL NoBuffer 0 None false None.

(** The value that the library reads through a binding. *)
Definition sent (b : MYSQL_BIND) : Value :=
  match is_null b with
  | Some true => VNull
  | _ =>
      match buffer_type b, buffer b with
      | MYSQL_TYPE_STRING, Bytes s => VText (str_take (Z.to_nat (default 0%Z (length_ b))) s)
      | MYSQL_TYPE_BLOB, Bytes s => VBlob (str_take (Z.to_nat (default 0%Z (length_ b))) s)
      | MYSQL_TYPE_LONGLONG, Integer z => if is_unsigned b then VUnsigned z else VSigned z
      | _, _ => VNull
      end
  end.

(** A buffer with its length and its null flag, to which a result binding points. *)
Record Cell := mkCell { bytes : string; result_length : Z; result_null : bool }.

(** One column of a fetch: as many bytes as fit are copied, the length is the whole. *)
Definition fetch_column (c : Cell) (value : option string) : Cell :=
  match value with
  | None => mkCell (bytes c) (result_length c) true
  | Some text =>
      let n := Nat.min (String.length text) (String.length (bytes c)) in
      mkCell (str_take n text +:+ str_drop n (bytes c)) (strlen text) false
  end.
Definition truncated (c : Cell) : bool := negb (result_null c) && (strlen (bytes c) <? result_length c)%Z.

(** ** [SqlParam] and [bind_params] *)

Inductive Kind := Text | Blob | Unsigned64 | Signed64 | Null.
Record SqlParam := mkParam { kind : Kind; param_bytes : string; unsigned_value : Z; signed_value : Z }.
Definition text (value : string) : SqlParam := mkParam Text value 0 0.
Definition blob (value : string) : SqlParam := mkParam Blob value 0 0.
Definition u64 (value : Z) : SqlParam := mkParam Unsigned64 "" value 0.
Definition i64 (value : Z) : SqlParam := mkParam Signed64 "" 0 value.
Definition nullValue : SqlParam := mkParam Null "" 0 0.

Section Client.
Context {S : Type} `{MySql S}.

(** The next call: it succeeds, or fails with a text. *)
Definition step : M (Conn S) unit := fun c =>
  match faults c with
  | [] => (inr tt, c)
  | None :: rest => (inr tt, mkConn (server c) rest (alive c))
  | Some text :: rest => (inl text, mkConn (server c) rest (alive c))
  end.

(** ** [Statement] *)

(** [mysql_stmt_init], whose failure leaves a null pointer; the destructor closes
    what is not null. *)
Definition with_statement {A} (failed : M (Conn S) A) (body : M (Conn S) A) : M (Conn S) A := fun c =>
  match step c with
  | (inl _, c1) => failed c1
  | (inr _, c1) =>
      let r := body (mkConn (server c1) (faults c1) (1 + alive c1)) in
      (r.1, mkConn (server r.2) (faults r.2) (pred (alive r.2)))
  end.

(** ** Binding and executing *)

Definition bind_param (param : SqlParam) : MYSQL_BIND :=
  match kind param with
  | Text => mkBind MYSQL_TYPE_STRING (Bytes (param_bytes param)) (strlen (param_bytes param)) (Some (strlen (param_bytes param))) false (Some false)
  | Blob => mkBind MYSQL_TYPE_BLOB (Bytes (param_bytes param)) (strlen (param_bytes param)) (Some (strlen (param_bytes param))) false (Some false)
  | Unsigned64 => mkBind MYSQL_TYPE_LONGLONG (Integer (unsigned_value param)) 0 None true (Some false)
  | Signed64 => mkBind MYSQL_TYPE_LONGLONG (Integer (signed_value param)) 0 None false (Some false)
  | Null => mkBind MYSQL_TYPE_NULL NoBuffer 0 None false (Some true)
  end.

Definition bind_params (sql : string) (params : list SqlParam) : M (Conn S) (list MYSQL_BIND) :=
  reject_if (negb (bool_decide (param_count sql = length params))) "预处理语句参数数量不匹配" ;;
  let bindings := map bind_param params in
  (if negb (bool_decide (bindings = [])) then step else mret tt) ;;
  mret bindings.

(** [mysql_stmt_execute]: a failure of the call, or of the server. *)
Definition on_server (sql : string) (values : list Value) : M (Conn S) Result := fun c =>
  let r := run sql values (server c) in (r.1, mkConn r.2 (faults c) (alive c)).
Definition mysql_stmt_execute (sql : string) (bindings : list MYSQL_BIND) : M (Conn S) Result :=
  step ;; on_server sql (map sent bindings).

Definition no_statement {A} : M (Conn S) A := fail "MySQL 预处理语句初始化失败".

Definition execute_prepared (connected : bool) (sql : string) (params : list SqlParam) : M (Conn S) (Z * Z) :=
  reject_if (negb connected) "数据库尚未连接" ;;
  with_statement no_statement (
    step ;;
    bindings ← bind_params sql params;
    r ← mysql_stmt_execute sql bindings;
    mret (insert_id r, affected r)).

(** ** [query_prepared] *)

Fixpoint zeros (n : nat) : string := match n with O => EmptyString | Datatypes.S k => String (char_of 0) (zeros k) end.

(** The buffer of a field has room for its longest value, and one byte at least. *)
Definition new_cell (field : FieldType * nat) : Cell :=
  mkCell (zeros (Nat.max field.2 1)) 0 false.
Definition read_cell (c : Cell) : option string :=
  if result_null c then None else Some (str_take (Z.to_nat (result_length c)) (bytes c)).

(** The fetching loop over the rows that the server still has. *)
Fixpoint fetch_loop (left : list (list (option string))) (cells : list Cell) (done : list (list (option string))) :
    M (Conn S) (list (list (option string))) :=
  step ;;
  match left with
  | [] => mret done
  | row :: rest =>
      let cells' := zip_with fetch_column cells row in
      reject_if (existsb truncated cells') "预处理语句结果 was unexpectedly truncated" ;;
      fetch_loop rest cells' (done ++ [map read_cell cells'])
  end.

Definition query_prepared (connected : bool) (sql : string) (params : list SqlParam) : M (Conn S) (list (list (option string))) :=
  reject_if (negb connected) "数据库尚未连接" ;;
  with_statement no_statement (
    step ;;                                       (* prepare *)
    bindings ← bind_params sql params;
    step ;;                                       (* mysql_stmt_attr_set *)
    r ← mysql_stmt_execute sql bindings;
    step ;;                                       (* mysql_stmt_result_metadata *)
    reject_if (length (fields r) =? 0)%nat "" ;;   (* there is none for a statement without a result *)
    step ;;                                       (* mysql_stmt_store_result *)
    (if (0 <? length (fields r))%nat then step else mret tt) ;;  (* mysql_stmt_bind_result *)
    fetch_loop (rows r) (map new_cell (fields r)) []).
End Client.

(** ** What they achieve *)

(** The value that a parameter stands for. *)
Definition meaning (p : SqlParam) : Value :=
  match kind p with
  | Text => VText (param_bytes p)
  | Blob => VBlob (param_bytes p)
  | Unsigned64 => VUnsigned (unsigned_value p)
  | Signed64 => VSigned (signed_value p)
  | Null => VNull
  end.

Lemma sent_bind p : sent (bind_param p) = meaning p.
Proof.
  destruct p as [[] b u i]; unfold bind_param, sent, meaning; simpl; try done;
    unfold strlen; by rewrite Nat2Z.id, str_take_ge.
Qed.
Lemma sent_binds params : map sent (map bind_param params) = map meaning params.
Proof. rewrite map_map. apply map_ext, sent_bind. Qed.

(** A cell has room for the values of its column. *)
Definition roomy (field : FieldType * nat) (c : Cell) : Prop := field.2 <= String.length (bytes c).

Lemma zero_bytes_length n : String.length (zeros n) = n.
Proof. induction n as [|n IH]; [done|]. cbn. by rewrite IH. Qed.
Lemma new_cells_roomy fs : Forall2 roomy fs (map new_cell fs).
Proof. induction fs as [|f fs IH]; constructor; [|done]. unfold roomy, new_cell. cbn [bytes]. rewrite zero_bytes_length. lia. Qed.

Lemma fetch_column_spec field c value :
  roomy field c -> in_column field value ->
  roomy field (fetch_column c value) /\ truncated (fetch_column c value) = false /\ read_cell (fetch_column c value) = value.
Proof.
  unfold roomy, in_column, truncated, read_cell. intros Hr Hv. destruct value as [t|]; [|by split_and!]. cbn [fetch_column bytes result_length result_null].
  rewrite Nat.min_l by lia. rewrite (str_take_ge _ t) by lia. rewrite strlen_app, str_length_app, str_drop_length. unfold strlen.
  rewrite Nat2Z.id, str_take_app_length, str_drop_length. split_and!; [lia|apply Z.ltb_ge; lia|done].
Qed.

Lemma fetch_row_spec fs cells row :
  Forall2 roomy fs cells -> Forall2 in_column fs row ->
  Forall2 roomy fs (zip_with fetch_column cells row) /\ existsb truncated (zip_with fetch_column cells row) = false /\
  map read_cell (zip_with fetch_column cells row) = row.
Proof.
  intros Hc. revert row. induction Hc as [|f c fs cells Hf Hc IH]; intros row Hrow; inversion Hrow as [|? v ? row' Hv Hrow']; subst; [done|].
  destruct (fetch_column_spec f c v Hf Hv) as (H1 & H2 & H3), (IH row' Hrow') as (H4 & H5 & H6). cbn. rewrite H2, H3, H5, H6.
  split_and!; [by constructor|done|done].
Qed.

Section Spec.
Context {S : Type} `{MySqlLaws S}.
(** The state of the server before and after, the statements open, and whether
    nothing fails. *)
Context (s0 s1 : S) (fine : Prop).

Definition at_state (s : S) (n : nat) (c : Conn S) : Prop := server c = s /\ alive c = n /\ (fine -> faults c = []).
Definition bad (n : nat) (c : Conn S) : Prop := (exists s, (s = s0 \/ s = s1) /\ at_state s n c) /\ ~ fine.

Lemma step_spec s n : s = s0 \/ s = s1 -> meets (at_state s n) step (fun _ => at_state s n) (bad n).
Proof.
  intros Hs c (Hc & Ho & Hf). unfold step. destruct (faults c) as [|[t|] rest] eqn:Ef.
  - split_and!; [done|done|by rewrite Ef].
  - assert (~ fine) as Hn by (intros Hn; specialize (Hf Hn); done). split; [|done]. exists s. by split_and!.
  - split_and!; [done|done|]. intros Hn. by specialize (Hf Hn).
Qed.

Lemma reject_spec s n b text : s = s0 \/ s = s1 -> (b = true -> ~ fine) ->
  meets (at_state s n) (reject_if b text) (fun _ c => at_state s n c /\ b = false) (bad n).
Proof. intros Hs Hb c Hc. unfold reject_if. destruct b; [|by split]. split; [by exists s|by apply Hb]. Qed.

Lemma statement_spec {A} s n (body : M (Conn S) A) Q :
  s = s0 \/ s = s1 ->
  meets (at_state s (1 + n)) body (fun a c => exists s', at_state s' (1 + n) c /\ Q a s') (bad (1 + n)) ->
  meets (at_state s n) (with_statement no_statement body) (fun a c => exists s', at_state s' n c /\ Q a s') (bad n).
Proof.
  intros Hs Hb c Hc. pose proof (step_spec s n Hs c Hc) as H1. unfold with_statement. destruct (step c) as [[t|u] c1]; [exact H1|].
  destruct H1 as (Hc1 & Ho & Hf). specialize (Hb (mkConn (server c1) (faults c1) (1 + alive c1))).
  specialize (Hb ltac:(split_and!; cbn; [done|lia|done])). destruct (body _) as [[e|a] c2]; cbn.
  - destruct Hb as [(s' & Hs' & Hc2 & Ho2 & Hf2) Hn]. split; [|done]. exists s'. split; [done|]. split_and!; cbn; [done|lia|done].
  - destruct Hb as (s' & (Hc2 & Ho2 & Hf2) & Hq). exists s'. split; [|done]. split_and!; cbn; [done|lia|done].
Qed.

Lemma bind_spec s n sql params :
  s = s0 \/ s = s1 -> (fine -> param_count sql = length params) ->
  meets (at_state s n) (bind_params sql params) (fun b c => at_state s n c /\ (b = map bind_param params /\ param_count sql = length params)) (bad n).
Proof.
  intros Hs Hcount. eapply meets_bind.
  { apply reject_spec; [done|]. intros Hb%negb_true_iff%bool_decide_eq_false Hn. by apply Hb, Hcount. }
  intros ?. apply meets_pull. intros Hb%negb_false_iff%bool_decide_eq_true.
  eapply (meets_bind _ _ _ (fun _ => at_state s n)); [|intros ?; by apply meets_ret].
  destruct (negb _); [by apply step_spec|by apply meets_ret].
Qed.

Lemma execute_spec n sql params :
  s1 = (run sql (map meaning params) s0).2 -> (fine -> exists r, (run sql (map meaning params) s0).1 = inr r) ->
  meets (at_state s0 n) (mysql_stmt_execute sql (map bind_param params))
    (fun r c => at_state s1 n c /\ run sql (map meaning params) s0 = (inr r, s1)) (bad n).
Proof.
  intros Hs1 Hrun. eapply meets_bind; [apply step_spec; by left|intros ?]. intros c (Hc & Ho & Hf). unfold on_server. rewrite sent_binds, Hc.
  destruct (run sql (map meaning params) s0) as [[e|r] s'] eqn:Er; cbn in *; subst s'; [|by split_and!].
  split; [|intros Hn; destruct (Hrun Hn); done]. exists s1. split; [by right|]. by split_and!.
Qed.

Lemma fetch_spec n fs left cells acc :
  Forall2 roomy fs cells -> Forall (Forall2 in_column fs) left ->
  meets (at_state s1 n) (fetch_loop left cells acc) (fun l c => at_state s1 n c /\ l = acc ++ left) (bad n).
Proof.
  intros Hr Hl. revert cells acc Hr. induction Hl as [|row rest Hrow Hl IH]; intros cells acc Hr; cbn [fetch_loop];
    (eapply meets_bind; [apply step_spec; by right|intros ?]).
  - apply meets_ret. intros c Hc. by rewrite app_nil_r.
  - destruct (fetch_row_spec fs cells row Hr Hrow) as (H1 & H2 & H3). rewrite H2, H3.
    eapply meets_bind; [apply reject_spec; [by right|done]|intros ?]. apply meets_pull. intros _.
    eapply meets_weaken; [apply IH, H1|done| |done]. intros l c [Hc ->]. by rewrite <- app_assoc.
Qed.
End Spec.

Section Exact.
Context {S : Type} `{MySqlLaws S}.

(** Nothing stands in the way of a statement that needs a result with [P]. *)
Definition unhindered (P : Result -> Prop) (connected : bool) (sql : string) (params : list SqlParam) (c : Conn S) : Prop :=
  connected = true /\ param_count sql = length params /\ faults c = [] /\ exists r, (run sql (map meaning params) (server c)).1 = inr r /\ P r.

Definition has_result (r : Result) : Prop := fields r <> [].

(** The way to the statement is the same for both functions. *)
Lemma reach_spec {A} P connected sql params (c : Conn S) (body : M (Conn S) A) (Q : A -> S -> Prop) :
  let s1 := (run sql (map meaning params) (server c)).2 in
  meets (at_state (unhindered P connected sql params c) (server c) (1 + alive c)) body
    (fun a c' => exists s', at_state (unhindered P connected sql params c) s' (1 + alive c) c' /\ Q a s')
    (bad (server c) s1 (unhindered P connected sql params c) (1 + alive c)) ->
  let r := (reject_if (negb connected) "数据库尚未连接" ;; with_statement no_statement body) c in
  alive r.2 = alive c /\
  match r.1 with
  | inr a => Q a (server r.2)
  | inl _ => (server r.2 = server c \/ server r.2 = s1) /\ ~ unhindered P connected sql params c
  end.
Proof.
  intros s1 Hb r.
  assert (meets (at_state (unhindered P connected sql params c) (server c) (alive c))
    (reject_if (negb connected) "数据库尚未连接" ;; with_statement no_statement body)
    (fun a c' => exists s', at_state (unhindered P connected sql params c) s' (alive c) c' /\ Q a s')
    (bad (server c) s1 (unhindered P connected sql params c) (alive c))) as Hm.
  { eapply meets_bind; [apply reject_spec; [by left|intros Hc (Hn & _); by rewrite Hn in Hc]|intros ?].
    apply meets_pull. intros _. apply statement_spec; [by left|exact Hb]. }
  specialize (Hm c ltac:(split_and!; [done|done|by intros (_ & _ & ? & _)])). subst r.
  destruct ((reject_if _ _ ;; with_statement _ _) c) as [[e|a] c']; cbn [fst snd].
  - destruct Hm as [(s & Hs & Hc & Ha & _) Hn]. split_and!; [done|by subst|done].
  - destruct Hm as (s & (Hc & Ha & _) & Hq). by subst.
Qed.

(** C36: [query_prepared] is one run of the statement on the server, with the values
    that its parameters stand for: when it returns, its rows are exactly the rows
    of the result, every text whole and every NULL a missing value, however long
    they are; when it fails, the server has run the statement or has not, and the
    failure was a missing connection, a wrong number of parameters, a call that
    failed or the server's refusal or a statement
    without a result, never a truncated value.  The statement it
    makes is closed in every case. *)
Theorem query_exact connected sql params (c : Conn S) :
  let r := query_prepared connected sql params c in
  alive r.2 = alive c /\
  match r.1 with
  | inr l => exists x, run sql (map meaning params) (server c) = (inr x, server r.2) /\ l = rows x
  | inl _ => (server r.2 = server c \/ server r.2 = (run sql (map meaning params) (server c)).2) /\ ~ unhindered has_result connected sql params c
  end.
Proof.
  unfold query_prepared. apply (reach_spec has_result connected sql params c _ (fun l s => exists x, run sql (map meaning params) (server c) = (inr x, s) /\ l = rows x)).
  eapply meets_bind; [apply step_spec; by left|intros ?].
  eapply meets_bind; [apply bind_spec; [by left|by intros (_ & ? & _)]|intros ?]. apply meets_pull. intros [-> _].
  eapply meets_bind; [apply step_spec; by left|intros ?].
  eapply meets_bind; [apply execute_spec; [done|by intros (_ & _ & _ & r & ? & _); exists r]|intros x]. apply meets_pull. intros Hrun.
  eapply meets_bind; [apply step_spec; by right|intros ?].
  eapply meets_bind; [apply reject_spec; [by right|intros Hf%Nat.eqb_eq (_ & _ & _ & r & Hr & Hne)]|intros ?].
  { rewrite Hrun in Hr. injection Hr as <-. apply Hne. by destruct (fields x). }
  apply meets_pull. intros _. eapply meets_bind; [apply step_spec; by right|intros ?].
  eapply (meets_bind _ _ _ (fun _ => at_state (unhindered has_result connected sql params c) (run sql (map meaning params) (server c)).2 (1 + alive c))); [destruct (0 <? _)%nat; [apply step_spec; by right|by apply meets_ret]|intros ?].
  eapply meets_weaken; [eapply fetch_spec; [apply new_cells_roomy|by eapply rows_fit]|done| |done].
  intros l c' [Hc' ->]. eexists. split; [exact Hc'|]. by exists x.
Qed.

(** [execute_prepared] runs the statement once and returns its numbers, or fails. *)
Theorem execute_exact connected sql params (c : Conn S) :
  let r := execute_prepared connected sql params c in
  alive r.2 = alive c /\
  match r.1 with
  | inr ids => exists x, run sql (map meaning params) (server c) = (inr x, server r.2) /\ ids = (insert_id x, affected x)
  | inl _ => (server r.2 = server c \/ server r.2 = (run sql (map meaning params) (server c)).2) /\ ~ unhindered (fun _ => True) connected sql params c
  end.
Proof.
  unfold execute_prepared. apply (reach_spec (fun _ => True) connected sql params c _ (fun ids s => exists x, run sql (map meaning params) (server c) = (inr x, s) /\ ids = (insert_id x, affected x))).
  eapply meets_bind; [apply step_spec; by left|intros ?].
  eapply meets_bind; [apply bind_spec; [by left|by intros (_ & ? & _)]|intros ?]. apply meets_pull. intros [-> _].
  eapply meets_bind; [apply execute_spec; [done|by intros (_ & _ & _ & r & ? & _); exists r]|intros x]. apply meets_pull. intros Hrun.
  apply meets_ret. intros c' Hc'. eexists. split; [exact Hc'|]. by exists x.
Qed.
End Exact.

(** ** Reading a row *)

(** [row.at(index).value()], whose two exceptions are errors. *)
Definition value_at {X} (row : list (option string)) (index : nat) : M X string :=
  match row !! index with
  | None => fail "std::out_of_range"
  | Some None => fail "std::bad_optional_access"
  | Some (Some value) => mret value
  end.

(** [std::strtoull] with base 10. *)
Definition strtoull (s : string) : Z :=
  let body := drop_while isspace s in
  let neg := match body with String "-"%char _ => true | _ => false end in
  let signed := match body with String "-"%char _ | String "+"%char _ => true | _ => false end in
  let v := dec_value 0 (take_while isdigit (if signed then str_drop 1 body else body)) in
  if (u64_max <? v)%Z then u64_max else if neg then wrap 64 (- v) else v.

Definition u64_at {X} (row : list (option string)) (index : nat) : M X Z :=
  value ← value_at row index; mret (strtoull value).
Definition u32_at {X} (row : list (option string)) (index : nat) : M X Z :=
  value ← value_at row index; mret (wrap 32 (strtoull value)).

(** The number of a column comes back, when it fits its type. *)
Theorem numbers_read {X} row index n (s : X) :
  row !! index = Some (Some (to_string n)) -> (0 <= n < 2 ^ 64)%Z ->
  u64_at row index s = (inr n, s) /\ ((n < 2 ^ 32)%Z -> u32_at row index s = (inr n, s)).
Proof.
  intros Hrow Hn. destruct (to_string_spec n) as (Hne & Hd & Hv); [lia|].
  assert (strtoull (to_string n) = n) as Hs.
  { unfold strtoull. rewrite drop_while_noop.
    - destruct (to_string n) as [|c t] eqn:Et; [done|]. cbn in Hd. apply andb_true_iff in Hd as [Hc Ht].
      assert (c <> "-"%char /\ c <> "+"%char) as [H1 H2] by (split; intros ->; done).
      assert (match String c t with String "-"%char _ | String "+"%char _ => true | _ => false end = false /\
              match String c t with String "-"%char _ => true | _ => false end = false) as [-> ->]
        by (split; destruct c as [[] [] [] [] [] [] [] []]; congruence).
      rewrite take_while_all by (cbn; by rewrite Hc, Ht). rewrite Hv. by rewrite (proj2 (Z.ltb_ge _ _)) by (unfold u64_max; lia).
    - intros c t Et. rewrite Et in Hd. cbn in Hd. apply andb_true_iff in Hd as [Hc _].
      clear -Hc. destruct (isspace c) eqn:Es; [|done]. unfold isspace, isdigit, in_range in *. lia. }
  unfold u64_at, u32_at, value_at. rewrite Hrow. unfold mbind, M_bind, mret, M_ret. rewrite Hs. split; [done|].
  intros H32. unfold wrap. by rewrite Z.mod_small by lia.
Qed.

(** ** An example: a table of messages *)

Section Examples.
Definition messages := list (list (option string)).
Definition width (r : list (option string)) : nat := fold_right Nat.max 0 (map (fun v => match v with Some t => String.length t | None => 0 end) r).
(** [SELECT] gives the two columns of all rows; any other statement appends one. *)
Local Instance example_server : MySql messages := {|
  param_count sql := if sql =s? "SELECT" then 0 else 2;
  run sql values rows :=
    match values with
    | [] => (inr (mkResult [(BlobField, width (concat rows)); (OtherField, width (concat rows))] (filter (fun r => length r = 2) rows) 0 0), rows)
    | [VText a; VNull] => (inr (mkResult [] [] (Z.of_nat (length rows)) 1), rows ++ [[Some a; None]])
    | [VText a; VBlob b] => (inr (mkResult [] [] (Z.of_nat (length rows)) 1), rows ++ [[Some a; Some b]])
    | _ => (inl "no such statement", rows)
    end |}.

Lemma width_in t v row : v ∈ row -> in_column (t, width row) v.
Proof.
  unfold in_column, width. cbn. destruct v as [value|]; [|done]. induction row as [|x row IH]; [by intros ?%not_elem_of_nil|].
  intros [<-|Hin]%elem_of_cons; cbn; [lia|]. specialize (IH Hin). destruct x; lia.
Qed.

Local Instance example_laws : MySqlLaws messages.
Proof.
  split. intros sql values s r s'. unfold run, example_server.
  destruct values as [|[a|a|z|z|] [|[b|b|z'|z'|] [|v3 l]]]; intros Hr; simplify_eq; cbn; try constructor.
  apply Forall_forall. intros row [Hl Hin]%list_elem_of_filter. destruct row as [|x [|y []]]; try done.
  assert (forall v, v ∈ [x; y] -> v ∈ concat s') as Hv by (intros v Hv; apply list_elem_of_In, in_concat; exists [x; y]; by rewrite <- !list_elem_of_In).
  repeat constructor; apply width_in, Hv; set_solver.
Qed.

Definition example_conn (faults : list (option string)) : Conn messages := mkConn [[Some "hello"; None]; [Some ""; Some "a longer one"]] faults 0.

Lemma query_exact_witness :
  (query_prepared true "SELECT" [] (example_conn [])).1 = inr [[Some "hello"; None]; [Some ""; Some "a longer one"]] /\
  (exists x, run "SELECT" (map meaning []) (server (example_conn [])) = (inr x, server (query_prepared true "SELECT" [] (example_conn [])).2) /\
    [[Some "hello"; None]; [Some ""; Some "a longer one"]] = rows x).
Proof. split; [by vm_compute|]. exact (proj2 (query_exact true "SELECT" [] (example_conn []))). Defined.

(** A statement that stores, and a call that fails. *)
Example stores_then_fails :
  let r := execute_prepared true "INSERT" [text "x"; nullValue] (example_conn []) in
  r.1 = inr (2%Z, 1%Z) /\ length (server r.2) = 3 /\
  (query_prepared true "SELECT" [] (example_conn [None; None; Some "gone away"])).1 = inl "gone away" /\
  (query_prepared true "SELECT" [u64 1] (example_conn [])).1 = inl "预处理语句参数数量不匹配".
Proof. by vm_compute. Qed.
End Examples.

End Statements.
