(* ===== verification/Registry.v ===== *)
(** * The registry of online users, [ChatRoom/src/server/online_user_registry.cpp]

    A map from user names to weak pointers to connections.  What a weak pointer
    locks to is a parameter of the operations: the connection object may be
    gone, present but not connected, or connected. *)
From S2P Require Import Prelude.

Module Registry.

(** A connection is named by a number, as its object is by its address. *)
Definition ConnId : Type := nat.

Inductive conn_status := Expired | Closed | Open.
#[export] Instance conn_status_eq_dec : EqDecision conn_status.
Proof. solve_decision. Defined.

Abbreviation Users := (gmap string ConnId).

(** [current != nullptr && current->connected()] *)
Definition alive (status : ConnId -> conn_status) (c : ConnId) : bool :=
  match status c with Open => true | _ => false end.

Section Registry.
Variable status : ConnId -> conn_status.

Definition add (username : string) (connection : ConnId) (users : Users) : bool * Users :=
  match users !! username with
  | Some current =>
      if alive status current then (false, users)
      else (true, <[username := connection]> (delete username users))
  | None => (true, <[username := connection]> users)
  end.

Definition remove (username : string) (connection : ConnId) (users : Users) : Users :=
  match users !! username with
  | None => users
  | Some current =>
      match status current with
      | Expired => delete username users
      | _ => if (current =? connection)%nat then delete username users else users
      end
  end.

Definition find (username : string) (users : Users) : option ConnId * Users :=
  match users !! username with
  | None => (None, users)
  | Some current => if alive status current then (Some current, users)
                    else (None, delete username users)
  end.

Definition is_online (username : string) (users : Users) : bool * Users :=
  let r := find username users in
  (match r.1 with Some _ => true | None => false end, r.2).

Definition prune_locked (users : Users) : Users :=
  filter (fun item => alive status item.2 = true) users.

Definition usernames (users : Users) : list string * Users :=
  let users := prune_locked users in
  (merge_sort String.le (map fst (map_to_list users)), users).

(** The iteration order of the C++ hash map is not specified; [map_to_list]
    fixes one. *)
Definition connections (except : option ConnId) (users : Users) : list ConnId * Users :=
  let users := prune_locked users in
  (List.filter (fun c => negb (bool_decide (Some c = except))) (map snd (map_to_list users)), users).
End Registry.

(** ** Lemmas *)

Section Lemmas.
Variable status : ConnId -> conn_status.

Lemma alive_open c : alive status c = true <-> status c = Open.
Proof. unfold alive. by destruct (status c). Qed.

Lemma add_true u c users users' :
  add status u c users = (true, users') ->
  users' = <[u := c]> users /\ forall d, users !! u = Some d -> alive status d = false.
Proof.
  unfold add. destruct (users !! u) as [d|] eqn:E.
  - destruct (alive status d) eqn:A; [done|]. intros [= <-].
    split; [by rewrite insert_delete_eq|]. by intros d' [= <-].
  - intros [= <-]. split; [done|]. by intros d.
Qed.

Lemma add_false u c users users' :
  add status u c users = (false, users') ->
  users' = users /\ exists d, users !! u = Some d /\ alive status d = true.
Proof.
  unfold add. destruct (users !! u) as [d|] eqn:E; [|done].
  destruct (alive status d) eqn:A; [|done]. intros [= <-]. split; [done|]. by exists d.
Qed.

Lemma find_some u users c users' :
  find status u users = (Some c, users') <->
  users !! u = Some c /\ alive status c = true /\ users' = users.
Proof.
  unfold find. destruct (users !! u) as [d|] eqn:E; [destruct (alive status d) eqn:A|].
  - split; [by intros [= <- <-]|by intros ([= <-] & _ & ->)].
  - split; [done|]. intros ([= <-] & H & _). congruence.
  - split; [done|]. by intros ([=] & _).
Qed.

Lemma find_none u users users' :
  find status u users = (None, users') ->
  (forall c, users !! u = Some c -> alive status c = false) /\
  users' = delete u users.
Proof.
  unfold find. destruct (users !! u) as [d|] eqn:E.
  - destruct (alive status d) eqn:A; [done|]. intros [= <-]. split; [|done]. by intros c [= <-].
  - intros [= <-]. split; [done|]. by rewrite delete_id.
Qed.

Lemma prune_lookup users u c :
  prune_locked status users !! u = Some c <-> users !! u = Some c /\ alive status c = true.
Proof. unfold prune_locked. by rewrite map_lookup_filter_Some. Qed.

End Lemmas.
End Registry.
