(* ===== verification/Redis.v ===== *)
(** * The Redis client, [ChatRoom/src/redis_client.cpp]

    Presence keys (which server instance a user is logged in on) and unread
    counters.  The Redis server is a store of string keys and of hashes; every
    connection attempt and every command takes the next entry of a fault
    schedule, where [Some text] is a missing or an error reply with that text.
    Expiry of a key is a separate step of the environment, [expire]. *)
From S2P Require Import Prelude.

Module Redis.

Record Redis := mkRedis {
  r_prefix : string;
  r_strings : gmap string string;
  r_hashes : gmap string (gmap string Z);
  r_faults : list (option string) }.

Definition set_strings (m : gmap string string) (r : Redis) : Redis :=
  mkRedis (r_prefix r) m (r_hashes r) (r_faults r).
Definition set_hashes (m : gmap string (gmap string Z)) (r : Redis) : Redis :=
  mkRedis (r_prefix r) (r_strings r) m (r_faults r).
Definition set_r_faults (fs : list (option string)) (r : Redis) : Redis :=
  mkRedis (r_prefix r) (r_strings r) (r_hashes r) fs.

Definition redis_step : M Redis unit := fun r =>
  match r_faults r with
  | [] => (inr tt, r)
  | None :: fs => (inr tt, set_r_faults fs r)
  | Some text :: fs => (inl text, set_r_faults fs r)
  end.

(** A Redis command: the exchange, then its effect on the store. *)
Definition redis_command {A} (f : Redis -> A * Redis) : M Redis A :=
  redis_step ;; ((fun r => (inr (f r).1, (f r).2)) : M Redis A).

Definition ensure_connected_locked : M Redis unit := redis_step.

Definition presence_key (r : Redis) (username : string) : string :=
  r_prefix r +:+ ":presence:" +:+ username.
Definition unread_key (r : Redis) (username : string) : string :=
  r_prefix r +:+ ":unread:" +:+ username.

(** [SET key id NX EX ttl] *)
Definition claim_presence (username server_instance_id : string) : M Redis bool :=
  ensure_connected_locked ;;
  redis_command (fun r =>
    let key := presence_key r username in
    match r_strings r !! key with
    | Some _ => (false, r)
    | None => (true, set_strings (<[key := server_instance_id]> (r_strings r)) r)
    end).

Definition owned (r : Redis) (username server_instance_id : string) : bool :=
  bool_decide (r_strings r !! presence_key r username = Some server_instance_id).

Definition refresh_presence_if_owned (username server_instance_id : string) : M Redis bool :=
  ensure_connected_locked ;;
  redis_command (fun r => (owned r username server_instance_id, r)).

Definition remove_presence_if_owned (username server_instance_id : string) : M Redis bool :=
  ensure_connected_locked ;;
  redis_command (fun r =>
    if owned r username server_instance_id
    then (true, set_strings (delete (presence_key r username) (r_strings r)) r)
    else (false, r)).

Definition presence_owner (username : string) : M Redis (option string) :=
  ensure_connected_locked ;;
  redis_command (fun r => (r_strings r !! presence_key r username, r)).

Definition is_supported_unread_kind (kind : string) : bool :=
  (kind =s? "private") || (kind =s? "group") || (kind =s? "private_file") || (kind =s? "group_file").

Definition hash_get (r : Redis) (key field : string) : Z :=
  default 0%Z (r_hashes r !! key ≫= fun h => h !! field).
Definition hash_set (key field : string) (v : Z) (r : Redis) : Redis :=
  set_hashes (<[key := <[field := v]> (default ∅ (r_hashes r !! key))]> (r_hashes r)) r.

(** [HINCRBY], then [HSET 0] when the counter went below zero, then [EXPIRE]. *)
Definition adjust_unread (username kind : string) (delta : Z) : M Redis Z :=
  reject_if (negb (is_supported_unread_kind kind)) ("不支持的 Redis 未读类型：" +:+ kind) ;;
  ensure_connected_locked ;;
  r ← get;
  let key := unread_key r username in
  integer ← redis_command (fun r =>
    let v := (hash_get r key kind + delta)%Z in (v, hash_set key kind v r));
  let result := Z.max 0 integer in
  (if (result =? 0)%Z && (integer <? 0)%Z
   then redis_command (fun r => (tt, hash_set key kind 0 r))
   else mret tt) ;;
  redis_command (fun r => (tt, r)) ;;
  mret result.

Record RedisUnreadCounts := mkUnread {
  private_messages : Z; group_messages : Z; private_files : Z; group_files : Z }.

Definition unread_counts (username : string) : M Redis RedisUnreadCounts :=
  ensure_connected_locked ;;
  redis_command (fun r =>
    let count kind := Z.max 0 (hash_get r (unread_key r username) kind) in
    (mkUnread (count "private") (count "group") (count "private_file") (count "group_file"), r)).

Definition clear_unread (username : string) : M Redis unit :=
  ensure_connected_locked ;;
  redis_command (fun r => (tt, set_hashes (delete (unread_key r username) (r_hashes r)) r)).

(** The environment: a key with a time to live expires. *)
Definition expire (key : string) (r : Redis) : Redis :=
  set_hashes (delete key (r_hashes r)) (set_strings (delete key (r_strings r)) r).

(** ** Lemmas *)

Lemma redis_step_cases r : exists e fs, redis_step r = (e, set_r_faults fs r).
Proof.
  unfold redis_step. destruct (r_faults r) as [|[t|] fs] eqn:E; [|eauto..].
  exists (inr tt), (r_faults r). destruct r; simpl in *. by subst.
Qed.

Lemma command_inr {A} (f : Redis -> A * Redis) r a r' :
  redis_command f r = (inr a, r') ->
  exists fs, a = (f (set_r_faults fs r)).1 /\ r' = (f (set_r_faults fs r)).2.
Proof.
  unfold redis_command. intros (u & r1 & H1 & H2)%bind_inr.
  destruct (redis_step_cases r) as (e & fs & E). rewrite E in H1. injection H1 as -> <-.
  exists fs. by injection H2 as <- <-.
Qed.

(** A failing exchange changes nothing but the schedule. *)
Lemma command_inl {A} (f : Redis -> A * Redis) r e r' :
  redis_command f r = (inl e, r') -> exists fs, r' = set_r_faults fs r.
Proof.
  unfold redis_command, mbind, M_bind. destruct (redis_step_cases r) as ([t|[]] & fs & ->); [|done].
  intros [= _ <-]. eauto.
Qed.

End Redis.
