(* ===== verification/BasicsProps.v ===== *)
(** * Properties of the small components

    Command lines and numbers ([Protocol]), percent encoding, file names and
    digests ([FileUtils]), configuration files ([Config]), and the presence and
    unread counters in Redis ([Redis]). *)
From S2P Require Import Prelude Protocol FileUtils Config Redis.

Module BasicsProps.

(** ** Command lines *)

(** The two index loops of [trim] strip exactly the leading and trailing white
    space, and trimming twice is trimming once. *)
Theorem trim_reference text :
  Protocol.trim text = drop_while_end isspace (drop_while isspace text) /\
  Protocol.trim (Protocol.trim text) = Protocol.trim text.
Proof. split; [apply Protocol.trim_correct|apply Protocol.trim_idem]. Qed.

(** A command line and its tokens.  What [split_words] returns are words (not
    empty, no white space); a list of words printed with single spaces is read
    back; and a line [NAME arguments] is parsed into the upper-cased name and
    the untouched arguments. *)
Theorem command_line_round_trip words name arguments text :
  Forall (fun w => Protocol.is_word w = true) words ->
  Protocol.is_word name = true -> arguments <> "" -> Protocol.trim arguments = arguments ->
  Forall (fun w => Protocol.is_word w = true) (Protocol.split_words text) /\
  Protocol.split_words (Protocol.join_words words) = words /\
  Protocol.parse_command (name +:+ String " " arguments) =
    Protocol.mkCommand (Protocol.to_upper_ascii name) arguments.
Proof.
  intros Hw Hn Ha Ht. split_and!; [apply Protocol.split_words_forall|by apply Protocol.split_words_join|].
  by apply Protocol.parse_command_line.
Qed.

Lemma command_line_round_trip_witness :
  Protocol.parse_command ("msg" +:+ String " " "bob hello%20world") =
    Protocol.mkCommand "MSG" "bob hello%20world" /\
  Protocol.split_words (Protocol.join_words ["bob"; "hello%20world"]) = ["bob"; "hello%20world"].
Proof.
  destruct (command_line_round_trip ["bob"; "hello%20world"] "msg" "bob hello%20world" "x"
    ltac:(repeat constructor) ltac:(reflexivity) ltac:(discriminate) ltac:(reflexivity)) as (_ & E1 & E2).
  exact (conj E2 E1).
Defined.

(** Counts and ports are read without overflow.  A 64-bit count in its decimal
    form is accepted exactly when it is inside the limits, whatever is accepted
    is inside them, and a port is accepted exactly between 1 and 65535. *)
Theorem numbers_in_range text lo hi n :
  (0 <= n < 2 ^ 64)%Z ->
  Protocol.parse_count (to_string n) lo hi = (if decide (lo <= n <= hi)%Z then Some n else None) /\
  (forall m, Protocol.parse_count text lo hi = Some m -> (lo <= m <= hi)%Z) /\
  (forall m, Protocol.parse_port text = Some m -> (1 <= m <= 65535)%Z) /\
  ((n < 2 ^ 31)%Z ->
   Protocol.parse_port (to_string n) = if decide (1 <= n <= 65535)%Z then Some n else None).
Proof.
  intros Hn. split_and!.
  - by apply Protocol.parse_count_to_string.
  - intros m Hm. apply (Protocol.parse_count_bounds text lo hi m Hm).
  - apply Protocol.parse_port_bounds.
  - intros Hp. apply Protocol.parse_port_to_string. lia.
Qed.

Lemma numbers_in_range_witness :
  Protocol.parse_count "100" 1 100 = Some 100%Z /\ Protocol.parse_port "65536" = None.
Proof.
  pose proof (numbers_in_range "7" 1 100 100 ltac:(lia)) as (E1 & _ & _ & _).
  pose proof (numbers_in_range "7" 1 100 65536 ltac:(lia)) as (_ & _ & _ & E2).
  split; [exact E1|exact (E2 ltac:(lia))].
Defined.

(** ** Percent encoding and file names *)

(** Percent encoding is invertible, and what it produces holds only
    unreserved characters and [%], so that a non-empty encoded text is one token
    of a command line; encoding at most triples the length and decoding never
    makes a text longer. *)
Theorem percent_round_trip text encoded decoded :
  FileUtils.percent_decode (FileUtils.percent_encode text) = inr text /\
  str_forall FileUtils.encoded_char (FileUtils.percent_encode text) = true /\
  Protocol.split_words (FileUtils.percent_encode text) =
    (if is_empty text then [] else [FileUtils.percent_encode text]) /\
  (String.length (FileUtils.percent_encode text) <= 3 * String.length text)%nat /\
  ~ (FileUtils.percent_decode encoded = inr decoded /\ (String.length encoded < String.length decoded)%nat).
Proof.
  split_and!.
  - apply FileUtils.decode_encode.
  - apply FileUtils.percent_encode_chars.
  - destruct (is_empty text) eqn:E; [by apply is_empty_true in E as ->|].
    pose proof (Protocol.split_words_join [FileUtils.percent_encode text]) as J. simpl in J.
    rewrite ?str_app_nil_r in J. apply J. constructor; [|constructor]. apply FileUtils.percent_encode_word.
    intros ->. done.
  - apply FileUtils.percent_encode_length.
  - intros [Hd Hl]. apply FileUtils.percent_decode_length in Hd. lia.
Qed.

(** A sanitised file name is a plain name: not empty, not [.] or [..], at most
    180 characters, only letters, digits, dots, underscores and hyphens, so it
    cannot leave the storage directory; a name that is already plain is
    unchanged, and sanitising twice is sanitising once. *)
Theorem sanitized_name_plain filename :
  FileUtils.safe_name (FileUtils.sanitize_filename filename) /\
  FileUtils.sanitize_filename (FileUtils.sanitize_filename filename) = FileUtils.sanitize_filename filename.
Proof.
  split; [apply FileUtils.sanitize_safe|]. apply FileUtils.sanitize_safe_id, FileUtils.sanitize_safe.
Qed.

(** ** Configuration files *)

(** C34: a configuration that loads is usable: whatever the file holds, a loader
    that reports success leaves every number inside its limits, every required
    text non-empty, and TLS enabled. *)
Theorem loaded_config_valid path input :
  hoare Config.mysql_ranges (Config.load_mysql_config path input) (fun _ => Config.mysql_valid) /\
  hoare Config.redis_ranges (Config.load_redis_config path input) (fun _ => Config.redis_valid) /\
  hoare (fun _ => True) (Config.load_tls_server_config path input) (fun _ => Config.tls_server_valid) /\
  hoare (fun _ => True) (Config.load_tls_client_config path input) (fun _ => Config.tls_client_valid) /\
  Config.mysql_ranges Config.default_mysql /\ Config.redis_ranges Config.default_redis.
Proof.
  split_and!; [apply Config.load_mysql_hoare|apply Config.load_redis_hoare|
    apply Config.load_tls_server_hoare|apply Config.load_tls_client_hoare|..];
    repeat split; vm_compute; done.
Qed.

(** A configuration file that lists keys and values one per line is read back
    as the map of its last assignments. *)
Theorem config_round_trip path label pairs (config : Config.MySqlConfig) :
  Forall Config.printable pairs ->
  Config.load_key_values path (Some (Config.render pairs)) label config =
  (inr (foldl (fun m '(k, v) => <[k := v]> m) ∅ pairs), config).
Proof. intros Hp. unfold Config.load_key_values. by rewrite Config.config_lines_render. Qed.

Lemma config_round_trip_witness :
  Config.load_key_values "mysql.conf" (Some (Config.render [("port", "3307"); ("user", "chat")])) "MySQL"
    Config.default_mysql =
  (inr {[ "port" := "3307"; "user" := "chat" ]}, Config.default_mysql).
Proof.
  rewrite (config_round_trip "mysql.conf" "MySQL" [("port", "3307"); ("user", "chat")]).
  - reflexivity.
  - repeat constructor; discriminate.
Defined.

(** ** Redis *)

Section Redis.
Import Redis.

Lemma claim_inr user server r b r' :
  claim_presence user server r = (inr b, r') ->
  r_prefix r' = r_prefix r /\ r_hashes r' = r_hashes r /\
  if b then r_strings r !! presence_key r user = None /\
            r_strings r' = <[presence_key r user := server]> (r_strings r)
  else is_Some (r_strings r !! presence_key r user) /\ r_strings r' = r_strings r.
Proof.
  unfold claim_presence, ensure_connected_locked. intros ([] & r1 & E1 & E2)%bind_inr.
  destruct (redis_step_cases r) as (e & fs & E). rewrite E in E1. injection E1 as -> <-.
  apply command_inr in E2 as (fs' & Eb & ->). revert Eb. cbn.
  change (presence_key (set_r_faults fs' (set_r_faults fs r)) user) with (presence_key r user).
  destruct (r_strings r !! presence_key r user) eqn:Ek; intros ->; simpl; by eauto.
Qed.

Lemma remove_inr user server r b r' :
  remove_presence_if_owned user server r = (inr b, r') ->
  r_prefix r' = r_prefix r /\
  b = bool_decide (r_strings r !! presence_key r user = Some server) /\
  r_strings r' = if b then delete (presence_key r user) (r_strings r) else r_strings r.
Proof.
  unfold remove_presence_if_owned, ensure_connected_locked. intros ([] & r1 & E1 & E2)%bind_inr.
  destruct (redis_step_cases r) as (e & fs & E). rewrite E in E1. injection E1 as -> <-.
  apply command_inr in E2 as (fs' & Eb & ->). revert Eb. unfold owned. cbn.
  change (presence_key (set_r_faults fs' (set_r_faults fs r)) user) with (presence_key r user).
  by case_bool_decide; intros ->.
Qed.

(** A presence key has one owner.  A server that claims a user's presence was
    granted it because nobody held it, and holds it afterwards; a claim of
    another server is then refused until the owner gives it up or it expires;
    removing another server's presence does nothing. *)
Theorem presence_exclusive user server other r r1 b r2 c r3 :
  claim_presence user server r = (inr true, r1) ->
  claim_presence user other r1 = (inr b, r2) ->
  remove_presence_if_owned user other r2 = (inr c, r3) -> other <> server ->
  r_strings r !! presence_key r user = None /\
  b = false /\ c = false /\ r_strings r3 !! presence_key r user = Some server.
Proof.
  intros (P1 & _ & N1 & S1)%claim_inr C2 C3 Hne. apply claim_inr in C2 as (P2 & _ & C2).
  apply remove_inr in C3 as (P3 & Ec & S3).
  assert (presence_key r1 user = presence_key r user) as K1 by (unfold presence_key; by rewrite P1).
  assert (presence_key r2 user = presence_key r user) as K2 by (unfold presence_key; by rewrite P2, P1).
  rewrite K1, S1, lookup_insert_eq in C2. destruct b; [by destruct C2|]. destruct C2 as [_ S2].
  rewrite K2, S2, lookup_insert_eq in Ec. rewrite bool_decide_false in Ec by congruence. subst c.
  split_and!; [done..|]. by rewrite S3, S2, lookup_insert_eq.
Qed.

Lemma presence_exclusive_witness :
  let r := mkRedis "chat" ∅ ∅ [] in
  let r1 := (claim_presence "ann" "server-1" r).2 in
  let r2 := (claim_presence "ann" "server-2" r1).2 in
  let r3 := (remove_presence_if_owned "ann" "server-2" r2).2 in
  r_strings r3 !! "chat:presence:ann" = Some "server-1".
Proof.
  intros r r1 r2 r3.
  apply (presence_exclusive "ann" "server-1" "server-2" r r1 false r2 false r3);
    [reflexivity|reflexivity|reflexivity|discriminate].
Defined.

Lemma hash_get_faults fs r k f : hash_get (set_r_faults fs r) k f = hash_get r k f.
Proof. done. Qed.

Lemma hash_get_set r key field v k f :
  hash_get (hash_set key field v r) k f = if decide (key = k /\ field = f) then v else hash_get r k f.
Proof.
  unfold hash_get, hash_set. simpl. destruct (decide (key = k)) as [<-|Hk].
  - rewrite lookup_insert_eq. simpl. destruct (decide (field = f)) as [<-|Hf].
    + by rewrite lookup_insert_eq, decide_True.
    + rewrite lookup_insert_ne, decide_False by (done || by intros [? ?]). by destruct (r_hashes r !! key).
  - by rewrite lookup_insert_ne, decide_False by (done || by intros [? ?]).
Qed.

(** An unread counter that a successful adjustment leaves is never negative:
    it is the old counter plus the change, or zero if that is below zero; other
    counters, and the presence keys, are untouched. *)
Theorem unread_never_negative user kind delta r n r' :
  adjust_unread user kind delta r = (inr n, r') ->
  is_supported_unread_kind kind = true /\
  n = Z.max 0 (hash_get r (unread_key r user) kind + delta) /\
  hash_get r' (unread_key r user) kind = n /\
  r_strings r' = r_strings r /\
  (forall k f, (k, f) <> (unread_key r user, kind) -> hash_get r' k f = hash_get r k f).
Proof.
  unfold adjust_unread, ensure_connected_locked. intros (u1 & r1 & E1 & E2)%bind_inr.
  destruct (is_supported_unread_kind kind); [|done]. injection E1 as _ <-.
  apply bind_inr in E2 as ([] & r2 & E1 & E2).
  destruct (redis_step_cases r) as (e & fs & E). rewrite E in E1. injection E1 as -> <-.
  apply bind_inr in E2 as (r3 & r4 & [= <- <-] & E2).
  change (unread_key (set_r_faults fs r) user) with (unread_key r user) in E2.
  apply bind_inr in E2 as (v & r5 & E3 & E2). apply command_inr in E3 as (fs1 & -> & ->). cbn in E2.
  change (hash_get (set_r_faults fs1 (set_r_faults fs r)) (unread_key r user) kind) with
    (hash_get r (unread_key r user) kind) in E2. set (v := (hash_get r _ _ + delta)%Z) in *.
  apply bind_inr in E2 as (u2 & r6 & E4 & E2). apply bind_inr in E2 as (u3 & r7 & E5 & [= <- <-]).
  apply command_inr in E5 as (fs2 & _ & ->).
  split; [done|]. split; [done|]. cbn.
  destruct ((Z.max 0 v =? 0)%Z && (v <? 0)%Z) eqn:Ez.
  - apply command_inr in E4 as (fs3 & _ & ->). cbn. apply andb_true_iff in Ez as [Ez%Z.eqb_eq _].
    rewrite hash_get_faults, hash_get_set, decide_True by done. split_and!; [by rewrite Ez|done|].
    intros k f Hkf. do 2 rewrite hash_get_faults, hash_get_set, decide_False by (intros [? ?]; congruence).
    done.
  - injection E4 as _ <-. cbn. rewrite hash_get_faults, hash_get_set, decide_True by done.
    split_and!; [|done|].
    + apply andb_false_iff in Ez as [Ez|Ez]; [apply Z.eqb_neq in Ez|apply Z.ltb_ge in Ez]; lia.
    + intros k f Hkf. rewrite hash_get_faults, hash_get_set, decide_False by (intros [? ?]; congruence). done.
Qed.

Lemma unread_never_negative_witness :
  let r := (adjust_unread "ann" "private" (-1) (mkRedis "chat" ∅ ∅ [])).2 in
  hash_get r "chat:unread:ann" "private" = 0%Z.
Proof.
  intros r.
  apply (unread_never_negative "ann" "private" (-1) (mkRedis "chat" ∅ ∅ []) 0%Z r).
  reflexivity.
Defined.
End Redis.
End BasicsProps.
