(* ===== verification/FileService.v ===== *)
(** * The file transfer service, [ChatRoom/src/file_transfer_service.cpp]

    Uploads are collected in [tmp/<token>.part] beside a checkpoint
    [tmp/<token>.resume.pb] and moved to [files/] when their digest is right;
    downloads are cut into frames by a pump.  The file system is a map from
    paths to contents; every call on it takes the next entry of a fault
    schedule, where a failing write may have written a prefix first. *)
From S2P Require Import Prelude Payloads FileUtils.
Import Payloads.

Module FileService.

(** ** The file system *)

Inductive FsFault := FsOk | FsFail (text : string) (written : nat).

Record Fs := mkFs { storage_root : string; files : gmap string string; fs_faults : list FsFault }.

Definition set_files (m : gmap string string) (fs : Fs) : Fs :=
  mkFs (storage_root fs) m (fs_faults fs).
Definition set_fs_faults (l : list FsFault) (fs : Fs) : Fs :=
  mkFs (storage_root fs) (files fs) l.

Definition no_such_file : string := "No such file or directory".

(** A call that may fail: on a fault, [partial] is what it did before. *)
Definition fs_call {A} (f : Fs -> (string + A) * Fs) (partial : nat -> Fs -> Fs) : M Fs A := fun fs =>
  match fs_faults fs with
  | [] => f fs
  | FsOk :: l => f (set_fs_faults l fs)
  | FsFail text n :: l => (inl text, partial n (set_fs_faults l fs))
  end.

Definition nothing (_ : nat) (fs : Fs) : Fs := fs.

(** [std::filesystem::exists], [file_size], [remove] and [rename]. *)
Definition fs_exists (path : string) : M Fs bool :=
  fs_call (fun fs => (inr (bool_decide (is_Some (files fs !! path))), fs)) nothing.
Definition fs_size (path : string) : M Fs Z :=
  fs_call (fun fs => (match files fs !! path with
                      | Some content => inr (strlen content)
                      | None => inl no_such_file
                      end, fs)) nothing.
Definition fs_remove (path : string) : M Fs unit :=
  fs_call (fun fs => (inr tt, set_files (delete path (files fs)) fs)) nothing.
Definition fs_rename (from to : string) : M Fs unit :=
  fs_call (fun fs => match files fs !! from with
                     | Some content => (inr tt, set_files (<[to := content]> (delete from (files fs))) fs)
                     | None => (inl no_such_file, fs)
                     end) nothing.
Definition fs_copy (from to : string) : M Fs unit :=
  fs_call (fun fs => match files fs !! from with
                     | Some content => (inr tt, set_files (<[to := content]> (files fs)) fs)
                     | None => (inl no_such_file, fs)
                     end) nothing.

(** Output streams: opening with [trunc] or [app], and writing at the end. *)
Definition open_trunc (path : string) : M Fs unit :=
  fs_call (fun fs => (inr tt, set_files (<[path := ""]> (files fs)) fs)) nothing.
Definition open_append (path : string) : M Fs unit :=
  fs_call (fun fs => (inr tt, set_files (<[path := default "" (files fs !! path)]> (files fs)) fs)) nothing.
Definition appended (path bytes : string) (fs : Fs) : Fs :=
  set_files (<[path := default "" (files fs !! path) +:+ bytes]> (files fs)) fs.
Definition stream_write (path bytes : string) : M Fs unit :=
  fs_call (fun fs => (inr tt, appended path bytes fs)) (fun n => appended path (str_take n bytes)).

(** Opening and reading a whole file. *)
Definition open_read (path : string) : M Fs string :=
  fs_call (fun fs => (match files fs !! path with
                      | Some content => inr content
                      | None => inl no_such_file
                      end, fs)) nothing.

(** [error_code ignored]: the outcome of the call is not looked at. *)
Definition ignoring {A} (m : M Fs A) : M Fs unit := fun fs => (inr tt, (m fs).2).

(** [if (filesystem_error) { error = text(...); return false; }] *)
Definition or_error {A} (m : M Fs A) (text : string -> string) : M Fs A := fun fs =>
  match m fs with
  | (inl e, fs') => (inl (text e), fs')
  | r => r
  end.

(** ** Paths *)

Definition upload_part_path (fs : Fs) (token : string) : string :=
  storage_root fs +:+ "/tmp/" +:+ token +:+ ".part".
Definition upload_meta_path (fs : Fs) (token : string) : string :=
  storage_root fs +:+ "/tmp/" +:+ token +:+ ".resume.pb".

(** ** The checkpoint of an upload *)

Section Service.
Context `{ProtoCodecs} `{FileUtils.DigestEngine}.

Definition write_resume_state (path : string) (state : FileUploadResumeState) : M Fs unit :=
  bytes ← match SerializeToString state with
          | Some bytes => mret bytes
          | None => fail "Protobuf 处理失败：序列化 FileUploadResumeState 失败"
          end;
  let temp := path +:+ ".tmp" in
  or_error (open_trunc temp) (fun _ => "无法创建上传断点元数据文件") ;;
  or_error (stream_write temp bytes) (fun _ => "写入上传数据失败：断点元数据文件") ;;
  or_error
    (fun fs => match fs_rename temp path fs with
               | (inl _, fs1) => (ignoring (fs_remove path) ;; fs_rename temp path) fs1
               | r => r
               end)
    (fun e => "无法完成上传断点状态：断点元数据文件：" +:+ e).

Definition read_resume_state (path : string) : M Fs FileUploadResumeState :=
  bytes ← or_error (open_read path) (fun _ => "无法打开上传断点元数据文件");
  match ParseFromArray bytes with
  | Some state => mret state
  | None => fail "Protobuf 解析 FileUploadResumeState 失败"
  end.

Definition same_metadata_identity (left right : FileTransferMetadata) : bool :=
  (fm_token left =s? fm_token right) &&
  bool_decide (fm_scope left = fm_scope right) &&
  (fm_sender left =s? fm_sender right) &&
  (fm_recipient left =s? fm_recipient right) &&
  (fm_group_id left =? fm_group_id right)%Z &&
  (fm_group_name left =s? fm_group_name right) &&
  (fm_file_name left =s? fm_file_name right) &&
  (fm_file_size left =? fm_file_size right)%Z &&
  (fm_sha256_hex left =s? fm_sha256_hex right).

Definition same_resume_identity (left right : FileUploadResumeState) : bool :=
  match rs_metadata left, rs_metadata right with
  | Some l, Some r => same_metadata_identity l r
  | _, _ => false
  end.

(** The result: the checkpoint in force, the part file and the accepted
    offset. *)
Definition begin_or_resume_upload (requested : FileUploadResumeState)
    : M Fs (FileUploadResumeState * string * Z) :=
  match rs_metadata requested with
  | None => fail "上传断点状态缺少元数据"
  | Some metadata =>
      reject_if (negb (FileUtils.is_valid_transfer_token (fm_token metadata))) "文件传输令牌无效" ;;
      fs ← get;
      let temp_path := upload_part_path fs (fm_token metadata) in
      let meta_path := upload_meta_path fs (fm_token metadata) in
      part_exists ← or_error (fs_exists temp_path) (fun _ => "无法检查上传临时文件");
      meta_exists ← or_error (fs_exists meta_path) (fun _ => "无法检查上传断点元数据");
      if (part_exists && meta_exists : bool) then
        existing ← read_resume_state meta_path;
        reject_if (negb (same_resume_identity requested existing))
          "文件传输令牌已经属于另一份上传元数据" ;;
        current_size ← or_error (fs_size temp_path) (fun _ => "无法检查断点续传文件大小");
        reject_if (fm_file_size metadata <? current_size)%Z "服务端临时文件大于声明的文件大小" ;;
        mret (existing, temp_path, current_size)
      else
        (if (part_exists || meta_exists : bool)
         then ignoring (fs_remove temp_path) ;; ignoring (fs_remove meta_path)
         else mret tt) ;;
        or_error (open_trunc temp_path) (fun _ => "无法创建上传临时文件") ;;
        ((fun fs => match write_resume_state meta_path requested fs with
                    | (inl e, fs1) => (inl e, (ignoring (fs_remove temp_path) fs1).2)
                    | (inr _, fs1) => (inr (requested, temp_path, 0%Z), fs1)
                    end) : M Fs (FileUploadResumeState * string * Z))
  end.

(** [bytes] is never null when [byte_count] is positive at the call sites. *)
Definition append_upload_bytes (temp_path : string) (expected_offset : Z) (bytes : string)
    : M Fs Z :=
  current_size ← or_error (fs_size temp_path) (fun e => "无法获取上传临时文件状态：" +:+ e);
  reject_if (negb (current_size =? expected_offset)%Z) "服务端上传临时文件偏移量发生变化" ;;
  or_error (open_append temp_path) (fun _ => "无法以追加方式打开上传临时文件") ;;
  (if is_empty bytes then mret tt
   else or_error (stream_write temp_path bytes) (fun _ => "追加上传二进制数据失败")) ;;
  mret (expected_offset + strlen bytes)%Z.

(** [sha256_file_hex] on a path: opening or reading may fail. *)
Definition digest_of_file (path : string) : M Fs string := fun fs =>
  match open_read path fs with
  | (inl _, fs1) => (FileUtils.sha256_file_hex path FileUtils.CannotOpen, fs1)
  | (inr content, fs1) => (FileUtils.sha256_file_hex path (FileUtils.ReadBytes content true), fs1)
  end.

Definition finalize_upload (temp_path token original_file_name : string) (expected_size : Z)
    (expected_sha256_hex : string) : M Fs string :=
  actual_size ← or_error (fs_size temp_path) (fun _ => "无法检查已完成上传文件");
  reject_if (negb (actual_size =? expected_size)%Z) "上传文件大小与 FILE_BEGIN 声明不一致" ;;
  actual_sha256 ← digest_of_file temp_path;
  let expected := str_map tolower expected_sha256_hex in
  reject_if (negb (actual_sha256 =s? expected)) "上传文件 SHA-256 校验不一致" ;;
  let safe_name := FileUtils.sanitize_filename original_file_name in
  let final_name := token +:+ "_" +:+ safe_name in
  fs ← get;
  let final_path := storage_root fs +:+ "/files/" +:+ final_name in
  ((fun fs => match fs_rename temp_path final_path fs with
              | (inl _, fs1) =>
                  (or_error (fs_copy temp_path final_path)
                     (fun e => "无法移动已完成文件 into storage: " +:+ e) ;;
                   ignoring (fs_remove temp_path)) fs1
              | r => r
              end) : M Fs unit) ;;
  ignoring (fs_remove (upload_meta_path fs token)) ;;
  mret ("files/" +:+ final_name).

Definition cancel_upload (token : string) : M Fs unit :=
  if negb (FileUtils.is_valid_transfer_token token) then mret tt
  else
    fs ← get;
    ignoring (fs_remove (upload_part_path fs token)) ;;
    ignoring (fs_remove (upload_meta_path fs token)).
End Service.

(** ** Offers and downloads *)

Definition scope_text (scope : FileTransferScope) : string :=
  match scope with
  | FILE_TRANSFER_PRIVATE => "PRIVATE"
  | FILE_TRANSFER_GROUP => "GROUP"
  | FILE_TRANSFER_SCOPE_UNSPECIFIED => "UNKNOWN"
  end.

Definition make_offer_line (transfer_id : Z) (metadata : FileTransferMetadata) : string :=
  let encoded_group := if is_empty (fm_group_name metadata) then "-"
                       else FileUtils.percent_encode (fm_group_name metadata) in
  "FILE_OFFER " +:+ to_string transfer_id +:+ " " +:+ scope_text (fm_scope metadata) +:+ " " +:+
  fm_sender metadata +:+ " " +:+ encoded_group +:+ " " +:+
  FileUtils.percent_encode (fm_file_name metadata) +:+ " " +:+
  to_string (fm_file_size metadata) +:+ " " +:+ fm_sha256_hex metadata +:+ nl.

Definition kBinaryFileFrameBytes : Z := 4 * 1024 * 1024.

(** The state of a [FileDeliveryPump]; [pump_done] holds what [finish] reported. *)
Record Pump := mkPump {
  pump_id : Z; pump_path : string; pump_offset : Z; pump_total : Z;
  pump_done : option (bool * string) }.

Inductive pump_output :=
  | PumpStart (text : string)
  | PumpEnd (text : string)
  | PumpFrame (header path : string) (offset count : Z).

Definition set_pump_offset (o : Z) (p : Pump) : Pump :=
  mkPump (pump_id p) (pump_path p) o (pump_total p) (pump_done p).

(** The completion callback runs once. *)
Definition finish (ok : bool) (error : string) (p : Pump) : Pump :=
  match pump_done p with
  | Some _ => p
  | None => mkPump (pump_id p) (pump_path p) (pump_offset p) (pump_total p) (Some (ok, error))
  end.

Definition start_line (p : Pump) : string :=
  "FILE_RESUME_START " +:+ to_string (pump_id p) +:+ " " +:+ to_string (pump_offset p) +:+ nl.

(** [deliver_file] up to [pump->start()]: the first output, or the failure the
    completion callback receives. *)
Definition deliver_file (transfer_id : Z) (metadata : FileTransferMetadata) (start_offset : Z)
    (connected : bool) : M Fs (Pump * pump_output) :=
  reject_if (negb connected) "recipient connection is closed" ;;
  reject_if (fm_file_size metadata <? start_offset)%Z "resume offset exceeds file size" ;;
  fs ← get;
  let file_path := storage_root fs +:+ "/" +:+ fm_stored_path metadata in
  is_file ← or_error (fs_exists file_path) (fun _ => "stored file is missing");
  reject_if (negb is_file) "stored file is missing" ;;
  current_size ← or_error (fs_size file_path) (fun _ => "stored file size no longer matches metadata");
  reject_if (negb (current_size =? fm_file_size metadata)%Z)
    "stored file size no longer matches metadata" ;;
  let pump := mkPump transfer_id file_path start_offset (fm_file_size metadata) None in
  mret (pump, PumpStart (start_line pump)).

(** [send_next], called when the previous output is on the wire.  The output is
    the next frame, or the end marker. *)
Definition send_next (can_continue connected : bool) (p : Pump) : Pump * option pump_output :=
  if negb can_continue then (finish false "delivery permission revoked" p, None)
  else if negb connected
  then (finish false "recipient connection closed during file delivery" p, None)
  else if (pump_total p <=? pump_offset p)%Z
  then (p, Some (PumpEnd ("FILE_DONE " +:+ to_string (pump_id p) +:+ nl)))
  else
    let frame_size := Z.min (pump_total p - pump_offset p) kBinaryFileFrameBytes in
    let header := "FILE_DATA " +:+ to_string (pump_id p) +:+ " " +:+ to_string (pump_offset p) +:+
                  " " +:+ to_string frame_size +:+ nl in
    (p, Some (PumpFrame header (pump_path p) (pump_offset p) frame_size)).

(** The completion of an output. *)
Definition output_sent (connected : bool) (out : pump_output) (p : Pump) : Pump :=
  match out with
  | PumpFrame _ _ _ count =>
      if negb connected
      then finish false "recipient connection closed during raw file frame" p
      else set_pump_offset (pump_offset p + count) p
  | PumpStart _ => p
  | PumpEnd _ => finish true "" p
  end.

End FileService.
