(* ===== verification/FileServiceProps.v ===== *)
(** * Properties of the file transfer service

    Appending keeps an upload a prefix of the file that is being sent, whatever
    fails; a finished upload has the declared size and digest and one plain name
    in the storage directory; the pump sends a beginning of the missing part of
    the file, in bounded frames, and reports success when it is complete. *)
From S2P Require Import Prelude Payloads ExampleCodec Protocol FileUtils FileService.
Import Payloads FileService.

Module FileServiceProps.

(** ** Single calls *)

Lemma fs_call_inr {A} (f : Fs -> (string + A) * Fs) partial fs a fs' :
  fs_call f partial fs = (inr a, fs') -> exists l, f (set_fs_faults l fs) = (inr a, fs').
Proof.
  unfold fs_call. destruct (fs_faults fs) as [|[|t n] l] eqn:E; [|eauto|done].
  intros H. exists []. destruct fs; simpl in *. by subst.
Qed.

Lemma or_error_inr {A} (m : M Fs A) text fs a fs' :
  or_error m text fs = (inr a, fs') -> m fs = (inr a, fs').
Proof. unfold or_error. by destruct (m fs) as [[|] ?]. Qed.

Lemma or_error_state {A} (m : M Fs A) text fs : (or_error m text fs).2 = (m fs).2.
Proof. unfold or_error. by destruct (m fs) as [[|] ?]. Qed.

Lemma fs_size_inr path fs n fs' :
  fs_size path fs = (inr n, fs') ->
  exists content, files fs !! path = Some content /\ n = strlen content /\
    files fs' = files fs /\ storage_root fs' = storage_root fs.
Proof.
  intros (l & H)%fs_call_inr. simpl in H. destruct (files fs !! path) as [c|]; [|done].
  injection H as <- <-. by exists c.
Qed.

Lemma fs_size_files path fs :
  files (fs_size path fs).2 = files fs.
Proof.
  unfold fs_size, fs_call. by destruct (fs_faults fs) as [|[|t n] l].
Qed.

Lemma reject_state {S} b e (s : S) : (reject_if b e s).2 = s.
Proof. by destruct b. Qed.

(** ** Appending *)

Definition content_of (fs : Fs) (path : string) : string := default "" (files fs !! path).

(** [fs'] is [fs] with [ext] added at the end of one file. *)
Definition extends (path ext : string) (fs fs' : Fs) : Prop :=
  forall q, content_of fs' q = if decide (q = path) then content_of fs q +:+ ext else content_of fs q.

(** Code that leaves all contents alone, and code that only adds a prefix of
    [bytes] to one file, also when it fails. *)
Definition looks {A} (m : M Fs A) : Prop := forall fs q, content_of (m fs).2 q = content_of fs q.

Lemma extends_same path fs fs' : (forall q, content_of fs' q = content_of fs q) -> extends path "" fs fs'.
Proof. intros H q. rewrite H, str_app_nil_r. by destruct (decide _). Qed.


Lemma looks_or_error {A} (m : M Fs A) text : looks m -> looks (or_error m text).
Proof. intros Hm fs q. by rewrite or_error_state. Qed.




Lemma looks_size path : looks (fs_size path).
Proof. intros fs q. unfold content_of. by rewrite fs_size_files. Qed.


Lemma looks_open_append path : looks (open_append path).
Proof.
  intros fs q. unfold content_of, open_append, fs_call.
  destruct (fs_faults fs) as [|[|t n] l]; simpl; [|..|done];
    (destruct (decide (q = path)) as [->|]; [by rewrite lookup_insert_eq|by rewrite lookup_insert_ne]).
Qed.

Lemma appended_extends path bytes fs : extends path bytes fs (appended path bytes fs).
Proof.
  intros q. unfold content_of, appended. simpl. destruct (decide (q = path)) as [->|].
  - by rewrite lookup_insert_eq.
  - by rewrite lookup_insert_ne.
Qed.



Lemma stream_write_inr path bytes fs u fs' :
  stream_write path bytes fs = (inr u, fs') -> extends path bytes fs fs'.
Proof.
  intros (l & H)%fs_call_inr. injection H as _ <-. exact (appended_extends path bytes (set_fs_faults l fs)).
Qed.

(** A successful append found the expected offset and added all the bytes. *)
Lemma append_inr path offset bytes fs k fs' :
  append_upload_bytes path offset bytes fs = (inr k, fs') ->
  strlen (content_of fs path) = offset /\ k = (offset + strlen bytes)%Z /\ extends path bytes fs fs'.
Proof.
  unfold append_upload_bytes. intros (size & fs1 & H1 & H)%bind_inr.
  assert (forall q, content_of fs1 q = content_of fs q) as C1.
  { intros q. pose proof (looks_or_error _ (fun e => "无法获取上传临时文件状态：" +:+ e) (looks_size path) fs q) as C.
    by rewrite H1 in C. }
  apply or_error_inr, fs_size_inr in H1 as (content & Hc & -> & _ & _).
  apply bind_inr in H as (u & fs2 & H2 & H).
  destruct (strlen content =? offset)%Z eqn:Eo; [|done]. injection H2 as _ <-. apply Z.eqb_eq in Eo.
  apply bind_inr in H as (u2 & fs3 & H3 & H).
  assert (forall q, content_of fs3 q = content_of fs q) as C3.
  { intros q. pose proof (looks_or_error _ (fun _ => "无法以追加方式打开上传临时文件") (looks_open_append path) fs1 q) as C.
    rewrite H3 in C. simpl in C. by rewrite C, C1. }
  apply bind_inr in H as (u3 & fs4 & H4 & [= <- <-]).
  split; [by unfold content_of; rewrite Hc|]. split; [done|].
  destruct (is_empty bytes) eqn:Eb.
  - apply is_empty_true in Eb as ->. injection H4 as _ <-. by apply extends_same.
  - apply or_error_inr, stream_write_inr in H4. intros q. by rewrite H4, !C3.
Qed.

(** ** Uploads as prefixes *)





(** ** Finished uploads *)

Definition final_path (root token name : string) : string :=
  root +:+ "/files/" +:+ token +:+ "_" +:+ FileUtils.sanitize_filename name.

Lemma final_not_tmp root token name rest : final_path root token name <> root +:+ "/tmp/" +:+ rest.
Proof.
  unfold final_path. intros H.
  change (root +:+ ("/files/" +:+ token +:+ "_" +:+ FileUtils.sanitize_filename name) =
          root +:+ ("/tmp/" +:+ rest)) in H. apply (inj (String.append root)) in H. done.
Qed.

Lemma fs_call_files {A} (f : Fs -> (string + A) * Fs) (fs : Fs) :
  (fs_call f nothing fs).2 = fs \/ (exists l, (fs_call f nothing fs).2 = set_fs_faults l fs) \/
  exists l, (fs_call f nothing fs).2 = (f (set_fs_faults l fs)).2.
Proof.
  unfold fs_call, nothing. destruct (fs_faults fs) as [|[|t n] l] eqn:E; [|eauto..].
  right; right. exists []. destruct fs; simpl in *; by subst.
Qed.

Lemma remove_content path fs q :
  q <> path -> files (fs_remove path fs).2 !! q = files fs !! q.
Proof.
  intros Hq. unfold fs_remove.
  edestruct (fs_call_files (fun fs => (inr (A := string) tt, set_files (delete path (files fs)) fs)) fs)
    as [-> | [(l & ->)|(l & ->)]]; simpl; try done. by rewrite lookup_delete_ne.
Qed.

Lemma remove_root path fs : storage_root (fs_remove path fs).2 = storage_root fs.
Proof.
  unfold fs_remove.
  by edestruct (fs_call_files (fun fs => (inr (A := string) tt, set_files (delete path (files fs)) fs)) fs)
    as [-> | [(l & ->)|(l & ->)]].
Qed.

Lemma fs_rename_inr from to fs u fs' :
  fs_rename from to fs = (inr u, fs') ->
  files fs' !! to = files fs !! from /\ storage_root fs' = storage_root fs.
Proof.
  intros (l & H)%fs_call_inr. simpl in H. destruct (files fs !! from) as [c|]; [|done].
  injection H as _ <-. simpl. by rewrite lookup_insert_eq.
Qed.

Lemma fs_rename_inl from to fs e fs' :
  fs_rename from to fs = (inl e, fs') -> files fs' = files fs /\ storage_root fs' = storage_root fs.
Proof.
  unfold fs_rename, fs_call. destruct (fs_faults fs) as [|[|t n] l]; simpl;
    try (destruct (files fs !! from); [done|]); by intros [= _ <-].
Qed.

Lemma fs_copy_inr from to fs u fs' :
  fs_copy from to fs = (inr u, fs') ->
  files fs' !! to = files fs !! from /\ storage_root fs' = storage_root fs.
Proof.
  intros (l & H)%fs_call_inr. simpl in H. destruct (files fs !! from) as [c|]; [|done].
  injection H as _ <-. simpl. by rewrite lookup_insert_eq.
Qed.

Lemma digest_of_file_inr `{FileUtils.DigestLaws sha256} path fs hex fs' :
  digest_of_file path fs = (inr hex, fs') ->
  exists content, files fs !! path = Some content /\ hex = FileUtils.to_hex (sha256 content) /\
    files fs' = files fs /\ storage_root fs' = storage_root fs.
Proof.
  unfold digest_of_file. destruct (open_read path fs) as [[e|content] fs1] eqn:E; [done|].
  intros [Hh <-]%pair_equal_spec. apply fs_call_inr in E as (l & E). simpl in E.
  destruct (files fs !! path) as [c|]; [|done]. injection E as <- <-. exists c.
  split; [done|]. split; [|done]. by eapply FileUtils.sha256_file_hex_correct.
Qed.

(** Moving the part file: renamed, or copied and removed. *)
Lemma move_inr from to fs fs' u :
  to <> from ->
  match fs_rename from to fs with
  | (inl _, fs1) =>
      (or_error (fs_copy from to) (fun e => "无法移动已完成文件 into storage: " +:+ e) ;;
       ignoring (fs_remove from)) fs1
  | r => r
  end = (inr u, fs') ->
  files fs' !! to = files fs !! from /\ storage_root fs' = storage_root fs.
Proof.
  intros Hne. destruct (fs_rename from to fs) as [[e|u1] fs1] eqn:E.
  - apply fs_rename_inl in E as [Hf Hr]. intros (u2 & fs2 & H1 & H2)%bind_inr.
    apply or_error_inr, fs_copy_inr in H1 as [H1 H3]. injection H2 as _ <-.
    split; [|by rewrite remove_root, H3]. rewrite remove_content by done. by rewrite H1, Hf.
  - intros [= <- <-]. by apply fs_rename_inr in E.
Qed.

(** A name of one file: no separators, and neither [.] nor [..]. *)
Definition plain_name (name : string) : Prop :=
  str_forall FileUtils.safe_char name = true /\ str_forall FileUtils.no_slash name = true /\
  name <> "" /\ name <> "." /\ name <> "..".

Lemma xdigit_safe_char c : isxdigit c = true -> FileUtils.safe_char c = true.
Proof. unfold FileUtils.safe_char. byte_cases c. Qed.

(** What [finalize_upload] appends to a valid token is such a name. *)
Lemma stored_name_plain token name :
  FileUtils.is_valid_transfer_token token = true -> plain_name (token +:+ "_" +:+ FileUtils.sanitize_filename name).
Proof.
  unfold FileUtils.is_valid_transfer_token. destruct (Z.eqb_spec (strlen token) 32) as [El|]; [|done]. simpl. intros Hx.
  assert (str_forall FileUtils.safe_char (token +:+ "_" +:+ FileUtils.sanitize_filename name) = true) as Hs.
  { rewrite !str_forall_app. rewrite (str_forall_impl _ _ _ xdigit_safe_char Hx). apply FileUtils.sanitize_safe. }
  assert (32 < String.length (token +:+ "_" +:+ FileUtils.sanitize_filename name))%nat as Hl.
  { rewrite !str_length_app. unfold strlen in El. cbn [String.length]. lia. }
  split; [done|]. split; [by eapply str_forall_impl; [apply FileUtils.safe_char_no_slash|]|].
  split_and!; intros E; rewrite E in Hl; cbn in Hl; lia.
Qed.

(** The part file of a begun upload, and that its token was checked. *)
Lemma begin_upload_inr `{ProtoCodecs} requested metadata fs state temp offset fs' :
  rs_metadata requested = Some metadata ->
  begin_or_resume_upload requested fs = (inr (state, temp, offset), fs') ->
  FileUtils.is_valid_transfer_token (fm_token metadata) = true /\ temp = upload_part_path fs (fm_token metadata).
Proof.
  intros Em. unfold begin_or_resume_upload. rewrite Em. intros (u & fs1 & H1 & G)%bind_inr.
  destruct (FileUtils.is_valid_transfer_token (fm_token metadata)); [|done]. injection H1 as _ <-.
  split; [done|]. apply bind_inr in G as (f & fs2 & [= <- <-] & G).
  apply bind_inr in G as (part & fs3 & _ & G). apply bind_inr in G as (meta & fs4 & _ & G).
  destruct (part && meta).
  - apply bind_inr in G as (existing & fs5 & _ & G). apply bind_inr in G as (u1 & fs6 & _ & G).
    apply bind_inr in G as (size & fs7 & _ & G). apply bind_inr in G as (u2 & fs8 & _ & G). by injection G.
  - apply bind_inr in G as (u1 & fs5 & _ & G). apply bind_inr in G as (u2 & fs6 & _ & G).
    destruct (write_resume_state _ _ _) as [[e|u3] fs7]; [done|]. by injection G.
Qed.

(** C13: a finished upload is what was declared.  Take an upload that
    [begin_or_resume_upload] accepted, and the part file it named.  If
    [finalize_upload] accepts it later, the uploaded bytes have exactly the
    declared size, their SHA-256 digest is the declared one up to the case of
    its hexadecimal digits, and the bytes are under the returned path, which is
    [files/] and the name of one file: safe characters, no separator, not [.] or
    [..], whatever token and file name the client gave. *)
Theorem finalize_sound `{ProtoCodecs} `{FileUtils.DigestLaws sha256}
    requested metadata fs0 state temp offset fsb name size sha fs rel fs' :
  rs_metadata requested = Some metadata ->
  begin_or_resume_upload requested fs0 = (inr (state, temp, offset), fsb) ->
  storage_root fs = storage_root fs0 ->
  finalize_upload temp (fm_token metadata) name size sha fs = (inr rel, fs') ->
  let bytes := content_of fs temp in
  strlen bytes = size /\
  FileUtils.to_hex (sha256 bytes) = str_map tolower sha /\
  content_of fs' (storage_root fs +:+ "/" +:+ rel) = bytes /\
  exists stored, rel = "files/" +:+ stored /\ plain_name stored.
Proof.
  intros Em Hbegin Hroot. destruct (begin_upload_inr _ _ _ _ _ _ _ Em Hbegin) as [Htoken ->].
  replace (upload_part_path fs0 (fm_token metadata)) with (upload_part_path fs (fm_token metadata))
    by (unfold upload_part_path; by rewrite Hroot).
  set (token := fm_token metadata) in *. unfold finalize_upload. set (temp := upload_part_path fs token) in *.
  intros (n & fs1 & G1 & G)%bind_inr. apply or_error_inr, fs_size_inr in G1 as (c & Hc & -> & F1 & R1).
  apply bind_inr in G as (u & fs2 & G2 & G). destruct (strlen c =? size)%Z eqn:Es; [|done].
  injection G2 as _ <-. apply Z.eqb_eq in Es.
  apply bind_inr in G as (hex & fs3 & G3 & G).
  apply digest_of_file_inr in G3 as (c' & Hc' & -> & F3 & R3). rewrite F1, Hc in Hc'. injection Hc' as <-.
  apply bind_inr in G as (u2 & fs4 & G4 & G).
  destruct (FileUtils.to_hex (sha256 c) =s? str_map tolower sha) eqn:Eh; [|done].
  injection G4 as _ <-. apply String.eqb_eq in Eh.
  apply bind_inr in G as (fs5 & fs6 & [= <- <-] & G).
  apply bind_inr in G as (u3 & fs7 & G7 & G).
  assert (storage_root fs3 = storage_root fs) as R by congruence. rewrite R in *.
  fold (final_path (storage_root fs) token name) in G7.
  apply move_inr in G7 as [G7 R7]; [|apply final_not_tmp].
  apply bind_inr in G as (u4 & fs8 & [= _ <-] & [= <- <-]).
  assert (content_of fs temp = c) as Hb by (unfold content_of; by rewrite Hc).
  cbv zeta. rewrite Hb. split; [done|]. split; [done|]. split; [|eexists; split; [done|by apply stored_name_plain]].
  change (storage_root fs +:+ "/" +:+ _) with (final_path (storage_root fs) token name).
  unfold content_of. rewrite remove_content; [by rewrite G7, F3, F1, Hc|].
  unfold upload_meta_path. rewrite R. apply final_not_tmp.
Qed.

(** ** The delivery pump *)

(** All outputs of a pump on a connection that stays up. *)
Fixpoint pump_run (fuel : nat) (p : Pump) : list pump_output * Pump :=
  match fuel with
  | 0 => ([], p)
  | S fuel' =>
      match send_next true true p with
      | (p1, Some out) =>
          let p2 := output_sent true out p1 in
          match out with
          | PumpFrame _ _ _ _ => let r := pump_run fuel' p2 in (out :: r.1, r.2)
          | _ => ([out], p2)
          end
      | (p1, None) => ([], p1)
      end
  end.

(** The bytes of the stored file that the frames carry, in order. *)
Definition frame_bytes (file : string) (out : pump_output) : string :=
  match out with
  | PumpFrame _ _ offset count => substr (Z.to_nat offset) (Z.to_nat count) file
  | _ => ""
  end.

Definition frame_ok (out : pump_output) : Prop :=
  match out with PumpFrame _ _ _ count => (0 < count <= kBinaryFileFrameBytes)%Z | _ => True end.

Lemma pump_run_spec fuel p file :
  pump_done p = None -> (0 <= pump_offset p <= pump_total p)%Z -> strlen file = pump_total p ->
  (pump_total p - pump_offset p + kBinaryFileFrameBytes <= Z.of_nat fuel * kBinaryFileFrameBytes)%Z ->
  exists p', (pump_run fuel p).2 = p' /\ pump_done p' = Some (true, "") /\
    foldr String.append "" (map (frame_bytes file) (pump_run fuel p).1) =
      str_drop (Z.to_nat (pump_offset p)) file /\
    Forall frame_ok (pump_run fuel p).1.
Proof.
  revert p. induction fuel as [|fuel IH]; intros p Hd Ho Hl Hf; [unfold kBinaryFileFrameBytes in Hf; lia|].
  simpl. unfold send_next. simpl. destruct (pump_total p <=? pump_offset p)%Z eqn:E; case_bools; simpl.
  - eexists. split; [done|]. unfold finish. rewrite Hd. split; [done|]. split; [|repeat constructor].
    assert (Z.to_nat (pump_offset p) = String.length file) as -> by (unfold strlen in Hl; lia).
    rewrite <- (str_app_nil_r file) at 2. by rewrite str_drop_app_length.
  - remember (Z.min (pump_total p - pump_offset p) kBinaryFileFrameBytes) as k eqn:Ek.
    assert (kBinaryFileFrameBytes = 4194304)%Z as HB by done.
    assert (0 < k <= kBinaryFileFrameBytes)%Z as Hk by lia.
    destruct (IH (set_pump_offset (pump_offset p + k) p)) as (p' & Hp & Hdone & Hb & Hok); simpl; auto.
    { lia. }
    { rewrite HB in *. lia. }
    exists p'. split; [done|]. split; [done|]. split; [|by constructor].
    rewrite Hb. simpl. unfold substr. rewrite Z2Nat.inj_add by lia.
    rewrite <- str_drop_drop. apply str_take_drop.
Qed.

(** What a pump meets at one of its rounds: the permission and the connection when
    it goes on, and the connection when the output is on the wire. *)
Record Round := mkRound { permitted : bool; up_before : bool; up_after : bool }.
Definition all_up : Round := mkRound true true true.

(** The outputs of a pump over a schedule of rounds, up to its end or to an output
    whose completion does not come. *)
Fixpoint pump_rounds_run (rounds : list Round) (p : Pump) : list pump_output * Pump :=
  match rounds with
  | [] => ([], p)
  | r :: rest =>
      match send_next (permitted r) (up_before r) p with
      | (p1, None) => ([], p1)
      | (p1, Some (PumpFrame header path offset count as out)) =>
          let p2 := output_sent (up_after r) out p1 in
          match pump_done p2 with
          | Some _ => ([out], p2)
          | None => let next := pump_rounds_run rest p2 in (out :: next.1, next.2)
          end
      | (p1, Some out) => ([out], output_sent (up_after r) out p1)
      end
  end.

(** The outputs a complete download consists of: the frames of the file from
    [offset] on, each with its header, and the end marker. *)
Section Expected.
Variables (id : Z) (path : string) (total : Z).

Definition frame_at (offset : Z) : pump_output :=
  let count := Z.min (total - offset) kBinaryFileFrameBytes in
  PumpFrame ("FILE_DATA " +:+ to_string id +:+ " " +:+ to_string offset +:+ " " +:+ to_string count +:+ nl) path offset count.
Definition frames_needed (offset : Z) : nat :=
  Z.to_nat ((total - offset + kBinaryFileFrameBytes - 1) / kBinaryFileFrameBytes).
Definition expected_outputs (offset : Z) : list pump_output :=
  map (fun i => frame_at (offset + Z.of_nat i * kBinaryFileFrameBytes)) (seq 0 (frames_needed offset)) ++
  [PumpEnd ("FILE_DONE " +:+ to_string id +:+ nl)].

Lemma frames_needed_done offset : (total <= offset)%Z -> frames_needed offset = 0.
Proof.
  intros Ho. unfold frames_needed. assert (kBinaryFileFrameBytes = 4194304)%Z as -> by done.
  assert ((total - offset + 4194304 - 1) / 4194304 <= 0)%Z; [|lia].
  apply Z.lt_succ_r, Z.div_lt_upper_bound; lia.
Qed.

Lemma frames_needed_more offset : (offset < total)%Z ->
  frames_needed offset = S (frames_needed (offset + Z.min (total - offset) kBinaryFileFrameBytes)).
Proof.
  intros Ho. destruct (Z.le_gt_cases (total - offset) kBinaryFileFrameBytes) as [Hk|Hk].
  - rewrite Z.min_l by done. rewrite (frames_needed_done (offset + (total - offset))) by lia. unfold frames_needed.
    assert (kBinaryFileFrameBytes = 4194304)%Z as HB by done. rewrite HB in *.
    assert ((total - offset + 4194304 - 1) / 4194304 = 1)%Z as ->; [|done].
    symmetry. apply (Z.div_unique _ _ _ (total - offset - 1)); lia.
  - rewrite Z.min_r by lia. unfold frames_needed. assert (kBinaryFileFrameBytes = 4194304)%Z as HB by done. rewrite HB in *.
    replace (total - offset + 4194304 - 1)%Z with (total - (offset + 4194304) + 4194304 - 1 + 1 * 4194304)%Z by lia.
    rewrite Z.div_add by done. assert (0 <= (total - (offset + 4194304) + 4194304 - 1) / 4194304)%Z by (apply Z.div_pos; lia). lia.
Qed.

Lemma expected_done offset : (total <= offset)%Z -> expected_outputs offset = [PumpEnd ("FILE_DONE " +:+ to_string id +:+ nl)].
Proof. intros Ho. unfold expected_outputs. by rewrite frames_needed_done. Qed.

Lemma expected_more offset : (offset < total)%Z ->
  expected_outputs offset = frame_at offset :: expected_outputs (offset + Z.min (total - offset) kBinaryFileFrameBytes).
Proof.
  intros Ho. unfold expected_outputs. rewrite frames_needed_more by done. cbn [seq map app].
  rewrite Z.mul_0_l, Z.add_0_r. f_equal. f_equal. rewrite <- seq_shift, map_map. apply map_ext_in. intros i Hi%in_seq. f_equal.
  destruct (Z.le_gt_cases (total - offset) kBinaryFileFrameBytes) as [Hk|Hk].
  - rewrite Z.min_l in Hi by done. rewrite frames_needed_done in Hi; lia.
  - rewrite Z.min_r by lia. lia.
Qed.

(** What a frame puts on the wire behind its header: the bytes of the file it names. *)
Definition carried (fs : Fs) (out : pump_output) : string :=
  match out with
  | PumpFrame _ path offset count => substr (Z.to_nat offset) (Z.to_nat count) (content_of fs path)
  | _ => ""
  end.

Lemma expected_bytes fs k offset :
  strlen (content_of fs path) = total -> (0 <= offset <= total)%Z -> (k = frames_needed offset) ->
  foldr String.append "" (map (carried fs) (expected_outputs offset)) = str_drop (Z.to_nat offset) (content_of fs path).
Proof.
  intros Ht. revert offset. induction k as [|k IH]; intros offset Ho Hk.
  - destruct (decide (offset < total)%Z) as [Hlt|]; [by rewrite frames_needed_more in Hk|].
    rewrite expected_done by lia. cbn. symmetry.
    assert (Z.to_nat offset = String.length (content_of fs path)) as -> by (unfold strlen in Ht; lia).
    rewrite <- (str_app_nil_r (content_of fs path)) at 2. by rewrite str_drop_app_length.
  - destruct (decide (offset < total)%Z) as [Hlt|]; [|by rewrite frames_needed_done in Hk by lia].
    rewrite frames_needed_more in Hk by done. injection Hk as Hk. rewrite expected_more by done. cbn [map foldr].
    assert (0 < kBinaryFileFrameBytes)%Z as HB by done.
    rewrite IH by (lia || done). cbn [carried frame_at]. unfold substr. rewrite Z2Nat.inj_add by lia.
    rewrite <- str_drop_drop. apply str_take_drop.
Qed.

Lemma expected_bounded offset : (0 <= offset)%Z -> Forall frame_ok (expected_outputs offset).
Proof.
  intros Ho. unfold expected_outputs. apply Forall_app. split; [|by repeat constructor].
  apply Forall_forall. intros out Hout%list_elem_of_In%in_map_iff. destruct Hout as (i & <- & Hi%in_seq). unfold frame_ok, frame_at.
  unfold frames_needed in Hi. assert (kBinaryFileFrameBytes = 4194304)%Z as HB by done. rewrite HB in *.
  pose proof (Z.mul_div_le (total - offset + 4194304 - 1) 4194304 ltac:(lia)). lia.
Qed.

(** Any schedule gives a beginning of these outputs; the pump reports success when
    it has given all of them, and only then. *)
Lemma rounds_run_spec rounds p :
  pump_id p = id -> pump_path p = path -> pump_total p = total -> pump_done p = None ->
  let run := pump_rounds_run rounds p in
  run.1 `prefix_of` expected_outputs (pump_offset p) /\
  (pump_done run.2 = Some (true, "") <-> run.1 = expected_outputs (pump_offset p)) /\
  (Forall (.= all_up) rounds -> (frames_needed (pump_offset p) < length rounds)%nat -> run.1 = expected_outputs (pump_offset p)).
Proof.
  intros Hid Hp Ht. revert p Hid Hp Ht. induction rounds as [|r rest IH]; intros p Hid Hp Ht Hd run.
  { subst run. cbn. rewrite Hd. split; [apply prefix_nil|]. split; [|lia]. split; [done|].
    intros E. by destruct (app_cons_not_nil _ _ _ E). }
  assert (forall e, pump_done (finish false e p) = Some (true, "") <-> [] = expected_outputs (pump_offset p)) as Hfail.
  { intros e. unfold finish. rewrite Hd. cbn. split; [done|]. intros E. by destruct (app_cons_not_nil _ _ _ E). }
  subst run. cbn [pump_rounds_run]. unfold send_next. destruct r as [[] [] after]; cbn [permitted up_before up_after negb].
  2-4: split; [apply prefix_nil|]; split; [apply Hfail|by intros [[=] _]%Forall_cons].
  destruct (Z.leb_spec (pump_total p) (pump_offset p)) as [Hle|Hlt]; rewrite Ht in *.
  - rewrite Hid, expected_done by done. cbn. unfold finish. rewrite Hd. done.
  - rewrite expected_more by done. unfold frame_at. rewrite Hid, Hp. cbn [output_sent]. destruct after; cbn [negb].
    + cbn [pump_done set_pump_offset]. rewrite Hd.
      destruct (IH (set_pump_offset (pump_offset p + Z.min (total - pump_offset p) kBinaryFileFrameBytes) p)) as (I1 & I2 & I3); [done..|].
      cbn [fst snd pump_offset set_pump_offset] in *. split; [by apply prefix_cons|]. split.
      * rewrite I2. split; [by intros ->|by intros [=]].
      * intros [_ Hall]%Forall_cons. rewrite frames_needed_more by done. cbn [length]. intros Hl. rewrite I3; [done..|lia].
    + unfold finish. rewrite Hd. cbn. split; [apply prefix_cons, prefix_nil|]. split; [|by intros [[=] _]%Forall_cons].
      split; [done|]. intros [= E]. by destruct (app_cons_not_nil _ _ _ E).
Qed.
End Expected.

Lemma fs_exists_inr path fs b fs' : fs_exists path fs = (inr b, fs') -> files fs' = files fs.
Proof. intros (l & [= _ <-])%fs_call_inr. done. Qed.

(** An accepted delivery: what it found on the disk. *)
Lemma deliver_inr id metadata offset fs p out fs' :
  deliver_file id metadata offset true fs = (inr (p, out), fs') ->
  let path := storage_root fs +:+ "/" +:+ fm_stored_path metadata in
  p = mkPump id path offset (fm_file_size metadata) None /\ out = PumpStart (start_line p) /\
  (offset <= fm_file_size metadata)%Z /\ strlen (content_of fs path) = fm_file_size metadata.
Proof.
  unfold deliver_file. intros (u & fs1 & [= _ <-] & G)%bind_inr. apply bind_inr in G as (u2 & fs2 & G1 & G).
  destruct (Z.ltb_spec (fm_file_size metadata) offset) as [|Ho]; [done|]. injection G1 as _ <-.
  apply bind_inr in G as (f & fs3 & [= <- <-] & G). cbv zeta in G.
  apply bind_inr in G as (is_file & fs4 & G2 & G). apply or_error_inr, fs_exists_inr in G2.
  apply bind_inr in G as (u3 & fs5 & G3 & G). destruct is_file; [|done]. injection G3 as _ <-.
  apply bind_inr in G as (size & fs6 & G4 & G). apply or_error_inr, fs_size_inr in G4 as (c & Hc & -> & _).
  apply bind_inr in G as (u4 & fs7 & G5 & G). destruct (Z.eqb_spec (strlen c) (fm_file_size metadata)); [|done].
  injection G as <- <- <-. cbv zeta. split_and!; [done..|]. unfold content_of. by rewrite <- G2, Hc.
Qed.

(** C15: a download sends the missing part of the stored file, in order, and stops.
    When [deliver_file] accepts, it first announces the offset.  Whatever the
    permission and the connection do from then on, the outputs of the pump are
    a beginning of one list: frames of at most 4 MiB, each announced with its
    transfer, offset and size, and the end marker; the bytes of the stored file
    that the frames of the whole list carry are exactly those behind the
    offset.  The pump reports success when it has given the whole list, and
    only then; and it does when the permission and the connection last for one
    round more than the frames the file needs. *)
Theorem pump_complete id metadata offset fs p out fs' rounds :
  deliver_file id metadata offset true fs = (inr (p, out), fs') -> (0 <= offset)%Z ->
  let path := storage_root fs +:+ "/" +:+ fm_stored_path metadata in
  let expected := expected_outputs id path (fm_file_size metadata) offset in
  let run := pump_rounds_run rounds p in
  out = PumpStart ("FILE_RESUME_START " +:+ to_string id +:+ " " +:+ to_string offset +:+ nl) /\
  run.1 `prefix_of` expected /\
  Forall frame_ok expected /\
  foldr String.append "" (map (carried fs) expected) = str_drop (Z.to_nat offset) (content_of fs path) /\
  (pump_done run.2 = Some (true, "") <-> run.1 = expected) /\
  (Forall (.= all_up) rounds -> (frames_needed (fm_file_size metadata) offset < length rounds)%nat -> run.1 = expected).
Proof.
  intros Hd Ho path expected run. destruct (deliver_inr _ _ _ _ _ _ _ Hd) as (-> & -> & Hle & Hsize). fold path in Hsize.
  destruct (rounds_run_spec id path (fm_file_size metadata) rounds (mkPump id path offset (fm_file_size metadata) None)) as (H1 & H2 & H3); [done..|].
  split_and!; [done|exact H1|by apply expected_bounded|by eapply expected_bytes|exact H2|exact H3].
Qed.
End FileServiceProps.
