(* ===== verification/Policy.v ===== *)
(** * The direct message policy, [ChatRoom/src/server/direct_message_policy.cpp]

    Who may send private messages and files to whom.  The policy asks three
    questions of a store; the class [PolicyStore] is the interface it relies on
    and [PolicyLaws] what the interface promises.  The database layer is an
    instance. *)
From S2P Require Import Prelude Payloads Tables Database Integrity Transactions DatabaseProps.
Import Tables.

Module Policy.

Inductive DirectMessageDecision :=
  | Allowed | TargetMissing | NotFriends | BlockedByRecipient | BlockedBySender | DatabaseError.
#[export] Instance decision_eq_dec : EqDecision DirectMessageDecision.
Proof. solve_decision. Defined.

Class PolicyStore (S : Type) := {
  store_user_exists : string -> M S bool;
  store_are_friends : string -> string -> M S bool;
  store_is_blocked : string -> string -> M S bool;
}.

(** A call of the policy returns its decision; the error text is only used for
    [DatabaseError]. *)
Definition evaluate {S} `{PolicyStore S} (sender recipient : string) (s : S)
    : (DirectMessageDecision * string) * S :=
  match store_user_exists recipient s with
  | (inl error, s1) => ((DatabaseError, error), s1)
  | (inr false, s1) => ((TargetMissing, ""), s1)
  | (inr true, s1) =>
  match store_are_friends sender recipient s1 with
  | (inl error, s2) => ((DatabaseError, error), s2)
  | (inr false, s2) => ((NotFriends, ""), s2)
  | (inr true, s2) =>
  match store_is_blocked recipient sender s2 with
  | (inl error, s3) => ((DatabaseError, error), s3)
  | (inr true, s3) => ((BlockedByRecipient, ""), s3)
  | (inr false, s3) =>
  match store_is_blocked sender recipient s3 with
  | (inl error, s4) => ((DatabaseError, error), s4)
  | (inr true, s4) => ((BlockedBySender, ""), s4)
  | (inr false, s4) => ((Allowed, ""), s4)
  end end end end.

(** What a store promises: its answers are those of the relations it holds, and
    asking does not change them. *)
Record View := mkView {
  v_user : string -> bool; v_friends : string -> string -> bool; v_blocks : string -> string -> bool }.

Class PolicyLaws (S : Type) `{PolicyStore S} := {
  view : S -> View;
  user_exists_law : forall u s r s', store_user_exists u s = (r, s') ->
    view s' = view s /\ forall b, r = inr b -> b = v_user (view s) u;
  are_friends_law : forall a b s r s', store_are_friends a b s = (r, s') ->
    view s' = view s /\ forall x, r = inr x -> x = v_friends (view s) a b;
  is_blocked_law : forall a b s r s', store_is_blocked a b s = (r, s') ->
    view s' = view s /\ forall x, r = inr x -> x = v_blocks (view s) a b;
}.

(** The policy as a function of the relations. *)
Definition decision (v : View) (sender recipient : string) : DirectMessageDecision :=
  if negb (v_user v recipient) then TargetMissing
  else if negb (v_friends v sender recipient) then NotFriends
  else if v_blocks v recipient sender then BlockedByRecipient
  else if v_blocks v sender recipient then BlockedBySender
  else Allowed.

#[export] Instance db_store : PolicyStore Db := {
  store_user_exists := Database.user_exists;
  store_are_friends := Database.are_friends;
  store_is_blocked := Database.is_friend_blocked;
}.

(** ** Lemmas *)

Lemma evaluate_spec {S} `{PolicyLaws S} sender recipient (s : S) d e s' :
  evaluate sender recipient s = ((d, e), s') ->
  view s' = view s /\ (d <> DatabaseError -> d = decision (view s) sender recipient).
Proof.
  unfold evaluate, decision.
  destruct (store_user_exists recipient s) as [r1 s1] eqn:E1.
  apply user_exists_law in E1 as [V1 L1].
  destruct r1 as [|[]]; [by intros [= <- <- <-]| |intros [= <- <- <-]; by rewrite <- (L1 _ eq_refl)].
  rewrite <- (L1 _ eq_refl). destruct (store_are_friends sender recipient s1) as [r2 s2] eqn:E2.
  apply are_friends_law in E2 as [V2 L2]. rewrite V1 in V2, L2.
  destruct r2 as [|[]]; [by intros [= <- <- <-]| |intros [= <- <- <-]; by rewrite <- (L2 _ eq_refl)].
  rewrite <- (L2 _ eq_refl). destruct (store_is_blocked recipient sender s2) as [r3 s3] eqn:E3.
  apply is_blocked_law in E3 as [V3 L3]. rewrite V2 in V3, L3.
  destruct r3 as [|[]]; [by intros [= <- <- <-]|intros [= <- <- <-]; by rewrite <- (L3 _ eq_refl)|].
  rewrite <- (L3 _ eq_refl). destruct (store_is_blocked sender recipient s3) as [r4 s4] eqn:E4.
  apply is_blocked_law in E4 as [V4 L4]. rewrite V3 in V4, L4.
  destruct r4 as [|[]]; [by intros [= <- <- <-]| |]; intros [= <- <- <-]; by rewrite <- (L4 _ eq_refl).
Qed.

(** The database as a store: its view is read off the tables. *)
Definition db_view (t : Tables) : View :=
  mkView (has_user t) (DatabaseProps.friends t)
    (fun a b => exists_row (is_pair a b) (friend_blocks t)).

Lemma lease_query_state {A} (q : Tables -> A) db r db' :
  Database.lease (Database.query_prepared q) db = (r, db') ->
  tables db' = tables db /\ saved db' = saved db /\ forall a, r = inr a -> a = q (tables db).
Proof.
  intros E. destruct (proj2 (Transactions.reads_bind _ _ Transactions.reads_step
    (fun _ : unit => Transactions.reads_query q)) db) as (Ht & Hs & _).
  change (Database.lease (Database.query_prepared q) db) with
    ((engine_step ≫= fun _ => Database.query_prepared q) db) in E. rewrite E in Ht, Hs.
  split; [done|]. split; [done|]. intros a ->.
  change (Database.lease (Database.query_prepared q) db = (inr a, db')) in E.
  apply DatabaseProps.lease_inr in E as (db1 & <- & _ & E). by apply DatabaseProps.query_inr in E as (-> & _).
Qed.

#[export] Instance db_laws : PolicyLaws Db.
Proof.
  refine {| view := fun db => db_view (tables db) |}.
  - intros u db r db' (-> & _ & Hr)%lease_query_state. done.
  - intros a b db r db' (-> & _ & Hr)%lease_query_state. done.
  - intros a b db r db' (-> & _ & Hr)%lease_query_state. done.
Defined.

Lemma evaluate_db_state sender recipient db d e db' :
  evaluate sender recipient db = ((d, e), db') -> tables db' = tables db /\ saved db' = saved db.
Proof.
  unfold evaluate. simpl.
  destruct (Database.user_exists recipient db) as [r1 s1] eqn:E1.
  apply lease_query_state in E1 as (T1 & S1 & _). destruct r1 as [|[]]; [by intros [= <- <- <-]| |by intros [= <- <- <-]].
  destruct (Database.are_friends sender recipient s1) as [r2 s2] eqn:E2.
  apply lease_query_state in E2 as (T2 & S2 & _). rewrite T1 in T2. rewrite S1 in S2.
  destruct r2 as [|[]]; [by intros [= <- <- <-]| |by intros [= <- <- <-]].
  destruct (Database.is_friend_blocked recipient sender s2) as [r3 s3] eqn:E3.
  apply lease_query_state in E3 as (T3 & S3 & _). rewrite T2 in T3. rewrite S2 in S3.
  destruct r3 as [|[]]; [by intros [= <- <- <-]..|].
  destruct (Database.is_friend_blocked sender recipient s3) as [r4 s4] eqn:E4.
  apply lease_query_state in E4 as (T4 & S4 & _). rewrite T3 in T4. rewrite S3 in S4.
  destruct r4 as [|[]]; by intros [= <- <- <-].
Qed.

(** The policy decides by four relations of the store in this order: the
    recipient exists, the two are friends, the recipient does not block the
    sender, the sender does not block the recipient; a decision other than
    [DatabaseError] is the one these relations give, and asking changes none
    of them.  The theorem holds of every store that keeps the interface's
    promises, the database among them. *)
Theorem evaluate_correct {S} `{PolicyLaws S} sender recipient (s : S) :
  let '((d, _), s') := evaluate sender recipient s in
  view s' = view s /\
  (d <> DatabaseError -> d = decision (view s) sender recipient) /\
  (d = Allowed -> v_user (view s) recipient = true /\ v_friends (view s) sender recipient = true /\
     v_blocks (view s) recipient sender = false /\ v_blocks (view s) sender recipient = false).
Proof.
  destruct (evaluate sender recipient s) as [[d e] s'] eqn:E.
  apply evaluate_spec in E as [Hv Hd]. split; [done|]. split; [done|]. intros ->.
  specialize (Hd ltac:(done)). unfold decision in Hd.
  destruct (v_user (view s) recipient), (v_friends (view s) sender recipient),
    (v_blocks (view s) recipient sender), (v_blocks (view s) sender recipient); simpl in Hd; try done.
Qed.
End Policy.
