(* ===== verification/World.v ===== *)
(** * The state of the chat server, [ChatRoom/include/chat_server.hpp]

    One record for everything a handler of [ChatServer] reads or changes: the
    database, Redis and file-system connections, the client connections with
    their sessions, input and output, the registry of online users, the two
    permission generations, the queue of the delivery thread, and the download
    jobs handed to the file service.  Handlers are code in the monad [H]: they
    change the world and may return early.

    A handler runs to completion before the next event.  Where the code leaves
    a critical section or decides without a lock and then reads a generation,
    the other threads may run; [unlocked] marks these points, and what the
    other threads do there is a parameter. *)
From S2P Require Import Prelude Protocol FileUtils Password Payloads Tables Database Registry Redis.
From S2P Require Import FileService.
Import Payloads Tables Database Registry.

Module World.

Abbreviation ConnId := Registry.ConnId.

(** ** Sessions, [include/server/client_session.hpp] *)

Record IncomingFileUpload := mkUpload {
  up_token : string;
  up_scope : FileTransferScope;
  up_target : string;
  up_group_id : Z;
  up_file_name : string;
  up_expected_size : Z;
  up_received_size : Z;
  up_sha256_hex : string;
  up_temp_path : string;
  up_recipients : list string;
  up_resume_state : FileUploadResumeState }.

Definition set_up_received_size (x : Z) (r : IncomingFileUpload) : IncomingFileUpload :=
  mkUpload (up_token r) (up_scope r) (up_target r) (up_group_id r) (up_file_name r)
    (up_expected_size r) x (up_sha256_hex r) (up_temp_path r) (up_recipients r)
    (up_resume_state r).
Definition set_up_recipients (x : list string) (r : IncomingFileUpload) : IncomingFileUpload :=
  mkUpload (up_token r) (up_scope r) (up_target r) (up_group_id r) (up_file_name r)
    (up_expected_size r) (up_received_size r) (up_sha256_hex r) (up_temp_path r) x
    (up_resume_state r).

Record PendingBinaryUploadFrame := mkFrame {
  fr_token : string;
  fr_start_offset : Z;
  fr_next_offset : Z;
  fr_remaining_bytes : Z;
  fr_bytes : string }.


Record ClientSession := mkSession {
  logged_in : bool;
  username : string;
  realtime_private_target : string;
  realtime_private_generation : Z;
  realtime_group_name : string;
  realtime_group_id : Z;
  realtime_group_recipients : list string;
  realtime_group_generation : Z;
  upload : option IncomingFileUpload;
  binary_upload : option PendingBinaryUploadFrame;
  file_deliveries_in_progress : gset Z;
  offered_files : gmap Z StoredFileTransfer;
  file_delivery_cancel_flags : gmap Z nat }.

Definition set_logged_in (x : bool) (r : ClientSession) : ClientSession :=
  mkSession x (username r) (realtime_private_target r) (realtime_private_generation r)
    (realtime_group_name r) (realtime_group_id r) (realtime_group_recipients r)
    (realtime_group_generation r) (upload r) (binary_upload r) (file_deliveries_in_progress r)
    (offered_files r) (file_delivery_cancel_flags r).
Definition set_username (x : string) (r : ClientSession) : ClientSession :=
  mkSession (logged_in r) x (realtime_private_target r) (realtime_private_generation r)
    (realtime_group_name r) (realtime_group_id r) (realtime_group_recipients r)
    (realtime_group_generation r) (upload r) (binary_upload r) (file_deliveries_in_progress r)
    (offered_files r) (file_delivery_cancel_flags r).
Definition set_realtime_private_target (x : string) (r : ClientSession) : ClientSession :=
  mkSession (logged_in r) (username r) x (realtime_private_generation r) (realtime_group_name r)
    (realtime_group_id r) (realtime_group_recipients r) (realtime_group_generation r) (upload r)
    (binary_upload r) (file_deliveries_in_progress r) (offered_files r)
    (file_delivery_cancel_flags r).
Definition set_realtime_private_generation (x : Z) (r : ClientSession) : ClientSession :=
  mkSession (logged_in r) (username r) (realtime_private_target r) x (realtime_group_name r)
    (realtime_group_id r) (realtime_group_recipients r) (realtime_group_generation r) (upload r)
    (binary_upload r) (file_deliveries_in_progress r) (offered_files r)
    (file_delivery_cancel_flags r).
Definition set_realtime_group_name (x : string) (r : ClientSession) : ClientSession :=
  mkSession (logged_in r) (username r) (realtime_private_target r) (realtime_private_generation r)
    x (realtime_group_id r) (realtime_group_recipients r) (realtime_group_generation r) (upload r)
    (binary_upload r) (file_deliveries_in_progress r) (offered_files r)
    (file_delivery_cancel_flags r).
Definition set_realtime_group_id (x : Z) (r : ClientSession) : ClientSession :=
  mkSession (logged_in r) (username r) (realtime_private_target r) (realtime_private_generation r)
    (realtime_group_name r) x (realtime_group_recipients r) (realtime_group_generation r)
    (upload r) (binary_upload r) (file_deliveries_in_progress r) (offered_files r)
    (file_delivery_cancel_flags r).
Definition set_realtime_group_recipients (x : list string) (r : ClientSession) : ClientSession :=
  mkSession (logged_in r) (username r) (realtime_private_target r) (realtime_private_generation r)
    (realtime_group_name r) (realtime_group_id r) x (realtime_group_generation r) (upload r)
    (binary_upload r) (file_deliveries_in_progress r) (offered_files r)
    (file_delivery_cancel_flags r).
Definition set_realtime_group_generation (x : Z) (r : ClientSession) : ClientSession :=
  mkSession (logged_in r) (username r) (realtime_private_target r) (realtime_private_generation r)
    (realtime_group_name r) (realtime_group_id r) (realtime_group_recipients r) x (upload r)
    (binary_upload r) (file_deliveries_in_progress r) (offered_files r)
    (file_delivery_cancel_flags r).
Definition set_upload (x : option IncomingFileUpload) (r : ClientSession) : ClientSession :=
  mkSession (logged_in r) (username r) (realtime_private_target r) (realtime_private_generation r)
    (realtime_group_name r) (realtime_group_id r) (realtime_group_recipients r)
    (realtime_group_generation r) x (binary_upload r) (file_deliveries_in_progress r)
    (offered_files r) (file_delivery_cancel_flags r).
Definition set_binary_upload (x : option PendingBinaryUploadFrame) (r : ClientSession) : ClientSession :=
  mkSession (logged_in r) (username r) (realtime_private_target r) (realtime_private_generation r)
    (realtime_group_name r) (realtime_group_id r) (realtime_group_recipients r)
    (realtime_group_generation r) (upload r) x (file_deliveries_in_progress r) (offered_files r)
    (file_delivery_cancel_flags r).
Definition set_file_deliveries_in_progress (x : gset Z) (r : ClientSession) : ClientSession :=
  mkSession (logged_in r) (username r) (realtime_private_target r) (realtime_private_generation r)
    (realtime_group_name r) (realtime_group_id r) (realtime_group_recipients r)
    (realtime_group_generation r) (upload r) (binary_upload r) x (offered_files r)
    (file_delivery_cancel_flags r).
Definition set_offered_files (x : gmap Z StoredFileTransfer) (r : ClientSession) : ClientSession :=
  mkSession (logged_in r) (username r) (realtime_private_target r) (realtime_private_generation r)
    (realtime_group_name r) (realtime_group_id r) (realtime_group_recipients r)
    (realtime_group_generation r) (upload r) (binary_upload r) (file_deliveries_in_progress r) x
    (file_delivery_cancel_flags r).
Definition set_file_delivery_cancel_flags (x : gmap Z nat) (r : ClientSession) : ClientSession :=
  mkSession (logged_in r) (username r) (realtime_private_target r) (realtime_private_generation r)
    (realtime_group_name r) (realtime_group_id r) (realtime_group_recipients r)
    (realtime_group_generation r) (upload r) (binary_upload r) (file_deliveries_in_progress r)
    (offered_files r) x.

Definition new_session : ClientSession :=
  mkSession false "" "" 0 "" 0 [] 0 None None ∅ ∅ ∅.

(** ** Connections and background work *)

Inductive DeliveryPersistKind := PersistPrivate | PersistGroup.
Record DeliveryPersistTask := mkTask {
  pt_kind : DeliveryPersistKind; pt_message_id : Z; pt_recipient : string;
  pt_decrement_unread : bool }.

Inductive conn_state := Connected | Disconnecting | Disconnected.
#[export] Instance conn_state_eq_dec : EqDecision conn_state.
Proof. solve_decision. Defined.

(** A text given to [TcpConnection::send], with the task its completion callback
    enqueues once the text is on the wire. *)
Record Outgoing := mkOut { o_text : string; o_done : option DeliveryPersistTask }.

Record Conn := mkConn {
  c_state : conn_state;
  c_session : option ClientSession;
  c_in : string;
  c_out : list Outgoing }.

Definition set_c_state (x : conn_state) (r : Conn) : Conn :=
  mkConn x (c_session r) (c_in r) (c_out r).
Definition set_c_session (x : option ClientSession) (r : Conn) : Conn :=
  mkConn (c_state r) x (c_in r) (c_out r).
Definition set_c_in (x : string) (r : Conn) : Conn :=
  mkConn (c_state r) (c_session r) x (c_out r).
Definition set_c_out (x : list Outgoing) (r : Conn) : Conn :=
  mkConn (c_state r) (c_session r) (c_in r) x.

(** A call of [deliver_async] that the file service has still to run. *)
Record DeliveryJob := mkJob {
  j_transfer : StoredFileTransfer; j_offset : Z; j_connection : ConnId; j_flag : nat;
  j_recipient : string }.

Record World := mkWorld {
  w_db : Db;
  w_redis : Redis.Redis;
  w_fs : FileService.Fs;
  w_conns : gmap ConnId Conn;
  w_online : Users;
  w_direct_generation : Z;
  w_group_generation : Z;
  w_persist_queue : list DeliveryPersistTask;
  w_flags : gmap nat bool;
  w_next_flag : nat;
  w_jobs : list DeliveryJob;
  w_clock : Z;
  w_entropy : list (option string) }.

Definition set_w_db (x : Db) (r : World) : World :=
  mkWorld x (w_redis r) (w_fs r) (w_conns r) (w_online r) (w_direct_generation r)
    (w_group_generation r) (w_persist_queue r) (w_flags r) (w_next_flag r) (w_jobs r) (w_clock r)
    (w_entropy r).
Definition set_w_redis (x : Redis.Redis) (r : World) : World :=
  mkWorld (w_db r) x (w_fs r) (w_conns r) (w_online r) (w_direct_generation r)
    (w_group_generation r) (w_persist_queue r) (w_flags r) (w_next_flag r) (w_jobs r) (w_clock r)
    (w_entropy r).
Definition set_w_fs (x : FileService.Fs) (r : World) : World :=
  mkWorld (w_db r) (w_redis r) x (w_conns r) (w_online r) (w_direct_generation r)
    (w_group_generation r) (w_persist_queue r) (w_flags r) (w_next_flag r) (w_jobs r) (w_clock r)
    (w_entropy r).
Definition set_w_conns (x : gmap ConnId Conn) (r : World) : World :=
  mkWorld (w_db r) (w_redis r) (w_fs r) x (w_online r) (w_direct_generation r)
    (w_group_generation r) (w_persist_queue r) (w_flags r) (w_next_flag r) (w_jobs r) (w_clock r)
    (w_entropy r).
Definition set_w_online (x : Users) (r : World) : World :=
  mkWorld (w_db r) (w_redis r) (w_fs r) (w_conns r) x (w_direct_generation r)
    (w_group_generation r) (w_persist_queue r) (w_flags r) (w_next_flag r) (w_jobs r) (w_clock r)
    (w_entropy r).
Definition set_w_direct_generation (x : Z) (r : World) : World :=
  mkWorld (w_db r) (w_redis r) (w_fs r) (w_conns r) (w_online r) x (w_group_generation r)
    (w_persist_queue r) (w_flags r) (w_next_flag r) (w_jobs r) (w_clock r) (w_entropy r).
Definition set_w_group_generation (x : Z) (r : World) : World :=
  mkWorld (w_db r) (w_redis r) (w_fs r) (w_conns r) (w_online r) (w_direct_generation r) x
    (w_persist_queue r) (w_flags r) (w_next_flag r) (w_jobs r) (w_clock r) (w_entropy r).
Definition set_w_persist_queue (x : list DeliveryPersistTask) (r : World) : World :=
  mkWorld (w_db r) (w_redis r) (w_fs r) (w_conns r) (w_online r) (w_direct_generation r)
    (w_group_generation r) x (w_flags r) (w_next_flag r) (w_jobs r) (w_clock r) (w_entropy r).
Definition set_w_flags (x : gmap nat bool) (r : World) : World :=
  mkWorld (w_db r) (w_redis r) (w_fs r) (w_conns r) (w_online r) (w_direct_generation r)
    (w_group_generation r) (w_persist_queue r) x (w_next_flag r) (w_jobs r) (w_clock r)
    (w_entropy r).
Definition set_w_next_flag (x : nat) (r : World) : World :=
  mkWorld (w_db r) (w_redis r) (w_fs r) (w_conns r) (w_online r) (w_direct_generation r)
    (w_group_generation r) (w_persist_queue r) (w_flags r) x (w_jobs r) (w_clock r) (w_entropy r).
Definition set_w_jobs (x : list DeliveryJob) (r : World) : World :=
  mkWorld (w_db r) (w_redis r) (w_fs r) (w_conns r) (w_online r) (w_direct_generation r)
    (w_group_generation r) (w_persist_queue r) (w_flags r) (w_next_flag r) x (w_clock r)
    (w_entropy r).
Definition set_w_clock (x : Z) (r : World) : World :=
  mkWorld (w_db r) (w_redis r) (w_fs r) (w_conns r) (w_online r) (w_direct_generation r)
    (w_group_generation r) (w_persist_queue r) (w_flags r) (w_next_flag r) (w_jobs r) x
    (w_entropy r).
Definition set_w_entropy (x : list (option string)) (r : World) : World :=
  mkWorld (w_db r) (w_redis r) (w_fs r) (w_conns r) (w_online r) (w_direct_generation r)
    (w_group_generation r) (w_persist_queue r) (w_flags r) (w_next_flag r) (w_jobs r) (w_clock r)
    x.

(** ** Handlers *)

(** Code of a handler: [None] when it has returned, with the world it leaves. *)
Definition H (A : Type) : Type := World -> option A * World.

#[export] Instance H_ret : MRet H := fun A a w => (Some a, w).
#[export] Instance H_bind : MBind H := fun A B k h w =>
  match h w with
  | (Some a, w') => k a w'
  | (None, w') => (None, w')
  end.

(** [return;] *)
Definition done_ {A} : H A := fun w => (None, w).
Definition look : H World := fun w => (Some w, w).
Definition update (f : World -> World) : H unit := fun w => (Some tt, f w).

(** A block that may return early without ending its caller. *)
Definition call (h : H unit) : H unit := fun w => (Some tt, (h w).2).

Fixpoint for_each {A} (f : A -> H unit) (l : list A) : H unit :=
  match l with
  | [] => mret tt
  | a :: rest => f a ;; for_each f rest
  end.

(** Calls to the database, Redis and the file service: their error or result. *)
Definition on_db {A} (m : M Db A) : H (string + A) := fun w =>
  let r := m (w_db w) in (Some r.1, set_w_db r.2 w).
Definition on_redis {A} (m : M Redis.Redis A) : H (string + A) := fun w =>
  let r := m (w_redis w) in (Some r.1, set_w_redis r.2 w).
Definition on_fs {A} (m : M FileService.Fs A) : H (string + A) := fun w =>
  let r := m (w_fs w) in (Some r.1, set_w_fs r.2 w).

(** ** Connections *)

(** What locking a weak pointer to a connection gives. *)
Definition conn_status_of (w : World) (c : ConnId) : conn_status :=
  match w_conns w !! c with
  | None => Expired
  | Some k => match c_state k with Connected => Open | _ => Closed end
  end.

Definition with_conn (c : ConnId) (f : Conn -> Conn) : H unit :=
  update (fun w => set_w_conns (alter f c (w_conns w)) w).

(** [TcpConnection::send]: dropped unless connected. *)
Definition queue_out (o : Outgoing) (k : Conn) : Conn :=
  match c_state k with Connected => set_c_out (c_out k ++ [o]) k | _ => k end.

Definition send (c : ConnId) (text : string) : H unit := with_conn c (queue_out (mkOut text None)).
Definition send_then (c : ConnId) (text : string) (task : DeliveryPersistTask) : H unit :=
  with_conn c (queue_out (mkOut text (Some task))).

(** [connection->send(text); return;] *)
Definition reply {A} (c : ConnId) (text : string) : H A := send c text ;; done_.

Definition shutdown (c : ConnId) : H unit :=
  with_conn c (fun k => match c_state k with Connected => set_c_state Disconnecting k | _ => k end).
Definition forceClose (c : ConnId) : H unit :=
  with_conn c (fun k => match c_state k with Disconnected => k | _ => set_c_state Disconnecting k end).

Definition session_of (w : World) (c : ConnId) : option ClientSession :=
  w_conns w !! c ≫= c_session.

(** The session reference of a running handler. *)
Definition session (c : ConnId) : H ClientSession := fun w =>
  match session_of w c with
  | Some s => (Some s, w)
  | None => (None, w)
  end.
Definition set_session (c : ConnId) (f : ClientSession -> ClientSession) : H unit :=
  with_conn c (fun k => set_c_session (f <$> c_session k) k).

Definition now_unix_ms : H Z := w ← look; mret (w_clock w).

Definition bump (generation : Z) : Z := wrap 64 (generation + 1).
Definition bump_direct : H unit :=
  update (fun w => set_w_direct_generation (bump (w_direct_generation w)) w).
Definition bump_group : H unit :=
  update (fun w => set_w_group_generation (bump (w_group_generation w)) w).

(** What the code takes from its environment: the identity of this server, the
    key derivation, the local time format, and the steps the other threads take
    where no lock is held. *)
Class ServerEnv := {
  server_instance_id : string;
  derive : string -> string -> Z -> nat -> option string;
  format_unix_ms : Z -> string;
  others : World -> World;
}.

Definition unlocked `{ServerEnv} : H unit := update others.

(** ** The registry *)

Definition on_registry {A} (f : (ConnId -> conn_status) -> Users -> A * Users) : H A := fun w =>
  let r := f (conn_status_of w) (w_online w) in (Some r.1, set_w_online r.2 w).

Definition find_online_user (username : string) : H (option ConnId) :=
  on_registry (fun status => Registry.find status username).
Definition is_user_online (username : string) : H bool :=
  on_registry (fun status => Registry.is_online status username).
Definition register_online_user (username : string) (c : ConnId) : H bool :=
  on_registry (fun status => Registry.add status username c).
Definition remove_online_user (username : string) (c : ConnId) : H unit :=
  on_registry (fun status users => (tt, Registry.remove status username c users)).

Definition notify_user_if_online (username message : string) : H unit :=
  target ← find_online_user username;
  match target with
  | Some c => send c message
  | None => mret tt
  end.

Definition broadcast_to_logged_in (message : string) (except : option ConnId) : H unit :=
  recipients ← on_registry (fun status => Registry.connections status except);
  for_each (fun c => send c message) recipients.

(** ** Shared checks *)

Definition require_login (c : ConnId) : H ClientSession :=
  s ← session c;
  if logged_in s then mret s
  else reply c ("[error] 请先登录后再执行该操作。" +:+ nl).

Definition database_error {A} (c : ConnId) (error : string) : H A :=
  reply c ("[error] 数据库操作失败：" +:+ error +:+ nl).

(** [if (!database_.m(...)) { database_error(...); return; }] *)
Definition checked {A} (c : ConnId) (m : M Db A) : H A :=
  r ← on_db m;
  match r with
  | inl error => database_error c error
  | inr a => mret a
  end.

(** [if (b) { connection->send(text); return; }] *)
Definition reply_if (b : bool) (c : ConnId) (text : string) : H unit :=
  if b then reply c text else mret tt.

Definition is_valid_username (username : string) : bool :=
  if (strlen username <? 3)%Z || (20 <? strlen username)%Z then false
  else str_forall (fun ch => isalnum ch || in_range 95 95 ch) username.

Definition is_valid_password (password : string) : bool :=
  if (strlen password <? 4)%Z || (64 <? strlen password)%Z then false
  else str_forall (fun ch => negb (isspace ch || iscntrl ch)) password.

Definition is_valid_group_name (group_name : string) : bool :=
  if (strlen group_name <? 2)%Z || (32 <? strlen group_name)%Z then false
  else str_forall (fun ch => isalnum ch || in_range 95 95 ch || in_range 45 45 ch) group_name.

Definition extract_single_username (c : ConnId) (arguments usage : string) : H string :=
  match Protocol.split_words arguments with
  | [name] => if is_valid_username name then mret name
              else reply c ("[error] 用法：" +:+ usage +:+ nl)
  | _ => reply c ("[error] 用法：" +:+ usage +:+ nl)
  end.

Definition extract_single_group_name (c : ConnId) (arguments usage : string) : H string :=
  let wrong := "[error] 用法：" +:+ usage +:+
               "；群名称长度 2-32，只能包含字母、数字、下划线或短横线。" +:+ nl in
  match Protocol.split_words arguments with
  | [name] => if is_valid_group_name name then mret name else reply c wrong
  | _ => reply c wrong
  end.

Definition extract_group_and_username (c : ConnId) (arguments usage : string)
    : H (string * string) :=
  match Protocol.split_words arguments with
  | [group; name] => if is_valid_group_name group && is_valid_username name then mret (group, name)
                     else reply c ("[error] 用法：" +:+ usage +:+ nl)
  | _ => reply c ("[error] 用法：" +:+ usage +:+ nl)
  end.

Definition join_names (names : list string) : string :=
  match names with
  | [] => "(none)"
  | first :: rest => foldl (fun out name => out +:+ ", " +:+ name) first rest
  end.

Definition group_role_name (role : GroupRole) : string :=
  match role with Owner => "群主" | Admin => "管理员" | Member => "成员" end.

Definition is_group_manager (role : GroupRole) : bool :=
  match role with Owner | Admin => true | Member => false end.

Definition count_text {A} (l : list A) : string := to_string (Z.of_nat (length l)).

Definition parse_uint64_value (text : string) : option Z :=
  if is_empty text then None else whole (from_chars_unsigned 64 text).

Definition encode_text_token (text : string) : string := FileUtils.percent_encode text.

(** ** Redis, best effort: failures are only logged *)

Section BestEffort.
Context `{ServerEnv}.

Definition remove_redis_presence_best_effort (username : string) : H unit :=
  on_redis (Redis.remove_presence_if_owned username server_instance_id) ;; mret tt.

Definition adjust_redis_unread_best_effort (username kind : string) (delta : Z) : H unit :=
  on_redis (Redis.adjust_unread username kind delta) ;; mret tt.

Definition send_redis_unread_summary_best_effort (c : ConnId) (username : string) : H unit :=
  r ← on_redis (Redis.unread_counts username);
  match r with
  | inl _ => mret tt
  | inr n =>
      if (Redis.private_messages n =? 0)%Z && (Redis.group_messages n =? 0)%Z &&
         (Redis.private_files n =? 0)%Z && (Redis.group_files n =? 0)%Z
      then mret tt
      else send c ("[system] Redis 未读缓存：私聊消息=" +:+ to_string_signed (Redis.private_messages n) +:+
                   "，群消息=" +:+ to_string_signed (Redis.group_messages n) +:+
                   "，私聊文件=" +:+ to_string_signed (Redis.private_files n) +:+
                   "，群文件=" +:+ to_string_signed (Redis.group_files n) +:+
                   "。最终持久化投递状态仍以 MySQL 为准。" +:+ nl)
  end.

(** The answer of Redis decides whether the login may go on. *)
Definition claim_redis_presence (username : string) (c : ConnId) : H bool :=
  let unavailable := "[error] Redis 在线状态服务不可用；login cannot complete." +:+ nl in
  r ← on_redis (Redis.claim_presence username server_instance_id);
  match r with
  | inl _ => send c unavailable ;; mret false
  | inr true => mret true
  | inr false =>
      o ← on_redis (Redis.presence_owner username);
      match o with
      | inl _ => send c unavailable ;; mret false
      | inr owner =>
          if bool_decide (owner = Some server_instance_id) then
            f ← on_redis (Redis.refresh_presence_if_owned username server_instance_id);
            match f with
            | inr true => mret true
            | _ => send c ("[error] Redis 在线状态刷新失败；login cannot complete." +:+ nl) ;; mret false
            end
          else send c ("[error] 该账号已经在线。on another server instance." +:+ nl) ;; mret false
      end
  end.

(** One round of [presence_refresh_loop]. *)
Definition refresh_all_presence_best_effort : H unit :=
  names ← on_registry Registry.usernames;
  for_each (fun name =>
    r ← on_redis (Redis.refresh_presence_if_owned name server_instance_id);
    match r with
    | inr false => on_redis (Redis.claim_presence name server_instance_id) ;; mret tt
    | _ => mret tt
    end) names.
End BestEffort.

(** ** The delivery thread *)

Definition enqueue_delivery_persist (task : DeliveryPersistTask) (w : World) : World :=
  set_w_persist_queue (w_persist_queue w ++ [task]) w.

(** One iteration of [delivery_persist_loop] on a non-empty queue. *)
Definition delivery_persist_step : H unit :=
  w ← look;
  match w_persist_queue w with
  | [] => mret tt
  | task :: rest =>
      update (set_w_persist_queue rest) ;;
      now ← now_unix_ms;
      ok ← on_db (match pt_kind task with
                  | PersistPrivate => mark_private_message_delivered (pt_message_id task) (pt_recipient task) now
                  | PersistGroup => mark_group_message_delivered (pt_message_id task) (pt_recipient task) now
                  end);
      match ok with
      | inl _ => mret tt
      | inr _ =>
          if pt_decrement_unread task
          then adjust_redis_unread_best_effort (pt_recipient task)
                 (match pt_kind task with PersistPrivate => "private" | PersistGroup => "group" end) (-1)
          else mret tt
      end
  end.

(** The network writes the first pending output of a connection; its completion
    callback runs. *)
Definition flush_one (c : ConnId) : H unit := fun w =>
  match w_conns w !! c with
  | Some k =>
      match c_out k with
      | [] => (Some tt, w)
      | o :: rest =>
          let w := set_w_conns (<[c := set_c_out rest k]> (w_conns w)) w in
          (Some tt, match o_done o with Some task => enqueue_delivery_persist task w | None => w end)
      end
  | None => (Some tt, w)
  end.

End World.
