(* ===== verification/Delivery.v ===== *)
(** * Notices and offline delivery, [ChatRoom/src/chat_server.cpp]

    What a user is sent at login and on request: pending friend and group
    requests, the unread summary, offline messages and offline files. *)
From S2P Require Import Prelude Protocol FileUtils Payloads Tables Database Registry FileService World.
Import Payloads Tables Database World.

Module Delivery.

Definition kOfflineDeliveryBatch : Z := 100.
Definition kOfflineFileDeliveryBatch : Z := 10.

Section Delivery.
Context `{ProtoCodecs} `{ServerEnv}.

Definition notify_pending_requests (c : ConnId) (username : string) : H unit :=
  friends ← on_db (list_incoming_requests username);
  match friends with
  | inr (_ :: _ as pending) =>
      send c ("[system] 你有 " +:+ count_text pending +:+
              " pending friend request(s). Use command 16." +:+ nl)
  | _ => mret tt
  end ;;
  groups ← on_db (list_managed_group_request_counts username);
  match groups with
  | inr requests =>
      for_each (fun request =>
        send c ("[system] 群 " +:+ rc_group request +:+ " 有 " +:+ to_string (rc_count request) +:+
                " pending join request(s). Use command 32 for group requests: 32 " +:+
                rc_group request +:+ "." +:+ nl)) requests
  | inl _ => mret tt
  end.

Definition offline_private_text (message : StoredMessage) : string :=
  "[offline #" +:+ to_string (sm_id message) +:+ "] [private from " +:+ cm_sender (sm_payload message) +:+ "] " +:+
  encode_text_token (cm_content (sm_payload message)) +:+ nl.
Definition offline_group_text (message : StoredGroupMessage) : string :=
  "[offline #G" +:+ to_string (sg_id message) +:+ "] [group " +:+ gp_group_name (sg_payload message) +:+ "] [" +:+
  gp_sender (sg_payload message) +:+ "] " +:+ encode_text_token (gp_content (sg_payload message)) +:+ nl.

Definition deliver_private (c : ConnId) (username : string) (message : StoredMessage) : H unit :=
  blocked ← on_db (is_friend_blocked username (cm_sender (sm_payload message)));
  match blocked with
  | inr false =>
      send_then c (offline_private_text message)
        (mkTask PersistPrivate (sm_id message) username true)
  | _ => mret tt
  end.

Definition deliver_group (c : ConnId) (username : string) (message : StoredGroupMessage) : H unit :=
  send_then c (offline_group_text message)
    (mkTask PersistGroup (sg_id message) username true).

Definition deliver_pending_messages (c : ConnId) (username : string) : H unit :=
  private ← on_db (pending_private_messages username kOfflineDeliveryBatch);
  match private with
  | inl _ => mret tt
  | inr messages =>
      match messages with
      | [] => mret tt
      | _ => send c ("[system] 正在投递 " +:+ count_text messages +:+ " 条离线私聊消息。" +:+ nl)
      end ;;
      for_each (deliver_private c username) messages ;;
      if (Z.of_nat (length messages) =? kOfflineDeliveryBatch)%Z
      then send c ("[system] 可能还有离线私聊消息；请再次使用数字命令 37。" +:+ nl)
      else mret tt
  end ;;
  groups ← on_db (pending_group_messages username kOfflineDeliveryBatch);
  match groups with
  | inl _ => mret tt
  | inr messages =>
      match messages with
      | [] => mret tt
      | _ => send c ("[system] 正在投递 " +:+ count_text messages +:+ " 条离线群消息。" +:+ nl)
      end ;;
      for_each (deliver_group c username) messages ;;
      if (Z.of_nat (length messages) =? kOfflineDeliveryBatch)%Z
      then send c ("[system] 可能还有离线群消息；请再次使用数字命令 37。" +:+ nl)
      else mret tt
  end.

(** Whether a file may be offered to the recipient now. *)
Definition may_offer (transfer : StoredFileTransfer) (recipient : string) : H bool :=
  let metadata := sf_metadata transfer in
  match fm_scope metadata with
  | FILE_TRANSFER_PRIVATE =>
      blocked ← on_db (is_friend_blocked recipient (fm_sender metadata));
      mret (match blocked with inr false => true | _ => false end)
  | FILE_TRANSFER_GROUP =>
      role ← on_db (get_group_role (fm_group_name metadata) recipient);
      mret (match role with inr (Some _) => true | _ => false end)
  | FILE_TRANSFER_SCOPE_UNSPECIFIED => mret true
  end.

Definition deliver_file_to_user (transfer : StoredFileTransfer) (recipient : string) (c : ConnId)
    : H unit :=
  call (
    w ← look;
    match session_of w c with
    | None => done_
    | Some s =>
        if negb (logged_in s) || negb (username s =s? recipient) then done_
        else
          allowed ← may_offer transfer recipient;
          if negb allowed then done_
          else if bool_decide (sf_id transfer ∈ file_deliveries_in_progress s) then done_
          else
            set_session c (fun s =>
              set_offered_files (<[sf_id transfer := transfer]> (offered_files s)) s) ;;
            send c (FileService.make_offer_line (sf_id transfer) (sf_metadata transfer))
    end).

Definition deliver_pending_files (c : ConnId) (username : string) : H unit :=
  r ← on_db (pending_file_transfers username kOfflineFileDeliveryBatch);
  match r with
  | inl _ => mret tt
  | inr transfers =>
      match transfers with
      | [] => mret tt
      | _ => send c ("[system] 正在提供 " +:+ count_text transfers +:+
                     " pending file(s); local partial files will resume，来源：their saved offsets." +:+ nl)
      end ;;
      for_each (fun transfer => deliver_file_to_user transfer username c) transfers ;;
      if (Z.of_nat (length transfers) =? kOfflineFileDeliveryBatch)%Z
      then send c ("[system] 可能还有待接收文件；use command 37 again after current downloads finish." +:+ nl)
      else mret tt
  end.

Definition notify_group_managers (group_name message except_username : string) : H unit :=
  r ← on_db (list_group_managers group_name);
  match r with
  | inl _ => mret tt
  | inr managers =>
      for_each (fun manager =>
        if negb (manager =s? except_username) then notify_user_if_online manager message
        else mret tt) managers
  end.

Definition handle_pending (c : ConnId) : H unit :=
  s ← require_login c;
  notify_pending_requests c (username s) ;;
  send_redis_unread_summary_best_effort c (username s) ;;
  deliver_pending_messages c (username s) ;;
  deliver_pending_files c (username s).
End Delivery.
End Delivery.
