(* ===== verification/Accounts.v ===== *)
(** * Accounts and sessions, [ChatRoom/src/chat_server.cpp]

    Registration, login, logout, account deletion, and the connection events. *)
From S2P Require Import Prelude Protocol FileUtils Password Payloads Tables Database Registry Redis.
From S2P Require Import FileService World Delivery.
Import Payloads Tables Database World Delivery.

Module Accounts.

Section Accounts.
Context `{SqlEngine} `{ProtoCodecs} `{ServerEnv}.

(** [detach_active_upload]: the checkpoint on disk stays. *)
Definition detach_active_upload (s : ClientSession) : ClientSession :=
  set_binary_upload None (set_upload None s).

Definition next_random : H (option string) := fun w =>
  match w_entropy w with
  | [] => (Some None, w)
  | r :: rest => (Some r, set_w_entropy rest w)
  end.

Definition handle_register (c : ConnId) (arguments : string) : H unit :=
  s ← session c;
  reply_if (logged_in s) c
    ("[error] 当前连接已经登录，请先退出登录后再注册其他账户。" +:+ nl) ;;
  let wrong := "[error] 用法：REGISTER <用户名> <密码>；用户名长度 3-20，只能包含字母、数字、下划线；密码长度 4-64，不能包含空格。" +:+ nl in
  match Protocol.split_words arguments with
  | [name; password] =>
      reply_if (negb (is_valid_username name) || negb (is_valid_password password)) c wrong ;;
      exists_ ← checked c (user_exists name);
      reply_if exists_ c ("[error] 用户名已存在。" +:+ nl) ;;
      rand ← next_random;
      match Password.hash_password_pbkdf2 derive rand password with
      | Password.HashThrow _ => reply c ("[error] 密码哈希处理失败。" +:+ nl)
      | Password.Hashed encoded =>
          checked c (create_user name encoded) ;;
          send c ("[system] 注册成功。请使用数字命令 2 登录。" +:+ nl)
      end
  | _ => reply c wrong
  end.

Definition handle_login (c : ConnId) (arguments : string) : H unit :=
  s ← session c;
  reply_if (logged_in s) c ("[error] 当前连接已经登录。" +:+ nl) ;;
  match Protocol.split_words arguments with
  | [name; password] =>
      password_hash ← checked c (get_password_hash name);
      reply_if (match password_hash with
                | None => true
                | Some hash => negb (Password.verify_password_pbkdf2 derive password hash)
                end) c ("[error] 用户名或密码错误。" +:+ nl) ;;
      registered ← register_online_user name c;
      reply_if (negb registered) c ("[error] 该账号已经登录。" +:+ nl) ;;
      claimed ← claim_redis_presence name c;
      (if negb claimed then remove_online_user name c ;; done_ else mret tt) ;;
      set_session c (fun s => set_username name (set_logged_in true s)) ;;
      send c ("[system] 登录成功，欢迎 " +:+ name +:+ "." +:+ nl) ;;
      broadcast_to_logged_in ("[system] " +:+ name +:+ " 已上线。" +:+ nl) (Some c) ;;
      notify_pending_requests c name ;;
      send_redis_unread_summary_best_effort c name ;;
      deliver_pending_messages c name ;;
      deliver_pending_files c name
  | _ => reply c ("[error] 用法：LOGIN <用户名> <密码>" +:+ nl)
  end.

Definition clear_realtime (s : ClientSession) : ClientSession :=
  set_realtime_group_generation 0 (set_realtime_group_recipients [] (set_realtime_group_id 0
    (set_realtime_group_name "" (set_realtime_private_generation 0 (set_realtime_private_target "" s))))).

Definition handle_logout (c : ConnId) : H unit :=
  s ← require_login c;
  let name := username s in
  set_session c detach_active_upload ;;
  remove_online_user name c ;;
  remove_redis_presence_best_effort name ;;
  set_session c (fun s => clear_realtime (set_username "" (set_logged_in false s))) ;;
  send c ("[system] 退出登录成功。" +:+ nl) ;;
  broadcast_to_logged_in ("[system] " +:+ name +:+ " 已离线。" +:+ nl) (Some c).

Definition handle_delete_account (c : ConnId) (arguments : string) : H unit :=
  s ← require_login c;
  let usage := "[error] 用法：DELETE_ACCOUNT <current_password> CONFIRM" +:+ nl in
  match Protocol.split_words arguments with
  | [password; confirm] =>
      reply_if (negb (confirm =s? "CONFIRM")) c usage ;;
      reply_if (bool_decide (is_Some (upload s)) || bool_decide (is_Some (binary_upload s)) ||
                negb (bool_decide (file_deliveries_in_progress s = ∅))) c
        ("[error] 请先完成或取消当前文件传输，再执行账户操作。before deleting the account." +:+ nl) ;;
      password_hash ← checked c (get_password_hash (username s));
      reply_if (match password_hash with
                | None => true
                | Some hash => negb (Password.verify_password_pbkdf2 derive password hash)
                end) c ("[error] 当前密码错误。" +:+ nl) ;;
      let name := username s in
      removed ← checked c (delete_user name);
      reply_if (negb removed) c ("[error] 账户已不存在。" +:+ nl) ;;
      bump_direct ;;
      bump_group ;;
      remove_online_user name c ;;
      remove_redis_presence_best_effort name ;;
      on_redis (Redis.clear_unread name) ;;
      set_session c (fun s => set_file_deliveries_in_progress ∅ (set_offered_files ∅
        (set_username "" (set_logged_in false s)))) ;;
      send c ("[system] 账户注销成功。You are now logged out." +:+ nl) ;;
      broadcast_to_logged_in ("[system] " +:+ name +:+ " 已离线。" +:+ nl) (Some c)
  | _ => reply c usage
  end.

(** [on_connection] for a new connection, and for one that has gone down. *)
Definition on_connected (c : ConnId) : H unit :=
  with_conn c (set_c_session (Some new_session)) ;;
  send c ("[system] 已连接到聊天室服务（TLS、客户端心跳、好友屏蔽、文件断点续传已启用）。" +:+ nl +:+
          "[system] 可输入数字命令 38 查看帮助。" +:+ nl).

Definition on_disconnected (c : ConnId) : H unit :=
  s ← session c;
  set_session c detach_active_upload ;;
  if logged_in s then
    remove_online_user (username s) c ;;
    remove_redis_presence_best_effort (username s) ;;
    broadcast_to_logged_in ("[system] " +:+ username s +:+ " 已离线。" +:+ nl) (Some c)
  else mret tt.

Definition handle_who (c : ConnId) : H unit :=
  _ ← require_login c;
  names ← on_registry Registry.usernames;
  send c ("[system] 在线用户（" +:+ count_text names +:+ "): " +:+ join_names names +:+ nl).
End Accounts.
End Accounts.
