(* ===== verification/Friends.v ===== *)
(** * Friend requests, friendships and blocks

    [ChatRoom/src/chat_server.cpp] and [ChatRoom/src/server/chat_server_blocking.cpp]. *)
From S2P Require Import Prelude Protocol FileUtils Payloads Tables Database Registry Redis FileService World.
Import Payloads Tables Database World.

Module Friends.

Section Friends.
Context `{SqlEngine} `{ProtoCodecs} `{ServerEnv}.

(** The journal entry; a failure is only logged. *)
Definition record_event (type : FriendEventType) (actor target : string) : H unit :=
  now ← now_unix_ms;
  on_db (add_friend_event (mkFriendEvent type actor target now)) ;;
  mret tt.

Definition handle_add_friend (c : ConnId) (arguments : string) : H unit :=
  s ← require_login c;
  target ← extract_single_username c arguments "ADD_FRIEND <username>";
  let sender := username s in
  reply_if (sender =s? target) c ("[error] 不能添加自己为好友。" +:+ nl) ;;
  exists_ ← checked c (user_exists target);
  reply_if (negb exists_) c ("[error] 用户 " +:+ target +:+ " 不存在。" +:+ nl) ;;
  friends ← checked c (are_friends sender target);
  reply_if friends c ("[error] " +:+ target +:+ " 已经是你的好友。" +:+ nl) ;;
  already_sent ← checked c (has_friend_request sender target);
  reverse_request ← checked c (has_friend_request target sender);
  reply_if already_sent c ("[error] 好友申请已经发送过。" +:+ nl) ;;
  reply_if reverse_request c
    ("[error] " +:+ target +:+ " 已经向你发送好友申请，请使用数字命令 18 通过该申请。" +:+ nl) ;;
  checked c (add_friend_request sender target) ;;
  record_event FRIEND_REQUEST_SENT sender target ;;
  send c ("[system] 已向 " +:+ target +:+ " 发送好友申请。" +:+ nl) ;;
  notify_user_if_online target
    ("[system] 收到来自 " +:+ sender +:+ " 的好友申请。使用 18 通过，或使用 19 拒绝。" +:+ nl).

Definition handle_accept_friend (c : ConnId) (arguments : string) : H unit :=
  s ← require_login c;
  requester ← extract_single_username c arguments "ACCEPT_FRIEND <username>";
  let current := username s in
  r ← on_db (accept_friend_request requester current);
  match r with
  | inl error =>
      if error =s? "friend request does not exist"
      then reply c ("[error] 没有来自 " +:+ requester +:+ " 的待处理好友申请。" +:+ nl)
      else database_error c error
  | inr _ => mret tt
  end ;;
  record_event FRIEND_REQUEST_ACCEPTED current requester ;;
  bump_direct ;;
  send c ("[system] 你和 " +:+ requester +:+ " 现在已经是好友。" +:+ nl) ;;
  notify_user_if_online requester ("[system] " +:+ current +:+ " 已通过你的好友申请。" +:+ nl).

Definition handle_reject_friend (c : ConnId) (arguments : string) : H unit :=
  s ← require_login c;
  requester ← extract_single_username c arguments "REJECT_FRIEND <username>";
  let current := username s in
  removed ← checked c (reject_friend_request requester current);
  reply_if (negb removed) c ("[error] 没有来自 " +:+ requester +:+ " 的待处理好友申请。" +:+ nl) ;;
  record_event FRIEND_REQUEST_REJECTED current requester ;;
  send c ("[system] 已拒绝来自 " +:+ requester +:+ " 的好友申请。" +:+ nl) ;;
  notify_user_if_online requester ("[system] " +:+ current +:+ " 已拒绝你的好友申请。" +:+ nl).

Definition handle_remove_friend (c : ConnId) (arguments : string) : H unit :=
  s ← require_login c;
  target ← extract_single_username c arguments "REMOVE_FRIEND <username>";
  let current := username s in
  removed ← checked c (remove_friendship current target);
  reply_if (negb removed) c ("[error] " +:+ target +:+ " 不是你的好友。" +:+ nl) ;;
  record_event FRIEND_REMOVED current target ;;
  bump_direct ;;
  send c ("[system] 已从好友列表删除 " +:+ target +:+ "。" +:+ nl) ;;
  notify_user_if_online target ("[system] " +:+ current +:+ " 已将你从好友列表删除。" +:+ nl).

(** The lines of a list, each with the presence of a user. *)
Fixpoint presence_lines (line : string -> bool -> string) (names : list string) : H string :=
  match names with
  | [] => mret ""
  | name :: rest =>
      online ← is_user_online name;
      lines ← presence_lines line rest;
      mret (line name online +:+ lines)
  end.

Definition handle_friends (c : ConnId) : H unit :=
  s ← require_login c;
  friends ← checked c (list_friends (username s));
  lines ← presence_lines (fun name online =>
    "  " +:+ name +:+ " [" +:+ (if online then "在线" else "离线") +:+ "]" +:+ nl) friends;
  send c ("[system] 好友列表（" +:+ count_text friends +:+ "）：" +:+ nl +:+ lines +:+
          match friends with [] => "  （无）" +:+ nl | _ => "" end).

Definition handle_friend_requests (c : ConnId) : H unit :=
  s ← require_login c;
  incoming ← checked c (list_incoming_requests (username s));
  outgoing ← checked c (list_outgoing_requests (username s));
  send c ("[system] 收到的好友申请（" +:+ count_text incoming +:+ "）：" +:+ join_names incoming +:+ nl +:+
          "[system] 已发出的好友申请（" +:+ count_text outgoing +:+ "）：" +:+ join_names outgoing +:+ nl).

(** ** Blocks *)

Definition handle_block_friend (c : ConnId) (arguments : string) : H unit :=
  s ← require_login c;
  target ← extract_single_username c arguments "BLOCK_FRIEND <username>";
  reply_if (target =s? username s) c ("[error] 不能屏蔽自己。" +:+ nl) ;;
  friends ← checked c (are_friends (username s) target);
  reply_if (negb friends) c ("[error] 只能屏蔽当前好友的私聊消息和文件。" +:+ nl) ;;
  created ← checked c (add_friend_block (username s) target);
  reply_if (negb created) c ("[system] " +:+ target +:+ " 已经在屏蔽列表中。" +:+ nl) ;;
  bump_direct ;;
  send c ("[system] 已屏蔽来自 " +:+ target +:+
          " 的私聊消息和文件。好友关系、历史记录、公共聊天和群聊不受影响。" +:+ nl +:+
          "[system] 屏蔽期间，该好友发送的待处理私聊消息/文件仍会保存，但不会投递。" +:+ nl).

Definition handle_unblock_friend (c : ConnId) (arguments : string) : H unit :=
  s ← require_login c;
  target ← extract_single_username c arguments "UNBLOCK_FRIEND <username>";
  removed ← checked c (remove_friend_block (username s) target);
  reply_if (negb removed) c ("[error] " +:+ target +:+ " 不在你的好友屏蔽列表中。" +:+ nl) ;;
  bump_direct ;;
  send c ("[system] 已解除对 " +:+ target +:+
          " 的私聊消息/文件屏蔽。可使用数字命令 37 立即重试已保存的离线投递。" +:+ nl).

Definition handle_blocked_friends (c : ConnId) : H unit :=
  s ← require_login c;
  blocked ← checked c (list_blocked_friends (username s));
  send c ("[system] 已屏蔽好友（" +:+ count_text blocked +:+ "）：" +:+ join_names blocked +:+ nl).
End Friends.
End Friends.
