(* ===== verification/Groups.v ===== *)
(** * Groups and their members, [ChatRoom/src/chat_server.cpp] *)
From S2P Require Import Prelude Protocol FileUtils Payloads Tables Database Registry Redis FileService World.
From S2P Require Import Delivery Friends.
Import Payloads Tables Database World Delivery.

Module Groups.

Section Groups.
Context `{SqlEngine} `{ProtoCodecs} `{ServerEnv}.

Definition role_is (role : option GroupRole) (r : GroupRole) : bool := bool_decide (role = Some r).
Definition manages (role : option GroupRole) : bool :=
  match role with Some r => is_group_manager r | None => false end.
Definition absent (role : option GroupRole) : bool := bool_decide (role = None).

Definition handle_create_group (c : ConnId) (arguments : string) : H unit :=
  s ← require_login c;
  group_name ← extract_single_group_name c arguments "CREATE_GROUP <group_name>";
  existing ← checked c (get_group group_name);
  reply_if (bool_decide (is_Some existing)) c ("[error] 群名称已被使用。" +:+ nl) ;;
  group_id ← checked c (create_group group_name (username s));
  bump_group ;;
  send c ("[system] 群 " +:+ group_name +:+ " 创建成功，你是群主。群ID=" +:+ to_string group_id +:+ "。" +:+ nl).

Definition handle_dissolve_group (c : ConnId) (arguments : string) : H unit :=
  s ← require_login c;
  group_name ← extract_single_group_name c arguments "DISSOLVE_GROUP <group_name>";
  role ← checked c (get_group_role group_name (username s));
  reply_if (negb (role_is role Owner)) c ("[error] 只有群主可以解散该群。" +:+ nl) ;;
  members ← checked c (list_group_member_usernames group_name);
  removed ← checked c (dissolve_group group_name (username s));
  reply_if (negb removed) c ("[error] 群已不存在。" +:+ nl) ;;
  bump_group ;;
  send c ("[system] 群 " +:+ group_name +:+ " 已解散。" +:+ nl) ;;
  for_each (fun member =>
    if negb (member =s? username s)
    then notify_user_if_online member
           ("[system] 群 " +:+ group_name +:+ " 已被群主解散，群主：" +:+ username s +:+ "." +:+ nl)
    else mret tt) members.

Definition handle_apply_group (c : ConnId) (arguments : string) : H unit :=
  s ← require_login c;
  group_name ← extract_single_group_name c arguments "APPLY_GROUP <group_name>";
  group ← checked c (get_group group_name);
  reply_if (negb (bool_decide (is_Some group))) c ("[error] 群不存在。" +:+ nl) ;;
  role ← checked c (get_group_role group_name (username s));
  reply_if (negb (absent role)) c ("[error] 你已经是该群成员。" +:+ nl) ;;
  pending ← checked c (has_group_join_request group_name (username s));
  reply_if pending c ("[error] 入群申请已经在等待处理。" +:+ nl) ;;
  checked c (add_group_join_request group_name (username s)) ;;
  send c ("[system] 已向群 " +:+ group_name +:+ " 提交入群申请。" +:+ nl) ;;
  notify_group_managers group_name
    ("[system] " +:+ username s +:+ " 申请加入群 " +:+ group_name +:+
     "。请使用数字命令 33 通过或 34 拒绝，客户端会自动列出并编号。" +:+ nl) (username s).

Definition handle_my_groups (c : ConnId) : H unit :=
  s ← require_login c;
  groups ← checked c (list_user_groups (username s));
  send c ("[system] 已加入的群（" +:+ count_text groups +:+ "）：" +:+ nl +:+
    foldr (fun m out => "  " +:+ gi_name (ms_group m) +:+ " [" +:+ group_role_name (ms_role m) +:+
                        "] 群主=" +:+ gi_owner (ms_group m) +:+ nl +:+ out) "" groups +:+
    match groups with [] => "  （无）" +:+ nl | _ => "" end).

Definition handle_leave_group (c : ConnId) (arguments : string) : H unit :=
  s ← require_login c;
  group_name ← extract_single_group_name c arguments "LEAVE_GROUP <group_name>";
  role ← checked c (get_group_role group_name (username s));
  reply_if (absent role) c ("[error] 你不是该群成员。" +:+ nl) ;;
  reply_if (role_is role Owner) c
    ("[error] 群主不能直接退出群，请先解散群或转移职责。use command 25." +:+ nl) ;;
  removed ← checked c (remove_group_member group_name (username s));
  reply_if (negb removed) c ("[error] 群成员关系已不存在。" +:+ nl) ;;
  bump_group ;;
  send c ("[system] 已退出群 " +:+ group_name +:+ "。" +:+ nl) ;;
  notify_group_managers group_name
    ("[system] " +:+ username s +:+ " 已退出群 " +:+ group_name +:+ "。" +:+ nl) (username s).

Fixpoint member_lines (members : list GroupMemberInfo) : H string :=
  match members with
  | [] => mret ""
  | member :: rest =>
      online ← is_user_online (mi_username member);
      lines ← member_lines rest;
      mret ("  " +:+ mi_username member +:+ " [" +:+ group_role_name (mi_role member) +:+ "] [" +:+
            (if (online : bool) then "online" else "offline") +:+ "]" +:+ nl +:+ lines)
  end.

Definition handle_group_members (c : ConnId) (arguments : string) : H unit :=
  s ← require_login c;
  group_name ← extract_single_group_name c arguments "GROUP_MEMBERS <group_name>";
  role ← checked c (get_group_role group_name (username s));
  reply_if (absent role) c ("[error] 只有群成员可以查看该内容。the member list." +:+ nl) ;;
  members ← checked c (list_group_members group_name);
  lines ← member_lines members;
  send c ("[group " +:+ group_name +:+ "] members (" +:+ count_text members +:+ "):" +:+ nl +:+ lines).

Definition handle_add_group_admin (c : ConnId) (arguments : string) : H unit :=
  s ← require_login c;
  names ← extract_group_and_username c arguments "ADD_GROUP_ADMIN <group_name> <username>";
  let group_name := names.1 in let target := names.2 in
  current_role ← checked c (get_group_role group_name (username s));
  target_role ← checked c (get_group_role group_name target);
  reply_if (negb (role_is current_role Owner)) c ("[error] 只有群主可以设置管理员。" +:+ nl) ;;
  reply_if (absent target_role) c ("[error] 目标用户不是群成员。" +:+ nl) ;;
  reply_if (role_is target_role Owner) c ("[error] 群主权限高于管理员，无需设置。" +:+ nl) ;;
  reply_if (role_is target_role Admin) c ("[error] 目标用户已经是管理员。" +:+ nl) ;;
  changed ← checked c (set_group_member_role group_name target Admin);
  reply_if (negb changed) c ("[error] 群角色没有发生变化。" +:+ nl) ;;
  send c ("[system] " +:+ target +:+ " 现在是管理员，群：" +:+ group_name +:+ "." +:+ nl) ;;
  notify_user_if_online target
    ("[system] 你已被提升为管理员，of group " +:+ group_name +:+ "，操作者：" +:+ username s +:+ "." +:+ nl).

Definition handle_remove_group_admin (c : ConnId) (arguments : string) : H unit :=
  s ← require_login c;
  names ← extract_group_and_username c arguments "REMOVE_GROUP_ADMIN <group_name> <username>";
  let group_name := names.1 in let target := names.2 in
  current_role ← checked c (get_group_role group_name (username s));
  target_role ← checked c (get_group_role group_name target);
  reply_if (negb (role_is current_role Owner)) c ("[error] 只有群主可以取消管理员。" +:+ nl) ;;
  reply_if (negb (role_is target_role Admin)) c ("[error] 目标用户不是管理员。" +:+ nl) ;;
  changed ← checked c (set_group_member_role group_name target Member);
  reply_if (negb changed) c ("[error] 群角色没有发生变化。" +:+ nl) ;;
  send c ("[system] " +:+ target +:+ " 现在是普通成员，群：" +:+ group_name +:+ "." +:+ nl) ;;
  notify_user_if_online target
    ("[system] 你在群 " +:+ group_name +:+ " 的管理员身份已被取消，操作者：" +:+ username s +:+ "." +:+ nl).

Definition handle_group_requests (c : ConnId) (arguments : string) : H unit :=
  s ← require_login c;
  group_name ← extract_single_group_name c arguments "GROUP_REQUESTS <group_name>";
  role ← checked c (get_group_role group_name (username s));
  reply_if (negb (manages role)) c ("[error] 只有群主或管理员可以查看入群申请。" +:+ nl) ;;
  users ← checked c (list_group_join_requests group_name);
  send c ("[group " +:+ group_name +:+ "] 待处理入群申请（" +:+ count_text users +:+ "): " +:+
          join_names users +:+ nl).

Definition handle_group_requests_all (c : ConnId) : H unit :=
  s ← require_login c;
  r ← on_db (list_managed_group_request_counts (username s));
  match r with
  | inl error =>
      reply c ("[group-requests-error] " +:+
               encode_text_token ("加载可管理群的入群申请失败：" +:+ error) +:+ nl)
  | inr groups =>
      send c ("[group-requests-begin]" +:+ nl) ;;
      for_each (fun group =>
        r ← on_db (list_group_join_requests (rc_group group));
        match r with
        | inl error =>
            reply c ("[group-requests-error] " +:+
                     encode_text_token ("加载群 " +:+ rc_group group +:+ " 的入群申请失败：" +:+ error) +:+ nl)
        | inr users =>
            for_each (fun name =>
              send c ("[group-request-item] " +:+ encode_text_token (rc_group group) +:+ " " +:+
                      encode_text_token name +:+ nl)) users
        end) groups ;;
      send c ("[group-requests-end]" +:+ nl)
  end.

Definition handle_approve_group (c : ConnId) (arguments : string) : H unit :=
  s ← require_login c;
  names ← extract_group_and_username c arguments "APPROVE_GROUP <group_name> <username>";
  let group_name := names.1 in let target := names.2 in
  current_role ← checked c (get_group_role group_name (username s));
  reply_if (negb (manages current_role)) c ("[error] 只有群主或管理员可以通过入群申请。" +:+ nl) ;;
  pending ← checked c (has_group_join_request group_name target);
  reply_if (negb pending) c ("[error] 没有来自 " +:+ target +:+ " 的待处理入群申请。" +:+ nl) ;;
  checked c (approve_group_join_request group_name target) ;;
  bump_group ;;
  send c ("[system] " +:+ target +:+ " 已加入群 " +:+ group_name +:+ "。" +:+ nl) ;;
  notify_user_if_online target
    ("[system] 你申请加入群 " +:+ group_name +:+ " 已通过，处理人：" +:+ username s +:+ "." +:+ nl).

Definition handle_reject_group (c : ConnId) (arguments : string) : H unit :=
  s ← require_login c;
  names ← extract_group_and_username c arguments "REJECT_GROUP <group_name> <username>";
  let group_name := names.1 in let target := names.2 in
  current_role ← checked c (get_group_role group_name (username s));
  reply_if (negb (manages current_role)) c ("[error] 只有群主或管理员可以拒绝入群申请。" +:+ nl) ;;
  removed ← checked c (reject_group_join_request group_name target);
  reply_if (negb removed) c ("[error] 没有来自 " +:+ target +:+ " 的待处理入群申请。" +:+ nl) ;;
  send c ("[system] 已拒绝 " +:+ target +:+ " 加入群 " +:+ group_name +:+ "." +:+ nl) ;;
  notify_user_if_online target
    ("[system] 你申请加入群 " +:+ group_name +:+ " 已被拒绝，处理人：" +:+ username s +:+ "." +:+ nl).

(** Revoke the offers and running downloads of the group's files. *)
Definition revoke_offer (group_name : string) (d : ConnId) (item : Z * StoredFileTransfer) : H unit :=
  let metadata := sf_metadata item.2 in
  if negb (bool_decide (fm_scope metadata = FILE_TRANSFER_GROUP)) ||
     negb (fm_group_name metadata =s? group_name)
  then mret tt
  else
    s ← session d;
    match file_delivery_cancel_flags s !! item.1 with
    | Some flag => update (fun w => set_w_flags (<[flag := true]> (w_flags w)) w)
    | None => mret tt
    end ;;
    send d ("FILE_ACCESS_REVOKED " +:+ to_string item.1 +:+ " " +:+
            encode_text_token "群成员权限已被撤销" +:+ nl) ;;
    if bool_decide (item.1 ∈ file_deliveries_in_progress s) then mret tt
    else set_session d (fun s => set_offered_files (delete item.1 (offered_files s)) s).

Definition handle_remove_group_member (c : ConnId) (arguments : string) : H unit :=
  s ← require_login c;
  names ← extract_group_and_username c arguments "REMOVE_GROUP_MEMBER <group_name> <username>";
  let group_name := names.1 in let target := names.2 in
  reply_if (target =s? username s) c
    ("[error] 不能通过移出成员操作移出自己，请使用退出群命令。" +:+ nl) ;;
  current_role ← checked c (get_group_role group_name (username s));
  target_role ← checked c (get_group_role group_name target);
  reply_if (negb (manages current_role)) c ("[error] 只有群主或管理员可以移出成员。" +:+ nl) ;;
  reply_if (absent target_role) c ("[error] 目标用户不是群成员。" +:+ nl) ;;
  reply_if (role_is target_role Owner) c ("[error] 不能移出群主。" +:+ nl) ;;
  reply_if (role_is current_role Admin && role_is target_role Admin) c
    ("[error] 管理员不能移出同级或更高权限成员。another administrator." +:+ nl) ;;
  removed ← checked c (remove_group_member group_name target);
  reply_if (negb removed) c ("[error] 群成员关系已不存在。" +:+ nl) ;;
  bump_group ;;
  send c ("[system] 已将 " +:+ target +:+ " 移出群 " +:+ group_name +:+ "。" +:+ nl) ;;
  online ← find_online_user target;
  match online with
  | None => mret tt
  | Some d =>
      w ← look;
      match session_of w d with
      | None => mret tt
      | Some removed_session => for_each (revoke_offer group_name d) (map_to_list (offered_files removed_session))
      end
  end ;;
  notify_user_if_online target
    ("[system] 你已被移出群 " +:+ group_name +:+ "，操作者：" +:+ username s +:+ "。" +:+ nl).
End Groups.
End Groups.
