(* ===== verification/Messages.v ===== *)
(** * Messages, [ChatRoom/src/chat_server.cpp] and [ChatRoom/src/server/]

    Public, private and group messages with their permission caches, entering a
    conversation, histories, and the heartbeat. *)
From S2P Require Import Prelude Protocol FileUtils Payloads Tables Database Registry Redis FileService Policy.
From S2P Require Import World.
Import Payloads Tables Database Policy World.

Module Messages.

Definition kMaxChatMessage : Z := 1000.
Definition kDefaultHistoryCount : Z := 20.
Definition kMaxHistoryCount : Z := 100.

Section Messages.
Context `{SqlEngine} `{ProtoCodecs} `{ServerEnv}.

(** [direct_message_policy_.evaluate] on the server's database. *)
Definition evaluate_policy (sender recipient : string) : H (Policy.DirectMessageDecision * string) :=
  fun w => let r := Policy.evaluate (H := Policy.db_store) sender recipient (w_db w) in (Some r.1, set_w_db r.2 w).

Definition handle_public_message (c : ConnId) (message : string) : H unit :=
  s ← require_login c;
  let cleaned := Protocol.trim message in
  reply_if (is_empty cleaned || (kMaxChatMessage <? strlen cleaned)%Z) c
    ("[error] 公共消息长度必须为 1-1000 字节。of message text." +:+ nl) ;;
  now ← now_unix_ms;
  message_id ← checked c (add_message (mkChatMessage PUBLIC (username s) "" cleaned now));
  broadcast_to_logged_in
    ("[#" +:+ to_string message_id +:+ "] [" +:+ username s +:+ "] " +:+ cleaned +:+ nl) None.

(** The permission check of the locked part of [handle_private_message]. *)
Definition private_permission (c : ConnId) (s : ClientSession) (target : string) : H unit :=
  w ← look;
  let current_generation := w_direct_generation w in
  if (realtime_private_target s =s? target) &&
     (realtime_private_generation s =? current_generation)%Z
  then mret tt
  else
    d ← evaluate_policy (username s) target;
    match d.1 with
    | Policy.DatabaseError => database_error c d.2
    | Policy.TargetMissing => reply c ("[error] 目标账户不存在。" +:+ nl)
    | Policy.NotFriends =>
        reply c ("[error] 当前不允许向该用户发送私聊消息，只有好友之间可以私聊。" +:+ nl)
    | Policy.BlockedByRecipient => reply c ("[error] 对方已屏蔽你。" +:+ nl)
    | Policy.BlockedBySender => reply c ("[error] 你已屏蔽该用户，请先解除屏蔽。" +:+ nl)
    | Policy.Allowed =>
        set_session c (fun s => set_realtime_private_generation current_generation
          (set_realtime_private_target target s))
    end.

(** After the message is stored: check again if the generation has changed. *)
Definition live_permission (c : ConnId) (sender target : string) (generation_used : Z) : H bool :=
  w ← look;
  if (generation_used =? w_direct_generation w)%Z then mret true
  else
    d ← evaluate_policy sender target;
    if bool_decide (d.1 = Policy.Allowed) then
      w ← look;
      set_session c (fun s => set_realtime_private_generation (w_direct_generation w)
        (set_realtime_private_target target s)) ;;
      mret true
    else mret false.

(** The texts of a message, for its recipient and for its sender. *)
Definition private_text (message_id : Z) (sender message : string) : string :=
  "[#" +:+ to_string message_id +:+ "] [private from " +:+ sender +:+ "] " +:+ encode_text_token message +:+ nl.
Definition private_echo (message_id : Z) (target message : string) : string :=
  "[#" +:+ to_string message_id +:+ "] [private to " +:+ target +:+ "] " +:+ encode_text_token message +:+ nl.

Definition handle_private_message (c : ConnId) (arguments : string) : H unit :=
  s ← require_login c;
  let usage := "[error] 用法：MSG <用户名> <百分号编码消息>" +:+ nl in
  match Protocol.split_first_token arguments with
  | None => reply c usage
  | Some (target, encoded_message) =>
      reply_if (negb (is_valid_username target) || is_empty encoded_message) c usage ;;
      match FileUtils.percent_decode encoded_message with
      | inl _ => reply c ("[error] 私聊消息编码无效。" +:+ nl)
      | inr message =>
          reply_if (is_empty message || (kMaxChatMessage <? strlen message)%Z) c
            ("[error] 私聊消息解码后长度必须为 1-1000 字节。" +:+ nl) ;;
          let sender := username s in
          reply_if (target =s? sender) c ("[error] 不能给自己发送私聊消息。" +:+ nl) ;;
          now ← now_unix_ms;
          private_permission c s target ;;
          s ← session c;
          let policy_generation_used := realtime_private_generation s in
          message_id ← checked c (add_private_message_with_delivery
            (mkChatMessage PRIVATE sender target message now));
          unlocked ;;
          live ← live_permission c sender target policy_generation_used;
          online ← (if (live : bool) then find_online_user target else mret None);
          let echo := private_echo message_id target message in
          match online with
          | Some d =>
              send_then d (private_text message_id sender message)
                (mkTask PersistPrivate message_id target false) ;;
              send c echo
          | None =>
              adjust_redis_unread_best_effort target "private" 1 ;;
              send c (echo +:+ "[system] 消息已保存；对方满足投递条件后会自动收到。" +:+ nl)
          end
      end
  end.

(** ** Entering a conversation *)

Definition send_enter_error {A} (c : ConnId) (scope reason : string) : H A :=
  reply c ("[chat-enter-error] " +:+ scope +:+ " " +:+ FileUtils.percent_encode reason +:+ nl).

Definition enter_login (c : ConnId) (scope : string) : H ClientSession :=
  s ← session c;
  if negb (logged_in s) || is_empty (username s) then send_enter_error c scope "请先登录"
  else mret s.

Definition handle_enter_private (c : ConnId) (arguments : string) : H unit :=
  s ← enter_login c "PRIVATE";
  match Protocol.split_words arguments with
  | [target] =>
      if negb (is_valid_username target) then send_enter_error c "PRIVATE" "用户名无效"
      else if target =s? username s
      then send_enter_error c "PRIVATE" "不能与自己建立好友私聊会话"
      else
        d ← evaluate_policy (username s) target;
        match d.1 with
        | Policy.Allowed =>
            unlocked ;;
            w ← look;
            set_session c (fun s =>
              set_realtime_group_generation 0 (set_realtime_group_recipients []
                (set_realtime_group_id 0 (set_realtime_group_name ""
                  (set_realtime_private_generation (w_direct_generation w)
                    (set_realtime_private_target target s)))))) ;;
            send c ("[chat-enter-ok] PRIVATE " +:+ target +:+ nl)
        | Policy.TargetMissing => send_enter_error c "PRIVATE" "目标账户不存在"
        | Policy.NotFriends => send_enter_error c "PRIVATE" "只有好友之间才能进入私聊"
        | Policy.BlockedByRecipient => send_enter_error c "PRIVATE" "对方已屏蔽你的消息"
        | Policy.BlockedBySender => send_enter_error c "PRIVATE" "你已屏蔽该用户，请先解除屏蔽"
        | Policy.DatabaseError => send_enter_error c "PRIVATE" "校验私聊权限时数据库出错"
        end
  | _ => send_enter_error c "PRIVATE" "用户名无效"
  end.

(** [if (!database_.m(...)) { send_enter_error(...); return; }] *)
Definition entering {A} (c : ConnId) (m : M Db A) (reason : string) : H A :=
  r ← on_db m;
  match r with
  | inl _ => send_enter_error c "GROUP" reason
  | inr a => mret a
  end.

Definition others_than (name : string) (members : list string) : list string :=
  List.filter (fun member => negb (member =s? name)) members.

Definition handle_enter_group (c : ConnId) (arguments : string) : H unit :=
  s ← enter_login c "GROUP";
  match Protocol.split_words arguments with
  | [group_name] =>
      if negb (is_valid_group_name group_name) then send_enter_error c "GROUP" "群名称无效"
      else
        group ← entering c (get_group group_name) "检查群信息时数据库出错";
        match group with
        | None => send_enter_error c "GROUP" "群不存在"
        | Some group =>
            role ← entering c (get_group_role group_name (username s)) "检查群成员身份时数据库出错";
            match role with
            | None => send_enter_error c "GROUP" "你不是该群成员"
            | Some _ =>
                members ← entering c (list_group_member_usernames group_name) "加载群成员列表时数据库出错";
                unlocked ;;
                w ← look;
                set_session c (fun s =>
                  set_realtime_private_generation 0 (set_realtime_private_target ""
                    (set_realtime_group_generation (w_group_generation w)
                      (set_realtime_group_recipients (others_than (username s) members)
                        (set_realtime_group_id (gi_id group) (set_realtime_group_name group_name s)))))) ;;
                send c ("[chat-enter-ok] GROUP " +:+ group_name +:+ nl)
            end
        end
  | _ => send_enter_error c "GROUP" "群名称无效"
  end.

(** ** Group messages *)

(** The group id and the recipients, from the session or from the database. *)
Definition group_recipients (c : ConnId) (s : ClientSession) (group_name : string)
    : H (Z * list string) :=
  w ← look;
  let current_generation := w_group_generation w in
  if (realtime_group_name s =s? group_name) && negb (realtime_group_id s =? 0)%Z &&
     (realtime_group_generation s =? current_generation)%Z
  then mret (realtime_group_id s, realtime_group_recipients s)
  else
    group ← checked c (get_group group_name);
    role ← checked c (get_group_role group_name (username s));
    members ← checked c (list_group_member_usernames group_name);
    match group with
    | None => reply c ("[error] 群不存在。" +:+ nl)
    | Some group =>
        reply_if (bool_decide (role = None)) c ("[error] 只有群成员可以发送群消息。" +:+ nl) ;;
        let recipients := others_than (username s) members in
        set_session c (fun s =>
          set_realtime_group_generation current_generation (set_realtime_group_recipients recipients
            (set_realtime_group_id (gi_id group) (set_realtime_group_name group_name s)))) ;;
        mret (gi_id group, recipients)
    end.

Definition group_text (message_id : Z) (group_name sender message : string) : string :=
  "[#G" +:+ to_string message_id +:+ "] [group " +:+ group_name +:+ "] [" +:+ sender +:+ "] " +:+
  encode_text_token message +:+ nl.

Definition handle_group_message (c : ConnId) (arguments : string) : H unit :=
  s ← require_login c;
  let usage := "[error] 用法：GROUP_MSG <群名称> <百分号编码消息>。" +:+ nl in
  match Protocol.split_first_token arguments with
  | None => reply c usage
  | Some (group_name, encoded_message) =>
      reply_if (negb (is_valid_group_name group_name) || is_empty encoded_message) c usage ;;
      match FileUtils.percent_decode encoded_message with
      | inl _ => reply c ("[error] 群消息编码无效。" +:+ nl)
      | inr message =>
          reply_if (is_empty message || (kMaxChatMessage <? strlen message)%Z) c
            ("[error] 群消息解码后长度必须为 1-1000 字节。" +:+ nl) ;;
          target ← group_recipients c s group_name;
          now ← now_unix_ms;
          message_id ← checked c (add_group_message
            (mkGroupMessage target.1 group_name (username s) message now) target.2);
          let wire_text := group_text message_id group_name (username s) message in
          send c wire_text ;;
          for_each (fun recipient =>
            online ← find_online_user recipient;
            match online with
            | Some d => send_then d wire_text (mkTask PersistGroup message_id recipient false)
            | None => adjust_redis_unread_best_effort recipient "group" 1
            end) target.2
      end
  end.

(** ** Histories *)

Definition handle_history_public (c : ConnId) (arguments : string) : H unit :=
  _ ← require_login c;
  let text := Protocol.trim arguments in
  let count := if is_empty text then Some kDefaultHistoryCount
               else Protocol.parse_count text 1 kMaxHistoryCount in
  match count with
  | None => reply c ("[error] 用法：HISTORY_PUBLIC [条数]，条数必须在 1-100 之间。" +:+ nl)
  | Some count =>
      messages ← checked c (recent_public_messages count);
      send c ("[history public] showing " +:+ count_text messages +:+ " message(s):" +:+ nl +:+
        foldr (fun m out => "  #" +:+ to_string (sm_id m) +:+ " " +:+
          format_unix_ms (cm_created_at (sm_payload m)) +:+ " [" +:+ cm_sender (sm_payload m) +:+ "] " +:+
          cm_content (sm_payload m) +:+ nl +:+ out) "" messages)
  end.

(** [<name> [count]] with the default count. *)
Definition name_and_count (arguments : string) (valid : string -> bool) : option (string * option Z) :=
  match Protocol.split_words arguments with
  | [name] => if valid name then Some (name, Some kDefaultHistoryCount) else None
  | [name; count] =>
      if valid name then Some (name, Protocol.parse_count count 1 kMaxHistoryCount) else None
  | _ => None
  end.

Definition handle_history_private (c : ConnId) (arguments : string) : H unit :=
  s ← require_login c;
  match name_and_count arguments is_valid_username with
  | None => reply c ("[error] 用法：HISTORY_PRIVATE <用户名> [条数]" +:+ nl)
  | Some (_, None) => reply c ("[error] HISTORY_PRIVATE count must be 1-100." +:+ nl)
  | Some (name, Some count) =>
      exists_ ← checked c (user_exists name);
      reply_if (negb exists_) c ("[error] 用户不存在。" +:+ nl) ;;
      messages ← checked c (recent_private_messages (username s) name count);
      send c ("[history private with " +:+ name +:+ "] showing " +:+ count_text messages +:+
        " message(s):" +:+ nl +:+
        foldr (fun m out => "  #" +:+ to_string (sm_id m) +:+ " " +:+
          format_unix_ms (cm_created_at (sm_payload m)) +:+ " " +:+ cm_sender (sm_payload m) +:+ " -> " +:+
          cm_recipient (sm_payload m) +:+ ": " +:+ cm_content (sm_payload m) +:+ nl +:+ out) "" messages)
  end.

Definition handle_history_group (c : ConnId) (arguments : string) : H unit :=
  s ← require_login c;
  match name_and_count arguments is_valid_group_name with
  | None => reply c ("[error] 用法：HISTORY_GROUP <群名称> [条数]" +:+ nl)
  | Some (_, None) => reply c ("[error] 群历史条数必须在 1-100 之间。" +:+ nl)
  | Some (name, Some count) =>
      role ← checked c (get_group_role name (username s));
      reply_if (bool_decide (role = None)) c ("[error] 只有群成员可以查看该内容。group history." +:+ nl) ;;
      messages ← checked c (recent_group_messages name count);
      send c ("[history group " +:+ name +:+ "] showing " +:+ count_text messages +:+
        " message(s):" +:+ nl +:+
        foldr (fun m out => "  #G" +:+ to_string (sg_id m) +:+ " " +:+
          format_unix_ms (gp_created_at (sg_payload m)) +:+ " [" +:+ gp_sender (sg_payload m) +:+ "] " +:+
          gp_content (sg_payload m) +:+ nl +:+ out) "" messages)
  end.

(** ** Heartbeat and help *)

Definition parse_heartbeat_nonce (text : string) : option Z :=
  let cleaned := Protocol.trim text in
  if is_empty cleaned then None else whole (from_chars_unsigned 64 cleaned).

Definition handle_ping (c : ConnId) (arguments : string) : H unit :=
  match parse_heartbeat_nonce arguments with
  | None => mret tt
  | Some nonce => send c ("PONG " +:+ to_string nonce +:+ nl)
  end.

Definition help_text : string :=
  "[system] 数字命令帮助：" +:+ nl +:+
  "  1  注册账户" +:+ nl +:+
  "  2  登录账户" +:+ nl +:+
  "  3  退出登录" +:+ nl +:+
  "  4  注销账户" +:+ nl +:+
  "  5  发送公共消息" +:+ nl +:+
  "  6  当前好友/群会话发送消息（客户端会继续让你选择输入模式）" +:+ nl +:+
  "  8  进入好友私聊" +:+ nl +:+
  "  9  进入群聊" +:+ nl +:+
  " 10  退出当前会话" +:+ nl +:+
  " 11  查看私聊历史" +:+ nl +:+
  " 12  查看群聊历史" +:+ nl +:+
  " 13  查看当前会话文件记录" +:+ nl +:+
  " 14  向当前会话发送文件" +:+ nl +:+
  " 15  好友列表" +:+ nl +:+
  " 16  好友申请" +:+ nl +:+
  " 17  添加好友" +:+ nl +:+
  " 18  通过好友申请" +:+ nl +:+
  " 19  拒绝好友申请" +:+ nl +:+
  " 20  删除好友" +:+ nl +:+
  " 21  屏蔽好友" +:+ nl +:+
  " 22  解除屏蔽" +:+ nl +:+
  " 23  屏蔽列表" +:+ nl +:+
  " 24  创建群" +:+ nl +:+
  " 25  解散群" +:+ nl +:+
  " 26  申请加入群" +:+ nl +:+
  " 27  我的群" +:+ nl +:+
  " 28  退出群" +:+ nl +:+
  " 29  查看群成员" +:+ nl +:+
  " 30  设置群管理员" +:+ nl +:+
  " 31  取消群管理员" +:+ nl +:+
  " 33  自动列出全部可处理申请并通过" +:+ nl +:+
  " 34  自动列出全部可处理申请并拒绝" +:+ nl +:+
  " 35  移出群成员" +:+ nl +:+
  " 36  在线用户" +:+ nl +:+
  " 37  拉取待处理离线消息/文件" +:+ nl +:+
  " 38  查看本帮助" +:+ nl +:+
  " 39  查看客户端完整数字命令帮助" +:+ nl +:+
  " 40  查看本地数据库/下载路径" +:+ nl +:+
  " 41  查看公共消息历史" +:+ nl +:+
  "[system] 注意：进入好友或群会话后不会自动弹出消息模式；" +:+
  "必须先输入 6，再选择 1=回车立即发送、2=长文本编辑模式。" +:+ nl +:+
  "[system] 数字 32 已取消用户入口，33/34 会自动查询你作为群主或管理员可处理的全部入群申请。" +:+ nl.

Definition send_help (c : ConnId) : H unit := send c help_text.
End Messages.
End Messages.
