(* ===== verification/Files.v ===== *)
(** * File uploads and downloads, [ChatRoom/src/chat_server.cpp]

    The upload state machine of a session (begin, chunk, end, abort), and the
    requests of a receiver (resume, received, failed). *)
From S2P Require Import Prelude Protocol FileUtils Payloads Tables Database Registry Redis FileService Policy.
From S2P Require Import World Delivery Accounts Messages.
Import Payloads Tables Database Policy World Delivery Accounts Messages.

Module Files.

Definition kMaxFileSize : Z := 100 * 1024 * 1024 * 1024.
Definition kMaxFileFrameBytes : Z := 16 * 1024 * 1024.

Section Files.
Context `{SqlEngine} `{ProtoCodecs} `{FileUtils.DigestEngine} `{ServerEnv}.

Definition pause_file_upload {A} (c : ConnId) (token reason : string) : H A :=
  set_session c detach_active_upload ;;
  reply c ("FILE_PAUSED " +:+ token +:+ " " +:+ encode_text_token reason +:+ nl).

Definition reject_file_upload {A} (c : ConnId) (token reason : string) : H A :=
  set_session c detach_active_upload ;;
  reply c ("FILE_REJECT " +:+ token +:+ " " +:+ encode_text_token reason +:+ nl).

Definition reject_upload_if (b : bool) (c : ConnId) (token reason : string) : H unit :=
  if b then reject_file_upload c token reason else mret tt.
Definition pause_upload_if (b : bool) (c : ConnId) (token reason : string) : H unit :=
  if b then pause_file_upload c token reason else mret tt.

Definition token_of (words : list string) : string :=
  match words with [] => "unknown" | token :: _ => token end.

(** The checks both FILE_BEGIN commands make on the size, the digest and the
    name; the result is the size and the decoded name. *)
Definition begin_checks (c : ConnId) (s : ClientSession) (token size_text encoded_name sha bad_size : string)
    : H (Z * string) :=
  file_size ← match parse_uint64_value size_text with
              | None => reject_file_upload c token bad_size
              | Some n => mret n
              end;
  reject_upload_if (kMaxFileSize <? file_size)%Z c token "your file size is too large" ;;
  reject_upload_if (negb (FileUtils.is_valid_sha256_hex sha)) c token "your haxi format is fault" ;;
  filename ← match FileUtils.percent_decode encoded_name with
             | inl e => reject_file_upload c token (FileUtils.decode_error_text e)
             | inr name => mret name
             end;
  reject_upload_if (is_empty filename) c token "your file name is empty" ;;
  reject_upload_if (255 <? strlen filename)%Z c token "the size of filename is too large" ;;
  reject_upload_if (bool_decide (is_Some (upload s))) c token "another upload is already active" ;;
  mret (file_size, filename).

Definition default_metadata : FileTransferMetadata :=
  mkFileMeta "" FILE_TRANSFER_SCOPE_UNSPECIFIED "" "" 0 "" "" 0 "" 0 "".

(** Start or resume the upload and answer with the accepted offset. *)
Definition open_upload (c : ConnId) (token : string) (requested : FileUploadResumeState)
    (target : FileTransferMetadata -> string) (group : FileTransferMetadata -> Z) : H unit :=
  r ← on_fs (FileService.begin_or_resume_upload requested);
  match r with
  | inl error => reject_file_upload c token error
  | inr (persisted, temp_path, accepted_offset) =>
      let metadata := default default_metadata (rs_metadata persisted) in
      let u := mkUpload token (fm_scope metadata) (target metadata) (group metadata)
                 (fm_file_name metadata) (fm_file_size metadata) accepted_offset
                 (fm_sha256_hex metadata) temp_path (rs_recipients persisted) persisted in
      set_session c (set_upload (Some u)) ;;
      send c ("FILE_READY " +:+ token +:+ " " +:+ to_string accepted_offset +:+ nl)
  end.

Definition handle_file_begin_private (c : ConnId) (arguments : string) : H unit :=
  s ← require_login c;
  let words := Protocol.split_words arguments in
  let token := token_of words in
  match words with
  | [_; target; encoded_name; size_text; sha] =>
      reject_upload_if (negb (FileUtils.is_valid_transfer_token token)) c token "the token is fault" ;;
      reject_upload_if (negb (is_valid_username target)) c token "the username is fault" ;;
      checked_ ← begin_checks c s token size_text encoded_name sha "your file size is not available";
      reject_upload_if (target =s? username s) c token "cannot send a private file to yourself" ;;
      d ← evaluate_policy (username s) target;
      match d.1 with
      | Policy.DatabaseError => reject_file_upload c token "数据库操作出错：checking direct-file policy"
      | Policy.TargetMissing => reject_file_upload c token "target account does not exist"
      | Policy.NotFriends =>
          reject_file_upload c token "private files are allowed only between friends"
      | Policy.BlockedByRecipient => reject_file_upload c token "recipient 有 blocked you"
      | Policy.BlockedBySender =>
          reject_file_upload c token "you have blocked this user, please unblock first"
      | Policy.Allowed => mret tt
      end ;;
      now ← now_unix_ms;
      let metadata := mkFileMeta token FILE_TRANSFER_PRIVATE (username s) target 0 ""
        (FileUtils.sanitize_filename checked_.2) checked_.1 sha now "" in
      open_upload c token (mkResumeState (Some metadata) [target]) fm_recipient (fun _ => 0%Z)
  | _ => reject_file_upload c token "your parameter is not five"
  end.

(** [if (!database_.m(...)) { reject_file_upload(...); return; }] *)
Definition rejecting {A} (c : ConnId) (token : string) (m : M Db A) (reason : string) : H A :=
  r ← on_db m;
  match r with
  | inl _ => reject_file_upload c token reason
  | inr a => mret a
  end.

Definition handle_file_begin_group (c : ConnId) (arguments : string) : H unit :=
  s ← require_login c;
  let words := Protocol.split_words arguments in
  let token := token_of words in
  match words with
  | [_; group_name; encoded_name; size_text; sha] =>
      reject_upload_if (negb (FileUtils.is_valid_transfer_token token)) c token "the token is fault" ;;
      reject_upload_if (negb (is_valid_group_name group_name)) c token "the groupname is fault" ;;
      checked_ ← begin_checks c s token size_text encoded_name sha "your file size is not +zhengshu";
      let db_error := "数据库操作出错：checking group membership" in
      group ← rejecting c token (get_group group_name) db_error;
      role ← rejecting c token (get_group_role group_name (username s)) db_error;
      match group with
      | None => reject_file_upload c token "group does not exist"
      | Some group =>
          reject_upload_if (bool_decide (role = None)) c token "only group members can send group files" ;;
          members ← rejecting c token (list_group_member_usernames group_name)
            "数据库操作出错：loading group members";
          let recipients := others_than (username s) members in
          reject_upload_if (match recipients with [] => true | _ => false end) c token
            "group 有 no other members to receive the file" ;;
          now ← now_unix_ms;
          let metadata := mkFileMeta token FILE_TRANSFER_GROUP (username s) "" (gi_id group) group_name
            (FileUtils.sanitize_filename checked_.2) checked_.1 sha now "" in
          open_upload c token (mkResumeState (Some metadata) recipients) fm_group_name fm_group_id
      end
  | _ => reject_file_upload c token "the count of parameter is not five"
  end.

(** The sum is computed in 64 bits. *)
Definition handle_file_chunk (c : ConnId) (arguments : string) : H unit :=
  s ← require_login c;
  let words := Protocol.split_words arguments in
  let token := token_of words in
  match words with
  | [_; offset_text; count_text] =>
      match upload s with
      | None => pause_file_upload c token "the  server donot have the client session"
      | Some u =>
          pause_upload_if (negb (up_token u =s? token)) c token "the token of client is false" ;;
          pause_upload_if (bool_decide (is_Some (binary_upload s))) c token
            "the previous chunk is not receive completely" ;;
          let bad := pause_file_upload c token "invalid binary file frame offset/length" in
          match parse_uint64_value offset_text, parse_uint64_value count_text with
          | Some offset, Some byte_count =>
              if (byte_count =? 0)%Z || (kMaxFileFrameBytes <? byte_count)%Z ||
                 negb (offset =? up_received_size u)%Z ||
                 (up_expected_size u <? wrap 64 (up_received_size u + byte_count))%Z
              then bad
              else set_session c (set_binary_upload (Some (mkFrame token offset offset byte_count "")))
          | _, _ => bad
          end
      end
  | _ => pause_file_upload c token "your count of parameter is false"
  end.

Definition cancel_upload (token : string) : H unit :=
  on_fs (FileService.cancel_upload token) ;; mret tt.

Definition reject_line (token reason : string) : string :=
  "FILE_REJECT " +:+ token +:+ " " +:+ encode_text_token reason +:+ nl.

(** The recipients of a finished upload, checked again at its end; a refusal
    cancels the upload. *)
Definition end_recipients (c : ConnId) (s : ClientSession) (u : IncomingFileUpload) : H (list string) :=
  let token := up_token u in
  match up_scope u with
  | FILE_TRANSFER_PRIVATE =>
      d ← evaluate_policy (username s) (up_target u);
      if bool_decide (d.1 = Policy.Allowed) then mret (up_recipients u)
      else
        cancel_upload token ;;
        reply c (reject_line token
          match d.1 with
          | Policy.BlockedByRecipient => "接收方已屏蔽你"
          | Policy.BlockedBySender => "你已屏蔽接收方"
          | Policy.NotFriends => "接收方已不再是你的好友"
          | Policy.TargetMissing => "接收方账户已不存在"
          | _ => "上传过程中权限发生变化"
          end)
  | FILE_TRANSFER_GROUP =>
      let failed := cancel_upload token ;; reply c (reject_line token "重新检查群成员权限时数据库出错") in
      role ← on_db (get_group_role (up_target u) (username s));
      match role with
      | inl _ => failed
      | inr role =>
          members ← on_db (list_group_member_usernames (up_target u));
          match members with
          | inl _ => failed
          | inr members =>
              match role with
              | None => cancel_upload token ;; reply c (reject_line token "你已不再是该群成员")
              | Some _ =>
                  match others_than (username s) members with
                  | [] => cancel_upload token ;;
                          reply c (reject_line token "当前群内没有其他可接收该文件的成员")
                  | recipients => mret recipients
                  end
              end
          end
      end
  | FILE_TRANSFER_SCOPE_UNSPECIFIED => mret (up_recipients u)
  end.

Definition set_stored_path (path : string) (m : FileTransferMetadata) : FileTransferMetadata :=
  mkFileMeta (fm_token m) (fm_scope m) (fm_sender m) (fm_recipient m) (fm_group_id m) (fm_group_name m)
    (fm_file_name m) (fm_file_size m) (fm_sha256_hex m) (fm_created_at m) path.

Definition unread_kind (scope : FileTransferScope) : string :=
  match scope with FILE_TRANSFER_PRIVATE => "private_file" | _ => "group_file" end.

Definition handle_file_end (c : ConnId) (arguments : string) : H unit :=
  s ← require_login c;
  let words := Protocol.split_words arguments in
  let token := token_of words in
  let no_match := pause_file_upload c token "no matching active upload; resend FILE_BEGIN to resume" in
  match words, upload s with
  | [_], Some u =>
      if negb (up_token u =s? token) then no_match
      else
        pause_upload_if (negb (up_received_size u =? up_expected_size u)%Z) c token
          "uploaded byte count is incomplete; resume，来源：server offset" ;;
        set_session c (set_upload None) ;;
        recipients ← end_recipients c s u;
        r ← on_fs (FileService.finalize_upload (up_temp_path u) (up_token u) (up_file_name u)
          (up_expected_size u) (up_sha256_hex u));
        match r with
        | inl error => cancel_upload (up_token u) ;; reply c (reject_line token error)
        | inr stored_relative_path =>
            let metadata := set_stored_path stored_relative_path
              (default default_metadata (rs_metadata (up_resume_state u))) in
            t ← on_db (add_file_transfer metadata recipients);
            match t with
            | inl error =>
                w ← look;
                on_fs (FileService.ignoring (FileService.fs_remove
                  (FileService.storage_root (w_fs w) +:+ "/" +:+ stored_relative_path))) ;;
                send c ("[error] 数据库操作失败：" +:+ error +:+ nl) ;;
                reply c (reject_line token "数据库未能保存文件传输记录")
            | inr transfer_id =>
                for_each (fun recipient =>
                  adjust_redis_unread_best_effort recipient (unread_kind (up_scope u)) 1) recipients ;;
                send c ("FILE_UPLOAD_OK " +:+ token +:+ " " +:+ to_string transfer_id +:+ nl) ;;
                send c ("[file #F" +:+ to_string transfer_id +:+ "] 已保存 " +:+ up_file_name u +:+ "（" +:+
                        to_string (up_expected_size u) +:+
                        " 字节）。在线接收方会立即收到，离线接收方登录后接收。" +:+ nl) ;;
                for_each (fun recipient =>
                  online ← find_online_user recipient;
                  match online with
                  | Some d => deliver_file_to_user (mkStoredFile transfer_id metadata) recipient d
                  | None => mret tt
                  end) recipients
            end
        end
  | _, _ => no_match
  end.

Definition handle_file_abort (c : ConnId) (arguments : string) : H unit :=
  s ← session c;
  match Protocol.split_words arguments with
  | [token] =>
      if negb (FileUtils.is_valid_transfer_token token) then done_
      else
        match upload s with
        | Some u =>
            if up_token u =s? token then
              set_session c (set_upload None) ;;
              cancel_upload token ;;
              send c (reject_line token "client cancelled upload")
            else reply c ("[error] 没有匹配的活动上传任务可取消。" +:+ nl)
        | None => reply c ("[error] 没有匹配的活动上传任务可取消。" +:+ nl)
        end
  | _ => done_
  end.

(** ** Downloads *)

Definition forget_delivery (transfer_id : Z) (s : ClientSession) : ClientSession :=
  set_file_delivery_cancel_flags (delete transfer_id (file_delivery_cancel_flags s))
    (set_file_deliveries_in_progress (file_deliveries_in_progress s ∖ {[transfer_id]}) s).

Definition drop_offer (transfer_id : Z) (s : ClientSession) : ClientSession :=
  set_offered_files (delete transfer_id (offered_files s)) s.

Definition handle_file_resume_request (c : ConnId) (arguments : string) : H unit :=
  s ← require_login c;
  let bad := reply c ("[error] 文件断点续传请求无效。" +:+ nl) in
  match Protocol.split_words arguments with
  | [id_text; offset_text] =>
      match parse_uint64_value id_text, parse_uint64_value offset_text with
      | Some transfer_id, Some start_offset =>
          match offered_files s !! transfer_id with
          | None =>
              reply c ("[error] 文件 #F" +:+ to_string transfer_id +:+
                       " 当前不在可接收列表中，请使用数字命令 37 重新拉取。" +:+ nl)
          | Some offered =>
              (if bool_decide (fm_scope (sf_metadata offered) = FILE_TRANSFER_GROUP) then
                 role ← on_db (get_group_role (fm_group_name (sf_metadata offered)) (username s));
                 match role with
                 | inl _ => reply c ("[error] 重新检查群文件成员权限失败，文件 #F" +:+
                                     to_string transfer_id +:+ "." +:+ nl)
                 | inr None =>
                     set_session c (drop_offer transfer_id) ;;
                     reply c ("FILE_ACCESS_REVOKED " +:+ to_string transfer_id +:+ " " +:+
                              encode_text_token "你已不再是该群成员" +:+ nl)
                 | inr (Some _) => mret tt
                 end
               else mret tt) ;;
              reply_if (fm_file_size (sf_metadata offered) <? start_offset)%Z c
                ("[error] 断点位置超过文件大小；客户端应删除本地临时文件并从 0 重新接收。" +:+ nl) ;;
              (if bool_decide (transfer_id ∈ file_deliveries_in_progress s) then done_ else mret tt) ;;
              w ← look;
              let flag := w_next_flag w in
              update (fun w => set_w_next_flag (S flag) (set_w_flags (<[flag := false]> (w_flags w)) w)) ;;
              set_session c (fun s =>
                set_file_delivery_cancel_flags (<[transfer_id := flag]> (file_delivery_cancel_flags s))
                  (set_file_deliveries_in_progress ({[transfer_id]} ∪ file_deliveries_in_progress s) s)) ;;
              update (fun w => set_w_jobs (w_jobs w ++ [mkJob offered start_offset c flag (username s)]) w)
          end
      | _, _ => bad
      end
  | _ => bad
  end.

(** The completion callback of a failed delivery, queued on the receiver's
    loop. *)
Definition delivery_failed (c : ConnId) (transfer_id : Z) (error : string) : H unit :=
  set_session c (forget_delivery transfer_id) ;;
  if error =s? "delivery permission revoked" then set_session c (drop_offer transfer_id) else mret tt.

Definition handle_file_received (c : ConnId) (arguments : string) : H unit :=
  s ← require_login c;
  let bad := reply c ("[error] 文件接收确认格式无效。" +:+ nl) in
  match Protocol.split_words arguments with
  | [id_text; sha] =>
      match parse_uint64_value id_text with
      | None => bad
      | Some transfer_id =>
          if negb (FileUtils.is_valid_sha256_hex sha) then bad
          else
            transfer ← checked c (file_transfer_for_recipient transfer_id (username s));
            match transfer with
            | None => set_session c (fun s => drop_offer transfer_id (forget_delivery transfer_id s))
            | Some transfer =>
                let received_sha := str_map tolower sha in
                if negb (received_sha =s? fm_sha256_hex (sf_metadata transfer)) then
                  set_session c (forget_delivery transfer_id) ;;
                  reply c ("[error] 文件 SHA-256 接收确认不匹配；the file remains pending for retry." +:+ nl)
                else
                  now ← now_unix_ms;
                  checked c (mark_file_transfer_delivered transfer_id (username s) now) ;;
                  set_session c (fun s => drop_offer transfer_id (forget_delivery transfer_id s)) ;;
                  adjust_redis_unread_best_effort (username s)
                    (unread_kind (fm_scope (sf_metadata transfer))) (-1) ;;
                  send c ("FILE_ACK_OK " +:+ to_string transfer_id +:+ nl)
            end
      end
  | _ => bad
  end.

Definition handle_file_receive_failed (c : ConnId) (arguments : string) : H unit :=
  match Protocol.split_words arguments with
  | [id_text] =>
      match parse_uint64_value id_text with
      | None => done_
      | Some transfer_id =>
          set_session c (forget_delivery transfer_id) ;;
          send c ("[system] 文件 #F" +:+ to_string transfer_id +:+
                  " remains pending; use command 37 to retry/resume." +:+ nl)
      end
  | _ => done_
  end.
End Files.
End Files.
