(* ===== verification/Server.v ===== *)
(** * The server loop: router, framing and events

    [ChatRoom/src/server/command_router.cpp], [.../chat_server_routes.cpp] and
    the event callbacks of [ChatRoom/src/chat_server.cpp].  A world evolves by
    events: connections come and go, bytes arrive, output is flushed, the
    delivery thread and the presence thread run, keys expire, time passes. *)
From S2P Require Import Prelude Protocol FileUtils Payloads Tables Database Registry Redis FileService Policy.
From S2P Require Import World Delivery Accounts Friends Groups Messages Files.
Import Payloads Tables Database World Delivery Accounts Friends Groups Messages Files.

Module Server.

Definition kMaxInputBuffer : Z := 8192.
Definition kRealtimeCommandBatch : nat := 32.

(** ** The router *)

Definition Handler : Type := ConnId -> string -> H unit.
Abbreviation Router := (gmap string Handler).

Definition add (command_name : string) (handler : Handler) (r : Router) : Router :=
  <[command_name := handler]> r.

Definition dispatch (r : Router) (c : ConnId) (command : Protocol.Command) : H bool :=
  match r !! Protocol.cmd_name command with
  | None => mret false
  | Some handler => call (handler c (Protocol.raw_arguments command)) ;; mret true
  end.

Section Server.
Context `{SqlEngine} `{ProtoCodecs} `{FileUtils.DigestEngine} `{ServerEnv}.

Definition handle_quit (c : ConnId) : H unit :=
  send c ("[system] goodbye." +:+ nl) ;; shutdown c.

(** [configure_command_routes], in source order. *)
Definition routes : list (string * Handler) := [
  ("HELP", fun c _ => send_help c);
  ("REGISTER", handle_register);
  ("LOGIN", handle_login);
  ("LOGOUT", fun c _ => handle_logout c);
  ("DELETE_ACCOUNT", handle_delete_account);
  ("SAY", handle_public_message);
  ("MSG", handle_private_message);
  ("ENTER_PRIVATE", handle_enter_private);
  ("ENTER_GROUP", handle_enter_group);
  ("WHO", fun c _ => handle_who c);
  ("ADD_FRIEND", handle_add_friend);
  ("ACCEPT_FRIEND", handle_accept_friend);
  ("REJECT_FRIEND", handle_reject_friend);
  ("REMOVE_FRIEND", handle_remove_friend);
  ("BLOCK_FRIEND", handle_block_friend);
  ("UNBLOCK_FRIEND", handle_unblock_friend);
  ("BLOCKED_FRIENDS", fun c _ => handle_blocked_friends c);
  ("FRIENDS", fun c _ => handle_friends c);
  ("FRIEND_REQUESTS", fun c _ => handle_friend_requests c);
  ("HISTORY_PUBLIC", handle_history_public);
  ("HISTORY_PRIVATE", handle_history_private);
  ("CREATE_GROUP", handle_create_group);
  ("DISSOLVE_GROUP", handle_dissolve_group);
  ("APPLY_GROUP", handle_apply_group);
  ("MY_GROUPS", fun c _ => handle_my_groups c);
  ("LEAVE_GROUP", handle_leave_group);
  ("GROUP_MEMBERS", handle_group_members);
  ("ADD_GROUP_ADMIN", handle_add_group_admin);
  ("REMOVE_GROUP_ADMIN", handle_remove_group_admin);
  ("GROUP_REQUESTS", handle_group_requests);
  ("GROUP_REQUESTS_ALL", fun c _ => handle_group_requests_all c);
  ("APPROVE_GROUP", handle_approve_group);
  ("REJECT_GROUP", handle_reject_group);
  ("REMOVE_GROUP_MEMBER", handle_remove_group_member);
  ("GROUP_MSG", handle_group_message);
  ("HISTORY_GROUP", handle_history_group);
  ("FILE_BEGIN_PRIVATE", handle_file_begin_private);
  ("FILE_BEGIN_GROUP", handle_file_begin_group);
  ("FILE_CHUNK", handle_file_chunk);
  ("FILE_END", handle_file_end);
  ("FILE_ABORT", handle_file_abort);
  ("FILE_RESUME_REQUEST", handle_file_resume_request);
  ("FILE_RECEIVED", handle_file_received);
  ("FILE_RECEIVE_FAILED", handle_file_receive_failed);
  ("PENDING", fun c _ => handle_pending c);
  ("PING", handle_ping);
  ("QUIT", fun c _ => handle_quit c) ].

Definition command_router : Router :=
  foldl (fun r item => add item.1 item.2 r) ∅ routes.

Definition handle_command (c : ConnId) (command : Protocol.Command) : H unit :=
  found ← dispatch command_router c command;
  if (found : bool) then mret tt
  else send c ("[error] 未知命令，请输入当前状态支持的数字命令。 " +:+ nl +:+
               "Type HELP to see available commands." +:+ nl).

(** ** Framing *)

Definition is_nl (ch : ascii) : bool := in_range 10 10 ch.

(** [if (!line.empty() && line.back() == '\r') line.pop_back();] *)
Definition strip_cr (line : string) : string :=
  match str_nth (String.length line - 1) line with
  | Some ch => if in_range 13 13 ch then str_take (String.length line - 1) line else line
  | None => line
  end.

Definition retrieve (n : nat) (k : Conn) : Conn := set_c_in (str_drop n (c_in k)) k.

(** One piece of a binary frame: append the bytes at hand, write the frame when
    it is complete. *)
Definition binary_piece (c : ConnId) (u : IncomingFileUpload) (f : PendingBinaryUploadFrame)
    (input : string) : H unit :=
  let consume := Z.min (fr_remaining_bytes f) (strlen input) in
  let f := mkFrame (fr_token f) (fr_start_offset f) (fr_next_offset f + consume)
             (fr_remaining_bytes f - consume) (fr_bytes f +:+ str_take (Z.to_nat consume) input) in
  with_conn c (retrieve (Z.to_nat consume)) ;;
  set_session c (set_binary_upload (Some f)) ;;
  if (fr_remaining_bytes f =? 0)%Z then
    r ← on_fs (FileService.append_upload_bytes (up_temp_path u) (fr_start_offset f) (fr_bytes f));
    match r with
    | inl error => pause_file_upload c (up_token u) error
    | inr accepted =>
        set_session c (fun s => set_binary_upload None
          (set_upload (set_up_received_size accepted <$> upload s) s))
    end
  else mret tt.

(** A binary frame whose upload is gone. *)
Definition binary_invalid (c : ConnId) : H (bool * nat) :=
  set_session c (set_binary_upload None) ;;
  send c ("[error] 二进制上传状态无效：上传任务已失效或传输令牌不匹配。" +:+ nl) ;;
  forceClose c ;;
  done_.

(** One line of input: [(true, n)] goes on with the loop, [(false, n)] leaves it. *)
Definition text_line (c : ConnId) (k : Conn) (processed : nat) : H (bool * nat) :=
  match find_first is_nl (c_in k) with
  | None => mret (false, processed)
  | Some n =>
      let command := Protocol.parse_command (strip_cr (str_take n (c_in k))) in
      with_conn c (retrieve (S n)) ;;
      let named := negb (is_empty (Protocol.cmd_name command)) in
      (if named then handle_command c command else mret tt) ;;
      let processed := if named then S processed else processed in
      w ← look;
      match w_conns w !! c, session_of w c with
      | Some k, Some s =>
          if (kRealtimeCommandBatch <=? processed)%nat &&
             negb (bool_decide (is_Some (binary_upload s))) &&
             bool_decide (is_Some (find_first is_nl (c_in k)))
          then done_
          else mret (true, processed)
      | _, _ => done_
      end
  end.

(** One round of the loop of [on_message]. *)
Definition message_round (c : ConnId) (processed : nat) : H (bool * nat) :=
  w ← look;
  match w_conns w !! c, session_of w c with
  | Some k, Some s =>
      if negb (bool_decide (c_state k = Connected)) then mret (false, processed)
      else
        match binary_upload s, upload s with
        | Some f, u =>
            if (0 <? fr_remaining_bytes f)%Z then
              match u with
              | Some u =>
                  if negb (up_token u =s? fr_token f) then binary_invalid c
                  else if is_empty (c_in k) then done_
                  else binary_piece c u f (c_in k) ;; mret (true, processed)
              | None => binary_invalid c
              end
            else text_line c k processed
        | None, _ => text_line c k processed
        end
  | _, _ => done_
  end.

(** The loop; a round that goes on has taken at least one byte of input.  The
    answer is whether it has ended, [false] when the fuel has run out. *)
Fixpoint message_loop (fuel : nat) (c : ConnId) (processed : nat) : H bool :=
  match fuel with
  | 0 => mret false
  | S fuel' =>
      r ← message_round c processed;
      if (r.1 : bool) then message_loop fuel' c r.2 else mret true
  end.

Definition on_message (c : ConnId) : H unit :=
  w ← look;
  match session_of w c with
  | None => send c ("[error] 会话状态不可用。" +:+ nl) ;; forceClose c
  | Some _ =>
      let input := default "" (c_in <$> w_conns w !! c) in
      message_loop (S (String.length input)) c 0 ;;
      w ← look;
      match w_conns w !! c, session_of w c with
      | Some k, Some s =>
          if negb (bool_decide (is_Some (binary_upload s))) && (kMaxInputBuffer <? strlen (c_in k))%Z
          then send c ("[error] 输入行过长；connection will close." +:+ nl) ;; shutdown c
          else mret tt
      | _, _ => mret tt
      end
  end.

(** ** Events *)

Inductive event :=
  | EvConnect (c : ConnId)
  | EvBytes (c : ConnId) (bytes : string)
  | EvClose (c : ConnId)
  | EvFlush (c : ConnId)
  | EvPersist
  | EvRefresh
  | EvDeliveryFailed (c : ConnId) (transfer_id : Z) (error : string)
  | EvExpire (key : string)
  | EvTick (now : Z).

(** [EvBytes] with no bytes is the queued continuation of a long batch. *)
Definition step (e : event) (w : World) : World :=
  match e with
  | EvConnect c =>
      match w_conns w !! c with
      | Some _ => w
      | None =>
          (on_connected c (set_w_conns (<[c := mkConn Connected None "" []]> (w_conns w)) w)).2
      end
  | EvBytes c bytes =>
      match w_conns w !! c with
      | Some k =>
          match c_state k with
          | Disconnected => w
          | _ => (on_message c (set_w_conns (<[c := set_c_in (c_in k +:+ bytes) k]> (w_conns w)) w)).2
          end
      | None => w
      end
  | EvClose c =>
      match w_conns w !! c with
      | Some k =>
          match c_state k with
          | Disconnected => w
          | _ => (on_disconnected c (set_w_conns (<[c := set_c_state Disconnected k]> (w_conns w)) w)).2
          end
      | None => w
      end
  | EvFlush c => (flush_one c w).2
  | EvPersist => (delivery_persist_step w).2
  | EvRefresh => (refresh_all_presence_best_effort w).2
  | EvDeliveryFailed c transfer_id error => (delivery_failed c transfer_id error w).2
  | EvExpire key => set_w_redis (Redis.expire key (w_redis w)) w
  | EvTick now => set_w_clock now w
  end.

Definition run (events : list event) (w : World) : World := foldl (fun w e => step e w) w events.
End Server.
End Server.
