(* ===== verification/ServerLogic.v ===== *)
(** * Reasoning about handlers

    A small program logic for the code of [ChatServer]: [keeps I h] says that the
    handler [h] keeps the invariant [I] of the server's world.  What an invariant
    has to promise about the primitive steps of the handlers is stated by classes;
    the lemmas show, once for every invariant of a class, that the whole handlers
    keep it. *)
From S2P Require Import Prelude Protocol FileUtils Password Payloads Tables Database Integrity Transactions.
From S2P Require Import Registry Redis FileService Policy World Delivery Accounts Friends Groups Messages.
From S2P Require Import Files.
Import Payloads Tables Database Transactions World Delivery Accounts Friends Groups Messages Files.

Module ServerLogic.

Definition keeps (I : World -> Prop) {A} (h : World.H A) : Prop := forall w, I w -> I (h w).2.

(** ** Structural rules *)

Section Rules.
Variable I : World -> Prop.

Lemma keeps_ret {A} (a : A) : keeps I (mret a).
Proof. by intros w Hw. Qed.
Lemma keeps_done {A} : keeps I (done_ (A := A)).
Proof. by intros w Hw. Qed.
Lemma keeps_look : keeps I look.
Proof. by intros w Hw. Qed.
Lemma keeps_session c : keeps I (session c).
Proof. intros w Hw. unfold session. by case_match. Qed.
Lemma keeps_bind {A B} (h : World.H A) (k : A -> World.H B) :
  keeps I h -> (forall a, keeps I (k a)) -> keeps I (h ≫= k).
Proof.
  intros Hh Hk w Hw. specialize (Hh w Hw). unfold mbind, H_bind.
  destruct (h w) as [[a|] w']; [by apply Hk|done].
Qed.
Lemma keeps_call h : keeps I h -> keeps I (call h).
Proof. intros Hh w Hw. by apply Hh. Qed.
Lemma keeps_for_each {A} (f : A -> World.H unit) l :
  (forall a, keeps I (f a)) -> keeps I (for_each f l).
Proof. intros Hf. induction l; simpl; [apply keeps_ret|by apply keeps_bind]. Qed.
Lemma keeps_clock : keeps I now_unix_ms.
Proof. by intros w Hw. Qed.
End Rules.

(** Code between two invariants, with the one it leaves when it returns early. *)
Definition triple (P : World -> Prop) {A} (h : World.H A) (Q : A -> World -> Prop) (R : World -> Prop) : Prop :=
  forall w, P w -> match h w with (Some a, w') => Q a w' | (None, w') => R w' end.

Lemma triple_bind {A B} P (h : World.H A) (k : A -> World.H B) Q Q' R :
  triple P h Q' R -> (forall a, triple (Q' a) (k a) Q R) -> triple P (h ≫= k) Q R.
Proof.
  intros Hh Hk w Hw. specialize (Hh w Hw). unfold mbind, H_bind.
  destruct (h w) as [[a|] w']; [by apply Hk|done].
Qed.
Lemma triple_keeps {A} I (h : World.H A) : keeps I h <-> triple I h (fun _ => I) I.
Proof.
  split; intros Hh w Hw; specialize (Hh w Hw); by destruct (h w) as [[a|] w'].
Qed.
Lemma triple_pure {A} (phi : Prop) P (h : World.H A) Q R :
  (phi -> triple P h Q R) -> triple (fun w => P w /\ phi) h Q R.
Proof. intros Hh w [Hw Hp]. by apply Hh. Qed.
Lemma triple_weaken {A} (P P' : World -> Prop) (h : World.H A) Q (R R' : World -> Prop) :
  (forall w, P w -> P' w) -> (forall w, R' w -> R w) -> triple P' h Q R' -> triple P h Q R.
Proof.
  intros HP HR Hh w Hw. specialize (Hh w (HP w Hw)). destruct (h w) as [[a|] w']; auto.
Qed.
Lemma triple_end {A} P (h : World.H A) R w : triple P h (fun _ => R) R -> P w -> R (h w).2.
Proof. intros Hh Hw. specialize (Hh w Hw). by destruct (h w) as [[a|] w']. Qed.
(** A step that keeps [I], before code that needs [I] and may leave only [J]. *)
Lemma triple_step {A B} I J (h : World.H A) (k : A -> World.H B) Q :
  keeps I h -> (forall w, I w -> J w) -> (forall a, triple I (k a) Q J) -> triple I (h ≫= k) Q J.
Proof.
  intros Hh HIJ Hk. eapply triple_bind; [|exact Hk]. apply triple_keeps in Hh.
  by eapply triple_weaken; [| |exact Hh].
Qed.

Create HintDb keeps.
#[export] Hint Constants Opaque : keeps.
#[export] Hint Resolve keeps_ret keeps_done keeps_look keeps_session keeps_clock : keeps.

(** ** Calls of the database *)

Section Calls.
Context `{SqlEngine} `{ProtoCodecs}.

(** A method of the interface, as a value of [DbCall]. *)
Class IsCall {A} (m : M Db A) := { call_of : DbCall A; call_eq : m = run_call call_of }.
Definition is_call {A} (c : DbCall A) : IsCall (run_call c) := {| call_of := c; call_eq := eq_refl |}.

#[export] Instance user_exists_call u : IsCall (user_exists u) := is_call (UserExists u).
#[export] Instance create_user_call u hash : IsCall (create_user u hash) :=
  is_call (CreateUser u hash).
#[export] Instance delete_user_call u : IsCall (delete_user u) := is_call (DeleteUser u).
#[export] Instance get_password_hash_call u : IsCall (get_password_hash u) :=
  is_call (GetPasswordHash u).
#[export] Instance are_friends_call a b : IsCall (are_friends a b) := is_call (AreFriends a b).
#[export] Instance is_friend_blocked_call a b : IsCall (is_friend_blocked a b) :=
  is_call (IsFriendBlocked a b).
#[export] Instance add_friend_block_call a b : IsCall (add_friend_block a b) :=
  is_call (AddFriendBlock a b).
#[export] Instance remove_friend_block_call a b : IsCall (remove_friend_block a b) :=
  is_call (RemoveFriendBlock a b).
#[export] Instance list_blocked_friends_call a : IsCall (list_blocked_friends a) :=
  is_call (ListBlockedFriends a).
#[export] Instance has_friend_request_call a b : IsCall (has_friend_request a b) :=
  is_call (HasFriendRequest a b).
#[export] Instance add_friend_request_call a b : IsCall (add_friend_request a b) :=
  is_call (AddFriendRequest a b).
#[export] Instance accept_friend_request_call a b : IsCall (accept_friend_request a b) :=
  is_call (AcceptFriendRequest a b).
#[export] Instance reject_friend_request_call a b : IsCall (reject_friend_request a b) :=
  is_call (RejectFriendRequest a b).
#[export] Instance remove_friendship_call a b : IsCall (remove_friendship a b) :=
  is_call (RemoveFriendship a b).
#[export] Instance list_friends_call u : IsCall (list_friends u) := is_call (ListFriends u).
#[export] Instance list_incoming_requests_call u : IsCall (list_incoming_requests u) :=
  is_call (ListIncomingRequests u).
#[export] Instance list_outgoing_requests_call u : IsCall (list_outgoing_requests u) :=
  is_call (ListOutgoingRequests u).
#[export] Instance add_friend_event_call e : IsCall (add_friend_event e) :=
  is_call (AddFriendEvent e).
#[export] Instance add_message_call p : IsCall (add_message p) := is_call (AddMessage p).
#[export] Instance add_private_message_with_delivery_call p : IsCall (add_private_message_with_delivery p) :=
  is_call (AddPrivateMessageWithDelivery p).
#[export] Instance recent_public_messages_call n : IsCall (recent_public_messages n) :=
  is_call (RecentPublicMessages n).
#[export] Instance recent_private_messages_call a b n : IsCall (recent_private_messages a b n) :=
  is_call (RecentPrivateMessages a b n).
#[export] Instance pending_private_messages_call u n : IsCall (pending_private_messages u n) :=
  is_call (PendingPrivateMessages u n).
#[export] Instance mark_private_message_delivered_call id u at_ms : IsCall (mark_private_message_delivered id u at_ms) :=
  is_call (MarkPrivateMessageDelivered id u at_ms).
#[export] Instance create_group_call g u : IsCall (create_group g u) := is_call (CreateGroup g u).
#[export] Instance get_group_call g : IsCall (get_group g) := is_call (GetGroup g).
#[export] Instance dissolve_group_call g u : IsCall (dissolve_group g u) :=
  is_call (DissolveGroup g u).
#[export] Instance get_group_role_call g u : IsCall (get_group_role g u) :=
  is_call (GetGroupRole g u).
#[export] Instance list_user_groups_call u : IsCall (list_user_groups u) :=
  is_call (ListUserGroups u).
#[export] Instance list_group_members_call g : IsCall (list_group_members g) :=
  is_call (ListGroupMembers g).
#[export] Instance list_group_member_usernames_call g : IsCall (list_group_member_usernames g) :=
  is_call (ListGroupMemberUsernames g).
#[export] Instance has_group_join_request_call g u : IsCall (has_group_join_request g u) :=
  is_call (HasGroupJoinRequest g u).
#[export] Instance add_group_join_request_call g u : IsCall (add_group_join_request g u) :=
  is_call (AddGroupJoinRequest g u).
#[export] Instance list_group_join_requests_call g : IsCall (list_group_join_requests g) :=
  is_call (ListGroupJoinRequests g).
#[export] Instance list_group_managers_call g : IsCall (list_group_managers g) :=
  is_call (ListGroupManagers g).
#[export] Instance list_managed_group_request_counts_call u : IsCall (list_managed_group_request_counts u) :=
  is_call (ListManagedGroupRequestCounts u).
#[export] Instance approve_group_join_request_call g u : IsCall (approve_group_join_request g u) :=
  is_call (ApproveGroupJoinRequest g u).
#[export] Instance reject_group_join_request_call g u : IsCall (reject_group_join_request g u) :=
  is_call (RejectGroupJoinRequest g u).
#[export] Instance set_group_member_role_call g u r : IsCall (set_group_member_role g u r) :=
  is_call (SetGroupMemberRole g u r).
#[export] Instance remove_group_member_call g u : IsCall (remove_group_member g u) :=
  is_call (RemoveGroupMember g u).
#[export] Instance add_group_message_call p us : IsCall (add_group_message p us) :=
  is_call (AddGroupMessage p us).
#[export] Instance recent_group_messages_call g n : IsCall (recent_group_messages g n) :=
  is_call (RecentGroupMessages g n).
#[export] Instance pending_group_messages_call u n : IsCall (pending_group_messages u n) :=
  is_call (PendingGroupMessages u n).
#[export] Instance mark_group_message_delivered_call id u at_ms : IsCall (mark_group_message_delivered id u at_ms) :=
  is_call (MarkGroupMessageDelivered id u at_ms).
#[export] Instance add_file_transfer_call m us : IsCall (add_file_transfer m us) :=
  is_call (AddFileTransfer m us).
#[export] Instance pending_file_transfers_call u n : IsCall (pending_file_transfers u n) :=
  is_call (PendingFileTransfers u n).
#[export] Instance file_transfer_for_recipient_call id u : IsCall (file_transfer_for_recipient id u) :=
  is_call (FileTransferForRecipient id u).
#[export] Instance mark_file_transfer_delivered_call id u at_ms : IsCall (mark_file_transfer_delivered id u at_ms) :=
  is_call (MarkFileTransferDelivered id u at_ms).

(** The calls that may withdraw a permission a session has cached, or change the
    members of a group. *)
Definition harmless {A} (c : DbCall A) : bool :=
  match c with
  | DeleteUser _ | AddFriendBlock _ _ | RemoveFriendship _ _ | CreateGroup _ _ | DissolveGroup _ _
  | ApproveGroupJoinRequest _ _ | RemoveGroupMember _ _ => false
  | _ => true
  end.
End Calls.

(** ** Changes of connections and sessions *)

(** The parts of a session that invariants speak about. *)
Definition login_part (s : ClientSession) : bool * string := (logged_in s, username s).
Definition realtime_part (s : ClientSession) : string * Z * string * Z * list string * Z :=
  (realtime_private_target s, realtime_private_generation s, realtime_group_name s,
   realtime_group_id s, realtime_group_recipients s, realtime_group_generation s).
Definition upload_part (s : ClientSession) : option IncomingFileUpload * option PendingBinaryUploadFrame :=
  (upload s, binary_upload s).

Definition upload_kept (f : ClientSession -> ClientSession) (s : ClientSession) : Prop :=
  upload_part (f s) = upload_part s \/ upload_part (f s) = (upload s, None) \/
  upload_part (f s) = (None, None).

Definition neutral (f : ClientSession -> ClientSession) : Prop := forall s,
  login_part (f s) = login_part s /\ realtime_part (f s) = realtime_part s /\ upload_kept f s.

(** Output and framing: the session stays, the connection may be closed, input
    is only consumed. *)
Definition conn_neutral (f : Conn -> Conn) : Prop := forall k,
  c_session (f k) = c_session k /\ (c_state (f k) = c_state k \/ c_state (f k) <> Connected) /\
  (String.length (c_in (f k)) <= String.length (c_in k))%nat.

Lemma queue_out_neutral o : conn_neutral (queue_out o).
Proof. intros k. unfold queue_out. destruct (c_state k) eqn:E; simpl; auto. Qed.
Lemma retrieve_neutral n : conn_neutral (fun k => set_c_in (str_drop n (c_in k)) k).
Proof. intros k. simpl. split_and!; [done|by left|]. rewrite str_drop_length. lia. Qed.

(** Only users whose connection is not open are dropped from the registry. *)
Definition pruned (w : World) (users : Registry.Users) : Prop :=
  users ⊆ w_online w /\
  forall u c, w_online w !! u = Some c -> Registry.alive (conn_status_of w) c = true -> users !! u = Some c.

(** What every invariant below promises. *)
Class Core `{SqlEngine} `{ProtoCodecs} (I : World -> Prop) := {
  core_same : forall w w', w_db w' = w_db w -> w_conns w' = w_conns w -> w_online w' = w_online w ->
    w_direct_generation w' = w_direct_generation w -> w_group_generation w' = w_group_generation w ->
    I w -> I w';
  core_conn : forall c f, conn_neutral f -> keeps I (with_conn c f);
  core_session : forall c f, neutral f -> keeps I (set_session c f);
  core_prune : forall w users, pruned w users -> I w -> I (set_w_online users w);
  core_call : forall A (m : DbCall A), harmless m = true -> keeps I (on_db (run_call m));
}.

Lemma core_and `{SqlEngine} `{ProtoCodecs} I J : Core I -> Core J -> Core (fun w => I w /\ J w).
Proof.
  intros HI HJ. split.
  - intros w w' E1 E2 E3 E4 E5 [Hi Hj]. split; by apply (core_same w).
  - intros c f Hf w [Hi Hj]. split; by apply core_conn.
  - intros c f Hf w [Hi Hj]. split; by apply core_session.
  - intros w users Hp [Hi Hj]. split; by apply core_prune.
  - intros A m Hm w [Hi Hj]. split; by apply core_call.
Qed.

(** Invariants that stand any call of the database. *)
Class AnyCall `{SqlEngine} `{ProtoCodecs} (I : World -> Prop) := {
  any_call : forall A (m : DbCall A), keeps I (on_db (run_call m));
  any_bump_direct : keeps I bump_direct;
  any_bump_group : keeps I bump_group;
}.
(** Invariants that do not depend on the cached permissions of a session and stand
    the steps of other threads; those that do not depend on its upload; those
    that do not depend on who is logged in. *)
Class AnyRealtime `{ServerEnv} (I : World -> Prop) := {
  any_realtime : forall c f,
    (forall s, login_part (f s) = login_part s /\ upload_kept f s) -> keeps I (set_session c f);
  any_others : keeps I unlocked;
}.
Class AnyUpload (I : World -> Prop) := {
  any_upload : forall c f,
    (forall s, login_part (f s) = login_part s /\ realtime_part (f s) = realtime_part s) ->
    keeps I (set_session c f);
}.
Class AnyLogin (I : World -> Prop) := {
  any_login : forall c f, (forall s, upload_kept f s) -> keeps I (set_session c f);
  any_registry : forall A (f : _ -> _ -> A * _), keeps I (on_registry f);
}.

(** ** The primitive steps of handlers *)

Section Core.
Context `{SqlEngine} `{ProtoCodecs} `{FileUtils.DigestEngine} `{ServerEnv}.
Variable I : World -> Prop.
Context `{!Core I}.

Lemma keeps_redis {A} (m : M Redis.Redis A) : keeps I (on_redis m).
Proof. intros w. by apply core_same. Qed.
Lemma keeps_fs {A} (m : M FileService.Fs A) : keeps I (on_fs m).
Proof. intros w. by apply core_same. Qed.
Lemma keeps_random : keeps I next_random.
Proof. intros w Hw. unfold next_random. case_match; [done|]. by apply (core_same w). Qed.
Lemma keeps_db {A} (m : M Db A) `{!IsCall m} : harmless (call_of (m := m)) = true -> keeps I (on_db m).
Proof. intros Hm. rewrite (call_eq (m := m)). by apply core_call. Qed.
Lemma keeps_send c text : keeps I (send c text).
Proof. apply core_conn, queue_out_neutral. Qed.
Lemma keeps_send_then c text task : keeps I (send_then c text task).
Proof. apply core_conn, queue_out_neutral. Qed.
Lemma keeps_shutdown c : keeps I (shutdown c).
Proof. apply core_conn. intros k. destruct (c_state k) eqn:E; simpl; auto. Qed.
Lemma keeps_forceClose c : keeps I (forceClose c).
Proof. apply core_conn. intros k. destruct (c_state k) eqn:E; simpl; auto. Qed.

Lemma pruned_id w : pruned w (w_online w).
Proof. done. Qed.
Lemma pruned_delete w u :
  (forall c, w_online w !! u = Some c -> Registry.alive (conn_status_of w) c = false) ->
  pruned w (delete u (w_online w)).
Proof.
  intros Hu. split; [apply delete_subseteq|]. intros u' c Hc Ha.
  destruct (decide (u' = u)) as [->|]; [|by rewrite lookup_delete_ne].
  apply Hu in Hc. congruence.
Qed.
Lemma pruned_filter w : pruned w (Registry.prune_locked (conn_status_of w) (w_online w)).
Proof.
  split; [apply map_filter_subseteq|]. intros u c Hc Ha. by apply Registry.prune_lookup.
Qed.
Lemma pruned_find w u : pruned w (Registry.find (conn_status_of w) u (w_online w)).2.
Proof.
  destruct (Registry.find _ u _) as [[c|] users] eqn:E; simpl.
  - apply Registry.find_some in E as (_ & _ & ->). apply pruned_id.
  - apply Registry.find_none in E as [Hu ->]. by apply pruned_delete.
Qed.

Lemma keeps_find u : keeps I (find_online_user u).
Proof. intros w. apply core_prune, pruned_find. Qed.
Lemma keeps_is_online u : keeps I (is_user_online u).
Proof. intros w. apply core_prune, pruned_find. Qed.
Lemma keeps_usernames : keeps I (on_registry Registry.usernames).
Proof. intros w. apply core_prune, pruned_filter. Qed.
Lemma keeps_connections except :
  keeps I (on_registry (fun status => Registry.connections status except)).
Proof. intros w. apply core_prune, pruned_filter. Qed.
End Core.
#[export] Hint Resolve keeps_redis keeps_fs keeps_random keeps_send keeps_send_then
  keeps_shutdown keeps_forceClose keeps_find keeps_is_online keeps_usernames keeps_connections : keeps.
#[export] Hint Extern 1 (keeps _ (on_db _)) => refine (keeps_db _ _ _); reflexivity : keeps.

(** A change of the session: [neutral] by computation. *)
Ltac neutral_step :=
  first
    [ apply core_session; intros []; split_and!; solve [reflexivity | by left | by right; left | by right; right]
    | apply any_realtime; intros []; split; solve [reflexivity | by left | by right; left | by right; right]
    | apply any_upload; intros []; split; reflexivity
    | apply any_login; intros []; solve [by left | by right; left | by right; right] ].

(** A change of the world that no invariant speaks about. *)
Ltac other_step := let w := fresh "w" in intros w; by apply core_same.

(** Walk through a handler: every step keeps the invariant. *)
Ltac walk_keeps :=
  cbv zeta;
  repeat lazymatch goal with
    | |- keeps _ (_ ≫= _) => apply keeps_bind; [|intros ?; cbv zeta]
    | |- keeps _ (call _) => apply keeps_call
    | |- keeps _ (for_each _ _) => apply keeps_for_each; intros ?
    | |- keeps _ (match _ with _ => _ end) => case_match
    | |- keeps _ (set_session _ _) => neutral_step
    | |- keeps _ (on_db (match _ with _ => _ end)) => case_match
    end;
  try solve [eauto with keeps typeclass_instances].

Section Shared.
Context `{SqlEngine} `{ProtoCodecs} `{FileUtils.DigestEngine} `{ServerEnv}.
Variable I : World -> Prop.
Context `{!Core I}.

Lemma keeps_reply {A} c text : keeps I (reply (A := A) c text).
Proof. unfold reply. walk_keeps. Qed.
Lemma keeps_reply_if b c text : keeps I (reply_if b c text).
Proof. unfold reply_if. walk_keeps. apply keeps_reply. Qed.
Lemma keeps_require_login c : keeps I (require_login c).
Proof. unfold require_login. walk_keeps. apply keeps_reply. Qed.
Lemma keeps_database_error {A} c e : keeps I (database_error (A := A) c e).
Proof. apply keeps_reply. Qed.
Lemma keeps_checked {A} c (m : M Db A) : keeps I (on_db m) -> keeps I (checked c m).
Proof. intros Hm. unfold checked. walk_keeps. apply keeps_database_error. Qed.
End Shared.
#[export] Hint Resolve keeps_reply keeps_reply_if keeps_require_login keeps_database_error keeps_checked : keeps.

Section Shared.
Context `{SqlEngine} `{ProtoCodecs} `{FileUtils.DigestEngine} `{ServerEnv}.
Variable I : World -> Prop.
Context `{!Core I}.

Lemma keeps_single_username c a usage : keeps I (extract_single_username c a usage).
Proof. unfold extract_single_username. walk_keeps. Qed.
Lemma keeps_single_group_name c a usage : keeps I (extract_single_group_name c a usage).
Proof. unfold extract_single_group_name. walk_keeps. Qed.
Lemma keeps_group_and_username c a usage : keeps I (extract_group_and_username c a usage).
Proof. unfold extract_group_and_username. walk_keeps. Qed.
Lemma keeps_notify u text : keeps I (notify_user_if_online u text).
Proof. unfold notify_user_if_online. walk_keeps. Qed.
Lemma keeps_broadcast text except : keeps I (broadcast_to_logged_in text except).
Proof. unfold broadcast_to_logged_in. walk_keeps. Qed.
Lemma keeps_remove_presence u : keeps I (remove_redis_presence_best_effort u).
Proof. unfold remove_redis_presence_best_effort. walk_keeps. Qed.
Lemma keeps_adjust_unread u kind d : keeps I (adjust_redis_unread_best_effort u kind d).
Proof. unfold adjust_redis_unread_best_effort. walk_keeps. Qed.
Lemma keeps_unread_summary c u : keeps I (send_redis_unread_summary_best_effort c u).
Proof. unfold send_redis_unread_summary_best_effort. walk_keeps. Qed.
Lemma keeps_claim u c : keeps I (claim_redis_presence u c).
Proof. unfold claim_redis_presence. walk_keeps. Qed.
Lemma keeps_refresh : keeps I refresh_all_presence_best_effort.
Proof. unfold refresh_all_presence_best_effort. walk_keeps. Qed.
Lemma keeps_record_event t a b : keeps I (record_event t a b).
Proof. unfold record_event. walk_keeps. Qed.
End Shared.
(** What a handler knows after its first checks. *)
Lemma session_triple `{SqlEngine} `{ProtoCodecs} P c :
  triple P (session c) (fun s w => P w /\ session_of w c = Some s) P.
Proof. intros w Hw. unfold session. by destruct (session_of w c) eqn:E. Qed.
Lemma reply_if_triple `{SqlEngine} `{ProtoCodecs} P R `{!Core R} b c text :
  (forall w, P w -> R w) -> triple P (reply_if b c text) (fun _ w => P w /\ b = false) R.
Proof. intros HR w Hw. destruct b; [by apply (keeps_send R), HR|done]. Qed.
Lemma reply_triple `{SqlEngine} `{ProtoCodecs} P R `{!Core R} {A} c text Q :
  (forall w, P w -> R w) -> triple P (reply (A := A) c text) Q R.
Proof. intros HR w Hw. by apply (keeps_send R), HR. Qed.
Lemma require_login_triple `{SqlEngine} `{ProtoCodecs} P R `{!Core R} c :
  (forall w, P w -> R w) ->
  triple P (require_login c) (fun s w => P w /\ session_of w c = Some s /\ logged_in s = true) R.
Proof.
  intros HR w Hw. unfold require_login, mbind, H_bind, session.
  destruct (session_of w c) as [s|] eqn:E; [|by apply HR].
  destruct (logged_in s) eqn:El; [done|]. by apply (keeps_send R), HR.
Qed.
#[export] Hint Resolve keeps_single_username keeps_single_group_name keeps_group_and_username keeps_notify
  keeps_broadcast keeps_remove_presence keeps_adjust_unread keeps_unread_summary keeps_claim
  keeps_refresh keeps_record_event : keeps.

(** ** Delivery *)

Section Delivery.
Context `{SqlEngine} `{ProtoCodecs} `{FileUtils.DigestEngine} `{ServerEnv}.
Variable I : World -> Prop.
Context `{!Core I}.

Lemma keeps_pending_requests c u : keeps I (notify_pending_requests c u).
Proof. unfold notify_pending_requests. walk_keeps. Qed.
Lemma keeps_deliver_private c u m : keeps I (deliver_private c u m).
Proof. unfold deliver_private. walk_keeps. Qed.
Lemma keeps_deliver_group c u m : keeps I (deliver_group c u m).
Proof. unfold deliver_group. walk_keeps. Qed.
Lemma keeps_may_offer t u : keeps I (may_offer t u).
Proof. unfold may_offer. walk_keeps. Qed.
Lemma keeps_notify_managers g text u : keeps I (notify_group_managers g text u).
Proof. unfold notify_group_managers. walk_keeps. Qed.
End Delivery.
#[export] Hint Resolve keeps_pending_requests keeps_deliver_private keeps_deliver_group keeps_may_offer
  keeps_notify_managers : keeps.

Section Delivery.
Context `{SqlEngine} `{ProtoCodecs} `{FileUtils.DigestEngine} `{ServerEnv}.
Variable I : World -> Prop.
Context `{!Core I}.

Lemma keeps_deliver_messages c u : keeps I (deliver_pending_messages c u).
Proof. unfold deliver_pending_messages. walk_keeps. Qed.
Lemma keeps_deliver_file t u c : keeps I (deliver_file_to_user t u c).
Proof. unfold deliver_file_to_user. walk_keeps. Qed.
End Delivery.
#[export] Hint Resolve keeps_deliver_messages keeps_deliver_file : keeps.

Section Delivery.
Context `{SqlEngine} `{ProtoCodecs} `{FileUtils.DigestEngine} `{ServerEnv}.
Variable I : World -> Prop.
Context `{!Core I}.

Lemma keeps_deliver_files c u : keeps I (deliver_pending_files c u).
Proof. unfold deliver_pending_files. walk_keeps. Qed.
End Delivery.
#[export] Hint Resolve keeps_deliver_files : keeps.

Section Lines.
Context `{SqlEngine} `{ProtoCodecs} `{FileUtils.DigestEngine} `{ServerEnv}.
Variable I : World -> Prop.
Context `{!Core I}.

Lemma keeps_presence_lines line names : keeps I (presence_lines line names).
Proof. induction names; simpl; walk_keeps. Qed.
Lemma keeps_member_lines members : keeps I (member_lines members).
Proof. induction members; simpl; walk_keeps. Qed.
Lemma keeps_flags f : (forall w, w_db (f w) = w_db w /\ w_conns (f w) = w_conns w /\
    w_online (f w) = w_online w /\ w_direct_generation (f w) = w_direct_generation w /\
    w_group_generation (f w) = w_group_generation w) -> keeps I (update f).
Proof. intros Hf w. destruct (Hf w) as (? & ? & ? & ? & ?). by apply core_same. Qed.
Lemma keeps_cancel token : keeps I (Files.cancel_upload token).
Proof. unfold Files.cancel_upload. walk_keeps. Qed.
Lemma keeps_enter_error {A} c scope reason : keeps I (send_enter_error (A := A) c scope reason).
Proof. unfold send_enter_error. walk_keeps. Qed.

Lemma keeps_evaluate sender recipient : keeps I (evaluate_policy sender recipient).
Proof.
  intros w Hw. unfold evaluate_policy, Policy.evaluate. simpl.
  assert (forall A (m : M Db A) `{!IsCall m}, harmless (call_of (m := m)) = true ->
    forall s, I (set_w_db s w) -> I (set_w_db (m s).2 w)) as Hdb.
  { intros A m Hm Hc s Hs. exact (keeps_db I m Hc _ Hs). }
  pose proof (Hdb _ (user_exists recipient) _ eq_refl (w_db w)) as D1.
  destruct (user_exists recipient (w_db w)) as [[|[]] s1]; try (apply D1; by apply (core_same w)).
  pose proof (Hdb _ (are_friends sender recipient) _ eq_refl s1) as D2.
  simpl in D1. assert (I (set_w_db s1 w)) as I1 by (apply D1; by apply (core_same w)).
  destruct (are_friends sender recipient s1) as [[|[]] s2]; try (by apply D2).
  pose proof (Hdb _ (is_friend_blocked recipient sender) _ eq_refl s2 (D2 I1)) as D3.
  destruct (is_friend_blocked recipient sender s2) as [[|[]] s3]; try done.
  pose proof (Hdb _ (is_friend_blocked sender recipient) _ eq_refl s3 D3) as D4.
  by destruct (is_friend_blocked sender recipient s3) as [[|[]] s4].
Qed.
End Lines.
#[export] Hint Resolve keeps_presence_lines keeps_member_lines keeps_cancel keeps_enter_error keeps_evaluate : keeps.
#[export] Hint Extern 1 (keeps _ (update _)) => refine (keeps_flags _ _ _); intros ?; split_and!; reflexivity : keeps.
End ServerLogic.
