(* ===== verification/ServerThreads.v ===== *)
(** * The background threads of the chat server, [ChatRoom/src/chat_server.cpp]

    [presence_refresh_loop], [delivery_persist_loop], the notification of
    [enqueue_delivery_persist] and [~ChatServer], with the events of [Server.v] as
    what the loops and these threads do.  [main] destroys the network server
    before the chat server, so no events come once the destructor has begun. *)
From S2P Require Import Prelude Protocol FileUtils Payloads Tables Database Redis Registry FileService World Server ServerLogic.
Import Payloads Tables Database World Server ServerLogic.

Module ServerThreads.

(** The delivery thread: before the lock and the predicate of its wait; inside
    [wait], the predicate having been false, with the mutex still held; asleep;
    finished. *)
Inductive Persister := PTest | PGoing | PAsleep | PExit.
(** The presence thread, whose wait ends by itself after a while; [RRefresh] before a
    round of refreshing. *)
Inductive Refresher := RTest | RGoing | RAsleep | RRefresh | RExit.
(** The destructor, after the file service has stopped ([FileWorkers.v]): not begun; before
    each of its steps; over. *)
Inductive Owner := Serving | NotifyPresence | NotifyDelivery | JoinPresence | JoinDelivery | Removing | Gone.
#[export] Instance persister_eq_dec : EqDecision Persister.
Proof. solve_decision. Defined.
#[export] Instance owner_eq_dec : EqDecision Owner.
Proof. solve_decision. Defined.

Record Threads := mkThreads { world : World; stopping_ : bool; persister : Persister; refresher : Refresher; owner : Owner }.
Definition begun (w : World) : Threads := mkThreads w false PTest RTest Serving.

(** A notification of [delivery_persist_cv_]. *)
Definition wake (p : Persister) : Persister := match p with PAsleep => PTest | _ => p end.

Section Threads.
Context `{SqlEngine} `{ProtoCodecs} `{FileUtils.DigestEngine} `{ServerEnv}.

(** The end of [~ChatServer]. *)
Definition remove_presences : H unit :=
  names ← on_registry Registry.usernames; for_each remove_redis_presence_best_effort names.

Definition background (e : event) : bool := match e with EvPersist | EvRefresh => true | _ => false end.

(** The steps of the threads.  An event that queues an update needs the mutex, which
    the delivery thread holds until it sleeps; [stopping_] is stored and the
    threads are notified without it. *)
Inductive step : Threads -> Threads -> Prop :=
  | s_event e w p r :
      background e = false ->
      w_persist_queue (Server.step e w) = w_persist_queue w \/ p <> PGoing ->
      step (mkThreads w false p r Serving)
        (mkThreads (Server.step e w) false (if length (w_persist_queue (Server.step e w)) =? length (w_persist_queue w) then p else wake p) r Serving)
  (** [delivery_persist_loop] *)
  | p_exit w r o : w_persist_queue w = [] -> step (mkThreads w true PTest r o) (mkThreads w true PExit r o)
  | p_take w b r o : w_persist_queue w <> [] -> step (mkThreads w b PTest r o) (mkThreads (Server.step EvPersist w) b PTest r o)
  | p_check w r o : w_persist_queue w = [] -> step (mkThreads w false PTest r o) (mkThreads w false PGoing r o)
  | p_sleep w b r o : step (mkThreads w b PGoing r o) (mkThreads w b PAsleep r o)
  (** [presence_refresh_loop] *)
  | r_check w b p o : step (mkThreads w b p RTest o) (mkThreads w b p (if b then RExit else RGoing) o)
  | r_sleep w b p o : step (mkThreads w b p RGoing o) (mkThreads w b p RAsleep o)
  | r_wake w b p o : step (mkThreads w b p RAsleep o) (mkThreads w b p (if b then RExit else RRefresh) o)
  | r_refresh w b p o : step (mkThreads w b p RRefresh o) (mkThreads (Server.step EvRefresh w) b p RTest o)
  (** [~ChatServer] *)
  | d_store w p r : step (mkThreads w false p r Serving) (mkThreads w true p r NotifyPresence)
  | d_notify_presence w p r : step (mkThreads w true p r NotifyPresence) (mkThreads w true p r NotifyDelivery)
  | d_notify_delivery w p r : step (mkThreads w true p r NotifyDelivery) (mkThreads w true (wake p) r JoinPresence)
  | d_join_presence w p : step (mkThreads w true p RExit JoinPresence) (mkThreads w true p RExit JoinDelivery)
  | d_join_delivery w r : step (mkThreads w true PExit r JoinDelivery) (mkThreads w true PExit r Removing)
  | d_remove w p r : step (mkThreads w true p r Removing) (mkThreads (remove_presences w).2 true p r Gone).

(** The wait of the delivery thread may also end for no reason, but need not. *)
Inductive spurious : Threads -> Threads -> Prop :=
  | p_spurious w b r o : spurious (mkThreads w b PAsleep r o) (mkThreads w b PTest r o).
Definition any_step (s s' : Threads) : Prop := step s s' \/ spurious s s'.

(** ** What the threads do to the queue of updates *)

Lemma queue_refresh w : w_persist_queue (Server.step EvRefresh w) = w_persist_queue w.
Proof.
  assert (keeps (fun w' => w_persist_queue w' = w_persist_queue w) refresh_all_presence_best_effort) as Hk; [|by apply Hk].
  unfold refresh_all_presence_best_effort. apply keeps_bind; [by intros w'|intros names]. apply keeps_for_each. intros name.
  apply keeps_bind; [by intros w'|]. intros [e|[]]; try apply keeps_ret. apply keeps_bind; [by intros w'|]. intros. apply keeps_ret.
Qed.

Lemma queue_persist w : w_persist_queue (Server.step EvPersist w) = tail (w_persist_queue w).
Proof.
  cbn [Server.step]. unfold delivery_persist_step, now_unix_ms, on_db, update, look, mbind, H_bind. destruct (w_persist_queue w) as [|task rest] eqn:Hq0; [cbn; by rewrite ?Hq0|].
  cbn. destruct (_ (w_db w)) as [[e|x] d]; [done|]. cbn. by destruct (pt_decrement_unread task).
Qed.

(** ** The invariant *)

Definition presence_joined (o : Owner) : bool := match o with JoinDelivery | Removing | Gone => true | _ => false end.
Definition delivery_joined (o : Owner) : bool := match o with Removing | Gone => true | _ => false end.

Record ok (w0 : World) (s : Threads) : Prop := {
  ok_stopping : stopping_ s = true <-> owner s <> Serving;
  ok_waiting : persister s <> PTest -> w_persist_queue (world s) = [];
  ok_exit : persister s = PExit \/ refresher s = RExit -> stopping_ s = true;
  ok_presence : presence_joined (owner s) = true -> refresher s = RExit;
  ok_delivery : delivery_joined (owner s) = true -> persister s = PExit;
  ok_world : exists events, world s = (if bool_decide (owner s = Gone) then (remove_presences (Server.run events w0)).2 else Server.run events w0) }.

Lemma run_snoc events e w : Server.run (events ++ [e]) w = Server.step e (Server.run events w).
Proof. unfold Server.run. by rewrite foldl_app. Qed.

Lemma begun_ok w0 : ok w0 (begun w0).
Proof. split; cbn; try done; [by intros [|]|by exists []]. Qed.

Lemma queue_removed w : w_persist_queue (remove_presences w).2 = w_persist_queue w.
Proof.
  assert (keeps (fun w' => w_persist_queue w' = w_persist_queue w) remove_presences) as Hk; [|by apply Hk].
  apply keeps_bind; [by intros w'|intros names]. apply keeps_for_each. intros name. apply keeps_bind; [by intros w'|intros; apply keeps_ret].
Qed.

Lemma wake_waits p : wake p <> PTest -> p <> PTest.
Proof. by destruct p. Qed.
Lemma wake_exit p : wake p = PExit -> p = PExit.
Proof. by destruct p. Qed.

(** An event changes the world of a server that is not yet gone. *)
Lemma world_event w0 e w o events :
  o <> Gone -> w = (if bool_decide (o = Gone) then (remove_presences (Server.run events w0)).2 else Server.run events w0) ->
  exists events', Server.step e w = (if bool_decide (o = Gone) then (remove_presences (Server.run events' w0)).2 else Server.run events' w0).
Proof. intros Ho ->. rewrite bool_decide_eq_false_2 by done. exists (events ++ [e]). by rewrite run_snoc. Qed.

Lemma event_ok w0 e w p r :
  (w_persist_queue (Server.step e w) = w_persist_queue w \/ p <> PGoing) ->
  ok w0 (mkThreads w false p r Serving) ->
  ok w0 (mkThreads (Server.step e w) false (if length (w_persist_queue (Server.step e w)) =? length (w_persist_queue w) then p else wake p) r Serving).
Proof.
  intros Hq [F1 F2 F3 F4 F5 [events F6]]. cbn in *. split; cbn; try done.
  - destruct (_ =? _) eqn:Hl; intros Hp.
    + apply Nat.eqb_eq in Hl. rewrite (F2 Hp) in Hl. by apply nil_length_inv.
    + apply Nat.eqb_neq in Hl. destruct p; cbn in Hp; try done; [by destruct Hq as [Hq|]; [rewrite Hq in Hl|]|].
      by assert (false = true) by auto.
  - intros [Hp|Hr]; apply F3; [left|by right]. destruct (_ =? _); [done|by apply wake_exit].
  - by apply (world_event w0 e w Serving events).
Qed.

Lemma any_step_ok w0 s s' : any_step s s' -> ok w0 s -> ok w0 s'.
Proof.
  intros Hs Hok. destruct Hs as [Hs|Hs].
  2:{ destruct Hs, Hok as [F1 F2 F3 F4 F5 [events F6]]. split; cbn in *; try done; [by intros [?|?]; auto|by intros ?%F5|by exists events]. }
  destruct Hs as [e w p r He Hq|w r o Hq|w b r o Hq|w r o Hq|w b r o|w b p o|w b p o|w b p o|w b p o|w p r|w p r|w p r|w p|w r|w p r];
    [by apply event_ok|..]; destruct Hok as [F1 F2 F3 F4 F5 [events F6]]; cbn in *; split; cbn -[Server.step] in *;
    try done; try tauto; try congruence; try (by exists events).
  all: try (by intros [Hx|Hx]; try destruct b; auto).
  all: try (by intros Hj; first [specialize (F4 Hj)|specialize (F5 Hj)]; try destruct b).
  - apply (world_event w0 EvPersist w o events); [|done]. intros ->. by specialize (F5 eq_refl).
  - intros _. by apply F2.
  - intros Hp. etrans; [apply queue_refresh|by apply F2].
  - apply (world_event w0 EvRefresh w o events); [|done]. intros ->. by specialize (F4 eq_refl).
  - intros Hp. by apply F2, wake_waits.
  - intros Hp. rewrite queue_removed. by apply F2.
  - exists events. by rewrite F6.
Qed.
Lemma reached_ok w0 s : rtc any_step (begun w0) s -> ok w0 s.
Proof. intros Hr. pose proof (begun_ok w0) as Hb. revert Hb. induction Hr; [done|]. intros Hb. eauto using any_step_ok. Qed.

(** ** What the destructor leaves *)

(** The delivery thread never sleeps over an update.  When [~ChatServer] has
    returned, both threads have ended, and what happened to the world is a
    sequence of events of the server after which no update was left, and then
    the removal of the presences; so what holds after all events holds of it. *)
Theorem destructor_drains w0 s :
  rtc any_step (begun w0) s ->
  (persister s = PAsleep -> w_persist_queue (world s) = []) /\
  (owner s = Gone -> persister s = PExit /\ refresher s = RExit /\
     exists events, world s = (remove_presences (Server.run events w0)).2 /\ w_persist_queue (Server.run events w0) = []).
Proof.
  intros [F1 F2 F3 F4 F5 [events F6]]%reached_ok. split; [intros Hp; apply F2; by rewrite Hp|]. intros Ho. rewrite Ho in *.
  assert (persister s = PExit) as Hp by by apply F5. split_and!; [done|by apply F4|]. exists events.
  rewrite bool_decide_eq_true_2 in F6 by done. split; [done|]. rewrite <- (queue_removed (Server.run events w0)), <- F6. apply F2. by rewrite Hp.
Qed.

(** ** The end of the threads *)

Definition p_rank (p : Persister) : nat := match p with PGoing => 3 | PAsleep => 2 | PTest => 1 | PExit => 0 end.
Definition r_rank (r : Refresher) : nat := match r with RGoing => 4 | RAsleep => 3 | RRefresh => 2 | RTest => 1 | RExit => 0 end.
Definition o_rank (o : Owner) : nat :=
  match o with Serving => 6 | NotifyPresence => 5 | NotifyDelivery => 4 | JoinPresence => 3 | JoinDelivery => 2 | Removing => 1 | Gone => 0 end.
Definition left (s : Threads) : nat := length (w_persist_queue (world s)) + p_rank (persister s) + r_rank (refresher s) + o_rank (owner s).

Lemma any_step_left s s' : any_step s s' -> stopping_ s = true -> stopping_ s' = true /\ left s' < left s.
Proof.
  intros [Hs|Hs]; [|destruct Hs; intros Hb; split; [done|unfold left; cbn; lia]].
  destruct Hs as [e w p r He Hq|w r o Hq|w b r o Hq|w r o Hq|w b r o|w b p o|w b p o|w b p o|w b p o|w p r|w p r|w p r|w p|w r|w p r];
    cbn [stopping_]; intros Hb; try (by rewrite Hb || done); (split; [done|]); unfold left; cbn -[Server.step]; try rewrite Hb; try (cbn; lia).
  - rewrite queue_persist. destruct (w_persist_queue w); [done|cbn; lia].
  - rewrite queue_refresh. lia.
  - destruct p; cbn; lia.
  - rewrite queue_removed. lia.
Qed.

Lemma steps_left n s s' : nsteps any_step n s s' -> stopping_ s = true -> n + left s' <= left s.
Proof.
  induction 1 as [s|n s1 s2 s3 H12 H23 IH]; intros Hs; [lia|]. destruct (any_step_left _ _ H12 Hs) as [Hs2 Hl]. specialize (IH Hs2). lia.
Qed.

Lemma stuck_state s :
  stopping_ s = true -> owner s <> Serving -> (forall s', ~ step s s') ->
  owner s = Gone \/ owner s = JoinDelivery /\ persister s = PAsleep.
Proof.
  destruct s as [w b p r o]. cbn. intros -> Ho Hn.
  destruct r; try (exfalso; eapply Hn; by constructor).
  assert (o = Gone \/ o = JoinDelivery) as Hd by (destruct o; auto; try done; exfalso; eapply Hn; by constructor).
  destruct Hd as [->| ->]; [by left|]. destruct p; try (exfalso; eapply Hn; by constructor); [|auto].
  exfalso. destruct (w_persist_queue w) eqn:Hq; eapply Hn; [by apply p_exit|by apply p_take; rewrite Hq].
Qed.

(** Once the destructor has stored [stopping_], the threads and the destructor come
    to rest after a bounded number of steps, whatever their order: the
    destructor has returned, or else it waits for a delivery thread that sleeps
    and that nobody will wake. *)
Theorem destructor_ends w0 s :
  rtc any_step (begun w0) s -> stopping_ s = true ->
  (forall n s', nsteps any_step n s s' -> n <= length (w_persist_queue (world s)) + 13) /\
  ((forall s', ~ step s s') -> owner s = Gone \/ owner s = JoinDelivery /\ persister s = PAsleep).
Proof.
  intros Hok%reached_ok Hs. split.
  - intros n s' Hn. pose proof (steps_left n s s' Hn Hs) as Hl. unfold left in Hl.
    destruct (persister s), (refresher s), (owner s); cbn in Hl; lia.
  - intros Hn. apply (ok_stopping _ _ Hok) in Hs as Ho. by apply stuck_state.
Qed.

(** The latter happens: the delivery thread has found nothing to do, [stopping_] is
    stored and the notification sent before it sleeps, and as neither takes the
    mutex it sleeps for ever, unless its wait ends for no reason. *)
Theorem stop_wakeup_lost w0 :
  w_persist_queue w0 = [] ->
  exists s, rtc any_step (begun w0) s /\ stopping_ s = true /\ owner s = JoinDelivery /\ forall s', ~ step s s'.
Proof.
  intros Hq. exists (mkThreads w0 true PAsleep RExit JoinDelivery). split_and!; [|done|done|].
  - eapply rtc_l; [left; by apply p_check|]. eapply rtc_l; [left; apply d_store|]. eapply rtc_l; [left; apply d_notify_presence|].
    eapply rtc_l; [left; apply d_notify_delivery|]. cbn. eapply rtc_l; [left; apply p_sleep|]. eapply rtc_l; [left; apply r_check|].
    apply rtc_once. left. apply d_join_presence.
  - intros s' Hs. inversion Hs.
Qed.
End Threads.
End ServerThreads.
