(* ===== verification/HandlerLogic.v ===== *)
(** * The handlers keep the invariants

    One lemma per handler of [ChatServer], for every invariant of the classes of
    [ServerLogic]: handlers that every invariant stands, those that change
    permissions, those that set the permission caches of a session, those that
    change its upload, and those that change who is logged in. *)
From S2P Require Import Prelude Protocol FileUtils Password Payloads Tables Database Integrity Transactions.
From S2P Require Import Registry Redis FileService Policy World Delivery Accounts Friends Groups Messages.
From S2P Require Import Files ServerLogic.
Import Payloads Tables Database Transactions World Delivery Accounts Friends Groups Messages Files
  ServerLogic.

Module HandlerLogic.

(** ** Handlers that every invariant stands *)

Section Handlers.
Context `{SqlEngine} `{ProtoCodecs} `{FileUtils.DigestEngine} `{ServerEnv}.
Variable I : World -> Prop.
Context `{!Core I}.

Lemma keeps_pending c : keeps I (handle_pending c).
Proof. unfold handle_pending. walk_keeps. Qed.
Lemma keeps_register c a : keeps I (handle_register c a).
Proof. unfold handle_register. walk_keeps. Qed.
Lemma keeps_who c : keeps I (handle_who c).
Proof. unfold handle_who. walk_keeps. Qed.
Lemma keeps_add_friend c a : keeps I (handle_add_friend c a).
Proof. unfold handle_add_friend. walk_keeps. Qed.
Lemma keeps_reject_friend c a : keeps I (handle_reject_friend c a).
Proof. unfold handle_reject_friend. walk_keeps. Qed.
Lemma keeps_friend_requests c : keeps I (handle_friend_requests c).
Proof. unfold handle_friend_requests. walk_keeps. Qed.
Lemma keeps_blocked_friends c : keeps I (handle_blocked_friends c).
Proof. unfold handle_blocked_friends. walk_keeps. Qed.
Lemma keeps_apply_group c a : keeps I (handle_apply_group c a).
Proof. unfold handle_apply_group. walk_keeps. Qed.
Lemma keeps_my_groups c : keeps I (handle_my_groups c).
Proof. unfold handle_my_groups. walk_keeps. Qed.
Lemma keeps_add_admin c a : keeps I (handle_add_group_admin c a).
Proof. unfold handle_add_group_admin. walk_keeps. Qed.
Lemma keeps_remove_admin c a : keeps I (handle_remove_group_admin c a).
Proof. unfold handle_remove_group_admin. walk_keeps. Qed.
Lemma keeps_group_requests c a : keeps I (handle_group_requests c a).
Proof. unfold handle_group_requests. walk_keeps. Qed.
Lemma keeps_group_requests_all c : keeps I (handle_group_requests_all c).
Proof. unfold handle_group_requests_all. walk_keeps. Qed.
Lemma keeps_reject_group c a : keeps I (handle_reject_group c a).
Proof. unfold handle_reject_group. walk_keeps. Qed.
Lemma keeps_public_message c a : keeps I (handle_public_message c a).
Proof. unfold handle_public_message. walk_keeps. Qed.
Lemma keeps_history_public c a : keeps I (handle_history_public c a).
Proof. unfold handle_history_public. walk_keeps. Qed.
Lemma keeps_history_private c a : keeps I (handle_history_private c a).
Proof. unfold handle_history_private. walk_keeps. Qed.
Lemma keeps_history_group c a : keeps I (handle_history_group c a).
Proof. unfold handle_history_group. walk_keeps. Qed.
Lemma keeps_ping c a : keeps I (handle_ping c a).
Proof. unfold handle_ping. walk_keeps. Qed.
Lemma keeps_help c : keeps I (send_help c).
Proof. unfold send_help. walk_keeps. Qed.
Lemma keeps_file_received c a : keeps I (handle_file_received c a).
Proof. unfold handle_file_received. walk_keeps. Qed.
Lemma keeps_file_failed c a : keeps I (handle_file_receive_failed c a).
Proof. unfold handle_file_receive_failed. walk_keeps. Qed.
Lemma keeps_delivery_failed c i e : keeps I (delivery_failed c i e).
Proof. unfold delivery_failed. walk_keeps. Qed.
End Handlers.

Section Reads.
Context `{SqlEngine} `{ProtoCodecs} `{FileUtils.DigestEngine} `{ServerEnv}.
Variable I : World -> Prop.
Context `{!Core I}.

Lemma keeps_persist : keeps I (delivery_persist_step).
Proof. unfold delivery_persist_step. walk_keeps. Qed.
Lemma keeps_friends c : keeps I (handle_friends c).
Proof. unfold handle_friends. walk_keeps. Qed.
Lemma keeps_group_members c a : keeps I (handle_group_members c a).
Proof. unfold handle_group_members. walk_keeps. Qed.
Lemma keeps_revoke_offer g d i : keeps I (revoke_offer g d i).
Proof. unfold revoke_offer. walk_keeps. Qed.
Lemma keeps_resume_request c a : keeps I (handle_file_resume_request c a).
Proof. unfold handle_file_resume_request. walk_keeps. Qed.
Lemma keeps_enter_login c scope : keeps I (enter_login c scope).
Proof. unfold enter_login. walk_keeps. Qed.
Lemma keeps_entering {A} c (m : M Db A) reason : keeps I (on_db m) -> keeps I (entering c m reason).
Proof. intros Hm. unfold entering. walk_keeps. Qed.
Lemma keeps_reject {A} c token reason : keeps I (reject_file_upload (A := A) c token reason).
Proof. unfold reject_file_upload. walk_keeps. Qed.
Lemma keeps_pause {A} c token reason : keeps I (pause_file_upload (A := A) c token reason).
Proof. unfold pause_file_upload. walk_keeps. Qed.
End Reads.
#[export] Hint Resolve keeps_revoke_offer keeps_enter_login keeps_entering keeps_reject keeps_pause : keeps.

Section Uploads.
Context `{SqlEngine} `{ProtoCodecs} `{FileUtils.DigestEngine} `{ServerEnv}.
Variable I : World -> Prop.
Context `{!Core I}.

Lemma keeps_reject_if b c token reason : keeps I (reject_upload_if b c token reason).
Proof. unfold reject_upload_if. walk_keeps. Qed.
Lemma keeps_pause_if b c token reason : keeps I (pause_upload_if b c token reason).
Proof. unfold pause_upload_if. walk_keeps. Qed.
Lemma keeps_rejecting {A} c token (m : M Db A) reason :
  keeps I (on_db m) -> keeps I (rejecting c token m reason).
Proof. intros Hm. unfold rejecting. walk_keeps. Qed.
Lemma keeps_end_recipients c s u : keeps I (end_recipients c s u).
Proof. unfold end_recipients. walk_keeps. Qed.
End Uploads.
#[export] Hint Resolve keeps_reject_if keeps_pause_if keeps_rejecting keeps_end_recipients : keeps.

Section Begin.
Context `{SqlEngine} `{ProtoCodecs} `{FileUtils.DigestEngine} `{ServerEnv}.
Variable I : World -> Prop.
Context `{!Core I}.

Lemma keeps_begin_checks c s t n e h b : keeps I (begin_checks c s t n e h b).
Proof. unfold begin_checks. walk_keeps. Qed.
End Begin.
#[export] Hint Resolve keeps_begin_checks : keeps.

(** ** Handlers that change permissions, caches, uploads and logins *)

Section AnyCall.
Context `{SqlEngine} `{ProtoCodecs} `{FileUtils.DigestEngine} `{ServerEnv}.
Variable I : World -> Prop.
Context `{!Core I} `{!AnyCall I}.

Lemma keeps_any_db {A} (m : M Db A) `{!IsCall m} : keeps I (on_db m).
Proof. rewrite (call_eq (m := m)). apply any_call. Qed.
Lemma keeps_any_checked {A} c (m : M Db A) `{!IsCall m} : keeps I (checked c m).
Proof. unfold checked. apply keeps_bind; [by apply keeps_any_db|]. intros ?. walk_keeps. Qed.
Hint Resolve any_bump_direct any_bump_group : keeps.
Hint Extern 2 (keeps _ (checked _ _)) => refine (keeps_any_checked _ _) : keeps.

Lemma keeps_accept_friend c a : keeps I (handle_accept_friend c a).
Proof. unfold handle_accept_friend. walk_keeps. Qed.
Lemma keeps_remove_friend c a : keeps I (handle_remove_friend c a).
Proof. unfold handle_remove_friend. walk_keeps. Qed.
Lemma keeps_block_friend c a : keeps I (handle_block_friend c a).
Proof. unfold handle_block_friend. walk_keeps. Qed.
Lemma keeps_unblock_friend c a : keeps I (handle_unblock_friend c a).
Proof. unfold handle_unblock_friend. walk_keeps. Qed.
Lemma keeps_create_group c a : keeps I (handle_create_group c a).
Proof. unfold handle_create_group. walk_keeps. Qed.
Lemma keeps_dissolve_group c a : keeps I (handle_dissolve_group c a).
Proof. unfold handle_dissolve_group. walk_keeps. Qed.
Lemma keeps_leave_group c a : keeps I (handle_leave_group c a).
Proof. unfold handle_leave_group. walk_keeps. Qed.
Lemma keeps_approve_group c a : keeps I (handle_approve_group c a).
Proof. unfold handle_approve_group. walk_keeps. Qed.
Lemma keeps_remove_member c a : keeps I (handle_remove_group_member c a).
Proof. unfold handle_remove_group_member. walk_keeps. Qed.
End AnyCall.

Section AnyRealtime.
Context `{SqlEngine} `{ProtoCodecs} `{FileUtils.DigestEngine} `{ServerEnv}.
Variable I : World -> Prop.
Context `{!Core I} `{!AnyRealtime I}.

Hint Resolve any_others : keeps.
Lemma keeps_private_permission c s t : keeps I (private_permission c s t).
Proof. unfold private_permission. walk_keeps. Qed.
Lemma keeps_live_permission c s t g : keeps I (live_permission c s t g).
Proof. unfold live_permission. walk_keeps. Qed.
Lemma keeps_group_recipients c s g : keeps I (group_recipients c s g).
Proof. unfold group_recipients. walk_keeps. Qed.
Hint Resolve keeps_private_permission keeps_live_permission keeps_group_recipients : keeps.
Lemma keeps_private_message c a : keeps I (handle_private_message c a).
Proof. unfold handle_private_message. walk_keeps. Qed.
Lemma keeps_enter_private c a : keeps I (handle_enter_private c a).
Proof. unfold handle_enter_private. walk_keeps. Qed.
Lemma keeps_enter_group c a : keeps I (handle_enter_group c a).
Proof. unfold handle_enter_group. walk_keeps. Qed.
Lemma keeps_group_message c a : keeps I (handle_group_message c a).
Proof. unfold handle_group_message. walk_keeps. Qed.
End AnyRealtime.

Section AnyUpload.
Context `{SqlEngine} `{ProtoCodecs} `{FileUtils.DigestEngine} `{ServerEnv}.
Variable I : World -> Prop.
Context `{!Core I} `{!AnyUpload I}.

Lemma keeps_open_upload c t r tg g : keeps I (open_upload c t r tg g).
Proof. unfold open_upload. walk_keeps. Qed.
Hint Resolve keeps_open_upload : keeps.
Lemma keeps_begin_private c a : keeps I (handle_file_begin_private c a).
Proof. unfold handle_file_begin_private. walk_keeps. Qed.
Lemma keeps_begin_group c a : keeps I (handle_file_begin_group c a).
Proof. unfold handle_file_begin_group. walk_keeps. Qed.
Lemma keeps_file_chunk c a : keeps I (handle_file_chunk c a).
Proof. unfold handle_file_chunk. walk_keeps. Qed.
Lemma keeps_file_end c a : keeps I (handle_file_end c a).
Proof. unfold handle_file_end. walk_keeps. Qed.
Lemma keeps_file_abort c a : keeps I (handle_file_abort c a).
Proof. unfold handle_file_abort. walk_keeps. Qed.
End AnyUpload.

Section AnyLogin.
Context `{SqlEngine} `{ProtoCodecs} `{FileUtils.DigestEngine} `{ServerEnv}.
Variable I : World -> Prop.
Context `{!Core I} `{!AnyCall I} `{!AnyLogin I}.

Hint Resolve any_bump_direct any_bump_group any_registry : keeps.
Hint Extern 2 (keeps _ (checked _ _)) => refine (keeps_any_checked _ _ _) : keeps.
Hint Unfold register_online_user remove_online_user : keeps.

Lemma keeps_login c a : keeps I (handle_login c a).
Proof. unfold handle_login, register_online_user, remove_online_user. walk_keeps. Qed.
Lemma keeps_logout c : keeps I (handle_logout c).
Proof. unfold handle_logout, remove_online_user. walk_keeps. Qed.
Lemma keeps_delete_account c a : keeps I (handle_delete_account c a).
Proof. unfold handle_delete_account, register_online_user, remove_online_user. walk_keeps. Qed.
Lemma keeps_disconnected c : keeps I (on_disconnected c).
Proof. unfold on_disconnected, register_online_user, remove_online_user. walk_keeps. Qed.
End AnyLogin.

End HandlerLogic.
