(* ===== verification/EventLogic.v ===== *)
(** * The server loop keeps the invariants

    From handlers to events: what every route of the command router keeps is kept
    by the framing loop of [ChatServer::on_message], and by whole runs. *)
From S2P Require Import Prelude Protocol FileUtils Password Payloads Tables Database Integrity Transactions.
From S2P Require Import Registry Redis FileService Policy World Delivery Accounts Friends Groups Messages.
From S2P Require Import Files Server ServerLogic HandlerLogic.
Import Payloads Tables Database Transactions World Delivery Accounts Friends Groups Messages Files
  Server ServerLogic HandlerLogic.

Module EventLogic.

(** What the events around the handlers do to connections. *)
Class Events (I : World -> Prop) := {
  ev_connect : forall c w, w_conns w !! c = None -> I w ->
    I (set_w_conns (<[c := mkConn Connected (Some new_session) "" []]> (w_conns w)) w);
  ev_input : forall c bytes w, I w ->
    I (set_w_conns (alter (fun k => set_c_in (c_in k +:+ bytes) k) c (w_conns w)) w);
  ev_close : forall c w, I w ->
    I (set_w_conns (alter (set_c_state Disconnected) c (w_conns w)) w);
}.

Section Router.
Context `{SqlEngine} `{ProtoCodecs} `{FileUtils.DigestEngine} `{ServerEnv}.
Variable I : World -> Prop.
Context `{!Core I}.

Definition route_kept (item : string * Handler) : Prop := forall c a, keeps I (item.2 c a).

(** What holds of every route holds of every handler the router finds. *)
Lemma router_forall (P : Handler -> Prop) name h :
  Forall (fun item => P item.2) routes -> command_router !! name = Some h -> P h.
Proof.
  unfold command_router. intros Hall.
  assert (forall l r, Forall (fun item : string * Handler => P item.2) l -> map_Forall (fun _ h => P h) r ->
    map_Forall (fun _ h => P h) (foldl (fun r item => Server.add item.1 item.2 r) r l)) as Hf.
  { induction l as [|[n h'] l IH]; intros r Hl Hr; [done|]. apply Forall_cons in Hl as [Hh Hl].
    simpl. apply IH; [done|]. by apply map_Forall_insert_2. }
  intros Hn. apply (Hf routes ∅ Hall) in Hn; [done|]. apply map_Forall_empty.
Qed.

Lemma keeps_handle_command c command :
  Forall route_kept routes -> keeps I (handle_command c command).
Proof.
  intros Hall. unfold handle_command, dispatch.
  destruct (command_router !! _) as [h|] eqn:E; walk_keeps. by apply (router_forall (fun h => forall c a, keeps I (h c a)) _ _ Hall E).
Qed.

(** ** Framing *)

Variable text_kept : forall c command, keeps I (handle_command c command).
Variable piece_kept : forall c u f input, keeps I (binary_piece c u f input).

Lemma keeps_retrieve c n : keeps I (with_conn c (retrieve n)).
Proof. apply core_conn, retrieve_neutral. Qed.
Hint Resolve keeps_retrieve text_kept piece_kept : keeps.

Lemma keeps_text_line c k n : keeps I (text_line c k n).
Proof. unfold text_line. walk_keeps. Qed.
Lemma keeps_binary_invalid c : keeps I (binary_invalid c).
Proof. unfold binary_invalid. walk_keeps. Qed.
Hint Resolve keeps_text_line keeps_binary_invalid : keeps.
Lemma keeps_message_round c n : keeps I (message_round c n).
Proof. unfold message_round. walk_keeps. Qed.
End Router.

Section Run.
Context `{SqlEngine} `{ProtoCodecs} `{FileUtils.DigestEngine} `{ServerEnv}.
Variable I : World -> Prop.
Context `{!Core I}.
Variable round_kept : forall c n, keeps I (message_round c n).
Hint Resolve round_kept : keeps.

Lemma keeps_message_loop fuel c n : keeps I (message_loop fuel c n).
Proof. revert n. induction fuel as [|fuel IH]; intros n; simpl; walk_keeps. Qed.
Hint Resolve keeps_message_loop : keeps.
Lemma keeps_on_message c : keeps I (on_message c).
Proof. unfold on_message. walk_keeps. Qed.

(** ** Runs *)

Context `{!Events I}.
Variable disconnected_kept : forall c w,
  conn_status_of w c <> Registry.Open -> I w -> I (on_disconnected c w).2.

Lemma keeps_quit c : keeps I (handle_quit c).
Proof. unfold handle_quit. walk_keeps. Qed.

Lemma alter_present c (f : Conn -> Conn) k w :
  w_conns w !! c = Some k -> alter f c (w_conns w) = <[c := f k]> (w_conns w).
Proof.
  intros Hc. apply map_eq. intros d. destruct (decide (c = d)) as [<-|].
  - by rewrite lookup_alter_eq, lookup_insert_eq, Hc.
  - by rewrite lookup_alter_ne, lookup_insert_ne.
Qed.

Lemma keeps_flush c : keeps I (flush_one c).
Proof.
  intros w Hw. unfold flush_one. destruct (w_conns w !! c) as [k|] eqn:E; [|done].
  destruct (c_out k) as [|o rest] eqn:Eo; [done|]. cbv zeta. simpl.
  assert (I (set_w_conns (<[c := set_c_out rest k]> (w_conns w)) w)) as Hf.
  { rewrite <- (alter_present c (set_c_out rest) k) by done.
    apply (core_conn c (set_c_out rest)); [|done]. intros k'. simpl. auto. }
  destruct (o_done o); [|done]. by apply (core_same (set_w_conns (<[c := set_c_out rest k]> (w_conns w)) w)).
Qed.

Lemma step_kept e w : I w -> I (step e w).
Proof.
  intros Hw. destruct e as [c|c bytes|c|c| | |c i error|key|now]; simpl.
  - destruct (w_conns w !! c) eqn:E; [done|].
    apply (ev_connect c) in Hw; [|done]. apply (keeps_send I c
      ("[system] 已连接到聊天室服务（TLS、客户端心跳、好友屏蔽、文件断点续传已启用）。" +:+ nl +:+
       "[system] 可输入数字命令 38 查看帮助。" +:+ nl)) in Hw. simpl in Hw.
    by rewrite alter_insert_eq.
  - destruct (w_conns w !! c) as [k|] eqn:E; [|done].
    rewrite <- (alter_present c (fun k => set_c_in (c_in k +:+ bytes) k) k) by done.
    destruct (c_state k); [| |done]; by apply keeps_on_message, ev_input.
  - destruct (w_conns w !! c) as [k|] eqn:E; [|done].
    rewrite <- (alter_present c (set_c_state Disconnected) k) by done.
    assert (conn_status_of (set_w_conns (alter (set_c_state Disconnected) c (w_conns w)) w) c <> Registry.Open).
    { unfold conn_status_of. simpl. by rewrite lookup_alter_eq, E. }
    destruct (c_state k); [| |done]; by apply disconnected_kept, ev_close.
  - by apply keeps_flush.
  - by apply (keeps_persist I).
  - by apply (keeps_refresh I).
  - by apply (keeps_delivery_failed I).
  - by apply (core_same w).
  - by apply (core_same w).
Qed.

Lemma run_kept events w : I w -> I (run events w).
Proof. revert w. induction events as [|e events IH]; intros w Hw; [done|]. by apply IH, step_kept. Qed.
End Run.

(** The lemma of each handler. *)
Ltac handler_step :=
  lazymatch goal with
  | |- keeps _ (send_help _) => apply keeps_help
  | |- keeps _ (handle_register _ _) => apply keeps_register
  | |- keeps _ (handle_login _ _) => apply keeps_login
  | |- keeps _ (handle_logout _) => apply keeps_logout
  | |- keeps _ (handle_delete_account _ _) => apply keeps_delete_account
  | |- keeps _ (handle_public_message _ _) => apply keeps_public_message
  | |- keeps _ (handle_private_message _ _) => apply keeps_private_message
  | |- keeps _ (handle_enter_private _ _) => apply keeps_enter_private
  | |- keeps _ (handle_enter_group _ _) => apply keeps_enter_group
  | |- keeps _ (handle_who _) => apply keeps_who
  | |- keeps _ (handle_add_friend _ _) => apply keeps_add_friend
  | |- keeps _ (handle_accept_friend _ _) => apply keeps_accept_friend
  | |- keeps _ (handle_reject_friend _ _) => apply keeps_reject_friend
  | |- keeps _ (handle_remove_friend _ _) => apply keeps_remove_friend
  | |- keeps _ (handle_block_friend _ _) => apply keeps_block_friend
  | |- keeps _ (handle_unblock_friend _ _) => apply keeps_unblock_friend
  | |- keeps _ (handle_blocked_friends _) => apply keeps_blocked_friends
  | |- keeps _ (handle_friends _) => apply keeps_friends
  | |- keeps _ (handle_friend_requests _) => apply keeps_friend_requests
  | |- keeps _ (handle_history_public _ _) => apply keeps_history_public
  | |- keeps _ (handle_history_private _ _) => apply keeps_history_private
  | |- keeps _ (handle_create_group _ _) => apply keeps_create_group
  | |- keeps _ (handle_dissolve_group _ _) => apply keeps_dissolve_group
  | |- keeps _ (handle_apply_group _ _) => apply keeps_apply_group
  | |- keeps _ (handle_my_groups _) => apply keeps_my_groups
  | |- keeps _ (handle_leave_group _ _) => apply keeps_leave_group
  | |- keeps _ (handle_group_members _ _) => apply keeps_group_members
  | |- keeps _ (handle_add_group_admin _ _) => apply keeps_add_admin
  | |- keeps _ (handle_remove_group_admin _ _) => apply keeps_remove_admin
  | |- keeps _ (handle_group_requests _ _) => apply keeps_group_requests
  | |- keeps _ (handle_group_requests_all _) => apply keeps_group_requests_all
  | |- keeps _ (handle_approve_group _ _) => apply keeps_approve_group
  | |- keeps _ (handle_reject_group _ _) => apply keeps_reject_group
  | |- keeps _ (handle_remove_group_member _ _) => apply keeps_remove_member
  | |- keeps _ (handle_group_message _ _) => apply keeps_group_message
  | |- keeps _ (handle_history_group _ _) => apply keeps_history_group
  | |- keeps _ (handle_file_begin_private _ _) => apply keeps_begin_private
  | |- keeps _ (handle_file_begin_group _ _) => apply keeps_begin_group
  | |- keeps _ (handle_file_chunk _ _) => apply keeps_file_chunk
  | |- keeps _ (handle_file_end _ _) => apply keeps_file_end
  | |- keeps _ (handle_file_abort _ _) => apply keeps_file_abort
  | |- keeps _ (handle_file_resume_request _ _) => apply keeps_resume_request
  | |- keeps _ (handle_file_received _ _) => apply keeps_file_received
  | |- keeps _ (handle_file_receive_failed _ _) => apply keeps_file_failed
  | |- keeps _ (handle_pending _) => apply keeps_pending
  | |- keeps _ (handle_ping _ _) => apply keeps_ping
  | |- keeps _ (handle_quit _) => apply keeps_quit
  end.

(** Every route of an invariant, but those left open. *)
Ltac walk_routes :=
  unfold routes; repeat (apply Forall_cons; split); [..|apply Forall_nil; exact Logic.I];
  intros ? ?; cbn [fst snd]; try (handler_step; typeclasses eauto); auto.

Section All.
Context `{SqlEngine} `{ProtoCodecs} `{FileUtils.DigestEngine} `{ServerEnv}.
Variable I : World -> Prop.
Context `{!Core I}.

Context `{!AnyUpload I}.
Lemma keeps_binary_piece c u f input : keeps I (binary_piece c u f input).
Proof.
  unfold binary_piece. cbv zeta.
  apply keeps_bind; [by apply core_conn, retrieve_neutral|]. intros _. walk_keeps.
Qed.

Context `{!AnyCall I} `{!AnyRealtime I}.

(** Invariants that hold whoever logs in. *)
Lemma any_run `{!AnyLogin I} `{!Events I} events w : I w -> I (run events w).
Proof.
  apply run_kept; [apply _| |apply _|intros c w' _; by apply keeps_disconnected].
  apply keeps_message_round; [apply _| |apply keeps_binary_piece]. intros c command. apply keeps_handle_command; [done|]. walk_routes.
Qed.

(** Invariants about logins. *)
Lemma login_run `{!Events I} events w :
  (forall c a, keeps I (handle_login c a)) -> (forall c, keeps I (handle_logout c)) ->
  (forall c a, keeps I (handle_delete_account c a)) -> (forall c w, conn_status_of w c <> Registry.Open -> I w -> I (on_disconnected c w).2) ->
  I w -> I (run events w).
Proof.
  intros Hin Hout Hdel Hdis.
  apply run_kept; [apply _| |apply _|done].
  apply keeps_message_round; [apply _| |apply keeps_binary_piece]. intros c command. apply keeps_handle_command; [done|]. walk_routes.
Qed.
End All.
End EventLogic.
