(* ===== verification/ServerProps.v ===== *)
(** * Invariants of the whole server

    What holds after any run of events: the stored data is consistent, and a user
    is logged in on at most one open connection. *)
From S2P Require Import Prelude Protocol FileUtils Password Payloads Tables ExampleCodec Database Integrity.
From S2P Require Import Transactions Registry Redis FileService Policy World Delivery Accounts Friends Groups.
From S2P Require Import Messages Files Server ServerLogic HandlerLogic EventLogic.
Import Payloads Tables Database Integrity Transactions World Delivery Accounts Friends Groups Messages
  Files Server ServerLogic HandlerLogic EventLogic.

Module ServerProps.

(** The server as [ChatServer] leaves it when it starts to accept connections. *)
Definition started (db : Db) (redis : Redis.Redis) (fs : FileService.Fs) (clock : Z)
    (entropy : list (option string)) : World :=
  mkWorld db redis fs ∅ ∅ 1 1 [] ∅ 0 [] clock entropy.

(** ** The database *)

(** A property of the store that the calls of [Database] keep. *)
Definition stored (P : Db -> Prop) (w : World) : Prop := P (w_db w).
Class Calls_keep `{SqlEngine} `{ProtoCodecs} (P : Db -> Prop) : Prop :=
  calls_keep : forall A (m : DbCall A) db, P db -> P (run_call m db).2.
#[export] Hint Mode Calls_keep ! ! ! : typeclass_instances.

Section Db.
Context `{SqlEngine} `{ProtoCodecs} `{FileUtils.DigestEngine} `{ServerEnv}.

#[export] Instance db_inv_calls : Calls_keep db_inv.
Proof. intros A m db. apply run_call_inv. Qed.
#[export] Instance settled_calls : Calls_keep settled.
Proof. intros A m db. apply run_call_settled. Qed.

Section Stored.
Context (P : Db -> Prop) `{!Calls_keep P}.

Lemma stored_call {A} (m : DbCall A) : keeps (stored P) (on_db (run_call m)).
Proof. intros w Hw. by apply calls_keep. Qed.

#[local] Instance stored_core : Core (stored P).
Proof.
  split; [|by intros c f Hf w|by intros c f Hf w|by intros w users|].
  - intros w w' E _ _ _ _. unfold stored. by rewrite E.
  - intros A m _. apply stored_call.
Qed.
#[local] Instance stored_any_call : AnyCall (stored P).
Proof. split; [intros A m; apply stored_call|by intros w|by intros w]. Qed.
Lemma stored_any_realtime : (forall w, stored P w -> stored P (others w)) -> AnyRealtime (stored P).
Proof. intros Ho. split; [by intros c f Hf w|done]. Qed.
#[local] Instance stored_any_upload : AnyUpload (stored P).
Proof. split. by intros c f Hf w. Qed.
#[local] Instance stored_any_login : AnyLogin (stored P).
Proof. split; [by intros c f Hf w|by intros A f w]. Qed.
#[local] Instance stored_events : Events (stored P).
Proof. split; by intros. Qed.

Lemma run_stored (db : Db) redis fs clock entropy events :
  (forall w, stored P w -> stored P (others w)) -> P db ->
  P (w_db (run events (started db redis fs clock entropy))).
Proof.
  intros Ho Hdb. pose proof (stored_any_realtime Ho) as Hc.
  change (stored P (run events (started db redis fs clock entropy))). apply any_run; try apply _. exact Hdb.
Qed.
End Stored.

(** C1: whatever clients send and however the engine, Redis and the file system
    fail, the server keeps every key, foreign key and CHECK constraint of the
    stored data.  [answers] are the outcomes of the engine's calls, [ignored] those
    of the calls whose failure the code ignores ([mysql_rollback] and
    [mysql_autocommit] on the way out of a failed method); when none of the
    ignored ones fails, no transaction is open between events. *)
Theorem server_integrity (clock : Z) answers ignored redis fs entropy events :
  (forall w, db_inv (w_db w) -> db_inv (w_db (others w))) ->
  let w := run events (started (new_db answers ignored clock) redis fs clock entropy) in
  integrity (tables (w_db w)) /\
  (Forall (.= None) ignored -> (forall w, settled (w_db w) -> settled (w_db (others w))) -> saved (w_db w) = None).
Proof.
  intros Ho w. split.
  - refine (proj1 (run_stored db_inv _ redis fs clock entropy events Ho _)). split; [apply empty_integrity|by intros old].
  - intros Hi Hs. exact (proj1 (run_stored settled (new_db answers ignored clock) redis fs clock entropy events Hs (conj eq_refl Hi))).
Qed.
End Db.

(** ** Logins *)

(** Who is logged in on an open connection is the registered one; [except] is a
    connection in the middle of logging in or out. *)
Definition logins_but (except : option ConnId) (w : World) : Prop := forall c k s,
  Some c <> except -> w_conns w !! c = Some k -> c_state k = Connected -> c_session k = Some s ->
  logged_in s = true -> w_online w !! username s = Some c.
Abbreviation logins_ok := (logins_but None).

(** The excepted connection is open and logged out. *)
Definition logged_out (c : ConnId) (w : World) : Prop := forall k s,
  w_conns w !! c = Some k -> c_state k = Connected -> c_session k = Some s -> logged_in s = false.

Lemma logins_close c w : logins_but (Some c) w -> logged_out c w -> logins_ok w.
Proof.
  intros Hw Hc d k s _ Hk Hs Hss Hl. destruct (decide (d = c)) as [->|Hne].
  - rewrite (Hc k s Hk Hs Hss) in Hl. done.
  - apply (Hw d k s); [congruence|done..].
Qed.
Lemma logins_open e w : logins_ok w -> logins_but e w.
Proof. intros Hw c k s _. by apply Hw. Qed.

Section Changes.
Variable e : option ConnId.

Lemma logins_conn c f w :
  (forall k, c_session (f k) = c_session k /\ (c_state (f k) = c_state k \/ c_state (f k) <> Connected)) ->
  logins_but e w -> logins_but e (set_w_conns (alter f c (w_conns w)) w).
Proof.
  intros Hf Hw d k s He Hk Hs Hss. simpl in *.
  apply lookup_alter_Some in Hk as [(<- & k0 & Hk0 & ->)|[Hne Hk]]; [|by apply (Hw d k)].
  destruct (Hf k0) as [E [E'|E']]; [|done]. rewrite E in Hss. rewrite E' in Hs. by apply (Hw c k0).
Qed.

Lemma logins_session c f w :
  (forall s, login_part (f s) = login_part s) \/ e = Some c ->
  logins_but e w -> logins_but e (set_session c f w).2.
Proof.
  intros Hf Hw d k s He Hk Hs Hss Hl. simpl in *.
  apply lookup_alter_Some in Hk as [(<- & k0 & Hk0 & ->)|[Hne Hk]]; [|by apply (Hw d k)].
  destruct Hf as [Hf| ->]; [|done]. simpl in *.
  destruct (c_session k0) as [s0|] eqn:E; [|done].
  injection Hss as <-. specialize (Hf s0). injection Hf as E1 E2.
  rewrite E1 in Hl. rewrite E2. by apply (Hw c k0).
Qed.

Lemma logins_remove u c w :
  e = Some c \/ conn_status_of w c <> Registry.Open -> logins_but e w -> logins_but e (remove_online_user u c w).2.
Proof.
  intros Hc Hw d k s He Hk Hs Hss Hl. specialize (Hw d k s He Hk Hs Hss Hl). simpl in *.
  assert (conn_status_of w d = Registry.Open) as Hd by (unfold conn_status_of; by rewrite Hk, Hs).
  unfold Registry.remove. destruct (decide (username s = u)) as [<-|Hne].
  - rewrite Hw, Hd. destruct (Nat.eqb_spec d c) as [->|]; [|done]. destruct Hc as [->|]; done.
  - destruct (w_online w !! u); [|done]. repeat case_match; try done; by rewrite lookup_delete_ne.
Qed.
End Changes.

Section Logins.
Context `{SqlEngine} `{ProtoCodecs} `{FileUtils.DigestEngine} `{ServerEnv}.

#[local] Instance logins_core e : Core (logins_but e).
Proof.
  split; [| | | |by intros A m Hm w].
  - intros w w' _ E1 E2 _ _. unfold logins_but. by rewrite E1, E2.
  - intros c f Hf w. apply logins_conn. intros k. destruct (Hf k) as (? & ? & _). done.
  - intros c f Hf w. apply logins_session. left. apply Hf.
  - intros w users [_ Hp] Hw c k s He Hk Hs Hss Hl. apply Hp; [by apply (Hw c k)|].
    simpl in Hk. unfold Registry.alive, conn_status_of. by rewrite Hk, Hs.
Qed.
#[local] Instance logins_any_call e : AnyCall (logins_but e).
Proof. split; [by intros A m w|by intros w|by intros w]. Qed.
Lemma logins_any_realtime : (forall w, logins_ok w -> logins_ok (others w)) -> AnyRealtime logins_ok.
Proof. intros Ho. split; [|done]. intros c f Hf w. apply logins_session. left. apply Hf. Qed.
#[local] Instance logins_any_upload e : AnyUpload (logins_but e).
Proof. split. intros c f Hf w. apply logins_session. left. apply Hf. Qed.
#[local] Instance logins_events : Events logins_ok.
Proof.
  split.
  - intros c w Hc Hw d k s He. simpl. intros [[<- <-]|[Hne Hk]]%lookup_insert_Some.
    + by intros _ [= <-].
    + by apply Hw.
  - intros c bytes w. apply logins_conn. intros k. simpl. auto.
  - intros c w. apply logins_conn. intros k. simpl. auto.
Qed.

#[local] Instance logged_out_core c : Core (logged_out c).
Proof.
  split; [| | |done|by intros A m Hm w].
  - intros w w' _ E1 _ _ _. unfold logged_out. by rewrite E1.
  - intros d f Hf w Ho k s Hk Hs Hss. simpl in Hk.
    apply lookup_alter_Some in Hk as [(-> & k0 & Hk0 & ->)|[Hne Hk]]; [|by apply (Ho k)].
    destruct (Hf k0) as (E & [E'|E'] & _); [|done]. rewrite E in Hss. rewrite E' in Hs. by apply (Ho k0).
  - intros d f Hf w Ho k s Hk Hs Hss. simpl in Hk.
    apply lookup_alter_Some in Hk as [(-> & k0 & Hk0 & ->)|[Hne Hk]]; [|by apply (Ho k)].
    simpl in *. destruct (c_session k0) as [s0|] eqn:E; [|done]. injection Hss as <-.
    destruct (Hf s0) as ([= E1 _] & _ & _). rewrite E1. by apply (Ho k0).
Qed.

Definition claimed (name : string) (c : ConnId) (w : World) : Prop :=
  conn_status_of w c = Registry.Open -> w_online w !! name = Some c.

#[local] Instance claimed_core name c : Core (claimed name c).
Proof.
  split; [| | | |by intros A m Hm w].
  - intros w w' _ E1 E2 _ _. unfold claimed, conn_status_of. by rewrite E1, E2.
  - intros d f Hf w Hc Hs. apply Hc. unfold conn_status_of in *. simpl in Hs.
    destruct (decide (d = c)) as [->|Hne]; [|by rewrite lookup_alter_ne in Hs].
    rewrite lookup_alter_eq in Hs. destruct (w_conns w !! c) as [k|]; [|done]. simpl in Hs.
    destruct (Hf k) as (_ & [E'|E'] & _); [by rewrite E' in Hs|]. by destruct (c_state (f k)).
  - intros d f Hf w Hc Hs. apply Hc. unfold conn_status_of in *. simpl in Hs.
    destruct (decide (d = c)) as [->|Hne]; [|by rewrite lookup_alter_ne in Hs].
    rewrite lookup_alter_eq in Hs. by destruct (w_conns w !! c).
  - intros w users Hp Hc Hs.
    change (conn_status_of (set_w_online users w) c) with (conn_status_of w c) in Hs.
    apply (proj2 Hp); [by apply Hc|]. unfold Registry.alive. by rewrite Hs.
Qed.

(** Before [register_online_user], and between it and the change of the session. *)
Definition entering_ok (c : ConnId) (w : World) : Prop := logins_ok w /\ logged_out c w.
Definition registering (name : string) (c : ConnId) (w : World) : Prop :=
  entering_ok c w /\ claimed name c w.
#[local] Instance entering_ok_core c : Core (entering_ok c).
Proof. apply core_and; apply _. Qed.
#[local] Instance registering_core name c : Core (registering name c).
Proof. apply core_and; apply _. Qed.

Lemma register_triple name c :
  triple (entering_ok c) (register_online_user name c)
    (fun b w => if b : bool then registering name c w else logins_ok w) logins_ok.
Proof.
  intros w [Hw Ho]. unfold register_online_user, on_registry. simpl.
  destruct (Registry.add _ name c (w_online w)) as [[] users] eqn:E; simpl.
  - apply Registry.add_true in E as [-> Hd]. split; [split|].
    + intros d k s He Hk Hs Hss Hl. simpl in *. specialize (Hw d k s He Hk Hs Hss Hl).
      destruct (decide (username s = name)) as [<-|]; [|by rewrite lookup_insert_ne].
      specialize (Hd d Hw). unfold Registry.alive, conn_status_of in Hd. by rewrite Hk, Hs in Hd.
    + exact Ho.
    + intros _. apply lookup_insert_eq.
  - by apply Registry.add_false in E as [-> _].
Qed.

Lemma set_login_triple name c :
  triple (registering name c) (set_session c (fun s => set_username name (set_logged_in true s)))
    (fun _ => logins_ok) logins_ok.
Proof.
  intros w [[Hw Ho] Hc] d k s He Hk Hs Hss Hl. simpl in *.
  apply lookup_alter_Some in Hk as [(<- & k0 & Hk0 & ->)|[Hne Hk]]; [|by apply (Hw d k)].
  simpl in *. destruct (c_session k0) as [s0|] eqn:E; [|done]. injection Hss as <-. simpl.
  apply Hc. unfold conn_status_of. by rewrite Hk0, Hs.
Qed.

Lemma session_logged_out w c s : session_of w c = Some s -> logged_in s = false -> logged_out c w.
Proof.
  intros Es El k s' Hk _ Hs. unfold session_of in Es. rewrite Hk in Es. simpl in Es. congruence.
Qed.

Lemma remove_triple name c :
  triple (entering_ok c) (remove_online_user name c) (fun _ => logins_ok) logins_ok.
Proof.
  intros w [Hw Ho]. simpl. apply (logins_close c); [|exact Ho].
  apply (logins_remove (Some c) name c); [by left|by apply logins_open].
Qed.

Lemma login_kept c a : keeps logins_ok (handle_login c a).
Proof.
  apply triple_keeps. unfold handle_login.
  eapply triple_bind; [apply session_triple|]. intros s. simpl.
  eapply triple_bind; [apply (reply_if_triple _ logins_ok); by intros w [Hw _]|]. intros ?. simpl.
  apply (triple_weaken _ (entering_ok c) _ _ _ logins_ok); [|done|].
  { intros w [[Hw Es] El]. split; [done|]. by apply (session_logged_out w c s). }
  assert (forall w, entering_ok c w -> logins_ok w) as He by by intros w [Hw _].
  destruct (Protocol.split_words a) as [|name [|password [|]]]; try by apply (reply_triple _ _).
  apply triple_step; [by walk_keeps|done|]. intros hash.
  apply triple_step; [by walk_keeps|done|]. intros ?.
  eapply triple_bind; [apply register_triple|]. intros []; cbn [negb reply_if].
  - assert (forall w, registering name c w -> logins_ok w) as Hr by by intros w [[Hw _] _].
    apply triple_step; [apply keeps_ret|done|]. intros ?.
    apply triple_step; [by walk_keeps|done|]. intros []; cbn [negb].
    + apply triple_step; [apply keeps_ret|done|]. intros ?.
      eapply triple_bind; [apply set_login_triple|]. intros ?. apply triple_keeps. walk_keeps.
    + apply (triple_bind _ _ _ _ (fun _ _ => False)); [|by intros ? w []].
      apply (triple_bind _ _ _ _ (fun _ => logins_ok)); [|by intros ? w Hw].
      apply (triple_weaken _ (entering_ok c) _ (fun _ => logins_ok) _ logins_ok);
        [by intros w [Hw _]|done|apply remove_triple].
  - apply (triple_bind _ _ _ _ (fun _ _ => False)); [by apply (reply_triple _ _)|by intros ? w []].
Qed.

(** Logging out: the connection is excepted from its removal from the registry to
    the change of its session. *)
Lemma remove_open c name P :
  (forall w, P w -> logins_ok w) ->
  triple P (remove_online_user name c) (fun _ => logins_but (Some c)) logins_ok.
Proof. intros HP w Hw. apply logins_remove; [by left|]. by apply logins_open, HP. Qed.

Lemma set_logout_triple c f :
  (forall s, logged_in (f s) = false) ->
  triple (logins_but (Some c)) (set_session c f) (fun _ => logins_ok) logins_ok.
Proof.
  intros Hf w Hw. apply (logins_close c).
  - apply logins_session; [by right|done].
  - intros k s Hk _ Hs. simpl in Hk. apply lookup_alter_Some in Hk as [(_ & k0 & _ & ->)|[Hne _]]; [|done].
    simpl in Hs. destruct (c_session k0) as [s0|]; [|done]. injection Hs as <-. apply Hf.
Qed.

Lemma logout_kept c : keeps logins_ok (handle_logout c).
Proof.
  apply triple_keeps. unfold handle_logout.
  apply triple_step; [by walk_keeps|done|]. intros s. cbv zeta.
  apply triple_step; [by walk_keeps|done|]. intros ?.
  eapply triple_bind; [by apply remove_open|]. intros ?.
  eapply triple_bind with (Q' := fun _ => logins_but (Some c)).
  { intros w Hw. unfold remove_redis_presence_best_effort. exact Hw. }
  intros ?. eapply triple_bind; [by apply set_logout_triple|].
  intros ?. apply triple_keeps. walk_keeps.
Qed.

Lemma delete_account_kept c a : keeps logins_ok (handle_delete_account c a).
Proof.
  apply triple_keeps. unfold handle_delete_account.
  apply triple_step; [by walk_keeps|done|]. intros s. cbv zeta.
  destruct (Protocol.split_words a) as [|password [|confirm [|]]]; try by apply (reply_triple _ _).
  do 6 (apply triple_step; [first [by walk_keeps|refine (keeps_any_checked _ _ _)]|done|]; intros ?).
  do 2 (apply triple_step; [by intros w|done|]; intros ?).
  eapply triple_bind; [by apply remove_open|]. intros ?.
  eapply triple_bind with (Q' := fun _ => logins_but (Some c)).
  { intros w Hw. unfold remove_redis_presence_best_effort. exact Hw. }
  intros ?. eapply triple_bind with (Q' := fun _ => logins_but (Some c)); [by intros w Hw|].
  intros ?. eapply triple_bind; [by apply set_logout_triple|].
  intros ?. apply triple_keeps. walk_keeps.
Qed.

Definition offline (c : ConnId) (w : World) : Prop := conn_status_of w c <> Registry.Open.

#[local] Instance offline_core c : Core (offline c).
Proof.
  split; [| | |done|by intros A m Hm w].
  - intros w w' _ E1 _ _ _. unfold offline, conn_status_of. by rewrite E1.
  - intros d f Hf w Ho Hs. apply Ho. unfold conn_status_of in *. simpl in Hs.
    destruct (decide (d = c)) as [->|Hne]; [|by rewrite lookup_alter_ne in Hs].
    rewrite lookup_alter_eq in Hs. destruct (w_conns w !! c) as [k|]; [|done]. simpl in Hs.
    destruct (Hf k) as (_ & [E'|E'] & _); [by rewrite E' in Hs|]. by destruct (c_state (f k)).
  - intros d f Hf w Ho Hs. apply Ho. unfold conn_status_of in *. simpl in Hs.
    destruct (decide (d = c)) as [->|Hne]; [|by rewrite lookup_alter_ne in Hs].
    rewrite lookup_alter_eq in Hs. by destruct (w_conns w !! c).
Qed.

Lemma disconnected_kept c w : offline c w -> logins_ok w -> logins_ok (on_disconnected c w).2.
Proof.
  intros Hc Hw. cut (triple (fun w => logins_ok w /\ offline c w) (on_disconnected c) (fun _ => logins_ok) logins_ok).
  { intros Ht. specialize (Ht w (conj Hw Hc)). by destruct (on_disconnected c w) as [[|] w']. }
  pose proof (core_and logins_ok (offline c) _ _) as Hcore.
  assert (forall w, logins_ok w /\ offline c w -> logins_ok w) as Hl by by intros w' [].
  unfold on_disconnected. apply triple_step; [apply keeps_session|done|]. intros s.
  apply triple_step; [by walk_keeps|done|]. intros ?.
  destruct (logged_in s); [|intros w' Hw'; by apply Hl].
  apply (triple_bind _ _ _ _ (fun _ => logins_ok)).
  - intros w' [Hw' Ho]. by apply (logins_remove None (username s) c); [right|].
  - intros ?. apply triple_keeps. walk_keeps.
Qed.

(** C3: one login per user.  After any run of events, two open connections logged
    in with the same name are the same connection, and the registry of online
    users names it. *)
Theorem login_unique db redis fs clock entropy events c1 c2 k1 k2 s1 s2 :
  (forall w, logins_ok w -> logins_ok (others w)) ->
  let w := run events (started db redis fs clock entropy) in
  w_conns w !! c1 = Some k1 -> c_state k1 = Connected -> c_session k1 = Some s1 -> logged_in s1 = true ->
  w_conns w !! c2 = Some k2 -> c_state k2 = Connected -> c_session k2 = Some s2 -> logged_in s2 = true ->
  username s1 = username s2 ->
  c1 = c2 /\ w_online w !! username s1 = Some c1.
Proof.
  intros Ho w Hk1 Hs1 Hss1 Hl1 Hk2 Hs2 Hss2 Hl2 Hu. pose proof (logins_any_realtime Ho) as Hr.
  assert (logins_ok w) as Hw.
  { apply login_run; try apply _.
    - apply login_kept.
    - apply logout_kept.
    - apply delete_account_kept.
    - apply disconnected_kept.
    - by intros c k s. }
  pose proof (Hw c1 k1 s1 ltac:(done) Hk1 Hs1 Hss1 Hl1) as E1.
  pose proof (Hw c2 k2 s2 ltac:(done) Hk2 Hs2 Hss2 Hl2) as E2.
  rewrite Hu in *. split; [congruence|done].
Qed.
End Logins.

End ServerProps.
