(* ===== verification/UploadProps.v ===== *)
(** * The upload state machine

    Bounds of the uploads a server holds: whatever clients send, an upload never
    runs past the size it was declared with, a declared size is at most 100 GiB,
    and a binary frame is at most 16 MiB and stays inside its upload. *)
From S2P Require Import Prelude Protocol FileUtils Payloads Tables Database Transactions Registry Redis.
From S2P Require Import FileService FileServiceProps Policy World Delivery Accounts Friends Groups Messages.
From S2P Require Import Files Server ServerLogic HandlerLogic EventLogic ServerProps.
Import Payloads Tables Database Transactions World Delivery Accounts Friends Groups Messages Files Server
  ServerLogic HandlerLogic EventLogic ServerProps.

Module UploadProps.
Local Open Scope Z_scope.

Definition upload_bounds (u : IncomingFileUpload) : Prop :=
  0 <= up_received_size u <= up_expected_size u /\ up_expected_size u <= kMaxFileSize.

(** A frame in transit continues its upload where it stands. *)
Definition frame_bounds (u : IncomingFileUpload) (f : PendingBinaryUploadFrame) : Prop :=
  fr_token f = up_token u /\
  fr_start_offset f = up_received_size u /\
  fr_next_offset f = fr_start_offset f + strlen (fr_bytes f) /\
  0 < fr_remaining_bytes f /\
  strlen (fr_bytes f) + fr_remaining_bytes f <= kMaxFileFrameBytes /\
  fr_next_offset f + fr_remaining_bytes f <= up_expected_size u.

Definition upload_state_ok (p : option IncomingFileUpload * option PendingBinaryUploadFrame) : Prop :=
  match p with
  | (None, None) => True
  | (Some u, None) => upload_bounds u
  | (Some u, Some f) => upload_bounds u /\ frame_bounds u f
  | (None, Some _) => False
  end.

Lemma session_of_alter w c d f :
  session_of (set_w_conns (alter f c (w_conns w)) w) d =
  if decide (c = d) then (f <$> w_conns w !! d) ≫= c_session else session_of w d.
Proof.
  unfold session_of. simpl. case_decide as E; [subst|by rewrite lookup_alter_ne].
  by rewrite lookup_alter_eq.
Qed.

Lemma session_of_set w c d f :
  session_of (set_session c f w).2 d = if decide (c = d) then f <$> session_of w d else session_of w d.
Proof.
  simpl. rewrite session_of_alter. case_decide; [|done]. unfold session_of. by destruct (w_conns w !! d).
Qed.

Lemma session_of_conn w c d f :
  (forall k, c_session (f k) = c_session k) ->
  session_of (set_w_conns (alter f c (w_conns w)) w) d = session_of w d.
Proof.
  intros Hf. rewrite session_of_alter. case_decide; [|done]. unfold session_of.
  destruct (w_conns w !! d) as [k|]; [apply Hf|done].
Qed.

(** ** Invariants of sessions *)

Section Sessions.
Context `{SqlEngine} `{ProtoCodecs} `{FileUtils.DigestEngine} `{ServerEnv}.

(** An invariant of each session that speaks of uploads only. *)
Variable P : ConnId -> option IncomingFileUpload * option PendingBinaryUploadFrame -> Prop.
Hypothesis P_detach : forall c u f, P c (u, f) -> P c (u, None) /\ P c (None, None).

Definition each_session (w : World) : Prop := forall c s, session_of w c = Some s -> P c (upload_part s).

Lemma each_set c f w :
  (forall s, session_of w c = Some s -> P c (upload_part s) -> P c (upload_part (f s))) ->
  each_session w -> each_session (set_session c f w).2.
Proof.
  intros Hf Hw d s. rewrite session_of_set. case_decide as E; [subst d|apply Hw].
  destruct (session_of w c) as [s0|] eqn:Es; [|done]. intros [= <-]. apply Hf; [done|]. by apply Hw.
Qed.

Lemma kept_P c f s : upload_kept f s -> P c (upload_part s) -> P c (upload_part (f s)).
Proof.
  intros [->|[->| ->]] Hs; [done|..]; apply (P_detach c (upload s) (binary_upload s)); exact Hs.
Qed.

Lemma each_core : Core each_session.
Proof.
  split; [| | |by intros w users _|by intros A m Hm w].
  - intros w w' _ E _ _ _. unfold each_session, session_of. by rewrite E.
  - intros c f Hf w Hw d s. simpl. rewrite session_of_conn; [apply Hw|]. intros k. apply Hf.
  - intros c f Hf w. apply each_set. intros s _. apply kept_P. apply Hf.
Qed.
Lemma each_any_call : AnyCall each_session.
Proof. split; [by intros A m w|by intros w|by intros w]. Qed.
Lemma each_any_login : AnyLogin each_session.
Proof.
  split; [|by intros A f w]. intros c f Hf w. apply each_set. intros s _. by apply kept_P.
Qed.
Lemma each_any_realtime : (forall w, each_session w -> each_session (others w)) -> AnyRealtime each_session.
Proof.
  intros Ho. split; [|done]. intros c f Hf w. apply each_set. intros s _. apply kept_P, Hf.
Qed.
Lemma each_events : (forall c, P c (None, None)) -> Events each_session.
Proof.
  intros Hn. split.
  - intros c w Hc Hw d s. unfold session_of. simpl. destruct (decide (c = d)) as [<-|Hne].
    + rewrite lookup_insert_eq. intros [= <-]. apply Hn.
    + rewrite lookup_insert_ne by done. apply Hw.
  - intros c bytes w Hw d s. rewrite session_of_conn by done. apply Hw.
  - intros c w Hw d s. rewrite session_of_conn by done. apply Hw.
Qed.
End Sessions.

Definition uploads_ok : World -> Prop := each_session (fun _ => upload_state_ok).

(** All is well and no frame is in transit on the connection [c]. *)
Definition ready (c : ConnId) : World -> Prop :=
  each_session (fun d p => upload_state_ok p /\ (d = c -> p.2 = None)).

Lemma state_detach u f : upload_state_ok (u, f) -> upload_state_ok (u, None) /\ upload_state_ok (None, None).
Proof. destruct u, f; simpl; tauto. Qed.

Lemma ready_ok c w : ready c w -> uploads_ok w.
Proof. intros Hw d s Hs. exact (proj1 (Hw d s Hs)). Qed.

Section Uploads.
Context `{SqlEngine} `{ProtoCodecs} `{FileUtils.DigestEngine} `{ServerEnv}.

#[local] Instance uploads_core : Core uploads_ok.
Proof. apply each_core. intros _. apply state_detach. Qed.
#[local] Instance uploads_any_call : AnyCall uploads_ok.
Proof. apply each_any_call. Qed.
#[local] Instance uploads_any_login : AnyLogin uploads_ok.
Proof. apply each_any_login. intros _. apply state_detach. Qed.
#[local] Instance uploads_events : Events uploads_ok.
Proof. by apply each_events. Qed.
#[local] Instance ready_core c : Core (ready c).
Proof.
  apply each_core. intros d u f [Hs Hi]. apply state_detach in Hs as [S1 S2]. done.
Qed.

(** A change of the session of [c] between frames. *)
Lemma ready_set c f :
  (forall s, upload_state_ok (upload_part s) -> binary_upload s = None ->
     upload_state_ok (upload_part (f s)) /\ binary_upload (f s) = None) ->
  keeps (ready c) (set_session c f).
Proof.
  intros Hf w. apply each_set. intros s _ [Hs Hi]. destruct (Hf s Hs (Hi eq_refl)) as [S1 S2]. done.
Qed.

Lemma ready_forget c : keeps (ready c) (set_session c (set_upload None)).
Proof. apply ready_set. intros s Hs Hb. unfold upload_part. simpl. by rewrite Hb. Qed.

Lemma end_kept c a : keeps (ready c) (handle_file_end c a).
Proof. pose proof (ready_forget c) as Hf. unfold handle_file_end. walk_keeps. all: apply ready_forget. Qed.
Lemma abort_kept c a : keeps (ready c) (handle_file_abort c a).
Proof. unfold handle_file_abort. walk_keeps. all: apply ready_forget. Qed.

(** ** Chunks *)

Lemma pause_triple {A} P R `{!Core R} c token reason Q :
  (forall w, P w -> R w) -> triple P (pause_file_upload (A := A) c token reason) Q R.
Proof. intros HR w Hw. exact (keeps_pause R (A := A) c token reason w (HR w Hw)). Qed.
Lemma reject_triple {A} P R `{!Core R} c token reason Q :
  (forall w, P w -> R w) -> triple P (reject_file_upload (A := A) c token reason) Q R.
Proof. intros HR w Hw. exact (keeps_reject R (A := A) c token reason w (HR w Hw)). Qed.
Lemma pause_if_triple P R `{!Core R} b c token reason :
  (forall w, P w -> R w) ->
  triple P (pause_upload_if b c token reason) (fun _ w => P w /\ b = false) R.
Proof. intros HR. destruct b; [by apply pause_triple|by intros w Hw]. Qed.

Lemma chunk_frame_ok u offset count :
  upload_bounds u -> 0 <= offset -> 0 <= count < 2 ^ 64 ->
  (count =? 0) || (kMaxFileFrameBytes <? count) || negb (offset =? up_received_size u) ||
    (up_expected_size u <? wrap 64 (up_received_size u + count)) = false ->
  frame_bounds u (mkFrame (up_token u) offset offset count "").
Proof.
  intros [Hr He] Ho Hc Hb. case_bools. unfold frame_bounds. simpl.
  unfold kMaxFileSize, kMaxFileFrameBytes in *.
  assert (wrap 64 (up_received_size u + count) = up_received_size u + count) as Ew.
  { unfold wrap. apply Z.mod_small. split; [lia|]. apply Z.le_lt_trans with (100 * 1024 * 1024 * 1024 + 16 * 1024 * 1024); lia. }
  rewrite Ew in *. change (strlen "") with 0. split_and!; first [done|lia].
Qed.

Lemma uint64_range text n : parse_uint64_value text = Some n -> 0 <= n < 2 ^ 64.
Proof. unfold parse_uint64_value. case_match; [done|]. apply whole_unsigned_range. Qed.

Lemma chunk_triple c a : triple (ready c) (handle_file_chunk c a) (fun _ => uploads_ok) uploads_ok.
Proof.
  unfold handle_file_chunk.
  assert (forall w, ready c w -> uploads_ok w) as HR by apply ready_ok.
  eapply triple_bind; [by apply (require_login_triple _ uploads_ok)|]. intros s. cbv zeta.
  assert (forall w, ready c w /\ session_of w c = Some s /\ logged_in s = true -> uploads_ok w) as HR'
    by (intros w [Hw _]; by apply HR).
  destruct (Protocol.split_words a) as [|token [|offset_text [|count_text [|]]]]; try (apply (pause_triple _ uploads_ok); exact HR').
  destruct (upload s) as [u|] eqn:Eu; [|apply (pause_triple _ uploads_ok); exact HR'].
  eapply triple_bind; [apply (pause_if_triple _ uploads_ok); exact HR'|]. intros ?. simpl.
  eapply triple_bind; [apply (pause_if_triple _ uploads_ok); intros w [Hw _]; by apply HR'|]. intros ?. simpl.
  match goal with |- triple ?P _ _ _ =>
    assert (forall w, P w -> uploads_ok w) as HR2 by (intros w [[Hw _] _]; by apply HR') end.
  destruct (parse_uint64_value offset_text) as [offset|] eqn:Eo; [|apply (pause_triple _ uploads_ok); exact HR2].
  destruct (parse_uint64_value count_text) as [count|] eqn:Ec; [|apply (pause_triple _ uploads_ok); exact HR2].
  destruct ((count =? 0) || _ || _ || _) eqn:Eb; [apply (pause_triple _ uploads_ok); exact HR2|].
  intros w [[(Hw & Hs & _) Ht] _]. apply negb_false_iff, String.eqb_eq in Ht as <-.
  apply each_set; [|by apply HR]. intros s' Es Hok. assert (s' = s) as -> by congruence.
  unfold upload_part in *. simpl. rewrite Eu in *. destruct (Hw c s Hs) as [_ Hi]. simpl in Hi.
  rewrite (Hi eq_refl) in Hok. simpl in Hok. split; [done|].
  apply uint64_range in Eo, Ec. apply chunk_frame_ok; [done|lia|done|done].
Qed.

(** ** Beginning an upload *)

Lemma reject_if_triple P R `{!Core R} b c token reason :
  (forall w, P w -> R w) ->
  triple P (reject_upload_if b c token reason) (fun _ w => P w /\ b = false) R.
Proof. intros HR. destruct b; [by apply reject_triple|by intros w Hw]. Qed.

Lemma begin_checks_triple c s token size_text encoded_name sha bad :
  triple (ready c) (begin_checks c s token size_text encoded_name sha bad)
    (fun r w => ready c w /\ 0 <= r.1 <= kMaxFileSize) (ready c).
Proof.
  unfold begin_checks.
  destruct (parse_uint64_value size_text) as [size|] eqn:Es.
  2: { apply (triple_bind _ _ _ _ (fun _ _ => False)); [by apply (reject_triple _ (ready c))|by intros ? w []]. }
  apply uint64_range in Es.
  apply (triple_bind _ _ _ _ (fun n w => ready c w /\ n = size)); [by intros w Hw|]. intros n.
  eapply triple_bind; [apply (reject_if_triple _ (ready c)); by intros w [Hw _]|]. intros ?. simpl.
  apply (triple_weaken _ (fun w => ready c w /\ 0 <= n <= kMaxFileSize) _ _ _ (ready c)); [|done|].
  { intros w [[Hw ->] Hn]. apply Z.ltb_ge in Hn. split; [done|lia]. }
  apply triple_pure. intros Hn.
  do 5 (apply triple_step; [by walk_keeps|done|]; intros ?). by intros w Hw.
Qed.

Lemma begin_resume_spec requested m fs state path offset fs' :
  rs_metadata requested = Some m -> 0 <= fm_file_size m ->
  FileService.begin_or_resume_upload requested fs = (inr (state, path, offset), fs') ->
  exists m', rs_metadata state = Some m' /\ fm_file_size m' = fm_file_size m /\
    0 <= offset <= fm_file_size m.
Proof.
  intros Hm Hsize. unfold FileService.begin_or_resume_upload. rewrite Hm.
  intros (u1 & fs1 & _ & H4)%bind_inr. apply bind_inr in H4 as (fs2 & ? & _ & H4).
  apply bind_inr in H4 as (part & ? & _ & H4). apply bind_inr in H4 as (meta & ? & _ & H4).
  destruct (part && meta).
  - apply bind_inr in H4 as (existing & fs3 & _ & H4). apply bind_inr in H4 as (u2 & fs4 & Hid & H4).
    apply bind_inr in H4 as (size & fs5 & Hs & H4). apply bind_inr in H4 as (u3 & fs6 & Hle & H4).
    injection H4 as <- <- <- <-. destruct (FileService.same_resume_identity requested existing) eqn:E; [|done].
    unfold FileService.same_resume_identity in E. rewrite Hm in E.
    destruct (rs_metadata existing) as [m'|]; [|done]. exists m'. split; [done|].
    unfold FileService.same_metadata_identity in E. case_bools. split; [congruence|].
    destruct (fm_file_size m <? size) eqn:El; [done|].
    apply FileServiceProps.or_error_inr, FileServiceProps.fs_size_inr in Hs as (content & _ & -> & _).
    apply Z.ltb_ge in El. unfold strlen in *. lia.
  - apply bind_inr in H4 as (u2 & fs3 & _ & H4). apply bind_inr in H4 as (u3 & fs4 & _ & H4).
    destruct (FileService.write_resume_state _ _ _) as [[|] ?]; [done|]. injection H4 as <- <- <- <-.
    exists m. done.
Qed.

Lemma open_upload_kept c token requested m target group :
  rs_metadata requested = Some m -> 0 <= fm_file_size m <= kMaxFileSize ->
  keeps (ready c) (open_upload c token requested target group).
Proof.
  intros Hm Hsize w Hw. unfold open_upload, mbind, H_bind, on_fs.
  destruct (FileService.begin_or_resume_upload requested (w_fs w)) as [[e|[[state path] offset]] fs'] eqn:E; simpl.
  - refine (keeps_reject (ready c) (A := unit) c token e (set_w_fs fs' w) _). by apply (core_same w).
  - apply (begin_resume_spec _ m) in E as (m' & Hm' & Hs & Ho); [|done|lia].
    assert (ready c (set_w_fs fs' w)) as Hw' by by apply (core_same w).
    rewrite Hm'. simpl. refine (keeps_send (ready c) _ _ _ _).
    refine (ready_set c _ _ _ Hw'). intros s _ Hb. unfold upload_part, upload_state_ok, upload_bounds.
    simpl. rewrite Hb. simpl. split; [lia|done].
Qed.

Lemma begin_private_kept c a : keeps (ready c) (handle_file_begin_private c a).
Proof.
  apply triple_keeps. unfold handle_file_begin_private.
  apply triple_step; [by walk_keeps|done|]. intros s. cbv zeta.
  destruct (Protocol.split_words a) as [|token [|target [|name [|size_text [|sha [|]]]]]];
    try by apply (reject_triple _ (ready c)).
  do 2 (apply triple_step; [by walk_keeps|done|]; intros ?).
  eapply triple_bind; [apply begin_checks_triple|]. intros r. simpl.
  apply triple_pure. intros Hr. apply triple_keeps.
  walk_keeps; by eapply open_upload_kept; [reflexivity|].
Qed.

Lemma begin_group_kept c a : keeps (ready c) (handle_file_begin_group c a).
Proof.
  apply triple_keeps. unfold handle_file_begin_group.
  apply triple_step; [by walk_keeps|done|]. intros s. cbv zeta.
  destruct (Protocol.split_words a) as [|token [|group [|name [|size_text [|sha [|]]]]]];
    try by apply (reject_triple _ (ready c)).
  do 2 (apply triple_step; [by walk_keeps|done|]; intros ?).
  eapply triple_bind; [apply begin_checks_triple|]. intros r. simpl.
  apply triple_pure. intros Hr. apply triple_keeps.
  walk_keeps; by eapply open_upload_kept; [reflexivity|].
Qed.

(** ** Frames *)

Definition rest_ok (c : ConnId) : World -> Prop := each_session (fun d p => d <> c -> upload_state_ok p).

#[local] Instance rest_core c : Core (rest_ok c).
Proof.
  apply each_core. intros d u f Hs.
  split; intros Hd; destruct (state_detach u f (Hs Hd)); done.
Qed.

Lemma rest_fix c f w :
  rest_ok c w -> (forall s, session_of w c = Some s -> upload_state_ok (upload_part (f s))) ->
  uploads_ok (set_session c f w).2.
Proof.
  intros Hw Hf d s. rewrite session_of_set. case_decide as E.
  - subst d. destruct (session_of w c) as [s0|] eqn:Es; [|done]. intros [= <-]. by apply Hf.
  - intros Hs. by apply (Hw d s Hs).
Qed.

Lemma rest_set c f : keeps (rest_ok c) (set_session c f).
Proof. intros w. by apply each_set. Qed.

Lemma strlen_take n s : 0 <= n <= strlen s -> strlen (str_take (Z.to_nat n) s) = n.
Proof. unfold strlen. intros Hn. rewrite str_take_length by lia. lia. Qed.

(** The frame after a piece of it has arrived. *)
Definition advanced (f : PendingBinaryUploadFrame) (input : string) : PendingBinaryUploadFrame :=
  let consume := Z.min (fr_remaining_bytes f) (strlen input) in
  mkFrame (fr_token f) (fr_start_offset f) (fr_next_offset f + consume) (fr_remaining_bytes f - consume)
    (fr_bytes f +:+ str_take (Z.to_nat consume) input).

Lemma advanced_spec u f input :
  frame_bounds u f ->
  fr_start_offset (advanced f input) = up_received_size u /\
  (frame_bounds u (advanced f input) \/
   fr_remaining_bytes (advanced f input) = 0 /\
   0 <= fr_start_offset (advanced f input) + strlen (fr_bytes (advanced f input)) <= up_expected_size u \/
   up_received_size u < 0).
Proof.
  intros (F1 & F2 & F3 & F4 & F5 & F6). unfold advanced, frame_bounds. simpl.
  set (consume := Z.min _ _).
  assert (0 <= consume <= strlen input) as Hc by (unfold consume, strlen; lia).
  rewrite strlen_app, strlen_take by done. split; [done|].
  assert (consume <= fr_remaining_bytes f) as Hm by lia. clearbody consume.
  destruct (Z.eq_dec consume (fr_remaining_bytes f)) as [->|Hne].
  - right. unfold strlen in *. destruct (Z.lt_ge_cases (up_received_size u) 0); [by right|left; lia].
  - left. split_and!; first [done|lia].
Qed.

(** A binary piece with the session as it stands in [on_message]. *)
Lemma piece_kept c u f w k s :
  w_conns w !! c = Some k -> c_session k = Some s -> upload s = Some u -> binary_upload s = Some f ->
  uploads_ok w -> uploads_ok (binary_piece c u f (c_in k) w).2.
Proof.
  intros Hk Hs Hu Hf Hw.
  assert (session_of w c = Some s) as Es by (unfold session_of; by rewrite Hk).
  assert (upload_state_ok (Some u, Some f)) as [[U1 U2] Hfr].
  { rewrite <- Hu, <- Hf. by apply (Hw c s). }
  destruct (advanced_spec u f (c_in k) Hfr) as [A1 A2].
  unfold binary_piece. cbv zeta. fold (advanced f (c_in k)).
  set (g := advanced f (c_in k)) in *.
  apply (keeps_retrieve uploads_ok c (Z.to_nat (Z.min (fr_remaining_bytes f) (strlen (c_in k))))) in Hw.
  set (w1 := (with_conn _ _ w).2) in *.
  assert (session_of w1 c = Some s) as Es1 by (unfold w1; simpl; by rewrite session_of_conn).
  change (uploads_ok ((set_session c (set_binary_upload (Some g)) ;;
    if fr_remaining_bytes g =? 0
    then r ← on_fs (FileService.append_upload_bytes (up_temp_path u)
           (fr_start_offset g) (fr_bytes g));
         match r with
         | inl error => pause_file_upload c (up_token u) error
         | inr accepted => set_session c (fun s => set_binary_upload None
             (set_upload (set_up_received_size accepted <$> upload s) s))
         end
    else mret tt) w1).2).
  assert (rest_ok c w1) as Hr1 by (intros d s' Hs' _; by apply (Hw d)).
  clearbody w1 g. clear w Hw Hk Es.
  unfold mbind at 1, H_bind at 1. change (set_session c ?h w1) with (Some tt, (set_session c h w1).2).
  cbn beta iota. destruct (Z.eqb_spec (fr_remaining_bytes g) 0) as [E|E].
  - apply (rest_set c (set_binary_upload (Some g))) in Hr1.
    assert (session_of (set_session c (set_binary_upload (Some g)) w1).2 c =
      Some (set_binary_upload (Some g) s)) as Es2
      by (rewrite session_of_set, decide_True, Es1 by done; done).
    set (w2 := (set_session _ _ w1).2) in *. clearbody w2. unfold mbind, H_bind, on_fs.
    destruct (FileService.append_upload_bytes _ _ _ (w_fs w2)) as [[e|accepted] fs'] eqn:Ea; cbn beta iota zeta.
    + refine (keeps_send uploads_ok _ _ _ _). apply rest_fix; [by apply (core_same w2)|by intros].
    + apply FileServiceProps.append_inr in Ea as (_ & -> & _).
      apply rest_fix; [by apply (core_same w2)|]. intros s' Es'.
      assert (s' = set_binary_upload (Some g) s) as -> by (unfold session_of in *; simpl in Es'; congruence).
      unfold upload_part, upload_state_ok, upload_bounds. simpl. rewrite Hu. simpl.
      destruct A2 as [(_ & _ & _ & ? & _)|[A2|A2]]; lia.
  - apply rest_fix; [done|]. intros s' Es'. assert (s' = s) as -> by congruence.
    unfold upload_part, upload_state_ok. simpl. rewrite Hu. split; [done|].
    destruct A2 as [A2|[[A2 _]|A2]]; [done|done|lia].
Qed.

(** ** Commands and runs *)

Lemma command_kept `{!AnyRealtime uploads_ok} c command w :
  ready c w -> uploads_ok (handle_command c command w).2.
Proof.
  intros Hw. unfold handle_command, dispatch, mbind, H_bind.
  destruct (command_router !! _) as [h|] eqn:E; [|by apply (keeps_send uploads_ok), (ready_ok c)].
  revert w Hw. generalize (Protocol.raw_arguments command) as a. intros a.
  assert (forall c a w, ready c w -> uploads_ok (h c a w).2) as Hh.
  { revert E. apply (router_forall (fun h => forall c a w, ready c w -> uploads_ok (h c a w).2)).
    unfold routes. repeat (apply Forall_cons; split); [..|apply Forall_nil; exact Logic.I];
      intros d b w Hw; cbn [fst snd].
    all: match goal with Hw : ready ?d ?w |- _ => lazymatch goal with
      | |- uploads_ok (handle_file_begin_private _ _ _).2 => by apply (ready_ok d), begin_private_kept
      | |- uploads_ok (handle_file_begin_group _ _ _).2 => by apply (ready_ok d), begin_group_kept
      | |- uploads_ok (handle_file_end _ _ _).2 => by apply (ready_ok d), end_kept
      | |- uploads_ok (handle_file_abort _ _ _).2 => by apply (ready_ok d), abort_kept
      | |- uploads_ok (handle_file_chunk _ ?b _).2 =>
          pose proof (chunk_triple d b w Hw) as Ht; by destruct (handle_file_chunk d b w) as [[|] ?]
      | |- uploads_ok (?m _).2 =>
          assert (keeps uploads_ok m) as Hk by (handler_step; typeclasses eauto);
          exact (Hk w (ready_ok d w Hw))
      end end. }
  intros w Hw. unfold call. cbn. specialize (Hh c a w Hw). by destruct (h c a w) as [[|] ?].
Qed.

Lemma round_kept `{!AnyRealtime uploads_ok} c n : keeps uploads_ok (message_round c n).
Proof.
  intros w Hw. unfold message_round. unfold mbind at 1, H_bind at 1. cbn [look].
  destruct (w_conns w !! c) as [k|] eqn:Ek; [|done].
  destruct (session_of w c) as [s|] eqn:Es; [|done].
  case_match; [done|].
  assert (c_session k = Some s) as Hs by (unfold session_of in Es; by rewrite Ek in Es).
  pose proof (Hw c s Es) as Hok. unfold upload_part in Hok.
  destruct (binary_upload s) as [f|] eqn:Ef.
  - destruct (upload s) as [u|] eqn:Eu; [|done]. destruct Hok as [Hu Hf].
    rewrite (proj2 (Z.ltb_lt 0 _)) by apply Hf. rewrite (proj1 Hf), String.eqb_refl. simpl.
    destruct (is_empty (c_in k)); [done|].
    pose proof (piece_kept c u f w k s Ek Hs Eu Ef Hw) as Hp. unfold mbind, H_bind.
    by destruct (binary_piece c u f (c_in k) w) as [[|] ?].
  - assert (ready c w) as Hr.
    { intros d s' Hs'. split; [by apply (Hw d)|]. intros ->. by rewrite Es in Hs'; injection Hs' as <-. }
    assert (forall k, uploads_ok (text_line c k n w).2) as Ht; [|destruct (upload s); apply Ht].
    intros k'. unfold text_line. destruct (find_first _ _) as [m|]; [|done].
    assert (triple (ready c) (with_conn c (retrieve (S m))) (fun _ => ready c) (ready c)) as Hret
      by by apply triple_keeps, core_conn, retrieve_neutral.
    apply (triple_end (ready c)); [|done].
    cbv zeta. apply (triple_bind _ _ _ _ (fun _ => ready c)); [exact Hret|]. intros ?.
    apply (triple_bind _ _ _ _ (fun _ => uploads_ok)).
    + intros w' Hw'. destruct (is_empty _); cbn [negb]; [exact (ready_ok c w' Hw')|].
      match goal with |- context [handle_command c ?cmd w'] => pose proof (command_kept c cmd w' Hw') as Hk;
        by destruct (handle_command c cmd w') as [[|] ?] end.
    + intros ?. apply triple_keeps. walk_keeps.
Qed.

(** C4: whatever clients send and however the file system fails, every upload a
    session holds is within its declared size, no declared size is above 100
    GiB, and a binary frame in transit is at most 16 MiB, continues the upload
    where it stands and ends inside it. *)
Theorem upload_bounded db redis fs clock entropy events c s u :
  (forall w, uploads_ok w -> uploads_ok (others w)) ->
  session_of (run events (started db redis fs clock entropy)) c = Some s ->
  (upload s = Some u -> upload_bounds u) /\
  (forall f, binary_upload s = Some f -> exists u, upload s = Some u /\ frame_bounds u f).
Proof.
  intros Ho Hs. assert (AnyRealtime uploads_ok) as Hr by (apply each_any_realtime; [intros _; apply state_detach|done]).
  assert (uploads_ok (run events (started db redis fs clock entropy))) as Hw.
  { apply run_kept; [apply _|intros d n; apply round_kept|apply _| |by intros d].
    intros d w _. by apply (keeps_disconnected uploads_ok). }
  specialize (Hw c s Hs). unfold upload_part, upload_state_ok in Hw.
  destruct (upload s), (binary_upload s); split; try done.
  - intros [= <-]. exact (proj1 Hw).
  - intros f [= <-]. eexists; split; [done|exact (proj2 Hw)].
  - by intros [= <-].
Qed.
End Uploads.
End UploadProps.
