(* ===== verification/Buffer.v ===== *)
(** * The byte buffer, [ChatRoom/src/minimuduo/net/Buffer.cpp]

    A vector of bytes with a reader and a writer index and eight bytes of free
    space in front.  The operations move the indexes, and make room by growing
    the vector or by moving the readable bytes to the front.  The class is used
    as a queue of bytes; that it is one is the refinement theorem at the end.

    A failed [assert] is [None].  Pointers into the vector are indexes. *)
From S2P Require Import Prelude.

Module Buffer.

Definition kCheapPrepend : nat := 8.
Definition kInitialSize : nat := 1024.

Record Buffer := mkBuffer {
  buffer_ : string;
  readerIndex_ : nat;
  writerIndex_ : nat }.

Definition zeros (n : nat) : string := Nat.iter n (String zero) "".

(** [std::vector<char>::resize] *)
Definition resize (n : nat) (v : string) : string :=
  str_take n v +:+ zeros (n - String.length v).

(** [std::copy] of [data] to index [i] *)
Definition copy_to (i : nat) (data v : string) : string :=
  str_take i v +:+ data +:+ str_drop (i + String.length data) v.

Definition new (initialSize : nat) : Buffer :=
  mkBuffer (zeros (kCheapPrepend + initialSize)) kCheapPrepend kCheapPrepend.

Definition readableBytes (b : Buffer) : nat := writerIndex_ b - readerIndex_ b.
Definition writableBytes (b : Buffer) : nat := String.length (buffer_ b) - writerIndex_ b.
Definition prependableBytes (b : Buffer) : nat := readerIndex_ b.
Definition peek (b : Buffer) : nat := readerIndex_ b.
Definition beginWrite (b : Buffer) : nat := writerIndex_ b.

Definition retrieveAll (b : Buffer) : Buffer := mkBuffer (buffer_ b) kCheapPrepend kCheapPrepend.

Definition retrieve (length : nat) (b : Buffer) : option Buffer :=
  if negb (length <=? readableBytes b) then None
  else if length <? readableBytes b
  then Some (mkBuffer (buffer_ b) (readerIndex_ b + length) (writerIndex_ b))
  else Some (retrieveAll b).

Definition retrieveUntil (end_ : nat) (b : Buffer) : option Buffer :=
  if negb (peek b <=? end_) then None
  else if negb (end_ <=? beginWrite b) then None
  else retrieve (end_ - peek b) b.

Definition retrieveAsString (length : nat) (b : Buffer) : option (string * Buffer) :=
  let length := length `min` readableBytes b in
  let result := substr (peek b) length (buffer_ b) in
  b' ← retrieve length b; Some (result, b').

Definition retrieveAllAsString (b : Buffer) : option (string * Buffer) :=
  retrieveAsString (readableBytes b) b.

(** [memchr(peek(), '\n', readableBytes())] *)
Definition findEOL (b : Buffer) : option nat :=
  (fun i => peek b + i) <$>
    find_first (fun c => Ascii.eqb c "010"%char) (substr (peek b) (readableBytes b) (buffer_ b)).

Definition makeSpace (length : nat) (b : Buffer) : option Buffer :=
  if writableBytes b + prependableBytes b <? length + kCheapPrepend
  then Some (mkBuffer (resize (writerIndex_ b + length) (buffer_ b)) (readerIndex_ b) (writerIndex_ b))
  else if negb (kCheapPrepend <? readerIndex_ b) then None
  else
    let readable := readableBytes b in
    Some (mkBuffer (copy_to kCheapPrepend (substr (readerIndex_ b) readable (buffer_ b)) (buffer_ b))
      kCheapPrepend (kCheapPrepend + readable)).

Definition ensureWritableBytes (length : nat) (b : Buffer) : option Buffer :=
  b' ← (if writableBytes b <? length then makeSpace length b else Some b);
  if length <=? writableBytes b' then Some b' else None.

Definition hasWritten (length : nat) (b : Buffer) : option Buffer :=
  if length <=? writableBytes b
  then Some (mkBuffer (buffer_ b) (readerIndex_ b) (writerIndex_ b + length))
  else None.

Definition append (data : string) (b : Buffer) : option Buffer :=
  b1 ← ensureWritableBytes (String.length data) b;
  hasWritten (String.length data)
    (mkBuffer (copy_to (beginWrite b1) data (buffer_ b1)) (readerIndex_ b1) (writerIndex_ b1)).

(** The stack buffer of [readFd]. *)
Definition kExtraBuffer : nat := Z.to_nat 65536.

(** What the kernel has for [readv]: an error, or the bytes that have arrived,
    of which [readv] takes as many as fit. *)
Inductive arrived := ReadErrno (code : Z) | Arrived (bytes : string).

(** The result of the call, -1 for an error, and [*savedErrno]. *)
Definition readFd (input : arrived) (b : Buffer) : option ((Z * option Z) * Buffer) :=
  let writable := writableBytes b in
  match input with
  | ReadErrno code => Some ((-1, Some code)%Z, b)
  | Arrived bytes =>
      let room := if writable <? kExtraBuffer then writable + kExtraBuffer else writable in
      let taken := str_take room bytes in
      let bytesRead := String.length taken in
      let filled := copy_to (writerIndex_ b) (str_take writable taken) (buffer_ b) in
      if bytesRead <=? writable
      then Some ((Z.of_nat bytesRead, None), mkBuffer filled (readerIndex_ b) (writerIndex_ b + bytesRead))
      else
        b' ← append (str_drop writable taken) (mkBuffer filled (readerIndex_ b) (String.length (buffer_ b)));
        Some ((Z.of_nat bytesRead, None), b')
  end.

(** What the kernel does with [write]: an error, or it takes at most that many
    bytes. *)
Inductive accepted := WriteErrno (code : Z) | Accepts (n : nat).

Definition writeFd (output : accepted) (b : Buffer) : (Z * option Z) * string :=
  match output with
  | WriteErrno code => ((-1, Some code)%Z, "")
  | Accepts n =>
      let sent := str_take n (substr (peek b) (readableBytes b) (buffer_ b)) in
      ((Z.of_nat (String.length sent), None), sent)
  end.

(** ** The abstract queue *)

(** The bytes the buffer holds. *)
Definition content (b : Buffer) : string := substr (readerIndex_ b) (readableBytes b) (buffer_ b).

Definition wf (b : Buffer) : Prop :=
  kCheapPrepend <= readerIndex_ b <= writerIndex_ b /\ writerIndex_ b <= String.length (buffer_ b).

(** The operations that its users call. *)
Inductive call :=
| Retrieve (length : nat)
| RetrieveAll
| RetrieveAsString (length : nat)
| FindEOL
| RetrieveLine
| Append (data : string)
| ReadFd (input : arrived)
| WriteFd (output : accepted).

Inductive answer :=
| Nothing
| Text (s : string)
| Index (i : option nat)
| Count (r : Z * option Z) (s : string).

(** [RetrieveLine] is [retrieveUntil(findEOL())]; the position of [FindEOL] is
    relative to [peek()], as its users compute it. *)
Definition run_call (c : call) (b : Buffer) : option (answer * Buffer) :=
  match c with
  | Retrieve n => b' ← retrieve n b; Some (Nothing, b')
  | RetrieveAll => Some (Nothing, retrieveAll b)
  | RetrieveAsString n => r ← retrieveAsString n b; Some (Text r.1, r.2)
  | FindEOL => Some (Index ((fun i => i - peek b) <$> findEOL b), b)
  | RetrieveLine => b' ← from_option (fun i => retrieveUntil i b) (Some b) (findEOL b); Some (Nothing, b')
  | Append data => b' ← append data b; Some (Nothing, b')
  | ReadFd input => r ← readFd input b; Some (Count r.1 "", r.2)
  | WriteFd output => let r := writeFd output b in Some (Count r.1 r.2, b)
  end.

(** The same on a queue of bytes.  How much [ReadFd] takes depends on the free
    space, so the specification is a relation. *)
Inductive spec : call -> string -> answer -> string -> Prop :=
| spec_retrieve n s : n <= String.length s -> spec (Retrieve n) s Nothing (str_drop n s)
| spec_all s : spec RetrieveAll s Nothing ""
| spec_string n s : spec (RetrieveAsString n) s (Text (str_take n s)) (str_drop n s)
| spec_eol s : spec FindEOL s (Index (find_first (fun c => Ascii.eqb c "010"%char) s)) s
| spec_line s :
    spec RetrieveLine s Nothing
      (from_option (fun i => str_drop i s) s (find_first (fun c => Ascii.eqb c "010"%char) s))
| spec_append data s : spec (Append data) s Nothing (s +:+ data)
| spec_read_error code s : spec (ReadFd (ReadErrno code)) s (Count (-1, Some code)%Z "") s
| spec_read bytes s n :
    n <= String.length bytes -> (bytes <> "" -> 0 < n) ->
    spec (ReadFd (Arrived bytes)) s (Count (Z.of_nat n, None) "") (s +:+ str_take n bytes)
| spec_write_error code s : spec (WriteFd (WriteErrno code)) s (Count (-1, Some code)%Z "") s
| spec_write n s :
    spec (WriteFd (Accepts n)) s (Count (strlen (str_take n s), None) (str_take n s)) s.

(** A caller may not retrieve more than there is. *)
Definition allowed (c : call) (s : string) : Prop :=
  match c with Retrieve n => n <= String.length s | _ => True end.

(** ** Lemmas *)

Lemma zeros_length n : String.length (zeros n) = n.
Proof. induction n as [|n IH]; [done|]. simpl. by rewrite IH. Qed.

Lemma substr_length i n s : i + n <= String.length s -> String.length (substr i n s) = n.
Proof. intros Hs. unfold substr. rewrite str_take_length, str_drop_length. lia. Qed.

Lemma resize_length n v : String.length v <= n -> String.length (resize n v) = n.
Proof.
  intros Hn. unfold resize. rewrite str_length_app, zeros_length, str_take_length. lia.
Qed.

Lemma copy_to_length i data v :
  i + String.length data <= String.length v -> String.length (copy_to i data v) = String.length v.
Proof.
  intros Hi. unfold copy_to. rewrite !str_length_app, str_take_length, str_drop_length. lia.
Qed.

Lemma substr_app_l i n s t : i + n <= String.length s -> substr i n (s +:+ t) = substr i n s.
Proof.
  intros Hs. unfold substr. rewrite str_drop_app_le, str_take_app_le; [done|rewrite str_drop_length; lia|lia].
Qed.

Lemma substr_app_r i n s t : String.length s <= i -> substr i n (s +:+ t) = substr (i - String.length s) n t.
Proof. intros Hs. unfold substr. by rewrite str_drop_app_ge by lia. Qed.

Lemma substr_add i n m s : substr i (n + m) s = substr i n s +:+ substr (i + n) m s.
Proof. unfold substr. by rewrite <- str_take_drop_take, str_drop_drop. Qed.

Lemma substr_take i n m s : i + n <= m -> substr i n (str_take m s) = substr i n s.
Proof.
  intros Hm. destruct (le_lt_dec m (String.length s)) as [Hs|Hs].
  - rewrite <- (str_take_drop m s) at 2. symmetry. apply substr_app_l.
    rewrite str_take_length. lia.
  - by rewrite str_take_ge by lia.
Qed.

(** Bytes before the place of a copy stay, the copied bytes are there. *)
Lemma substr_copy_before i n at_ data v :
  i + n <= at_ -> at_ <= String.length v -> substr i n (copy_to at_ data v) = substr i n v.
Proof.
  intros Hi Hv. unfold copy_to. rewrite substr_app_l, substr_take; [done|lia|].
  rewrite str_take_length. lia.
Qed.

Lemma substr_copy_at at_ data v :
  at_ <= String.length v -> substr at_ (String.length data) (copy_to at_ data v) = data.
Proof.
  intros Hv. unfold copy_to.
  assert (String.length (str_take at_ v) = at_) as Hl by (rewrite str_take_length; lia).
  rewrite substr_app_r by lia. rewrite Hl, Nat.sub_diag. unfold substr.
  by rewrite str_drop_0, str_take_app_length.
Qed.

Lemma str_take_drop_comm n m s : str_drop m (str_take (m + n) s) = str_take n (str_drop m s).
Proof. revert s. induction m as [|m IH]; intros [|c s]; simpl; auto; by destruct n. Qed.

Lemma content_length b : wf b -> String.length (content b) = readableBytes b.
Proof. intros [Hr Hw]. apply substr_length. unfold readableBytes. lia. Qed.

Lemma content_retrieve n b : 
  content (mkBuffer (buffer_ b) (readerIndex_ b + n) (writerIndex_ b)) = str_drop n (content b).
Proof.
  unfold content, readableBytes, substr. simpl.
  destruct (le_lt_dec n (writerIndex_ b - readerIndex_ b)) as [Hn|Hn].
  - replace (writerIndex_ b - readerIndex_ b) with (n + (writerIndex_ b - (readerIndex_ b + n))) by lia.
    by rewrite str_take_drop_comm, str_drop_drop.
  - replace (writerIndex_ b - (readerIndex_ b + n)) with 0 by lia.
    rewrite str_take_0, str_drop_ge; [done|]. rewrite str_take_length. lia.
Qed.

Lemma retrieve_ok n b :
  wf b -> n <= readableBytes b ->
  exists b', retrieve n b = Some b' /\ wf b' /\ content b' = str_drop n (content b) /\ buffer_ b' = buffer_ b.
Proof.
  intros Hb Hn. pose proof (content_length b Hb) as Hl. destruct Hb as [Hr Hw]. unfold retrieve.
  rewrite (proj2 (Nat.leb_le _ _) Hn). simpl. destruct (Nat.ltb_spec n (readableBytes b)) as [Hlt|Hge].
  - eexists. split; [done|]. split; [|split; [by rewrite content_retrieve|done]].
    unfold wf, readableBytes in *. simpl. lia.
  - eexists. split; [done|]. split; [unfold wf; simpl; lia|]. split; [|done].
    rewrite str_drop_ge by lia. done.
Qed.

(** The free space is made without touching the content. *)
Lemma make_space_ok n b :
  wf b -> writableBytes b < n ->
  exists b', makeSpace n b = Some b' /\ wf b' /\ content b' = content b /\ n <= writableBytes b' /\
    String.length (buffer_ b') <= String.length (buffer_ b) `max` (kCheapPrepend + readableBytes b + 2 * n).
Proof.
  intros Hb Hn. pose proof Hb as [Hr Hw]. unfold makeSpace, prependableBytes.
  unfold writableBytes, readableBytes in *. unfold kCheapPrepend in *.
  destruct (Nat.ltb_spec (String.length (buffer_ b) - writerIndex_ b + readerIndex_ b) (n + 8)) as [Hlt|Hge].
  - eexists. split; [done|]. unfold wf, content, readableBytes, kCheapPrepend. simpl.
    rewrite resize_length by lia. split; [lia|]. split; [|lia].
    unfold resize. rewrite substr_app_l, substr_take; [done|lia|]. rewrite str_take_length. lia.
  - rewrite (proj2 (Nat.ltb_lt _ _)) by lia. simpl. eexists. split; [done|].
    unfold wf, content, readableBytes, kCheapPrepend. simpl.
    set (t := substr (readerIndex_ b) (writerIndex_ b - readerIndex_ b) (buffer_ b)).
    assert (String.length t = writerIndex_ b - readerIndex_ b) as Ht by (apply substr_length; lia).
    rewrite copy_to_length by lia. split; [lia|]. split; [|lia].
    rewrite Nat.sub_0_r, <- Ht.
    apply substr_copy_at. lia.
Qed.

Lemma ensure_ok n b :
  wf b ->
  exists b', ensureWritableBytes n b = Some b' /\ wf b' /\ content b' = content b /\ n <= writableBytes b' /\
    String.length (buffer_ b') <= String.length (buffer_ b) `max` (kCheapPrepend + readableBytes b + 2 * n).
Proof.
  intros Hb. unfold ensureWritableBytes. destruct (Nat.ltb_spec (writableBytes b) n) as [Hn|Hn].
  - destruct (make_space_ok n b Hb Hn) as (b' & -> & Hb' & Hc & Hw & Hs). simpl.
    rewrite (proj2 (Nat.leb_le _ _) Hw). by exists b'.
  - simpl. rewrite (proj2 (Nat.leb_le _ _) Hn). exists b. split_and!; [done..|lia].
Qed.

(** Bytes written at the writer index extend the content. *)
Lemma content_written data b :
  wf b -> String.length data <= writableBytes b ->
  let b' := mkBuffer (copy_to (writerIndex_ b) data (buffer_ b)) (readerIndex_ b)
              (writerIndex_ b + String.length data) in
  wf b' /\ content b' = content b +:+ data.
Proof.
  intros [Hr Hw] Hd. unfold writableBytes in Hd. unfold wf, content, readableBytes. simpl.
  rewrite copy_to_length by lia. split; [lia|].
  replace (writerIndex_ b + String.length data - readerIndex_ b)
    with ((writerIndex_ b - readerIndex_ b) + String.length data) by lia.
  rewrite substr_add. f_equal; [apply substr_copy_before; lia|].
  replace (readerIndex_ b + (writerIndex_ b - readerIndex_ b)) with (writerIndex_ b) by lia.
  apply substr_copy_at. lia.
Qed.

Lemma append_ok data b :
  wf b ->
  exists b', append data b = Some b' /\ wf b' /\ content b' = content b +:+ data /\
    String.length (buffer_ b') <=
      String.length (buffer_ b) `max` (kCheapPrepend + readableBytes b + 2 * String.length data).
Proof.
  intros Hb. unfold append. destruct (ensure_ok (String.length data) b Hb) as (b1 & -> & Hb1 & Hc & Hw & Hs).
  simpl. unfold hasWritten, writableBytes, beginWrite in *. simpl.
  pose proof Hb1 as [Hr1 Hw1]. rewrite copy_to_length by lia. rewrite (proj2 (Nat.leb_le _ _) Hw).
  destruct (content_written data b1 Hb1 Hw) as [Hwf Hcw].
  eexists. split; [done|]. split; [exact Hwf|]. rewrite Hcw, Hc. split; [done|].
  simpl. by rewrite copy_to_length by lia.
Qed.

Lemma kExtraBuffer_pos : 0 < kExtraBuffer.
Proof. unfold kExtraBuffer. lia. Qed.
#[local] Opaque kExtraBuffer.

(** [readFd] appends a prefix of what has arrived. *)
Lemma read_ok bytes b :
  wf b ->
  exists n b', readFd (Arrived bytes) b = Some ((Z.of_nat n, None), b') /\ wf b' /\
    content b' = content b +:+ str_take n bytes /\ n <= String.length bytes /\ (bytes <> "" -> 0 < n) /\
    String.length (buffer_ b') <=
      String.length (buffer_ b) `max` (kCheapPrepend + String.length (buffer_ b) + 2 * kExtraBuffer).
Proof.
  intros Hb. unfold readFd. set (room := if writableBytes b <? kExtraBuffer then _ else _).
  pose proof kExtraBuffer_pos as Hpos.
  assert (0 < room <= writableBytes b + kExtraBuffer /\ writableBytes b <= room) as [Hroom Hle].
  { unfold room. destruct (Nat.ltb_spec (writableBytes b) kExtraBuffer); lia. }
  set (taken := str_take room bytes).
  assert (String.length taken = room `min` String.length bytes) as Hl by apply str_take_length.
  assert (bytes <> "" -> 0 < String.length taken) as Hne.
  { intros Hne. destruct bytes; [done|]. rewrite Hl. simpl. lia. }
  assert (str_take (String.length taken) bytes = taken) as Ht.
  { rewrite Hl. unfold taken. destruct (Nat.min_spec room (String.length bytes)) as [[? ->]|[? ->]]; [done|].
    by rewrite !str_take_ge by lia. }
  exists (String.length taken). destruct (Nat.leb_spec (String.length taken) (writableBytes b)) as [Hs|Hs].
  - rewrite (str_take_ge (writableBytes b)) by done.
    destruct (content_written taken b Hb Hs) as [Hwf Hc].
    eexists. split; [done|]. rewrite Ht. split; [exact Hwf|]. split; [exact Hc|]. split; [lia|]. split; [done|].
    simpl. destruct Hb. unfold writableBytes in Hs. rewrite copy_to_length by lia. lia.
  - assert (String.length (str_take (writableBytes b) taken) = writableBytes b) as Hlw
      by (rewrite str_take_length; lia).
    destruct (content_written (str_take (writableBytes b) taken) b Hb) as [Hwf Hc]; [lia|].
    pose proof Hb as [Hr Hw]. rewrite Hlw in Hwf, Hc.
    replace (writerIndex_ b + writableBytes b) with (String.length (buffer_ b)) in Hwf, Hc
      by (unfold writableBytes; lia).
    destruct (append_ok (str_drop (writableBytes b) taken) _ Hwf) as (b' & -> & Hwf' & Hc' & Hs').
    simpl. exists b'. split; [done|]. split; [done|]. rewrite Hc', Hc, Ht.
    split; [by rewrite str_app_assoc, str_take_drop|]. split; [lia|]. split; [done|].
    unfold readableBytes in Hs'. cbn [buffer_ readerIndex_ writerIndex_] in Hs'.
    rewrite copy_to_length in Hs' by (rewrite Hlw; unfold writableBytes; lia).
    rewrite str_drop_length in Hs'. lia.
Qed.

(** One call: it is defined exactly on the calls allowed, and does to the
    content what the specification says. *)
Lemma run_call_ok c b :
  wf b -> allowed c (content b) ->
  exists a b', run_call c b = Some (a, b') /\ wf b' /\ spec c (content b) a (content b').
Proof.
  intros Hb. pose proof (content_length b Hb) as Hl.
  destruct c as [n| |n| | |data|[code|bytes]|[code|n]]; cbn [run_call allowed]; intros Ha.
  - rewrite Hl in Ha. destruct (retrieve_ok n b Hb Ha) as (b' & -> & Hb' & Hc & _).
    exists Nothing, b'. rewrite Hc. split_and!; [done|done|constructor; lia].
  - destruct (retrieve_ok (readableBytes b) b Hb) as (b' & Hb' & Hw & Hc & _); [done|].
    unfold retrieve in Hb'. rewrite Nat.leb_refl, Nat.ltb_irrefl in Hb'. injection Hb' as <-.
    eexists _, _. split; [done|]. split; [done|]. rewrite Hc, str_drop_ge by lia. constructor.
  - unfold retrieveAsString. destruct (retrieve_ok (n `min` readableBytes b) b Hb) as (b' & -> & Hb' & Hc & _); [lia|].
    simpl. eexists _, _. split; [done|]. split; [done|]. rewrite Hc.
    replace (substr (peek b) (n `min` readableBytes b) (buffer_ b)) with (str_take n (content b))
      by (unfold content, substr; by rewrite str_take_take).
    rewrite <- Hl, str_drop_min. constructor.
  - eexists _, _. split; [done|]. split; [done|]. unfold findEOL.
    match goal with |- spec _ _ (Index ?x) _ =>
      replace x with (find_first (fun c => Ascii.eqb c "010"%char) (content b)); [constructor|] end.
    unfold content. destruct (find_first _ _) as [i|]; [|reflexivity]. cbn. by rewrite Nat.add_comm, Nat.add_sub.
  - unfold findEOL. change (substr (peek b) (readableBytes b) (buffer_ b)) with (content b).
    assert (spec RetrieveLine (content b) Nothing (from_option (fun i => str_drop i (content b)) (content b)
      (find_first (fun c => Ascii.eqb c "010"%char) (content b)))) as Hs by constructor.
    destruct (find_first _ (content b)) as [i|] eqn:Ei; simpl in *; [|by exists Nothing, b].
    apply find_first_lt in Ei. rewrite Hl in Ei. unfold retrieveUntil, peek, beginWrite.
    rewrite (proj2 (Nat.leb_le _ _)) by lia. simpl.
    rewrite (proj2 (Nat.leb_le _ _)) by (unfold readableBytes in Ei; lia). simpl.
    replace (readerIndex_ b + i - readerIndex_ b) with i by lia.
    destruct (retrieve_ok i b Hb) as (b' & -> & Hb' & Hc & _); [lia|]. simpl.
    eexists _, _. split; [done|]. split; [done|]. by rewrite Hc.
  - destruct (append_ok data b Hb) as (b' & -> & Hb' & Hc & _). simpl. eexists _, _.
    split; [done|]. split; [done|]. rewrite Hc. constructor.
  - eexists _, _. split; [done|]. split; [done|constructor].
  - destruct (read_ok bytes b Hb) as (n & b' & E & Hb' & Hc & Hn & Hp & _). rewrite E. simpl.
    eexists _, _. split; [done|]. split; [done|]. rewrite Hc. by constructor.
  - eexists _, _. split; [done|]. split; [done|constructor].
  - eexists _, _. split; [done|]. split; [done|]. constructor.
Qed.

Lemma new_ok n : wf (new n) /\ content (new n) = "".
Proof.
  split; [|done]. unfold wf, new. cbn [buffer_ readerIndex_ writerIndex_]. rewrite zeros_length. lia.
Qed.

(** A history of calls on a buffer and the answers. *)
Fixpoint run_calls (cs : list call) (b : Buffer) : option (list answer * Buffer) :=
  match cs with
  | [] => Some ([], b)
  | c :: rest =>
      r ← run_call c b; q ← run_calls rest r.2; Some (r.1 :: q.1, q.2)
  end.

(** The same history on a queue of bytes. *)
Inductive spec_calls : list call -> string -> list answer -> string -> Prop :=
| spec_none s : spec_calls [] s [] s
| spec_more c cs s a t as_ u : spec c s a t -> spec_calls cs t as_ u -> spec_calls (c :: cs) s (a :: as_) u.

Lemma run_calls_ok cs b :
  wf b ->
  (exists as_ b', run_calls cs b = Some (as_, b') /\ wf b' /\ spec_calls cs (content b) as_ (content b')) \/
  (run_calls cs b = None /\ exists pre c post as_ s, cs = pre ++ c :: post /\
     spec_calls pre (content b) as_ s /\ ~ allowed c s).
Proof.
  revert b. induction cs as [|c cs IH]; intros b Hb.
  { left. eexists _, _. split; [done|]. split; [done|constructor]. }
  assert (Decision (allowed c (content b))) as D by (destruct c; simpl; apply _).
  destruct (decide (allowed c (content b))) as [Ha|Ha].
  - destruct (run_call_ok c b Hb Ha) as (a & b1 & E & Hb1 & Hs). simpl. rewrite E. simpl.
    destruct (IH b1 Hb1) as [(as_ & b' & -> & Hb' & Hss)|(-> & pre & d & post & as_ & s & -> & Hss & Hd)].
    + left. eexists _, _. split; [done|]. split; [done|]. by econstructor.
    + right. split; [done|]. exists (c :: pre), d, post, (a :: as_), s.
      split; [done|]. split; [by econstructor|done].
  - right. split.
    + destruct c as [n| | | | | | |]; try done. simpl in *. rewrite content_length in Ha by done.
      unfold retrieve. by rewrite (proj2 (Nat.leb_gt _ _)) by lia.
    + exists [], c, cs, [], (content b). split; [done|]. split; [constructor|done].
Qed.

(** C16: the buffer is a queue of bytes.  For every history of calls on a fresh
    buffer, either all of them are defined and give the answers of the same
    history on a queue that starts empty (bytes come out in the order they went
    in, whatever moving and growing of the vector happens), or one of them asks
    to retrieve more than the queue holds at that point. *)
Theorem buffer_is_queue initialSize cs :
  match run_calls cs (new initialSize) with
  | Some (as_, b) => spec_calls cs "" as_ (content b)
  | None => exists pre n post as_ s,
      cs = pre ++ Retrieve n :: post /\ spec_calls pre "" as_ s /\ String.length s < n
  end.
Proof.
  destruct (new_ok initialSize) as [Hwf Hc]. rewrite <- Hc.
  destruct (run_calls_ok cs _ Hwf) as [(as_ & b & -> & _ & Hs)|(-> & pre & c & post & as_ & s & -> & Hs & Hn)].
  - exact Hs.
  - destruct c as [n| | | | | | |]; try by destruct Hn. exists pre, n, post, as_, s.
    split; [done|]. split; [done|]. simpl in Hn. lia.
Qed.
End Buffer.
