(* ===== verification/EventLoop.v ===== *)
(** * The event loop, [ChatRoom/src/minimuduo/net/EventLoop.cpp], [Channel.cpp], [Poller.cpp]

    One thread runs [loop()]: it waits in [epoll_wait], handles the active
    channels, then runs the functors other threads (or its own callbacks) have
    queued.  A thread that queues a functor wakes the loop through an eventfd.
    The model is a step relation on the loop's fields, the program counter of
    its thread and the threads that are between [push_back] and [wakeup]: every
    interleaving of a foreign thread with the loop is a sequence of steps.

    The second part is the registration of channels with epoll: the [index_] of
    a channel and the interest set in the kernel. *)
From S2P Require Import Prelude.

Module EventLoop.

(** A functor is named; [f_early] marks one the loop's own thread queued before
    it called [loop()]. *)
Record functor := mkFunctor { f_id : nat; f_early : bool }.

(** What an entry of [activeChannels_] is: the loop's own eventfd channel or
    another one. *)
Inductive active := Wakeup | Other.

Inductive pc :=
| Idle                            (* outside [loop()] *)
| Checking                        (* before [while (!quit_)] *)
| Polling                         (* in [epoll_wait] *)
| Dispatching (l : list active)   (* channels still to handle *)
| Draining                        (* in [doPendingFunctors], before the swap *)
| Running (l : list functor).     (* functors taken by the swap, still to run *)

#[export] Instance active_eq_dec : EqDecision active.
Proof. solve_decision. Defined.
#[export] Instance functor_eq_dec : EqDecision functor.
Proof. solve_decision. Defined.
#[export] Instance pc_eq_dec : EqDecision pc.
Proof. solve_decision. Defined.

Record Loop := mkLoop {
  quit_ : bool;
  callingPendingFunctors_ : bool;
  pendingFunctors_ : list functor;
  eventfd : nat;                  (* the counter behind [wakeupFd_] *)
  l_pc : pc;
  waking : nat;                   (* foreign threads before their [wakeup()] *)
  queued : list nat;              (* every functor queued so far, in order *)
  executed : list nat }.          (* every functor run so far, in order *)

Definition fresh : Loop := mkLoop false false [] 0 Idle 0 [] [].

Definition set_quit (x : bool) (s : Loop) : Loop :=
  mkLoop x (callingPendingFunctors_ s) (pendingFunctors_ s) (eventfd s) (l_pc s) (waking s) (queued s) (executed s).
Definition set_calling (x : bool) (s : Loop) : Loop :=
  mkLoop (quit_ s) x (pendingFunctors_ s) (eventfd s) (l_pc s) (waking s) (queued s) (executed s).
Definition set_pending (x : list functor) (s : Loop) : Loop :=
  mkLoop (quit_ s) (callingPendingFunctors_ s) x (eventfd s) (l_pc s) (waking s) (queued s) (executed s).
Definition set_eventfd (x : nat) (s : Loop) : Loop :=
  mkLoop (quit_ s) (callingPendingFunctors_ s) (pendingFunctors_ s) x (l_pc s) (waking s) (queued s) (executed s).
Definition set_pc (x : pc) (s : Loop) : Loop :=
  mkLoop (quit_ s) (callingPendingFunctors_ s) (pendingFunctors_ s) (eventfd s) x (waking s) (queued s) (executed s).
Definition set_waking (x : nat) (s : Loop) : Loop :=
  mkLoop (quit_ s) (callingPendingFunctors_ s) (pendingFunctors_ s) (eventfd s) (l_pc s) x (queued s) (executed s).

(** [wakeup()] *)
Definition wakeup (s : Loop) : Loop := set_eventfd (S (eventfd s)) s.

(** [pendingFunctors_.push_back] under the lock. *)
Definition push (id : nat) (early : bool) (s : Loop) : Loop :=
  mkLoop (quit_ s) (callingPendingFunctors_ s) (pendingFunctors_ s ++ [mkFunctor id early]) (eventfd s) (l_pc s)
    (waking s) (queued s ++ [id]) (executed s).

(** What a callback or a functor that runs in the loop's thread may ask of it. *)
Inductive request := QueueInLoop (id : nat) | Quit.

(** [queueInLoop] and [quit] called in the loop's thread. *)
Definition own_request (s : Loop) (r : request) : Loop :=
  match r with
  | QueueInLoop id =>
      let s := push id (bool_decide (l_pc s = Idle)) s in
      if callingPendingFunctors_ s then wakeup s else s
  | Quit => set_quit true s
  end.

Definition own_requests (rs : list request) (s : Loop) : Loop := foldl own_request s rs.

(** The atomic steps: of foreign threads, and of the loop's thread. *)
Inductive action :=
| ForeignQueue (id : nat)            (* [queueInLoop], up to the unlock *)
| ForeignQuit                        (* [quit_.store(true)] *)
| ForeignWakeup                      (* [wakeup()] at the end of either *)
| OwnBefore (rs : list request)      (* calls before [loop()] *)
| Enter                              (* [loop()], up to [quit_.store(false)] *)
| Check                              (* [!quit_.load()] *)
| PollReturns (l : list active)      (* [epoll_wait], timeouts included *)
| HandleEvent (rs : list request)    (* [channel->handleEvent()] *)
| BeginFunctors                      (* [callingPendingFunctors_.store(true)] *)
| Swap                               (* [functors.swap(pendingFunctors_)] *)
| RunFunctor (rs : list request)     (* [functor()] *)
| EndFunctors.                       (* [callingPendingFunctors_.store(false)] *)

Definition step (s : Loop) (a : action) : option Loop :=
  match a, l_pc s with
  | ForeignQueue id, _ => Some (set_waking (S (waking s)) (push id false s))
  | ForeignQuit, _ => Some (set_waking (S (waking s)) (set_quit true s))
  | ForeignWakeup, _ =>
      match waking s with S n => Some (wakeup (set_waking n s)) | 0 => None end
  | OwnBefore rs, Idle => Some (own_requests rs s)
  | Enter, Idle => Some (set_pc Checking (set_quit false s))
  | Check, Checking => Some (set_pc (if quit_ s then Idle else Polling) s)
  | PollReturns l, Polling =>
      (* the eventfd is active only when its counter is not zero; a timeout, an
         EINTR or a full event array may report less than is there *)
      if bool_decide (Wakeup ∈ l) && (eventfd s =? 0) then None
      else Some (set_pc (Dispatching l) s)
  | HandleEvent rs, Dispatching (Wakeup :: l) =>
      match rs with [] => Some (set_pc (Dispatching l) (set_eventfd 0 s)) | _ => None end
  | HandleEvent rs, Dispatching (Other :: l) => Some (set_pc (Dispatching l) (own_requests rs s))
  | BeginFunctors, Dispatching [] => Some (set_pc Draining (set_calling true s))
  | Swap, Draining => Some (set_pc (Running (pendingFunctors_ s)) (set_pending [] s))
  | RunFunctor rs, Running (f :: l) =>
      let s := own_requests rs s in
      Some (mkLoop (quit_ s) (callingPendingFunctors_ s) (pendingFunctors_ s) (eventfd s) (Running l)
              (waking s) (queued s) (executed s ++ [f_id f]))
  | EndFunctors, Running [] => Some (set_pc Checking (set_calling false s))
  | _, _ => None
  end.

(** A run: a sequence of steps, each possible. *)
Fixpoint run (acts : list action) (s : Loop) : option Loop :=
  match acts with
  | [] => Some s
  | a :: rest => s' ← step s a; run rest s'
  end.

(** ** Channels and the poller *)

Definition kNoneEvent : Z := 0.
Definition kReadEvent : Z := Z.lor 0x001 0x2000.
Definition kWriteEvent : Z := 0x004.

(** [index_] of a channel: [kNew], [kAdded], [kDeleted]. *)
Inductive index := kNew | kAdded | kDeleted.
#[export] Instance index_eq_dec : EqDecision index.
Proof. solve_decision. Defined.

Record Channel := mkChannel { ch_events : Z; ch_index : index }.
Definition new_channel : Channel := mkChannel kNoneEvent kNew.

(** The channels by file descriptor and the kernel's interest set. *)
Record Poller := mkPoller { p_channels : gmap Z Channel; p_epoll : gmap Z Z }.

Inductive ctl := EPOLL_CTL_ADD | EPOLL_CTL_MOD | EPOLL_CTL_DEL.

(** [epoll_ctl]: [None] is the exception of [Poller::update] (adding twice,
    changing what is not there); deleting what is not there is tolerated. *)
Definition update (op : ctl) (fd events : Z) (epoll : gmap Z Z) : option (gmap Z Z) :=
  match op, epoll !! fd with
  | EPOLL_CTL_ADD, None => Some (<[fd := events]> epoll)
  | EPOLL_CTL_MOD, Some _ => Some (<[fd := events]> epoll)
  | EPOLL_CTL_DEL, _ => Some (delete fd epoll)
  | _, _ => None
  end.

Definition isNoneEvent (c : Channel) : bool := (ch_events c =? kNoneEvent)%Z.
Definition isWriting (c : Channel) : bool := negb (Z.land (ch_events c) kWriteEvent =? 0)%Z.

Definition updateChannel (fd : Z) (p : Poller) : option Poller :=
  c ← p_channels p !! fd;
  match ch_index c with
  | kNew | kDeleted =>
      e ← update EPOLL_CTL_ADD fd (ch_events c) (p_epoll p);
      Some (mkPoller (<[fd := mkChannel (ch_events c) kAdded]> (p_channels p)) e)
  | kAdded =>
      if isNoneEvent c then
        e ← update EPOLL_CTL_DEL fd (ch_events c) (p_epoll p);
        Some (mkPoller (<[fd := mkChannel (ch_events c) kDeleted]> (p_channels p)) e)
      else
        e ← update EPOLL_CTL_MOD fd (ch_events c) (p_epoll p);
        Some (mkPoller (p_channels p) e)
  end.

Definition removeChannel (fd : Z) (p : Poller) : option Poller :=
  c ← p_channels p !! fd;
  e ← (if bool_decide (ch_index c = kAdded) then update EPOLL_CTL_DEL fd (ch_events c) (p_epoll p)
       else Some (p_epoll p));
  Some (mkPoller (<[fd := mkChannel (ch_events c) kNew]> (p_channels p)) e).

(** The mutators of [Channel]: change [events_], then [update()]. *)
Inductive channel_op :=
| enableReading | disableReading | enableWriting | disableWriting | disableAll | remove.

Definition new_events (o : channel_op) (e : Z) : Z :=
  match o with
  | enableReading => Z.lor e kReadEvent
  | disableReading => Z.land e (Z.lnot kReadEvent)
  | enableWriting => Z.lor e kWriteEvent
  | disableWriting => Z.land e (Z.lnot kWriteEvent)
  | disableAll => kNoneEvent
  | remove => e
  end.

(** [None] is an exception, a failed assertion of [remove], or no channel. *)
Definition channel_step (fd : Z) (o : channel_op) (p : Poller) : option Poller :=
  c ← p_channels p !! fd;
  match o with
  | remove => if isNoneEvent c then removeChannel fd p else None
  | _ => updateChannel fd (mkPoller (<[fd := mkChannel (new_events o (ch_events c)) (ch_index c)]> (p_channels p))
           (p_epoll p))
  end.

(** Which callbacks [handleEventWithGuard] calls, in order, for the [revents]
    that epoll reported. *)
Inductive callback := CloseCallback | ErrorCallback | ReadCallback | WriteCallback.
Definition has (revents mask : Z) : bool := negb (Z.land revents mask =? 0)%Z.
Definition EPOLLIN : Z := 0x001.
Definition EPOLLPRI : Z := 0x002.
Definition EPOLLOUT : Z := 0x004.
Definition EPOLLERR : Z := 0x008.
Definition EPOLLHUP : Z := 0x010.
Definition EPOLLRDHUP : Z := 0x2000.

Definition handleEventWithGuard (revents : Z) : list callback :=
  if has revents EPOLLHUP && negb (has revents EPOLLIN) then [CloseCallback]
  else (if has revents EPOLLERR then [ErrorCallback] else []) ++
       (if has revents (Z.lor EPOLLIN (Z.lor EPOLLPRI EPOLLRDHUP)) then [ReadCallback] else []) ++
       (if has revents EPOLLOUT then [WriteCallback] else []).

(** ** The invariant of the loop *)

Definition ids (l : list functor) : list nat := map f_id l.

(** Somebody has woken the loop, or is about to. *)
Definition signalled (s : Loop) : Prop := 0 < eventfd s + waking s.

Definition running (s : Loop) : list functor := match l_pc s with Running l => l | _ => [] end.

(** The functors of [pendingFunctors_] that only the timeout of [epoll_wait]
    may find: queued by the loop's own thread before [loop()]. *)
Definition all_early (s : Loop) : Prop := Forall (fun f => f_early f = true) (pendingFunctors_ s).

Record ok (s : Loop) : Prop := mkOk {
  ok_queue : executed s ++ ids (running s) ++ ids (pendingFunctors_ s) = queued s;
  ok_calling : callingPendingFunctors_ s = match l_pc s with Draining | Running _ => true | _ => false end;
  ok_wakeup : match l_pc s with
              | Dispatching _ | Draining => True
              | _ => all_early s \/ signalled s
              end;
  ok_quit : l_pc s = Polling -> quit_ s = true -> signalled s }.

Lemma fresh_ok : ok fresh.
Proof. split; try done. by left; apply Forall_nil_2. Qed.

Ltac fields := split; simpl; unfold running in *; simpl in *; try done.

(** Where the loop's own thread runs callbacks. *)
Definition own_pc (s : Loop) : Prop :=
  match l_pc s with Idle | Dispatching _ | Running _ => True | _ => False end.

Lemma own_request_pc s r : l_pc (own_request s r) = l_pc s.
Proof. destruct r; simpl; [|done]. by destruct (callingPendingFunctors_ s). Qed.

Lemma own_request_executed s r : executed (own_request s r) = executed s.
Proof. destruct r; simpl; [|done]. by destruct (callingPendingFunctors_ s). Qed.

Lemma own_request_ok s r : own_pc s -> ok s -> ok (own_request s r).
Proof.
  intros Hp [Hq Hc Hw Hquit]. unfold own_pc in Hp. destruct r as [id|]; simpl.
  - destruct (callingPendingFunctors_ s) eqn:Ec; fields.
    + rewrite <- Hq. unfold ids. by rewrite map_app, !app_assoc.
    + by rewrite Ec.
    + destruct (l_pc s); try done; right; unfold signalled; simpl; lia.
    + by intros Hpc; rewrite Hpc in Hp.
    + rewrite <- Hq. unfold ids. by rewrite map_app, !app_assoc.
    + by rewrite Ec.
    + destruct (l_pc s) eqn:Epc; try done.
      destruct Hw as [Hw|Hw]; [left|by right]. apply Forall_app. split; [exact Hw|]. by repeat constructor.
  - fields. by intros Hpc; rewrite Hpc in Hp.
Qed.

Lemma own_requests_ok rs s :
  own_pc s -> ok s ->
  ok (own_requests rs s) /\ l_pc (own_requests rs s) = l_pc s /\ executed (own_requests rs s) = executed s.
Proof.
  revert s. induction rs as [|r rs IH]; intros s Hp Hs; [done|]. simpl.
  destruct (IH (own_request s r)) as (Ho & Hpc & He).
  - unfold own_pc. by rewrite own_request_pc.
  - by apply own_request_ok.
  - by rewrite Hpc, He, own_request_pc, own_request_executed.
Qed.

(** Every step keeps the invariant, and only a functor that ran is added to the
    executed ones. *)
Lemma step_ok s a s' : ok s -> step s a = Some s' -> ok s'.
Proof.
  intros Hs. pose proof Hs as [Hq Hc Hw Hquit]. unfold running in Hq.
  destruct a as [id| | |rs| | |l|rs| | |rs|]; simpl.
  - intros [= <-]. fields.
    + rewrite <- Hq. unfold ids. by rewrite map_app, !app_assoc.
    + destruct (l_pc s); try done; right; unfold signalled; simpl; lia.
    + intros _ _. unfold signalled. simpl. lia.
  - intros [= <-]. fields.
    + destruct (l_pc s); try done; right; unfold signalled; simpl; lia.
    + intros _ _. unfold signalled. simpl. lia.
  - destruct (waking s) as [|n] eqn:Ew; [done|]. intros [= <-]. fields.
    + destruct (l_pc s); try done; (destruct Hw as [Hw|Hw]; [by left|right]); unfold signalled; simpl; lia.
    + intros _ _. unfold signalled. simpl. lia.
  - destruct (l_pc s) eqn:Epc; try done. intros [= <-]. apply own_requests_ok; [|done]. unfold own_pc. by rewrite Epc.
  - destruct (l_pc s) eqn:Epc; try done. intros [= <-]. by fields.
  - destruct (l_pc s) eqn:Epc; try done. intros [= <-]. by (destruct (quit_ s) eqn:Eq; fields; rewrite ?Eq).
  - destruct (l_pc s) eqn:Epc; try done. case_match; [done|]. intros [= <-]. by fields.
  - destruct (l_pc s) as [| | |[|[] l]| |] eqn:Epc; try done.
    + destruct rs; [|done]. intros [= <-]. by fields.
    + destruct (own_requests_ok rs s) as ([Hq' Hc' Hw' Hquit'] & Hpc & He); [by unfold own_pc; rewrite Epc|done|].
      intros [= <-]. unfold running in Hq'. rewrite Hpc in Hq', Hc', Hw'. rewrite Epc in Hq', Hc', Hw'. by fields.
  - destruct (l_pc s) as [| | |[|]| |] eqn:Epc; try done. intros [= <-]. by fields.
  - destruct (l_pc s) eqn:Epc; try done. intros [= <-]. fields.
    + by rewrite app_nil_r.
    + left. apply Forall_nil_2.
  - destruct (l_pc s) as [| | | | |[|f l]] eqn:Epc; try done.
    destruct (own_requests_ok rs s) as ([Hq' Hc' Hw' Hquit'] & Hpc & He); [by unfold own_pc; rewrite Epc|done|].
    intros [= <-]. unfold running in Hq'. rewrite Hpc in Hq', Hc', Hw'. rewrite Epc in Hq', Hc', Hw'. fields.
    rewrite <- Hq'. simpl. by rewrite <- !app_assoc.
  - destruct (l_pc s) as [| | | | |[|]] eqn:Epc; try done. intros [= <-]. by fields.
Qed.

Lemma run_invariant (I : Loop -> Prop) acts s s' :
  (forall s a s', I s -> step s a = Some s' -> I s') -> I s -> run acts s = Some s' -> I s'.
Proof.
  intros HI. revert s. induction acts as [|a acts IH]; intros s Hs; simpl; [by intros [= <-]|].
  destruct (step s a) as [s1|] eqn:E; [|done]. simpl. apply IH. eauto.
Qed.

(** C8: no wakeup is lost.  However the steps of the loop's thread and of other
    threads interleave, functors are run in the order they were queued, each at
    most once, and none is dropped; and when the loop waits in [epoll_wait]
    with its eventfd at zero and no thread about to wake it, no quit request is
    pending and every functor still in the queue was queued by the loop's own
    thread before it called [loop()]. *)
Theorem no_lost_wakeup acts s :
  run acts fresh = Some s ->
  executed s ++ ids (running s) ++ ids (pendingFunctors_ s) = queued s /\
  (l_pc s = Polling -> eventfd s = 0 -> waking s = 0 -> quit_ s = false /\ all_early s).
Proof.
  intros Hrun. pose proof (run_invariant ok acts _ _ step_ok fresh_ok Hrun) as [Hq _ Hw Hquit].
  split; [done|]. intros Hpc He Hk. rewrite Hpc in Hw.
  assert (~ signalled s) as Hn by (unfold signalled; lia).
  split; [|by destruct Hw]. destruct (quit_ s); [|done]. exfalso. by apply Hn, Hquit.
Qed.

(** ** Progress *)

(** The functors [x] are still ahead of the loop, or have run. *)
Definition served (x : list nat) (s : Loop) : Prop :=
  match l_pc s with
  | Polling | Dispatching _ | Draining => x ⊆ executed s ++ ids (pendingFunctors_ s)
  | Running l => x ⊆ executed s ++ ids l
  | Checking | Idle => x ⊆ executed s
  end.

Lemma own_requests_served rs s x :
  x ⊆ executed s ++ ids (pendingFunctors_ s) ->
  x ⊆ executed (own_requests rs s) ++ ids (pendingFunctors_ (own_requests rs s)).
Proof.
  revert s. induction rs as [|r rs IH]; intros s Hx; [done|]. apply (IH (own_request s r)).
  rewrite own_request_executed. destruct r as [id|]; simpl; [|done].
  destruct (callingPendingFunctors_ s); simpl; unfold ids; rewrite map_app, app_assoc; set_solver.
Qed.

Lemma step_served x s a s' : ok s /\ served x s -> step s a = Some s' -> ok s' /\ served x s'.
Proof.
  intros [Hs Hx] Hstep. split; [by eapply step_ok|]. revert Hstep. unfold served in *.
  destruct a as [id| | |rs| | |l|rs| | |rs|]; simpl.
  - intros [= <-]. simpl. destruct (l_pc s); try done; unfold ids in *; rewrite map_app; set_solver.
  - intros [= <-]. done.
  - destruct (waking s); [done|]. intros [= <-]. done.
  - destruct (l_pc s) eqn:Epc; try done. intros [= <-].
    destruct (own_requests_ok rs s) as (_ & -> & ->); [by unfold own_pc; rewrite Epc|done|]. by rewrite Epc.
  - destruct (l_pc s) eqn:Epc; try done. intros [= <-]. done.
  - destruct (l_pc s) eqn:Epc; try done. intros [= <-]. simpl. destruct (quit_ s); [done|set_solver].
  - destruct (l_pc s) eqn:Epc; try done. case_match; [done|]. intros [= <-]. done.
  - destruct (l_pc s) as [| | |[|[] l]| |] eqn:Epc; try done.
    + destruct rs; [|done]. intros [= <-]. done.
    + intros [= <-]. simpl. by apply own_requests_served.
  - destruct (l_pc s) as [| | |[|]| |] eqn:Epc; try done. intros [= <-]. done.
  - destruct (l_pc s) eqn:Epc; try done. intros [= <-]. done.
  - destruct (l_pc s) as [| | | | |[|f l]] eqn:Epc; try done.
    destruct (own_requests_ok rs s) as (_ & _ & He); [by unfold own_pc; rewrite Epc|done|].
    intros [= <-]. simpl. rewrite He. simpl in Hx. by rewrite <- app_assoc.
  - destruct (l_pc s) as [| | | | |[|]] eqn:Epc; try done. intros [= <-]. simpl in *.
    by rewrite app_nil_r in Hx.
Qed.

(** An iteration of the loop serves its queue.  From any reachable state in
    which the loop waits or dispatches, once it has come back to the test of
    its [while], every functor that was queued has run, whatever the other
    threads and the callbacks did in between. *)
Theorem iteration_serves before acts s s' :
  run before fresh = Some s ->
  (l_pc s = Polling \/ l_pc s = Draining \/ exists l, l_pc s = Dispatching l) ->
  run acts s = Some s' -> (l_pc s' = Checking \/ l_pc s' = Idle) ->
  ids (pendingFunctors_ s) ⊆ executed s'.
Proof.
  intros Hb Hpc Hrun Hpc'.
  pose proof (run_invariant ok before _ _ step_ok fresh_ok Hb) as Hok.
  assert (served (ids (pendingFunctors_ s)) s) as Hs.
  { unfold served. destruct Hpc as [->|[->|[l ->]]]; set_solver. }
  destruct (run_invariant _ acts _ _ (step_served _) (conj Hok Hs) Hrun) as [_ Hx].
  unfold served in Hx. by destruct Hpc' as [E|E]; rewrite E in Hx.
Qed.

(** [loop()] clears [quit_] when it starts, so a [quit()] that another thread
    completed before is lost: the loop ends up waiting, with nobody to wake it. *)
Theorem quit_before_loop_lost :
  exists s, run [ForeignQuit; ForeignWakeup; Enter; Check; PollReturns [Wakeup]; HandleEvent []; BeginFunctors;
                 Swap; EndFunctors; Check] fresh = Some s /\
    l_pc s = Polling /\ eventfd s = 0 /\ waking s = 0 /\ quit_ s = false.
Proof. eexists. split; [vm_compute; reflexivity|]. cbn. repeat split; reflexivity. Qed.

(** ** Registration *)

(** The kernel's interest in a channel is what its [index_] says. *)
Definition registered (c : Channel) (e : option Z) : Prop :=
  match ch_index c with
  | kAdded => e = Some (ch_events c)
  | _ => e = None /\ ch_events c = kNoneEvent
  end.

Definition poller_ok (p : Poller) : Prop :=
  forall fd, match p_channels p !! fd with
             | Some c => registered c (p_epoll p !! fd)
             | None => p_epoll p !! fd = None
             end.

(** A new channel for a descriptor that has none. *)
Definition create (fd : Z) (p : Poller) : Poller :=
  match p_channels p !! fd with
  | Some _ => p
  | None => mkPoller (<[fd := new_channel]> (p_channels p)) (p_epoll p)
  end.

Definition poller_step (p : Poller) (x : Z * option channel_op) : option Poller :=
  match x.2 with
  | None => Some (create x.1 p)
  | Some o => channel_step x.1 o p
  end.

Fixpoint poller_run (xs : list (Z * option channel_op)) (p : Poller) : option Poller :=
  match xs with
  | [] => Some p
  | x :: rest => p' ← poller_step p x; poller_run rest p'
  end.

Lemma poller_ok_set p fd c e :
  poller_ok p -> registered c (e !! fd) -> (forall fd', fd' <> fd -> e !! fd' = p_epoll p !! fd') ->
  poller_ok (mkPoller (<[fd := c]> (p_channels p)) e).
Proof.
  intros Hp Hc He fd'. simpl. destruct (decide (fd' = fd)) as [->|Hne].
  - by rewrite lookup_insert_eq.
  - rewrite lookup_insert_ne by done. rewrite He by done. apply Hp.
Qed.

(** [update()] of a channel whose events have just been changed. *)
Lemma update_channel_ok p fd c events :
  poller_ok p -> p_channels p !! fd = Some c ->
  exists p', updateChannel fd (mkPoller (<[fd := mkChannel events (ch_index c)]> (p_channels p)) (p_epoll p)) = Some p' /\
    poller_ok p'.
Proof.
  intros Hp Hc. pose proof (Hp fd) as Hr. rewrite Hc in Hr. unfold registered in Hr.
  unfold updateChannel. cbn [p_channels p_epoll]. rewrite lookup_insert_eq. simpl.
  assert (forall c' e, registered c' (e !! fd) -> (forall fd', fd' <> fd -> e !! fd' = p_epoll p !! fd') ->
    poller_ok (mkPoller (<[fd := c']> (<[fd := mkChannel events (ch_index c)]> (p_channels p))) e)) as Hset.
  { intros c' e H1 H2. rewrite insert_insert_eq. by apply poller_ok_set. }
  destruct (ch_index c) eqn:Ei; simpl.
  1,3: destruct Hr as [-> _]; simpl; eexists; split; [done|]; apply Hset; unfold registered; simpl;
    [by rewrite lookup_insert_eq|intros; by rewrite lookup_insert_ne].
  unfold isNoneEvent. simpl. destruct (Z.eqb_spec events kNoneEvent) as [->|Hne].
  - simpl. eexists. split; [done|]. apply Hset.
    + unfold registered. simpl. by rewrite lookup_delete_eq.
    + intros. by rewrite lookup_delete_ne.
  - rewrite Hr. simpl. eexists. split; [done|]. apply poller_ok_set; [done| |].
    + unfold registered. simpl. by rewrite lookup_insert_eq.
    + intros. by rewrite lookup_insert_ne.
Qed.

Lemma channel_step_ok p fd o :
  poller_ok p ->
  (exists p', channel_step fd o p = Some p' /\ poller_ok p') \/
  (channel_step fd o p = None /\
   (p_channels p !! fd = None \/ exists c, p_channels p !! fd = Some c /\ o = remove /\ ch_events c <> kNoneEvent)).
Proof.
  intros Hp. unfold channel_step. destruct (p_channels p !! fd) as [c|] eqn:Hc; [|right; by auto]. simpl.
  assert (o <> remove -> exists p', channel_step fd o p = Some p' /\ poller_ok p') as Hu.
  { intros Ho. unfold channel_step. rewrite Hc. simpl.
    destruct (update_channel_ok p fd c (new_events o (ch_events c)) Hp Hc) as (p' & E & Hp').
    exists p'. split; [|done]. by destruct o. }
  unfold channel_step in Hu. rewrite Hc in Hu. simpl in Hu. destruct o; try (left; by apply Hu).
  unfold isNoneEvent. destruct (Z.eqb_spec (ch_events c) kNoneEvent) as [He|He]; [|right; eauto 6].
  left. unfold removeChannel. rewrite Hc. simpl. pose proof (Hp fd) as Hr. rewrite Hc in Hr. unfold registered in Hr.
  destruct (ch_index c); simpl; (eexists; split; [done|]; apply poller_ok_set; [done| |]);
    unfold registered; simpl; try by destruct Hr.
  - by rewrite lookup_delete_eq.
  - intros. by rewrite lookup_delete_ne.
Qed.

Lemma poller_run_ok xs p p' : poller_ok p -> poller_run xs p = Some p' -> poller_ok p'.
Proof.
  revert p. induction xs as [|[fd [o|]] xs IH]; intros p Hp; simpl; [by intros [= <-]| |].
  - destruct (channel_step_ok p fd o Hp) as [(p1 & E & Hp1)|[E _]]; unfold poller_step; simpl; rewrite E; [|done].
    by apply IH.
  - apply IH. unfold create. pose proof (Hp fd) as Hr. destruct (p_channels p !! fd); [done|].
    by apply poller_ok_set.
Qed.

(** Epoll watches what the channels ask for.  After any sequence of
    channel operations, the kernel watches a descriptor exactly for the events
    of its channel while the channel is added, and not at all otherwise; a
    channel that wants events is added; and the next operation raises only for
    an unknown descriptor or when a channel that still wants events is removed. *)
Theorem interest_matches xs p :
  poller_run xs (mkPoller ∅ ∅) = Some p ->
  (forall fd c, p_channels p !! fd = Some c ->
     (ch_index c = kAdded -> p_epoll p !! fd = Some (ch_events c)) /\
     (ch_index c <> kAdded -> p_epoll p !! fd = None) /\
     (ch_events c <> kNoneEvent -> ch_index c = kAdded)) /\
  (forall fd o, channel_step fd o p = None <->
     p_channels p !! fd = None \/ exists c, p_channels p !! fd = Some c /\ o = remove /\ ch_events c <> kNoneEvent).
Proof.
  intros Hrun. apply poller_run_ok in Hrun as Hp; [|intros fd; simpl; by rewrite !lookup_empty]. split.
  - intros fd c Hc. pose proof (Hp fd) as Hr. rewrite Hc in Hr. unfold registered in Hr.
    destruct (ch_index c); [destruct Hr| |destruct Hr]; done.
  - intros fd o. split.
    + intros E. destruct (channel_step_ok p fd o Hp) as [(p' & E' & _)|[_ H']]; [congruence|done].
    + unfold channel_step. intros [->|(c & -> & -> & He)]; [done|]. simpl. unfold isNoneEvent.
      by apply Z.eqb_neq in He as ->.
Qed.
End EventLoop.
