(* ===== verification/Connection.v ===== *)
(** * A connection of the network library, [ChatRoom/src/minimuduo/net/TcpConnection.cpp]

    The state machine of one connection: its output buffer, the file frame that
    is being sent, the frames and texts that wait behind it, the TLS handshake
    and its blocked directions, half closing and closing.  Everything runs in
    the thread of the connection's loop; calls from other threads arrive as
    posted functors.

    The kernel, OpenSSL and the application are schedules: each call of
    [send], [SSL_write], [sendfile] and the like takes the next outcome, each
    call of a callback the next reaction of the application.  A theorem about
    every schedule is a theorem about every kernel and application.  Buffers
    are the byte queues that [Buffer] implements. *)
From S2P Require Import Prelude.

Module Connection.

(** ** Requests of the application *)

(** A call on the connection.  A completion callback is what the application
    does when it is called; [None] is an empty [std::function]. *)
Inductive request :=
| Send (message : string) (completion : option (list request))
| SendFileFrame (header path : string) (offset byteCount : N) (completion : option (list request))
| Shutdown
| ForceClose.
Abbreviation Completion := (option (list request)).

Record PendingFileSend := mkPendingFile {
  pf_header : string; pf_path : string; pf_offset : N; pf_remaining : N; pf_completion : Completion }.

Inductive State := kDisconnected | kConnecting | kConnected | kDisconnecting.
#[export] Instance State_eq_dec : EqDecision State.
Proof. solve_decision. Defined.

(** What a writing call of the kernel or of OpenSSL reports: it took that many
    bytes; [EAGAIN] or [SSL_ERROR_WANT_WRITE]; [SSL_ERROR_WANT_READ]; [EINTR];
    [EPIPE] or [ECONNRESET]; another error. *)
Inductive write_outcome := Took (n : nat) | WantWrite | WantRead | Interrupted | Broken | Failed.

(** What a reading call reports. *)
Inductive read_outcome :=
| Got (bytes : string) | ReadWantRead | ReadWantWrite | ReadEof | ReadInterrupted | ReadFailed.

Inductive accept_outcome := Accepted (pending : bool) | AcceptWantRead | AcceptWantWrite | AcceptClosed | AcceptFailed.

(** The socket: the bytes the kernel or OpenSSL has taken, in order, whether the
    writing side is gone, and the outcomes to come.  Once a write has failed
    with [EPIPE], or the writing side is shut down, every later write does. *)
Record Socket := mkSocket {
  wire : string;
  dead : bool;
  half_closed : bool;
  writes : list write_outcome;
  reads : list read_outcome;
  accepts : list accept_outcome }.

Definition set_wire (x : string) (r : Socket) : Socket :=
  mkSocket x (dead r) (half_closed r) (writes r) (reads r) (accepts r).
Definition set_dead (x : bool) (r : Socket) : Socket :=
  mkSocket (wire r) x (half_closed r) (writes r) (reads r) (accepts r).
Definition set_half_closed (x : bool) (r : Socket) : Socket :=
  mkSocket (wire r) (dead r) x (writes r) (reads r) (accepts r).
Definition set_writes (x : list write_outcome) (r : Socket) : Socket :=
  mkSocket (wire r) (dead r) (half_closed r) x (reads r) (accepts r).
Definition set_reads (x : list read_outcome) (r : Socket) : Socket :=
  mkSocket (wire r) (dead r) (half_closed r) (writes r) x (accepts r).
Definition set_accepts (x : list accept_outcome) (r : Socket) : Socket :=
  mkSocket (wire r) (dead r) (half_closed r) (writes r) (reads r) x.

(** What is sent: the argument of [send], and a file frame. *)
Inductive item := Text (message : string) | Frame (header path : string) (offset byteCount : N).

(** The frame that is asked for with [pending]. *)
Definition frame_of (pending : PendingFileSend) : item :=
  Frame (pf_header pending) (pf_path pending) (pf_offset pending) (pf_remaining pending).
Definition texts (l : list item) : list string :=
  omap (fun i => match i with Text m => Some m | _ => None end) l.
Definition is_frame (i : item) : bool := match i with Frame _ _ _ _ => true | Text _ => false end.
Definition frames (l : list item) : list item := filter (fun i => is_frame i = true) l.

(** A completion on its way with its text; [w_text] is the number of texts that
    were handed over before that text, for the statements only. *)
Record waiting := mkWaiting { w_completion : list request; w_text : nat }.

(** Two records are kept for the statements only: [asked] is what the application
    has handed over, in the order of its calls, written by [ask] before [send] and
    [sendFileFrame] see it; [items] is what has been put on the wire or into the
    output buffer, in that order. *)
Record Output := mkOutput {
  outputBuffer_ : string;
  pendingSendCompletions_ : list waiting;
  activeFileSend_ : option PendingFileSend;
  queuedFileFrames_ : list PendingFileSend;
  deferredSends_ : list (string * option waiting);
  items : list item;
  asked : list item }.

Definition set_outputBuffer_ (x : string) (r : Output) : Output :=
  mkOutput x (pendingSendCompletions_ r) (activeFileSend_ r) (queuedFileFrames_ r) (deferredSends_ r) (items r) (asked r).
Definition set_pendingSendCompletions_ (x : list waiting) (r : Output) : Output :=
  mkOutput (outputBuffer_ r) x (activeFileSend_ r) (queuedFileFrames_ r) (deferredSends_ r) (items r) (asked r).
Definition set_activeFileSend_ (x : option PendingFileSend) (r : Output) : Output :=
  mkOutput (outputBuffer_ r) (pendingSendCompletions_ r) x (queuedFileFrames_ r) (deferredSends_ r) (items r) (asked r).
Definition set_queuedFileFrames_ (x : list PendingFileSend) (r : Output) : Output :=
  mkOutput (outputBuffer_ r) (pendingSendCompletions_ r) (activeFileSend_ r) x (deferredSends_ r) (items r) (asked r).
Definition set_deferredSends_ (x : list (string * option waiting)) (r : Output) : Output :=
  mkOutput (outputBuffer_ r) (pendingSendCompletions_ r) (activeFileSend_ r) (queuedFileFrames_ r) x (items r) (asked r).
Definition set_items (x : list item) (r : Output) : Output :=
  mkOutput (outputBuffer_ r) (pendingSendCompletions_ r) (activeFileSend_ r) (queuedFileFrames_ r) (deferredSends_ r) x (asked r).
Definition set_asked (x : list item) (r : Output) : Output :=
  mkOutput (outputBuffer_ r) (pendingSendCompletions_ r) (activeFileSend_ r) (queuedFileFrames_ r) (deferredSends_ r) (items r) x.

(** What the application has been told. *)
Inductive notice := Up | Message | Down.

(** Functors posted to the loop. *)
Inductive job := Complete (k : waiting) | WriteComplete | ForceCloseInLoop.

(** The next reaction of the application to a callback: how much of the input
    it takes, and its calls. *)
Record reaction := mkReaction { re_retrieve : nat; re_requests : list request }.

Record Tcp := mkTcp {
  state_ : State;
  tlsEnabled : bool;
  zeroCopy : bool;
  tlsHandshakeComplete_ : bool;
  applicationEstablished_ : bool;
  tlsWriteBlockedOnRead_ : bool;
  tlsReadBlockedOnWrite_ : bool;
  reading : bool;
  writing : bool;
  inputBuffer_ : string;
  output : Output;
  socket : Socket;
  app : list reaction;
  told : list notice;
  posted : list job }.

Definition set_state_ (x : State) (r : Tcp) : Tcp :=
  mkTcp x (tlsEnabled r) (zeroCopy r) (tlsHandshakeComplete_ r) (applicationEstablished_ r)
    (tlsWriteBlockedOnRead_ r) (tlsReadBlockedOnWrite_ r) (reading r) (writing r) (inputBuffer_ r)
    (output r) (socket r) (app r) (told r) (posted r).
Definition set_tlsHandshakeComplete_ (x : bool) (r : Tcp) : Tcp :=
  mkTcp (state_ r) (tlsEnabled r) (zeroCopy r) x (applicationEstablished_ r)
    (tlsWriteBlockedOnRead_ r) (tlsReadBlockedOnWrite_ r) (reading r) (writing r) (inputBuffer_ r)
    (output r) (socket r) (app r) (told r) (posted r).
Definition set_applicationEstablished_ (x : bool) (r : Tcp) : Tcp :=
  mkTcp (state_ r) (tlsEnabled r) (zeroCopy r) (tlsHandshakeComplete_ r) x
    (tlsWriteBlockedOnRead_ r) (tlsReadBlockedOnWrite_ r) (reading r) (writing r) (inputBuffer_ r)
    (output r) (socket r) (app r) (told r) (posted r).
Definition set_tlsWriteBlockedOnRead_ (x : bool) (r : Tcp) : Tcp :=
  mkTcp (state_ r) (tlsEnabled r) (zeroCopy r) (tlsHandshakeComplete_ r)
    (applicationEstablished_ r) x (tlsReadBlockedOnWrite_ r) (reading r) (writing r)
    (inputBuffer_ r) (output r) (socket r) (app r) (told r) (posted r).
Definition set_tlsReadBlockedOnWrite_ (x : bool) (r : Tcp) : Tcp :=
  mkTcp (state_ r) (tlsEnabled r) (zeroCopy r) (tlsHandshakeComplete_ r)
    (applicationEstablished_ r) (tlsWriteBlockedOnRead_ r) x (reading r) (writing r)
    (inputBuffer_ r) (output r) (socket r) (app r) (told r) (posted r).
Definition set_reading (x : bool) (r : Tcp) : Tcp :=
  mkTcp (state_ r) (tlsEnabled r) (zeroCopy r) (tlsHandshakeComplete_ r)
    (applicationEstablished_ r) (tlsWriteBlockedOnRead_ r) (tlsReadBlockedOnWrite_ r) x
    (writing r) (inputBuffer_ r) (output r) (socket r) (app r) (told r) (posted r).
Definition set_writing (x : bool) (r : Tcp) : Tcp :=
  mkTcp (state_ r) (tlsEnabled r) (zeroCopy r) (tlsHandshakeComplete_ r)
    (applicationEstablished_ r) (tlsWriteBlockedOnRead_ r) (tlsReadBlockedOnWrite_ r) (reading r)
    x (inputBuffer_ r) (output r) (socket r) (app r) (told r) (posted r).
Definition set_inputBuffer_ (x : string) (r : Tcp) : Tcp :=
  mkTcp (state_ r) (tlsEnabled r) (zeroCopy r) (tlsHandshakeComplete_ r)
    (applicationEstablished_ r) (tlsWriteBlockedOnRead_ r) (tlsReadBlockedOnWrite_ r) (reading r)
    (writing r) x (output r) (socket r) (app r) (told r) (posted r).
Definition set_output (x : Output) (r : Tcp) : Tcp :=
  mkTcp (state_ r) (tlsEnabled r) (zeroCopy r) (tlsHandshakeComplete_ r)
    (applicationEstablished_ r) (tlsWriteBlockedOnRead_ r) (tlsReadBlockedOnWrite_ r) (reading r)
    (writing r) (inputBuffer_ r) x (socket r) (app r) (told r) (posted r).
Definition set_socket (x : Socket) (r : Tcp) : Tcp :=
  mkTcp (state_ r) (tlsEnabled r) (zeroCopy r) (tlsHandshakeComplete_ r)
    (applicationEstablished_ r) (tlsWriteBlockedOnRead_ r) (tlsReadBlockedOnWrite_ r) (reading r)
    (writing r) (inputBuffer_ r) (output r) x (app r) (told r) (posted r).
Definition set_app (x : list reaction) (r : Tcp) : Tcp :=
  mkTcp (state_ r) (tlsEnabled r) (zeroCopy r) (tlsHandshakeComplete_ r)
    (applicationEstablished_ r) (tlsWriteBlockedOnRead_ r) (tlsReadBlockedOnWrite_ r) (reading r)
    (writing r) (inputBuffer_ r) (output r) (socket r) x (told r) (posted r).
Definition set_told (x : list notice) (r : Tcp) : Tcp :=
  mkTcp (state_ r) (tlsEnabled r) (zeroCopy r) (tlsHandshakeComplete_ r)
    (applicationEstablished_ r) (tlsWriteBlockedOnRead_ r) (tlsReadBlockedOnWrite_ r) (reading r)
    (writing r) (inputBuffer_ r) (output r) (socket r) (app r) x (posted r).
Definition set_posted (x : list job) (r : Tcp) : Tcp :=
  mkTcp (state_ r) (tlsEnabled r) (zeroCopy r) (tlsHandshakeComplete_ r)
    (applicationEstablished_ r) (tlsWriteBlockedOnRead_ r) (tlsReadBlockedOnWrite_ r) (reading r)
    (writing r) (inputBuffer_ r) (output r) (socket r) (app r) (told r) x.

(** ** Small steps *)

Definition on_output (f : Output -> Output) (c : Tcp) : Tcp := set_output (f (output c)) c.
Definition on_socket (f : Socket -> Socket) (c : Tcp) : Tcp := set_socket (f (socket c)) c.

Definition new_connection (tls zero_copy : bool) (s : Socket) (reactions : list reaction) : Tcp :=
  mkTcp kConnecting tls zero_copy false false false false false false "" (mkOutput "" [] None [] [] [] [])
    s reactions [] [].

Definition is_state (s : State) (c : Tcp) : bool := bool_decide (state_ c = s).
Definition readable (c : Tcp) : bool := negb (is_empty (outputBuffer_ (output c))).
Definition active (c : Tcp) : bool := bool_decide (is_Some (activeFileSend_ (output c))).

Definition disableAll (c : Tcp) : Tcp := set_reading false (set_writing false c).
Definition post (j : job) (c : Tcp) : Tcp := set_posted (posted c ++ [j]) c.
Definition tell (n : notice) (c : Tcp) : Tcp := set_told (told c ++ [n]) c.

(** The next outcome of a writing call; the end of the schedule is a full
    socket. *)
Definition next_write (c : Tcp) : write_outcome * Tcp :=
  if dead (socket c) then (Broken, c)
  else match writes (socket c) with
       | [] => (WantWrite, c)
       | Broken :: rest => (Broken, on_socket (fun s => set_dead true (set_writes rest s)) c)
       | o :: rest => (o, on_socket (set_writes rest) c)
       end.
Definition next_read (c : Tcp) : read_outcome * Tcp :=
  match reads (socket c) with
  | [] => (ReadWantRead, c)
  | o :: rest => (o, on_socket (set_reads rest) c)
  end.
Definition next_accept (c : Tcp) : accept_outcome * Tcp :=
  match accepts (socket c) with
  | [] => (AcceptWantRead, c)
  | o :: rest => (o, on_socket (set_accepts rest) c)
  end.

(** The kernel takes bytes. *)
Definition put (bytes : string) (c : Tcp) : Tcp := on_socket (fun s => set_wire (wire s +:+ bytes) s) c.
Definition append_output (data : string) : Tcp -> Tcp :=
  on_output (fun o => set_outputBuffer_ (outputBuffer_ o +:+ data) o).
Definition retrieve_output (n : nat) : Tcp -> Tcp :=
  on_output (fun o => set_outputBuffer_ (str_drop n (outputBuffer_ o)) o).
Definition record_item (i : item) : Tcp -> Tcp := on_output (fun o => set_items (items o ++ [i]) o).

(** A call hands something over, to a connection that takes it. *)
Definition ask (taken : bool) (i : item) (c : Tcp) : Tcp :=
  if taken then on_output (fun o => set_asked (asked o ++ [i]) o) c else c.
(** The completion of the text that is handed over next. *)
Definition number (completion : Completion) (c : Tcp) : option waiting :=
  (fun l => mkWaiting l (length (texts (asked (output c))))) <$> completion.

(** [pendingSendCompletions_.push_back], when there is a completion. *)
Definition push_completion (k : option waiting) (c : Tcp) : Tcp :=
  match k with
  | None => c
  | Some k => on_output (fun o => set_pendingSendCompletions_ (pendingSendCompletions_ o ++ [k]) o) c
  end.

(** ** Closing *)

Definition handleClose (c : Tcp) : Tcp :=
  if is_state kDisconnected c then c
  else
    let c := disableAll (set_state_ kDisconnected c) in
    if applicationEstablished_ c then tell Down c else c.

Definition shutdownInLoop (c : Tcp) : Tcp :=
  if writing c || readable c then c
  else on_socket (fun s => set_dead true (set_half_closed true s)) c.

Definition shutdown (c : Tcp) : Tcp :=
  if is_state kConnected c then shutdownInLoop (set_state_ kDisconnecting c) else c.

Definition forceClose (c : Tcp) : Tcp :=
  if negb (is_state kConnected c) && negb (is_state kDisconnecting c) then c
  else post ForceCloseInLoop (set_state_ kDisconnecting c).

Definition forceCloseInLoop (c : Tcp) : Tcp :=
  if is_state kConnected c || is_state kDisconnecting c then handleClose c else c.

(** ** The output buffer *)

Definition finishOutputCompletions (c : Tcp) : Tcp :=
  let c := post WriteComplete c in
  let completions := pendingSendCompletions_ (output c) in
  let c := on_output (set_pendingSendCompletions_ []) c in
  foldl (fun c k => post (Complete k) c) c completions.

(** The loop of [flushTlsOutput]: whether it ran out of output.  A round takes
    an outcome from the schedule or stops. *)
Fixpoint flush_loop (fuel : nat) (c : Tcp) : Tcp * bool :=
  match fuel with
  | 0 => (c, false)
  | S fuel =>
      if negb (readable c) then (c, true)
      else
        let r := next_write c in
        let c := r.2 in
        match r.1 with
        | Took n =>
            let result := n `min` String.length (outputBuffer_ (output c)) in
            if result =? 0 then (handleClose c, false)
            else flush_loop fuel (retrieve_output result (put (str_take result (outputBuffer_ (output c))) c))
        | WantWrite => (set_writing true c, false)
        | WantRead => (set_reading true (set_writing false (set_tlsWriteBlockedOnRead_ true c)), false)
        | Interrupted => flush_loop fuel c
        | Broken | Failed => (handleClose c, false)
        end
  end.

Definition write_fuel (c : Tcp) : nat := S (length (writes (socket c))).

Definition flushTlsOutput (c : Tcp) : Tcp :=
  if negb (tlsHandshakeComplete_ c) || negb (tlsEnabled c) || is_state kDisconnected c then c
  else
    let r := flush_loop (write_fuel c) c in
    let c := r.1 in
    if negb r.2 then c
    else
      let c := set_tlsWriteBlockedOnRead_ false c in
      let c := if writing c && negb (tlsReadBlockedOnWrite_ c) then set_writing false c else c in
      let c := finishOutputCompletions c in
      if is_state kDisconnecting c then shutdownInLoop c else c.

Definition handlePlainWrite (c : Tcp) : Tcp :=
  if negb (writing c) then c
  else
    let r := next_write c in
    let c := r.2 in
    match r.1 with
    | Took n =>
        let bytesWritten := n `min` String.length (outputBuffer_ (output c)) in
        if bytesWritten =? 0 then c
        else
          let c := retrieve_output bytesWritten (put (str_take bytesWritten (outputBuffer_ (output c))) c) in
          if readable c then c
          else
            let c := finishOutputCompletions (set_writing false c) in
            if is_state kDisconnecting c then shutdownInLoop c else c
    | _ => c
    end.

(** The two kinds of connection, in [sendInLoop] after the test of
    [activeFileSend_]. *)
Definition send_tls (message : string) (completion : option waiting) (c : Tcp) : Tcp :=
  let c := push_completion completion (append_output message c) in
  if tlsHandshakeComplete_ c then flushTlsOutput c else c.

(** The direct [send] of a plain connection: how many bytes went out, [None] for
    an error, and [faultError]. *)
Definition send_direct (message : string) (c : Tcp) : (option nat * bool) * Tcp :=
  let r := next_write c in
  match r.1 with
  | Took n =>
      let bytesWritten := n `min` String.length message in
      ((Some bytesWritten, false), put (str_take bytesWritten message) r.2)
  | Broken => ((None, true), r.2)
  | _ => ((None, false), r.2)
  end.

Definition send_plain (message : string) (completion : option waiting) (c : Tcp) : Tcp :=
  let r := if negb (writing c) && negb (readable c) then send_direct message c else ((None, false), c) in
  let bytesWritten := default 0 r.1.1 in
  let faultError := r.1.2 in
  let c := r.2 in
  let remaining := String.length message - bytesWritten in
  if (remaining =? 0) && bool_decide (is_Some r.1.1) then
    let c := post WriteComplete c in
    match completion with Some k => post (Complete k) c | None => c end
  else if negb faultError && negb (remaining =? 0) then
    let c := push_completion completion (append_output (str_drop bytesWritten message) c) in
    if writing c then c else set_writing true c
  else c.

(** [sendInLoop] without and with its record in [items]; a completion comes with
    the number of its text. *)
Definition send_now (message : string) (completion : option waiting) (c : Tcp) : Tcp :=
  if tlsEnabled c then send_tls message completion c else send_plain message completion c.

Definition sendInLoop (message : string) (completion : option waiting) (c : Tcp) : Tcp :=
  if is_state kDisconnected c then c
  else if active c
  then on_output (fun o => set_deferredSends_ (deferredSends_ o ++ [(message, completion)]) o) c
  else send_now message completion (record_item (Text message) c).

Definition send (message : string) (completion : option waiting) (c : Tcp) : Tcp :=
  if is_state kConnected c then sendInLoop message completion c else c.

(** ** File frames *)

Section Files.
(** The content of the files that can be opened. *)
Variable files : string -> option string.

Definition slice (path : string) (offset count : N) : string :=
  substr (N.to_nat offset) (N.to_nat count) (default "" (files path)).

Definition kSendfileRequest : N := 1024 * 1024 * 1024.
Definition kFileChunk : N := 16 * 1024.

(** The active frame moves on by [sent]. *)
Definition advance (sent : nat) (c : Tcp) : Tcp :=
  on_output (fun o => set_activeFileSend_
    ((fun p => mkPendingFile (pf_header p) (pf_path p) (pf_offset p + N.of_nat sent)
                 (pf_remaining p - N.of_nat sent) (pf_completion p)) <$> activeFileSend_ o) o) c.

(** The loop of [flushFileSend]: whether the frame is complete. *)
Fixpoint file_loop (fuel : nat) (c : Tcp) : Tcp * bool :=
  match fuel, activeFileSend_ (output c) with
  | S fuel, Some file =>
      if (pf_remaining file =? 0)%N then (c, true)
      else if tlsEnabled c && negb (tlsHandshakeComplete_ c) then (c, false)
      else
        let whole_file := negb (tlsEnabled c) || zeroCopy c in
        let request := N.min (pf_remaining file) (if whole_file then kSendfileRequest else kFileChunk) in
        let chunk := slice (pf_path file) (pf_offset file) request in
        if negb whole_file && is_empty chunk then (handleClose c, false)   (* pread *)
        else
          let r := next_write c in
          let c := r.2 in
          match r.1 with
          | Took n =>
              let sent := n `min` String.length chunk in
              if sent =? 0 then (handleClose c, false)
              else file_loop fuel (advance sent (put (str_take sent chunk) c))
          | WantWrite => (set_writing true c, false)
          | WantRead =>
              if tlsEnabled c then (set_reading true (set_tlsWriteBlockedOnRead_ true c), false)
              else (handleClose c, false)
          | Interrupted => if tlsEnabled c then (handleClose c, false) else file_loop fuel c
          | Broken | Failed => (handleClose c, false)
          end
  | _, _ => (c, false)
  end.

(** What follows is recursive: the completion of a frame is called in the
    loop's thread and may start the next frame at once.  [start] is
    [startFileFrame]. *)
Section Frames.
Variable start : PendingFileSend -> Tcp -> Tcp.

Definition sendFileFrameInLoop (pending : PendingFileSend) (c : Tcp) : Tcp :=
  if is_state kDisconnected c then c
  else if active c
  then on_output (fun o => set_queuedFileFrames_ (queuedFileFrames_ o ++ [pending]) o) c
  else start pending c.

Definition sendFileFrame (pending : PendingFileSend) (c : Tcp) : Tcp :=
  if is_state kConnected c then sendFileFrameInLoop pending c else c.

(** A call of the application in the loop's thread. *)
Definition perform (r : request) (c : Tcp) : Tcp :=
  match r with
  | Send message completion => send message (number completion c) (ask (is_state kConnected c) (Text message) c)
  | SendFileFrame header path offset count completion =>
      let pending := mkPendingFile header path offset count completion in
      sendFileFrame pending (ask (is_state kConnected c) (frame_of pending) c)
  | Shutdown => shutdown c
  | ForceClose => forceClose c
  end.

Definition performs (l : list request) (c : Tcp) : Tcp := foldl (fun c r => perform r c) c l.

Definition call_completion (k : Completion) (c : Tcp) : Tcp :=
  match k with Some l => performs l c | None => c end.

(** No text is deferred and no frame starts while this loop runs, so it sends
    what was deferred before it. *)
Definition drainDeferredSends (c : Tcp) : Tcp :=
  let deferred := deferredSends_ (output c) in
  let c := on_output (set_deferredSends_ []) c in
  foldl (fun c x => sendInLoop x.1 x.2 c) c deferred.

Definition startNextQueuedFileFrame (c : Tcp) : Tcp :=
  if active c || is_state kDisconnected c then c
  else
    match queuedFileFrames_ (output c) with
    | [] => c
    | pending :: rest => start pending (on_output (set_queuedFileFrames_ rest) c)
    end.

Definition finishActiveFileSend (c : Tcp) : Tcp :=
  match activeFileSend_ (output c) with
  | None => c
  | Some file =>
      let c := on_output (set_activeFileSend_ None) c in
      let c := drainDeferredSends c in
      let c := call_completion (pf_completion file) c in
      let c := if active c then c else startNextQueuedFileFrame c in
      if negb (active c) && writing c && negb (readable c) then set_writing false c else c
  end.

Definition flushFileSend (c : Tcp) : Tcp :=
  if negb (active c) || is_state kDisconnected c then c
  else
    let c := if readable c then (if tlsEnabled c then flushTlsOutput c else handlePlainWrite c) else c in
    if is_state kDisconnected c || readable c then c
    else
      let r := file_loop (write_fuel c) c in
      if r.2 then finishActiveFileSend r.1 else r.1.
End Frames.

(** Each level of recursion starts a frame that was not started before; [fuel]
    bounds how many. *)
Fixpoint startFileFrame (fuel : nat) (pending : PendingFileSend) (c : Tcp) : Tcp :=
  match fuel with
  | 0 => c
  | S fuel =>
      if is_state kDisconnected c then c
      else
        match files (pf_path pending) with
        | None => forceClose (call_completion (startFileFrame fuel) (pf_completion pending) c)
        | Some _ =>
            let c := send_now (pf_header pending) None (record_item (frame_of pending) c) in
            flushFileSend (startFileFrame fuel) (on_output (set_activeFileSend_ (Some pending)) c)
        end
  end.

(** The frames a request may start, those of its completion included. *)
Fixpoint frames_of (r : request) : nat :=
  match r with
  | Send _ completion =>
      match completion with Some l => sum_list (map frames_of l) | None => 0 end
  | SendFileFrame _ _ _ _ completion =>
      S (match completion with Some l => sum_list (map frames_of l) | None => 0 end)
  | _ => 0
  end.
Definition frames_in (l : list request) : nat := sum_list (map frames_of l).
Definition frames_after (k : Completion) : nat := match k with Some l => frames_in l | None => 0 end.

(** The frames a connection may still start: behind the active frame and in the
    queue. *)
Definition frames_left (c : Tcp) : nat :=
  match activeFileSend_ (output c) with Some p => frames_after (pf_completion p) | None => 0 end +
  sum_list (map (fun p => S (frames_after (pf_completion p))) (queuedFileFrames_ (output c))).

Definition run_requests (l : list request) (c : Tcp) : Tcp :=
  performs (startFileFrame (frames_in l + frames_left c)) l c.

(** The application's reaction to a callback. *)
Definition react (c : Tcp) : Tcp :=
  match app c with
  | [] => c
  | r :: rest =>
      let c := set_inputBuffer_ (str_drop (re_retrieve r) (inputBuffer_ c)) (set_app rest c) in
      run_requests (re_requests r) c
  end.

Definition flush (c : Tcp) : Tcp :=
  let start := startFileFrame (frames_left c) in
  if active c then flushFileSend start c else if tlsEnabled c then flushTlsOutput c else handlePlainWrite c.

(** ** Reading and the handshake *)

Definition notifyApplicationEstablished (c : Tcp) : Tcp :=
  if applicationEstablished_ c then c else react (tell Up (set_applicationEstablished_ true c)).

Definition call_message (c : Tcp) : Tcp := react (tell Message c).

Definition handlePlainRead (c : Tcp) : Tcp :=
  let r := next_read c in
  let c := r.2 in
  match r.1 with
  | Got bytes =>
      if is_empty bytes then handleClose c
      else call_message (set_inputBuffer_ (inputBuffer_ c +:+ bytes) c)
  | ReadEof | ReadFailed => handleClose c
  | _ => c
  end.

(** The loop of [handleTlsRead]: whether it goes on to the callback, and whether
    application data has arrived. *)
Fixpoint read_loop (fuel : nat) (received : bool) (c : Tcp) : Tcp * (bool * bool) :=
  match fuel with
  | 0 => (c, (true, received))
  | S fuel =>
      let r := next_read c in
      let c := r.2 in
      match r.1 with
      | Got bytes =>
          if is_empty bytes then (handleClose c, (false, received))
          else read_loop fuel true (set_inputBuffer_ (inputBuffer_ c +:+ bytes) c)
      | ReadWantRead => (c, (true, received))
      | ReadWantWrite => (set_writing true (set_tlsReadBlockedOnWrite_ true c), (true, received))
      | ReadInterrupted => read_loop fuel received c
      | ReadEof | ReadFailed => (handleClose c, (false, received))
      end
  end.

Definition handleTlsRead (c : Tcp) : Tcp :=
  if negb (tlsHandshakeComplete_ c) || negb (tlsEnabled c) then c
  else
    let r := read_loop (S (length (reads (socket c)))) false c in
    let c := r.1 in
    if r.2.1 && r.2.2 && is_state kConnected c then call_message c else c.

(** Writing is switched off when there is nothing to write. *)
Definition stopIdleWriting (c : Tcp) : Tcp :=
  if writing c && negb (readable c) then set_writing false c else c.

(** [driveTlsHandshake] once [SSL_accept] has returned 1; [pending] is
    [SSL_pending]. *)
Definition handshakeAccepted (pending : bool) (c : Tcp) : Tcp :=
  let c := set_tlsReadBlockedOnWrite_ false (set_tlsWriteBlockedOnRead_ false (set_tlsHandshakeComplete_ true c)) in
  let c := notifyApplicationEstablished (stopIdleWriting c) in
  let c := if readable c then flushTlsOutput c else c in
  if pending && is_state kConnected c then handleTlsRead c else c.

Definition driveTlsHandshake (c : Tcp) : Tcp :=
  if negb (tlsEnabled c) || tlsHandshakeComplete_ c || is_state kDisconnected c then c
  else
    let r := next_accept c in
    let c := r.2 in
    match r.1 with
    | Accepted pending => handshakeAccepted pending c
    | AcceptWantRead => stopIdleWriting (set_reading true c)
    | AcceptWantWrite => set_writing true c
    | AcceptClosed | AcceptFailed => handleClose c
    end.

Definition handleRead (c : Tcp) : Tcp :=
  if tlsEnabled c then
    if negb (tlsHandshakeComplete_ c) then driveTlsHandshake c
    else
      let c := handleTlsRead c in
      if tlsWriteBlockedOnRead_ c && is_state kConnected c then flush (set_tlsWriteBlockedOnRead_ false c) else c
  else handlePlainRead c.

Definition handleWrite (c : Tcp) : Tcp :=
  if tlsEnabled c && negb (tlsHandshakeComplete_ c) then driveTlsHandshake c
  else if tlsEnabled c && tlsReadBlockedOnWrite_ c then
    let c := handleTlsRead (set_tlsReadBlockedOnWrite_ false c) in
    if negb (is_state kConnected c) then c else flush c
  else flush c.

(** ** Life of the connection *)

Definition connectEstablished (c : Tcp) : Tcp :=
  let c := set_reading true (set_state_ kConnected c) in
  if tlsEnabled c then driveTlsHandshake c else notifyApplicationEstablished c.

Definition connectDestroyed (c : Tcp) : Tcp :=
  if is_state kConnected c || is_state kDisconnecting c then
    let c := disableAll (set_state_ kDisconnected c) in
    if applicationEstablished_ c then tell Down c else c
  else c.

Definition run_job (j : job) (c : Tcp) : Tcp :=
  match j with
  | Complete k => run_requests (w_completion k) c
  | WriteComplete => c   (* the program sets no write-complete callback *)
  | ForceCloseInLoop => forceCloseInLoop c
  end.

(** The events of the loop's thread: epoll reports, functors posted by the
    connection itself, and calls of other threads, which test the state in
    their own thread and post the rest.  The application knows a connection
    from its connection callback on, so its calls come after that. *)
Inductive event :=
| Readable | Writable | Hangup
| RunJob
| Posted (message : string) (completion : Completion)
| PostedFile (pending : PendingFileSend)
| Requests (l : list request)
| Destroy.

Definition step (e : event) (c : Tcp) : Tcp :=
  match e with
  | Readable => if reading c then handleRead c else c
  | Writable => handleWrite c
  | Hangup => handleClose c
  | RunJob =>
      match posted c with
      | [] => c
      | j :: rest => run_job j (set_posted rest c)
      end
  | Posted message completion =>
      if applicationEstablished_ c
      then sendInLoop message (number completion c) (ask (negb (is_state kDisconnected c)) (Text message) c)
      else c
  | PostedFile pending =>
      if applicationEstablished_ c
      then sendFileFrameInLoop (startFileFrame (S (frames_after (pf_completion pending) + frames_left c))) pending
             (ask (negb (is_state kDisconnected c)) (frame_of pending) c)
      else c
  | Requests l => if applicationEstablished_ c then run_requests l c else c
  | Destroy => connectDestroyed c
  end.

(** A connection from its establishment on. *)
Definition run (tls zero_copy : bool) (s : Socket) (reactions : list reaction) (es : list event) : Tcp :=
  foldl (fun c e => step e c) (connectEstablished (new_connection tls zero_copy s reactions)) es.
End Files.
End Connection.
