(* ===== verification/ConnectionProps.v ===== *)
(** * The byte stream of a connection

    Whatever the kernel, OpenSSL, other threads and the application do: what is
    on the wire, in the output buffer and in the active frame is what was put
    there, and the application is told of the connection's life in order.  The
    invariant here is what [ConnectionOrder] and [ConnectionLive] build on. *)
From S2P Require Import Prelude Connection.
Import Connection.

Module ConnectionProps.

Section Files.
Variable files : string -> option string.

(** ** The stream invariant *)

Definition item_bytes (i : item) : string :=
  match i with
  | Text m => m
  | Frame header path offset count => header +:+ slice files path offset count
  end.
Definition stream (l : list item) : string := foldr (fun i s => item_bytes i +:+ s) "" l.

Definition rest_of (o : option PendingFileSend) : string :=
  match o with Some p => slice files (pf_path p) (pf_offset p) (pf_remaining p) | None => "" end.

Definition is_prefix (s t : string) : Prop := exists r, t = s +:+ r.

(** What is on the wire, in the buffer, behind it in the active frame and, after
    that, still to be handed over ([tail]) is what was recorded. *)
Record streaming (tail : string) (o : Output) (s : Socket) : Prop := mkStreaming {
  st_prefix : is_prefix (wire s) (stream (items o));
  st_alive : dead s = false ->
    wire s +:+ outputBuffer_ o +:+ rest_of (activeFileSend_ o) +:+ tail = stream (items o) }.

(** What the application has been told. *)
Definition notices (established : bool) (s : State) (l : list notice) : Prop :=
  if established
  then exists n, l = Up :: repeat Message n ++ (if bool_decide (s = kDisconnected) then [Down] else [])
  else l = [].

(** The fields that only the handshake changes. *)
Record fixed := mkFixed { x_tls : bool; x_zero_copy : bool; x_handshake : bool; x_established : bool }.
Definition fixed_of (c : Tcp) : fixed :=
  mkFixed (tlsEnabled c) (zeroCopy c) (tlsHandshakeComplete_ c) (applicationEstablished_ c).

Record safe (x : fixed) (tail : string) (c : Tcp) : Prop := mkSafe {
  sf_fixed : fixed_of c = x;
  sf_stream : streaming tail (output c) (socket c);
  sf_told : notices (x_established x) (state_ c) (told c);
  sf_closed : state_ c = kDisconnected -> reading c = false }.

(** ** Lemmas on strings *)

Lemma stream_app l i : stream (l ++ [i]) = stream l +:+ item_bytes i.
Proof.
  induction l as [|j l IH]; simpl; [by rewrite str_app_nil_r|]. by rewrite IH, str_app_assoc.
Qed.

Lemma str_length_zero s : String.length s = 0 -> s = "".
Proof. by destruct s. Qed.

(** A piece of the slice and the slice after it. *)
Lemma slice_split path offset count (n : nat) :
  (N.of_nat n <= count)%N -> n <= String.length (slice files path offset count) ->
  slice files path offset count =
    str_take n (slice files path offset count) +:+ slice files path (offset + N.of_nat n) (count - N.of_nat n).
Proof.
  intros Hn Hl. unfold slice, substr in *.
  set (d := str_drop (N.to_nat offset) (default "" (files path))).
  assert (n <= N.to_nat count) as Hle by lia.
  rewrite str_take_take, Nat.min_l by done.
  rewrite N2Nat.inj_add, Nat2N.id.
  rewrite <- str_drop_drop. fold d. rewrite str_take_drop_take. f_equal.
  rewrite N2Nat.inj_sub, Nat2N.id. lia.
Qed.

Lemma slice_take path offset m count :
  (m <= count)%N -> slice files path offset m = str_take (N.to_nat m) (slice files path offset count).
Proof. intros Hm. unfold slice, substr. rewrite str_take_take. f_equal. lia. Qed.

Lemma slice_zero path offset : slice files path offset 0 = "".
Proof. unfold slice, substr. apply str_take_0. Qed.

(** ** The steps of the socket keep the stream *)

(** The kernel takes a prefix of the output buffer. *)
Lemma streaming_put_output tail o s n :
  dead s = false -> streaming tail o s ->
  streaming tail (set_outputBuffer_ (str_drop n (outputBuffer_ o)) o)
    (set_wire (wire s +:+ str_take n (outputBuffer_ o)) s).
Proof.
  intros Hd [Hp Ha]. specialize (Ha Hd).
  assert ((wire s +:+ str_take n (outputBuffer_ o)) +:+ str_drop n (outputBuffer_ o) +:+ rest_of (activeFileSend_ o) +:+ tail
    = stream (items o)) as E.
  { rewrite <- Ha, str_app_assoc. f_equal. rewrite <- str_app_assoc. by rewrite str_take_drop. }
  split; simpl.
  - eexists. symmetry. exact E.
  - intros _. exact E.
Qed.

(** The kernel takes a prefix of what follows the output buffer, the buffer
    being empty. *)
Lemma streaming_put_tail tail m t o s n :
  dead s = false -> outputBuffer_ o = "" -> activeFileSend_ o = None -> tail = m +:+ t -> n <= String.length m ->
  streaming tail o s -> streaming (str_drop n m +:+ t) o (set_wire (wire s +:+ str_take n m) s).
Proof.
  intros Hd Ho Hf -> Hn [Hp Ha]. specialize (Ha Hd). rewrite Ho, Hf in Ha.
  assert ((wire s +:+ str_take n m) +:+ str_drop n m +:+ t = stream (items o)) as E.
  { rewrite <- Ha. simpl. rewrite str_app_assoc. f_equal. rewrite <- str_app_assoc. by rewrite str_take_drop. }
  split; simpl.
  - eexists. symmetry. exact E.
  - intros _. rewrite Ho, Hf. exact E.
Qed.

(** The kernel takes a piece of the active frame. *)
Lemma streaming_put_file tail o s p n request :
  dead s = false -> outputBuffer_ o = "" -> activeFileSend_ o = Some p -> (request <= pf_remaining p)%N ->
  let chunk := slice files (pf_path p) (pf_offset p) request in
  n <= String.length chunk -> streaming tail o s ->
  streaming tail
    (set_activeFileSend_ (Some (mkPendingFile (pf_header p) (pf_path p) (pf_offset p + N.of_nat n)
       (pf_remaining p - N.of_nat n) (pf_completion p))) o)
    (set_wire (wire s +:+ str_take n chunk) s).
Proof.
  intros Hd Ho Hf Hr chunk Hn [Hp Ha]. specialize (Ha Hd). rewrite Ho, Hf in Ha. cbn [rest_of] in Ha.
  set (full := slice files (pf_path p) (pf_offset p) (pf_remaining p)) in *.
  assert (chunk = str_take (N.to_nat request) full) as Hc by (by apply slice_take).
  assert (n <= N.to_nat request /\ n <= String.length full) as [Hn1 Hn2].
  { rewrite Hc, str_take_length in Hn. lia. }
  assert (str_take n chunk = str_take n full) as Ht.
  { rewrite Hc, str_take_take. f_equal. lia. }
  assert ((wire s +:+ str_take n chunk) +:+
    slice files (pf_path p) (pf_offset p + N.of_nat n) (pf_remaining p - N.of_nat n) +:+ tail = stream (items o)) as E.
  { rewrite <- Ha, Ht, str_app_nil_l, str_app_assoc, <- (str_app_assoc (str_take n full)).
    do 2 f_equal. symmetry. apply slice_split; [lia|exact Hn2]. }
  split; simpl.
  - eexists. symmetry. exact E.
  - intros _. rewrite Ho. exact E.
Qed.

(** A socket that only lost its writing side, or used up outcomes. *)
Lemma streaming_socket tail o s s' :
  wire s' = wire s -> (dead s' = false -> dead s = false) -> streaming tail o s -> streaming tail o s'.
Proof.
  intros Hw Hd [Hp Ha]. split; rewrite ?Hw; try done. intros E. apply Ha. auto.
Qed.

Lemma next_write_spec c o c' :
  next_write c = (o, c') ->
  output c' = output c /\ wire (socket c') = wire (socket c) /\
  (dead (socket c') = false -> dead (socket c) = false) /\
  (o <> Broken -> dead (socket c) = false /\ dead (socket c') = false) /\
  (dead (socket c) = false -> length (writes (socket c')) = length (writes (socket c)) \/
     length (writes (socket c)) = S (length (writes (socket c')))) /\
  exists s, c' = set_socket s c.
Proof.
  unfold next_write. assert (exists s, c = set_socket s c) as Hc by (exists (socket c); by destruct c).
  destruct (dead (socket c)) eqn:Ed.
  - intros [= <- <-]. rewrite Ed. split_and!; try done; by intros [].
  - destruct (writes (socket c)) as [|[] rest] eqn:Ew; intros [= <- <-]; simpl; rewrite ?Ew, ?Ed;
      split_and!; try done; try (by left); try (by right); try (by eexists); by intros [].
Qed.

(** ** The steps of the connection keep it safe *)

Section Safe.
Variable x : fixed.
Implicit Types (c : Tcp) (t : string).

Lemma safe_writing b t c : safe x t c -> safe x t (set_writing b c).
Proof. intros []. by split. Qed.
Lemma safe_write_blocked b t c : safe x t c -> safe x t (set_tlsWriteBlockedOnRead_ b c).
Proof. intros []. by split. Qed.
Lemma safe_read_blocked b t c : safe x t c -> safe x t (set_tlsReadBlockedOnWrite_ b c).
Proof. intros []. by split. Qed.
Lemma safe_input i t c : safe x t c -> safe x t (set_inputBuffer_ i c).
Proof. intros []. by split. Qed.
Lemma safe_app a t c : safe x t c -> safe x t (set_app a c).
Proof. intros []. by split. Qed.
Lemma safe_reading t c : state_ c <> kDisconnected -> safe x t c -> safe x t (set_reading true c).
Proof. intros Hs []. by split. Qed.

Lemma safe_state s t c :
  state_ c <> kDisconnected -> s <> kDisconnected -> safe x t c -> safe x t (set_state_ s c).
Proof.
  intros Hc Hs [Hf Ho Ht Hd]. split; simpl; try done. unfold notices in *.
  by rewrite !bool_decide_eq_false_2 in * by done.
Qed.

Lemma safe_post j t c : safe x t c -> safe x t (post j c).
Proof. intros []. by split. Qed.

(** The socket lost its writing side, or used up outcomes. *)
Lemma safe_socket s t c :
  wire s = wire (socket c) -> (dead s = false -> dead (socket c) = false) ->
  safe x t c -> safe x t (set_socket s c).
Proof.
  intros Hw Hd [Hf Ho Ht Hc]. split; simpl; rewrite ?Hw; try done. by eapply streaming_socket.
Qed.

Lemma next_write_safe t c o c' : next_write c = (o, c') -> safe x t c -> safe x t c'.
Proof.
  intros E. apply next_write_spec in E as (_ & Hw & Hd & _ & _ & s & ->). by apply safe_socket.
Qed.

Lemma safe_output t t' o s c :
  streaming t' o s -> safe x t c -> safe x t' (set_socket s (set_output o c)).
Proof. intros Hs [Hf Ho Ht Hc]. by split. Qed.

Lemma set_both o s c : set_socket s (set_output o c) = set_output o (set_socket s c).
Proof. done. Qed.

Lemma is_state_spec s c : is_state s c = bool_decide (state_ c = s).
Proof. done. Qed.

Lemma handleClose_safe t c : safe x t c -> safe x t (handleClose c).
Proof.
  intros Hs. unfold handleClose, is_state. case_bool_decide as Hc; [done|].
  destruct Hs as [Hf Ho Ht Hd]. unfold notices in Ht. rewrite bool_decide_eq_false_2 in Ht by done.
  assert (applicationEstablished_ c = x_established x) as He by (by subst x).
  unfold disableAll. cbn [applicationEstablished_ set_reading set_writing set_state_]. rewrite He.
  destruct (x_established x) eqn:Ex; split; simpl; try done; unfold notices; rewrite Ex; [|done].
  destruct Ht as [n ->]. exists n. simpl. by rewrite app_nil_r.
Qed.

Lemma shutdownInLoop_safe t c : safe x t c -> safe x t (shutdownInLoop c).
Proof. intros Hs. unfold shutdownInLoop. case_match; [done|]. by apply safe_socket. Qed.

Lemma shutdown_safe t c : safe x t c -> safe x t (shutdown c).
Proof.
  intros Hs. unfold shutdown, is_state. case_bool_decide as Hc; [|done].
  apply shutdownInLoop_safe, safe_state; by rewrite ?Hc.
Qed.

Lemma forceClose_safe t c : safe x t c -> safe x t (forceClose c).
Proof.
  intros Hs. unfold forceClose, is_state. destruct (negb _ && negb _) eqn:E; [done|].
  apply safe_post. apply safe_state; [|done|done].
  intros Hc. rewrite Hc in E. done.
Qed.

(** ** The output buffer *)

(** The queues of frames and texts are as they were. *)
Definition kept c c' : Prop :=
  activeFileSend_ (output c') = activeFileSend_ (output c) /\
  queuedFileFrames_ (output c') = queuedFileFrames_ (output c) /\
  deferredSends_ (output c') = deferredSends_ (output c) /\
  items (output c') = items (output c) /\ asked (output c') = asked (output c).

Lemma kept_refl c : kept c c.
Proof. done. Qed.
Lemma kept_trans c c1 c2 : kept c c1 -> kept c1 c2 -> kept c c2.
Proof. intros (H1 & H2 & H3 & H4 & H5) (G1 & G2 & G3 & G4 & G5). unfold kept. by rewrite G1, G2, G3, G4, G5. Qed.

Lemma handleClose_kept c : kept c (handleClose c).
Proof. unfold handleClose, disableAll. case_match; [done|]. by destruct (applicationEstablished_ _). Qed.
Lemma shutdownInLoop_kept c : kept c (shutdownInLoop c).
Proof. unfold shutdownInLoop. by case_match. Qed.
Lemma next_write_kept c o c' : next_write c = (o, c') -> kept c c' /\ state_ c' = state_ c.
Proof. intros E. by apply next_write_spec in E as (_ & _ & _ & _ & _ & s & ->). Qed.

Lemma posts_spec (l : list waiting) c :
  let c' := foldl (fun c k => post (Complete k) c) c l in
  kept c c' /\ state_ c' = state_ c /\ writing c' = writing c /\ reading c' = reading c /\
  outputBuffer_ (output c') = outputBuffer_ (output c).
Proof. revert c. induction l as [|k l IH]; intros c; simpl; [done|]. apply (IH (post (Complete k) c)). Qed.

Lemma posts_safe t (l : list waiting) c :
  safe x t c -> safe x t (foldl (fun c k => post (Complete k) c) c l).
Proof. revert c. induction l as [|k l IH]; intros c Hs; simpl; [done|]. by apply IH, safe_post. Qed.

Lemma finish_completions_safe t c : safe x t c -> safe x t (finishOutputCompletions c).
Proof.
  intros Hs. unfold finishOutputCompletions. apply posts_safe.
  assert (safe x t (post WriteComplete c)) as [Hf [H1 H2] Ht Hd] by (by apply safe_post). by split.
Qed.

Lemma finish_completions_kept c :
  let c' := finishOutputCompletions c in
  kept c c' /\ state_ c' = state_ c /\ writing c' = writing c /\ reading c' = reading c /\
  outputBuffer_ (output c') = outputBuffer_ (output c).
Proof.
  unfold finishOutputCompletions.
  destruct (posts_spec (pendingSendCompletions_ (output (post WriteComplete c)))
    (on_output (set_pendingSendCompletions_ []) (post WriteComplete c))) as (Hk & Hrest).
  split; [|exact Hrest]. eapply kept_trans; [|exact Hk]. done.
Qed.

(** The kernel takes the front of the output buffer. *)
Lemma put_output_safe t n c :
  dead (socket c) = false -> safe x t c ->
  safe x t (retrieve_output n (put (str_take n (outputBuffer_ (output c))) c)).
Proof.
  intros Hd Hs. unfold retrieve_output, put, on_output, on_socket. simpl.
  eapply (safe_output t _ _ (set_wire (wire (socket c) +:+ str_take n (outputBuffer_ (output c))) (socket c))).
  - apply streaming_put_output; [done|]. apply Hs.
  - exact Hs.
Qed.

Lemma took_min n s : (n `min` String.length s =? 0) = false -> s <> "".
Proof. intros Hn ->. simpl in Hn. by rewrite Nat.min_0_r in Hn. Qed.

(** The output loop: it keeps the connection safe, and what it reports. *)
Lemma flush_loop_safe t fuel c :
  safe x t c -> state_ c <> kDisconnected ->
  let r := flush_loop fuel c in
  safe x t r.1 /\ kept c r.1 /\ (r.2 = true -> readable r.1 = false /\ state_ r.1 = state_ c).
Proof.
  revert c. induction fuel as [|fuel IH]; intros c Hs Hc; [done|]. cbn [flush_loop].
  destruct (readable c) eqn:Er; [|done]. cbn [negb].
  destruct (next_write c) as [o c1] eqn:E. pose proof (next_write_safe _ _ _ _ E Hs) as Hs1.
  destruct (next_write_kept _ _ _ E) as [Hk Hst].
  apply next_write_spec in E as (Ho & _ & _ & Hal & _). cbn [fst snd].
  assert (state_ c1 <> kDisconnected) as Hc1 by congruence.
  destruct o as [n| | | | |]; cbn [fst snd].
  - destruct (n `min` _ =? 0) eqn:En; cbn [fst snd].
    { split; [by apply handleClose_safe|]. split; [|done]. eapply kept_trans; [exact Hk|apply handleClose_kept]. }
    destruct (Hal ltac:(done)) as [_ Hd1].
    destruct (IH (retrieve_output (n `min` String.length (outputBuffer_ (output c1)))
      (put (str_take (n `min` String.length (outputBuffer_ (output c1))) (outputBuffer_ (output c1))) c1)))
      as (H1 & H2 & H3); [by apply put_output_safe|done|].
    split; [exact H1|]. split; [by eapply kept_trans; [exact Hk|]|]. intros Hr. rewrite <- Hst. by apply H3.
  - split; [by apply safe_writing|]. by split.
  - split; [|by split]. apply safe_reading; [done|]. by apply safe_writing, safe_write_blocked.
  - destruct (IH c1 Hs1 Hc1) as (H1 & H2 & H3). split; [done|]. split; [by eapply kept_trans|].
    rewrite <- Hst. exact H3.
  - split; [by apply handleClose_safe|]. split; [|done]. eapply kept_trans; [exact Hk|apply handleClose_kept].
  - split; [by apply handleClose_safe|]. split; [|done]. eapply kept_trans; [exact Hk|apply handleClose_kept].
Qed.

Lemma flushTlsOutput_safe t c :
  safe x t c -> safe x t (flushTlsOutput c) /\ kept c (flushTlsOutput c).
Proof.
  intros Hs. unfold flushTlsOutput. destruct (_ || _ || _) eqn:E; [done|]. case_bools.
  unfold is_state in *. rewrite bool_decide_eq_false in *.
  destruct (flush_loop_safe t (write_fuel c) c Hs) as (F1 & F2 & F3); [done|].
  destruct (flush_loop (write_fuel c) c) as [c1 done1]. cbn [fst snd] in *.
  destruct done1; [|done]. cbn [negb]. destruct (F3 eq_refl) as [Hr Hst].
  set (c2 := set_tlsWriteBlockedOnRead_ false c1).
  set (c3 := if writing c2 && negb (tlsReadBlockedOnWrite_ c2) then set_writing false c2 else c2).
  assert (safe x t c3 /\ kept c c3 /\ readable c3 = false) as (G1 & G2 & G3).
  { unfold c3. destruct (_ && _); (split; [by repeat apply safe_writing || apply safe_write_blocked|done]). }
  pose proof (finish_completions_safe t c3 G1) as G4.
  destruct (finish_completions_kept c3) as [G5 _].
  assert (kept c (finishOutputCompletions c3)) as G6 by (by eapply kept_trans).
  case_match; [|done]. split; [by apply shutdownInLoop_safe|].
  eapply kept_trans; [exact G6|apply shutdownInLoop_kept].
Qed.

Lemma handlePlainWrite_safe t c :
  safe x t c -> safe x t (handlePlainWrite c) /\ kept c (handlePlainWrite c).
Proof.
  intros Hs. unfold handlePlainWrite. destruct (writing c) eqn:Ew; [|done]. cbn [negb].
  destruct (next_write c) as [o c1] eqn:E. pose proof (next_write_safe _ _ _ _ E Hs) as Hs1.
  destruct (next_write_kept _ _ _ E) as [Hk Hst].
  apply next_write_spec in E as (Ho & _ & _ & Hal & _). cbn [fst snd].
  destruct o as [n| | | | |]; try done. destruct (n `min` _ =? 0) eqn:En; [done|].
  destruct (Hal ltac:(done)) as [_ Hd1].
  set (c2 := retrieve_output _ _). assert (safe x t c2) as Hs2 by (by apply put_output_safe).
  assert (kept c c2) as Hk2 by done.
  destruct (readable c2) eqn:Er; [done|].
  pose proof (finish_completions_safe t (set_writing false c2) (safe_writing _ _ _ Hs2)) as G4.
  destruct (finish_completions_kept (set_writing false c2)) as [G5 _].
  assert (kept c (finishOutputCompletions (set_writing false c2))) as G6 by (by eapply kept_trans; [exact Hk2|]).
  case_match; [|done]. split; [by apply shutdownInLoop_safe|].
  eapply kept_trans; [exact G6|apply shutdownInLoop_kept].
Qed.

(** ** Sending *)

(** A message moves from the tail into the output buffer. *)
Lemma append_output_safe m t c :
  activeFileSend_ (output c) = None -> safe x (m +:+ t) c -> safe x t (append_output m c).
Proof.
  intros Hn [Hf [H1 H2] Ht Hd]. split; simpl; try done. split; simpl; try done.
  - intros Hdead. rewrite <- (H2 Hdead), Hn. simpl. by rewrite str_app_assoc.
Qed.

Lemma push_completion_safe k t c : safe x t c -> safe x t (push_completion k c).
Proof.
  intros Hs. destruct k as [l|]; [|done]. by destruct Hs as [Hf [H1 H2] Ht Hd].
Qed.

Lemma push_completion_kept k c : kept c (push_completion k c).
Proof. by destruct k. Qed.

Lemma send_tls_safe m k t c :
  activeFileSend_ (output c) = None -> safe x (m +:+ t) c ->
  safe x t (send_tls m k c) /\ kept c (send_tls m k c).
Proof.
  intros Hn Hs. unfold send_tls. set (c1 := push_completion k (append_output m c)).
  assert (safe x t c1) as Hs1 by (by apply push_completion_safe, append_output_safe).
  assert (kept c c1) as Hk1 by (by destruct k).
  case_match; [|done]. destruct (flushTlsOutput_safe t c1 Hs1) as [G1 G2].
  split; [done|]. by eapply kept_trans.
Qed.

Lemma send_direct_safe m t c r c1 :
  activeFileSend_ (output c) = None -> outputBuffer_ (output c) = "" -> safe x (m +:+ t) c ->
  send_direct m c = (r, c1) ->
  safe x (str_drop (default 0 r.1) m +:+ t) c1 /\ kept c c1 /\ outputBuffer_ (output c1) = "" /\
  default 0 r.1 <= String.length m /\ (r.2 = true -> dead (socket c1) = true).
Proof.
  intros Hn Hr Hs. unfold send_direct. destruct (next_write c) as [o c2] eqn:E.
  pose proof (next_write_safe _ _ _ _ E Hs) as Hs2. destruct (next_write_kept _ _ _ E) as [Hk _].
  pose proof E as E'. apply next_write_spec in E as (Ho & _ & _ & Hal & _).
  assert (outputBuffer_ (output c2) = "") as Hr2 by (by rewrite Ho).
  cbn [fst snd]. destruct o as [n| | | | |]; intros [= <- <-]; simpl; rewrite ?str_drop_0;
    try (split_and!; [done..|lia|done]).
  - destruct (Hal ltac:(done)) as [_ Hd2]. split_and!; [|done|done|lia|done].
    eapply (safe_output (m +:+ t) _ (output c2)
      (set_wire (wire (socket c2) +:+ str_take (n `min` String.length m) m) (socket c2)) c2).
    + eapply streaming_put_tail; [done|done|by destruct Hk as [-> _]|done|lia|]. apply Hs2.
    + exact Hs2.
  - split_and!; [done..|lia|]. intros _. unfold next_write in E'.
    destruct (dead (socket c)) eqn:Ed; [by injection E' as <-|].
    destruct (writes (socket c)) as [|[] rest]; try done. by injection E' as <-.
Qed.

(** When the writing side is gone, nothing is promised about the tail. *)
Lemma safe_dead t t' c : dead (socket c) = true -> safe x t c -> safe x t' c.
Proof.
  intros Hd [Hf [H1 H2] Ht Hc]. split; try done. split; try done. by rewrite Hd.
Qed.

Lemma str_drop_all n s : String.length s - n = 0 -> str_drop n s = "".
Proof. intros Hn. apply str_drop_ge. lia. Qed.

Lemma send_plain_safe m k t c :
  activeFileSend_ (output c) = None -> safe x (m +:+ t) c ->
  safe x t (send_plain m k c) /\ kept c (send_plain m k c).
Proof.
  intros Hn Hs. unfold send_plain.
  set (r := if negb (writing c) && negb (readable c) then send_direct m c else ((None, false), c)).
  assert (safe x (str_drop (default 0 r.1.1) m +:+ t) r.2 /\ kept c r.2 /\
    default 0 r.1.1 <= String.length m /\ (r.1.2 = true -> dead (socket r.2) = true) /\
    (is_Some r.1.1 -> outputBuffer_ (output r.2) = "")) as (G1 & G2 & G3 & G4 & G5).
  { unfold r. destruct (negb (writing c) && negb (readable c)) eqn:E.
    - unfold readable in E. case_bools. destruct (send_direct m c) as [q c1] eqn:Es.
      destruct (send_direct_safe m t c q c1) as (F1 & F2 & F3 & F4 & F5); [done|by apply is_empty_true|done|done|].
      by split_and!.
    - simpl. split_and!; try done; first [lia|by intros [? ?]]. }
  assert (activeFileSend_ (output r.2) = None) as Hn2 by (destruct G2 as [-> _]; exact Hn).
  destruct r as [[b fault] c1]. cbn [fst snd] in *.
  destruct ((String.length m - default 0 b =? 0) && bool_decide (is_Some b)) eqn:E1.
  - apply andb_true_iff in E1 as [Hz Hb]. apply Nat.eqb_eq in Hz. apply bool_decide_eq_true in Hb.
    rewrite str_drop_all, str_app_nil_l in G1 by done.
    assert (safe x t (post WriteComplete c1)) as G6 by (by apply safe_post).
    destruct k as [l|]; [|done]. split; [|done]. by apply safe_post.
  - destruct fault; cbn [negb andb].
    { split; [|done]. eapply safe_dead; [by apply G4|exact G1]. }
    destruct (Nat.eqb_spec (String.length m - default 0 b) 0) as [Hz|Hz]; cbn [negb].
    { split; [|done]. by rewrite str_drop_all, str_app_nil_l in G1. }
    set (c2 := push_completion k (append_output (str_drop (default 0 b) m) c1)).
    assert (safe x t c2) as G6 by (by apply push_completion_safe, append_output_safe).
    assert (kept c c2) as G7 by (eapply kept_trans; [exact G2|]; by destruct k).
    case_match; [done|]. split; [by apply safe_writing|done].
Qed.

Lemma send_now_safe m k t c :
  activeFileSend_ (output c) = None -> safe x (m +:+ t) c ->
  safe x t (send_now m k c) /\ kept c (send_now m k c).
Proof. intros Hn Hs. unfold send_now. case_match; [by apply send_tls_safe|by apply send_plain_safe]. Qed.

Lemma record_item_safe i c :
  activeFileSend_ (output c) = None -> safe x "" c -> safe x (item_bytes i) (record_item i c).
Proof.
  intros Hn [Hf [[r H1] H2] Ht Hd]. split; simpl; try done. split; simpl; try done.
  - exists (r +:+ item_bytes i). by rewrite stream_app, H1, str_app_assoc.
  - intros Hdead. rewrite stream_app, <- (H2 Hdead), Hn. simpl. rewrite str_app_nil_r.
    by rewrite str_app_assoc.
Qed.

Lemma active_none c : active c = false <-> activeFileSend_ (output c) = None.
Proof.
  unfold active. rewrite bool_decide_eq_false. split; [|by intros ->; intros [? ?]].
  destruct (activeFileSend_ (output c)); [|done]. intros Hn. by destruct Hn.
Qed.

Lemma ask_safe b i t c : safe x t c -> safe x t (ask b i c).
Proof. intros Hs. destruct b; [|done]. destruct Hs as [Hf [H1 H2] Ht Hd]. by split. Qed.

(** The frame that is active, and the frames queued, are as they were. *)
Lemma sendInLoop_safe m k c :
  safe x "" c ->
  safe x "" (sendInLoop m k c) /\ activeFileSend_ (output (sendInLoop m k c)) = activeFileSend_ (output c) /\
  queuedFileFrames_ (output (sendInLoop m k c)) = queuedFileFrames_ (output c).
Proof.
  intros Hs. unfold sendInLoop. case_match; [done|]. destruct (active c) eqn:Ea.
  - split; [|done]. destruct Hs as [Hf [H1 H2] Ht Hd]. split; simpl; try done.
  - apply active_none in Ea. destruct (send_now_safe m k "" (record_item (Text m) c)) as [G1 (G2 & G3 & _)].
    + exact Ea.
    + rewrite str_app_nil_r. by apply (record_item_safe (Text m)).
    + done.
Qed.

Lemma send_safe m k c :
  safe x "" c ->
  safe x "" (send m k c) /\ activeFileSend_ (output (send m k c)) = activeFileSend_ (output c) /\
  queuedFileFrames_ (output (send m k c)) = queuedFileFrames_ (output c).
Proof. intros Hs. unfold send. case_match; [by apply sendInLoop_safe|done]. Qed.

(** ** File frames *)

(** The frames still to start are as they were; the active frame may have moved
    on. *)
Definition same_frames c c' : Prop :=
  (pf_completion <$> activeFileSend_ (output c')) = (pf_completion <$> activeFileSend_ (output c)) /\
  queuedFileFrames_ (output c') = queuedFileFrames_ (output c).

Lemma same_frames_trans c c1 c2 : same_frames c c1 -> same_frames c1 c2 -> same_frames c c2.
Proof. intros [H1 H2] [G1 G2]. unfold same_frames. by rewrite G1, G2. Qed.
Lemma kept_same c c' : kept c c' -> same_frames c c'.
Proof. intros (H1 & H2 & _). unfold same_frames. by rewrite H1, H2. Qed.

(** The kernel takes a piece of the active frame. *)
Lemma put_file_safe p n request c :
  dead (socket c) = false -> outputBuffer_ (output c) = "" -> activeFileSend_ (output c) = Some p ->
  (request <= pf_remaining p)%N -> let chunk := slice files (pf_path p) (pf_offset p) request in
  n <= String.length chunk -> safe x "" c ->
  safe x "" (advance n (put (str_take n chunk) c)) /\ same_frames c (advance n (put (str_take n chunk) c)).
Proof.
  intros Hd Ho Hf Hr chunk Hn Hs. split.
  - unfold advance, put, on_output, on_socket. simpl. rewrite Hf. simpl.
    eapply (safe_output "" _ _ (set_wire (wire (socket c) +:+ str_take n chunk) (socket c))).
    + by apply (streaming_put_file "" _ _ p n request); [..|apply Hs].
    + exact Hs.
  - unfold same_frames. simpl. rewrite Hf. done.
Qed.

Lemma file_loop_safe fuel c :
  safe x "" c -> state_ c <> kDisconnected -> outputBuffer_ (output c) = "" ->
  let r := file_loop files fuel c in
  safe x "" r.1 /\ same_frames c r.1 /\
  (r.2 = true -> exists p, activeFileSend_ (output r.1) = Some p /\ pf_remaining p = 0%N).
Proof.
  revert c. induction fuel as [|fuel IH]; intros c Hs Hc Ho; [done|]. cbn [file_loop].
  destruct (activeFileSend_ (output c)) as [p|] eqn:Ef; [|done].
  destruct (N.eqb_spec (pf_remaining p) 0) as [Hz|Hz]; cbn [fst snd].
  { split_and!; [done..|]. intros _. by exists p. }
  destruct (tlsEnabled c && _); [done|].
  set (whole := negb (tlsEnabled c) || zeroCopy c). set (request := N.min _ _).
  assert (request <= pf_remaining p)%N as Hreq by apply N.le_min_l.
  set (chunk := slice _ _ _ request).
  destruct (negb whole && is_empty chunk); cbn [fst snd].
  { split_and!; [by apply handleClose_safe|apply kept_same, handleClose_kept|done]. }
  destruct (next_write c) as [o c1] eqn:E. pose proof (next_write_safe _ _ _ _ E Hs) as Hs1.
  destruct (next_write_kept _ _ _ E) as [Hk Hst].
  assert (state_ c1 <> kDisconnected) as Hc1 by congruence.
  assert (activeFileSend_ (output c1) = Some p) as Ef1 by (destruct Hk as [-> _]; exact Ef).
  apply next_write_spec in E as (Hout & _ & _ & Hal & _).
  assert (outputBuffer_ (output c1) = "") as Ho1 by (by rewrite Hout). cbn [fst snd].
  assert (safe x "" (handleClose c1) /\ same_frames c (handleClose c1)) as [Hcl1 Hcl2].
  { split; [by apply handleClose_safe|]. eapply same_frames_trans; [by apply kept_same|].
    apply kept_same, handleClose_kept. }
  pose proof (kept_same _ _ Hk) as Hsame.
  destruct o as [n| | | | |]; cbn [fst snd].
  - destruct (n `min` _ =? 0) eqn:En; cbn [fst snd]; [done|].
    destruct (Hal ltac:(done)) as [_ Hd1].
    destruct (put_file_safe p (n `min` String.length chunk) request c1 Hd1 Ho1 Ef1 Hreq) as [G1 G2]; [apply Nat.le_min_r|done|].
    destruct (IH _ G1) as (F1 & F2 & F3); [done|done|].
    split_and!; [done| |done]. eapply same_frames_trans; [exact Hsame|]. by eapply same_frames_trans.
  - split_and!; [by apply safe_writing|done|done].
  - case_match; [|done]. split_and!; [|done|done]. apply safe_reading; [done|]. by apply safe_write_blocked.
  - case_match; [done|]. destruct (IH c1) as (F1 & F2 & F3); [done..|].
    split_and!; [done|by eapply same_frames_trans|done].
  - done.
  - done.
Qed.

(** A frame that is complete ends, and one that starts follows its header. *)
Lemma release_safe p c :
  activeFileSend_ (output c) = Some p -> pf_remaining p = 0%N -> safe x "" c ->
  safe x "" (on_output (set_activeFileSend_ None) c).
Proof.
  intros Hp Hz [Hf [H1 H2] Ht Hd]. split; try done. split; try done.
  intros Hdead. specialize (H2 Hdead). rewrite Hp in H2. simpl in *. by rewrite Hz, slice_zero in H2.
Qed.

Lemma activate_safe p c :
  active c = false -> safe x "" c ->
  safe x "" (on_output (set_activeFileSend_ (Some p)) (send_now (pf_header p) None
    (record_item (frame_of p) c))).
Proof.
  intros Ha Hs. apply active_none in Ha. set (i := frame_of p).
  destruct (send_now_safe (pf_header p) None (slice files (pf_path p) (pf_offset p) (pf_remaining p)) (record_item i c))
    as [G1 (G2 & _)]; [done|by apply (record_item_safe i)|].
  set (c1 := send_now _ _ _) in *. change (activeFileSend_ (output c1) = activeFileSend_ (output c)) in G2.
  rewrite Ha in G2. destruct G1 as [Hf [H1 H2] Ht Hd]. split; try done. split; try done.
  intros Hdead. specialize (H2 Hdead). rewrite G2 in H2. simpl in *. by rewrite str_app_nil_r.
Qed.

Section Start.
Variable start : PendingFileSend -> Tcp -> Tcp.
Hypothesis start_safe : forall p c, active c = false -> safe x "" c -> safe x "" (start p c).

Lemma sendFileFrameInLoop_safe p c : safe x "" c -> safe x "" (sendFileFrameInLoop start p c).
Proof.
  intros Hs. unfold sendFileFrameInLoop. case_match; [done|]. destruct (active c) eqn:Ea; [|by apply start_safe].
  destruct Hs as [Hf [H1 H2] Ht Hd]. by split.
Qed.

Lemma perform_safe r c : safe x "" c -> safe x "" (perform start r c).
Proof.
  intros Hs. destruct r as [m k|h p o n k| |]; simpl.
  - by apply send_safe, ask_safe.
  - unfold sendFileFrame. apply (ask_safe (is_state kConnected c) (frame_of (mkPendingFile h p o n k))) in Hs.
    case_match; [by apply sendFileFrameInLoop_safe|done].
  - by apply shutdown_safe.
  - by apply forceClose_safe.
Qed.

Lemma performs_safe l c : safe x "" c -> safe x "" (performs start l c).
Proof. revert c. induction l as [|r l IH]; intros c Hs; [done|]. simpl. by apply IH, perform_safe. Qed.

Lemma call_completion_safe k c : safe x "" c -> safe x "" (call_completion start k c).
Proof. destruct k; [apply performs_safe|done]. Qed.

Lemma drain_safe c : safe x "" c -> safe x "" (drainDeferredSends c).
Proof.
  intros Hs. unfold drainDeferredSends. set (c1 := on_output _ c).
  assert (safe x "" c1) as Hs1 by (destruct Hs as [Hf [H1 H2] Ht Hd]; by split).
  clearbody c1. revert c1 Hs1. induction (deferredSends_ (output c)) as [|[m k] l IH]; intros c1 Hs1; [done|].
  simpl. apply IH. by apply sendInLoop_safe.
Qed.

Lemma startNext_safe c : safe x "" c -> safe x "" (startNextQueuedFileFrame start c).
Proof.
  intros Hs. unfold startNextQueuedFileFrame. destruct (_ || _) eqn:E; [done|]. case_bools.
  destruct (queuedFileFrames_ (output c)) as [|p l]; [done|]. apply start_safe; [done|].
  destruct Hs as [Hf [H1 H2] Ht Hd]. by split.
Qed.

Lemma finishActive_safe p c :
  activeFileSend_ (output c) = Some p -> pf_remaining p = 0%N -> safe x "" c ->
  safe x "" (finishActiveFileSend start c).
Proof.
  intros Hp Hz Hs. unfold finishActiveFileSend. rewrite Hp. pose proof (release_safe p c Hp Hz Hs) as Hs1.
  apply drain_safe, (call_completion_safe (pf_completion p)) in Hs1.
  set (c2 := call_completion _ _ _) in *. set (c3 := if active c2 then c2 else _).
  assert (safe x "" c3) by (unfold c3; case_match; [done|by apply startNext_safe]).
  case_match; [by apply safe_writing|done].
Qed.

Lemma flushFileSend_safe c : safe x "" c -> safe x "" (flushFileSend files start c).
Proof.
  intros Hs. unfold flushFileSend. case_match; [done|].
  set (c1 := if readable c then _ else c).
  assert (safe x "" c1) as Hs1.
  { unfold c1. repeat case_match; [by apply flushTlsOutput_safe|by apply handlePlainWrite_safe|done]. }
  destruct (is_state kDisconnected c1) eqn:Ec; [done|]. destruct (readable c1) eqn:Er; [done|]. cbn [orb].
  unfold readable in Er. apply negb_false_iff, is_empty_true in Er. apply bool_decide_eq_false in Ec.
  destruct (file_loop_safe (write_fuel c1) c1) as (F1 & _ & F2); [done..|].
  destruct (file_loop files (write_fuel c1) c1) as [c2 []]; simpl in *; [|done].
  destruct (F2 eq_refl) as (p & Hp & Hz). by eapply finishActive_safe.
Qed.
End Start.

Lemma startFileFrame_safe fuel p c :
  active c = false -> safe x "" c -> safe x "" (startFileFrame files fuel p c).
Proof.
  revert p c. induction fuel as [|fuel IH]; intros p c Ha Hs; [done|]. cbn [startFileFrame].
  case_match; [done|]. destruct (files (pf_path p)) as [content|].
  - apply flushFileSend_safe; [exact IH|]. by apply activate_safe.
  - by apply forceClose_safe, call_completion_safe.
Qed.

(** ** Callbacks and events *)

Lemma run_requests_safe l c : safe x "" c -> safe x "" (run_requests files l c).
Proof. apply performs_safe. intros p c' ? ?. by apply startFileFrame_safe. Qed.

Lemma react_safe c : safe x "" c -> safe x "" (react files c).
Proof.
  intros Hs. unfold react. destruct (app c) as [|r rest]; [done|].
  by apply run_requests_safe, safe_input, safe_app.
Qed.

Lemma flush_safe c : safe x "" c -> safe x "" (flush files c).
Proof.
  intros Hs. unfold flush. case_match.
  - apply flushFileSend_safe; [|done]. intros p c' ? ?. by apply startFileFrame_safe.
  - case_match; [by apply flushTlsOutput_safe|by apply handlePlainWrite_safe].
Qed.

Lemma tell_message_safe c :
  x_established x = true -> state_ c <> kDisconnected -> safe x "" c -> safe x "" (tell Message c).
Proof.
  intros Hx Hc [Hf Ho Ht Hd]. split; simpl; try done. unfold notices in *. rewrite Hx in *.
  rewrite bool_decide_eq_false_2 in * by done. destruct Ht as [n Ht]. exists (S n).
  by rewrite Ht, !app_nil_r, <- app_comm_cons, <- repeat_cons.
Qed.

Lemma call_message_safe c :
  x_established x = true -> state_ c <> kDisconnected -> safe x "" c -> safe x "" (call_message files c).
Proof. intros Hx Hc Hs. by apply react_safe, tell_message_safe. Qed.

Lemma next_read_safe c o c' : next_read c = (o, c') -> safe x "" c -> safe x "" c' /\ state_ c' = state_ c.
Proof.
  unfold next_read. destruct (reads (socket c)) as [|r rest]; intros [= <- <-] Hs; [done|].
  split; [|done]. by apply safe_socket.
Qed.

Lemma handlePlainRead_safe c :
  x_established x = true -> state_ c <> kDisconnected -> safe x "" c -> safe x "" (handlePlainRead files c).
Proof.
  intros Hx Hc Hs. unfold handlePlainRead. destruct (next_read c) as [o c1] eqn:E.
  destruct (next_read_safe c o c1 E Hs) as [Hs1 Hst]. cbn [fst snd].
  destruct o; try done; try by apply handleClose_safe.
  case_match; [by apply handleClose_safe|]. apply call_message_safe; [done|simpl; congruence|].
  by apply safe_input.
Qed.

Lemma read_loop_safe fuel b c : safe x "" c -> safe x "" (read_loop fuel b c).1.
Proof.
  revert b c. induction fuel as [|fuel IH]; intros b c Hs; [done|]. cbn [read_loop].
  destruct (next_read c) as [o c1] eqn:E. destruct (next_read_safe c o c1 E Hs) as [Hs1 _]. cbn [fst snd].
  destruct o; cbn [fst snd]; try done; try by apply handleClose_safe.
  - case_match; [by apply handleClose_safe|]. by apply IH, safe_input.
  - by apply safe_writing, safe_read_blocked.
  - by apply IH.
Qed.

Lemma handleTlsRead_safe c :
  (x_tls x = true -> x_handshake x = true -> x_established x = true) ->
  safe x "" c -> safe x "" (handleTlsRead files c).
Proof.
  intros Hx Hs. unfold handleTlsRead. destruct (_ || _) eqn:E; [done|]. case_bools.
  pose proof (read_loop_safe (S (length (reads (socket c)))) false c Hs) as Hs1.
  destruct (_ && _) eqn:E2; [|done]. case_bools. apply call_message_safe; [|by intros Hc; rewrite is_state_spec, Hc in *|done].
  pose proof (sf_fixed _ _ _ Hs) as Hf. apply Hx; by subst x.
Qed.
End Safe.

(** ** Whole runs *)

(** The application is told of a connection when it has no handshake to wait
    for. *)
Definition good (x : fixed) : Prop := x_established x = negb (x_tls x) || x_handshake x.
Definition healthy (c : Tcp) : Prop := exists x, good x /\ safe x "" c.

Definition told_of (x : fixed) : fixed := mkFixed (x_tls x) (x_zero_copy x) (x_handshake x) true.

Lemma announce_safe x c :
  x_established x = false -> state_ c <> kDisconnected -> safe x "" c ->
  safe (told_of x) "" (tell Up (set_applicationEstablished_ true c)).
Proof.
  intros Hx Hc [Hf Ho Ht Hd]. split; simpl; try done; [by subst x|]. unfold notices in *. rewrite Hx in Ht.
  exists 0. simpl. by rewrite Ht, bool_decide_eq_false_2.
Qed.

Lemma notify_safe x c :
  state_ c <> kDisconnected -> safe x "" c -> safe (told_of x) "" (notifyApplicationEstablished files c).
Proof.
  intros Hc Hs. pose proof (sf_fixed _ _ _ Hs) as Hf. unfold notifyApplicationEstablished.
  assert (applicationEstablished_ c = x_established x) as -> by (by subst x).
  destruct (x_established x) eqn:Ex; [|by apply react_safe, announce_safe].
  assert (told_of x = x) as -> by (unfold told_of; rewrite <- Ex; by destruct x). done.
Qed.

Lemma healthy_safe (f : Tcp -> Tcp) c :
  (forall x, good x -> safe x "" c -> safe x "" (f c)) -> healthy c -> healthy (f c).
Proof. intros Hf (x & Hg & Hs). exists x. auto. Qed.

Lemma good_tls x : good x -> x_tls x = true -> x_handshake x = true -> x_established x = true.
Proof. unfold good. intros -> _ ->. by rewrite orb_true_r. Qed.

Lemma good_told x : x_tls x = false \/ x_handshake x = true -> good (told_of x).
Proof. unfold good, told_of. simpl. intros [->| ->]; [done|by rewrite orb_true_r]. Qed.

(** The connection after the handshake. *)
Definition shaken (x : fixed) : fixed := mkFixed (x_tls x) (x_zero_copy x) true true.

Lemma good_shaken x : good (shaken x).
Proof. unfold good, shaken. simpl. by rewrite orb_true_r. Qed.

Lemma stopIdleWriting_safe x c : safe x "" c -> safe x "" (stopIdleWriting c).
Proof. intros Hs. unfold stopIdleWriting. case_match; [by apply safe_writing|done]. Qed.

(** The handshake is over, and the application is told. *)
Lemma shaken_safe x c :
  state_ c <> kDisconnected -> safe x "" c ->
  safe (shaken x) "" (notifyApplicationEstablished files (stopIdleWriting
    (set_tlsReadBlockedOnWrite_ false (set_tlsWriteBlockedOnRead_ false (set_tlsHandshakeComplete_ true c))))).
Proof.
  intros Hc Hs. set (c1 := set_tlsReadBlockedOnWrite_ false _).
  assert (safe (mkFixed (x_tls x) (x_zero_copy x) true (x_established x)) "" c1) as Hs1.
  { destruct Hs as [Hf Ho Ht Hd]. split; try done. unfold fixed_of. simpl. by subst x. }
  refine (notify_safe _ (stopIdleWriting c1) _ (stopIdleWriting_safe _ _ Hs1)).
  unfold stopIdleWriting. by case_match.
Qed.

Lemma accepted_safe x pending c :
  state_ c <> kDisconnected -> safe x "" c -> safe (shaken x) "" (handshakeAccepted files pending c).
Proof.
  intros Hc Hs. unfold handshakeAccepted. pose proof (shaken_safe x c Hc Hs) as Hs1.
  set (c1 := notifyApplicationEstablished _ _) in *. set (c2 := if readable c1 then _ else c1).
  assert (safe (shaken x) "" c2) as Hs2 by (unfold c2; case_match; [by apply flushTlsOutput_safe|done]).
  case_match; [|done]. apply handleTlsRead_safe; [|done]. apply good_tls, good_shaken.
Qed.

Lemma next_accept_safe x c :
  safe x "" c -> safe x "" (next_accept c).2 /\ state_ (next_accept c).2 = state_ c.
Proof.
  intros Hs. unfold next_accept. destruct (accepts (socket c)); [done|]. split; [|done]. by apply safe_socket.
Qed.

Lemma drive_healthy c : healthy c -> healthy (driveTlsHandshake files c).
Proof.
  intros (x & Hg & Hs). unfold driveTlsHandshake. destruct (_ || _ || _) eqn:E; [by exists x|].
  apply orb_false_iff in E as [E Hc]. apply bool_decide_eq_false in Hc.
  destruct (next_accept_safe x c Hs) as [Hs1 Hst]. destruct (next_accept c) as [o c1]. cbn [fst snd] in *.
  rewrite <- Hst in Hc. destruct o.
  - exists (shaken x). split; [apply good_shaken|by apply accepted_safe].
  - exists x. split; [done|]. by apply stopIdleWriting_safe, safe_reading.
  - exists x. split; [done|]. by apply safe_writing.
  - exists x. split; [done|]. by apply handleClose_safe.
  - exists x. split; [done|]. by apply handleClose_safe.
Qed.

Lemma handleRead_healthy c : reading c = true -> healthy c -> healthy (handleRead files c).
Proof.
  intros Hr Hh. unfold handleRead. destruct (tlsEnabled c) eqn:Et.
  - destruct (negb _); [by apply drive_healthy|]. destruct Hh as (x & Hg & Hs). exists x. split; [done|].
    apply (handleTlsRead_safe x c (good_tls x Hg)) in Hs.
    case_match; [by apply flush_safe, safe_write_blocked|done].
  - revert Hh. apply healthy_safe. intros x Hg Hs. pose proof (sf_fixed _ _ _ Hs) as Hf.
    apply handlePlainRead_safe; [| |done].
    + rewrite Hg. subst x. simpl. by rewrite Et.
    + intros Hc. pose proof (sf_closed _ _ _ Hs Hc). congruence.
Qed.

Lemma handleWrite_healthy c : healthy c -> healthy (handleWrite files c).
Proof.
  intros Hh. unfold handleWrite. destruct (_ && negb _); [by apply drive_healthy|].
  case_match.
  - destruct Hh as (x & Hg & Hs). exists x. split; [done|]. apply (safe_read_blocked x false), (handleTlsRead_safe x _ (good_tls x Hg)) in Hs.
    case_match; [done|by apply flush_safe].
  - revert Hh. apply healthy_safe. intros x Hg Hs. by apply flush_safe.
Qed.

Lemma run_job_healthy j c : healthy c -> healthy (run_job files j c).
Proof.
  apply healthy_safe. intros x _ Hs. destruct j as [k| |]; simpl; [by apply run_requests_safe|done|].
  unfold forceCloseInLoop. case_match; [by apply handleClose_safe|done].
Qed.

Lemma connectDestroyed_safe x c : safe x "" c -> safe x "" (connectDestroyed c).
Proof.
  intros Hs. unfold connectDestroyed. destruct (_ || _) eqn:E; [|done].
  assert (state_ c <> kDisconnected) as Hc.
  { intros Hc. unfold is_state in E. rewrite Hc in E. done. }
  pose proof (handleClose_safe x "" c Hs) as Hcl. unfold handleClose, is_state in Hcl.
  by rewrite bool_decide_eq_false_2 in Hcl.
Qed.

Lemma step_healthy e c : healthy c -> healthy (step files e c).
Proof.
  intros Hh. destruct e; cbn [step].
  - destruct (reading c) eqn:Er; [by apply handleRead_healthy|done].
  - by apply handleWrite_healthy.
  - revert Hh. apply healthy_safe. intros x _. apply handleClose_safe.
  - destruct (posted c) as [|j rest] eqn:Ep; [done|]. apply run_job_healthy. revert Hh.
    apply (healthy_safe (set_posted rest)). intros x _ [Hf Ho Ht Hd]. by split.
  - case_match; [|done]. destruct Hh as (x & Hg & Hs). exists x. split; [done|]. by apply sendInLoop_safe, ask_safe.
  - case_match; [|done]. destruct Hh as (x & Hg & Hs). exists x. split; [done|].
    apply sendFileFrameInLoop_safe; [|by apply ask_safe].
    intros p c' ? ?. by apply startFileFrame_safe.
  - case_match; [|done]. revert Hh. apply healthy_safe. intros x _. apply run_requests_safe.
  - revert Hh. apply healthy_safe. intros x _. apply connectDestroyed_safe.
Qed.

(** A fresh connection is safe. *)
Lemma new_safe tls zero s reactions :
  wire s = "" ->
  safe (mkFixed tls zero false false) "" (set_reading true (set_state_ kConnected (new_connection tls zero s reactions))).
Proof. intros Hw. split; try done. split; simpl; rewrite ?Hw; try done. by exists "". Qed.

Lemma established_healthy tls zero s reactions :
  wire s = "" -> healthy (connectEstablished files (new_connection tls zero s reactions)).
Proof.
  intros Hw. unfold connectEstablished.
  set (c := set_reading true (set_state_ kConnected (new_connection tls zero s reactions))).
  assert (safe (mkFixed tls zero false false) "" c) as Hs by (by apply new_safe).
  change (tlsEnabled c) with tls. destruct tls.
  - apply drive_healthy. eexists. split; [|exact Hs]. done.
  - eexists. split; [|eapply notify_safe; [done|exact Hs]]. apply good_told. by left.
Qed.

Lemma run_healthy tls zero s reactions es :
  wire s = "" -> healthy (run files tls zero s reactions es).
Proof.
  intros Hw. unfold run. pose proof (established_healthy tls zero s reactions Hw) as Hh. revert Hh.
  generalize (connectEstablished files (new_connection tls zero s reactions)).
  induction es as [|e es IH]; intros c Hh; [done|]. simpl. by apply IH, step_healthy.
Qed.

End Files.
End ConnectionProps.
