(* ===== verification/ConnectionFrames.v ===== *)
(** * The recursion of file frames

    What the operations of a connection leave alone of its frames, how many
    frames each may start, and that the recursion of starting frames ends. *)
From S2P Require Import Prelude Connection ConnectionProps.
Import Connection ConnectionProps.

Module ConnectionFrames.

(** ** What the operations leave alone *)

Lemma flush_loop_kept fuel c : kept c (flush_loop fuel c).1.
Proof.
  revert c. induction fuel as [|fuel IH]; intros c; [done|]. cbn [flush_loop].
  destruct (readable c); [|done]. cbn [negb].
  destruct (next_write c) as [o c1] eqn:E. destruct (next_write_kept _ _ _ E) as [Hk _]. cbn [fst snd].
  destruct o as [n| | | | |]; cbn [fst snd]; try done.
  - case_match; [eapply kept_trans; [exact Hk|apply handleClose_kept]|]. by eapply kept_trans; [|apply IH].
  - by eapply kept_trans.
  - eapply kept_trans; [exact Hk|apply handleClose_kept].
  - eapply kept_trans; [exact Hk|apply handleClose_kept].
Qed.

Lemma flushTlsOutput_kept c : kept c (flushTlsOutput c).
Proof.
  unfold flushTlsOutput. case_match; [done|]. pose proof (flush_loop_kept (write_fuel c) c) as Hk.
  destruct (flush_loop _ _) as [c1 []]; [|done]. cbn [fst snd negb] in *.
  set (c2 := if writing _ && _ then _ else _).
  assert (kept c c2) as Hk2 by (by unfold c2; case_match).
  destruct (finish_completions_kept c2) as [Hk3 _]. pose proof (kept_trans _ _ _ Hk2 Hk3) as Hk4.
  case_match; [|done]. eapply kept_trans; [exact Hk4|apply shutdownInLoop_kept].
Qed.

Lemma handlePlainWrite_kept c : kept c (handlePlainWrite c).
Proof.
  unfold handlePlainWrite. destruct (writing c); [|done]. cbn [negb].
  destruct (next_write c) as [o c1] eqn:E. destruct (next_write_kept _ _ _ E) as [Hk _]. cbn [fst snd].
  destruct o as [n| | | | |]; try done. case_match; [done|]. set (c2 := retrieve_output _ _).
  case_match; [done|]. destruct (finish_completions_kept (set_writing false c2)) as [Hk2 _].
  assert (kept c (finishOutputCompletions (set_writing false c2))) as Hk3 by (by eapply kept_trans).
  case_match; [|done]. eapply kept_trans; [exact Hk3|apply shutdownInLoop_kept].
Qed.

Lemma send_direct_kept m c : kept c (send_direct m c).2.
Proof.
  unfold send_direct. destruct (next_write c) as [o c1] eqn:E. destruct (next_write_kept _ _ _ E) as [Hk _].
  by destruct o.
Qed.

Lemma send_now_kept m k c : kept c (send_now m k c).
Proof.
  unfold send_now. case_match.
  - unfold send_tls. case_match; [|by destruct k]. eapply kept_trans; [|apply flushTlsOutput_kept]. by destruct k.
  - unfold send_plain. set (r := if negb (writing c) && negb (readable c) then send_direct m c else ((None, false), c)).
    assert (kept c r.2) as Hk by (unfold r; case_match; [apply send_direct_kept|done]).
    case_match; [by destruct k|]. case_match; [|done].
    case_match; (eapply kept_trans; [exact Hk|]); by destruct k.
Qed.

Lemma sendInLoop_same m k c : same_frames c (sendInLoop m k c).
Proof.
  unfold sendInLoop. case_match; [done|]. case_match; [done|].
  apply (kept_same (record_item (Text m) c)), send_now_kept.
Qed.

Lemma drain_same c : same_frames c (drainDeferredSends c).
Proof.
  unfold drainDeferredSends. set (c1 := on_output _ c). assert (same_frames c c1) as Hs by done.
  clearbody c1. revert c1 Hs. induction (deferredSends_ (output c)) as [|[m k] l IH]; intros c1 Hs; [done|].
  simpl. apply IH. eapply same_frames_trans; [exact Hs|apply sendInLoop_same].
Qed.

Lemma ask_same b i c : same_frames c (ask b i c).
Proof. by destruct b. Qed.

Lemma shutdown_same c : same_frames c (shutdown c).
Proof.
  unfold shutdown. case_match; [|done]. apply (kept_same (set_state_ kDisconnecting c)), shutdownInLoop_kept.
Qed.

Lemma forceClose_same c : same_frames c (forceClose c).
Proof. unfold forceClose. by case_match. Qed.

Section Files.
Variable files : string -> option string.

Lemma file_loop_same fuel c : same_frames c (file_loop files fuel c).1.
Proof.
  revert c. induction fuel as [|fuel IH]; intros c; [done|]. cbn [file_loop].
  destruct (activeFileSend_ (output c)) as [p|] eqn:Ef; [|done].
  case_match; [done|]. case_match; [done|]. set (chunk := slice _ _ _ _).
  case_match; [apply kept_same, handleClose_kept|].
  destruct (next_write c) as [o c1] eqn:E. destruct (next_write_kept _ _ _ E) as [Hk _]. cbn [fst snd].
  assert (same_frames c (handleClose c1)) as Hc.
  { eapply same_frames_trans; [by apply kept_same|apply kept_same, handleClose_kept]. }
  apply kept_same in Hk. destruct o as [n| | | | |]; cbn [fst snd]; try done.
  - case_match; [done|]. eapply same_frames_trans; [|apply IH].
    destruct Hk as [F1 F2]. unfold same_frames. simpl. rewrite F2. split; [|done]. rewrite <- F1.
    by destruct (activeFileSend_ (output c1)).
  - by case_match.
  - case_match; [done|]. eapply same_frames_trans; [exact Hk|apply IH].
Qed.

Lemma frames_left_same c c' : same_frames c c' -> frames_left c' = frames_left c.
Proof.
  intros [H1 H2]. unfold frames_left. rewrite H2. f_equal.
  destruct (activeFileSend_ (output c')), (activeFileSend_ (output c)); simpl in H1; try done.
  by injection H1 as ->.
Qed.

(** ** The recursion of file frames ends *)

(** The frames that starting [p] may start, itself included. *)
Definition cost (p : PendingFileSend) (c : Tcp) : nat := S (frames_after (pf_completion p)) + frames_left c.

Section Start.
Variable start : PendingFileSend -> Tcp -> Tcp.
Variable start' : PendingFileSend -> Tcp -> Tcp.
Variable fuel : nat.
(** Within [fuel] frames the two agree and start no frame twice. *)
Hypothesis start_agree : forall p c, active c = false -> cost p c <= fuel ->
  start' p c = start p c /\ S (frames_left (start p c)) <= cost p c.

Lemma sendFileFrameInLoop_agree p c : cost p c <= fuel ->
  sendFileFrameInLoop start' p c = sendFileFrameInLoop start p c /\
  frames_left (sendFileFrameInLoop start p c) <= cost p c.
Proof.
  intros Hc. unfold sendFileFrameInLoop. destruct (is_state _ c); [unfold cost; split; [done|lia]|].
  destruct (active c) eqn:Ea.
  - split; [done|]. unfold cost, frames_left. simpl. rewrite map_app, sum_list_with_app. simpl. lia.
  - destruct (start_agree p c Ea Hc). split; [done|lia].
Qed.

Lemma perform_agree r c : frames_of r + frames_left c <= fuel ->
  perform start' r c = perform start r c /\ frames_left (perform start r c) <= frames_of r + frames_left c.
Proof.
  intros Hc. destruct r as [m k|h p o n k| |]; cbn [perform].
  - split; [done|]. rewrite (frames_left_same c); [lia|]. apply (same_frames_trans _ _ _ (ask_same (is_state kConnected c) (Text m) c)).
    unfold send. case_match; [apply sendInLoop_same|done].
  - cbv zeta. set (p1 := mkPendingFile h p o n k). pose proof (frames_left_same _ _ (ask_same (is_state kConnected c) (frame_of p1) c)) as E.
    set (c1 := ask _ _ c) in *. assert (cost p1 c1 = frames_of (SendFileFrame h p o n k) + frames_left c) as <-
      by (unfold cost; by rewrite E).
    unfold sendFileFrame. case_match; [apply sendFileFrameInLoop_agree; unfold cost; rewrite E; exact Hc|].
    split; [done|unfold cost; lia].
  - rewrite (frames_left_same _ _ (shutdown_same c)). split; [done|lia].
  - rewrite (frames_left_same _ _ (forceClose_same c)). split; [done|lia].
Qed.

Lemma performs_agree l c : frames_in l + frames_left c <= fuel ->
  performs start' l c = performs start l c /\ frames_left (performs start l c) <= frames_in l + frames_left c.
Proof.
  revert c. induction l as [|r l IH]; intros c Hc; [split; [done|simpl; lia]|].
  change (frames_in (r :: l)) with (frames_of r + frames_in l) in *.
  destruct (perform_agree r c) as [E Hle]; [lia|]. simpl. rewrite E.
  destruct (IH (perform start r c)) as [E' Hle']; [lia|]. split; [exact E'|].
  unfold performs in *. lia.
Qed.

Lemma call_completion_agree k c : frames_after k + frames_left c <= fuel ->
  call_completion start' k c = call_completion start k c /\
  frames_left (call_completion start k c) <= frames_after k + frames_left c.
Proof. destruct k as [l|]; [apply performs_agree|done]. Qed.

Lemma startNext_agree c : frames_left c <= fuel ->
  startNextQueuedFileFrame start' c = startNextQueuedFileFrame start c /\
  frames_left (startNextQueuedFileFrame start c) <= frames_left c.
Proof.
  intros Hc. unfold startNextQueuedFileFrame. destruct (active c) eqn:Ea; [done|].
  destruct (is_state _ c); [done|]. cbn [orb].
  destruct (queuedFileFrames_ (output c)) as [|p rest] eqn:Eq; [done|].
  set (c1 := on_output _ c). apply active_none in Ea.
  assert (cost p c1 = frames_left c) as Hcost.
  { unfold cost, frames_left, c1. simpl. rewrite Eq, Ea. simpl. lia. }
  destruct (start_agree p c1) as [E Hle]; [by apply active_none|lia|]. split; [done|lia].
Qed.

Lemma finishActive_agree c : frames_left c <= fuel ->
  finishActiveFileSend start' c = finishActiveFileSend start c /\
  frames_left (finishActiveFileSend start c) <= frames_left c.
Proof.
  intros Hc. unfold finishActiveFileSend. destruct (activeFileSend_ (output c)) as [p|] eqn:Ea; [|done].
  set (c1 := drainDeferredSends _).
  assert (frames_after (pf_completion p) + frames_left c1 = frames_left c) as H1.
  { unfold c1. rewrite (frames_left_same _ _ (drain_same _)). unfold frames_left. simpl. by rewrite Ea. }
  destruct (call_completion_agree (pf_completion p) c1) as [E Hle]; [lia|]. rewrite E.
  set (c2 := call_completion start _ _) in *. set (c3 := if active c2 then c2 else startNextQueuedFileFrame start c2).
  assert ((if active c2 then c2 else startNextQueuedFileFrame start' c2) = c3 /\ frames_left c3 <= frames_left c2) as [E3 H3].
  { unfold c3. case_match; [done|]. apply startNext_agree. lia. }
  clearbody c3. rewrite E3. split; [done|].
  destruct (_ && _); [change (frames_left (set_writing false c3)) with (frames_left c3)|]; lia.
Qed.

Lemma flushFileSend_agree c : frames_left c <= fuel ->
  flushFileSend files start' c = flushFileSend files start c /\
  frames_left (flushFileSend files start c) <= frames_left c.
Proof.
  intros Hc. unfold flushFileSend. case_match; [done|]. set (c1 := if readable c then _ else c).
  assert (frames_left c1 = frames_left c) as H1.
  { apply frames_left_same, kept_same. unfold c1.
    repeat case_match; [apply flushTlsOutput_kept|apply handlePlainWrite_kept|done]. }
  case_match; [split; [done|lia]|]. pose proof (frames_left_same _ _ (file_loop_same (write_fuel c1) c1)) as H2.
  destruct (file_loop files (write_fuel c1) c1) as [c2 []]; cbn [fst snd] in *; [|split; [done|lia]].
  destruct (finishActive_agree c2) as [E Hle]; [lia|]. split; [done|lia].
Qed.
End Start.

Lemma start_step fuel p c : startFileFrame files (S fuel) p c =
  if is_state kDisconnected c then c
  else match files (pf_path p) with
       | None => forceClose (call_completion (startFileFrame files fuel) (pf_completion p) c)
       | Some _ =>
           flushFileSend files (startFileFrame files fuel) (on_output (set_activeFileSend_ (Some p))
             (send_now (pf_header p) None
                (record_item (frame_of p) c)))
       end.
Proof. done. Qed.

Lemma startFileFrame_agree fuel p c : active c = false -> cost p c <= fuel ->
  startFileFrame files (S fuel) p c = startFileFrame files fuel p c /\
  S (frames_left (startFileFrame files fuel p c)) <= cost p c.
Proof.
  revert p c. induction fuel as [|fuel IH]; intros p c Ha Hc; [unfold cost in Hc; lia|].
  rewrite !start_step. destruct (is_state _ c); [unfold cost; split; [done|lia]|].
  destruct (files (pf_path p)) as [content|].
  - set (c1 := on_output _ _). apply active_none in Ha.
    assert (S (frames_left c1) = cost p c) as H1.
    { destruct (send_now_kept (pf_header p) None
        (record_item (frame_of p) c)) as (_ & Hq & _).
      unfold cost, frames_left, c1. cbn [activeFileSend_ queuedFileFrames_ output on_output set_output set_activeFileSend_].
      rewrite Hq, Ha. simpl. lia. }
    destruct (flushFileSend_agree (startFileFrame files fuel) (startFileFrame files (S fuel)) fuel IH c1) as [E Hle];
      [lia|]. split; [done|lia].
  - destruct (call_completion_agree (startFileFrame files fuel) (startFileFrame files (S fuel)) fuel IH
      (pf_completion p) c) as [E Hle]; [unfold cost in Hc; lia|].
    rewrite E. rewrite (frames_left_same _ _ (forceClose_same _)). split; [done|]. unfold cost. lia.
Qed.

(** The recursion of file frames ends.  Starting a frame may run its
    completion, which may send frames, which may complete at once, and may
    start the frames of the queue; yet a recursion as deep as the number of
    frames that have been asked for and not started, and one for the frame
    itself, is all that is ever used: a deeper one gives the same result, for a
    frame, for the calls of a callback and for a flush. *)
Theorem file_frames_end c extra :
  (forall p, active c = false ->
     startFileFrame files (extra + S (frames_after (pf_completion p) + frames_left c)) p c =
     startFileFrame files (S (frames_after (pf_completion p) + frames_left c)) p c) /\
  (forall l, performs (startFileFrame files (extra + (frames_in l + frames_left c))) l c = run_requests files l c) /\
  flushFileSend files (startFileFrame files (extra + frames_left c)) c =
  flushFileSend files (startFileFrame files (frames_left c)) c.
Proof.
  induction extra as [|extra (IH1 & IH2 & IH3)]; [done|]. split_and!.
  - intros p Ha. rewrite <- IH1 by done. apply startFileFrame_agree; [done|]. unfold cost. lia.
  - intros l. rewrite <- IH2. eapply performs_agree; [apply startFileFrame_agree|lia].
  - rewrite <- IH3. eapply flushFileSend_agree; [apply startFileFrame_agree|lia].
Qed.
End Files.
End ConnectionFrames.
