(* ===== verification/ConnectionOrder.v ===== *)
(** * What is handed over and what is sent

    Every text and frame handed to a connection is accounted for: put on the
    wire, in the order of the calls for the texts, waiting in a queue, or, a
    frame, left out because its file cannot be opened.  And a completion that is
    posted is that of a text whose last byte the kernel has. *)
From S2P Require Import Prelude Connection ConnectionProps ConnectionFrames.
Import Connection ConnectionProps ConnectionFrames.

Module ConnectionOrder.

Lemma texts_app l l' : texts (l ++ l') = texts l ++ texts l'.
Proof. apply omap_app. Qed.
Lemma frames_app l l' : frames (l ++ l') = frames l ++ frames l'.
Proof. apply filter_app. Qed.

Section Files.
Variable files : string -> option string.

(** ** The accounts of a connection *)

(** The text that follows [i] others is in [l], and its last byte is among the
    first [n] of the stream. *)
Definition ends (l : list item) (i n : nat) : Prop := exists l1 m l2,
  l = l1 ++ Text m :: l2 /\ length (texts l1) = i /\ String.length (stream files (l1 ++ [Text m])) <= n.

Definition sent (c : Tcp) : nat := String.length (wire (socket c)).
Definition total (c : Tcp) : nat := sent c + String.length (outputBuffer_ (output c)).

Definition intact (tail : string) (c : Tcp) : Prop :=
  wire (socket c) +:+ outputBuffer_ (output c) +:+ rest_of files (activeFileSend_ (output c)) +:+ tail =
  stream files (items (output c)).

(** Nothing more is sent: the connection is closed, or has lost a direct [send]. *)
Definition broken (c : Tcp) : Prop :=
  state_ c = kDisconnected \/ (tlsEnabled c = false /\ writing c = false /\ outputBuffer_ (output c) = "").

Definition unreadable (i : item) : Prop := match i with Frame _ path _ _ => files path = None | Text _ => False end.

(** The accounts of an open connection, with texts and frames in the hand of the
    operation that is running. *)
Record open_accounts (texts_held : list (string * option waiting)) (frames_held : list PendingFileSend) (o : Output) : Prop := mkOpen {
  op_texts : texts (items o) ++ (deferredSends_ o ++ texts_held).*1 = texts (asked o);
  op_numbers : forall i m k, (deferredSends_ o ++ texts_held) !! i = Some (m, Some k) -> w_text k = length (texts (items o)) + i;
  op_idle : activeFileSend_ o = None -> deferredSends_ o = [];
  op_frames : exists missing, Forall unreadable missing /\
    frames (asked o) ≡ₚ frames (items o) ++ map frame_of (queuedFileFrames_ o ++ frames_held) ++ missing }.

(** [tail] is what of the last item is not yet in the output buffer. *)
Record ordered (tail : string) (texts_held : list (string * option waiting)) (frames_held : list PendingFileSend) (c : Tcp) : Prop := mkOrdered {
  or_flow : intact tail c \/ dead (socket c) = true /\ broken c;
  or_pending : Forall (fun k => ends (items (output c)) (w_text k) (total c)) (pendingSendCompletions_ (output c));
  or_posted : forall k, Complete k ∈ posted c -> ends (items (output c)) (w_text k) (sent c);
  or_texts : texts (items (output c)) `prefix_of` texts (asked (output c));
  or_frames : frames (items (output c)) ++ map frame_of (queuedFileFrames_ (output c)) ⊆+ frames (asked (output c));
  or_open : state_ c <> kDisconnected -> open_accounts texts_held frames_held (output c) }.
Abbreviation even := (ordered "" [] []).

Lemma ends_app l l' i n : ends l i n -> ends (l ++ l') i n.
Proof.
  intros (l1 & m & l2 & -> & H). exists l1, m, (l2 ++ l'). split; [|done]. by rewrite <- app_assoc.
Qed.
Lemma ends_le l i n n' : n <= n' -> ends l i n -> ends l i n'.
Proof. intros Hn (l1 & m & l2 & Hl & Hi & Hs). exists l1, m, l2. split_and!; [done..|lia]. Qed.

(** ** What only moves bytes from the buffer to the wire *)

Record flushes (c c' : Tcp) : Prop := mkFlushes {
  fl_kept : kept c c';
  fl_tls : tlsEnabled c' = tlsEnabled c;
  fl_closed : state_ c = kDisconnected -> state_ c' = kDisconnected;
  fl_dead : dead (socket c) = true -> dead (socket c') = true;
  fl_broken : broken c -> broken c';
  fl_bytes : exists b, wire (socket c') = wire (socket c) +:+ b /\ outputBuffer_ (output c) = b +:+ outputBuffer_ (output c');
  fl_pending : pendingSendCompletions_ (output c') ⊆ pendingSendCompletions_ (output c);
  fl_posted : forall k, Complete k ∈ posted c' ->
    Complete k ∈ posted c \/ (k ∈ pendingSendCompletions_ (output c) /\ total c <= sent c') }.

Lemma flushes_total c c' : flushes c c' -> total c' = total c /\ sent c <= sent c'.
Proof.
  intros [_ _ _ _ _ (b & Hw & Hb) _ _]. unfold total, sent. rewrite Hw, Hb, !str_length_app. lia.
Qed.

(** Nothing moves; the flags may. *)
Lemma flushes_flags c c' :
  output c' = output c -> wire (socket c') = wire (socket c) -> tlsEnabled c' = tlsEnabled c ->
  (forall k, Complete k ∈ posted c' -> Complete k ∈ posted c) ->
  (state_ c = kDisconnected -> state_ c' = kDisconnected) -> (dead (socket c) = true -> dead (socket c') = true) ->
  (broken c -> broken c') -> flushes c c'.
Proof.
  intros Ho Hw Ht Hp Hs Hd Hb. split; rewrite ?Ho; try done.
  - unfold kept. by rewrite Ho.
  - exists "". by rewrite Hw, str_app_nil_r.
  - intros k Hk. left. by apply Hp.
Qed.

Lemma flushes_refl c : flushes c c.
Proof. by apply flushes_flags. Qed.

Lemma flushes_trans c c1 c2 : flushes c c1 -> flushes c1 c2 -> flushes c c2.
Proof.
  intros F G. pose proof (flushes_total _ _ F) as [T1 T2]. pose proof (flushes_total _ _ G) as [T3 T4].
  destruct F as [F1 F2 F3 F4 F5 (b & Hw & Hb) F7 F8], G as [G1 G2 G3 G4 G5 (b' & Hw' & Hb') G7 G8]. split; auto.
  - by eapply kept_trans.
  - congruence.
  - exists (b +:+ b'). rewrite Hw', Hw, Hb, Hb'. by rewrite !str_app_assoc.
  - by etrans.
  - intros k Hk. apply G8 in Hk as [Hk|[Hk Hn]].
    + apply F8 in Hk as [Hk|[Hk Hn]]; [by left|]. right. split; [done|lia].
    + right. split; [by apply F7|lia].
Qed.

Lemma flushes_ordered t ht hf c c' : flushes c c' -> ordered t ht hf c -> ordered t ht hf c'.
Proof.
  intros F [H1 H2 H3 H4 H5 H6]. pose proof (flushes_total _ _ F) as [T1 T2].
  destruct F as [(K1 & K2 & K3 & K4 & K5) F2 F3 F4 F5 (b & Hw & Hb) F7 F8].
  split; rewrite ?K2, ?K4, ?K5; try done.
  - destruct H1 as [H1|[Hd H1]]; [left|right; by auto]. unfold intact in *. rewrite K1, K4, <- H1, Hw, Hb.
    by rewrite !str_app_assoc.
  - rewrite T1. rewrite Forall_forall in *. intros k Hk. by apply H2, F7.
  - intros k Hk. apply F8 in Hk as [Hk|[Hk Hn]].
    + eapply ends_le; [exact T2|by apply H3].
    + eapply ends_le; [exact Hn|]. rewrite Forall_forall in H2. by apply H2.
  - intros Hs. destruct (H6 ltac:(auto)) as [O1 O2 O3 O4]. split; rewrite ?K1, ?K2, ?K3, ?K4, ?K5; done.
Qed.

(** The flag for writing may be set when the stream is whole. *)
Lemma ordered_writing b t ht hf c : intact t c -> ordered t ht hf c -> ordered t ht hf (set_writing b c).
Proof. intros Hi [H1 H2 H3 H4 H5 H6]. split; try done. by left. Qed.

(** ** Steps that flush *)

Ltac flags := apply flushes_flags; try done.

Lemma flushes_idle c : flushes c (set_writing false c).
Proof. flags. intros [?|(? & ? & ?)]; [by left|right; by split_and!]. Qed.
Lemma flushes_closing b c : broken c \/ state_ c <> kDisconnected -> state_ c <> kDisconnected -> b <> kDisconnected -> flushes c (set_state_ b c).
Proof. intros _ Hc Hb. flags. intros [?|?]; [done|by right]. Qed.

Lemma handleClose_flushes c : flushes c (handleClose c).
Proof.
  unfold handleClose, disableAll, is_state. case_bool_decide; [apply flushes_refl|].
  flags; try by case_match. intros _. left. by case_match.
Qed.

Lemma next_write_flushes c o c' : next_write c = (o, c') -> flushes c c'.
Proof.
  unfold next_write. destruct (dead (socket c)) eqn:Ed; [intros [= <- <-]; apply flushes_refl|].
  destruct (writes (socket c)) as [|[] rest]; intros [= <- <-]; flags; by rewrite Ed.
Qed.

Lemma next_write_dead c o c' : next_write c = (o, c') -> o <> Broken -> dead (socket c') = false.
Proof. intros E Ho. apply next_write_spec in E as (_ & _ & _ & Hd & _). by apply Hd. Qed.

Lemma shutdownInLoop_flushes c : flushes c (shutdownInLoop c).
Proof. unfold shutdownInLoop. case_match; [apply flushes_refl|by flags]. Qed.

Lemma shutdown_flushes c : flushes c (shutdown c).
Proof.
  unfold shutdown, is_state. case_bool_decide as Hc; [|apply flushes_refl].
  eapply flushes_trans; [|apply shutdownInLoop_flushes]. flags; [by rewrite Hc|].
  intros [E|?]; [by rewrite Hc in E|by right].
Qed.

Lemma post_other j c : (forall k, j <> Complete k) -> flushes c (post j c).
Proof.
  intros Hj. flags. intros k. simpl. rewrite elem_of_app, list_elem_of_singleton. intros [?|E]; [done|by destruct (Hj k)].
Qed.

Lemma forceClose_flushes c : flushes c (forceClose c).
Proof.
  unfold forceClose. destruct (_ && _) eqn:E; [apply flushes_refl|].
  assert (state_ c <> kDisconnected) as Hc by (intros Hc; unfold is_state in E; by rewrite Hc in E).
  eapply flushes_trans; [|by apply post_other]. flags. intros [?|?]; [done|by right].
Qed.

Lemma retrieve_flushes n c : flushes c (retrieve_output n (put (str_take n (outputBuffer_ (output c))) c)).
Proof.
  split; try done.
  - intros [?|(? & ? & E)]; [by left|right]. split_and!; try done. simpl. rewrite E. by destruct n.
  - exists (str_take n (outputBuffer_ (output c))). split; [done|]. by rewrite str_take_drop.
  - intros k Hk. by left.
Qed.

Lemma posts_posted (l : list waiting) c k :
  Complete k ∈ posted (foldl (fun c k => post (Complete k) c) c l) -> Complete k ∈ posted c \/ k ∈ l.
Proof.
  revert c. induction l as [|k' l IH]; intros c; simpl; [by left|]. intros Hk. apply IH in Hk as [Hk|Hk]; [|right; by right].
  simpl in Hk. apply elem_of_app in Hk as [Hk|Hk]; [by left|]. apply list_elem_of_singleton in Hk as [= ->]. right. by left.
Qed.

Lemma posts_rest (l : list waiting) c :
  let c' := foldl (fun c k => post (Complete k) c) c l in
  output c' = output c /\ socket c' = socket c /\ tlsEnabled c' = tlsEnabled c.
Proof. revert c. induction l as [|k l IH]; intros c; simpl; [done|]. apply (IH (post (Complete k) c)). Qed.

Lemma finish_completions_flushes c : readable c = false -> flushes c (finishOutputCompletions c).
Proof.
  intros Hr. assert (outputBuffer_ (output c) = "") as Hb by (by apply is_empty_true, negb_false_iff).
  unfold finishOutputCompletions. set (c0 := post WriteComplete c). set (l := pendingSendCompletions_ _).
  set (c1 := on_output (set_pendingSendCompletions_ []) c0).
  destruct (posts_spec l c1) as (_ & Hst & Hwr & _ & _). destruct (posts_rest l c1) as (Ho & Hs & Ht).
  set (c' := foldl _ c1 l) in *.
  split; rewrite ?Ho, ?Hs, ?Ht; try done.
  - unfold kept. by rewrite Ho.
  - by rewrite Hst.
  - unfold broken. by rewrite Hst, Ht, Hwr, Ho.
  - exists "". by rewrite str_app_nil_r.
  - apply list_subseteq_nil.
  - intros k Hk. apply posts_posted in Hk as [Hk|Hk].
    + left. simpl in Hk. apply elem_of_app in Hk as [Hk|Hk]; [done|]. by apply list_elem_of_singleton in Hk.
    + right. split; [done|]. unfold total, sent. rewrite Hs, Hb. simpl. lia.
Qed.

Lemma flush_loop_flushes fuel c : flushes c (flush_loop fuel c).1.
Proof.
  revert c. induction fuel as [|fuel IH]; intros c; [apply flushes_refl|]. cbn [flush_loop].
  destruct (readable c) eqn:Er; [|apply flushes_refl]. cbn [negb].
  destruct (next_write c) as [o c1] eqn:E. pose proof (next_write_flushes _ _ _ E) as F. cbn [fst snd].
  apply next_write_spec in E as (Ho & _ & _ & _ & _ & s & Es).
  destruct o as [n| | | | |]; cbn [fst snd]; try (eapply flushes_trans; [exact F|apply handleClose_flushes]).
  - case_match; [eapply flushes_trans; [exact F|apply handleClose_flushes]|].
    eapply flushes_trans; [exact F|]. eapply flushes_trans; [apply retrieve_flushes|apply IH].
  - eapply flushes_trans; [exact F|]. flags. intros [?|(_ & _ & Hb)]; [by left|].
    unfold readable in Er. rewrite <- Ho, Hb in Er. done.
  - eapply flushes_trans; [exact F|]. flags. intros [?|(? & ? & ?)]; [by left|right; by split_and!].
  - eapply flushes_trans; [exact F|apply IH].
Qed.

Lemma flush_loop_done fuel c : (flush_loop fuel c).2 = true -> readable (flush_loop fuel c).1 = false.
Proof.
  revert c. induction fuel as [|fuel IH]; intros c; [done|]. cbn [flush_loop]. destruct (readable c) eqn:Er; [|done]. cbn [negb].
  destruct (next_write c) as [o c1]. cbn [fst snd]. destruct o as [n| | | | |]; cbn [fst snd]; try done; [|apply IH].
  case_match; [done|apply IH].
Qed.

Lemma flushTlsOutput_flushes c : flushes c (flushTlsOutput c).
Proof.
  unfold flushTlsOutput. case_match; [apply flushes_refl|].
  pose proof (flush_loop_flushes (write_fuel c) c) as F. pose proof (flush_loop_done (write_fuel c) c) as Hd.
  destruct (flush_loop _ _) as [c1 b]. cbn [fst snd] in *. destruct b; [|done]. cbn [negb]. specialize (Hd eq_refl).
  set (c2 := if writing _ && _ then _ else _).
  assert (flushes c1 c2 /\ readable c2 = false) as [F2 Hr2].
  { unfold c2. destruct (_ && _); (split; [|done]); [|by flags].
    eapply (flushes_trans _ (set_tlsWriteBlockedOnRead_ false c1)); [by flags|apply flushes_idle]. }
  pose proof (flushes_trans _ _ _ F (flushes_trans _ _ _ F2 (finish_completions_flushes c2 Hr2))) as F3.
  case_match; [|done]. eapply flushes_trans; [exact F3|apply shutdownInLoop_flushes].
Qed.

Lemma handlePlainWrite_flushes c : flushes c (handlePlainWrite c).
Proof.
  unfold handlePlainWrite. destruct (writing c) eqn:Ew; [|apply flushes_refl]. cbn [negb].
  destruct (next_write c) as [o c1] eqn:E. pose proof (next_write_flushes _ _ _ E) as F. cbn [fst snd].
  destruct o as [n| | | | |]; try exact F. case_match; [done|]. set (c2 := retrieve_output _ _).
  assert (flushes c c2) as F2 by (eapply flushes_trans; [exact F|apply retrieve_flushes]).
  destruct (readable c2) eqn:Er; [done|].
  pose proof (flushes_trans _ _ _ F2 (flushes_trans _ _ _ (flushes_idle c2) (finish_completions_flushes (set_writing false c2) Er))) as F3.
  case_match; [|done]. eapply flushes_trans; [exact F3|apply shutdownInLoop_flushes].
Qed.
(** ** Sending *)

(** The number of a completion that goes into the buffer with the last item. *)
Definition of_last (m t : string) (k : option waiting) (c : Tcp) : Prop :=
  forall w, k = Some w -> t = "" /\ exists l, items (output c) = l ++ [Text m] /\ w_text w = length (texts l).

Lemma intact_app m t c :
  activeFileSend_ (output c) = None -> intact (m +:+ t) c -> intact t (append_output m c).
Proof. unfold intact. simpl. intros -> <-. simpl. by rewrite str_app_assoc. Qed.

Lemma append_ordered m t ht hf c :
  activeFileSend_ (output c) = None -> intact (m +:+ t) c -> ordered (m +:+ t) ht hf c ->
  ordered t ht hf (append_output m c).
Proof.
  intros Ha Hi [H1 H2 H3 H4 H5 H6]. split; try done; [left; by apply intact_app| |by intros Hs; destruct (H6 Hs)].
  eapply Forall_impl; [exact H2|]. intros k Hk. eapply ends_le; [|exact Hk]. unfold total. simpl. rewrite str_length_app.
  unfold sent. simpl. lia.
Qed.

Lemma of_last_ends m t k w c n :
  of_last m t k c -> k = Some w -> String.length (stream files (items (output c))) <= n ->
  ends (items (output c)) (w_text w) n.
Proof. intros Hk E Hn. destruct (Hk w E) as (_ & l & Hl & Hw). exists l, m, []. by rewrite <- Hl. Qed.

Lemma push_ordered m t k ht hf c :
  activeFileSend_ (output c) = None -> intact t c -> of_last m t k c -> ordered t ht hf c ->
  ordered t ht hf (push_completion k c).
Proof.
  intros Ha Hi Hk [H1 H2 H3 H4 H5 H6]. destruct k as [w|]; [|done]. split; try done; [|by intros Hs; destruct (H6 Hs)].
  apply Forall_app. split; [done|]. repeat constructor. change (ends (items (output c)) (w_text w) (total c)).
  apply (of_last_ends m t (Some w) w c); [done|done|]. destruct (Hk w eq_refl) as [-> _]. unfold intact in Hi. rewrite <- Hi, Ha. simpl. rewrite str_app_nil_r, str_length_app.
  done.
Qed.

Lemma push_flow t k c : intact t c -> intact t (push_completion k c).
Proof. by destruct k. Qed.

Lemma send_tls_ordered m t k ht hf c :
  tlsEnabled c = true -> activeFileSend_ (output c) = None -> state_ c <> kDisconnected -> of_last m t k c ->
  ordered (m +:+ t) ht hf c -> ordered t ht hf (send_tls m k c).
Proof.
  intros Ht Ha Hs Hk Ho. assert (intact (m +:+ t) c) as Hi.
  { destruct (or_flow _ _ _ _ Ho) as [?|[_ [?|[E _]]]]; [done|done|congruence]. }
  unfold send_tls. assert (ordered t ht hf (push_completion k (append_output m c))) as Ho1.
  { apply (push_ordered m); [done|by apply intact_app|done|by apply append_ordered]. }
  case_match; [|done]. eapply flushes_ordered; [apply flushTlsOutput_flushes|done].
Qed.

(** The kernel takes the front of a message. *)
Lemma put_front_ordered n m t ht hf c :
  activeFileSend_ (output c) = None -> outputBuffer_ (output c) = "" -> n <= String.length m ->
  intact (m +:+ t) c -> ordered (m +:+ t) ht hf c ->
  intact (str_drop n m +:+ t) (put (str_take n m) c) /\ ordered (str_drop n m +:+ t) ht hf (put (str_take n m) c).
Proof.
  intros Ha Hb Hn Hi [H1 H2 H3 H4 H5 H6].
  assert (intact (str_drop n m +:+ t) (put (str_take n m) c)) as Hi'.
  { unfold intact in *. simpl. rewrite Ha, Hb in *. cbn [rest_of] in *. rewrite <- Hi, !str_app_nil_l, str_app_assoc. f_equal.
    rewrite <- str_app_assoc. by rewrite str_take_drop. }
  split; [done|]. split; try done; [by left| |].
  - eapply Forall_impl; [exact H2|]. intros k Hk. eapply ends_le; [|exact Hk]. unfold total, sent. simpl. rewrite str_length_app. lia.
  - intros k Hk. eapply ends_le; [|by apply H3]. unfold sent. simpl. rewrite str_length_app. lia.
Qed.

(** After the direct [send] the stream is whole, or lost for good. *)
Lemma send_direct_ordered m t ht hf c :
  activeFileSend_ (output c) = None -> outputBuffer_ (output c) = "" -> state_ c <> kDisconnected ->
  ordered (m +:+ t) ht hf c ->
  let r := send_direct m c in
  ordered (str_drop (default 0 r.1.1) m +:+ t) ht hf r.2 /\ kept c r.2 /\ outputBuffer_ (output r.2) = "" /\
  (r.1.2 = false -> intact (str_drop (default 0 r.1.1) m +:+ t) r.2) /\
  (r.1.2 = true -> r.1.1 = None /\ dead (socket r.2) = true /\ writing r.2 = writing c /\ tlsEnabled r.2 = tlsEnabled c).
Proof.
  intros Ha Hb Hs Ho. unfold send_direct. destruct (next_write c) as [o c1] eqn:E.
  pose proof (flushes_ordered _ _ _ _ _ (next_write_flushes _ _ _ E) Ho) as Ho1.
  pose proof (next_write_dead _ _ _ E) as Hd. pose proof (next_write_kept _ _ _ E) as [Hk Hst].
  pose proof E as E'. apply next_write_spec in E as (Eo & _ & _ & _ & _ & s & Es).
  assert (o <> Broken -> intact (m +:+ t) c1) as Hi.
  { intros Hne. destruct (or_flow _ _ _ _ Ho1) as [?|[F _]]; [done|]. by rewrite Hd in F. }
  cbn [fst snd]. destruct o as [n| | | | |]; cbn [fst snd default]; rewrite ?str_drop_0;
    try (split_and!; [done|done|by rewrite Eo|intros _; by apply Hi|done]).
  - destruct (put_front_ordered (n `min` String.length m) m t ht hf c1) as [F1 F2]; [by rewrite Eo|by rewrite Eo|lia|by apply Hi|done|].
    split_and!; [exact F2|done|simpl; by rewrite Eo|done|done].
  - split_and!; [done|done|by rewrite Eo|done|]. intros _. rewrite Es. split_and!; [done| |done|done].
    rewrite <- Es. unfold next_write in E'. destruct (dead (socket c)) eqn:Ed; [by injection E' as <-|].
    destruct (writes (socket c)) as [|[] rest]; try done. by injection E' as <-.
Qed.

(** A lost message: the tail is given up. *)
Lemma tail_lost t t' ht hf c : dead (socket c) = true -> broken c -> ordered t ht hf c -> ordered t' ht hf c.
Proof. intros Hd Hb [H1 H2 H3 H4 H5 H6]. split; try done. by right. Qed.

Lemma send_plain_ordered m t k ht hf c :
  tlsEnabled c = false -> activeFileSend_ (output c) = None -> state_ c <> kDisconnected -> of_last m t k c ->
  ordered (m +:+ t) ht hf c -> ordered t ht hf (send_plain m k c).
Proof.
  intros Ht Ha Hs Hk Ho. unfold send_plain.
  set (r := if negb (writing c) && negb (readable c) then send_direct m c else ((None, false), c)).
  assert (ordered (str_drop (default 0 r.1.1) m +:+ t) ht hf r.2 /\ kept c r.2 /\
    (r.1.2 = false -> intact (str_drop (default 0 r.1.1) m +:+ t) r.2) /\
    (is_Some r.1.1 -> outputBuffer_ (output r.2) = "") /\
    (r.1.2 = true -> r.1.1 = None /\ dead (socket r.2) = true /\ broken r.2)) as (G1 & G2 & G3 & G4 & G5).
  { unfold r. destruct (negb (writing c) && negb (readable c)) eqn:E.
    - unfold readable in E. case_bools. pose proof (send_direct_ordered m t ht hf c Ha (is_empty_true _ ltac:(done)) Hs Ho) as (F1 & F2 & F3 & F4 & F5).
      split_and!; [done..|]. intros Hf. destruct (F5 Hf) as (Hn & Hd & Hw & Htl). split; [done|]. split; [done|]. right. rewrite Htl, Hw. done.
    - cbn [fst snd default]. rewrite str_drop_0. split_and!; try done.
      intros _. destruct (or_flow _ _ _ _ Ho) as [?|[_ [?|(_ & Hw & Hb)]]]; [done..|].
      unfold readable in E. rewrite Hw, Hb in E. done. }
  assert (activeFileSend_ (output r.2) = None) as Ha2 by (destruct G2 as [-> _]; exact Ha).
  assert (of_last m t k r.2) as Hk2.
  { intros w Hw. destruct G2 as (_ & _ & _ & -> & _). by apply Hk. }
  destruct r as [[b fault] c1]. cbn [fst snd] in *.
  destruct ((String.length m - default 0 b =? 0) && bool_decide (is_Some b)) eqn:E1.
  - apply andb_true_iff in E1 as [Hz Hb]. apply Nat.eqb_eq in Hz. apply bool_decide_eq_true in Hb.
    destruct fault; [by destruct (G5 eq_refl) as [-> _], Hb|].
    rewrite str_drop_all, str_app_nil_l in G1, G3 by done. specialize (G3 eq_refl). specialize (G4 Hb).
    assert (ordered t ht hf (post WriteComplete c1)) as G6 by (eapply flushes_ordered; [by apply post_other|done]).
    destruct k as [w|]; [|done]. destruct G6 as [H1 H2 H3 H4 H5 H6]. split; try done.
    intros w' Hw'. apply elem_of_app in Hw' as [Hw'|Hw']; [by apply H3|]. apply list_elem_of_singleton in Hw' as [= ->].
    apply (of_last_ends m t (Some w) w c1); [done|done|]. destruct (Hk2 w eq_refl) as [-> _].
    unfold intact in G3. rewrite <- G3, Ha2, G4. simpl. by rewrite !str_app_nil_r.
  - destruct fault; cbn [negb andb].
    { destruct (G5 eq_refl) as (_ & Hd & Hbr). by eapply tail_lost. }
    specialize (G3 eq_refl).
    destruct (Nat.eqb_spec (String.length m - default 0 b) 0) as [Hz|Hz]; cbn [negb].
    { by rewrite str_drop_all, str_app_nil_l in G1. }
    assert (intact t (append_output (str_drop (default 0 b) m) c1)) as G6 by (by apply intact_app).
    assert (ordered t ht hf (push_completion k (append_output (str_drop (default 0 b) m) c1))) as G7.
    { apply (push_ordered m); [done|done|done|by apply append_ordered]. }
    case_match; [done|]. apply ordered_writing; [by apply push_flow|done].
Qed.
Lemma send_now_ordered m t k ht hf c :
  activeFileSend_ (output c) = None -> state_ c <> kDisconnected -> of_last m t k c ->
  ordered (m +:+ t) ht hf c -> ordered t ht hf (send_now m k c).
Proof.
  intros. unfold send_now. destruct (tlsEnabled c) eqn:Et; [by apply send_tls_ordered|by apply send_plain_ordered].
Qed.

(** ** Texts *)

(** What is in hand does not matter on a closed connection. *)
Lemma closed_ordered t ht hf ht' hf' c : state_ c = kDisconnected -> ordered t ht hf c -> ordered t ht' hf' c.
Proof. intros Hs [H1 H2 H3 H4 H5 H6]. by split. Qed.

Lemma record_flow i c :
  activeFileSend_ (output c) = None -> intact "" c \/ dead (socket c) = true /\ broken c ->
  intact (item_bytes files i) (record_item i c) \/ dead (socket (record_item i c)) = true /\ broken (record_item i c).
Proof.
  intros Ha [Hi|H]; [left|by right]. unfold intact in *. simpl. rewrite stream_app, <- Hi, Ha. cbn [rest_of].
  by rewrite !str_app_nil_l, str_app_nil_r, str_app_assoc.
Qed.

(** A text in hand is put on the wire. *)
Lemma record_text m k ht hf c :
  activeFileSend_ (output c) = None -> state_ c <> kDisconnected -> ordered "" ((m, k) :: ht) hf c ->
  ordered m ht hf (record_item (Text m) c) /\ of_last m "" k (record_item (Text m) c).
Proof.
  intros Ha Hs [H1 H2 H3 H4 H5 H6]. destruct (H6 Hs) as [O1 O2 O3 (missing & O4 & O5)]. pose proof (O3 Ha) as Hd.
  rewrite Hd in O1, O2. simpl in O1, O2. split; [|intros w ->; split; [done|]].
  2:{ exists (items (output c)). split; [done|]. by rewrite (O2 0 m w eq_refl), Nat.add_0_r. }
  split; simpl.
  - by apply (record_flow (Text m)).
  - eapply Forall_impl; [exact H2|]. intros w Hw. by apply ends_app.
  - intros w Hw. by apply ends_app, H3.
  - rewrite texts_app. simpl. exists (ht.*1). by rewrite <- O1, <- app_assoc.
  - rewrite frames_app. simpl. rewrite app_nil_r. done.
  - intros _. split; simpl; rewrite ?Hd; simpl.
    + rewrite texts_app, <- O1. simpl. by rewrite <- app_assoc.
    + intros i m' w Hi. rewrite texts_app, length_app. simpl. rewrite (O2 (S i) m' w Hi). lia.
    + done.
    + exists missing. split; [done|]. rewrite frames_app. simpl. by rewrite app_nil_r.
Qed.

(** [sendInLoop] takes the next text in hand. *)
Lemma sendInLoop_ordered m k ht hf c :
  ordered "" ((m, k) :: ht) hf c -> ordered "" ht hf (sendInLoop m k c).
Proof.
  intros Ho. unfold sendInLoop, is_state. case_bool_decide as Hs; [by eapply closed_ordered|]. destruct (active c) eqn:Ea.
  - destruct Ho as [H1 H2 H3 H4 H5 H6]. split; try done. intros _. destruct (H6 Hs) as [O1 O2 O3 O4].
    split; simpl; rewrite <- ?app_assoc; try done. intros Hn. apply active_none in Hn. congruence.
  - apply active_none in Ea. destruct (record_text m k ht hf c Ea Hs Ho) as [F1 F2].
    apply send_now_ordered; [done|done|done|]. by rewrite str_app_nil_r.
Qed.

Lemma ask_text m k c : ordered "" [] [] c -> state_ c <> kDisconnected ->
  ordered "" [(m, number k c)] [] (ask true (Text m) c).
Proof.
  intros [H1 H2 H3 H4 H5 H6] Hs. destruct (H6 Hs) as [O1 O2 O3 (missing & O4 & O5)]. rewrite app_nil_r in O1, O2.
  split; simpl; try done.
  - rewrite texts_app. by apply prefix_app_r.
  - rewrite frames_app. simpl. by rewrite app_nil_r.
  - intros _. split; simpl; [| |done|].
    + rewrite texts_app, fmap_app, app_assoc, O1. done.
    + intros i m' w Hi. apply lookup_app_Some in Hi as [Hi|[Hle Hi]]; [by eapply O2|].
      assert (i = length (deferredSends_ (output c))) as ->.
      { apply lookup_lt_Some in Hi. simpl in Hi. lia. }
      rewrite Nat.sub_diag in Hi. injection Hi as _ Hw. unfold number in Hw. destruct k as [l|]; [|done].
      injection Hw as <-. simpl. rewrite <- O1, length_app, length_fmap. done.
    + exists missing. split; [done|]. rewrite frames_app. simpl. by rewrite app_nil_r.
Qed.

Lemma ask_frame p c : ordered "" [] [] c -> state_ c <> kDisconnected ->
  ordered "" [] [p] (ask true (frame_of p) c).
Proof.
  intros [H1 H2 H3 H4 H5 H6] Hs. destruct (H6 Hs) as [O1 O2 O3 (missing & O4 & O5)].
  split; simpl; try done.
  - rewrite texts_app. simpl. by rewrite app_nil_r.
  - rewrite frames_app. by apply submseteq_inserts_r.
  - intros _. split; simpl; [|exact O2|exact O3|].
    + rewrite texts_app, O1. simpl. by rewrite app_nil_r.
    + exists missing. split; [done|]. rewrite frames_app, O5, !app_nil_r, map_app. simpl.
      rewrite <- !app_assoc. do 2 apply Permutation_app_head. apply Permutation_app_comm.
Qed.

Lemma send_ordered m k c : ordered "" [] [] c ->
  ordered "" [] [] (send m (number k c) (ask (is_state kConnected c) (Text m) c)).
Proof.
  intros Ho. unfold send. change (is_state kConnected (ask (is_state kConnected c) (Text m) c)) with
    (is_state kConnected (ask (is_state kConnected c) (Text m) c)).
  destruct (is_state kConnected c) eqn:E; cbn [ask]; [|by rewrite E].
  apply bool_decide_eq_true in E. change (is_state kConnected (on_output _ c)) with (is_state kConnected c).
  unfold is_state. rewrite bool_decide_eq_true_2 by done. apply sendInLoop_ordered.
  apply (ask_text m k c Ho). by rewrite E.
Qed.

Lemma take_deferred p c : activeFileSend_ (output c) = Some p -> pf_remaining p = 0%N -> ordered "" [] [] c ->
  ordered "" (deferredSends_ (output c)) [] (on_output (set_deferredSends_ []) (on_output (set_activeFileSend_ None) c)).
Proof.
  intros Hp Hz [H1 H2 H3 H4 H5 H6]. split; try done.
  - destruct H1 as [H1|H1]; [left|by right]. unfold intact in *. simpl. rewrite Hp in H1. simpl in H1.
    by rewrite Hz, slice_zero in H1.
  - intros Hs. destruct (H6 Hs) as [O1 O2 O3 O4]. rewrite app_nil_r in O1, O2. by split.
Qed.

Lemma drain_ordered p c : activeFileSend_ (output c) = Some p -> pf_remaining p = 0%N -> ordered "" [] [] c ->
  ordered "" [] [] (drainDeferredSends (on_output (set_activeFileSend_ None) c)).
Proof.
  intros Hp Hz Ho. unfold drainDeferredSends. pose proof (take_deferred p c Hp Hz Ho) as Ho1.
  change (deferredSends_ (output (on_output (set_activeFileSend_ None) c))) with (deferredSends_ (output c)).
  revert Ho1. generalize (on_output (set_deferredSends_ []) (on_output (set_activeFileSend_ None) c)).
  induction (deferredSends_ (output c)) as [|[m k] l IH]; intros d Hd; [done|]. simpl. by apply IH, sendInLoop_ordered.
Qed.

(** ** File frames *)

(** The kernel takes a piece of the active frame. *)
Lemma put_file_ordered p n request c :
  dead (socket c) = false -> outputBuffer_ (output c) = "" -> activeFileSend_ (output c) = Some p ->
  (request <= pf_remaining p)%N -> let chunk := slice files (pf_path p) (pf_offset p) request in
  n <= String.length chunk -> ordered "" [] [] c -> ordered "" [] [] (advance n (put (str_take n chunk) c)).
Proof.
  intros Hd Hb Hp Hr chunk Hn [H1 H2 H3 H4 H5 H6].
  assert (intact "" c) as Hi by (destruct H1 as [?|[? _]]; [done|congruence]).
  assert (streaming files "" (output c) (socket c)) as Hst.
  { split; [|done]. eexists. symmetry. exact Hi. }
  destruct (streaming_put_file files "" (output c) (socket c) p n request Hd Hb Hp Hr Hn Hst) as [_ Hi'].
  specialize (Hi' Hd). fold chunk in Hi'.
  unfold advance, put, on_output, on_socket. simpl. rewrite Hp. simpl. split; simpl; try done.
  - left. exact Hi'.
  - eapply Forall_impl; [exact H2|]. intros k Hk. eapply ends_le; [|exact Hk]. unfold total, sent. simpl. rewrite str_length_app. lia.
  - intros k Hk. eapply ends_le; [|by apply H3]. unfold sent. simpl. rewrite str_length_app. lia.
  - intros Hs. by destruct (H6 Hs).
Qed.

Lemma file_loop_ordered fuel c :
  outputBuffer_ (output c) = "" -> ordered "" [] [] c ->
  let r := file_loop files fuel c in
  ordered "" [] [] r.1 /\ (r.2 = true -> exists p, activeFileSend_ (output r.1) = Some p /\ pf_remaining p = 0%N).
Proof.
  revert c. induction fuel as [|fuel IH]; intros c Hb Ho; [done|]. cbn [file_loop].
  destruct (activeFileSend_ (output c)) as [p|] eqn:Ef; [|done].
  destruct (N.eqb_spec (pf_remaining p) 0) as [Hz|Hz]; cbn [fst snd]; [by split; [|exists p]|].
  destruct (tlsEnabled c && _); [done|]. set (whole := negb (tlsEnabled c) || zeroCopy c). set (request := N.min _ _).
  assert (request <= pf_remaining p)%N as Hreq by apply N.le_min_l. set (chunk := slice _ _ _ request).
  destruct (negb whole && is_empty chunk); cbn [fst snd].
  { split; [|done]. eapply flushes_ordered; [apply handleClose_flushes|done]. }
  destruct (next_write c) as [o c1] eqn:E. pose proof (flushes_ordered _ _ _ _ _ (next_write_flushes _ _ _ E) Ho) as Ho1.
  pose proof (next_write_dead _ _ _ E) as Hd. apply next_write_spec in E as (Hout & _). cbn [fst snd].
  assert (ordered "" [] [] (handleClose c1)) as Hcl by (eapply flushes_ordered; [apply handleClose_flushes|done]).
  assert (o <> Broken -> intact "" c1) as Hi.
  { intros Hne. destruct (or_flow _ _ _ _ Ho1) as [?|[F _]]; [done|]. by rewrite Hd in F. }
  destruct o as [n| | | | |]; cbn [fst snd]; try done.
  - destruct (n `min` _ =? 0) eqn:En; cbn [fst snd]; [done|]. apply IH; [simpl; by rewrite Hout|].
    assert (dead (socket c1) = false) as Hd1 by by apply Hd.
    rewrite <- Hout in Hb, Ef.
    exact (put_file_ordered p _ request c1 Hd1 Hb Ef Hreq (Nat.le_min_r _ _) Ho1).
  - split; [|done]. apply ordered_writing; [by apply Hi|done].
  - case_match; [|done]. split; [|done]. eapply flushes_ordered; [|exact Ho1].
    by apply flushes_flags.
  - case_match; [done|]. apply IH; [by rewrite Hout|done].
Qed.

(** A frame in hand is put on the wire. *)
Lemma activate_ordered p c :
  active c = false -> state_ c <> kDisconnected -> ordered "" [] [p] c ->
  ordered "" [] [] (on_output (set_activeFileSend_ (Some p)) (send_now (pf_header p) None (record_item (frame_of p) c))).
Proof.
  intros Ha Hs [H1 H2 H3 H4 H5 H6]. apply active_none in Ha.
  assert (ordered (item_bytes files (frame_of p)) [] [] (record_item (frame_of p) c)) as Ho.
  { destruct (H6 Hs) as [O1 O2 O3 (missing & O4 & O5)]. split; simpl.
    - by apply record_flow.
    - eapply Forall_impl; [exact H2|]. intros w Hw. by apply ends_app.
    - intros w Hw. by apply ends_app, H3.
    - rewrite texts_app. simpl. by rewrite app_nil_r.
    - rewrite frames_app, O5, map_app. simpl. rewrite <- !app_assoc. apply submseteq_app; [done|]. simpl.
      rewrite <- Permutation_middle. apply submseteq_skip, submseteq_inserts_r. done.
    - intros _. split; simpl; [| |exact O3|].
      + rewrite texts_app. simpl. by rewrite (app_nil_r (texts _)).
      + intros i m k Hi. rewrite texts_app, length_app. simpl. rewrite Nat.add_0_r. by apply (O2 i m k).
      + exists missing. split; [done|]. rewrite frames_app, O5, app_nil_r, map_app. simpl. rewrite <- !app_assoc.
        apply Permutation_app_head. simpl. rewrite <- Permutation_middle. done. }
  apply (send_now_ordered _ _ None) in Ho; [|done|done|done].
  pose proof (send_now_kept (pf_header p) None (record_item (frame_of p) c)) as (K1 & _).
  set (c1 := send_now _ _ _) in *. change (activeFileSend_ (output c1) = activeFileSend_ (output c)) in K1. rewrite Ha in K1.
  clear -Ho K1. destruct Ho as [H1 H2 H3 H4 H5 H6]. split; try done.
  - destruct H1 as [H1|H1]; [left|by right]. unfold intact in *. rewrite K1 in H1. simpl in *. by rewrite str_app_nil_r.
  - intros Hs. by destruct (H6 Hs).
Qed.

(** Fuel for one frame, as [file_frames_end] has it. *)
Section Start.
Variable fuel : nat.
#[local] Abbreviation start := (startFileFrame files fuel).
Hypothesis start_ordered : forall p c,
  active c = false -> cost p c <= fuel -> ordered "" [] [p] c -> even (start p c).

Lemma sendFileFrameInLoop_ordered p c : cost p c <= fuel -> ordered "" [] [p] c -> even (sendFileFrameInLoop start p c).
Proof.
  intros Hc Ho. unfold sendFileFrameInLoop, is_state. case_bool_decide as Hs; [by eapply closed_ordered|].
  destruct (active c) eqn:Ea; [|by apply start_ordered]. destruct Ho as [H1 H2 H3 H4 H5 H6].
  destruct (H6 Hs) as [O1 O2 O3 (missing & O4 & O5)]. split; try done; simpl.
  - rewrite O5, !map_app, <- !app_assoc. apply submseteq_app; [done|]. apply submseteq_app; [done|].
    by apply submseteq_inserts_r.
  - intros _. split; try done; simpl. exists missing. split; [done|]. by rewrite app_nil_r.
Qed.

Lemma perform_ordered r c : frames_of r + frames_left c <= fuel -> even c -> even (perform start r c).
Proof.
  intros Hc Ho. destruct r as [m k|h p o n k| |]; cbn [perform].
  - by apply send_ordered.
  - cbv zeta. set (p1 := mkPendingFile h p o n k). unfold sendFileFrame.
    destruct (is_state kConnected c) eqn:E; cbn [ask]; [|by rewrite E].
    change (is_state kConnected (on_output _ c)) with (is_state kConnected c). rewrite E.
    apply sendFileFrameInLoop_ordered; [exact Hc|]. apply (ask_frame p1 c Ho).
    apply bool_decide_eq_true in E. by rewrite E.
  - eapply flushes_ordered; [apply shutdown_flushes|done].
  - eapply flushes_ordered; [apply forceClose_flushes|done].
Qed.

Lemma performs_ordered l c : frames_in l + frames_left c <= fuel -> even c -> even (performs start l c).
Proof.
  revert c. induction l as [|r l IH]; intros c Hc Ho; [done|].
  change (frames_in (r :: l)) with (frames_of r + frames_in l) in Hc. simpl.
  destruct (perform_agree start (startFileFrame files (S fuel)) fuel (startFileFrame_agree files fuel) r c) as [_ Hle]; [lia|].
  apply IH; [lia|]. apply perform_ordered; [lia|done].
Qed.

Lemma call_completion_ordered k c : frames_after k + frames_left c <= fuel -> even c -> even (call_completion start k c).
Proof. destruct k as [l|]; [apply performs_ordered|done]. Qed.

Lemma startNext_ordered c : frames_left c <= fuel -> even c -> even (startNextQueuedFileFrame start c).
Proof.
  intros Hc Ho. unfold startNextQueuedFileFrame. destruct (active c) eqn:Ea; [done|]. cbn [orb].
  unfold is_state. case_bool_decide as Hs; [done|]. destruct (queuedFileFrames_ (output c)) as [|p rest] eqn:Eq; [done|].
  apply start_ordered; [done| |].
  - apply active_none in Ea. unfold frames_left in Hc. rewrite Ea, Eq in Hc. unfold cost, frames_left. simpl. rewrite Ea. simpl in *. lia.
  - destruct Ho as [H1 H2 H3 H4 H5 H6]. destruct (H6 Hs) as [O1 O2 O3 (missing & O4 & O5)]. split; try done; simpl.
    + etrans; [|exact H5]. rewrite Eq. apply submseteq_app; [done|]. simpl. by apply submseteq_cons.
    + intros _. split; try done; simpl. exists missing. split; [done|]. rewrite O5, Eq, app_nil_r. simpl.
      apply Permutation_app_head. rewrite map_app, <- app_assoc. simpl. by rewrite <- Permutation_middle.
Qed.

Lemma finishActive_ordered p c :
  activeFileSend_ (output c) = Some p -> pf_remaining p = 0%N -> frames_left c <= fuel -> even c ->
  even (finishActiveFileSend start c).
Proof.
  intros Hp Hz Hc Ho. unfold finishActiveFileSend. rewrite Hp. pose proof (drain_ordered p c Hp Hz Ho) as Ho1.
  assert (frames_after (pf_completion p) + frames_left (on_output (set_activeFileSend_ None) c) = frames_left c) as Hfl.
  { unfold frames_left. simpl. by rewrite Hp. }
  pose proof (frames_left_same _ _ (drain_same (on_output (set_activeFileSend_ None) c))) as Hfl1.
  set (c1 := drainDeferredSends _) in *.
  destruct (call_completion_agree start (startFileFrame files (S fuel)) fuel (startFileFrame_agree files fuel)
    (pf_completion p) c1) as [_ Hle]; [lia|].
  pose proof (call_completion_ordered (pf_completion p) c1 ltac:(lia) Ho1) as Ho2.
  set (c2 := call_completion _ _ c1) in *. set (c3 := if active c2 then c2 else _).
  assert (even c3) as Ho3 by (unfold c3; case_match; [done|apply startNext_ordered; [lia|done]]).
  clearbody c3. case_match; [|done]. eapply flushes_ordered; [apply flushes_idle|done].
Qed.

Lemma flushFileSend_ordered c : frames_left c <= fuel -> even c -> even (flushFileSend files start c).
Proof.
  intros Hc Ho. unfold flushFileSend. case_match; [done|]. set (c1 := if readable c then _ else c).
  assert (flushes c c1) as F.
  { unfold c1. repeat case_match; [apply flushTlsOutput_flushes|apply handlePlainWrite_flushes|apply flushes_refl]. }
  pose proof (flushes_ordered _ _ _ _ _ F Ho) as Ho1. destruct F as [Hk _ _ _ _ _ _ _].
  pose proof (frames_left_same _ _ (kept_same _ _ Hk)) as Hfl. clearbody c1.
  destruct (is_state kDisconnected c1) eqn:Ec; [done|]. destruct (readable c1) eqn:Er; [done|]. cbn [orb].
  assert (outputBuffer_ (output c1) = "") as Hb by (by apply is_empty_true, negb_false_iff).
  destruct (file_loop_ordered (write_fuel c1) c1 Hb Ho1) as [F1 F2].
  pose proof (frames_left_same _ _ (file_loop_same files (write_fuel c1) c1)) as Hfl1.
  destruct (file_loop files (write_fuel c1) c1) as [c2 []]; cbn [fst snd] in *; [|done].
  destruct (F2 eq_refl) as (p & Hp & Hz). eapply finishActive_ordered; [done|done|lia|done].
Qed.
End Start.

Lemma startFileFrame_ordered fuel p c :
  active c = false -> cost p c <= fuel -> ordered "" [] [p] c -> even (startFileFrame files fuel p c).
Proof.
  revert p c. induction fuel as [|fuel IH]; intros p c Ha Hc Ho; [unfold cost in Hc; lia|]. rewrite start_step.
  unfold is_state. case_bool_decide as Hs; [by eapply closed_ordered|]. destruct (files (pf_path p)) as [content|] eqn:Ef.
  - apply flushFileSend_ordered; [exact IH| |by apply activate_ordered].
    apply active_none in Ha.
    destruct (send_now_kept (pf_header p) None (record_item (frame_of p) c)) as (_ & Hq & _).
    unfold cost, frames_left in *. simpl. rewrite Hq. simpl. rewrite Ha in Hc. lia.
  - eapply flushes_ordered; [apply forceClose_flushes|]. apply call_completion_ordered; [exact IH|unfold cost in Hc; lia|].
    destruct Ho as [H1 H2 H3 H4 H5 H6]. split; try done. intros _. destruct (H6 Hs) as [O1 O2 O3 (missing & O4 & O5)].
    split; try done. exists (frame_of p :: missing). split; [by constructor|]. rewrite O5, map_app, app_nil_r. simpl.
    by rewrite <- app_assoc.
Qed.

(** ** Callbacks and events *)

Lemma run_requests_ordered l c : even c -> even (run_requests files l c).
Proof. apply performs_ordered; [apply startFileFrame_ordered|done]. Qed.

Lemma even_flags c c' : flushes c c' -> even c -> even c'.
Proof. apply flushes_ordered. Qed.

Lemma react_ordered c : even c -> even (react files c).
Proof.
  intros Ho. unfold react. destruct (app c) as [|r rest]; [done|]. apply run_requests_ordered.
  eapply even_flags; [|exact Ho]. by flags.
Qed.

Lemma flush_ordered c : even c -> even (flush files c).
Proof.
  intros Ho. unfold flush. case_match; [apply flushFileSend_ordered; [apply startFileFrame_ordered|done|done]|].
  case_match; (eapply even_flags; [|exact Ho]); [apply flushTlsOutput_flushes|apply handlePlainWrite_flushes].
Qed.

Lemma call_message_ordered c : even c -> even (call_message files c).
Proof. intros Ho. apply react_ordered. eapply even_flags; [|exact Ho]. by flags. Qed.

Lemma notify_ordered c : even c -> even (notifyApplicationEstablished files c).
Proof.
  intros Ho. unfold notifyApplicationEstablished. case_match; [done|]. apply react_ordered.
  eapply even_flags; [|exact Ho]. by flags.
Qed.

Lemma next_read_flushes c : flushes c (next_read c).2.
Proof. unfold next_read. destruct (reads (socket c)); [apply flushes_refl|by flags]. Qed.

Lemma handlePlainRead_ordered c : even c -> even (handlePlainRead files c).
Proof.
  intros Ho. unfold handlePlainRead. apply (even_flags _ _ (next_read_flushes c)) in Ho.
  destruct (next_read c) as [o c1]. cbn [fst snd] in *.
  pose proof (even_flags _ _ (handleClose_flushes c1) Ho). destruct o; try done. case_match; [done|].
  apply call_message_ordered. eapply even_flags; [|exact Ho]. by flags.
Qed.

Lemma read_loop_flushes fuel b c : tlsEnabled c = true -> flushes c (read_loop fuel b c).1.
Proof.
  revert b c. induction fuel as [|fuel IH]; intros b c Ht; [apply flushes_refl|]. cbn [read_loop].
  pose proof (next_read_flushes c) as F. assert (tlsEnabled (next_read c).2 = true) as Ht1 by by rewrite (fl_tls _ _ F).
  destruct (next_read c) as [o c1]. cbn [fst snd] in *. eapply flushes_trans; [exact F|].
  destruct o; cbn [fst snd]; try apply handleClose_flushes; try apply flushes_refl.
  - case_match; [apply handleClose_flushes|]. eapply flushes_trans; [|by apply IH]. by flags.
  - flags. intros [?|(Hf & _)]; [by left|congruence].
  - by apply IH.
Qed.

Lemma handleTlsRead_ordered c : even c -> even (handleTlsRead files c).
Proof.
  intros Ho. unfold handleTlsRead. destruct (_ || _) eqn:E; [done|]. case_bools.
  pose proof (even_flags _ _ (read_loop_flushes (S (length (reads (socket c)))) false c ltac:(done)) Ho) as Ho1.
  case_match; [by apply call_message_ordered|done].
Qed.

Lemma drive_ordered c : even c -> even (driveTlsHandshake files c).
Proof.
  intros Ho. unfold driveTlsHandshake. destruct (_ || _ || _) eqn:E; [done|].
  apply orb_false_iff in E as [E _]. apply orb_false_iff in E as [Ht _]. apply negb_false_iff in Ht.
  assert (flushes c (next_accept c).2) as F by (unfold next_accept; destruct (accepts (socket c)); [apply flushes_refl|by flags]).
  pose proof (fl_tls _ _ F) as Ht1. rewrite Ht in Ht1. apply (even_flags _ _ F) in Ho.
  assert (forall d, flushes d (stopIdleWriting d)) as Hidle.
  { intros d. unfold stopIdleWriting. case_match; [apply flushes_idle|apply flushes_refl]. }
  destruct (next_accept c) as [o c1]. cbn [fst snd] in *. destruct o.
  - unfold handshakeAccepted. set (c2 := set_tlsReadBlockedOnWrite_ false _).
    assert (even (notifyApplicationEstablished files (stopIdleWriting c2))) as Ho2.
    { apply notify_ordered. eapply even_flags; [|exact Ho]. eapply flushes_trans; [|apply Hidle]. by flags. }
    set (c3 := notifyApplicationEstablished _ _) in *. set (c4 := if readable c3 then _ else c3).
    assert (even c4) as Ho4 by (unfold c4; case_match; [eapply even_flags; [apply flushTlsOutput_flushes|done]|done]).
    case_match; [by apply handleTlsRead_ordered|done].
  - eapply even_flags; [|exact Ho]. eapply flushes_trans; [|apply Hidle]. by flags.
  - eapply even_flags; [|exact Ho]. flags. intros [?|(Hf & _)]; [by left|congruence].
  - eapply even_flags; [apply handleClose_flushes|done].
  - eapply even_flags; [apply handleClose_flushes|done].
Qed.

Lemma step_ordered e c : even c -> even (step files e c).
Proof.
  intros Ho. destruct e as [| | | |m k|p|l|]; cbn [step].
  - case_match; [|done]. unfold handleRead. case_match; [|by apply handlePlainRead_ordered].
    case_match; [by apply drive_ordered|]. apply handleTlsRead_ordered in Ho. case_match; [|done].
    apply flush_ordered. eapply even_flags; [|exact Ho]. by flags.
  - unfold handleWrite. case_match; [by apply drive_ordered|]. case_match; [|by apply flush_ordered].
    assert (even (set_tlsReadBlockedOnWrite_ false c)) as Ho1 by (eapply even_flags; [|exact Ho]; by flags).
    apply handleTlsRead_ordered in Ho1. case_match; [done|by apply flush_ordered].
  - eapply even_flags; [apply handleClose_flushes|done].
  - destruct (posted c) as [|j rest] eqn:Ep; [done|].
    assert (even (set_posted rest c)) as Ho1.
    { eapply even_flags; [|exact Ho]. flags. intros k Hk. rewrite Ep. by right. }
    destruct j as [k| |]; cbn [run_job]; [by apply run_requests_ordered|done|].
    unfold forceCloseInLoop. case_match; [|done]. eapply even_flags; [apply handleClose_flushes|done].
  - case_match; [|done]. unfold is_state. case_bool_decide as Hs; cbn [negb].
    + apply sendInLoop_ordered. by eapply closed_ordered.
    + by apply sendInLoop_ordered, ask_text.
  - case_match; [|done]. apply sendFileFrameInLoop_ordered; [apply startFileFrame_ordered| |].
    + unfold cost. by rewrite (frames_left_same _ _ (ask_same _ _ _)).
    + unfold is_state. case_bool_decide as Hs; cbn [negb]; [by eapply closed_ordered|by apply ask_frame].
  - case_match; [by apply run_requests_ordered|done].
  - unfold connectDestroyed. destruct (_ || _) eqn:E; [|done].
    eapply even_flags; [|exact Ho]. pose proof (handleClose_flushes c) as F. unfold handleClose in F.
    destruct (is_state kDisconnected c) eqn:Ed; [|exact F].
    apply bool_decide_eq_true in Ed. unfold is_state in E. by rewrite Ed in E.
Qed.

Lemma run_accounted tls zero s reactions es : wire s = "" -> even (run files tls zero s reactions es).
Proof.
  intros Hw. unfold run.
  assert (even (set_reading true (set_state_ kConnected (new_connection tls zero s reactions)))) as Ho.
  { split; simpl; try done; [left; unfold intact; simpl; by rewrite Hw|by intros k Hk%elem_of_nil|].
    intros _. split; try done. by exists []. }
  assert (even (connectEstablished files (new_connection tls zero s reactions))) as He.
  { unfold connectEstablished. case_match; [by apply drive_ordered|by apply notify_ordered]. }
  revert He. generalize (connectEstablished files (new_connection tls zero s reactions)).
  induction es as [|e es IH]; intros c Hc; [done|]. simpl. by apply IH, step_ordered.
Qed.
(** ** Theorems *)

(** The front of a string as long as a prefix of what extends it. *)
Lemma prefix_of_longer a b w r : a +:+ b = w +:+ r -> String.length a <= String.length w -> is_prefix a w.
Proof.
  intros E Hl. exists (str_drop (String.length a) w). rewrite <- (str_take_drop (String.length a) w) at 1. f_equal.
  rewrite <- (str_take_app_le _ w r) by done. rewrite <- E. apply str_take_app_length.
Qed.

Lemma stream_split l l' : stream files (l ++ l') = stream files l +:+ stream files l'.
Proof. induction l as [|i l IH]; simpl; [done|]. by rewrite IH, str_app_assoc. Qed.

(** C6: what is handed over is what is sent.  Whatever the kernel, OpenSSL, other
    threads and the application do: the bytes on the wire are a beginning of
    the texts and file frames that were put on the wire, each whole (no text is
    ever inside a frame, and a frame's header is followed by its own bytes); while
    the writing side is alive, the wire, the output buffer and the rest of the
    active frame are together exactly that stream.  The texts put on the wire
    are the first ones of those handed over, in the order of the calls, and the
    frames are among those handed over.  Nothing is lost or sent twice before
    the connection is closed: the texts behind are those deferred, in order, and
    the frames that are neither put on the wire nor queued are those whose file
    could not be opened. *)
Theorem stream_order tls zero s reactions es :
  wire s = "" ->
  let c := run files tls zero s reactions es in
  let o := output c in
  is_prefix (wire (socket c)) (stream files (items o)) /\
  (dead (socket c) = false ->
     wire (socket c) +:+ outputBuffer_ o +:+ rest_of files (activeFileSend_ o) = stream files (items o)) /\
  texts (items o) `prefix_of` texts (asked o) /\ frames (items o) ⊆+ frames (asked o) /\
  (state_ c <> kDisconnected ->
     texts (items o) ++ (deferredSends_ o).*1 = texts (asked o) /\
     exists missing, Forall unreadable missing /\
       frames (asked o) ≡ₚ frames (items o) ++ map frame_of (queuedFileFrames_ o) ++ missing).
Proof.
  intros Hw c o. destruct (run_healthy files tls zero s reactions es Hw) as (x & _ & [_ [Hp Ha] _ _]). fold c in Hp, Ha. fold o in Hp, Ha.
  destruct (run_accounted tls zero s reactions es Hw) as [_ _ _ H4 H5 H6]. fold c in H4, H5, H6. fold o in H4, H5, H6.
  split_and!; [exact Hp| |exact H4| |].
  - intros Hd. specialize (Ha Hd). by rewrite str_app_nil_r in Ha.
  - etrans; [|exact H5]. by apply submseteq_inserts_r.
  - intros Hs. destruct (H6 Hs) as [O1 _ _ (missing & O4 & O5)]. rewrite app_nil_r in O1. split; [exact O1|].
    exists missing. split; [done|]. by rewrite app_nil_r in O5.
Qed.

(** C31: what the application is told.  A connection announces itself once,
    delivers messages only after that, reports its end once and nothing after
    it; and a completion that is posted to the loop is that of a text, the one
    it was handed over with, that is on the wire to its last byte, with
    everything put on the wire before it. *)
Theorem notices_in_order tls zero s reactions es :
  wire s = "" ->
  let c := run files tls zero s reactions es in
  (told c = [] \/ exists n, told c = Up :: repeat Message n \/
     (told c = Up :: repeat Message n ++ [Down] /\ state_ c = kDisconnected)) /\
  forall k, Complete k ∈ posted c -> exists before m behind,
    items (output c) = before ++ Text m :: behind /\ length (texts before) = w_text k /\
    texts (asked (output c)) !! w_text k = Some m /\
    is_prefix (stream files (before ++ [Text m])) (wire (socket c)).
Proof.
  intros Hw c. destruct (run_healthy files tls zero s reactions es Hw) as (x & _ & [_ [[r Hp] _] Ht _]). fold c in Ht, Hp. split.
  - unfold notices in Ht. destruct (x_established x); [|by left]. destruct Ht as [n Ht]. right. exists n.
    case_bool_decide; [by right|left]. by rewrite app_nil_r in Ht.
  - intros k Hk. destruct (run_accounted tls zero s reactions es Hw) as [_ _ H3 H4 _ _]. fold c in H3, H4.
    destruct (H3 k Hk) as (l1 & m & l2 & Hl & Hi & Hn). exists l1, m, l2. split_and!; [done|done| |].
    + eapply prefix_lookup_Some; [|exact H4]. rewrite Hl, texts_app.
      change (texts (Text m :: l2)) with (m :: texts l2). by apply list_lookup_middle.
    + apply (prefix_of_longer _ (stream files l2) _ r); [|exact Hn]. rewrite <- Hp, Hl, <- stream_split.
      by rewrite <- app_assoc.
Qed.
End Files.
End ConnectionOrder.
