(* ===== verification/ConnectionLive.v ===== *)
(** * Progress of a connection

    A connected connection with something to send waits for the event that lets
    it go on, but for a frame sent in the first callback over TLS; and runs that
    show what the code leaves open. *)
From S2P Require Import Prelude Connection ConnectionProps ConnectionFrames.
Import Connection ConnectionProps ConnectionFrames.

Module ConnectionLive.

Section Files.
Variable files : string -> option string.

(** ** Staying connected

    No operation connects a connection again, none stops reading while it stays
    connected, and none revives one that is disconnected. *)
Definition stays (c c' : Tcp) : Prop :=
  (state_ c' = kConnected -> state_ c = kConnected /\ (reading c = true -> reading c' = true)) /\
  (state_ c = kDisconnected -> state_ c' = kDisconnected).

Lemma stays_trans c c1 c2 : stays c c1 -> stays c1 c2 -> stays c c2.
Proof. unfold stays. intros [F F'] [G G']. split; [|auto]. intros Hc. destruct (G Hc) as [G1 G2]. destruct (F G1) as [F1 F2]. auto. Qed.
Lemma stays_same c c' : state_ c' = state_ c -> reading c' = reading c -> stays c c'.
Proof. intros E1 E2. unfold stays. by rewrite E1, E2. Qed.

Lemma handleClose_disconnected c : state_ (handleClose c) = kDisconnected.
Proof.
  unfold handleClose, is_state. case_bool_decide; [done|]. by destruct (applicationEstablished_ _).
Qed.
Lemma handleClose_stays c : stays c (handleClose c).
Proof. unfold stays. by rewrite handleClose_disconnected. Qed.
Lemma shutdownInLoop_stays c : stays c (shutdownInLoop c).
Proof. unfold shutdownInLoop. case_match; by apply stays_same. Qed.
Lemma shutdown_disconnecting c : state_ (shutdown c) <> kConnected.
Proof.
  unfold shutdown, is_state. case_bool_decide; [|done]. unfold shutdownInLoop. by case_match.
Qed.
Lemma forceClose_disconnecting c : state_ (forceClose c) <> kConnected.
Proof.
  unfold forceClose, is_state. destruct (negb _ && _) eqn:E; [|done].
  apply andb_true_iff in E as [E _]. by apply negb_true_iff, bool_decide_eq_false in E.
Qed.
Lemma next_write_same c o c' : next_write c = (o, c') -> state_ c' = state_ c /\ reading c' = reading c /\
  writing c' = writing c /\ tlsWriteBlockedOnRead_ c' = tlsWriteBlockedOnRead_ c.
Proof. intros E. by apply next_write_spec in E as (_ & _ & _ & _ & _ & s & ->). Qed.

(** A round of a writing loop uses up an outcome, or ends it. *)
Lemma next_write_used c o c' : next_write c = (o, c') ->
  o = WantWrite \/ o = Broken \/ length (writes (socket c)) = S (length (writes (socket c'))).
Proof.
  unfold next_write. destruct (dead _); [intros [= <- <-]; by auto|].
  destruct (writes (socket c)) as [|[] rest]; intros [= <- <-]; by auto.
Qed.

(** The output loop stops empty, blocked or closed. *)
Lemma flush_loop_stops fuel c :
  length (writes (socket c)) < fuel ->
  let r := flush_loop fuel c in
  stays c r.1 /\ (r.2 = false -> state_ r.1 = kConnected -> writing r.1 = true \/ tlsWriteBlockedOnRead_ r.1 = true) /\
  (r.2 = true -> readable r.1 = false).
Proof.
  revert c. induction fuel as [|fuel IH]; intros c Hf; [lia|]. cbn [flush_loop].
  destruct (readable c) eqn:Er; cbn [negb]; [|by split_and!].
  destruct (next_write c) as [o c1] eqn:E. destruct (next_write_same _ _ _ E) as (E1 & E2 & _).
  pose proof (next_write_used _ _ _ E) as Hu. cbn [fst snd]. assert (stays c c1) as Hs by by apply stays_same.
  assert (stays c (handleClose c1)) as Hcl by (eapply stays_trans; [exact Hs|apply handleClose_stays]).
  destruct o as [n| | | | |]; cbn [fst snd].
  - destruct (_ =? 0); cbn [fst snd].
    { split_and!; [done| |done]. by rewrite handleClose_disconnected. }
    destruct Hu as [Hu|[Hu|Hu]]; [done..|]. destruct (IH (retrieve_output (n `min` String.length (outputBuffer_ (output c1)))
      (put (str_take (n `min` String.length (outputBuffer_ (output c1))) (outputBuffer_ (output c1))) c1))) as (F1 & F2 & F3);
      [simpl; lia|]. split_and!; [exact (stays_trans _ _ _ Hs F1)|done|done].
  - split_and!; [exact Hs|by left|done].
  - split_and!; [|by right|done]. unfold stays. simpl. by rewrite E1.
  - destruct Hu as [Hu|[Hu|Hu]]; [done..|]. destruct (IH c1) as (F1 & F2 & F3); [lia|].
    split_and!; [exact (stays_trans _ _ _ Hs F1)|done|done].
  - split_and!; [done| |done]. by rewrite handleClose_disconnected.
  - split_and!; [done| |done]. by rewrite handleClose_disconnected.
Qed.

(** The loop of a frame stops complete, blocked or closed. *)
Lemma file_loop_stops fuel c :
  length (writes (socket c)) < fuel -> active c = true -> tlsHandshakeComplete_ c = true \/ tlsEnabled c = false ->
  let r := file_loop files fuel c in
  stays c r.1 /\
  (r.2 = false -> state_ r.1 = kConnected ->
     writing r.1 = true \/ (tlsEnabled c = true /\ tlsWriteBlockedOnRead_ r.1 = true)) /\
  (r.2 = true -> outputBuffer_ (output r.1) = outputBuffer_ (output c)).
Proof.
  revert c. induction fuel as [|fuel IH]; intros c Hf Ha Ht; [lia|]. cbn [file_loop].
  destruct (activeFileSend_ (output c)) as [p|] eqn:Ef; [|by apply active_none in Ef; rewrite Ef in Ha].
  destruct (pf_remaining p =? 0)%N; [by split_and!|].
  assert (tlsEnabled c && negb (tlsHandshakeComplete_ c) = false) as ->.
  { destruct Ht as [-> | ->]; [by rewrite andb_false_r|done]. }
  set (chunk := slice _ _ _ _). destruct (negb _ && is_empty chunk).
  { split_and!; [apply handleClose_stays| |done]. cbn [fst]. by rewrite handleClose_disconnected. }
  destruct (next_write c) as [o c1] eqn:E. destruct (next_write_same _ _ _ E) as (E1 & E2 & _).
  pose proof (next_write_used _ _ _ E) as Hu. apply next_write_spec in E as (E3 & _ & _ & _ & _ & s & E4).
  assert (tlsEnabled c1 = tlsEnabled c /\ tlsHandshakeComplete_ c1 = tlsHandshakeComplete_ c) as [E5 E6] by (by rewrite E4).
  cbn [fst snd]. assert (stays c c1) as Hs by by apply stays_same.
  assert (stays c (handleClose c1)) as Hcl by (eapply stays_trans; [exact Hs|apply handleClose_stays]).
  assert (active c1 = true) as Ha1 by (unfold active in *; by rewrite E3).
  destruct o as [n| | | | |]; cbn [fst snd]; rewrite ?E5.
  - destruct (_ =? 0); cbn [fst snd].
    { split_and!; [done| |done]. by rewrite handleClose_disconnected. }
    destruct Hu as [Hu|[Hu|Hu]]; [done..|]. set (c2 := advance _ _).
    destruct (IH c2) as (F1 & F2 & F3).
    + unfold c2. simpl. lia.
    + unfold c2, active. simpl. rewrite E3, Ef. done.
    + change (tlsHandshakeComplete_ c1 = true \/ tlsEnabled c1 = false). by rewrite E5, E6.
    + change (tlsEnabled c2) with (tlsEnabled c1) in F2. rewrite E5 in F2. split_and!; [exact (stays_trans _ _ _ Hs F1)|done|].
      intros Hr. rewrite F3 by done. unfold c2. simpl. by rewrite E3.
  - split_and!; [exact Hs|by left|done].
  - destruct (tlsEnabled c); cbn [fst snd].
    + split_and!; [|by right|done]. unfold stays. simpl. by rewrite E1.
    + split_and!; [done| |done]. by rewrite handleClose_disconnected.
  - destruct (tlsEnabled c); cbn [fst snd].
    { split_and!; [done| |done]. by rewrite handleClose_disconnected. }
    destruct Hu as [Hu|[Hu|Hu]]; [done..|]. destruct (IH c1) as (F1 & F2 & F3); [lia|done|right; congruence|].
    rewrite E5 in F2. split_and!; [exact (stays_trans _ _ _ Hs F1)|done|]. intros Hr. by rewrite F3, E3.
  - split_and!; [done| |done]. by rewrite handleClose_disconnected.
  - split_and!; [done| |done]. by rewrite handleClose_disconnected.
Qed.

Lemma file_loop_stays fuel c : stays c (file_loop files fuel c).1.
Proof.
  revert c. induction fuel as [|fuel IH]; intros c; [by apply stays_same|]. cbn [file_loop].
  destruct (activeFileSend_ (output c)) as [p|]; [|by apply stays_same].
  case_match; [by apply stays_same|]. case_match; [by apply stays_same|]. set (chunk := slice _ _ _ _).
  case_match; [apply handleClose_stays|].
  destruct (next_write c) as [o c1] eqn:E. destruct (next_write_same _ _ _ E) as (E1 & E2 & _). cbn [fst snd].
  assert (stays c c1) as Hs by by apply stays_same.
  assert (stays c (handleClose c1)) as Hcl by (eapply stays_trans; [exact Hs|apply handleClose_stays]).
  destruct o as [n| | | | |]; cbn [fst snd]; try done.
  - case_match; [done|]. eapply stays_trans; [|apply IH]. exact Hs.
  - case_match; [|done]. unfold stays. simpl. by rewrite E1.
  - case_match; [done|]. eapply stays_trans; [exact Hs|apply IH].
Qed.

(** ** Waiting for the right event *)

#[local] Abbreviation safe := (safe files).

Lemma finish_completions_stays c : stays c (finishOutputCompletions c) /\
  readable (finishOutputCompletions c) = readable c.
Proof.
  destruct (finish_completions_kept c) as (_ & E1 & _ & E2 & E3). split; [by apply stays_same|].
  unfold readable. by rewrite E3.
Qed.

Section Waits.
Variable x : fixed.
Implicit Types (c : Tcp) (q : bool).

Definition waits c : Prop := writing c = true \/ (x_tls x = true /\ tlsWriteBlockedOnRead_ c = true).

Definition output_waits c : Prop := state_ c = kConnected -> readable c = true -> waits c.

(** Everything to send waits for an event, or for the active frame; with [q]
    the queued frames too. *)
Definition live q c : Prop := state_ c = kConnected ->
  (readable c = true \/ active c = true -> waits c) /\
  (active c = false -> deferredSends_ (output c) = [] /\ (q = true -> queuedFileFrames_ (output c) = [])).

Lemma live_output q c : live q c -> output_waits c.
Proof. unfold live, output_waits. intros Hl Hc Hr. destruct (Hl Hc). auto. Qed.
Lemma live_weaken q c : live true c -> live q c.
Proof. unfold live. intros Hl Hc. destruct (Hl Hc) as [F1 F2]. split; [done|]. intros Ha. destruct (F2 Ha). auto. Qed.
Lemma live_closed q c : state_ c <> kConnected -> live q c.
Proof. done. Qed.

Lemma tls_fixed c : fixed_of c = x -> tlsEnabled c = x_tls x.
Proof. by intros <-. Qed.
Lemma handshake_fixed c : fixed_of c = x -> tlsHandshakeComplete_ c = x_handshake x.
Proof. by intros <-. Qed.

Lemma flushTlsOutput_spec c : stays c (flushTlsOutput c) /\
  (fixed_of c = x -> x_tls x = true -> x_handshake x = true -> output_waits (flushTlsOutput c)).
Proof.
  unfold flushTlsOutput. destruct (_ || _ || _) eqn:E.
  - split; [by apply stays_same|]. intros Hf Ht Hh. rewrite (tls_fixed _ Hf), (handshake_fixed _ Hf), Ht, Hh in E.
    apply bool_decide_eq_true in E. unfold output_waits. by rewrite E.
  - destruct (flush_loop_stops (write_fuel c) c) as (F1 & F2 & F3); [unfold write_fuel; lia|].
    destruct (flush_loop (write_fuel c) c) as [c1 []]; cbn [fst snd negb] in *.
    + set (c2 := if writing _ && _ then _ else _).
      assert (stays c c2) as G1.
      { eapply stays_trans; [exact F1|]. unfold c2. destruct (_ && _); by apply stays_same. }
      assert (readable c2 = false) as G2 by (rewrite <- (F3 eq_refl); unfold c2; by destruct (_ && _)).
      destruct (finish_completions_stays c2) as [G3 G4].
      assert (stays c (finishOutputCompletions c2)) as G5 by (by eapply stays_trans).
      assert (forall c3, readable c3 = false -> output_waits c3) as G6.
      { unfold output_waits. intros c3 E3 _. by rewrite E3. }
      case_match; (split; [|intros _ _ _; apply G6]); try done; try congruence.
      * eapply stays_trans; [exact G5|apply shutdownInLoop_stays].
      * unfold shutdownInLoop. case_match; unfold readable in *; simpl; congruence.
    + split; [done|]. intros _ Ht _ Hc _. destruct (F2 eq_refl Hc); [by left|by right].
Qed.

Lemma handlePlainWrite_spec c : stays c (handlePlainWrite c) /\
  (output_waits c -> output_waits (handlePlainWrite c)).
Proof.
  unfold handlePlainWrite. destruct (writing c) eqn:Ew; cbn [negb]; [|done].
  destruct (next_write c) as [o c1] eqn:E. destruct (next_write_same _ _ _ E) as (E1 & E2 & E3 & _). cbn [fst snd].
  assert (stays c c1) as Hs by by apply stays_same.
  assert (output_waits c1) as Hw by (intros _ _; left; congruence).
  destruct o as [n| | | | |]; try done. case_match; [done|]. set (c2 := retrieve_output _ _).
  assert (stays c c2 /\ writing c2 = true) as [F1 F2] by (split; [exact Hs|by unfold c2; simpl; rewrite E3]).
  destruct (readable c2) eqn:Er; [by split; [|intros _ _ _; left]|].
  destruct (finish_completions_stays (set_writing false c2)) as [G1 G2].
  change (readable (set_writing false c2)) with (readable c2) in G2. set (c3 := finishOutputCompletions _) in *.
  assert (stays c c3) as G3 by (exact (stays_trans _ _ _ F1 G1)).
  case_match; (split; [|intros _ _]).
  - eapply stays_trans; [exact G3|apply shutdownInLoop_stays].
  - assert (readable (shutdownInLoop c3) = readable c3) as -> by (unfold shutdownInLoop; by case_match). congruence.
  - done.
  - congruence.
Qed.

Lemma send_direct_stays m c : stays c (send_direct m c).2 /\ (send_direct m c).2 = set_socket (socket (send_direct m c).2) c.
Proof.
  unfold send_direct. destruct (next_write c) as [o c1] eqn:E. destruct (next_write_same _ _ _ E) as (E1 & E2 & _).
  apply next_write_spec in E as (_ & _ & _ & _ & _ & s & ->). destruct o; (split; [by apply stays_same|done]).
Qed.

Lemma send_now_spec m k c : stays c (send_now m k c) /\
  ((x_tls x = true -> x_handshake x = true) -> fixed_of c = x -> output_waits c -> output_waits (send_now m k c)).
Proof.
  unfold send_now. destruct (tlsEnabled c) eqn:Et.
  - unfold send_tls. set (c1 := push_completion k (append_output m c)).
    assert (stays c c1 /\ fixed_of c1 = fixed_of c) as [F1 F2] by (unfold c1; destruct k; split; by try apply stays_same).
    destruct (flushTlsOutput_spec c1) as [G1 G2].
    assert (tlsHandshakeComplete_ c1 = tlsHandshakeComplete_ c) as F3 by (by injection F2).
    rewrite F3. split; [case_match; [by eapply stays_trans|done]|]. intros x_open Hf _.
    rewrite (tls_fixed _ Hf) in Et. rewrite (handshake_fixed _ Hf), x_open by done. apply G2; try congruence. by apply x_open.
  - unfold send_plain. set (r := if negb (writing c) && negb (readable c) then send_direct m c else ((None, false), c)).
    assert (exists s, r.2 = set_socket s c) as [s Hr].
    { unfold r. case_match; [|exists (socket c); by destruct c]. eexists. apply send_direct_stays. }
    rewrite Hr. set (c1 := set_socket s c). assert (stays c c1) as F1 by by apply stays_same.
    assert (output_waits c -> output_waits c1) as F2 by done.
    case_match; [by destruct k|]. case_match; [|done]. set (c2 := push_completion k _).
    assert (stays c c2) as F3 by (unfold c2; destruct k; by apply stays_same).
    destruct (writing c2) eqn:Ew; (split; [done|]); intros _ _ _ _ _; by left.
Qed.
End Waits.

(** ** Staying connected, the whole of it *)

Lemma flushTlsOutput_stays c : stays c (flushTlsOutput c).
Proof. apply (flushTlsOutput_spec (fixed_of c)). Qed.
Lemma handlePlainWrite_stays c : stays c (handlePlainWrite c).
Proof. apply (handlePlainWrite_spec (fixed_of c)). Qed.
Lemma send_now_stays m k c : stays c (send_now m k c).
Proof. apply (send_now_spec (fixed_of c)). Qed.

Lemma sendInLoop_stays m k c : stays c (sendInLoop m k c).
Proof.
  unfold sendInLoop. case_match; [done|]. case_match; [by apply stays_same|].
  eapply stays_trans; [|apply send_now_stays]. by apply stays_same.
Qed.

Lemma shutdown_stays c : stays c (shutdown c).
Proof.
  split; [intros Hc; by apply shutdown_disconnecting in Hc|]. intros Hd. unfold shutdown, is_state. by rewrite Hd.
Qed.
Lemma forceClose_stays c : stays c (forceClose c).
Proof.
  split; [intros Hc; by apply forceClose_disconnecting in Hc|]. intros Hd. unfold forceClose, is_state. by rewrite Hd.
Qed.

Lemma ask_stays b i c : stays c (ask b i c).
Proof. destruct b; by apply stays_same. Qed.

Lemma drain_stays c : stays c (drainDeferredSends c).
Proof.
  unfold drainDeferredSends. set (c1 := on_output _ c). assert (stays c c1) as Hs by by apply stays_same.
  clearbody c1. revert c1 Hs. induction (deferredSends_ (output c)) as [|[m k] l IH]; intros c1 Hs; [done|].
  simpl. apply IH. eapply stays_trans; [exact Hs|apply sendInLoop_stays].
Qed.

Section StartStays.
Variable start : PendingFileSend -> Tcp -> Tcp.
Hypothesis start_stays : forall p c, stays c (start p c).

Lemma sendFileFrameInLoop_stays p c : stays c (sendFileFrameInLoop start p c).
Proof. unfold sendFileFrameInLoop. repeat case_match; [by apply stays_same..|apply start_stays]. Qed.

Lemma perform_stays r c : stays c (perform start r c).
Proof.
  destruct r as [m k|h p o n k| |]; cbn [perform].
  - apply (stays_trans _ _ _ (ask_stays (is_state kConnected c) (Text m) c)).
    unfold send. case_match; [apply sendInLoop_stays|by apply stays_same].
  - cbv zeta. eapply stays_trans; [apply ask_stays|].
    unfold sendFileFrame. case_match; [apply sendFileFrameInLoop_stays|by apply stays_same].
  - apply shutdown_stays.
  - apply forceClose_stays.
Qed.

Lemma performs_stays l c : stays c (performs start l c).
Proof.
  revert c. induction l as [|r l IH]; intros c; [by apply stays_same|].
  simpl. eapply stays_trans; [apply perform_stays|apply IH].
Qed.

Lemma startNext_stays c : stays c (startNextQueuedFileFrame start c).
Proof.
  unfold startNextQueuedFileFrame. case_match; [by apply stays_same|].
  destruct (queuedFileFrames_ (output c)) as [|p rest]; [by apply stays_same|].
  eapply stays_trans; [|apply start_stays]. by apply stays_same.
Qed.

Lemma finishActive_stays c : stays c (finishActiveFileSend start c).
Proof.
  unfold finishActiveFileSend. destruct (activeFileSend_ (output c)) as [p|]; [|by apply stays_same].
  set (c1 := drainDeferredSends _). assert (stays c c1) as F1 by apply (drain_stays (on_output (set_activeFileSend_ None) c)).
  set (c2 := call_completion _ _ c1).
  assert (stays c1 c2) as F2 by (unfold c2; destruct (pf_completion p); [apply performs_stays|by apply stays_same]).
  set (c3 := if active c2 then c2 else _).
  assert (stays c2 c3) as F3 by (unfold c3; destruct (active c2); [by apply stays_same|apply startNext_stays]).
  assert (stays c c3) as F4 by (eapply stays_trans; [exact F1|]; by eapply stays_trans).
  clearbody c3. destruct (_ && _); [|done]. exact F4.
Qed.

Lemma flushFileSend_stays c : stays c (flushFileSend files start c).
Proof.
  unfold flushFileSend. case_match; [by apply stays_same|]. set (c1 := if readable c then _ else c).
  assert (stays c c1) as F1.
  { unfold c1. repeat case_match; [apply flushTlsOutput_stays|apply handlePlainWrite_stays|by apply stays_same]. }
  case_match; [done|]. pose proof (file_loop_stays (write_fuel c1) c1) as F2.
  destruct (file_loop files (write_fuel c1) c1) as [c2 []]; cbn [fst snd] in *; [|by eapply stays_trans].
  eapply stays_trans; [exact F1|]. eapply stays_trans; [exact F2|apply finishActive_stays].
Qed.
End StartStays.

Lemma startFileFrame_stays fuel p c : stays c (startFileFrame files fuel p c).
Proof.
  revert p c. induction fuel as [|fuel IH]; intros p c; [by apply stays_same|]. rewrite start_step.
  case_match; [by apply stays_same|]. destruct (files (pf_path p)).
  - eapply stays_trans; [|by apply flushFileSend_stays].
    refine (stays_trans _ _ _ _ (send_now_stays _ _ _)). by apply stays_same.
  - eapply stays_trans; [|apply forceClose_stays]. destruct (pf_completion p); [by apply performs_stays|by apply stays_same].
Qed.

Lemma run_requests_stays l c : stays c (run_requests files l c).
Proof. apply performs_stays, startFileFrame_stays. Qed.

Lemma react_stays c : stays c (react files c).
Proof.
  unfold react. destruct (app c); [by apply stays_same|].
  eapply stays_trans; [|apply run_requests_stays]. by apply stays_same.
Qed.

Lemma call_message_stays c : stays c (call_message files c).
Proof. apply (stays_trans _ (tell Message c)); [by apply stays_same|apply react_stays]. Qed.

Lemma flush_stays c : stays c (flush files c).
Proof.
  unfold flush. repeat case_match;
    [apply flushFileSend_stays, startFileFrame_stays|apply flushTlsOutput_stays|apply handlePlainWrite_stays].
Qed.

Lemma notify_stays c : stays c (notifyApplicationEstablished files c).
Proof.
  unfold notifyApplicationEstablished. case_match; [by apply stays_same|].
  eapply stays_trans; [|apply react_stays]. by apply stays_same.
Qed.

Lemma next_read_same c : stays c (next_read c).2.
Proof. unfold next_read. destruct (reads (socket c)); by apply stays_same. Qed.

Lemma read_loop_stays fuel b c : stays c (read_loop fuel b c).1.
Proof.
  revert b c. induction fuel as [|fuel IH]; intros received c; [by apply stays_same|]. cbn [read_loop].
  pose proof (next_read_same c) as Hs. destruct (next_read c) as [o c1]. cbn [fst snd] in *.
  assert (stays c (handleClose c1)) as Hcl by (eapply stays_trans; [exact Hs|apply handleClose_stays]).
  destruct o as [bytes| | | | |]; cbn [fst snd]; try done.
  - case_match; [done|]. exact (stays_trans _ _ _ Hs (IH true (set_inputBuffer_ (inputBuffer_ c1 +:+ bytes) c1))).
  - exact (stays_trans _ _ _ Hs (IH received c1)).
Qed.

Lemma handleTlsRead_stays c : stays c (handleTlsRead files c).
Proof.
  unfold handleTlsRead. case_match; [by apply stays_same|].
  pose proof (read_loop_stays (S (length (reads (socket c)))) false c) as Hs.
  case_match; [|done]. eapply stays_trans; [exact Hs|apply call_message_stays].
Qed.

Lemma handlePlainRead_stays c : stays c (handlePlainRead files c).
Proof.
  unfold handlePlainRead. pose proof (next_read_same c) as Hs. destruct (next_read c) as [o c1]. cbn [fst snd] in *.
  assert (stays c (handleClose c1)) as Hcl by (eapply stays_trans; [exact Hs|apply handleClose_stays]).
  destruct o as [bytes| | | | |]; try done. case_match; [done|].
  exact (stays_trans _ _ _ Hs (call_message_stays (set_inputBuffer_ (inputBuffer_ c1 +:+ bytes) c1))).
Qed.

Lemma drive_stays c : stays c (driveTlsHandshake files c).
Proof.
  unfold driveTlsHandshake. case_match; [by apply stays_same|].
  assert (stays c (next_accept c).2) as Hs.
  { unfold next_accept. destruct (accepts (socket c)); by apply stays_same. }
  destruct (next_accept c) as [o c1]. cbn [fst snd] in *.
  assert (forall d, stays d (stopIdleWriting d)) as Hi by (intros d; unfold stopIdleWriting; case_match; by apply stays_same).
  destruct o as [pending| | | |].
  - unfold handshakeAccepted. set (c2 := set_tlsReadBlockedOnWrite_ _ _). eapply stays_trans; [exact Hs|].
    set (c3 := notifyApplicationEstablished _ _).
    assert (stays c1 c3) as F1 by (exact (stays_trans _ _ _ (Hi c2) (notify_stays _))).
    set (c4 := if readable c3 then _ else c3).
    assert (stays c1 c4) as F2.
    { unfold c4. case_match; [|done]. eapply stays_trans; [exact F1|apply flushTlsOutput_stays]. }
    case_match; [|done]. eapply stays_trans; [exact F2|apply handleTlsRead_stays].
  - eapply stays_trans; [exact Hs|]. refine (stays_trans _ _ _ _ (Hi _)). unfold stays. done.
  - exact Hs.
  - eapply stays_trans; [exact Hs|apply handleClose_stays].
  - eapply stays_trans; [exact Hs|apply handleClose_stays].
Qed.

Lemma step_stays e c : stays c (step files e c).
Proof.
  destruct e; cbn [step].
  - case_match; [|by apply stays_same]. unfold handleRead. case_match; [|apply handlePlainRead_stays].
    case_match; [apply drive_stays|]. pose proof (handleTlsRead_stays c) as Hs.
    case_match; [|done]. exact (stays_trans _ _ _ Hs (flush_stays (set_tlsWriteBlockedOnRead_ false _))).
  - unfold handleWrite. case_match; [apply drive_stays|]. case_match; [|apply flush_stays].
    pose proof (handleTlsRead_stays (set_tlsReadBlockedOnWrite_ false c)) as Hs.
    case_match; [exact Hs|]. exact (stays_trans _ _ _ Hs (flush_stays _)).
  - apply handleClose_stays.
  - destruct (posted c) as [|j rest]; [by apply stays_same|]. destruct j as [k| |]; simpl.
    + apply (stays_trans _ (set_posted rest c)); [by apply stays_same|apply run_requests_stays].
    + by apply stays_same.
    + unfold forceCloseInLoop. case_match; [apply (handleClose_stays (set_posted rest c))|by apply stays_same].
  - case_match; [|by apply stays_same]. eapply stays_trans; [apply ask_stays|apply sendInLoop_stays].
  - case_match; [|by apply stays_same].
    eapply stays_trans; [apply ask_stays|apply sendFileFrameInLoop_stays, startFileFrame_stays].
  - case_match; [apply run_requests_stays|by apply stays_same].
  - unfold connectDestroyed. case_match; [|by apply stays_same].
    unfold stays. simpl. by destruct (applicationEstablished_ _).
Qed.

(** ** Nothing waits without its event *)

Section Live.
Variable x : fixed.
(** The connection is open to the application. *)
Hypothesis x_open : x_tls x = true -> x_handshake x = true.
Implicit Types (c : Tcp) (q : bool).
#[local] Abbreviation output_waits := (output_waits x).
#[local] Abbreviation waits := (waits x).
#[local] Abbreviation live := (live x).
#[local] Abbreviation live_weaken := (live_weaken x).
#[local] Abbreviation live_closed := (live_closed x).
#[local] Abbreviation tls_fixed := (tls_fixed x).
#[local] Abbreviation handshake_fixed := (handshake_fixed x).

Lemma fixed_safe t c : safe x t c -> fixed_of c = x.
Proof. by intros []. Qed.

Lemma active_same c c' : same_frames c c' -> active c' = active c.
Proof.
  intros [H1 _]. unfold active.
  destruct (activeFileSend_ (output c')), (activeFileSend_ (output c)); try done; by simpl in H1.
Qed.

(** A text is sent at once, or behind the active frame. *)
Lemma sendInLoop_live q m k c : fixed_of c = x -> live q c -> live q (sendInLoop m k c).
Proof.
  intros Hf Hl. pose proof (sendInLoop_stays m k c) as Hs. pose proof (sendInLoop_same m k c) as Hsame.
  revert Hs Hsame. unfold sendInLoop. case_match; [done|]. destruct (active c) eqn:Ea.
  - intros _ _ Hc. destruct (Hl Hc) as [F1 _]. split; [exact F1|]. intros Ha.
    change (active c = false) in Ha. congruence.
  - intros Hs Hsame Hc. destruct (Hl (proj1 (proj1 Hs Hc))) as [F1 F2]. destruct (F2 Ea) as [F3 F4].
    pose proof (active_same _ _ Hsame) as Ha. rewrite Ea in Ha.
    set (c1 := record_item (Text m) c) in *. destruct (send_now_spec x m k c1) as [_ G].
    assert (output_waits (send_now m k c1)) as Hw by (by apply G, (live_output x q)).
    destruct (send_now_kept m k c1) as (_ & E1 & E2 & _). rewrite Ha. split.
    + intros [Hr|]; [by apply Hw|done].
    + intros _. rewrite E1, E2. done.
Qed.

Lemma ask_live b i q c : live q c -> live q (ask b i c).
Proof. by destruct b. Qed.

Lemma drain_live q c : safe x "" c -> output_waits c -> active c = false ->
  (q = true -> state_ c = kConnected -> queuedFileFrames_ (output c) = []) -> live q (drainDeferredSends c).
Proof.
  intros Hs Hw Ha Hq. unfold drainDeferredSends. set (c1 := on_output _ c).
  assert (safe x "" c1) as Hs1 by (destruct Hs as [Hf [H1 H2] Ht Hd]; by split).
  assert (live q c1) as Hl1.
  { intros Hc. split; [intros [Hr|Ha1]; [by apply Hw|change (active c = true) in Ha1; congruence]|].
    intros _. split; [done|]. intros E. by apply Hq. }
  clearbody c1. revert c1 Hs1 Hl1. induction (deferredSends_ (output c)) as [|[m k] l IH]; intros c1 Hs1 Hl1; [done|].
  simpl. apply IH; [by apply sendInLoop_safe|]. apply sendInLoop_live; [by eapply fixed_safe|done].
Qed.

Section Start.
Variable fuel : nat.
#[local] Abbreviation start := (startFileFrame files fuel).
Hypothesis start_live : forall p c,
  active c = false -> cost p c <= fuel -> safe x "" c -> live false c -> live true (start p c).

Lemma start_safe p c : active c = false -> safe x "" c -> safe x "" (start p c).
Proof. apply startFileFrame_safe. Qed.

Lemma sendFileFrameInLoop_live q p c :
  cost p c <= fuel -> safe x "" c -> live q c -> live q (sendFileFrameInLoop start p c).
Proof.
  intros Hc Hs Hl. unfold sendFileFrameInLoop. case_match; [done|]. destruct (active c) eqn:Ea.
  - intros Hcon. destruct (Hl Hcon) as [F1 _]. split; [exact F1|]. intros Ha.
    change (active c = false) in Ha. congruence.
  - apply live_weaken, start_live; try done. intros Hcon. destruct (Hl Hcon) as [F1 F2]. split; [done|].
    intros Ha. by destruct (F2 Ha).
Qed.

Lemma perform_live q r c :
  frames_of r + frames_left c <= fuel -> safe x "" c -> live q c -> live q (perform start r c).
Proof.
  intros Hc Hs Hl. destruct r as [m k|h p o n k| |]; cbn [perform].
  - pose proof (ask_live (is_state kConnected c) (Text m) q c Hl) as Hl1.
    unfold send. case_match; [|done]. apply sendInLoop_live; [by eapply fixed_safe, ask_safe|done].
  - cbv zeta. set (p1 := mkPendingFile h p o n k).
    pose proof (ask_live (is_state kConnected c) (frame_of p1) q c Hl) as Hl1.
    unfold sendFileFrame. case_match; [|done]. apply sendFileFrameInLoop_live; [|by apply ask_safe|done].
    unfold cost. rewrite (frames_left_same _ _ (ask_same _ _ _)). exact Hc.
  - by apply live_closed, shutdown_disconnecting.
  - by apply live_closed, forceClose_disconnecting.
Qed.

Lemma performs_live q l c :
  frames_in l + frames_left c <= fuel -> safe x "" c -> live q c -> live q (performs start l c).
Proof.
  revert c. induction l as [|r l IH]; intros c Hc Hs Hl; [done|].
  change (frames_in (r :: l)) with (frames_of r + frames_in l) in Hc. simpl.
  destruct (perform_agree start (startFileFrame files (S fuel)) fuel (startFileFrame_agree files fuel) r c) as [_ Hle]; [lia|].
  apply IH; [lia|by apply perform_safe; [apply start_safe|]|]. apply perform_live; [lia|done|done].
Qed.

Lemma startNext_live c :
  frames_left c <= fuel -> safe x "" c -> live false c ->
  live true (if active c then c else startNextQueuedFileFrame start c).
Proof.
  intros Hc Hs Hl. destruct (active c) eqn:Ea.
  - intros Hcon. destruct (Hl Hcon) as [F1 _]. split; [done|]. by rewrite Ea.
  - unfold startNextQueuedFileFrame. rewrite Ea. cbn [orb]. unfold is_state. case_bool_decide as Hd.
    { apply live_closed. by rewrite Hd. }
    destruct (queuedFileFrames_ (output c)) as [|p rest] eqn:Eq.
    { intros Hcon. destruct (Hl Hcon) as [F1 F2]. split; [done|]. intros Ha. by destruct (F2 Ha). }
    set (c1 := on_output _ c). apply start_live; [done| |by destruct Hs as [Hf [H1 H2] Ht Hd']|].
    + apply active_none in Ea. unfold frames_left in Hc. rewrite Ea, Eq in Hc.
      unfold cost, frames_left, c1. simpl. rewrite Ea. simpl in *. lia.
    + intros Hcon. destruct (Hl Hcon) as [F1 F2]. split; [exact F1|]. intros Ha. by destruct (F2 Ha).
Qed.

Lemma finishActive_live p c :
  activeFileSend_ (output c) = Some p -> pf_remaining p = 0%N -> readable c = false ->
  frames_left c <= fuel -> safe x "" c -> live true (finishActiveFileSend start c).
Proof.
  intros Hp Hz Hr Hc Hs. unfold finishActiveFileSend. rewrite Hp. set (c0 := on_output _ c).
  pose proof (release_safe files x p c Hp Hz Hs) as Hs0. fold c0 in Hs0.
  assert (frames_after (pf_completion p) + frames_left c0 = frames_left c) as Hfl.
  { unfold frames_left, c0. simpl. by rewrite Hp. }
  assert (live false (drainDeferredSends c0)) as Hl1.
  { apply drain_live; try done. intros _ Hr0. change (readable c0) with (readable c) in Hr0. congruence. }
  pose proof (drain_safe files x c0 Hs0) as Hs1. pose proof (frames_left_same _ _ (drain_same c0)) as Hfl1.
  set (c1 := drainDeferredSends c0) in *.
  destruct (call_completion_agree start (startFileFrame files (S fuel)) fuel (startFileFrame_agree files fuel)
    (pf_completion p) c1) as [_ Hle]; [lia|].
  pose proof (call_completion_safe files x start start_safe (pf_completion p) c1 Hs1) as Hs2.
  assert (live false (call_completion start (pf_completion p) c1)) as Hl2.
  { destruct (pf_completion p) as [l|]; [|done]. apply performs_live; [simpl in *; lia|done|done]. }
  set (c2 := call_completion _ _ c1) in *.
  pose proof (startNext_live c2 ltac:(lia) Hs2 Hl2) as Hl3. set (c3 := if active c2 then _ else _) in *.
  clearbody c3. destruct (negb (active c3) && writing c3 && negb (readable c3)) eqn:E; [|done].
  apply andb_true_iff in E as [E E3]. apply andb_true_iff in E as [E1 _].
  apply negb_true_iff in E1, E3. intros Hcon. destruct (Hl3 Hcon) as [_ F2]. split; [|exact F2].
  intros [F|F]; [change (readable c3 = true) in F|change (active c3 = true) in F]; congruence.
Qed.

Lemma flushFileSend_live c :
  active c = true -> (x_tls x = false -> output_waits c) -> frames_left c <= fuel -> safe x "" c ->
  live true (flushFileSend files start c).
Proof.
  intros Ha Hw Hc Hs. unfold flushFileSend. rewrite Ha. cbn [negb orb]. unfold is_state at 1. case_bool_decide as Hd.
  { apply live_closed. by rewrite Hd. }
  set (c1 := if readable c then _ else c).
  assert (safe x "" c1 /\ kept c c1 /\ output_waits c1) as (Hs1 & Hk1 & Hw1).
  { unfold c1. destruct (readable c) eqn:Er; [destruct (tlsEnabled c) eqn:Et|].
    - split_and!; [by apply flushTlsOutput_safe|apply flushTlsOutput_kept|].
      apply flushTlsOutput_spec; [by eapply fixed_safe| |apply x_open]; by rewrite <- (tls_fixed c (fixed_safe _ _ Hs)).
    - split_and!; [by apply handlePlainWrite_safe|apply handlePlainWrite_kept|].
      apply handlePlainWrite_spec, Hw. by rewrite <- (tls_fixed c (fixed_safe _ _ Hs)).
    - split_and!; [done..|]. intros _ F. congruence. }
  clearbody c1. assert (active c1 = true) as Ha1 by (rewrite (active_same c); [done|by apply kept_same]).
  pose proof (frames_left_same _ _ (kept_same _ _ Hk1)) as Hfl.
  unfold is_state. case_bool_decide as Hd1; cbn [orb]; [by apply live_closed; rewrite Hd1|].
  destruct (readable c1) eqn:Er1.
  { intros Hcon. split; [intros _; by apply Hw1|congruence]. }
  assert (outputBuffer_ (output c1) = "") as Ho1 by (by apply is_empty_true, negb_false_iff).
  destruct (file_loop_safe files x (write_fuel c1) c1 Hs1 Hd1 Ho1) as (F1 & F2 & F3).
  destruct (file_loop_stops (write_fuel c1) c1) as (G1 & G2 & G3); [unfold write_fuel; lia|done| |].
  { rewrite (handshake_fixed c1 (fixed_safe _ _ Hs1)), (tls_fixed c1 (fixed_safe _ _ Hs1)).
    destruct (x_tls x); [left; by apply x_open|by right]. }
  rewrite (tls_fixed c1 (fixed_safe _ _ Hs1)) in G2. pose proof (active_same _ _ F2) as Ha2.
  pose proof (frames_left_same _ _ F2) as Hfl2.
  destruct (file_loop files (write_fuel c1) c1) as [c2 []]; cbn [fst snd] in *.
  - destruct (F3 eq_refl) as (p & Hp & Hz). eapply finishActive_live; [done..| |lia|done].
    unfold readable. rewrite G3 by done. by rewrite Ho1.
  - intros Hcon. split; [intros _; by apply G2|]. congruence.
Qed.
End Start.

Lemma startFileFrame_live fuel p c :
  active c = false -> cost p c <= fuel -> safe x "" c -> live false c -> live true (startFileFrame files fuel p c).
Proof.
  revert p c. induction fuel as [|fuel IH]; intros p c Ha Hc Hs Hl; [unfold cost in Hc; lia|].
  rewrite start_step. unfold is_state. case_bool_decide as Hd; [by apply live_closed; rewrite Hd|].
  destruct (files (pf_path p)); [|by apply live_closed, forceClose_disconnecting].
  pose proof (activate_safe files x p c Ha Hs) as Hs1. set (i := frame_of p) in *. apply active_none in Ha.
  destruct (send_now_spec x (pf_header p) None (record_item i c)) as [_ Hw].
  destruct (send_now_kept (pf_header p) None (record_item i c)) as (_ & Hq & _).
  set (c1 := send_now _ _ _) in *. apply flushFileSend_live; [exact IH|done| | |done].
  - intros _. apply Hw; [done|exact (fixed_safe _ _ Hs)|exact (live_output x false c Hl)].
  - unfold cost, frames_left in *. simpl in *. rewrite Hq, Ha in *. lia.
Qed.

(** ** Callbacks and events *)

Lemma run_requests_live l c : safe x "" c -> live true c -> live true (run_requests files l c).
Proof. apply performs_live; [|lia]. apply startFileFrame_live. Qed.

Lemma react_live c : safe x "" c -> live true c -> live true (react files c).
Proof.
  intros Hs Hl. unfold react. destruct (app c) as [|r rest]; [done|].
  apply run_requests_live; [by apply safe_input, safe_app|done].
Qed.

Lemma flush_live c :
  (x_tls x = false -> output_waits c) ->
  (state_ c = kConnected -> active c = false -> deferredSends_ (output c) = [] /\ queuedFileFrames_ (output c) = []) ->
  safe x "" c -> live true (flush files c).
Proof.
  intros Hw Hq Hs. unfold flush. destruct (active c) eqn:Ea.
  { apply flushFileSend_live; [|done|done|lia|done]. apply startFileFrame_live. }
  assert (forall c1, stays c c1 -> kept c c1 -> output_waits c1 -> live true c1) as Hk.
  { intros c1 F1 F2 F3 Hc. pose proof (active_same _ _ (kept_same _ _ F2)) as Ha. rewrite Ea in Ha.
    destruct (Hq (proj1 (proj1 F1 Hc)) eq_refl) as [G1 G2]. destruct F2 as (_ & E1 & E2 & _).
    rewrite Ha, E1, E2. split; [|done]. intros [Hr|]; [by apply F3|done]. }
  pose proof (tls_fixed c (fixed_safe _ _ Hs)) as Ht. destruct (tlsEnabled c).
  - apply Hk; [apply flushTlsOutput_stays|apply flushTlsOutput_kept|].
    apply flushTlsOutput_spec; [by eapply fixed_safe|done|by apply x_open].
  - apply Hk; [apply handlePlainWrite_stays|apply handlePlainWrite_kept|].
    by apply handlePlainWrite_spec, Hw.
Qed.

Lemma call_message_live c : 
  x_established x = true -> state_ c <> kDisconnected -> safe x "" c -> live true c -> live true (call_message files c).
Proof.
  intros Hx Hc Hs Hl. unfold call_message. apply react_live; [|done].
  by apply tell_message_safe.
Qed.

Lemma read_loop_live fuel b c : live true c -> live true (read_loop fuel b c).1.
Proof.
  revert b c. induction fuel as [|fuel IH]; intros b c Hl; [done|]. cbn [read_loop].
  assert (live true (next_read c).2) as Hl1 by (unfold next_read; by destruct (reads (socket c))).
  destruct (next_read c) as [o c1]. cbn [fst snd] in *.
  assert (live true (handleClose c1)) as Hcl by (apply live_closed; by rewrite handleClose_disconnected).
  destruct o as [bytes| | | | |]; cbn [fst snd]; try done.
  - case_match; [done|]. by apply IH.
  - intros Hc. destruct (Hl1 Hc) as [F1 F2]. split; [by left|exact F2].
  - by apply IH.
Qed.

Lemma handleTlsRead_live c :
  x_established x = true -> safe x "" c -> live true c -> live true (handleTlsRead files c).
Proof.
  intros Hx Hs Hl. unfold handleTlsRead. case_match; [done|].
  pose proof (read_loop_live (S (length (reads (socket c)))) false c Hl) as Hl1.
  pose proof (read_loop_safe files x (S (length (reads (socket c)))) false c Hs) as Hs1.
  destruct (_ && is_state kConnected _) eqn:E; [|done]. apply andb_true_iff in E as [_ E].
  apply bool_decide_eq_true in E. apply call_message_live; [done|by rewrite E|done|done].
Qed.

Lemma handlePlainRead_live c :
  x_established x = true -> state_ c <> kDisconnected -> safe x "" c -> live true c ->
  live true (handlePlainRead files c).
Proof.
  intros Hx Hd Hs Hl. unfold handlePlainRead. destruct (next_read c) as [o c1] eqn:E.
  destruct (next_read_safe _ _ _ _ _ E Hs) as [Hs1 Hst].
  assert (live true c1) as Hl1.
  { unfold next_read in E. destruct (reads (socket c)); by injection E as <- <-. }
  cbn [fst snd]. assert (live true (handleClose c1)) as Hcl by (apply live_closed; by rewrite handleClose_disconnected).
  destruct o as [bytes| | | | |]; try done. case_match; [done|].
  apply call_message_live; [done|simpl; congruence|by apply safe_input|done].
Qed.
End Live.

(** ** Whole runs *)

(** Calls that start no frame leave none active. *)
Lemma performs_frameless start l c :
  frames_in l = 0 -> active c = false -> active (performs start l c) = false.
Proof.
  revert c. induction l as [|r l IH]; intros c Hl Ha; [done|].
  change (frames_in (r :: l)) with (frames_of r + frames_in l) in Hl. simpl. apply IH; [lia|].
  destruct r as [m k|h p o n k| |]; cbn [perform]; [|simpl in Hl; lia| |].
  - assert (active (ask (is_state kConnected c) (Text m) c) = false) as Ha1 by (rewrite <- Ha; apply active_same, ask_same).
    unfold send. case_match; [|done]. by rewrite (active_same _ _ (sendInLoop_same _ _ _)).
  - by rewrite (active_same _ _ (shutdown_same c)).
  - by rewrite (active_same _ _ (forceClose_same c)).
Qed.

Definition first_requests (l : list reaction) : list request :=
  match l with [] => [] | r :: _ => re_requests r end.

Lemma react_frameless c :
  frames_in (first_requests (app c)) = 0 -> active c = false -> active (react files c) = false.
Proof.
  intros Hr Ha. unfold react. destruct (app c) as [|r rest]; [done|]. by apply performs_frameless.
Qed.

(** A connection that the application does not know yet. *)
Record untold (c : Tcp) : Prop := mkUntold {
  un_empty : readable c = false;
  un_active : active c = false;
  un_deferred : deferredSends_ (output c) = [];
  un_queued : queuedFileFrames_ (output c) = [];
  un_posted : posted c = [];
  un_first : frames_in (first_requests (app c)) = 0 }.

Definition alive (c : Tcp) : Prop :=
  exists x, good x /\ safe x "" c /\ if x_established x then live x true c else untold c.

Lemma good_open x : good x -> x_established x = true -> x_tls x = true -> x_handshake x = true.
Proof. unfold good. intros -> Hx Ht. by rewrite Ht in Hx. Qed.

Lemma untold_live x c : untold c -> live x true c.
Proof. intros [F1 F2 F3 F4 _ _] _. split; [|done]. intros [F|F]; congruence. Qed.

(** The calls of the connection callback, right after the handshake. *)
Lemma accepted_live x pending c :
  state_ c <> kDisconnected -> x_tls x = true -> x_established x = false -> safe x "" c -> untold c ->
  live (shaken x) true (handshakeAccepted files pending c).
Proof.
  intros Hc Ht Hx Hs Hu. unfold handshakeAccepted. pose proof (shaken_safe files x c Hc Hs) as Hs3.
  set (c1 := stopIdleWriting _) in *.
  assert (x_tls (shaken x) = true -> x_handshake (shaken x) = true) as Hopen by done.
  assert (state_ c1 <> kDisconnected /\ untold c1 /\ safe (mkFixed (x_tls x) (x_zero_copy x) true false) "" c1) as (Hc1 & Hu1 & Hs1).
  { unfold c1, stopIdleWriting. destruct Hu as [F1 F2 F3 F4 F5 F6], Hs as [Hf Ho Hn Hd].
    assert (fixed_of (set_tlsHandshakeComplete_ true c) = mkFixed (x_tls x) (x_zero_copy x) true false) as Hf'.
    { rewrite <- Hx, <- Hf. done. }
    rewrite Hx in Hn. destruct (_ && _); (split_and!; [done|by split|by split]). }
  revert Hs3. unfold notifyApplicationEstablished.
  assert (applicationEstablished_ c1 = false) as -> by (by destruct Hs1 as [Hf _ _ _]; injection Hf).
  intros Hs3. set (c2 := tell Up _) in *.
  pose proof (announce_safe files (mkFixed (x_tls x) (x_zero_copy x) true false) c1 eq_refl Hc1 Hs1) as Hs2.
  fold c2 in Hs2. change (told_of _) with (shaken x) in Hs2.
  pose proof (react_live (shaken x) Hopen c2 Hs2 (untold_live (shaken x) c1 Hu1)) as Hl3.
  pose proof (react_frameless c2 (un_first _ Hu1) (un_active _ Hu1)) as Ha3.
  clearbody c2. set (c3 := react files c2) in *. set (c4 := if readable c3 then _ else c3).
  assert (live (shaken x) true c4 /\ safe (shaken x) "" c4) as [Hl4 Hs4].
  { unfold c4. destruct (readable c3) eqn:Er; [|done]. split; [|by apply flushTlsOutput_safe].
    replace (flushTlsOutput c3) with (flush files c3).
    - apply flush_live; [done|by intros Hf; simpl in Hf; congruence| |done].
      intros Hcon Ha. destruct (Hl3 Hcon) as [_ F2]. destruct (F2 Ha). auto.
    - unfold flush. rewrite Ha3, (tls_fixed _ c3 (fixed_safe _ _ _ Hs3)). simpl. by rewrite Ht. }
  case_match; [|done]. by apply handleTlsRead_live.
Qed.

Lemma untold_socket s c : untold c -> untold (set_socket s c).
Proof. intros [F1 F2 F3 F4 F5 F6]. by split. Qed.

Lemma handleClose_untold c : untold c -> untold (handleClose c).
Proof.
  intros [F1 F2 F3 F4 F5 F6]. unfold handleClose, disableAll. case_match; [done|].
  by destruct (applicationEstablished_ _).
Qed.

Lemma drive_alive c : alive c -> alive (driveTlsHandshake files c).
Proof.
  intros (x & Hg & Hs & Hl). unfold driveTlsHandshake.
  destruct (_ || _ || _) eqn:E; [by exists x|].
  apply orb_false_iff in E as [E Hd]. apply orb_false_iff in E as [Et Eh]. apply negb_false_iff in Et.
  apply bool_decide_eq_false in Hd. rewrite (tls_fixed x c (fixed_safe _ _ _ Hs)) in Et.
  rewrite (handshake_fixed x c (fixed_safe _ _ _ Hs)) in Eh.
  assert (x_established x = false) as Hx by (by rewrite Hg, Et, Eh). rewrite Hx in Hl.
  destruct (next_accept_safe files x c Hs) as [Hs1 Hst].
  assert (untold (next_accept c).2) as Hu1 by (unfold next_accept; destruct (accepts _); [done|by apply untold_socket]).
  destruct (next_accept c) as [o c1]. cbn [fst snd] in *. rewrite <- Hst in Hd.
  assert (forall c2, safe x "" c2 -> untold c2 -> alive c2) as Hfin.
  { intros c2 F1 F2. exists x. by rewrite Hx. }
  destruct Hu1 as [F1 F2 F3 F4 F5 F6]. destruct o.
  - exists (shaken x). split; [apply good_shaken|]. split; [by apply accepted_safe|]. by apply accepted_live.
  - apply Hfin; [by apply stopIdleWriting_safe, safe_reading|]. unfold stopIdleWriting. by destruct (_ && _).
  - apply Hfin; [by apply safe_writing|done].
  - apply Hfin; [by apply handleClose_safe|]. by apply handleClose_untold.
  - apply Hfin; [by apply handleClose_safe|]. by apply handleClose_untold.
Qed.

(** A step of a connection the application knows. *)
Lemma alive_told x c : good x -> x_established x = true -> safe x "" c -> live x true c -> alive c.
Proof. intros Hg Hx Hs Hl. exists x. by rewrite Hx. Qed.

Lemma alive_step (f : Tcp -> Tcp) c :
  (forall x, good x -> safe x "" c -> safe x "" (f c)) ->
  (forall x, good x -> x_established x = true -> safe x "" c -> live x true c -> live x true (f c)) ->
  (untold c -> untold (f c)) ->
  alive c -> alive (f c).
Proof.
  intros F1 F2 F3 (x & Hg & Hs & Hl). exists x. split; [done|]. split; [by apply F1|].
  destruct (x_established x) eqn:Ex; auto.
Qed.

Lemma alive_known c : alive c -> tlsEnabled c = false \/ tlsHandshakeComplete_ c = true ->
  exists x, good x /\ x_established x = true /\ safe x "" c /\ live x true c.
Proof.
  intros (x & Hg & Hs & Hl) Hc. exists x. assert (x_established x = true) as Hx.
  { rewrite Hg, <- (tls_fixed x c (fixed_safe _ _ _ Hs)), <- (handshake_fixed x c (fixed_safe _ _ _ Hs)).
    destruct Hc as [-> | ->]; [done|by rewrite orb_true_r]. }
  by rewrite Hx in Hl.
Qed.

Lemma live_lists x c : live x true c ->
  state_ c = kConnected -> active c = false -> deferredSends_ (output c) = [] /\ queuedFileFrames_ (output c) = [].
Proof. intros Hl Hc Ha. destruct (Hl Hc) as [_ F]. destruct (F Ha). auto. Qed.

Lemma handleRead_alive c : reading c = true -> alive c -> alive (handleRead files c).
Proof.
  intros Hr Hc. unfold handleRead. destruct (tlsEnabled c) eqn:Et.
  - destruct (tlsHandshakeComplete_ c) eqn:Eh; cbn [negb]; [|by apply drive_alive].
    destruct (alive_known c Hc) as (x & Hg & Hx & Hs & Hl); [by right|].
    pose proof (handleTlsRead_safe files x c (good_tls x Hg) Hs) as Hs1.
    pose proof (handleTlsRead_live x (good_open x Hg Hx) c Hx Hs Hl) as Hl1.
    case_match; [|by eapply alive_told]. eapply alive_told; [done..|by apply flush_safe, safe_write_blocked|].
    apply (flush_live x (good_open x Hg Hx)); [| |by apply safe_write_blocked].
    + intros Ht. rewrite <- (tls_fixed x c (fixed_safe _ _ _ Hs)), Et in Ht. done.
    + exact (live_lists x _ Hl1).
  - destruct (alive_known c Hc) as (x & Hg & Hx & Hs & Hl); [by left|].
    assert (state_ c <> kDisconnected) as Hd.
    { intros Hd. pose proof (sf_closed _ _ _ _ Hs Hd). congruence. }
    eapply alive_told; [done..|by apply handlePlainRead_safe|]. apply handlePlainRead_live; try done. by apply good_open.
Qed.

Lemma flush_alive x c : good x -> x_established x = true -> safe x "" c -> live x true c -> alive (flush files c).
Proof.
  intros Hg Hx Hs Hl. eapply alive_told; [done..|by apply flush_safe|].
  apply (flush_live x (good_open x Hg Hx)); [|by eapply live_lists|done]. intros _. by eapply live_output.
Qed.

Lemma handleWrite_alive c : alive c -> alive (handleWrite files c).
Proof.
  intros Hc. unfold handleWrite. destruct (tlsEnabled c && negb (tlsHandshakeComplete_ c)) eqn:E; [by apply drive_alive|].
  destruct (alive_known c Hc) as (x & Hg & Hx & Hs & Hl).
  { destruct (tlsEnabled c); [right|by left]. by destruct (tlsHandshakeComplete_ c). }
  case_match; [|by eapply flush_alive].
  set (c1 := handleTlsRead files _).
  assert (safe x "" c1) as Hs1 by (by apply (handleTlsRead_safe files x _ (good_tls x Hg)), safe_read_blocked).
  assert (live x true c1) as Hl1.
  { apply handleTlsRead_live; [by apply good_open|done|by apply safe_read_blocked|done]. }
  case_match; [by eapply alive_told|by eapply flush_alive].
Qed.

Lemma run_requests_alive l c : applicationEstablished_ c = true -> alive c -> alive (run_requests files l c).
Proof.
  intros He (x & Hg & Hs & Hl). pose proof (sf_fixed _ _ _ _ Hs) as Hf.
  assert (x_established x = true) as Hx by (by subst x). rewrite Hx in Hl.
  eapply alive_told; [done..|by apply run_requests_safe|]. apply run_requests_live; [by apply good_open|done|done].
Qed.

Lemma alive_established c : alive c -> applicationEstablished_ c = true ->
  exists x, good x /\ x_established x = true /\ safe x "" c /\ live x true c.
Proof.
  intros (x & Hg & Hs & Hl) He. pose proof (sf_fixed _ _ _ _ Hs) as Hf.
  assert (x_established x = true) as Hx by (by subst x). rewrite Hx in Hl. eauto.
Qed.

Lemma step_alive e c : alive c -> alive (step files e c).
Proof.
  intros Hc. destruct e; cbn [step].
  - destruct (reading c) eqn:Er; [by apply handleRead_alive|done].
  - by apply handleWrite_alive.
  - revert Hc. apply alive_step; [by intros; apply handleClose_safe| |apply handleClose_untold].
    intros x _ _ _ _. apply live_closed. by rewrite handleClose_disconnected.
  - destruct (posted c) as [|j rest] eqn:Ep; [done|].
    destruct Hc as (x & Hg & Hs & Hl). destruct (x_established x) eqn:Hx; [|by rewrite (un_posted c Hl) in Ep].
    assert (safe x "" (set_posted rest c)) as Hs1.
    { destruct Hs as [Hf Ho Ht Hd]. by split. }
    destruct j as [k| |]; cbn [run_job].
    + eapply alive_told; [done..|by apply run_requests_safe|]. apply run_requests_live; [by apply good_open|done|done].
    + by eapply alive_told.
    + unfold forceCloseInLoop. case_match; [|by eapply alive_told].
      eapply alive_told; [done..|by apply handleClose_safe|]. apply live_closed. by rewrite handleClose_disconnected.
  - destruct (applicationEstablished_ c) eqn:Ee; [|done].
    destruct (alive_established c Hc Ee) as (x & Hg & Hx & Hs & Hl).
    eapply alive_told; [done..|by apply sendInLoop_safe, ask_safe|].
    apply sendInLoop_live; [by apply good_open|by eapply fixed_safe, ask_safe|by apply ask_live].
  - destruct (applicationEstablished_ c) eqn:Ee; [|done].
    destruct (alive_established c Hc Ee) as (x & Hg & Hx & Hs & Hl).
    eapply alive_told; [done..| |].
    + apply sendFileFrameInLoop_safe; [|by apply ask_safe]. intros p c' ? ?. by apply startFileFrame_safe.
    + apply sendFileFrameInLoop_live; [| |by apply ask_safe|by apply ask_live].
      * apply startFileFrame_live. by apply good_open.
      * unfold cost. by rewrite (frames_left_same _ _ (ask_same _ _ _)).
  - destruct (applicationEstablished_ c) eqn:Ee; [|done]. by apply run_requests_alive.
  - revert Hc. apply alive_step.
    + intros x _. apply connectDestroyed_safe.
    + intros x _ _ _ Hl. unfold connectDestroyed. destruct (_ || _); [|done]. apply live_closed. simpl.
      by destruct (applicationEstablished_ _).
    + intros [F1 F2 F3 F4 F5 F6]. unfold connectDestroyed, disableAll. destruct (_ || _); [|done].
      by destruct (applicationEstablished_ _).
Qed.

Lemma established_alive tls zero s reactions :
  wire s = "" -> (tls = true -> frames_in (first_requests reactions) = 0) ->
  alive (connectEstablished files (new_connection tls zero s reactions)).
Proof.
  intros Hw Hr. unfold connectEstablished.
  set (c := set_reading true (set_state_ kConnected (new_connection tls zero s reactions))).
  assert (safe (mkFixed tls zero false false) "" c) as Hs by (by apply new_safe).
  change (tlsEnabled c) with tls. destruct tls.
  - apply drive_alive. exists (mkFixed true zero false false). split; [done|]. split; [done|]. split; try done.
    by apply Hr.
  - pose proof (notify_safe files _ c (ltac:(done)) Hs) as Hs1.
    eapply (alive_told (mkFixed false zero false true)); [done..|exact Hs1|].
    unfold notifyApplicationEstablished. change (applicationEstablished_ c) with false. cbn [negb].
    apply react_live; [done|by apply (announce_safe files (mkFixed false zero false false))|].
    intros _. split; [by intros [F|F]|done].
Qed.

(** C7: a connection does not stall, unless a file frame is sent in the connection
    callback over TLS (then it can: [first_callback_stalls]).  Whatever the kernel, OpenSSL, other threads
    and the application do, while a connection is connected it reads, and as
    long as anything is in its output buffer or a file frame is being sent it
    waits for the event that lets it go on: for the socket to become writable,
    or, when OpenSSL wants to read first, readable; texts and frames are queued
    only behind an active frame.  The exclusion is the hypothesis: with TLS the
    first callback sends no file frame, nor do the completions of its texts. *)
Theorem no_stall tls zero s reactions es :
  wire s = "" -> (tls = true -> frames_in (first_requests reactions) = 0) ->
  let c := run files tls zero s reactions es in
  state_ c = kConnected ->
  reading c = true /\
  (readable c = true \/ active c = true -> writing c = true \/ (tlsEnabled c = true /\ tlsWriteBlockedOnRead_ c = true)) /\
  (active c = false -> deferredSends_ (output c) = [] /\ queuedFileFrames_ (output c) = []).
Proof.
  intros Hw Hr c Hc.
  set (c0 := set_reading true (set_state_ kConnected (new_connection tls zero s reactions))).
  assert (alive c /\ stays c0 c) as [(x & Hg & Hs & Hl) Hst].
  { clear Hc. unfold c, run. clear c. pose proof (established_alive tls zero s reactions Hw Hr) as Ha.
    assert (stays c0 (connectEstablished files (new_connection tls zero s reactions))) as Hst.
    { unfold connectEstablished. fold c0. case_match; [apply drive_stays|apply notify_stays]. }
    revert Ha Hst. generalize (connectEstablished files (new_connection tls zero s reactions)).
    induction es as [|e es IH]; intros d Ha Hst; [done|]. simpl. apply IH; [by apply step_alive|].
    eapply stays_trans; [exact Hst|apply step_stays]. }
  split; [by apply Hst|].
  assert (live x true c) as Hl' by (destruct (x_established x); [done|by apply untold_live]).
  rewrite (tls_fixed x c (fixed_safe _ _ _ Hs)). destruct (Hl' Hc) as [F1 F2]. split; [exact F1|].
  intros Ha. destruct (F2 Ha). auto.
Qed.
End Files.

(** ** What the code does not do

    A file ["f"] of four bytes, and a file ["g"] that cannot be opened. *)
Definition some_files (path : string) : option string := if path =s? "f" then Some "data" else None.
Definition socket_with (ws : list write_outcome) (accs : list accept_outcome) : Socket :=
  mkSocket "" false false ws [] accs.

(** With TLS, a file frame sent in the connection callback can stall: the flush
    that follows the callback drains the header of the frame and switches
    writing off. *)
Example first_callback_stalls :
  let c := run some_files true false (socket_with [WantWrite; WantWrite; Took 1] [Accepted false])
             [mkReaction 0 [SendFileFrame "h" "f" 0 4 None]] [] in
  wire (socket c) = "h" /\ state_ c = kConnected /\ active c = true /\ writing c = false /\
  tlsWriteBlockedOnRead_ c = false.
Proof. vm_compute. repeat split; reflexivity. Qed.

(** A frame whose file cannot be opened counts as sent: its completion runs,
    and what it sends reaches the peer, who has seen nothing of the frame. *)
Example missing_file_counts_as_sent :
  let c := run some_files false false (socket_with [Took 9] []) []
             [Requests [SendFileFrame "h" "g" 0 4 (Some [Send "FILE_DONE" None])]] in
  wire (socket c) = "FILE_DONE".
Proof. vm_compute. reflexivity. Qed.

(** A shutdown during a file frame is forgotten: the frame ends, nothing is left
    to send, and the writing side stays open. *)
Example shutdown_in_frame_forgotten :
  let c := run some_files false false (socket_with [Took 1; WantWrite; Took 4] []) []
             [Requests [SendFileFrame "h" "f" 0 4 None; Shutdown]; Writable] in
  wire (socket c) = "hdata" /\ state_ c = kDisconnecting /\ writing c = false /\ half_closed (socket c) = false.
Proof. vm_compute. repeat split; reflexivity. Qed.

(** A shutdown while the header of a frame is still in the output buffer closes
    the writing side before the bytes of the frame. *)
Example shutdown_cuts_frame :
  let c := run some_files false false (socket_with [WantWrite; WantWrite; Took 1; Took 4] []) []
             [Requests [SendFileFrame "h" "f" 0 4 None; Shutdown]; Writable] in
  wire (socket c) = "h" /\ half_closed (socket c) = true.
Proof. vm_compute. repeat split; reflexivity. Qed.
End ConnectionLive.
