(* ===== verification/ServerConnections.v ===== *)
(** * The server with the connections of the network library

    [Connection] keeps what [TcpServer] asks of a connection, so that the life
    of every connection of the program is the one [TcpServerProps] describes. *)
From S2P Require Import Prelude TcpServer TcpServerProps Connection ConnectionProps ConnectionLive.
Import TcpServer Connection.

Module ServerConnections.

(** What a new connection is made from: TLS or not, zero copy or not, the socket
    and the application. *)
Record seed := mkSeed { sd_tls : bool; sd_zero_copy : bool; sd_socket : Socket; sd_reactions : list reaction }.

Section Files.
Variable files : string -> option string.

(** The server alone calls [connectDestroyed]. *)
#[export] Instance tcp_life : Life Tcp seed event := {|
  make d := new_connection (sd_tls d) (sd_zero_copy d) (sd_socket d) (sd_reactions d);
  disconnected := is_state kDisconnected;
  TcpServer.connectEstablished := connectEstablished files;
  TcpServer.connectDestroyed := connectDestroyed;
  serve e c := match e with Destroy => c | _ => Connection.step files e c end |}.

#[export] Instance tcp_life_laws : LifeLaws Tcp seed event.
Proof.
  assert (forall e c, disconnected c = true -> disconnected (Connection.step files e c) = true) as Hstep.
  { intros e c. cbn [disconnected tcp_life]. unfold is_state. rewrite !bool_decide_eq_true.
    apply (proj2 (ConnectionLive.step_stays files e c)). }
  split; [done| |].
  - intros [] c Hc; cbn [serve tcp_life]; first [exact Hc|by apply Hstep].
  - intros c. apply (Hstep Destroy).
Qed.

(** C9: whatever the threads do and in whatever order, each connection that the
    server has accepted gets [connectEstablished] once and [connectDestroyed] at
    most once, in this order and both in the thread of its own loop.  When every
    functor has run, the server's map leads to the connection if it is connected
    and to nothing if it is not, and in the latter case it has been destroyed.
    When the server has been destroyed, each of its connections has been or is
    about to be. *)
Theorem connection_lives name_ s i o :
  rtc (TcpServer.step name_) new_server s -> objects s !! i = Some o ->
  o_calls o `prefix_of` [(o_loop o, Established); (o_loop o, Destroyed)] /\
  (pending s = [] -> gone s = false ->
     connections_ s !! o_name o = (if is_state kDisconnected (o_connection o) then None else Some i) /\
     o_calls o = (o_loop o, Established) :: (if is_state kDisconnected (o_connection o) then [(o_loop o, Destroyed)] else [])) /\
  (gone s = true -> o_calls o ++ TcpServerProps.life i (pending s) = [(o_loop o, Established); (o_loop o, Destroyed)]).
Proof.
  intros Hr Ho. destruct (TcpServerProps.run_inv _ _ _ Hr (TcpServerProps.new_server_inv name_)) as [Hs Hok].
  destruct (Hok i o Ho) as (F1 & F2 & F3). unfold TcpServerProps.whole_life in F1. split_and!.
  - destruct (TcpServerProps.member s i o); [|by exists (TcpServerProps.life i (pending s))].
    exists (TcpServerProps.life i (pending s) ++ [(o_loop o, Destroyed)]). by rewrite app_assoc, F1.
  - intros Hp Hg. specialize (F3 Hg). rewrite Hp in F1, F3. cbn in F1. rewrite app_nil_r in F1.
    rewrite (TcpServerProps.lookup_member name_ i o s Hs Ho), F1. change disconnected with (is_state kDisconnected) in F3.
    destruct (TcpServerProps.member s i o); [|by rewrite F3].
    destruct (is_state kDisconnected (o_connection o)); [|done]. exfalso. by apply (not_elem_of_nil (0, RemoveInLoop i)), F3.
  - intros Hg. rewrite F1. unfold TcpServerProps.member.
    by rewrite (proj2 (TcpServerProps.gone_stopped name_ s Hs Hg)), lookup_empty.
Qed.
End Files.
End ServerConnections.
