(* ===== verification/Dispatch.v ===== *)
(** * Dispatching events to connections, [ChatRoom/src/minimuduo/net]

    [Poller::poll] and [fillActiveChannels], [Channel::handleEvent], and the
    dispatching part of [EventLoop::loop], with the server of [TcpServer.v] as what
    the callbacks and functors do.  A loop keeps plain pointers to channels: in
    the kernel, in the array of events and in [activeChannels_].  A channel is
    freed with its connection, when the last [shared_ptr] is gone; this file
    shows that no loop ever follows a pointer to a freed one. *)
From stdpp Require Import functions.
From S2P Require Import Prelude EventLoop TcpServer TcpServerProps Connection ServerConnections.
Import TcpServer TcpServerProps.

Module Dispatch.

(** The channels of a loop: its eventfd, the acceptor, a connection's. *)
Inductive channel := WakeupChannel | AcceptorChannel | Of (i : nat).
#[export] Instance channel_eq_dec : EqDecision channel.
Proof. solve_decision. Defined.

#[export] Instance callback_eq_dec : EqDecision EventLoop.callback.
Proof. solve_decision. Defined.

(** ** [Poller::poll] *)

(** An [epoll_event]: the pointer, null at first, and the events. *)
Definition slot : Type := option channel * Z.
Definition new_events : list slot := replicate 64 (None, 0%Z).

(** What [epoll_wait] answers. *)
Inductive waited := Events (l : list (channel * Z)) | Interrupted | WaitError (error : string).

(** [epoll_wait] writes into the array from its beginning. *)
Definition epoll_wait (l : list (channel * Z)) (events : list slot) : list slot :=
  map (fun x => (Some x.1, x.2)) l ++ drop (length l) events.

(** [setRevents] and [push_back] for each event; [None] when the index is out of the
    array or the pointer is null. *)
Definition fillActiveChannels (eventCount : nat) (events : list slot) : option (list (channel * Z)) :=
  mapM (fun index => match events !! index with Some (Some c, revents) => Some (c, revents) | _ => None end) (seq 0 eventCount).

Inductive polled := Active (l : list (channel * Z)) (events : list slot) | Throws (what : string) | Undefined.

Definition poll (w : waited) (events : list slot) : polled :=
  match w with
  | Events [] | Interrupted => Active [] events
  | WaitError error => Throws ("epoll_wait failed: " +:+ error)
  | Events l =>
      let events := epoll_wait l events in
      match fillActiveChannels (length l) events with
      | None => Undefined
      | Some active =>
          Active active (if length l =? length events then events ++ replicate (length events) (None, 0%Z) else events)
      end
  end.

(** ** [Channel::handleEvent] *)

(** [tie_.lock()] gives the owner unless it has been freed. *)
Definition handleEvent (tied owner_alive : bool) (revents : Z) : list EventLoop.callback :=
  if negb tied then EventLoop.handleEventWithGuard revents
  else if owner_alive then EventLoop.handleEventWithGuard revents else [].

(** ** The loops and the server *)

Section Loops.
Context {C S E : Type} `{Life C S E}.
Variable name_ : string.
Local Abbreviation Server := (@Server C).

(** Who holds a [shared_ptr] to connection [i]: the map of the server, or a functor
    that waits in a loop. *)
Definition referenced (i : nat) (s : Server) : Prop :=
  i ∈ (map_to_list (connections_ s)).*2 \/ i ∈ omap (fun x : nat * functor => functor_of x.2) (pending s).

(** The array of events and what is left of [activeChannels_], by loop. *)
Record Loops := mkLoops { server : Server; events_ : nat -> list slot; activeChannels_ : nat -> list (channel * Z) }.
Definition new_loops : Loops := mkLoops new_server (fun _ => new_events) (fun _ => []).
(** The base loop that has stopped dispatches no more. *)
Definition set_server (s : Server) (d : Loops) : Loops :=
  mkLoops s (events_ d) (if running s then activeChannels_ d else <[0 := []]> (activeChannels_ d)).
Definition set_active (loop : nat) (l : list (channel * Z)) (d : Loops) : Loops := mkLoops (server d) (events_ d) (<[loop := l]> (activeChannels_ d)).
Definition set_events (loop : nat) (l : list slot) (d : Loops) : Loops := mkLoops (server d) (<[loop := l]> (events_ d)) (activeChannels_ d).

(** Connection [i] belongs to the loop and has been established and not destroyed:
    [connectEstablished] makes the kernel watch its channel, [connectDestroyed] ends it. *)
Definition open_on (loop i : nat) (s : Server) : Prop :=
  exists o, objects s !! i = Some o /\ o_loop o = loop /\ o_calls o = [(loop, Established)].

(** What the kernel may report to a loop. *)
Definition watched (loop : nat) (s : Server) (c : channel) : Prop :=
  match c with
  | WakeupChannel => True
  | AcceptorChannel => loop = 0 /\ listening_ s = true
  | Of i => open_on loop i s
  end.

(** The callbacks that [handleEvent] calls for a channel. *)
Definition callbacks (x : channel * Z) (s : Server) : list EventLoop.callback :=
  match x.1 with
  | WakeupChannel | AcceptorChannel => handleEvent false false x.2
  | Of i => handleEvent true (bool_decide (referenced i s)) x.2
  end.

(** [handleEvent] of the next active channel: a connection serves an event for each
    callback; the acceptor, which has a read callback only, accepts, and an
    exception leaves the base loop. *)
Definition handle (loop : nat) (x : channel * Z) (rest : list (channel * Z)) (es : list E) (answers : list accepted) (d : Loops) : Loops :=
  match x.1 with
  | WakeupChannel => set_active loop rest d
  | AcceptorChannel =>
      if bool_decide (EventLoop.ReadCallback ∈ callbacks x (server d)) then
        let r := handleRead name_ answers (server d) in
        set_server (set_running (bool_decide (r.1 = None)) r.2) (set_active loop rest d)
      else set_active loop rest d
  | Of i => set_server (foldl (fun s e => live_on loop i [] (serve e) s) (server d) es) (set_active loop rest d)
  end.

(** The steps of the loops, as in [TcpServer.step], each thread polling when its
    active channels are handled and running functors only then.  Whoever runs in
    the thread of a loop may also use another connection of the loop. *)
Inductive loops_step : Loops -> Loops -> Prop :=
  | l_poll loop w l events d :
      activeChannels_ d loop = [] -> (loop = 0 -> running (server d) = true) ->
      (forall l, w = Events l -> Forall (fun x => watched loop (server d) x.1) l /\ length l <= length (events_ d loop)) ->
      poll w (events_ d loop) = Active l events ->
      loops_step d (set_active loop l (set_events loop events d))
  | l_handle loop x rest es answers d :
      activeChannels_ d loop = x :: rest -> (forall i, x.1 = Of i -> length es = length (callbacks x (server d))) ->
      (nextConnectionId_ (server d) + Z.of_nat (length answers) < 2 ^ 31)%Z ->
      loops_step d (handle loop x rest es answers d)
  | l_functor loop f l1 l2 d :
      activeChannels_ d loop = [] ->
      pending (server d) = l1 ++ (loop, f) :: l2 -> Forall (fun x => x.1 <> loop) l1 -> (loop = 0 -> running (server d) = true) ->
      loops_step d (set_server (call loop f (set_pending (l1 ++ l2) (server d))) d)
  | l_serve i o e d :
      objects (server d) !! i = Some o -> (o_loop o = 0 -> running (server d) = true) ->
      o_calls o = [(o_loop o, Established)] \/ disconnected (o_connection o) = true ->
      loops_step d (set_server (live_on (o_loop o) i [] (serve e) (server d)) d)
  | l_threads n p d :
      gone (server d) = false -> setThreadNum n (threadPool_ (server d)) = inr p -> loops_step d (set_server (set_pool p (server d)) d)
  | l_start me error d : gone (server d) = false -> loops_step d (set_server (start me error (server d)) d)
  | l_stop d : running (server d) = true -> loops_step d (set_server (set_running false (server d)) d)
  | l_destroy d :
      running (server d) = false -> gone (server d) = false -> loops_step d (set_server (destroy_server (server d)) d).
End Loops.

(** ** The array of events *)

Lemma fill_prefix l events : fillActiveChannels (length l) (map (fun x => (Some x.1, x.2)) l ++ events) = Some l.
Proof.
  unfold fillActiveChannels. apply mapM_Some_2. apply Forall2_same_length_lookup_2; [by rewrite length_seq|].
  intros i j [c r] Hi Hx. apply lookup_seq in Hi as [-> _]. cbn.
  rewrite lookup_app_l by (rewrite length_map; by eapply lookup_lt_Some).
  by rewrite list_lookup_fmap, Hx.
Qed.

(** As long as [epoll_wait] writes no more than it is told there is room for, [poll]
    stays within the array and gives what was reported; the array never
    shrinks, and after a poll that filled it, it has room for as much again. *)
Theorem poll_exact w events :
  (forall l, w = Events l -> length l <= length events) ->
  match poll w events with
  | Active l events' =>
      l = (match w with Events l => l | _ => [] end) /\ length l <= length events' /\ length events <= length events' /\
      (events <> [] -> length l = length events -> length events' = 2 * length events)
  | Throws _ => exists error, w = WaitError error
  | Undefined => False
  end.
Proof.
  intros Hw. destruct w as [[|x l]| |error]; cbn [poll]; [split_and!; [done|cbn; lia|done|by destruct events]| | |by eexists].
  - specialize (Hw _ eq_refl). unfold epoll_wait. rewrite fill_prefix. split; [done|].
    assert (length (map (fun x => (Some x.1, x.2)) (x :: l) ++ drop (length (x :: l)) events) = length events) as Hlen.
    { rewrite length_app, length_map, length_drop. unfold slot in *. lia. }
    revert Hlen. generalize (map (fun x => (Some x.1, x.2)) (x :: l) ++ drop (length (x :: l)) events). intros ev Hlen. unfold slot in *.
    case_match eqn:Hfull; [apply Nat.eqb_eq in Hfull|apply Nat.eqb_neq in Hfull]; rewrite ?length_app, ?length_replicate, ?Hlen; split_and!; lia.
  - split_and!; [done|cbn; lia|done|by destruct events].
Qed.

(** ** No pointer to a freed channel *)

Section Live.
Context {C S E : Type} `{LifeLaws C S E}.
Variable name_ : string.
Local Abbreviation Server := (@Server C).
Local Abbreviation inv := (@inv C S E _ name_).

(** From [s] to [s'] the acceptor stays, and so do the connections of loops in [P]. *)
Definition keeps (P : nat -> Prop) (s s' : Server) : Prop :=
  (listening_ s = true -> listening_ s' = true) /\ forall loop i, P loop -> open_on loop i s -> open_on loop i s'.

Lemma keeps_trans P s1 s2 s3 : keeps P s1 s2 -> keeps P s2 s3 -> keeps P s1 s3.
Proof. intros [F1 F2] [G1 G2]. split; auto. Qed.
Lemma keeps_same P s s' : objects s' = objects s -> (listening_ s = true -> listening_ s' = true) -> keeps P s s'.
Proof. intros Ho Hl. split; [done|]. intros loop i _. unfold open_on. by rewrite Ho. Qed.
Lemma keeps_foldl {A} P (f : Server -> A -> Server) l s : (forall s a, keeps P s (f s a)) -> keeps P s (foldl f s l).
Proof.
  intros Hf. revert s. induction l as [|a l IH]; intros s; [by apply keeps_same|]. cbn. by eapply keeps_trans; [apply Hf|].
Qed.

Lemma removeConnection_keeps P loop i s : keeps P s (removeConnection loop i s).
Proof. unfold removeConnection, removeConnectionInLoop. repeat case_match; by apply keeps_same. Qed.

Lemma live_on_keeps (P : nat -> Prop) loop j calls f s :
  (calls = [] \/ forall L, P L -> ~ open_on L j s) -> keeps P s (live_on loop j calls f s).
Proof.
  intros Hj. unfold live_on. destruct (objects s !! j) as [o|] eqn:Ho; [|by apply keeps_same].
  eapply (keeps_trans _ _ (set_objects _ s)); [|case_match; [apply removeConnection_keeps|by apply keeps_same]].
  split; [done|]. intros L i HL Hi. pose proof Hi as (o' & Ho' & Hl & Hc). unfold open_on. cbn [objects set_objects].
  destruct (decide (j = i)) as [<-|Hne]; [|exists o'; by rewrite list_lookup_insert_ne].
  destruct Hj as [->|Hj]; [|by destruct (Hj L HL)]. eexists. rewrite list_lookup_insert_eq by (by eapply lookup_lt_Some).
  split; [done|]. cbn. rewrite Ho in Ho'. injection Ho' as ->. by rewrite app_nil_r.
Qed.

Lemma destroy_on_keeps (P : nat -> Prop) loop j s : (forall L, P L -> ~ open_on L j s) -> keeps P s (destroy_on loop j s).
Proof.
  intros Hj. unfold destroy_on. destruct (objects s !! j) as [o|] eqn:Ho; [|by apply keeps_same].
  split; [done|]. intros L i HL Hi. destruct (decide (j = i)) as [<-|Hne]; [by destruct (Hj L HL)|].
  destruct Hi as (o' & Ho' & Hl). exists o'. cbn. by rewrite list_lookup_insert_ne.
Qed.

Lemma start_functor_keeps P error s : keeps P s (start_functor error s).
Proof. unfold start_functor, listen. repeat case_match; by apply keeps_same. Qed.
Lemma start_keeps P me error s : keeps P s (start me error s).
Proof.
  unfold start, runInLoop. destruct (started_ s); [by apply keeps_same|]. case_match; [|by apply keeps_same].
  eapply keeps_trans; [|apply start_functor_keeps]. by apply keeps_same.
Qed.

(** What is queued about a connection that has been established is its end, in
    its own loop. *)
Lemma open_pending k f l1 l2 L i s :
  inv s -> pending s = l1 ++ (k, f) :: l2 -> open_on L i s -> f <> Establish i /\ (f = DestroyConnection i -> k = L).
Proof.
  intros [_ Hok] Hp (o & Ho & Hl & Hc). destruct (Hok _ _ Ho) as (F1 & _). rewrite Hp, Hc in F1. split.
  - intros ->. rewrite (life_here i k _ l1 l2 (k, Established)) in F1 by (cbn; by rewrite Nat.eqb_refl).
    rewrite app_assoc in F1. by apply life_first in F1 as (? & _); [|apply whole_tail].
  - intros ->. rewrite (life_here i k _ l1 l2 (k, Destroyed)) in F1 by (cbn; by rewrite Nat.eqb_refl).
    rewrite app_assoc in F1. apply life_second in F1 as (_ & -> & _). done.
Qed.

Lemma call_keeps k f l1 l2 s :
  inv s -> pending s = l1 ++ (k, f) :: l2 -> keeps (fun L => L <> k) s (call k f (set_pending (l1 ++ l2) s)).
Proof.
  intros Hi Hp. eapply (keeps_trans _ _ (set_pending (l1 ++ l2) s)); [by apply keeps_same|]. destruct f as [error|j|j|j]; cbn [call].
  - apply start_functor_keeps.
  - apply live_on_keeps. right. intros L _ Ho. by destruct (open_pending k (Establish j) l1 l2 L j s Hi Hp Ho).
  - exact (removeConnection_keeps _ 0 j _).
  - apply destroy_on_keeps. intros L HL Ho. destruct (open_pending k (DestroyConnection j) l1 l2 L j s Hi Hp Ho) as [_ Hk].
    by destruct HL; rewrite Hk.
Qed.

Lemma newConnection_keeps P getsockname ssl socket s : keeps P s (newConnection name_ getsockname ssl socket s).2.
Proof.
  unfold newConnection. destruct (getNextLoop _) as [ioLoop p]. destruct getsockname; [by apply keeps_same|].
  destruct ssl; [by apply keeps_same|]. cbn [snd].
  match goal with |- keeps _ _ (runInLoop _ _ _ ?s1) => eapply (keeps_trans _ _ s1) end.
  - split; [done|]. intros L i _ (o & Ho & Hr). exists o. cbn. split; [by apply lookup_app_l_Some|done].
  - unfold runInLoop. case_match; [|by apply keeps_same]. apply live_on_keeps. right. intros L _ (o & Ho & _ & Hc).
    cbn in Ho. rewrite list_lookup_middle in Ho by done. by injection Ho as <-.
Qed.

Lemma handleRead_keeps P answers s : keeps P s (handleRead name_ answers s).2.
Proof.
  revert s. induction answers as [|[socket gs ssl| | |e] rest IH]; intros s; cbn [handleRead]; try by apply keeps_same.
  - pose proof (newConnection_keeps P gs ssl socket s) as Hn. destruct (newConnection name_ gs ssl socket s) as [[e|] s1]; [done|].
    by eapply keeps_trans; [|apply IH].
  - apply IH.
Qed.

Lemma destroy_server_keeps s : keeps (fun L => L <> 0) s (destroy_server s).
Proof.
  unfold destroy_server. eapply (keeps_trans _ _ (set_gone (set_connections ∅ s))); [by apply keeps_same|].
  apply keeps_foldl. intros s' [n i]. destruct (objects s' !! i) as [o|] eqn:Ho; [|by apply keeps_same].
  unfold runInLoop. case_match eqn:Hz; [|by apply keeps_same]. apply Nat.eqb_eq in Hz. apply destroy_on_keeps.
  intros L HL (o' & Ho' & Hl & _). rewrite Ho in Ho'. injection Ho' as <-. apply HL. congruence.
Qed.

(** An established connection is held by the map or by the functor that will
    destroy it. *)
Lemma open_referenced L i s : inv s -> open_on L i s -> referenced i s.
Proof.
  intros [Hs Hok] (o & Ho & Hl & Hc). destruct (Hok _ _ Ho) as (F1 & _). rewrite Hc in F1. unfold referenced.
  pose proof (member_elem name_ s i o Hs Ho) as Hm. destruct (member s i o); [left; symmetry in Hm; by apply bool_decide_eq_true_1 in Hm|right].
  injection F1 as _ F1. assert ((o_loop o, Destroyed) ∈ life i (pending s)) as Hin by (rewrite F1; by left).
  apply list_elem_of_omap in Hin as ([k f] & Hin & Hf). apply list_elem_of_omap. exists (k, f). split; [done|].
  destruct f; cbn in *; try done; case_match; simplify_eq; f_equal; by apply Nat.eqb_eq.
Qed.

(** What is active is watched, and active channels of the base loop are there only
    while it runs. *)
Record ok (d : @Loops C) : Prop := {
  ok_server : inv (server d);
  ok_active loop x : x ∈ activeChannels_ d loop -> watched loop (server d) x.1 /\ (loop = 0 -> running (server d) = true) }.

Lemma set_active_ok loop l d :
  ok d -> (forall x, x ∈ l -> watched loop (server d) x.1 /\ (loop = 0 -> running (server d) = true)) -> ok (set_active loop l d).
Proof.
  intros [Hi Ha] Hl. split; [done|]. intros loop' x. cbn. destruct (decide (loop = loop')) as [<-|Hne].
  - rewrite fn_lookup_insert. apply Hl.
  - rewrite fn_lookup_insert_ne by done. apply Ha.
Qed.

Lemma set_server_ok (P : nat -> Prop) s d :
  ok d -> inv s -> keeps P (server d) s -> (forall loop x, x ∈ activeChannels_ d loop -> P loop \/ running s = false /\ loop = 0) -> ok (set_server s d).
Proof.
  intros [_ Ha] Hi [Hl Hk] HP. split; [done|]. intros loop x. cbn.
  assert (x ∈ activeChannels_ d loop -> (loop = 0 -> running s = true) -> watched loop s x.1) as Hw.
  { intros Hx Hr. destruct (Ha loop x Hx) as [Hx' _]. destruct (HP loop x Hx) as [HPl|[Hs Hz]]; [|rewrite (Hr Hz) in Hs; done].
    destruct x as [[| |i] r]; cbn in *; [done|split; [|apply Hl]; tauto|by apply Hk]. }
  destruct (running s) eqn:Hr; [by intros Hx; split; [apply Hw|]|]. destruct (decide (loop = 0)) as [->|Hne].
  - rewrite fn_lookup_insert. intros Hx. by apply not_elem_of_nil in Hx.
  - rewrite fn_lookup_insert_ne by done. intros Hx. by split; [apply Hw|].
Qed.

Lemma serve_all loop i es s :
  open_on loop i s -> (loop = 0 -> running s = true) ->
  let s' := foldl (fun s e => live_on loop i [] (serve e) s) s es in rtc (step name_) s s' /\ keeps (fun _ => True) s s'.
Proof.
  intros Ho Hr. cbn zeta. split; [|apply keeps_foldl; intros; apply live_on_keeps; by left]. revert s Ho Hr.
  induction es as [|e es IH]; intros s Ho Hr; [done|]. cbn [foldl]. pose proof Ho as (o & Hi & Hl & Hc). eapply rtc_l.
  - pose proof (t_serve name_ i o e s Hi) as Hs. rewrite Hl in Hs. apply Hs; auto.
  - apply IH; [|by intros Hz; destruct (live_on_up loop i [] (serve e) s) as [_ ->]; apply Hr].
    apply (live_on_keeps (fun _ => True)); [by left|done|done].
Qed.

Lemma inv_stop s : inv s -> inv (set_running false s).
Proof. by apply inv_ext. Qed.

Lemma handle_ok loop x rest es answers d :
  activeChannels_ d loop = x :: rest -> (nextConnectionId_ (server d) + Z.of_nat (length answers) < 2 ^ 31)%Z -> ok d ->
  let d' := handle name_ loop x rest es answers d in ok d' /\ rtc (step name_) (server d) (server d').
Proof.
  intros Hx Hn Hok. pose proof Hok as [Hi Ha]. destruct (Ha loop x) as [Hw Hr]; [rewrite Hx; by left|].
  assert (ok (set_active loop rest d)) as Hok'. { apply set_active_ok; [done|]. intros y Hy. apply Ha. rewrite Hx. by right. }
  destruct x as [[| |i] r]; unfold handle; cbn [fst].
  - by split.
  - case_bool_decide; [|by split]. destruct Hw as [-> Hl]. pose proof (t_accept name_ answers (server d) (Hr eq_refl) Hl Hn) as Hs.
    split; [|by apply rtc_once]. eapply set_server_ok with (P := fun _ => True); [done|by eapply step_inv|by apply handleRead_keeps|by left].
  - destruct (serve_all loop i es (server d) Hw Hr) as [Hs Hk]. split; [|done].
    eapply set_server_ok with (P := fun _ => True); [done|by eapply run_inv|done|by left].
Qed.

(** A step that is one of the server's. *)
Lemma server_step_ok (P : nat -> Prop) s d :
  ok d -> step name_ (server d) s -> keeps P (server d) s -> (forall loop x, x ∈ activeChannels_ d loop -> P loop \/ running s = false /\ loop = 0) ->
  ok (set_server s d) /\ rtc (step name_) (server d) (server (set_server s d)).
Proof.
  intros Hok Hs Hk HP. split; [|by apply rtc_once]. eapply set_server_ok; [done| |done|done]. eapply step_inv; [done|apply Hok].
Qed.

Lemma loops_step_ok d d' : loops_step name_ d d' -> ok d -> ok d' /\ rtc (step name_) (server d) (server d').
Proof.
  destruct 1 as [loop w l events d Hz Hr Hw Hp|loop x rest es answers d Hx He Hn|loop f l1 l2 d Hz Hp Hl1 Hr|i o e d Ho Hr Hc
    |n p d Hg Hp|me error d Hg|d Hr|d Hr Hg]; intros Hok.
  - split; [|done]. apply set_active_ok; [by destruct Hok|]. intros x Hx. split; [|done].
    pose proof (poll_exact w (events_ d loop)) as Hpe. rewrite Hp in Hpe. destruct Hpe as [-> _]; [intros l' ->; by apply Hw|].
    destruct w as [l'| |]; [|by apply not_elem_of_nil in Hx..]. destruct (Hw l' eq_refl) as [Hf _]. rewrite Forall_forall in Hf. by apply Hf.
  - by apply handle_ok.
  - apply (server_step_ok (fun L => L <> loop)); [done|by apply t_run|apply call_keeps; [apply Hok|done]|].
    intros L x Hx. left. intros ->. rewrite Hz in Hx. by apply not_elem_of_nil in Hx.
  - apply (server_step_ok (fun _ => True)); [done|by eapply t_serve|apply live_on_keeps; by left|by left].
  - apply (server_step_ok (fun _ => True)); [done|by eapply t_threads|by apply keeps_same|by left].
  - apply (server_step_ok (fun _ => True)); [done|by apply t_start|apply start_keeps|by left].
  - apply (server_step_ok (fun _ => True)); [done|by apply t_stop|by apply keeps_same|by left].
  - apply (server_step_ok (fun L => L <> 0)); [done|by apply t_destroy|apply destroy_server_keeps|].
    intros L x Hx. left. intros ->. destruct Hok as [_ Ha]. destruct (Ha 0 x Hx) as [_ Hrun]. by rewrite Hrun in Hr.
Qed.

(** C10: No loop follows a pointer to a freed channel.  However the loops and their
    functors interleave, with whatever the kernel reports of the channels it is
    asked to watch, each channel that a loop has still to handle is the loop's
    own, and belongs to a connection that has been established, has not been
    destroyed and is held by the map of the server or by a functor, or to the
    listening acceptor of a server that is there; so [handleEvent] never misses an
    event because its owner is gone.  Seen from the server the loops do nothing
    but its own steps. *)
Theorem dispatch_live d :
  rtc (loops_step name_) new_loops d ->
  rtc (step name_) new_server (server d) /\
  forall loop x, x ∈ activeChannels_ d loop ->
    callbacks x (server d) = EventLoop.handleEventWithGuard x.2 /\
    match x.1 with
    | WakeupChannel => True
    | AcceptorChannel => loop = 0 /\ running (server d) = true /\ gone (server d) = false /\ listening_ (server d) = true
    | Of i => referenced i (server d) /\
        exists o, objects (server d) !! i = Some o /\ o_loop o = loop /\ o_calls o = [(loop, Established)]
    end.
Proof.
  intros Hr. assert (ok new_loops) as Hnew. { split; [apply new_server_inv|]. intros loop x Hx. by apply not_elem_of_nil in Hx. }
  assert (ok d /\ rtc (step name_) (server new_loops) (server d)) as [[Hi Ha] Hs].
  { induction Hr as [d|d1 d2 d3 H12 H23 IH]; [done|]. destruct (loops_step_ok _ _ H12 Hnew) as [Hok Hs].
    destruct (IH Hok) as [? ?]. split; [done|]. by etrans. }
  split; [done|]. intros loop x Hx. destruct (Ha loop x Hx) as [Hw Hrun]. destruct x as [[| |i] r]; cbn in *; [done| |].
  - destruct Hw as [-> Hl]. specialize (Hrun eq_refl). split_and!; try done.
    destruct (gone (server d)) eqn:Hg; [|done]. destruct (gone_stopped _ _ (proj1 Hi) Hg). congruence.
  - pose proof (open_referenced loop i _ Hi Hw) as Href. unfold callbacks. cbn. rewrite bool_decide_eq_true_2 by done. done.
Qed.
End Live.

(** ** A run *)

(** A server with one thread accepts a connection, and bytes arrive on it. *)
Module LoopRun.
Import ServerConnections.
#[export] Instance life_here : Life Connection.Tcp seed Connection.event := tcp_life (fun _ => None).
#[export] Instance laws_here : LifeLaws Connection.Tcp seed Connection.event := tcp_life_laws (fun _ => None).
Definition plain : seed := mkSeed false false (Connection.mkSocket "" false false [] [] []) [].
Definition start_up : @Loops Connection.Tcp := set_server (start 0 None (set_pool (mkLoopPool false 1 0 []) new_server)) new_loops.
Definition array (loop : nat) (l : list (channel * Z)) (d : @Loops Connection.Tcp) : @Loops Connection.Tcp :=
  set_active loop l (set_events loop (epoll_wait l (events_ d loop)) d).
Definition incoming : @Loops Connection.Tcp := array 0 [(AcceptorChannel, EventLoop.EPOLLIN)] start_up.
Definition accepted : @Loops Connection.Tcp := handle "chat" 0 (AcceptorChannel, EventLoop.EPOLLIN) [] [] [Socket plain None None] incoming.
Definition established : @Loops Connection.Tcp := set_server (call 1 (Establish 0) (set_pending [] (server accepted))) accepted.
Definition readable : @Loops Connection.Tcp := array 1 [(Of 0, EventLoop.EPOLLIN)] established.

Lemma start_up_reached : rtc (loops_step "chat") new_loops start_up.
Proof.
  apply (rtc_l _ _ (set_server (set_pool (mkLoopPool false 1 0 []) new_server) new_loops)); [by apply l_threads with 1%Z|].
  apply rtc_once. by refine (l_start "chat" 0 None (set_server (set_pool (mkLoopPool false 1 0 []) new_server) new_loops) _).
Qed.
Lemma incoming_step : loops_step "chat" start_up incoming.
Proof.
  refine (l_poll "chat" 0 (Events [(AcceptorChannel, EventLoop.EPOLLIN)]) _ _ start_up _ _ _ _); [done|done| |done].
  intros l [= <-]. split; [by repeat constructor|vm_compute; lia].
Qed.
Lemma dispatch_accepted_step : loops_step "chat" incoming accepted.
Proof. refine (l_handle "chat" 0 (AcceptorChannel, EventLoop.EPOLLIN) [] [] [Socket plain None None] incoming _ _ _); [reflexivity|by intros i|vm_compute; reflexivity]. Qed.
Lemma established_step : loops_step "chat" accepted established.
Proof. by refine (l_functor "chat" 1 (Establish 0) [] [] accepted _ _ _ _). Qed.
Lemma readable_step : loops_step "chat" established readable.
Proof.
  refine (l_poll "chat" 1 (Events [(Of 0, EventLoop.EPOLLIN)]) _ _ established _ _ _ _); [done|done| |done].
  intros l [= <-]. split; [|vm_compute; lia]. constructor; [|done]. by eexists.
Qed.
Lemma readable_reached : rtc (loops_step "chat") new_loops readable.
Proof.
  etrans; [apply start_up_reached|]. eapply rtc_l; [apply incoming_step|]. eapply rtc_l; [apply dispatch_accepted_step|].
  eapply rtc_l; [apply established_step|]. apply rtc_once, readable_step.
Qed.
End LoopRun.

Import LoopRun.
Lemma dispatch_live_witness :
  callbacks (Of 0, EventLoop.EPOLLIN) (server LoopRun.readable) = [EventLoop.ReadCallback] /\ referenced 0 (server LoopRun.readable).
Proof.
  destruct (proj2 (dispatch_live "chat" LoopRun.readable LoopRun.readable_reached) 1 (Of 0, EventLoop.EPOLLIN)) as [Hc [Hr _]]; [by left|].
  split; [exact Hc|exact Hr].
Defined.

End Dispatch.
