(* ===== verification/Filesystem.v ===== *)
(** * Paths and directories, as the programs see them through [std::filesystem]

    A tree of directories, files and symbolic links; the kernel's walk along a
    path; and the operations of [std::filesystem] that the FTP server uses:
    [weakly_canonical], [lexically_normal], [relative], [exists] and the kind
    of file.  All paths here are absolute and are the list of the elements that
    iteration gives after the root directory; the element [""] stands for a
    trailing separator.  The process may search and read every directory. *)
From S2P Require Import Prelude.

Module Filesystem.

Abbreviation path := (list string).

(** A directory and a file have permission bits. *)
Inductive node := Dir (perms : Z) | File (perms : Z) (content : string) | Link (target : string).
Abbreviation tree := (gmap path node).

(** ** The elements of a path *)

Fixpoint split_slash (current : string) (s : string) : list string :=
  match s with
  | EmptyString => [current]
  | String c rest => if bool_decide (c = "/"%char) then current :: split_slash "" rest else split_slash (current +:+ String c "") rest
  end.
(** Repeated separators are one; a trailing one gives a last, empty element. *)
Definition elements (s : string) : path :=
  let words := split_slash "" s in
  let names := filter (fun w => negb (is_empty w)) words in
  match names with
  | [] => []
  | _ => if bool_decide (last words = Some "") then names ++ [""] else names
  end.
Definition is_absolute (s : string) : bool := match s with String c _ => bool_decide (c = "/"%char) | _ => false end.

Definition has_filename (p : path) : bool := match last p with Some w => negb (is_empty w) | None => false end.
Definition strip (p : path) : path := if has_filename p then p else removelast p.
(** [p / q] for a relative [q]. *)
Definition slash (p q : path) : path :=
  match q with
  | [] => if has_filename p then p ++ [""] else p
  | _ => strip p ++ q
  end.
Definition parent_path (p : path) : path := removelast p.

(** A name proper. *)
Definition plain (w : string) : bool := negb (is_empty w) && negb (w =s? ".") && negb (w =s? "..").

(** ** The kernel's walk *)

(** Where a path leads: to what exists; to nothing, at that place of an existing
    directory if only the last name is missing; through what is no directory;
    round in circles. *)
Inductive found := Found (location : path) | Missing (place : option path) | NotDir | Loop.

Definition is_dir (n : option node) : bool := match n with Some (Dir _) => true | _ => false end.

(** [links] symbolic links may be followed. *)
Fixpoint walk (links : nat) (t : tree) : path -> path -> found :=
  fix go (current todo : path) : found :=
    match todo with
    | [] => Found current
    | w :: rest =>
        if negb (is_dir (t !! current)) then NotDir
        else if is_empty w || (w =s? ".") then go current rest
        else if w =s? ".." then go (removelast current) rest
        else
          match t !! (current ++ [w]) with
          | None => Missing (match rest with [] => Some (current ++ [w]) | _ => None end)
          | Some (Link target) =>
              match links with
              | 0 => Loop
              | S links => walk links t (if is_absolute target then [] else current) (elements target ++ rest)
              end
          | Some _ => go (current ++ [w]) rest
          end
    end.
Definition max_links : nat := 40.
Definition lead (t : tree) (p : path) : found := walk max_links t [] p.

(** ** [std::filesystem] *)

(** What [status] knows: there, not there, or an error. *)
Definition status (t : tree) (p : path) : option (option path) :=
  match lead t p with
  | Found l => Some (Some l)
  | Missing _ | NotDir => Some None
  | Loop => None
  end.

Definition status_error (p : path) : string :=
  "filesystem error: status: Too many levels of symbolic links [/" +:+ String.concat "/" p +:+ "]".

(** The versions that throw. *)
Definition node_at (t : tree) (p : path) : string + option node :=
  match status t p with
  | None => inl (status_error p)
  | Some None => inr None
  | Some (Some l) => inr (t !! l)
  end.

(** Dots go, a name goes with the dots that follow it; a trailing dot leaves a
    trailing separator. *)
Fixpoint normal (names : path) (trailing : bool) (todo : path) : path :=
  match todo with
  | [] => if trailing && negb (bool_decide (names = [])) then names ++ [""] else names
  | w :: rest =>
      if is_empty w || (w =s? ".") then normal names true rest
      else if w =s? ".." then normal (removelast names) true rest
      else normal (names ++ [w]) false rest
  end.
Definition lexically_normal (p : path) : path := normal [] false p.

(** The elements of a path that exist, and the others. *)
Fixpoint existing (t : tree) (result todo : path) : option (path * path) :=
  match todo with
  | [] => Some (result, [])
  | w :: rest =>
      match status t (result ++ [w]) with
      | None => None
      | Some (Some _) => existing t (result ++ [w]) rest
      | Some None => Some (result, todo)
      end
  end.

Definition weakly_canonical (t : tree) (p : path) : option path :=
  match existing t [] p with
  | None => None
  | Some (result, rest) =>
      match lead t result with
      | Found canonical => Some (lexically_normal (canonical ++ rest))
      | _ => None
      end
  end.

(** A relative path between two normal ones. *)
Definition names (p : path) : path := List.filter (fun w => negb (is_empty w)) p.
Fixpoint lexically_relative (p base : path) : path :=
  match p, base with
  | w :: p', b :: base' => if w =s? b then lexically_relative p' base' else
      repeat ".." (length (names base)) ++ p
  | _, _ =>
      match names base, p with
      | [], [] | [], "" :: _ => ["."]
      | l, _ => repeat ".." (length l) ++ p
      end
  end.
Definition relative (t : tree) (p base : path) : option path :=
  match weakly_canonical t p, weakly_canonical t base with
  | Some p, Some base => Some (lexically_relative p base)
  | _, _ => None
  end.

Definition generic_string (p : path) : string := String.concat "/" p.

(** ** Facts *)

Lemma walk_nil links t c : walk links t c [] = Found c.
Proof. by destruct links. Qed.
Lemma walk_cons links t c w rest :
  walk links t c (w :: rest) =
    (if negb (is_dir (t !! c)) then NotDir
     else if is_empty w || (w =s? ".") then walk links t c rest
     else if w =s? ".." then walk links t (removelast c) rest
     else match t !! (c ++ [w]) with
       | None => Missing (match rest with [] => Some (c ++ [w]) | _ => None end)
       | Some (Link target) =>
           match links with
           | 0 => Loop
           | S links => walk links t (if is_absolute target then [] else c) (elements target ++ rest)
           end
       | Some _ => walk links t (c ++ [w]) rest
       end).
Proof. by destruct links. Qed.

(** Induction along a walk. *)
Lemma walk_ind (P : nat -> path -> path -> Prop) :
  (forall links c, P links c []) ->
  (forall links c w rest,
     (forall c', P links c' rest) -> (forall links' c' p', S links' = links -> P links' c' p') -> P links c (w :: rest)) ->
  forall links c p, P links c p.
Proof.
  intros H0 Hs. induction links as [|links IHl]; intros c p; revert c; induction p as [|w rest IHp]; intros c; auto.
  - apply Hs; [auto|]. intros ? ? ? [=].
  - apply Hs; [auto|]. intros ? c' p' [= <-]. apply IHl.
Qed.

(** What a path leads to is where the rest of a longer path starts. *)
Lemma walk_app t links c p y :
  walk links t c p = Found y -> exists links', forall q, walk links t c (p ++ q) = walk links' t y q.
Proof.
  revert links c p. refine (walk_ind _ _ _).
  - intros links c. rewrite walk_nil. intros [= <-]. by exists links.
  - intros links c w rest IH IHl. rewrite walk_cons. setoid_rewrite walk_cons.
    destruct (negb (is_dir (t !! c))); [done|]. destruct (is_empty w || (w =s? ".")); [apply IH|].
    destruct (w =s? ".."); [apply IH|]. destruct (t !! (c ++ [w])) as [[]|]; [apply IH..| |done].
    destruct links as [|links]; [done|]. intros Hf. setoid_rewrite app_assoc. by apply IHl.
Qed.

Lemma walk_prefix t links c p q y : walk links t c (p ++ q) = Found y -> exists z, walk links t c p = Found z.
Proof.
  revert links c p. refine (walk_ind _ _ _).
  - intros links c _. rewrite walk_nil. by eexists.
  - intros links c w rest IH IHl. cbn [app]. rewrite !walk_cons.
    destruct (negb (is_dir (t !! c))); [done|]. destruct (is_empty w || (w =s? ".")); [apply IH|].
    destruct (w =s? ".."); [apply IH|]. destruct (t !! (c ++ [w])) as [[]|]; [apply IH..| |done].
    destruct links as [|links]; [done|]. rewrite app_assoc. by apply IHl.
Qed.

Lemma removelast_forall {A} (P : A -> Prop) l : Forall P l -> Forall P (removelast l).
Proof. induction 1 as [|x [|y l] Hx Hl IH]; cbn; auto. Qed.

(** Only proper names get into a location. *)
Lemma walk_plain t links c p y : Forall plain c -> walk links t c p = Found y -> Forall plain y.
Proof.
  revert links c p. refine (walk_ind _ _ _).
  - intros links c Hc. rewrite walk_nil. by intros [= <-].
  - intros links c w rest IH IHl Hc. rewrite walk_cons.
    destruct (negb (is_dir (t !! c))); [done|]. destruct (is_empty w || (w =s? ".")) eqn:Hw; [by apply IH|].
    destruct (w =s? "..") eqn:Hw'; [by apply IH, removelast_forall|].
    assert (Forall plain (c ++ [w])) as Hcw.
    { apply Forall_app. split; [done|]. apply Forall_singleton. unfold plain. rewrite Hw'. apply orb_false_iff in Hw as [-> ->]. done. }
    destruct (t !! (c ++ [w])) as [[]|]; [by apply IH..| |done].
    destruct links as [|links]; [done|]. apply IHl; [done|]. by destruct (is_absolute target).
Qed.

Lemma lead_plain t p y : lead t p = Found y -> Forall plain y.
Proof. apply walk_plain. constructor. Qed.

Lemma plain_eqs w : plain w -> is_empty w = false /\ (w =s? ".") = false /\ (w =s? "..") = false.
Proof. unfold plain. intros [[F1 F2]%andb_true_iff F3]%Is_true_true%andb_true_iff. by repeat split; apply negb_true_iff. Qed.

Lemma normal_plain names p trailing : Forall plain p -> p <> [] -> normal names trailing p = names ++ p.
Proof.
  intros Hp. revert names trailing. induction Hp as [|w p Hw Hp IH]; intros names trailing Hne; [done|].
  destruct (plain_eqs w Hw) as (E1 & E2 & E3). cbn [normal]. rewrite E1, E2, E3. cbn [orb].
  destruct p as [|w' p]; [done|]. rewrite IH by done. by rewrite <- app_assoc.
Qed.
Lemma lexically_normal_plain p : Forall plain p -> lexically_normal p = p.
Proof. intros Hp. destruct p; [done|]. by apply (normal_plain [] _ false). Qed.

(** The elements that exist. *)
Lemma status_found t p l : lead t p = Found l -> status t p = Some (Some l).
Proof. unfold status. by intros ->. Qed.
Lemma existing_all t result p l : lead t (result ++ p) = Found l -> existing t result p = Some (result ++ p, []).
Proof.
  revert result. induction p as [|w p IH]; intros result Hl; cbn [existing]; [by rewrite app_nil_r|].
  rewrite cons_middle, app_assoc in Hl. destruct (walk_prefix _ _ _ _ _ _ Hl) as [z Hz].
  rewrite (status_found _ _ _ Hz). rewrite (IH _ Hl). by rewrite <- app_assoc.
Qed.
Lemma existing_but_last t result p w l :
  lead t (result ++ p) = Found l -> status t (result ++ p ++ [w]) = Some None -> existing t result (p ++ [w]) = Some (result ++ p, [w]).
Proof.
  revert result. induction p as [|v p IH]; intros result Hl Hs; cbn [existing app].
  - rewrite app_nil_r in *. cbn in Hs. by rewrite Hs.
  - rewrite cons_middle, app_assoc in Hl. destruct (walk_prefix _ _ _ _ _ _ Hl) as [z Hz].
    rewrite (status_found _ _ _ Hz), IH; [by rewrite <- app_assoc|done|by rewrite <- app_assoc].
Qed.

(** What exists is canonical where it is. *)
Lemma weakly_canonical_found t p l : lead t p = Found l -> weakly_canonical t p = Some l.
Proof.
  intros Hl. unfold weakly_canonical. rewrite (existing_all t [] p l Hl). cbn [app]. rewrite Hl, app_nil_r.
  f_equal. by apply lexically_normal_plain, (lead_plain t p).
Qed.
Lemma weakly_canonical_new t p w l :
  lead t p = Found l -> status t (p ++ [w]) = Some None -> plain w -> weakly_canonical t (p ++ [w]) = Some (l ++ [w]).
Proof.
  intros Hl Hs Hw. unfold weakly_canonical. rewrite (existing_but_last t [] p w l Hl Hs). cbn [app]. rewrite Hl.
  f_equal. apply lexically_normal_plain, Forall_app. split; [by apply (lead_plain t p)|by apply Forall_singleton].
Qed.

(** A directory reached without links. *)
Definition real_dir (t : tree) (p : path) : Prop :=
  Forall plain p /\ forall q, q `prefix_of` p -> is_dir (t !! q) = true.

Lemma walk_real t links c p : real_dir t (c ++ p) -> walk links t c p = Found (c ++ p).
Proof.
  revert c. induction p as [|w p IH]; intros c [Hp Hd]; [by rewrite walk_nil, app_nil_r|].
  rewrite walk_cons, (Hd c) by (by exists (w :: p)). cbn [negb].
  assert (plain w) as (E1 & E2 & E3)%plain_eqs by (apply Forall_app in Hp as [_ Hp]; by inversion Hp).
  rewrite E1, E2, E3. cbn [orb]. replace (c ++ w :: p) with ((c ++ [w]) ++ p) in * by (by rewrite <- app_assoc).
  assert (is_dir (t !! (c ++ [w])) = true) as Hw by (apply Hd; by exists p).
  destruct (t !! (c ++ [w])) as [[]|]; try done. by apply IH.
Qed.
Lemma lead_real t p : real_dir t p -> lead t p = Found p.
Proof. apply (walk_real t max_links []). Qed.

(** A relative path without [..] leads downwards. *)
Lemma relative_down p base :
  Forall plain base -> Forall (fun w => w <> "..") (lexically_relative p base) -> base `prefix_of` p.
Proof.
  revert base. induction p as [|w p IH]; intros [|b base] Hb Hr; [done|..]; try apply prefix_nil.
  - exfalso. cbn [lexically_relative] in Hr. apply Forall_cons in Hb as [(E1 & _)%plain_eqs _]. cbn [names List.filter] in Hr. rewrite E1 in Hr. cbn in Hr.
    apply Forall_cons in Hr as [Hr _]. done.
  - cbn [lexically_relative] in Hr. destruct (w =s? b) eqn:Hw.
    + apply String.eqb_eq in Hw as ->. apply Forall_cons in Hb as [_ Hb]. apply prefix_cons. by apply IH.
    + exfalso. apply Forall_cons in Hb as [(E1 & _)%plain_eqs _]. cbn [names List.filter] in Hr. rewrite E1 in Hr. cbn in Hr.
      apply Forall_cons in Hr as [Hr _]. done.
Qed.
End Filesystem.
