(* ===== verification/FtpServer.v ===== *)
(** * The FTP server, [linux_ftp_server/ftp_server.cpp]

    One session: reading command lines, the login, the current directory, passive
    mode and the transfers, over a tree of files.  An exception is the error of
    the monad; the network, the disk and the choice of ports are schedules. *)
From S2P Require Import Prelude Filesystem.
Import Filesystem.

Module FtpServer.

(** ** Strings *)

Definition trim (s : string) : string := drop_while_end isspace (drop_while isspace s).
Definition upper (s : string) : string := str_map toupper s.
Definition crlf : string := String "013"%char nl.

(** [recvLine] on the bytes still to come: the line and the rest.  It fails at the
    end of the connection and on a line that is too long. *)
Fixpoint recvLine (line : string) (input : string) : option (string * string) :=
  match input with
  | EmptyString => None
  | String c rest =>
      if bool_decide (c = "010"%char) then Some (line, rest)
      else
        let line := if bool_decide (c = "013"%char) then line else line +:+ String c "" in
        if (8192 <? strlen line)%Z then None else recvLine line rest
  end.

Definition parseCommand (line : string) : string * string :=
  match find_first (fun c => bool_decide (c = " "%char)) line with
  | None => (upper line, "")
  | Some pos => (upper (str_take pos line), trim (str_drop (S pos) line))
  end.

(** A sign before a number, and whether it is a minus. *)
Definition sign_of (s : string) : bool * string :=
  match s with
  | String c rest => if bool_decide (c = "-"%char) then (true, rest) else if bool_decide (c = "+"%char) then (false, rest) else (false, s)
  | EmptyString => (false, s)
  end.

(** [std::stoull]: the value and how many characters it took. *)
Definition stoull (s : string) : option (Z * nat) :=
  let body := drop_while isspace s in
  let '(negative, digits) := sign_of body in
  let number := take_while isdigit digits in
  let value := dec_value 0 number in
  if is_empty number || (u64_max <? value)%Z then None
  else Some (if negative then wrap 64 (- value) else value,
             String.length s - String.length digits + String.length number).

(** ** What the session meets *)

(** [send], [sendfile] and [write] take some bytes, are interrupted or fail; when
    the schedule is over they take all.  [recv] ends with its schedule. *)
Inductive taking := Took (n : nat) | Intr | Broke.
Inductive getting := Got (bytes : string) | GotIntr | GotBroke.
Inductive connecting := Timeout | AcceptFailed | Connected (sends : list taking) (recvs : list getting).

(** What the session has read, listed or written; [direct] is false when the file
    was created at the end of a symbolic link that led nowhere. *)
Inductive access := Read (location : path) | Listed (location : path) | Wrote (location : path) (direct : bool).

Record Session := mkSession {
  root_ : path;
  cwdRel_ : path;
  loggedIn_ : bool;
  binaryMode_ : bool;
  restOffset_ : Z;
  pasvPort_ : option Z;
  tree_ : tree;
  ports : list (Z * bool);
  localIp : string;
  connects : list connecting;
  opens : list bool;
  disk : list taking;
  control : list string;
  data : list string;
  touched : list access }.

Definition set_cwdRel_ x (s : Session) := mkSession (root_ s) x (loggedIn_ s) (binaryMode_ s) (restOffset_ s) (pasvPort_ s) (tree_ s) (ports s) (localIp s) (connects s) (opens s) (disk s) (control s) (data s) (touched s).
Definition set_loggedIn_ x (s : Session) := mkSession (root_ s) (cwdRel_ s) x (binaryMode_ s) (restOffset_ s) (pasvPort_ s) (tree_ s) (ports s) (localIp s) (connects s) (opens s) (disk s) (control s) (data s) (touched s).
Definition set_binaryMode_ x (s : Session) := mkSession (root_ s) (cwdRel_ s) (loggedIn_ s) x (restOffset_ s) (pasvPort_ s) (tree_ s) (ports s) (localIp s) (connects s) (opens s) (disk s) (control s) (data s) (touched s).
Definition set_restOffset_ x (s : Session) := mkSession (root_ s) (cwdRel_ s) (loggedIn_ s) (binaryMode_ s) x (pasvPort_ s) (tree_ s) (ports s) (localIp s) (connects s) (opens s) (disk s) (control s) (data s) (touched s).
Definition set_pasvPort_ x (s : Session) := mkSession (root_ s) (cwdRel_ s) (loggedIn_ s) (binaryMode_ s) (restOffset_ s) x (tree_ s) (ports s) (localIp s) (connects s) (opens s) (disk s) (control s) (data s) (touched s).
Definition set_tree_ x (s : Session) := mkSession (root_ s) (cwdRel_ s) (loggedIn_ s) (binaryMode_ s) (restOffset_ s) (pasvPort_ s) x (ports s) (localIp s) (connects s) (opens s) (disk s) (control s) (data s) (touched s).
Definition set_ports x (s : Session) := mkSession (root_ s) (cwdRel_ s) (loggedIn_ s) (binaryMode_ s) (restOffset_ s) (pasvPort_ s) (tree_ s) x (localIp s) (connects s) (opens s) (disk s) (control s) (data s) (touched s).
Definition set_connects x (s : Session) := mkSession (root_ s) (cwdRel_ s) (loggedIn_ s) (binaryMode_ s) (restOffset_ s) (pasvPort_ s) (tree_ s) (ports s) (localIp s) x (opens s) (disk s) (control s) (data s) (touched s).
Definition set_opens x (s : Session) := mkSession (root_ s) (cwdRel_ s) (loggedIn_ s) (binaryMode_ s) (restOffset_ s) (pasvPort_ s) (tree_ s) (ports s) (localIp s) (connects s) x (disk s) (control s) (data s) (touched s).
Definition set_disk x (s : Session) := mkSession (root_ s) (cwdRel_ s) (loggedIn_ s) (binaryMode_ s) (restOffset_ s) (pasvPort_ s) (tree_ s) (ports s) (localIp s) (connects s) (opens s) x (control s) (data s) (touched s).
Definition set_control x (s : Session) := mkSession (root_ s) (cwdRel_ s) (loggedIn_ s) (binaryMode_ s) (restOffset_ s) (pasvPort_ s) (tree_ s) (ports s) (localIp s) (connects s) (opens s) (disk s) x (data s) (touched s).
Definition set_data x (s : Session) := mkSession (root_ s) (cwdRel_ s) (loggedIn_ s) (binaryMode_ s) (restOffset_ s) (pasvPort_ s) (tree_ s) (ports s) (localIp s) (connects s) (opens s) (disk s) (control s) x (touched s).
Definition set_touched x (s : Session) := mkSession (root_ s) (cwdRel_ s) (loggedIn_ s) (binaryMode_ s) (restOffset_ s) (pasvPort_ s) (tree_ s) (ports s) (localIp s) (connects s) (opens s) (disk s) (control s) (data s) x.

Definition touch (a : access) : M Session unit := modify (fun s => set_touched (touched s ++ [a]) s).

(** ** Helpers of the session *)

Definition reply_text (code : Z) (msg : string) : string := to_string code +:+ " " +:+ msg +:+ crlf.
Definition reply (code : Z) (msg : string) : M Session unit :=
  modify (fun s => set_control (control s ++ [reply_text code msg]) s).

Definition requireLogin : M Session unit :=
  fun s => if loggedIn_ s then (inr (), s) else (inl "please login first", s).

Definition pathInsideRoot (t : tree) (root target : path) : bool :=
  match relative t target root with
  | None => false
  | Some rel => forallb (fun part => negb (part =s? "..")) rel
  end.

Definition combine (root cwdRel : path) (arg : string) : path :=
  if is_empty arg then slash root cwdRel
  else if is_absolute arg then
    let tail := str_drop 1 arg in
    if is_absolute tail then elements tail else slash root (elements tail)
  else slash (slash root cwdRel) (elements arg).

Definition resolvePath (ftpPath : string) : M Session path := fun s =>
  let combined := combine (root_ s) (cwdRel_ s) (trim ftpPath) in
  let normalized := match weakly_canonical (tree_ s) combined with Some p => p | None => lexically_normal combined end in
  if negb (pathInsideRoot (tree_ s) (root_ s) normalized) then (inl "path escapes FTP root", s) else (inr normalized, s).

Definition currentRealPath (s : Session) : path :=
  match weakly_canonical (tree_ s) (slash (root_ s) (cwdRel_ s)) with Some p => p | None => root_ s end.

Definition toVirtualPath (s : Session) (real : path) : string :=
  match relative (tree_ s) real (root_ s) with
  | None | Some [] | Some ["."] => "/"
  | Some rel => "/" +:+ generic_string rel
  end.

(** What is at a path, [None] for nothing; throws where [fs::exists] does. *)
Definition stat (p : path) : M Session (option node) := fun s => (node_at (tree_ s) p, s).

(** ** Login, directory, type *)

Definition handleUSER (arg : string) : M Session unit := reply 331 "User name ok, need password.".
Definition handlePASS (arg : string) : M Session unit :=
  modify (set_loggedIn_ true) ;; reply 230 "Login successful.".

Definition quote : string := String "034"%char "".
Definition handlePWD : M Session unit :=
  requireLogin ;; s ← get ; reply 257 (quote +:+ toVirtualPath s (currentRealPath s) +:+ quote +:+ " is current directory.").

Definition handleCWD (arg : string) : M Session unit :=
  requireLogin ;; target ← resolvePath arg ; n ← stat target ;
  if negb (is_dir n) then reply 550 "Not a directory."
  else
    s ← get ;
    let rel := match relative (tree_ s) target (root_ s) with None | Some [] => ["."] | Some rel => rel end in
    modify (set_cwdRel_ rel) ;; s ← get ; reply 250 ("Directory changed to " +:+ toVirtualPath s target).

Definition handleTYPE (arg : string) : M Session unit :=
  requireLogin ;;
  let a := upper (trim arg) in
  if a =s? "I" then modify (set_binaryMode_ true) ;; reply 200 "Type set to I."
  else if a =s? "A" then modify (set_binaryMode_ false) ;; reply 200 "Type set to A."
  else reply 504 "Only TYPE I and TYPE A are supported.".

(** ** Passive mode *)

Definition closePassive : M Session unit := modify (set_pasvPort_ None).

(** The attempts: the first port that can be listened on, and the attempts left. *)
Fixpoint try_ports (attempts : nat) (l : list (Z * bool)) : option Z * list (Z * bool) :=
  match attempts, l with
  | S attempts, (port, true) :: rest => (Some port, rest)
  | S attempts, (_, false) :: rest => try_ports attempts rest
  | _, _ => (None, l)
  end.

Definition pasv_text (ip : string) (port : Z) : string :=
  "Entering Passive Mode (" +:+ str_map (fun c => if bool_decide (c = "."%char) then ","%char else c) ip +:+ "," +:+
    to_string (port / 256) +:+ "," +:+ to_string (port mod 256) +:+ ").".

Definition handlePASV : M Session unit :=
  requireLogin ;; closePassive ;; s ← get ;
  let '(found, rest) := try_ports 100 (ports s) in
  modify (set_ports rest) ;;
  match found with
  | None => reply 421 "Cannot open passive port."
  | Some port => modify (set_pasvPort_ (Some port)) ;; reply 227 (pasv_text (localIp s) port)
  end.

Definition acceptDataConnection : M Session (list taking * list getting) := fun s =>
  match pasvPort_ s with
  | None => (inl "send PASV before data command", s)
  | Some _ =>
      let closed := set_connects (tail (connects s)) (set_pasvPort_ None s) in
      match connects s with
      | [] | Timeout :: _ => (inl "data connection timeout", closed)
      | AcceptFailed :: _ => (inl "accept data connection failed", closed)
      | Connected sends recvs :: _ => (inr (sends, recvs), closed)
      end
  end.

(** ** Sending *)

(** [sendAll]: whether all was sent, and what. *)
Fixpoint sendAll (sends : list taking) (bytes sent : string) : bool * string :=
  if is_empty bytes then (true, sent)
  else
    match sends with
    | [] => (true, sent +:+ bytes)
    | Took 0 :: _ | Broke :: _ => (false, sent)
    | Took n :: rest => sendAll rest (str_drop n bytes) (sent +:+ str_take n bytes)
    | Intr :: rest => sendAll rest bytes sent
    end.

Definition permString (p : Z) (isDir : bool) : string :=
  let bit n c := if Z.testbit p n then c else "-"%char in
  String (if isDir then "d" else "-")%char (String (bit 8%Z "r"%char) (String (bit 7%Z "w"%char) (String (bit 6%Z "x"%char)
    (String (bit 5%Z "r"%char) (String (bit 4%Z "w"%char) (String (bit 3%Z "x"%char)
    (String (bit 2%Z "r"%char) (String (bit 1%Z "w"%char) (String (bit 0%Z "x"%char) ""))))))))).

Fixpoint spaces (n : nat) : string := match n with 0 => "" | S n => String " "%char (spaces n) end.
Definition setw (n : nat) (text : string) : string := spaces (n - String.length text) +:+ text.

(** A file that cannot be looked at has the size -1. *)
Definition formatListLine (t : tree) (p : path) : string :=
  let followed := match node_at t p with inr n => n | inl _ => None end in
  let perms := match t !! p with Some (Dir perms) | Some (File perms _) => perms | _ => 511%Z end in
  let size := match followed with
    | Some (Dir _) => 0%Z | Some (File _ content) => strlen content | _ => u64_max end in
  permString perms (is_dir followed) +:+ " 1 ftp ftp " +:+ setw 12 (to_string size) +:+ " " +:+ default "" (last p) +:+ crlf.

(** The entries of a directory, in no particular order. *)
Definition entries (t : tree) (directory : path) : list path :=
  filter (fun p => bool_decide (p <> [] /\ removelast p = directory)) (map fst (map_to_list t)).

Definition handleLIST (arg : string) : M Session unit :=
  requireLogin ;; target ← resolvePath arg ; n ← stat target ;
  match n with
  | None => reply 550 "Path not found."
  | Some _ =>
      reply 150 "Opening ASCII mode data connection for file list." ;;
      c ← acceptDataConnection ; s ← get ;
      let t := tree_ s in
      let location := match lead t target with Found l => l | _ => target end in
      let listing := String.concat "" (map (formatListLine t) (if is_dir n then entries t location else [location])) in
      touch (Listed location) ;;
      modify (fun s => set_data (data s ++ [(sendAll c.1 listing "").2]) s) ;;
      reply 226 "Transfer complete."
  end.

(** The loop of [handleRETR] on what remains of the file: at most 16 MiB are asked
    for at once.  No more bytes end it quietly. *)
Definition kSendfileChunk : Z := 16 * 1024 * 1024.
Fixpoint sendfile_loop (sends : list taking) (remain sent : string) : bool * string :=
  if is_empty remain then (true, sent)
  else
    match sends with
    | [] => (true, sent +:+ remain)
    | Broke :: _ => (false, sent)
    | Intr :: rest => sendfile_loop rest remain sent
    | Took 0 :: _ => (true, sent)
    | Took n :: rest => let n := Z.to_nat (Z.of_nat n `min` kSendfileChunk) in sendfile_loop rest (str_drop n remain) (sent +:+ str_take n remain)
    end.

Definition next_open : M Session bool := fun s =>
  match opens s with [] => (inr true, s) | b :: rest => (inr b, set_opens rest s) end.

Definition handleRETR (arg : string) : M Session unit :=
  requireLogin ;;
  if is_empty arg then reply 501 "Missing file name."
  else
    file ← resolvePath arg ; n ← stat file ;
    match n with
    | Some (File _ content) =>
        s ← get ;
        if (strlen content <? restOffset_ s)%Z
        then modify (set_restOffset_ 0) ;; reply 554 "REST offset is larger than file size."
        else
          opened ← next_open ;
          if negb opened then reply 550 "Cannot open file."
          else
            reply 150 "Opening BINARY mode data connection for download." ;;
            c ← acceptDataConnection ;
            let location := match lead (tree_ s) file with Found l => l | _ => file end in
            let '(ok, sent) := sendfile_loop c.1 (str_drop (Z.to_nat (restOffset_ s)) content) "" in
            touch (Read location) ;;
            modify (fun s => set_data (data s ++ [sent]) s) ;;
            modify (set_restOffset_ 0) ;;
            if ok then reply 226 "Transfer complete." else reply 426 "Connection closed; transfer aborted."
    | _ => reply 550 "File not found."
    end.

(** ** Receiving *)

Fixpoint zeros (n : nat) : string := match n with 0 => "" | S n => String "000"%char (zeros n) end.
(** [bytes] written at [pos]: a gap is filled with zeros. *)
Definition overlay (pos : nat) (bytes content : string) : string :=
  str_take pos content +:+ zeros (pos - String.length content) +:+ bytes +:+ str_drop (pos + String.length bytes) content.

(** [write] of a piece at [pos]: whether all went well, the position, the content
    and the outcomes left. *)
Fixpoint write_loop (disk : list taking) (pos : nat) (bytes content : string) : bool * nat * string * list taking :=
  if is_empty bytes then (true, pos, content, disk)
  else
    match disk with
    | [] => (true, pos + String.length bytes, overlay pos bytes content, [])
    | Broke :: rest => (false, pos, content, rest)
    | Intr :: rest | Took 0 :: rest => write_loop rest pos bytes content
    | Took n :: rest =>
        let piece := str_take n bytes in
        write_loop rest (pos + String.length piece) (str_drop n bytes) (overlay pos piece content)
    end.

Fixpoint recv_loop (recvs : list getting) (disk : list taking) (pos : nat) (content : string) : bool * string * list taking :=
  match recvs with
  | [] => (true, content, disk)
  | GotIntr :: rest => recv_loop rest disk pos content
  | GotBroke :: _ => (false, content, disk)
  | Got bytes :: rest =>
      if is_empty bytes then (true, content, disk)
      else
        let '(ok, pos, content, disk) := write_loop disk pos bytes content in
        if ok then recv_loop rest disk pos content else (false, content, disk)
  end.

(** [open] for writing: the place, its permissions and content, and whether the
    name given is the name of the file. *)
Definition open_write (t : tree) (file : path) (truncate : bool) : option (path * Z * string * bool) :=
  match lead t file with
  | Found l =>
      match t !! l with
      | Some (File perms content) => Some (l, perms, if truncate then "" else content, true)
      | _ => None
      end
  | Missing (Some l) =>
      Some (l, 420%Z, "", match lead t (parent_path file) with Found d => bool_decide (l = d ++ [default "" (last file)]) | _ => false end)
  | _ => None
  end.

Definition store (location : path) (perms : Z) (content : string) : M Session unit :=
  modify (fun s => set_tree_ (<[location := File perms content]> (tree_ s)) s).

(** [handleSTOR] once the file is open. *)
Definition stor_rest (s : Session) (location : path) (perms : Z) (content : string) (direct : bool) : M Session unit :=
  touch (Wrote location direct) ;; store location perms content ;;
  if (2 ^ 63 <=? restOffset_ s)%Z
  then modify (set_restOffset_ 0) ;; reply 550 "Cannot seek file."
  else
    reply 150 "Opening BINARY mode data connection for upload." ;;
    c ← acceptDataConnection ; s ← get ;
    let '(ok, content, disk) := recv_loop c.2 (disk s) (Z.to_nat (restOffset_ s)) content in
    store location perms content ;; modify (set_disk disk) ;; modify (set_restOffset_ 0) ;;
    if ok then reply 226 "Transfer complete." else reply 426 "Connection closed; transfer aborted.".

Definition handleSTOR (arg : string) : M Session unit :=
  requireLogin ;;
  if is_empty arg then reply 501 "Missing file name."
  else
    file ← resolvePath arg ; n ← stat (parent_path file) ;
    if negb (is_dir n) then reply 550 "Parent directory does not exist."
    else
      s ← get ; opened ← next_open ;
      match (if (opened : bool) then open_write (tree_ s) file (bool_decide (restOffset_ s = 0%Z)) else None) with
      | None => reply 550 "Cannot create file."
      | Some (location, perms, content, direct) =>
          stor_rest s location perms content direct
      end.

Definition handleREST (arg : string) : M Session unit :=
  requireLogin ;;
  match stoull (trim arg) with
  | Some (off, idx) =>
      if bool_decide (idx = String.length (trim arg))
      then modify (set_restOffset_ off) ;; reply 350 "Restart position accepted."
      else reply 501 "Bad REST offset."
  | None => reply 501 "Bad REST offset."
  end.

(** ** The session *)

Definition dispatch (cmd arg : string) : M Session unit :=
  if cmd =s? "USER" then handleUSER arg
  else if cmd =s? "PASS" then handlePASS arg
  else if (cmd =s? "PWD") || (cmd =s? "XPWD") then handlePWD
  else if cmd =s? "CWD" then handleCWD arg
  else if cmd =s? "TYPE" then handleTYPE arg
  else if cmd =s? "PASV" then handlePASV
  else if cmd =s? "LIST" then handleLIST arg
  else if cmd =s? "RETR" then handleRETR arg
  else if cmd =s? "STOR" then handleSTOR arg
  else if cmd =s? "REST" then handleREST arg
  else reply 502 "Command not implemented.".

(** One line: whether the session goes on. *)
Definition serve_line (line : string) (s : Session) : bool * Session :=
  let line := trim line in
  if is_empty line then (true, s)
  else
    let '(cmd, arg) := parseCommand line in
    if cmd =s? "QUIT" then (false, (reply 221 "Goodbye." s).2)
    else
      match dispatch cmd arg s with
      | (inl e, s) => (true, (reply 550 ("Operation failed: " +:+ e) s).2)
      | (inr _, s) => (true, s)
      end.

Fixpoint command_loop (fuel : nat) (input : string) (s : Session) : Session :=
  match fuel with
  | 0 => s
  | S fuel =>
      match recvLine "" input with
      | None => s
      | Some (line, input) =>
          match serve_line line s with
          | (true, s) => command_loop fuel input s
          | (false, s) => s
          end
      end
  end.

(** Every line takes a byte at least. *)
Definition run (input : string) (s : Session) : Session :=
  let s := (reply 220 "Simple Linux FTP Server ready." s).2 in
  (closePassive (command_loop (S (String.length input)) input s)).2.

Definition new_session (root : path) (t : tree) (ports : list (Z * bool)) (localIp : string)
    (connects : list connecting) (opens : list bool) (disk : list taking) : Session :=
  mkSession root ["."] false true 0 None t ports localIp connects opens disk [] [] [].
End FtpServer.
