(* ===== verification/FtpMain.v ===== *)
(** * The process of the FTP server

    [linux_ftp_server/ftp_server.cpp] around its sessions: the descriptors and
    their owner [UniqueFd], the listening sockets of the server and of passive
    mode, and [main] with its accepting loop.  A session is started with a
    descriptor; what it does is [FtpServer.run]. *)
From S2P Require Import Prelude Password FtpServer.

Module FtpMain.

(** ** Descriptors *)

(** The descriptors that are open, the port each listening one listens on, and
    the answers of the kernel; closing what is not open is misuse. *)
Record Os := mkOs { open_ : gset nat; ports : gmap nat Z; next : nat; answers : list (option string); misuse : bool }.

(** The next call: [None] when it succeeds, or the text of [errno]. *)
Definition answer : M Os (option string) := fun o =>
  match answers o with
  | [] => (inr None, o)
  | a :: rest => (inr a, mkOs (open_ o) (ports o) (next o) rest (misuse o))
  end.
Definition close (fd : nat) : M Os unit :=
  modify (fun o => if bool_decide (fd ∈ open_ o) then mkOs (open_ o ∖ {[fd]}) (delete fd (ports o)) (next o) (answers o) (misuse o)
                   else mkOs (open_ o) (ports o) (next o) (answers o) true).
Definition new_fd : M Os nat := fun o => (inr (next o), mkOs ({[next o]} ∪ open_ o) (ports o) (S (next o)) (answers o) (misuse o)).
(** [socket], with -1 as [None] and the text of [errno]. *)
Definition socket : M Os (string + nat) :=
  failed ← answer;
  match failed with Some errno => mret (inl errno) | None => fd ← new_fd; mret (inr fd) end.
Definition note_port (fd : nat) (port : Z) : M Os unit :=
  modify (fun o => mkOs (open_ o) (<[fd := port]> (ports o)) (next o) (answers o) (misuse o)).

(** [UniqueFd]: an owner holds a descriptor or none. *)
Definition reset (owner newFd : option nat) : M Os (option nat) :=
  match owner with Some fd => close fd | None => mret tt end ;; mret newFd.
Definition release (owner : option nat) : option nat * option nat := (owner, None).
(** [target = std::move(source)] between two owners. *)
Definition move_assign (target source : option nat) : M Os (option nat * option nat) :=
  owner ← reset target source; mret (owner, None).
(** An owner that leaves its scope when the code returns early. *)
Definition owning {A} (fd : nat) (c : M Os A) : M Os A := fun o =>
  match c o with (inl e, o1) => (inl e, (reset (Some fd) None o1).2) | r => r end.

(** [bind] and [listen] on a socket made for it; [SO_REUSEADDR] is not checked. *)
Definition checked (prefix : string) : M Os unit :=
  failed ← answer; match failed with Some errno => fail (prefix +:+ errno) | None => mret tt end.
Definition bind_and_listen (fd : nat) (port : Z) : M Os unit :=
  answer ;;
  checked "bind failed: " ;;
  checked "listen failed: " ;;
  note_port fd (wrap 16 port).

(** [createControlListenSocket] throws; [createListenSocketOnPort] returns -1. *)
Definition createControlListenSocket (port : Z) : M Os nat :=
  made ← socket;
  match made with
  | inl errno => fail ("socket failed: " +:+ errno)
  | inr fd => owning fd (bind_and_listen fd port ;; mret fd)
  end.
Definition createListenSocketOnPort (port : Z) : M Os (option nat) := fun o =>
  match (made ← socket;
         match made with inl errno => fail errno | inr fd => owning fd (bind_and_listen fd port ;; mret fd) end) o with
  | (inl _, o1) => (inr None, o1)
  | (inr fd, o1) => (inr (release (Some fd)).1, o1)
  end.

(** The attempts of [handlePASV], on the ports that its generator draws, and the
    owner [pasvListenFd_] before and after. *)
Fixpoint pasv_attempts (drawn : list Z) : M Os (option (nat * Z)) :=
  match drawn with
  | [] => mret None
  | port :: rest =>
      fd ← createListenSocketOnPort port;
      match fd with Some fd => mret (Some (fd, port)) | None => pasv_attempts rest end
  end.
Definition open_passive (pasvListenFd : option nat) (drawn : list Z) : M Os (option nat * option (nat * Z)) :=
  owner ← reset pasvListenFd None;
  found ← pasv_attempts (take 100 drawn);
  match found with
  | None => mret (owner, None)
  | Some (fd, port) => owner ← reset owner (Some fd); mret (owner, Some (fd, port))
  end.

(** ** [main] *)

Inductive Ending := Waiting | Returned (code : Z) | Terminated (what : string).
(** What [accept] gives: a client at an address, or an error. *)
Inductive Arrival := Client (ip : string) (port : Z) | Interrupted | Refused (errno : string).

(** [sessions] are the threads started, with their descriptor, root and peer. *)
Record Process := mkProcess { os : Os; log : list string; sessions : list (nat * string * string) }.
Definition on_os {A} (c : M Os A) : M Process A := fun p => let r := c (os p) in (r.1, mkProcess r.2 (log p) (sessions p)).
Definition print (line : string) : M Process unit := modify (fun p => mkProcess (os p) (log p ++ [line]) (sessions p)).
Definition spawn (fd : nat) (root peer : string) : M Process unit := modify (fun p => mkProcess (os p) (log p) (sessions p ++ [(fd, root, peer)])).

Definition peerToString (ip : string) (port : Z) : string := ip +:+ ":" +:+ to_string port.
Definition color (level code msg : string) : string := String "027"%char ("[" +:+ code +:+ "m" +:+ level +:+ String "027"%char ("[0m   " +:+ msg +:+ nl)).
Definition log_info (msg : string) : M Process unit := print (color "INFO" "1;32" msg).
Definition log_error (msg : string) : M Process unit := print (color "ERR " "1;31" msg).

Definition banner (root : string) (port : Z) : string :=
  nl +:+ "============================================================" +:+ nl +:+
  "  Simple Linux FTP Server" +:+ nl +:+
  "------------------------------------------------------------" +:+ nl +:+
  "  Control Port : " +:+ to_string_signed port +:+ nl +:+
  "  FTP Root     : " +:+ root +:+ nl +:+
  "  PASV Ports   : 50000-51000" +:+ nl +:+
  "============================================================" +:+ nl +:+ nl.

(** One round of the accepting loop; the exception is that of [std::thread]. *)
Definition accept_round (root : string) (a : Arrival) : M Process unit :=
  match a with
  | Interrupted => mret tt
  | Refused errno => log_error ("accept failed: " +:+ errno)
  | Client ip port =>
      fd ← on_os new_fd;
      failed ← on_os answer;
      match failed with Some what => fail what | None => spawn fd root (peerToString ip port) end
  end.
Fixpoint accept_loop (root : string) (arrivals : list Arrival) : M Process unit :=
  match arrivals with
  | [] => mret tt
  | a :: rest => accept_round root a ;; accept_loop root rest
  end.

(** An owner of the process that leaves its scope with an exception. *)
Definition owning_main {A} (fd : nat) (c : M Process A) : M Process A := fun p =>
  match c p with (inl e, p1) => (inl e, (on_os (reset (Some fd) None) p1).2) | r => r end.

(** The block of [try]; [canonical] is what [fs::canonical] gives or throws. *)
Definition serve (canonical : string + string) (port : Z) (arrivals : list Arrival) : M Process unit :=
  match canonical with
  | inl what => fail what
  | inr root =>
      listenFd ← on_os (createControlListenSocket port);
      owning_main listenFd (
        print (banner root port) ;;
        log_info "server started, waiting for clients..." ;;
        accept_loop root arrivals)
  end.

Definition DEFAULT_CONTROL_PORT : Z := 2100.
(** [argv] without the name of the program; the exception of [std::stoi] is thrown
    outside the [try]. *)
Definition main (argv : list string) (canonical : string -> string + string) (arrivals : list Arrival) (p : Process) : Ending * Process :=
  let root := default "./ftp_root" (argv !! 0) in
  match (match argv !! 1 with None => Some DEFAULT_CONTROL_PORT | Some text => Password.stoi text end) with
  | None => (Terminated "stoi", p)
  | Some port =>
      match serve (canonical root) port arrivals p with
      | (inr _, p1) => (Waiting, p1)
      | (inl what, p1) => (Returned 1, (log_error what p1).2)
      end
  end.
Definition start (kernel : list (option string)) : Process := mkProcess (mkOs ∅ ∅ 3 kernel false) [] [].

(** ** What is open *)

(** Exactly these descriptors are open, all below the next one. *)
Definition opens (fds : gset nat) (o : Os) : Prop := open_ o = fds /\ misuse o = false /\ forall fd, fd ∈ fds -> fd < next o.

Lemma answer_spec fds E : meets (opens fds) answer (fun _ => opens fds) E.
Proof. intros o Ho. unfold answer. destruct (answers o); exact Ho. Qed.
Lemma new_fd_spec fds E : meets (opens fds) new_fd (fun fd o => opens ({[fd]} ∪ fds) o /\ fd ∉ fds) E.
Proof.
  intros o (Ho & Hm & Hn). unfold new_fd, opens. cbn. split_and!; [by rewrite Ho|done|set_solver by lia|].
  intros Hin. specialize (Hn _ Hin). lia.
Qed.
Lemma close_fd_spec fds fd E : fd ∈ fds -> meets (opens fds) (close fd) (fun _ => opens (fds ∖ {[fd]})) E.
Proof.
  intros Hfd. apply meets_modify. intros o (Ho & Hm & Hn). rewrite Ho, bool_decide_eq_true_2 by done. unfold opens. cbn.
  split_and!; [done|done|]. intros x Hx. apply Hn. set_solver.
Qed.
Lemma close_new fds fd E : fd ∉ fds -> meets (opens ({[fd]} ∪ fds)) (close fd) (fun _ => opens fds) E.
Proof. intros Hn. replace (opens fds) with (opens (({[fd]} ∪ fds) ∖ {[fd]})) by (f_equal; set_solver). apply close_fd_spec. set_solver. Qed.

Lemma owning_spec {A} fds fd (c : M Os A) Q :
  fd ∉ fds -> meets (opens ({[fd]} ∪ fds)) c Q (opens ({[fd]} ∪ fds)) -> meets (opens ({[fd]} ∪ fds)) (owning fd c) Q (opens fds).
Proof.
  intros Hn Hc o Ho. specialize (Hc o Ho). unfold owning. destruct (c o) as [[e|a] o1]; [|done].
  exact (close_new fds fd (fun _ => False) Hn o1 Hc).
Qed.

Lemma checked_spec fds prefix : meets (opens fds) (checked prefix) (fun _ => opens fds) (opens fds).
Proof. eapply meets_bind; [apply answer_spec|]. intros [e|]; [by apply meets_fail|by apply meets_ret]. Qed.

Lemma listening_spec fds fd port :
  meets (opens fds) (bind_and_listen fd port) (fun _ o => opens fds o /\ ports o !! fd = Some (wrap 16 port)) (opens fds).
Proof.
  eapply meets_bind; [apply answer_spec|intros ?]. do 2 (eapply meets_bind; [apply checked_spec|intros ?]).
  apply meets_modify. intros o Ho. split; [exact Ho|]. apply lookup_insert_eq.
Qed.

(** A listening socket is made, or nothing is left open. *)
Lemma control_socket_spec fds port :
  meets (opens fds) (createControlListenSocket port)
    (fun fd o => (opens ({[fd]} ∪ fds) o /\ ports o !! fd = Some (wrap 16 port)) /\ fd ∉ fds) (opens fds).
Proof.
  eapply (meets_bind _ _ _ (fun r o => match r with inr fd => opens ({[fd]} ∪ fds) o /\ fd ∉ fds | inl _ => opens fds o end)).
  { eapply meets_bind; [apply answer_spec|]. intros [e|]; [by apply meets_ret|]. eapply meets_bind; [apply new_fd_spec|]. intros fd. by apply meets_ret. }
  intros [errno|fd]; [by apply meets_fail|]. apply meets_pull. intros Hn. apply owning_spec; [done|].
  eapply meets_bind; [apply listening_spec|intros ?]. by apply meets_ret.
Qed.

Lemma passive_socket_spec fds port E :
  meets (opens fds) (createListenSocketOnPort port)
    (fun r o => match r with
                | Some fd => (opens ({[fd]} ∪ fds) o /\ ports o !! fd = Some (wrap 16 port)) /\ fd ∉ fds
                | None => opens fds o
                end) E.
Proof.
  intros o Ho. unfold createListenSocketOnPort.
  assert (meets (opens fds) (made ← socket; match made with inl errno => fail errno | inr fd => owning fd (bind_and_listen fd port ;; mret fd) end)
    (fun fd o => (opens ({[fd]} ∪ fds) o /\ ports o !! fd = Some (wrap 16 port)) /\ fd ∉ fds) (opens fds)) as Hs.
  { intros o1 Ho1. pose proof (control_socket_spec fds port o1 Ho1) as Hc. unfold createControlListenSocket in Hc.
    unfold mbind, M_bind in *. destruct (socket o1) as [[e|[errno|fd]] o2]; exact Hc. }
  specialize (Hs o Ho). destruct ((made ← socket; _) o) as [[e|fd] o1]; exact Hs.
Qed.

Lemma attempts_spec fds drawn E :
  meets (opens fds) (pasv_attempts drawn)
    (fun r o => match r with
                | Some (fd, port) => (opens ({[fd]} ∪ fds) o /\ ports o !! fd = Some (wrap 16 port)) /\ fd ∉ fds /\ port ∈ drawn
                | None => opens fds o
                end) E.
Proof.
  induction drawn as [|port rest IH]; cbn [pasv_attempts]; [by apply meets_ret|].
  eapply meets_bind; [apply passive_socket_spec|]. intros [fd|].
  - apply meets_ret. intros o [Ho Hn]. split_and!; [apply Ho|apply Ho|done|by left].
  - eapply meets_weaken; [apply IH|done| |done]. intros [[fd p]|] o; [|done]. intros (Ho & Hn & Hp). split_and!; try done; try apply Ho. by right.
Qed.

(** Passive mode holds one listening descriptor at most: the old one is closed, and
    none is left of the attempts that failed. *)
Theorem passive_one_socket old fds drawn (o : Os) :
  (match old with Some fd => fd ∉ fds | None => True end) ->
  opens (match old with Some fd => {[fd]} ∪ fds | None => fds end) o ->
  match open_passive old drawn o with
  | (inr (Some fd, Some (fd', port)), o1) => fd = fd' /\ port ∈ drawn /\ ports o1 !! fd = Some (wrap 16 port) /\ fd ∉ fds /\ opens ({[fd]} ∪ fds) o1
  | (inr (None, None), o1) => opens fds o1
  | _ => False
  end.
Proof.
  intros Hold Ho. assert (meets (opens (match old with Some fd => {[fd]} ∪ fds | None => fds end)) (open_passive old drawn)
    (fun r o1 => match r with
                 | (Some fd, Some (fd', port)) => fd = fd' /\ port ∈ drawn /\ ports o1 !! fd = Some (wrap 16 port) /\ fd ∉ fds /\ opens ({[fd]} ∪ fds) o1
                 | (None, None) => opens fds o1
                 | _ => False
                 end) (fun _ => False)) as Hm.
  { unfold open_passive. eapply (meets_bind _ _ _ (fun r o => r = None /\ opens fds o)).
    - unfold reset. destruct old as [fd|]; [eapply meets_bind; [by apply close_new|intros ?]|]; by apply meets_ret.
    - intros owner. intros o1 [-> Ho1]. revert o1 Ho1. eapply meets_bind; [apply attempts_spec|]. intros [[fd port]|]; [|by apply meets_ret].
      apply meets_ret. intros o1 ([Ho1 Hp] & Hn & Hin). split_and!; try done; try apply Ho1. rewrite <- (take_drop 100 drawn). apply elem_of_app. by left. }
  specialize (Hm o Ho). destruct (open_passive old drawn o) as [[e|[[fd|] [[fd' port]|]]] o1]; exact Hm.
Qed.

(** ** The accepting loop *)

(** The peers of the clients that arrive, in order. *)
Definition peers (l : list Arrival) : list string :=
  omap (fun a => match a with Client ip port => Some (peerToString ip port) | _ => None end) l.

(** The server listens at [fd], and each session has a descriptor of its own. *)
Record running (fd : nat) (root : string) (arrived : list Arrival) (p : Process) : Prop := {
  rn_open : opens ({[fd]} ∪ list_to_set (sessions p).*1.*1) (os p);
  rn_own : NoDup (fd :: (sessions p).*1.*1);
  rn_peers : (sessions p).*2 = peers arrived;
  rn_roots : Forall (fun x => x.1.2 = root) (sessions p) }.

(** How the loop stops: a thread cannot be made.  The descriptor of its client is
    the one that no session owns. *)
Definition stopped (fd : nat) (root : string) (p : Process) : Prop :=
  exists client, opens ({[fd]} ∪ ({[client]} ∪ list_to_set (sessions p).*1.*1)) (os p) /\ client <> fd /\
    fd ∉ (sessions p).*1.*1.

Lemma on_os_spec {A} (I : Process -> Prop) (c : M Os A) (P : Os -> Prop) Q :
  (forall p, I p -> P (os p)) -> meets P c Q (fun _ => False) ->
  meets I (on_os c) (fun a p => Q a (os p) /\ exists p0, I p0 /\ log p = log p0 /\ sessions p = sessions p0) (fun _ => False).
Proof.
  intros HI Hc p Hp. specialize (Hc _ (HI p Hp)). unfold on_os. destruct (c (os p)) as [[e|a] o]; [done|]. split; [exact Hc|]. by exists p.
Qed.

Lemma round_spec fd root a l :
  meets (running fd root l) (accept_round root a) (fun _ => running fd root (l ++ [a])) (stopped fd root).
Proof.
  assert (forall a p, peers [a] = [] -> running fd root l p -> running fd root (l ++ [a]) p) as Hskip.
  { intros b p Hb [Ho Hn Hp Hr]. split; try done. unfold peers in *. by rewrite omap_app, Hb, app_nil_r. }
  intros p Hp. destruct a as [ip port| |errno]; cbn [accept_round]; [|by apply Hskip|].
  - destruct Hp as [Ho Hn Hpe Hr]. pose proof Ho as (Hop & Hm & Hlt). unfold mbind, M_bind, on_os at 1. cbn [new_fd fst snd].
    assert (next (os p) ∉ ({[fd]} ∪ list_to_set (sessions p).*1.*1 : gset nat)) as Hnew by (intros Hin; specialize (Hlt _ Hin); lia).
    set (o1 := mkOs _ _ _ _ _). assert (opens ({[next (os p)]} ∪ ({[fd]} ∪ list_to_set (sessions p).*1.*1)) o1) as Ho1
      by (unfold opens, o1; cbn; split_and!; [by rewrite Hop|done|intros x [->%elem_of_singleton|Hx%Hlt]%elem_of_union; lia]).
    unfold on_os. cbn [os]. pose proof (answer_spec _ (fun _ => False) o1 Ho1) as Ha. destruct (answer o1) as [[e|[what|]] o2]; [done| |]; cbn.
    + exists (next (os p)). split_and!; [|set_solver|by apply NoDup_cons in Hn as [? _]]. cbn.
      by replace ({[fd]} ∪ ({[next (os p)]} ∪ _)) with ({[next (os p)]} ∪ ({[fd]} ∪ list_to_set (sessions p).*1.*1) : gset nat) by set_solver.
    + split; cbn.
      * rewrite !fmap_app, list_to_set_app_L. cbn. by replace ({[fd]} ∪ (_ ∪ ({[next (os p)]} ∪ ∅))) with ({[next (os p)]} ∪ ({[fd]} ∪ list_to_set (sessions p).*1.*1) : gset nat) by set_solver.
      * rewrite !fmap_app. cbn. apply NoDup_cons in Hn as [Hn1 Hn2]. rewrite app_comm_cons. apply NoDup_app. split_and!; [by constructor| |apply NoDup_singleton].
        intros x Hx ->%list_elem_of_singleton. apply Hnew. apply elem_of_cons in Hx as [->|Hx]; set_solver.
      * rewrite fmap_app, Hpe. unfold peers. by rewrite omap_app.
      * apply Forall_app. split; [done|]. by constructor.
  - apply Hskip; [done|]. by destruct Hp.
Qed.

Lemma loop_spec fd root arrivals l :
  meets (running fd root l) (accept_loop root arrivals) (fun _ => running fd root (l ++ arrivals)) (stopped fd root).
Proof.
  revert l. induction arrivals as [|a rest IH]; intros l; cbn [accept_loop]; [rewrite app_nil_r; by apply meets_ret|].
  eapply meets_bind; [apply round_spec|intros ?]. replace (l ++ a :: rest) with ((l ++ [a]) ++ rest) by (by rewrite <- app_assoc). apply IH.
Qed.

(** The process of the server, whatever the kernel answers: it waits for clients
    with one session for each that came, in order, each with a descriptor of its
    own and the root directory, and with its listening socket besides; or it has
    returned 1, and the listening socket is closed; or the port is no number and
    [std::stoi] ends it. *)
Theorem ftp_main_serves argv canonical arrivals kernel :
  let (ending, p) := main argv canonical arrivals (start kernel) in
  match ending with
  | Waiting => exists fd root, canonical (default "./ftp_root" (argv !! 0)) = inr root /\ running fd root arrivals p
  | Returned code => code = 1%Z /\ misuse (os p) = false /\
      (open_ (os p) = ∅ /\ sessions p = [] \/ exists client, open_ (os p) = {[client]} ∪ list_to_set (sessions p).*1.*1)
  | Terminated _ => exists text, argv !! 1 = Some text /\ Password.stoi text = None
  end.
Proof.
  unfold main. destruct (match argv !! 1 with None => _ | Some text => _ end) as [port|] eqn:Ep;
    [|destruct (argv !! 1) as [text|]; [by exists text|done]].
  assert (meets (fun p => opens ∅ (os p) /\ sessions p = []) (serve (canonical (default "./ftp_root" (argv !! 0))) port arrivals)
    (fun _ p => exists fd root, canonical (default "./ftp_root" (argv !! 0)) = inr root /\ running fd root arrivals p)
    (fun p => misuse (os p) = false /\ (open_ (os p) = ∅ /\ sessions p = [] \/ exists client, open_ (os p) = {[client]} ∪ list_to_set (sessions p).*1.*1))) as Hs.
  { unfold serve. destruct (canonical _) as [what|root]; [apply meets_fail; intros p [(Ho & Hm & _) Hl]; by auto|].
    intros p [Ho Hl]. pose proof (control_socket_spec ∅ port (os p) Ho) as Hc. unfold mbind at 1, M_bind at 1. unfold on_os at 1.
    destruct (createControlListenSocket port (os p)) as [[e|fd] o]; cbn [fst snd]; [destruct Hc as (Hc & Hm & _); cbn; auto|].
    destruct Hc as [[Hc _] _]. set (p1 := mkProcess _ _ _).
    assert (meets (running fd root []) (print (banner root port) ;; log_info "server started, waiting for clients..." ;; accept_loop root arrivals)
      (fun _ => running fd root arrivals) (stopped fd root)) as Hl1.
    { do 2 (eapply meets_bind; [apply (meets_modify _ _ (fun _ => running fd root [])); intros q []; by split|intros ?]). apply (loop_spec fd root arrivals []). }
    assert (running fd root [] p1) as Hp1 by (split; cbn; rewrite Hl; [exact Hc|apply NoDup_singleton|done|done]).
    specialize (Hl1 p1 Hp1). unfold owning_main. destruct ((print _ ;; _) p1) as [[e|a] p2]; [|by exists fd, root].
    destruct Hl1 as (client & Ho2 & Hne & Hnin). unfold on_os. cbn.
    pose proof (close_new ({[client]} ∪ list_to_set (sessions p2).*1.*1) fd (fun _ => False) ltac:(set_solver) (os p2) Ho2) as Hcl.
    destruct (close fd (os p2)) as [[e'|u] o2] eqn:Ec; [done|]. unfold reset, mbind, M_bind. rewrite Ec. cbn. destruct Hcl as (Hcl & Hm & _).
    split; [done|]. right. by exists client. }
  specialize (Hs (start kernel)). destruct (serve _ port arrivals (start kernel)) as [[e|a] p].
  - split; [done|]. apply Hs. split; [|done]. by split_and!.
  - apply Hs. split; [|done]. by split_and!.
Qed.

(** ** Examples *)

Definition plain_root (root : string) : string + string := inr root.

(** An interrupted call and one that fails between two clients. *)
Example two_clients :
  let (ending, p) := main ["/srv/ftp"; "2121"] plain_root [Client "10.0.0.1" 4000; Interrupted; Refused "Too many open files"; Client "10.0.0.2" 4001] (start []) in
  ending = Waiting /\ sessions p = [(4, "/srv/ftp", "10.0.0.1:4000"); (5, "/srv/ftp", "10.0.0.2:4001")] /\ ports (os p) !! 3 = Some 2121%Z.
Proof. by vm_compute. Qed.

(** A port that does not fit 16 bits is not refused: the banner shows it, and the
    server listens on another one. *)
Theorem port_wraps :
  let (ending, p) := main ["/srv/ftp"; "67656"] plain_root [] (start []) in
  ending = Waiting /\ head (log p) = Some (banner "/srv/ftp" 67656) /\ ports (os p) !! 3 = Some 2120%Z.
Proof. by vm_compute. Qed.

(** An argument that is no number ends the process by an exception outside [try]. *)
Theorem port_no_number : (main ["/srv/ftp"; "ftp"] plain_root [] (start [])).1 = Terminated "stoi".
Proof. by vm_compute. Qed.

End FtpMain.
