(* ===== verification/FtpProps.v ===== *)
(** * The FTP server keeps to its directory and keeps its files

    What a session may touch, and what uploads and downloads do to the bytes. *)
From S2P Require Import Prelude Filesystem FtpServer.
Import Filesystem FtpServer.

Module FtpProps.

(** ** Staying inside *)

Lemma walk_missing t links c p l :
  walk links t c p = Missing (Some l) -> t !! l = None.
Proof.
  revert links c p. refine (walk_ind _ _ _).
  - intros links c. by rewrite walk_nil.
  - intros links c w rest IH IHl. rewrite walk_cons.
    destruct (negb (is_dir (t !! c))); [done|]. destruct (is_empty w || (w =s? ".")); [apply IH|].
    destruct (w =s? ".."); [apply IH|]. destruct (t !! (c ++ [w])) as [[]|] eqn:Hw; [apply IH..| |].
    + destruct links as [|links]; [done|]. by apply IHl.
    + destruct rest; [|done]. by intros [= <-].
Qed.

Lemma inside_found t root p l :
  real_dir t root -> pathInsideRoot t root p = true -> lead t p = Found l -> root `prefix_of` l.
Proof.
  intros Hr Hi Hl. unfold pathInsideRoot, relative in Hi.
  rewrite (weakly_canonical_found t p l Hl), (weakly_canonical_found t root root (lead_real t root Hr)) in Hi.
  apply relative_down; [apply Hr|].
  rewrite forallb_forall in Hi. apply Forall_forall. intros w Hw%list_elem_of_In%Hi. by intros ->.
Qed.

(** The last step to a name that is missing. *)
Lemma missing_last t p w d l :
  lead t p = Found d -> lead t (p ++ [w]) = Missing (Some l) ->
  (t !! (d ++ [w]) = None /\ plain w /\ l = d ++ [w]) \/ exists target, t !! (d ++ [w]) = Some (Link target).
Proof.
  intros Hd Hl. destruct (walk_app _ _ _ _ _ Hd) as [links Hw]. unfold lead in Hl. rewrite Hw, walk_cons in Hl.
  destruct (negb (is_dir (t !! d))); [done|]. destruct (is_empty w || (w =s? ".")) eqn:E1; [by rewrite walk_nil in Hl|].
  destruct (w =s? "..") eqn:E2; [by rewrite walk_nil in Hl|].
  destruct (t !! (d ++ [w])) as [[]|] eqn:Hn; [by rewrite walk_nil in Hl..|by right; eexists|left].
  injection Hl as <-. split_and!; [done| |done]. unfold plain. apply orb_false_iff in E1 as [-> ->]. by rewrite E2.
Qed.

Lemma inside_new t root p w d :
  real_dir t root -> pathInsideRoot t root (p ++ [w]) = true -> lead t p = Found d ->
  lead t (p ++ [w]) = Missing (Some (d ++ [w])) -> root `prefix_of` d ++ [w].
Proof.
  intros Hr Hi Hd Hl. pose proof (walk_missing _ _ _ _ _ Hl) as Hn.
  destruct (missing_last t p w d _ Hd Hl) as [(_ & Hw & _)|[target Ht]]; [|congruence].
  unfold pathInsideRoot, relative in Hi. rewrite (weakly_canonical_new t p w d) in Hi; [|done|by unfold status; rewrite Hl|done].
  rewrite (weakly_canonical_found t root root (lead_real t root Hr)) in Hi. apply relative_down; [apply Hr|].
  rewrite forallb_forall in Hi. apply Forall_forall. intros v Hv%list_elem_of_In%Hi. by intros ->.
Qed.

(** ** The invariant of a session *)

Definition no_links (t : tree) : Prop := forall p target, t !! p <> Some (Link target).
Definition location_of (a : access) : path := match a with Read l | Listed l | Wrote l _ => l end.
(** Created at the end of a link that led nowhere. *)
Definition astray (a : access) : bool := match a with Wrote _ direct => negb direct | _ => false end.

Record session_ok (links : bool) (root : path) (s : Session) : Prop := {
  root_same : root_ s = root;
  root_real : real_dir (tree_ s) root;
  links_none : links = false -> no_links (tree_ s);
  touched_logged : touched s <> [] -> loggedIn_ s = true;
  touched_inside : Forall (fun a => root `prefix_of` location_of a \/ (links = true /\ astray a = true)) (touched s) }.

(** A change of the rest of the session. *)
Lemma session_ok_ext links root s s' :
  root_ s' = root_ s -> tree_ s' = tree_ s -> touched s' = touched s -> (loggedIn_ s = true -> loggedIn_ s' = true) ->
  session_ok links root s -> session_ok links root s'.
Proof. intros E1 E2 E3 E4 [H1 H2 H3 H4 H5]. split; rewrite ?E1, ?E2, ?E3; auto. Qed.

Lemma session_ok_touch links root a s :
  loggedIn_ s = true -> root `prefix_of` location_of a \/ (links = true /\ astray a = true) ->
  session_ok links root s -> session_ok links root (set_touched (touched s ++ [a]) s).
Proof.
  intros Hl Ha [H1 H2 H3 H4 H5]. split; cbn; auto. apply Forall_app. split; [done|by apply Forall_singleton].
Qed.

Lemma session_ok_store links root l perms content s :
  is_dir (tree_ s !! l) = false -> session_ok links root s ->
  session_ok links root (set_tree_ (<[l := File perms content]> (tree_ s)) s).
Proof.
  intros Hl [H1 [H2 H2'] H3 H4 H5]. split; cbn; auto.
  - split; [done|]. intros q Hq. rewrite lookup_insert_ne; [by apply H2'|]. intros ->. rewrite (H2' q Hq) in Hl. done.
  - intros Hn p target. rewrite lookup_insert. case_decide; [done|]. by apply H3.
Qed.

Section Session.
Variables (links : bool) (root : path).
Local Abbreviation ok := (session_ok links root).

(** A logged-in session over a tree that satisfies [P]. *)
Definition over (P : tree -> Prop) (s : Session) : Prop := ok s /\ P (tree_ s) /\ loggedIn_ s = true.

Lemma over_ext P s s' :
  root_ s' = root_ s -> tree_ s' = tree_ s -> touched s' = touched s -> loggedIn_ s' = loggedIn_ s -> over P s -> over P s'.
Proof.
  intros E1 E2 E3 E4 (H1 & H2 & H3). split_and!; [|by rewrite E2|congruence]. revert H1. apply session_ok_ext; congruence.
Qed.

Lemma reply_over P code msg : preserves (over P) (reply code msg).
Proof. intros s. by apply over_ext. Qed.
Lemma modify_over P f :
  (forall s, root_ (f s) = root_ s /\ tree_ (f s) = tree_ s /\ touched (f s) = touched s /\ loggedIn_ (f s) = loggedIn_ s) ->
  preserves (over P) (modify f).
Proof. intros Hf s. destruct (Hf s) as (E1 & E2 & E3 & E4). by apply over_ext. Qed.
Lemma resolvePath_over P p : preserves (over P) (resolvePath p).
Proof. intros s Hs. unfold resolvePath. by case_match. Qed.
Lemma stat_over P p : preserves (over P) (stat p).
Proof. by intros s. Qed.
Lemma accept_over P : preserves (over P) acceptDataConnection.
Proof.
  intros s. unfold acceptDataConnection. destruct (pasvPort_ s); [|done]. destruct (connects s) as [|[] ?]; by apply over_ext.
Qed.
Lemma next_open_over P : preserves (over P) next_open.
Proof. intros s Hs. unfold next_open. destruct (opens s); [done|]. revert Hs. by apply over_ext. Qed.
Lemma touch_over P a :
  root `prefix_of` location_of a \/ (links = true /\ astray a = true) -> preserves (over P) (touch a).
Proof. intros Ha s (H1 & H2 & H3). split_and!; [|done..]. by apply session_ok_touch. Qed.

Lemma over_ok P s : over P s -> ok s.
Proof. by intros [? _]. Qed.

(** The first steps of the handlers. *)
Lemma logged_keeps {A} (m : M Session A) s :
  ok s -> (over (eq (tree_ s)) s -> ok (m s).2) -> ok ((requireLogin ;; m) s).2.
Proof.
  intros Hs Hm. unfold mbind, M_bind, requireLogin. destruct (loggedIn_ s) eqn:Hl; [|done]. by apply Hm.
Qed.
Lemma resolve_keeps {A} (k : path -> M Session A) arg s :
  ok s -> (forall file, pathInsideRoot (tree_ s) root file = true -> ok (k file s).2) -> ok ((resolvePath arg ≫= k) s).2.
Proof.
  intros Hs Hk. unfold mbind, M_bind, resolvePath. rewrite (root_same _ _ _ Hs).
  set (n := match weakly_canonical _ _ with Some p => p | None => _ end).
  destruct (pathInsideRoot (tree_ s) root n) eqn:Hn; [by apply Hk|done].
Qed.
Lemma stat_keeps {A} (k : option node -> M Session A) p s :
  ok s -> (forall n, node_at (tree_ s) p = inr n -> ok (k n s).2) -> ok ((stat p ≫= k) s).2.
Proof. intros Hs Hk. unfold mbind, M_bind, stat. destruct (node_at (tree_ s) p) eqn:Hn; [done|by apply Hk]. Qed.

Lemma node_at_found t p n : node_at t p = inr (Some n) -> exists l, lead t p = Found l /\ t !! l = Some n.
Proof. unfold node_at, status. destruct (lead t p) as [l| | |]; try done. intros [= Hn]. by exists l. Qed.

Lemma get_over {A : Type} (P : tree -> Prop) (k : Session -> M Session A) :
  (forall s, P (tree_ s) -> preserves (over P) (k s)) -> preserves (over P) (get ≫= k).
Proof. intros Hk s Hs. apply (Hk s); [apply Hs|done]. Qed.
Lemma from_over {A : Type} (P : tree -> Prop) (m : M Session A) s : over P s -> preserves (over P) m -> ok (m s).2.
Proof. intros Hs Hm. by apply over_ok with P, Hm. Qed.

Ltac keeps :=
  cbv zeta; repeat lazymatch goal with
    | |- preserves _ (mbind _ get) => apply get_over; intros ? ?
    | |- preserves _ (mbind _ _) => apply preserves_bind; [|intros ?]
    | |- preserves _ (if _ then _ else _) => apply preserves_if
    | |- preserves _ (reply _ _) => apply reply_over
    | |- preserves _ acceptDataConnection => apply accept_over
    | |- preserves _ next_open => apply next_open_over
    | |- preserves _ (touch _) => apply touch_over
    | |- preserves _ closePassive => apply modify_over; intros ?; by repeat split
    | |- preserves _ (modify _) => apply modify_over; intros ?; by repeat split
    end.

Lemma handleLIST_keeps arg s : ok s -> ok (handleLIST arg s).2.
Proof.
  intros Hs. apply logged_keeps; [done|]. intros Ho. apply resolve_keeps; [done|]. intros file Hi.
  apply stat_keeps; [done|]. intros n Hn. apply from_over with (eq (tree_ s)); [done|]. destruct n as [n|]; [|apply reply_over].
  do 2 (apply preserves_bind; [keeps|intros ?]). apply get_over. intros s1 H1. keeps.
  left. destruct (node_at_found _ _ _ Hn) as (l & Hl & _). cbn [location_of]. rewrite <- H1, Hl. by apply (inside_found _ _ _ _ (root_real _ _ _ Hs) Hi).
Qed.

Lemma handleRETR_keeps arg s : ok s -> ok (handleRETR arg s).2.
Proof.
  intros Hs. apply logged_keeps; [done|]. intros Ho. destruct (is_empty arg); [by apply (from_over _ _ _ Ho), reply_over|].
  apply resolve_keeps; [done|]. intros file Hi. apply stat_keeps; [done|]. intros n Hn. apply from_over with (eq (tree_ s)); [done|].
  destruct n as [[|perms content|]|]; try apply reply_over.
  apply get_over. intros s1 H1. apply preserves_if; [keeps|]. apply preserves_bind; [keeps|]. intros opened. apply preserves_if; [keeps|].
  do 2 (apply preserves_bind; [keeps|intros ?]). destruct (sendfile_loop _ _ _) as [done_ sent].
  keeps. left. destruct (node_at_found _ _ _ Hn) as (l & Hl & _). rewrite <- H1. cbn [location_of].
  rewrite Hl. by apply (inside_found _ _ _ _ (root_real _ _ _ Hs) Hi).
Qed.

(** A file opened for writing. *)
Lemma open_write_inside s file truncate d l perms content direct :
  ok s -> pathInsideRoot (tree_ s) root file = true -> lead (tree_ s) (parent_path file) = Found d ->
  open_write (tree_ s) file truncate = Some (l, perms, content, direct) ->
  is_dir (tree_ s !! l) = false /\ (root `prefix_of` l \/ (links = true /\ direct = false)).
Proof.
  intros Hs Hi Hd Ho. unfold open_write in Ho. destruct (lead (tree_ s) file) as [l'|[l'|]| |] eqn:Hl; try done.
  - destruct (tree_ s !! l') as [[]|] eqn:Hn; try done. injection Ho as <- <- <- <-. rewrite Hn. split; [done|left].
    by apply (inside_found _ _ _ _ (root_real _ _ _ Hs) Hi).
  - rewrite Hd in Ho. injection Ho as <- <- <- <-. rewrite (walk_missing _ _ _ _ _ Hl). split; [done|].
    destruct file as [|w file _] using rev_ind; [done|]. unfold parent_path in Hd.
    rewrite removelast_last in Hd. rewrite last_snoc. cbn [default from_option id].
    case_bool_decide as Hw; [left; subst; by apply (inside_new _ _ _ _ _ (root_real _ _ _ Hs) Hi)|right]. split; [|done].
    destruct links eqn:Hlk; [done|]. exfalso. destruct (missing_last _ _ _ _ _ Hd Hl) as [(_ & _ & ?)|[target Ht]]; [done|].
    by apply (links_none _ _ _ Hs eq_refl _ _ Ht).
Qed.

Lemma store_over l perms content : preserves (over (fun t => is_dir (t !! l) = false)) (store l perms content).
Proof.
  intros s (H1 & H2 & H3). split_and!; [by apply session_ok_store|cbn; by rewrite lookup_insert_eq|done].
Qed.

(** From a state over [P] on. *)
Definition goes (P : tree -> Prop) {A : Type} (m : M Session A) : Prop := forall s, over P s -> ok (m s).2.
Lemma goes_bind P {A B : Type} (m : M Session A) (k : A -> M Session B) :
  preserves (over P) m -> (forall a, goes P (k a)) -> goes P (m ≫= k).
Proof.
  intros Hm Hk s Hs. specialize (Hm s Hs). unfold mbind, M_bind. destruct (m s) as [[e|a] s1]; [by apply over_ok with P|by apply Hk].
Qed.
Lemma goes_get P {A : Type} (k : Session -> M Session A) : (forall s, P (tree_ s) -> goes P (k s)) -> goes P (get ≫= k).
Proof. intros Hk s Hs. apply (Hk s); [apply Hs|done]. Qed.
Lemma goes_weaken (P Q : tree -> Prop) {A : Type} (m : M Session A) : (forall t, P t -> Q t) -> goes Q m -> goes P m.
Proof. intros Hq Hm s (H1 & H2 & H3). apply Hm. split_and!; auto. Qed.
Lemma goes_over P {A : Type} (m : M Session A) : preserves (over P) m -> goes P m.
Proof. intros Hm s Hs. by apply from_over with P. Qed.

Lemma handleSTOR_keeps arg s : ok s -> ok (handleSTOR arg s).2.
Proof.
  intros Hs. apply logged_keeps; [done|]. intros Ho. destruct (is_empty arg); [by apply (from_over _ _ _ Ho), reply_over|].
  apply resolve_keeps; [done|]. intros file Hi. apply stat_keeps; [done|]. intros n Hn.
  enough (goes (eq (tree_ s)) (if negb (is_dir n) then reply 550 "Parent directory does not exist." else
    s ← get ; opened ← next_open ;
    match (if (opened : bool) then open_write (tree_ s) file (bool_decide (restOffset_ s = 0%Z)) else None) with
    | None => reply 550 "Cannot create file."
    | Some (location, perms, content, direct) => stor_rest s location perms content direct end)) as Hg by exact (Hg s Ho).
  destruct n as [[perms| |]|]; cbn [is_dir negb]; try apply goes_over, reply_over. destruct (node_at_found _ _ _ Hn) as (d & Hd & _).
  apply goes_get. intros s1 H1. apply goes_bind; [keeps|]. intros opened. destruct opened; [|apply goes_over, reply_over].
  rewrite <- H1. destruct (open_write (tree_ s) file _) as [[[[l p] content] direct]|] eqn:How; [|apply goes_over, reply_over].
  destruct (open_write_inside s file _ d _ _ _ _ Hs Hi Hd How) as [Hdir Hin].
  apply goes_bind; [apply touch_over; destruct Hin as [Hin|[Hin Hdi]]; [by left|right; cbn; by rewrite Hdi]|intros _].
  apply goes_weaken with (fun t => is_dir (t !! l) = false); [by intros t <-|]. apply goes_over.
  apply preserves_bind; [apply store_over|intros _]. keeps. destruct (recv_loop _ _ _ _) as [[okk content'] disk'].
  apply preserves_bind; [apply store_over|intros _]. keeps.
Qed.

Lemma reply_keeps code msg s : ok s -> ok (reply code msg s).2.
Proof. by apply session_ok_ext. Qed.
Lemma handlePASS_keeps arg s : ok s -> ok (handlePASS arg s).2.
Proof. by apply session_ok_ext. Qed.
Lemma handlePWD_keeps s : ok s -> ok (handlePWD s).2.
Proof. intros Hs. apply logged_keeps; [done|]. intros Ho. apply (from_over _ _ _ Ho). keeps. Qed.
Lemma handleCWD_keeps arg s : ok s -> ok (handleCWD arg s).2.
Proof.
  intros Hs. apply logged_keeps; [done|]. intros Ho. apply resolve_keeps; [done|]. intros file _.
  apply stat_keeps; [done|]. intros n _. apply (from_over _ _ _ Ho). keeps.
Qed.
Lemma handleTYPE_keeps arg s : ok s -> ok (handleTYPE arg s).2.
Proof. intros Hs. apply logged_keeps; [done|]. intros Ho. apply (from_over _ _ _ Ho). keeps. Qed.
Lemma handlePASV_keeps s : ok s -> ok (handlePASV s).2.
Proof.
  intros Hs. apply logged_keeps; [done|]. intros Ho. apply (from_over _ _ _ Ho). keeps.
  destruct (try_ports 100 _) as [[port|] rest]; keeps.
Qed.
Lemma handleREST_keeps arg s : ok s -> ok (handleREST arg s).2.
Proof.
  intros Hs. apply logged_keeps; [done|]. intros Ho. apply (from_over _ _ _ Ho).
  destruct (stoull (trim arg)) as [[off idx]|]; keeps.
Qed.

Lemma dispatch_keeps cmd arg s : ok s -> ok (dispatch cmd arg s).2.
Proof.
  unfold dispatch, handleUSER. repeat case_match; auto using reply_keeps, handlePASS_keeps, handlePWD_keeps, handleCWD_keeps, handleTYPE_keeps,
    handlePASV_keeps, handleLIST_keeps, handleRETR_keeps, handleSTOR_keeps, handleREST_keeps.
Qed.
Lemma serve_line_keeps line s : ok s -> ok (serve_line line s).2.
Proof.
  intros Hs. unfold serve_line. case_match; [done|]. destruct (parseCommand (trim line)) as [cmd arg].
  case_match; [by apply reply_keeps|]. pose proof (dispatch_keeps cmd arg s Hs) as Hd.
  destruct (dispatch cmd arg s) as [[e|[]] s']; [by apply reply_keeps|done].
Qed.
Lemma command_loop_keeps fuel input s : ok s -> ok (command_loop fuel input s).
Proof.
  revert input s. induction fuel as [|fuel IH]; intros input s Hs; [done|]. cbn [command_loop].
  destruct (recvLine "" input) as [[line rest]|]; [|done]. pose proof (serve_line_keeps line s Hs) as Hl.
  destruct (serve_line line s) as [[] s']; [by apply IH|done].
Qed.
Lemma session_run_keeps input s : ok s -> ok (run input s).
Proof.
  intros Hs. unfold run. assert (ok (command_loop (S (String.length input)) input (reply 220 "Simple Linux FTP Server ready." s).2)) as Hc.
  { by apply command_loop_keeps, reply_keeps. }
  revert Hc. by apply session_ok_ext.
Qed.
End Session.

(** C23: whatever a client sends, and whatever the network and the disk do, a
    session touches no file before the login; every file it reads and every
    directory it lists is inside the root directory, and so is every file it
    writes, unless the file is created at the end of a symbolic link that leads
    nowhere.  In a tree without symbolic links everything is inside. *)
Theorem ftp_confined root t ports ip connects opens disk input :
  real_dir t root ->
  let s := run input (new_session root t ports ip connects opens disk) in
  (loggedIn_ s = false -> touched s = []) /\
  Forall (fun a => root `prefix_of` location_of a \/ astray a = true) (touched s) /\
  (no_links t -> Forall (fun a => root `prefix_of` location_of a) (touched s)).
Proof.
  intros Hr s.
  assert (forall links, (links = false -> no_links t) -> session_ok links root s) as Hok.
  { intros links Hl. apply session_run_keeps. split; try done. }
  destruct (Hok true) as [_ _ _ Hlog Htrue]; [done|]. split_and!.
  - intros Hl. destruct (touched s) as [|a l]; [done|]. rewrite Hlog in Hl; done.
  - eapply Forall_impl; [exact Htrue|]. intros a [?|[_ ?]]; auto.
  - intros Hn. destruct (Hok false) as [_ _ _ _ Hfalse]; [done|]. eapply Forall_impl; [exact Hfalse|]. intros a [?|[? _]]; done.
Qed.

(** ** Bytes on the way *)

(** The bytes that a connection gives before it ends or breaks, and whether it
    ends well. *)
Fixpoint received (recvs : list getting) : string * bool :=
  match recvs with
  | [] => ("", true)
  | GotIntr :: rest => received rest
  | GotBroke :: _ => ("", false)
  | Got bytes :: rest => if is_empty bytes then ("", true) else (bytes +:+ (received rest).1, (received rest).2)
  end.

(** Bytes written at a position; no bytes change nothing. *)
Definition write_at (pos : nat) (bytes content : string) : string :=
  if is_empty bytes then content else overlay pos bytes content.

Lemma zeros_strlen n : String.length (zeros n) = n.
Proof. induction n; cbn; congruence. Qed.

Lemma overlay_length_ge pos a c : pos + String.length a <= String.length (overlay pos a c).
Proof. unfold overlay. rewrite !str_length_app, str_take_length, zeros_strlen. lia. Qed.

Lemma overlay_app pos a b c :
  a <> "" -> overlay (pos + String.length a) b (overlay pos a c) = overlay pos (a +:+ b) c.
Proof.
  intros Ha. unfold overlay at 1 3. pose proof (overlay_length_ge pos a c) as Hl.
  replace (pos + String.length a - String.length (overlay pos a c)) with 0 by lia. cbn [zeros]. rewrite str_app_nil_l.
  assert (String.length (str_take pos c +:+ zeros (pos - String.length c)) = pos) as Hp.
  { rewrite str_length_app, str_take_length, zeros_strlen. lia. }
  unfold overlay. rewrite <- !(str_app_assoc (str_take pos c)). set (h := str_take pos c +:+ zeros _) in *.
  rewrite str_take_app_ge by lia. replace (pos + String.length a - String.length h) with (String.length a) by lia.
  rewrite str_take_app_length, str_drop_app_ge by lia.
  rewrite str_drop_app_ge by lia. rewrite !str_app_assoc. do 3 f_equal. rewrite str_drop_drop. f_equal. rewrite str_length_app. lia.
Qed.

Lemma write_at_app pos a b c : write_at (pos + String.length a) b (write_at pos a c) = write_at pos (a +:+ b) c.
Proof.
  unfold write_at. destruct a as [|x a]; [by rewrite Nat.add_0_r|]. destruct b as [|y b]; [by rewrite str_app_nil_r|].
  cbn [is_empty]. rewrite str_app_cons. cbn [is_empty]. rewrite <- str_app_cons. by apply overlay_app.
Qed.

Lemma write_loop_spec disk pos bytes content :
  exists w rest, bytes = w +:+ rest /\
    (write_loop disk pos bytes content).1 = ((write_loop disk pos bytes content).1.1.1, pos + String.length w, write_at pos w content) /\
    ((write_loop disk pos bytes content).1.1.1 = true -> rest = "").
Proof.
  revert pos bytes content. induction disk as [|o disk IH]; intros pos bytes content.
  - cbn [write_loop]. destruct (is_empty bytes) eqn:He; exists bytes, ""; rewrite str_app_nil_r; split_and!; try done.
    + apply is_empty_true in He as ->. cbn. by rewrite Nat.add_0_r.
    + unfold write_at. by rewrite He.
  - cbn [write_loop]. destruct (is_empty bytes) eqn:He.
    { exists bytes, "". rewrite str_app_nil_r. split_and!; try done. apply is_empty_true in He as ->. cbn. by rewrite Nat.add_0_r. }
    destruct o as [[|n]| |]; [apply IH| |apply IH|].
    + destruct (IH (pos + String.length (str_take (S n) bytes)) (str_drop (S n) bytes) (overlay pos (str_take (S n) bytes) content))
        as (w & rest & E1 & E2 & E3).
      exists (str_take (S n) bytes +:+ w), rest. split_and!; [by rewrite str_app_assoc, <- E1, str_take_drop| |done].
      assert (overlay pos (str_take (S n) bytes) content = write_at pos (str_take (S n) bytes) content) as Hov by by destruct bytes.
      by rewrite E2, str_length_app, <- write_at_app, Nat.add_assoc, Hov.
    + exists "", bytes. split_and!; try done. by cbn; rewrite Nat.add_0_r.
Qed.

Lemma recv_loop_spec recvs disk pos content :
  exists w rest, (received recvs).1 = w +:+ rest /\ (recv_loop recvs disk pos content).1.2 = write_at pos w content /\
    ((recv_loop recvs disk pos content).1.1 = true -> rest = "" /\ (received recvs).2 = true).
Proof.
  revert disk pos content. induction recvs as [|[bytes| |] recvs IH]; intros disk pos content; cbn [recv_loop received].
  - by exists "", "".
  - destruct (is_empty bytes) eqn:He; [by exists "", ""|]. cbn [fst snd].
    destruct (write_loop_spec disk pos bytes content) as (w & rest & E1 & E2 & E3).
    destruct (write_loop disk pos bytes content) as [[[okk pos'] content'] disk'] eqn:Hw. cbn [fst] in E2, E3. injection E2 as -> ->.
    destruct okk.
    + specialize (E3 eq_refl). subst rest. rewrite str_app_nil_r in E1. subst w.
      destruct (IH disk' (pos + String.length bytes) (write_at pos bytes content)) as (w & rest & F1 & F2 & F3).
      exists (bytes +:+ w), rest. rewrite F1, F2, write_at_app, str_app_assoc. done.
    + exists w, (rest +:+ (received recvs).1). by rewrite E1, str_app_assoc.
  - apply IH.
  - by exists "", "".
Qed.

(** With no fault of the disk and a connection that ends well, all is written. *)
Lemma recv_loop_all recvs pos content :
  (received recvs).2 = true -> recv_loop recvs [] pos content = (true, write_at pos (received recvs).1 content, []).
Proof.
  revert pos content. induction recvs as [|[bytes| |] recvs IH]; intros pos content; cbn [recv_loop received]; auto; [|done].
  destruct (is_empty bytes) eqn:He; [done|]. cbn [fst snd]. intros Hr. cbn [write_loop]. rewrite He, IH by done.
  assert (overlay pos bytes content = write_at pos bytes content) as Hov by (unfold write_at; by rewrite He).
  by rewrite Hov, write_at_app.
Qed.

Lemma recv_loop_written recvs disk pos content :
  exists w rest, (received recvs).1 = w +:+ rest /\ (recv_loop recvs disk pos content).1.2 = write_at pos w content /\
    (disk = [] -> (received recvs).2 = true -> rest = "" /\ (recv_loop recvs disk pos content).1.1 = true).
Proof.
  destruct disk as [|o disk]; [destruct (received recvs).2 eqn:Hr|].
  - exists (received recvs).1, "". rewrite (recv_loop_all _ _ _ Hr), str_app_nil_r. done.
  - destruct (recv_loop_spec recvs [] pos content) as (w & rest & F1 & F2 & _). by exists w, rest.
  - destruct (recv_loop_spec recvs (o :: disk) pos content) as (w & rest & F1 & F2 & _). by exists w, rest.
Qed.

(** What is sent is the beginning of what is asked for; all of it when the
    transfer ends well and the kernel never takes nothing. *)
Lemma sendfile_loop_spec sends remain sent :
  exists w rest, remain = w +:+ rest /\ (sendfile_loop sends remain sent).2 = sent +:+ w /\
    (Took 0 ∉ sends -> (sendfile_loop sends remain sent).1 = true -> rest = "").
Proof.
  revert remain sent. induction sends as [|o sends IH]; intros remain sent; cbn [sendfile_loop];
    (destruct (is_empty remain) eqn:He; [apply is_empty_true in He as ->; exists "", ""; by rewrite !str_app_nil_r|]).
  - exists remain, "". by rewrite !str_app_nil_r.
  - destruct o as [[|n]| |].
    + exists "", remain. rewrite !str_app_nil_r. split_and!; try done. intros Hn. exfalso. apply Hn. by left.
    + set (k := Z.to_nat _). destruct (IH (str_drop k remain) (sent +:+ str_take k remain)) as (w & rest & E1 & E2 & E3).
      exists (str_take k remain +:+ w), rest. rewrite str_app_assoc, <- E1, str_take_drop, E2, str_app_assoc. split_and!; try done.
      intros Hn. apply E3. intros Hin. apply Hn. by right.
    + destruct (IH remain sent) as (w & rest & E1 & E2 & E3). exists w, rest. split_and!; try done. intros Hn. apply E3. intros Hin. apply Hn. by right.
    + exists "", remain. by rewrite !str_app_nil_r.
Qed.

Lemma sendfile_loop_ok sends remain sent : Broke ∉ sends -> (sendfile_loop sends remain sent).1 = true.
Proof.
  revert remain sent. induction sends as [|o sends IH]; intros remain sent Hb; cbn [sendfile_loop]; (case_match; [done|]); [done|].
  apply not_elem_of_cons in Hb as [Ho Hb]. destruct o as [[|n]| |]; auto.
Qed.

(** ** A file in the current directory *)

(** A logged-in session whose current directory is the real directory [d] inside
    the root, and a plain file name. *)
Record ready (s : Session) (d : path) (name : string) : Prop := {
  rd_login : loggedIn_ s = true;
  rd_root : real_dir (tree_ s) (root_ s);
  rd_dir : real_dir (tree_ s) d;
  rd_inside : root_ s `prefix_of` d;
  rd_current : lead (tree_ s) (strip (slash (root_ s) (cwdRel_ s))) = Found d;
  rd_name : plain name;
  rd_word : trim name = name /\ is_absolute name = false /\ elements name = [name] }.

(** What the file holds, if there is one; [None] if the name is taken otherwise. *)
Definition file_content (t : tree) (l : path) : option string :=
  match t !! l with None => Some "" | Some (File _ content) => Some content | _ => None end.

Lemma lead_file t p d name old :
  lead t p = Found d -> is_dir (t !! d) = true -> plain name -> file_content t (d ++ [name]) = Some old ->
  lead t (p ++ [name]) = match t !! (d ++ [name]) with Some _ => Found (d ++ [name]) | None => Missing (Some (d ++ [name])) end.
Proof.
  intros Hl Hd (E1 & E2 & E3)%plain_eqs Hf. destruct (walk_app _ _ _ _ _ Hl) as [links Hw]. unfold lead.
  rewrite Hw, walk_cons, Hd, E1, E2, E3. cbn [negb orb]. unfold file_content in Hf.
  destruct (t !! (d ++ [name])) as [[]|]; try done. by rewrite walk_nil.
Qed.

Lemma canonical_file t p d name old :
  lead t p = Found d -> is_dir (t !! d) = true -> plain name -> file_content t (d ++ [name]) = Some old ->
  weakly_canonical t (p ++ [name]) = Some (d ++ [name]).
Proof.
  intros Hl Hd Hn Hf. pose proof (lead_file t p d name old Hl Hd Hn Hf) as Hlead.
  destruct (t !! (d ++ [name])); [by apply weakly_canonical_found|]. apply weakly_canonical_new; auto.
  unfold status. by rewrite Hlead.
Qed.

Lemma relative_inside root rest : Forall plain rest -> forallb (fun part => negb (part =s? "..")) (lexically_relative (root ++ rest) root) = true.
Proof.
  intros Hr. induction root as [|w root IH]; [|cbn [app lexically_relative]; by rewrite String.eqb_refl].
  cbn [app]. destruct Hr as [|w rest Hw Hr]; [done|]. destruct (plain_eqs _ Hw) as (E1 & E2 & E3).
  assert (lexically_relative (w :: rest) [] = w :: rest) as ->. { cbn. by destruct w. }
  apply forallb_forall. intros x Hx. assert (plain x) as (_ & _ & ->)%plain_eqs; [|done].
  apply list_elem_of_In in Hx. apply elem_of_cons in Hx as [->|Hx]; [done|]. by apply (Forall_forall plain rest).
Qed.

Lemma resolve_file s d name old :
  ready s d name -> file_content (tree_ s) (d ++ [name]) = Some old -> resolvePath name s = (inr (d ++ [name]), s).
Proof.
  intros [H1 H2 H3 H4 H5 H6 (E1 & E2 & E3)] Hf. unfold resolvePath, combine. rewrite E1, E2, E3.
  destruct (plain_eqs _ H6) as (-> & _ & _).
  assert (is_dir (tree_ s !! d) = true) as Hd by (by apply H3).
  assert (slash (slash (root_ s) (cwdRel_ s)) [name] = strip (slash (root_ s) (cwdRel_ s)) ++ [name]) as -> by done.
  rewrite (canonical_file _ _ d name old); [|done..].
  assert (pathInsideRoot (tree_ s) (root_ s) (d ++ [name]) = true) as ->; [|done].
  unfold pathInsideRoot, relative. rewrite (canonical_file _ d d name old); [|by apply lead_real|done..].
  rewrite (weakly_canonical_found _ _ _ (lead_real _ _ H2)). destruct H4 as [rest ->]. rewrite <- app_assoc.
  apply relative_inside, Forall_app. split; [|by apply Forall_singleton]. destruct H3 as [H3 _]. by apply Forall_app in H3 as [_ ?].
Qed.

Ltac session_fields :=
  cbn [set_cwdRel_ set_loggedIn_ set_binaryMode_ set_restOffset_ set_pasvPort_ set_tree_ set_ports set_connects set_opens
    set_disk set_control set_data set_touched root_ cwdRel_ loggedIn_ binaryMode_ restOffset_ pasvPort_ tree_ ports localIp
    connects opens disk control data touched fst snd].

(** An upload: the file holds its beginning, and the bytes that came from the
    offset on. *)
Lemma stor_effect s d name old sends recvs cs port :
  ready s d name -> file_content (tree_ s) (d ++ [name]) = Some old -> opens s = [] ->
  pasvPort_ s = Some port -> connects s = Connected sends recvs :: cs -> (0 <= restOffset_ s < 2 ^ 63)%Z ->
  let s' := (handleSTOR name s).2 in
  let start := if bool_decide (restOffset_ s = 0%Z) then "" else old in
  exists perms w rest fine, (received recvs).1 = w +:+ rest /\
    (disk s = [] -> (received recvs).2 = true -> rest = "" /\ fine = true) /\
    (handleSTOR name s).1 = inr () /\
    control s' = control s ++ [reply_text 150 "Opening BINARY mode data connection for upload.";
      if fine then reply_text 226 "Transfer complete." else reply_text 426 "Connection closed; transfer aborted."] /\
    tree_ s' = <[d ++ [name] := File perms (write_at (Z.to_nat (restOffset_ s)) w start)]> (tree_ s) /\
    restOffset_ s' = 0%Z /\ root_ s' = root_ s /\ cwdRel_ s' = cwdRel_ s /\ loggedIn_ s' = true.
Proof.
  intros Hr Hf Ho Hp Hc Hoff s' start. pose proof Hr as [H1 H2 H3 H4 H5 H6 (E1 & E2 & E3)].
  assert (is_dir (tree_ s !! d) = true) as Hd by (by apply H3).
  destruct (plain_eqs _ H6) as (Hne & _ & _).
  assert (exists perms direct, open_write (tree_ s) (d ++ [name]) (bool_decide (restOffset_ s = 0%Z)) = Some (d ++ [name], perms, start, direct))
    as (perms & direct & How).
  { unfold open_write. rewrite (lead_file _ d d name old); [|by apply lead_real|done..]. unfold file_content in Hf. unfold start.
    destruct (tree_ s !! (d ++ [name])) as [[]|] eqn:Hn; try done; simplify_eq.
    - rewrite Hn. by do 2 eexists.
    - do 2 eexists. by case_bool_decide. }
  exists perms. subst s'. unfold handleSTOR. unfold mbind, M_bind, requireLogin. rewrite H1, Hne, (resolve_file s d name old Hr Hf).
  unfold parent_path. rewrite removelast_last. unfold stat, node_at, status. rewrite (lead_real _ _ H3), Hd.
  cbn [negb]. unfold get, next_open. rewrite Ho, How. unfold stor_rest.
  assert ((2 ^ 63 <=? restOffset_ s)%Z = false) as -> by (apply Z.leb_gt; lia).
  unfold mbind, M_bind, touch, store, reply, modify, acceptDataConnection, get. session_fields. rewrite Hp, Hc. cbn [tail snd]. session_fields.
  destruct (recv_loop_written recvs (disk s) (Z.to_nat (restOffset_ s)) start) as (w & rest & F1 & F2 & F3). exists w, rest, (recv_loop recvs (disk s) (Z.to_nat (restOffset_ s)) start).1.1.
  destruct (recv_loop recvs (disk s) (Z.to_nat (restOffset_ s)) start) as [[okk content'] disk']. cbn [fst snd] in F2. subst content'.
  destruct okk; session_fields; (split_and!; try done; [by rewrite <- app_assoc|apply insert_insert_eq]).
Qed.

(** A download: what is sent is the file from the offset on, as far as the
    connection takes it. *)
Lemma retr_effect s d name perms content sends recvs cs port :
  ready s d name -> tree_ s !! (d ++ [name]) = Some (File perms content) -> opens s = [] ->
  pasvPort_ s = Some port -> connects s = Connected sends recvs :: cs -> (0 <= restOffset_ s <= strlen content)%Z ->
  let s' := (handleRETR name s).2 in
  exists w rest, str_drop (Z.to_nat (restOffset_ s)) content = w +:+ rest /\ data s' = data s ++ [w] /\ tree_ s' = tree_ s /\
    (Took 0 ∉ sends -> Broke ∉ sends -> rest = "").
Proof.
  intros Hr Hn Ho Hp Hc Hoff s'. pose proof Hr as [H1 H2 H3 H4 H5 H6 _].
  assert (is_dir (tree_ s !! d) = true) as Hd by (by apply H3).
  assert (file_content (tree_ s) (d ++ [name]) = Some content) as Hf by (unfold file_content; by rewrite Hn).
  destruct (plain_eqs _ H6) as (Hne & _ & _). subst s'. unfold handleRETR. unfold mbind, M_bind, requireLogin.
  rewrite H1, Hne, (resolve_file s d name content Hr Hf). unfold stat, node_at, status.
  rewrite (lead_file _ d d name content), Hn; [|by apply lead_real|done..]. cbn iota beta. rewrite Hn. unfold get.
  assert ((strlen content <? restOffset_ s)%Z = false) as -> by (apply Z.ltb_ge; lia).
  unfold next_open. rewrite Ho. cbn [negb]. unfold reply, modify, acceptDataConnection. session_fields. rewrite Hp, Hc. session_fields.
  set (remain := str_drop _ content). destruct (sendfile_loop_spec sends remain "") as (w & rest & F1 & F2 & F3).
  pose proof (sendfile_loop_ok sends remain "") as Hok. exists w, rest.
  destruct (sendfile_loop sends remain "") as [okk sent]. cbn [fst snd] in *. rewrite str_app_nil_l in F2. subst sent.
  destruct okk; session_fields; (split_and!; try done; auto).
Qed.

(** Writing a file leaves the directories where they are. *)
Lemma walk_store t links c p y l perms content old :
  file_content t l = Some old -> walk links t c p = Found y -> walk links (<[l := File perms content]> t) c p = Found y.
Proof.
  intros Hf. revert links c p. refine (walk_ind _ _ _).
  - intros links c. by rewrite !walk_nil.
  - intros links c w rest IH IHl. rewrite !walk_cons.
    assert (is_dir (<[l := File perms content]> t !! c) = is_dir (t !! c)) as ->.
    { rewrite lookup_insert. case_decide as Hl; [|done]. subst c. unfold file_content in Hf. by destruct (t !! l) as [[]|]. }
    destruct (negb (is_dir (t !! c))); [done|]. destruct (is_empty w || (w =s? ".")); [apply IH|].
    destruct (w =s? ".."); [apply IH|]. rewrite lookup_insert. case_decide as Hl.
    + subst l. unfold file_content in Hf. destruct (t !! (c ++ [w])) as [[]|]; try done. apply IH.
    + destruct (t !! (c ++ [w])) as [[]|]; [apply IH..| |done]. destruct links as [|links]; [done|]. by apply IHl.
Qed.

Lemma real_dir_store t p l perms content old :
  file_content t l = Some old -> real_dir t p -> real_dir (<[l := File perms content]> t) p.
Proof.
  intros Hf [Hp Hd]. split; [done|]. intros q Hq. specialize (Hd q Hq). rewrite lookup_insert. case_decide; [|done]. subst q.
  unfold file_content in Hf. by destruct (t !! l) as [[]|].
Qed.

#[local] Opaque lead.

(** The same session later, the files as they were. *)
Definition continues (s s' : Session) : Prop :=
  root_ s' = root_ s /\ cwdRel_ s' = cwdRel_ s /\ loggedIn_ s' = loggedIn_ s /\ tree_ s' = tree_ s.
(** A data connection comes, and files open. *)
Definition connected (s : Session) (sends : list taking) (recvs : list getting) : Prop :=
  opens s = [] /\ exists port cs, pasvPort_ s = Some port /\ connects s = Connected sends recvs :: cs.

Lemma ready_after s s' s2 d name old perms content :
  ready s d name -> file_content (tree_ s) (d ++ [name]) = Some old ->
  tree_ s' = <[d ++ [name] := File perms content]> (tree_ s) -> root_ s' = root_ s -> cwdRel_ s' = cwdRel_ s -> loggedIn_ s' = true ->
  continues s' s2 -> ready s2 d name /\ tree_ s2 !! (d ++ [name]) = Some (File perms content).
Proof.
  intros [H1 H2 H3 H4 H5 H6 H7] Hf Et Er Ec El (F1 & F2 & F3 & F4). rewrite Et in F4. split; [|rewrite F4; apply lookup_insert_eq].
  split; rewrite ?F1, ?F2, ?F3, ?F4, ?Er, ?Ec; [exact El| | |exact H4| |exact H6|exact H7].
  - exact (real_dir_store _ _ _ _ _ _ Hf H2).
  - exact (real_dir_store _ _ _ _ _ _ Hf H3).
  - exact (walk_store _ _ _ _ _ _ _ _ _ Hf H5).
Qed.

Lemma write_at_end w b : write_at (String.length w) b w = w +:+ b.
Proof.
  unfold write_at. destruct b as [|y b]; [by rewrite str_app_nil_r|]. cbn [is_empty]. unfold overlay.
  rewrite str_take_ge by lia. rewrite Nat.sub_diag. cbn [zeros]. rewrite str_app_nil_l, str_drop_ge by lia. by rewrite str_app_nil_r.
Qed.

(** C24: an upload that was cut off is completed by [REST] with the size of what
    arrived and another [STOR]; a download then gives the bytes of both parts,
    from any offset on.  The file holds a beginning of the bytes sent after the
    first [STOR], whatever was in it before. *)
Theorem ftp_resumed_upload s1 s2 s3 d name old sends1 recvs1 sends2 recvs2 sends3 recvs3 w :
  ready s1 d name -> file_content (tree_ s1) (d ++ [name]) = Some old ->
  connected s1 sends1 recvs1 -> restOffset_ s1 = 0%Z -> continues (handleSTOR name s1).2 s2 ->
  file_content (tree_ s2) (d ++ [name]) = Some w ->
  connected s2 sends2 recvs2 -> restOffset_ s2 = strlen w -> (strlen w < 2 ^ 63)%Z -> disk s2 = [] -> (received recvs2).2 = true ->
  continues (handleSTOR name s2).2 s3 ->
  connected s3 sends3 recvs3 -> (0 <= restOffset_ s3 <= strlen (w +:+ (received recvs2).1))%Z -> Took 0 ∉ sends3 -> Broke ∉ sends3 ->
  (exists rest, (received recvs1).1 = w +:+ rest) /\
  data (handleRETR name s3).2 = data s3 ++ [str_drop (Z.to_nat (restOffset_ s3)) (w +:+ (received recvs2).1)].
Proof.
  intros Hr1 Hf1 (Ho1 & p1 & cs1 & Hp1 & Hc1) Hz1 Hcont1 Hw (Ho2 & p2 & cs2 & Hp2 & Hc2) Hoff2 Hlt Hdisk Hrec Hcont2
    (Ho3 & p3 & cs3 & Hp3 & Hc3) Hoff3 Ht0 Hbr.
  destruct (stor_effect s1 d name old sends1 recvs1 cs1 p1) as (perms & w1 & r1 & fine1 & E1 & _ & _ & _ & E2 & _ & E3 & E4 & E5); auto; [lia|].
  rewrite Hz1 in E2. destruct (ready_after _ _ _ _ _ _ _ _ Hr1 Hf1 E2 E3 E4 E5 Hcont1) as [Hr2 Hn2].
  assert (w1 = w) as ->.
  { unfold file_content in Hw. rewrite Hn2 in Hw. injection Hw as <-. symmetry. apply (write_at_end "" w1). }
  split; [by exists r1|].
  destruct (stor_effect s2 d name w sends2 recvs2 cs2 p2) as (perms2 & w2 & r2 & fine2 & F1 & F2 & _ & _ & F3 & _ & F4 & F5 & F6); auto; [rewrite Hoff2; unfold strlen in *; lia|].
  destruct (F2 Hdisk Hrec) as [-> _]. rewrite str_app_nil_r in F1. 
  assert (write_at (Z.to_nat (restOffset_ s2)) w2 (if bool_decide (restOffset_ s2 = 0%Z) then "" else w) = w +:+ w2) as Hall.
  { rewrite Hoff2. unfold strlen. rewrite Nat2Z.id. destruct w as [|x v]; [apply (write_at_end "" w2)|].
    rewrite bool_decide_eq_false_2 by (cbn [String.length]; lia). apply write_at_end. }
  rewrite Hall, <- F1 in F3. destruct (ready_after _ _ _ _ _ _ _ _ Hr2 Hw F3 F4 F5 F6 Hcont2) as [Hr3 Hn3].
  destruct (retr_effect s3 d name _ _ sends3 recvs3 cs3 p3 Hr3 Hn3) as (w3 & r3 & G1 & G2 & _ & G3); auto.
  rewrite (G3 Ht0 Hbr), str_app_nil_r in G1. by rewrite G2, G1.
Qed.
End FtpProps.
