(* ===== verification/FtpClient.v ===== *)
(** * The FTP client, [linux_ftp_server/ftp_client.cpp]

    The commands, the replies it reads, passive mode and the transfers.  What the
    server has sent on the control connection is a string still to be read; data
    connections, sending and local files follow schedules.  An exception is the
    error of the monad. *)
From S2P Require Import Prelude Filesystem FtpServer.

Module FtpClient.

Import FtpServer (taking, Took, Intr, Broke, getting, Got, GotIntr, GotBroke, crlf).

(** ** Strings *)

(** [recvLine] is the server's, line for line. *)
Definition recvLine (input : string) : option (string * string) := FtpServer.recvLine "" input.

(** [iss >> n] on an [int]: the value and the rest. *)
Definition read_int (s : string) : option (Z * string) :=
  let body := drop_while isspace s in
  let '(negative, digits) := FtpServer.sign_of body in
  let number := take_while isdigit digits in
  let value := (if negative then - dec_value 0 number else dec_value 0 number)%Z in
  if is_empty number || (value <? - 2 ^ 31)%Z || (2 ^ 31 <=? value)%Z then None
  else Some (value, drop_while isdigit digits).

Fixpoint read_ints (n : nat) (s : string) : option (list Z) :=
  match n with
  | 0 => Some []
  | S n => match read_int s with
      | None => None
      | Some (v, rest) => match read_ints n rest with None => None | Some l => Some (v :: l) end
      end
  end.

Fixpoint find_last (p : ascii -> bool) (s : string) : option nat :=
  match s with
  | EmptyString => None
  | String c rest =>
      match find_last p rest with
      | Some i => Some (S i)
      | None => if p c then Some 0 else None
      end
  end.
Definition baseName (path : string) : string :=
  match find_last (fun c => bool_decide (c = "/"%char) || bool_decide (c = "\"%char)) path with
  | None => path
  | Some pos => str_drop (S pos) path
  end.

Fixpoint split_words (fuel : nat) (s : string) : list string :=
  match fuel with
  | 0 => []
  | S fuel =>
      let body := drop_while isspace s in
      if is_empty body then []
      else take_while (fun c => negb (isspace c)) body :: split_words fuel (drop_while (fun c => negb (isspace c)) body)
  end.
Definition splitWords (line : string) : list string := split_words (S (String.length line)) line.

(** The error of a broken connection. *)
Definition strerror : string := "Connection reset by peer".

(** ** The client *)

(** What a data connection meets: the error of [connectTcp], or what [send] and
    [recv] do. *)
Inductive dialling := Refused (error : string) | Dialled (sends : list taking) (recvs : list getting) .

Record Client := mkClient {
  serverHost_ : string;
  input : string;
  sent : list string;
  control_ok : list bool;
  dials : list dialling;
  dialled : list (string * Z);
  uploaded : list string;
  files : gmap string string;
  writable : list bool;
  screen : string }.

Definition set_serverHost_ x (c : Client) := mkClient x (input c) (sent c) (control_ok c) (dials c) (dialled c) (uploaded c) (files c) (writable c) (screen c).
Definition set_input x (c : Client) := mkClient (serverHost_ c) x (sent c) (control_ok c) (dials c) (dialled c) (uploaded c) (files c) (writable c) (screen c).
Definition set_sent x (c : Client) := mkClient (serverHost_ c) (input c) x (control_ok c) (dials c) (dialled c) (uploaded c) (files c) (writable c) (screen c).
Definition set_control_ok x (c : Client) := mkClient (serverHost_ c) (input c) (sent c) x (dials c) (dialled c) (uploaded c) (files c) (writable c) (screen c).
Definition set_dials x (c : Client) := mkClient (serverHost_ c) (input c) (sent c) (control_ok c) x (dialled c) (uploaded c) (files c) (writable c) (screen c).
Definition set_dialled x (c : Client) := mkClient (serverHost_ c) (input c) (sent c) (control_ok c) (dials c) x (uploaded c) (files c) (writable c) (screen c).
Definition set_uploaded x (c : Client) := mkClient (serverHost_ c) (input c) (sent c) (control_ok c) (dials c) (dialled c) x (files c) (writable c) (screen c).
Definition set_files x (c : Client) := mkClient (serverHost_ c) (input c) (sent c) (control_ok c) (dials c) (dialled c) (uploaded c) x (writable c) (screen c).
Definition set_writable x (c : Client) := mkClient (serverHost_ c) (input c) (sent c) (control_ok c) (dials c) (dialled c) (uploaded c) (files c) x (screen c).
Definition set_screen x (c : Client) := mkClient (serverHost_ c) (input c) (sent c) (control_ok c) (dials c) (dialled c) (uploaded c) (files c) (writable c) x.

Definition print (text : string) : M Client unit := modify (fun c => set_screen (screen c +:+ text) c).

(** ** Commands and replies *)

Record FtpReply := mkReply { code : Z; line : string }.

Definition readReply : M Client FtpReply := fun c =>
  match recvLine (input c) with
  | None => (inl "control connection closed", c)
  | Some (line, rest) =>
      let c := set_input rest c in
      let digits := str_take 3 line in
      if (strlen line <? 3)%Z || negb (str_forall isdigit digits) then (inl ("bad FTP reply: " +:+ line), c)
      else (print ("< " +:+ line +:+ nl) ;; mret (mkReply (dec_value 0 digits) line)) c
  end.

Definition send_control (bytes error : string) : M Client unit := fun c =>
  match control_ok c with
  | false :: rest => (inl error, set_control_ok rest c)
  | l => (inr (), set_sent (sent c ++ [bytes]) (set_control_ok (tail l) c))
  end.

Definition command (cmd : string) : M Client FtpReply :=
  print ("> " +:+ cmd +:+ nl) ;; send_control (cmd +:+ crlf) ("send command failed: " +:+ cmd) ;; readReply.

Definition requireCode (reply : FtpReply) (expected : Z) (what : string) : M Client unit :=
  reject_if (negb (code reply =? expected)%Z)
    (what +:+ " expected " +:+ to_string expected +:+ ", got " +:+ to_string (code reply)).

Definition connectToServer (host : string) : M Client unit :=
  modify (set_serverHost_ host) ;; hello ← readReply ; requireCode hello 220 "server greeting".

Definition login (user pass : string) : M Client unit :=
  r1 ← command ("USER " +:+ user) ;
  if (code r1 =? 230)%Z then mret ()
  else requireCode r1 331 "USER" ;; r2 ← command ("PASS " +:+ pass) ; requireCode r2 230 "PASS".

Definition pwd : M Client string := r ← command "PWD" ; requireCode r 257 "PWD" ;; mret (line r).
Definition cd (path : string) : M Client unit := r ← command ("CWD " +:+ path) ; requireCode r 250 "CWD".

(** ** Passive mode *)

(** The address in a reply, [serverHost] for the address of no host. *)
Definition parse_pasv (serverHost replyLine : string) : string + string * Z :=
  match find_first (fun c => bool_decide (c = "("%char)) replyLine with
  | None => inl ("cannot parse PASV reply: " +:+ replyLine)
  | Some opening =>
      let tail := str_drop opening replyLine in
      match find_first (fun c => bool_decide (c = ")"%char)) tail with
      | None => inl ("cannot parse PASV reply: " +:+ replyLine)
      | Some closing =>
          let inside := str_map (fun c => if bool_decide (c = ","%char) then " "%char else c) (str_take (closing - 1) (str_drop 1 tail)) in
          match read_ints 6 inside with
          | Some [h1; h2; h3; h4; p1; p2] =>
              let ip := to_string_signed h1 +:+ "." +:+ to_string_signed h2 +:+ "." +:+ to_string_signed h3 +:+ "." +:+ to_string_signed h4 in
              inr (if ip =s? "0.0.0.0" then serverHost else ip, (p1 * 256 + p2)%Z)
          | _ => inl ("bad PASV numbers: " +:+ inside)
          end
      end
  end.

Definition connectTcp (host : string) (port : Z) : M Client (list taking * list getting) := fun c =>
  let c := set_dialled (dialled c ++ [(host, port)]) c in
  match dials c with
  | [] => (inl ("connect failed: " +:+ strerror), c)
  | Refused error :: rest => (inl error, set_dials rest c)
  | Dialled sends recvs :: rest => (inr (sends, recvs), set_dials rest c)
  end.

Definition openPassiveDataConnection : M Client (list taking * list getting) :=
  r ← command "PASV" ; requireCode r 227 "PASV" ;; c ← get ;
  match parse_pasv (serverHost_ c) (line r) with
  | inl error => fail error
  | inr (host, port) =>
      print ("# data connection: " +:+ host +:+ ":" +:+ to_string_signed port +:+ nl) ;; connectTcp host port
  end.

(** ** Transfers *)

(** The listing that a data connection brings, [None] if it breaks. *)
Fixpoint recv_all (recvs : list getting) (bytes : string) : option string :=
  match recvs with
  | [] => Some bytes
  | GotIntr :: rest => recv_all rest bytes
  | GotBroke :: _ => None
  | Got piece :: rest => if is_empty piece then Some bytes else recv_all rest (bytes +:+ piece)
  end.

Definition list_files (path : string) : M Client string :=
  data ← openPassiveDataConnection ;
  start ← command (if is_empty path then "LIST" else "LIST " +:+ path) ;
  reject_if (400 <=? code start)%Z "LIST failed" ;;
  match recv_all data.2 "" with
  | None => fail ("receive list data failed: " +:+ strerror)
  | Some listing => done ← readReply ; requireCode done 226 "LIST completion" ;; mret listing
  end.

(** The loop of [download]: each piece is written as it comes, and writing fails
    when [writes] says so.  The error, the content and the answers left. *)
Fixpoint recv_file (localFile : string) (recvs : list getting) (writes : list bool) (content : string) :
    option string * string * list bool :=
  match recvs with
  | [] => (None, content, writes)
  | GotIntr :: rest => recv_file localFile rest writes content
  | GotBroke :: _ => (Some ("download recv failed: " +:+ strerror), content, writes)
  | Got piece :: rest =>
      if is_empty piece then (None, content, writes)
      else
        match writes with
        | false :: writes => (Some ("write local file failed: " +:+ localFile), content, writes)
        | writes => recv_file localFile rest (tail writes) (content +:+ piece)
        end
  end.

Definition next_writable : M Client bool := fun c =>
  match writable c with [] => (inr true, c) | b :: rest => (inr b, set_writable rest c) end.
Definition save (name content : string) : M Client unit := modify (fun c => set_files (<[name := content]> (files c)) c).

Definition download (remoteFile localFile : string) : M Client unit :=
  data ← openPassiveDataConnection ;
  start ← command ("RETR " +:+ remoteFile) ;
  reject_if (400 <=? code start)%Z "RETR failed" ;;
  opened ← next_writable ;
  reject_if (negb opened) ("cannot open local file for writing: " +:+ localFile) ;;
  c ← get ;
  let '(error, content, writes) := recv_file localFile data.2 (writable c) "" in
  save localFile content ;; modify (set_writable writes) ;;
  match error with
  | Some error => fail error
  | None => done ← readReply ; requireCode done 226 "RETR completion"
  end.

(** [sendAll]: whether all was sent, what, and the outcomes left. *)
Fixpoint sendAll (sends : list taking) (bytes done : string) : bool * string * list taking :=
  if is_empty bytes then (true, done, sends)
  else
    match sends with
    | [] => (true, done +:+ bytes, [])
    | Took 0 :: rest | Broke :: rest => (false, done, rest)
    | Took n :: rest => sendAll rest (str_drop n bytes) (done +:+ str_take n bytes)
    | Intr :: rest => sendAll rest bytes done
    end.

(** The file is read and sent in pieces. *)
Definition kPiece : nat := Z.to_nat (128 * 1024).
Fixpoint send_pieces (fuel : nat) (sends : list taking) (content done : string) : bool * string :=
  match fuel with
  | 0 => (true, done)
  | S fuel =>
      if is_empty content then (true, done)
      else
        match sendAll sends (str_take kPiece content) done with
        | (true, done, sends) => send_pieces fuel sends (str_drop kPiece content) done
        | (false, done, _) => (false, done)
        end
  end.

Definition upload (localFile remoteFile : string) : M Client unit :=
  c ← get ;
  match files c !! localFile with
  | None => fail ("cannot open local file for reading: " +:+ localFile)
  | Some content =>
      data ← openPassiveDataConnection ;
      start ← command ("STOR " +:+ remoteFile) ;
      reject_if (400 <=? code start)%Z "STOR failed" ;;
      let '(ok, bytes) := send_pieces (S (String.length content)) data.1 content "" in
      modify (fun c => set_uploaded (uploaded c ++ [bytes]) c) ;;
      reject_if (negb ok) ("upload send failed: " +:+ strerror) ;;
      done ← readReply ; requireCode done 226 "STOR completion"
  end.

Definition quit : M Client unit := r ← command "QUIT" ; mret ().

(** ** The command line *)

Definition help : string :=
  "Commands:" +:+ nl +:+
  "  ls [remote_dir]              list remote files" +:+ nl +:+
  "  get <remote_file> [local]    download file" +:+ nl +:+
  "  put <local_file> [remote]    upload file" +:+ nl +:+
  "  pwd                          show remote directory" +:+ nl +:+
  "  cd <remote_dir>              change remote directory" +:+ nl +:+
  "  quit                         exit" +:+ nl +:+
  "  help                         show this help" +:+ nl.

(** One line of the user: whether the client goes on. *)
Definition execute (args : list string) : M Client bool :=
  match args with
  | [] => mret true
  | cmd :: args =>
      if cmd =s? "ls" then listing ← list_files (default "" (head args)) ; print listing ;; mret true
      else if cmd =s? "get" then
        match args with
        | [] => print ("usage: get <remote_file> [local_file]" +:+ nl) ;; mret true
        | remote :: more =>
            let local := match more with local :: _ => local | [] => baseName remote end in
            download remote local ;; print ("downloaded to " +:+ local +:+ nl) ;; mret true
        end
      else if cmd =s? "put" then
        match args with
        | [] => print ("usage: put <local_file> [remote_file]" +:+ nl) ;; mret true
        | local :: more =>
            let remote := match more with remote :: _ => remote | [] => baseName local end in
            upload local remote ;; print ("uploaded as " +:+ remote +:+ nl) ;; mret true
        end
      else if cmd =s? "pwd" then r ← pwd ; print (r +:+ nl) ;; mret true
      else if cmd =s? "cd" then
        match args with
        | [] => print ("usage: cd <remote_dir>" +:+ nl) ;; mret true
        | path :: _ => cd path ;; mret true
        end
      else if (cmd =s? "quit") || (cmd =s? "exit") then quit ;; mret false
      else if cmd =s? "help" then print help ;; mret true
      else print ("unknown command: " +:+ cmd +:+ nl) ;; mret true
  end.

(** The lines of the user; an exception is shown and forgotten. *)
Fixpoint interact (lines : list string) (c : Client) : Client :=
  match lines with
  | [] => c
  | l :: rest =>
      match execute (splitWords l) (print "ftp> " c).2 with
      | (inl e, c) => interact rest (print ("command error: " +:+ e +:+ nl) c).2
      | (inr true, c) => interact rest c
      | (inr false, c) => c
      end
  end.

Definition main (host : string) (port : Z) (lines : list string) (c : Client) : Client :=
  match (connectToServer host ;; login "anonymous" "anonymous@" ;;
         print ("Connected to FTP server " +:+ host +:+ ":" +:+ to_string_signed port +:+ nl) ;; print help) c with
  | (inl e, c) => (print ("fatal: " +:+ e +:+ nl) c).2
  | (inr _, c) => interact lines c
  end.
End FtpClient.
