(* ===== verification/FtpExchange.v ===== *)
(** * The FTP client and the FTP server together

    What the one sends the other reads: the address of passive mode, and a whole
    upload. *)
From S2P Require Import Prelude Filesystem FtpServer FtpProps FtpClient.
Import Filesystem FtpServer FtpProps FtpClient.

Module FtpExchange.

(** ** Lines *)

(** No end of line inside, and not too long. *)
Definition one_line (s : string) : bool :=
  str_forall (fun c => negb (bool_decide (c = "010"%char)) && negb (bool_decide (c = "013"%char))) s && (strlen s <=? 8192)%Z.

Lemma recvLine_from line s rest :
  str_forall (fun c => negb (bool_decide (c = "010"%char)) && negb (bool_decide (c = "013"%char))) s = true ->
  (strlen line + strlen s <= 8192)%Z -> FtpServer.recvLine line (s +:+ crlf +:+ rest) = Some (line +:+ s, rest).
Proof.
  revert line. induction s as [|c s IH]; intros line Hs Hl.
  - rewrite str_app_nil_l, str_app_nil_r. unfold crlf, nl. rewrite !str_app_cons, str_app_nil_l. cbn [FtpServer.recvLine].
    rewrite bool_decide_eq_false_2 by done. rewrite bool_decide_eq_true_2 by done. 
    assert ((8192 <? strlen line)%Z = false) as -> by (apply Z.ltb_ge; unfold strlen in *; cbn [String.length] in Hl; lia). by rewrite bool_decide_eq_true_2.
  - cbn [str_forall] in Hs. apply andb_true_iff in Hs as [[H1 H2]%andb_true_iff Hs]. apply negb_true_iff in H1, H2.
    rewrite str_app_cons. cbn [FtpServer.recvLine]. rewrite H1, H2.
    assert (strlen (line +:+ String c "") = strlen line + 1)%Z as Hlen by (by rewrite strlen_app).
    assert (strlen (String c s) = 1 + strlen s)%Z as Hlen' by (unfold strlen; cbn [String.length]; lia).
    assert ((8192 <? strlen (line +:+ String c ""))%Z = false) as -> by (apply Z.ltb_ge; unfold strlen in *; lia).
    rewrite IH; [|done|lia]. by rewrite str_app_assoc.
Qed.
Lemma recvLine_line s rest : one_line s = true -> FtpServer.recvLine "" (s +:+ crlf +:+ rest) = Some (s, rest).
Proof. intros [H1 H2%Z.leb_le]%andb_true_iff. by apply recvLine_from. Qed.

(** ** The address of passive mode *)

Definition dotted (a b c d : Z) : string := to_string a +:+ "." +:+ to_string b +:+ "." +:+ to_string c +:+ "." +:+ to_string d.

Lemma read_int_word spaces n rest :
  str_forall isspace spaces = true -> (0 <= n < 2 ^ 31)%Z -> (forall c t, rest = String c t -> isdigit c = false) ->
  read_int (spaces +:+ to_string n +:+ rest) = Some (n, rest).
Proof.
  intros Hsp Hn Hr. destruct (to_string_spec n) as (Hne & Hd & Hv); [lia|]. unfold read_int.
  destruct (to_string n) as [|c s] eqn:Ht; [done|]. rewrite <- Ht in *.
  assert (isdigit c = true) as Hc by (rewrite Ht in Hd; cbn [str_forall] in Hd; by apply andb_true_iff in Hd as [? _]).
  assert (isspace c = false) as Hns by (apply isalnum_not_space; unfold isalnum; by rewrite Hc).
  destruct (take_while_run isspace spaces (to_string n +:+ rest) Hsp) as [_ ->].
  { intros c' t. rewrite Ht, str_app_cons. intros [= <- _]. done. }
  assert (sign_of (to_string n +:+ rest) = (false, to_string n +:+ rest)) as ->.
  { rewrite Ht, str_app_cons. unfold sign_of. by rewrite !bool_decide_eq_false_2 by (intros ->; by vm_compute in Hc). }
  destruct (take_while_run isdigit (to_string n) rest Hd Hr) as [-> ->]. rewrite Hv, (is_empty_false _ Hne). cbn [orb].
  destruct (n <? - 2 ^ 31)%Z eqn:E1; [lia|]. destruct (2 ^ 31 <=? n)%Z eqn:E2; [lia|]. done.
Qed.

Lemma digit_not p n : (0 <= n)%Z -> (forall c, isdigit c = true -> p c = true) -> str_forall p (to_string n) = true.
Proof. intros Hn Hp. destruct (to_string_spec n Hn) as (_ & Hd & _). by apply (str_forall_impl isdigit). Qed.

Lemma read_ints_words (l : list Z) spaces :
  str_forall isspace spaces = true -> Forall (fun n => 0 <= n < 2 ^ 31)%Z l ->
  read_ints (length l) (spaces +:+ String.concat " " (map to_string l)) = Some l.
Proof.
  revert spaces. induction l as [|n l IH]; intros spaces Hs Hl; [done|]. apply Forall_cons in Hl as [Hn Hl]. cbn [read_ints length map].
  destruct l as [|m l].
  - cbn [map String.concat]. rewrite <- (str_app_nil_r (to_string n)). by rewrite read_int_word.
  - change (String.concat " " (to_string n :: map to_string (m :: l))) with (to_string n +:+ " " +:+ String.concat " " (map to_string (m :: l))).
    rewrite read_int_word; [|done|done|]. 2: { intros c t. rewrite str_app_cons. by intros [= <- _]. }
    by rewrite (IH " ").
Qed.

Lemma str_map_app f s t : str_map f (s +:+ t) = str_map f s +:+ str_map f t.
Proof. induction s as [|c s IH]; [done|]. rewrite !str_app_cons. cbn [str_map]. by rewrite str_app_cons, IH. Qed.
Lemma str_map_digits f n : (0 <= n)%Z -> (forall c, isdigit c = true -> f c = c) -> str_map f (to_string n) = to_string n.
Proof.
  intros Hn Hf. destruct (to_string_spec n Hn) as (_ & Hd & _). revert Hd. induction (to_string n) as [|c s IH]; [done|].
  cbn [str_forall str_map]. intros [Hc Hd]%andb_true_iff. by rewrite Hf, IH.
Qed.

Definition six (sep : string) (a b c d p1 p2 : Z) : string :=
  to_string a +:+ sep +:+ to_string b +:+ sep +:+ to_string c +:+ sep +:+ to_string d +:+ sep +:+ to_string p1 +:+ sep +:+ to_string p2.

Lemma pasv_text_six a b c d port :
  (0 <= a)%Z -> (0 <= b)%Z -> (0 <= c)%Z -> (0 <= d)%Z -> (0 <= port)%Z ->
  pasv_text (dotted a b c d) port = "Entering Passive Mode (" +:+ six "," a b c d (port / 256) (port mod 256) +:+ ").".
Proof.
  intros. unfold pasv_text, dotted, six. set (f := fun x : ascii => _).
  assert (forall x, isdigit x = true -> f x = x) as Hf.
  { intros x Hx. unfold f. rewrite bool_decide_eq_false_2; [done|]. intros ->. by vm_compute in Hx. }
  rewrite !str_map_app, !str_map_digits by done. change (str_map f ".") with ",". by rewrite !str_app_assoc.
Qed.

Lemma six_inside a b c d p1 p2 :
  (0 <= a)%Z -> (0 <= b)%Z -> (0 <= c)%Z -> (0 <= d)%Z -> (0 <= p1)%Z -> (0 <= p2)%Z ->
  str_map (fun x => if bool_decide (x = ","%char) then " "%char else x) (six "," a b c d p1 p2) =
    String.concat " " (map to_string [a; b; c; d; p1; p2]).
Proof.
  intros. unfold six. set (f := fun x : ascii => _).
  assert (forall x, isdigit x = true -> f x = x) as Hf.
  { intros x Hx. unfold f. rewrite bool_decide_eq_false_2; [done|]. intros ->. by vm_compute in Hx. }
  rewrite !str_map_app, !str_map_digits by done. done.
Qed.

Lemma six_forall p a b c d p1 p2 :
  (0 <= a)%Z -> (0 <= b)%Z -> (0 <= c)%Z -> (0 <= d)%Z -> (0 <= p1)%Z -> (0 <= p2)%Z ->
  (forall x, isdigit x = true -> p x = true) -> p ","%char = true -> str_forall p (six "," a b c d p1 p2) = true.
Proof.
  intros Ha Hb Hc Hd H1 H2 Hp Hcomma. unfold six. rewrite !str_forall_app, !(digit_not p) by done. cbn [str_forall]. by rewrite Hcomma.
Qed.

(** The address that the client takes from the server's reply is the one the
    server listens on. *)
Lemma pasv_read host a b c d port :
  (0 <= a < 256)%Z -> (0 <= b < 256)%Z -> (0 <= c < 256)%Z -> (0 <= d < 256)%Z -> (0 <= port < 65536)%Z ->
  dotted a b c d <> "0.0.0.0" ->
  parse_pasv host ("227 " +:+ pasv_text (dotted a b c d) port) = inr (dotted a b c d, port).
Proof.
  intros Ha Hb Hc Hd Hp Hz. rewrite pasv_text_six by lia. set (p1 := (port / 256)%Z). set (p2 := (port mod 256)%Z).
  assert (0 <= p1 < 256)%Z as H1 by (unfold p1; split; [apply Z.div_pos; lia|apply Z.div_lt_upper_bound; lia]).
  assert (0 <= p2 < 256)%Z as H2 by (apply Z.mod_pos_bound; lia).
  assert (port = p1 * 256 + p2)%Z as Hport by (unfold p1, p2; rewrite Z.mul_comm; apply Z.div_mod; lia).
  clearbody p1 p2. subst port.
  set (inner := six "," a b c d p1 p2).
  assert ("227 " +:+ "Entering Passive Mode (" +:+ inner +:+ ")." = "227 Entering Passive Mode " +:+ String "(" (inner +:+ String ")" ".")) as -> by done.
  unfold parse_pasv. rewrite find_first_app; [|done|done].
  rewrite str_drop_app_length.
  assert (str_forall (fun x => negb (bool_decide (x = ")"%char))) inner = true) as Hin.
  { apply six_forall; try lia; [|done]. intros x Hx. apply negb_true_iff, bool_decide_eq_false. intros ->. by vm_compute in Hx. }
  change (String "(" (inner +:+ String ")" ".")) with (String "(" inner +:+ String ")" ".").
  rewrite find_first_app; [|by cbn [str_forall]; rewrite Hin|done]. cbn [String.length]. cbn [Nat.sub]. rewrite Nat.sub_0_r.
  change (str_drop 1 (String "(" inner +:+ String ")" ".")) with (inner +:+ String ")" "."). rewrite str_take_app_length.
  unfold inner. rewrite six_inside by lia.
  assert (read_ints 6 (String.concat " " (map to_string [a; b; c; d; p1; p2])) = Some [a; b; c; d; p1; p2]) as ->.
  { apply (read_ints_words [a; b; c; d; p1; p2] ""); [done|]. repeat (apply Forall_cons; split; [lia|]). constructor. }
  assert (forall n, (0 <= n)%Z -> to_string_signed n = to_string n) as Hs.
  { intros n Hn. unfold to_string_signed. by destruct (n <? 0)%Z eqn:E; [lia|]. }
  rewrite !Hs by lia. change (to_string a +:+ _) with (dotted a b c d).
  destruct (dotted a b c d =s? "0.0.0.0") eqn:E; [by apply String.eqb_eq in E|done].
Qed.

Lemma byte_text_length n : (0 <= n < 256)%Z -> (strlen (to_string n) <= 3)%Z.
Proof.
  intros Hn. assert (forallb (fun k => (strlen (to_string (Z.of_nat k)) <=? 3)%Z) (seq 0 256) = true) as Hall by (vm_compute; reflexivity).
  rewrite forallb_forall in Hall. specialize (Hall (Z.to_nat n)). rewrite Z2Nat.id in Hall by lia. apply Z.leb_le, Hall, in_seq. lia.
Qed.

Lemma pasv_one_line a b c d port :
  Forall (fun n => 0 <= n < 256)%Z [a; b; c; d] -> (0 <= port < 65536)%Z ->
  one_line (to_string 227 +:+ " " +:+ pasv_text (dotted a b c d) port) = true.
Proof.
  intros Hb Hp. repeat (apply Forall_cons in Hb as [? Hb]).
  assert (0 <= port / 256 < 256)%Z as Hp1 by (split; [apply Z.div_pos; lia|apply Z.div_lt_upper_bound; lia]).
  assert (0 <= port mod 256 < 256)%Z as Hp2 by (apply Z.mod_pos_bound; lia).
  rewrite pasv_text_six by lia. set (p1 := (port / 256)%Z) in *. set (p2 := (port mod 256)%Z) in *. clearbody p1 p2.
  unfold one_line. apply andb_true_iff. split.
  - rewrite !str_forall_app, six_forall; try lia; try done.
    intros x Hx. rewrite !bool_decide_eq_false_2; [done|..]; intros ->; by vm_compute in Hx.
  - apply Z.leb_le. unfold six. rewrite !strlen_app.
    pose proof (byte_text_length a). pose proof (byte_text_length b). pose proof (byte_text_length c). pose proof (byte_text_length d).
    pose proof (byte_text_length p1). pose proof (byte_text_length p2).
    change (strlen (to_string 227)) with 3%Z. change (strlen " ") with 1%Z. change (strlen ",") with 1%Z. change (strlen ").") with 2%Z.
    change (strlen "Entering Passive Mode (") with 23%Z. lia.
Qed.

(** ** The server's side *)

Lemma serve_pasv s port rest :
  loggedIn_ s = true -> ports s = (port, true) :: rest ->
  serve_line "PASV" s = (true, set_control (control s ++ [reply_text 227 (pasv_text (localIp s) port)])
    (set_pasvPort_ (Some port) (set_ports rest (set_pasvPort_ None s)))).
Proof.
  intros Hl Hp. unfold serve_line. change (trim "PASV") with "PASV". cbn [is_empty].
  change (parseCommand "PASV") with ("PASV", ""). cbn iota beta. change ("PASV" =s? "QUIT") with false. cbn iota.
  change (dispatch "PASV" "" s) with (handlePASV s). unfold handlePASV, mbind, M_bind, requireLogin, closePassive, modify, get.
  rewrite Hl. session_fields. rewrite Hp. reflexivity.
Qed.

(** A file name that fills a line. *)
Lemma trim_after (w name : string) :
  trim name = name -> name <> "" -> drop_while isspace (w +:+ name) = w +:+ name -> trim (w +:+ name) = w +:+ name.
Proof.
  intros Ht Hne Hw. unfold trim in *. rewrite Hw, drop_while_end_app.
  assert (str_forall isspace name = false) as ->.
  { destruct (str_forall isspace name) eqn:Hs; [|done]. rewrite (drop_while_all _ _ Hs) in Ht. by destruct Hne. }
  f_equal. rewrite <- Ht at 1. by rewrite drop_while_end_idem, Ht.
Qed.

Lemma serve_stor s name :
  trim name = name -> name <> "" -> (handleSTOR name s).1 = inr () ->
  serve_line ("STOR " +:+ name) s = (true, (handleSTOR name s).2).
Proof.
  intros Ht Hne Hok. unfold serve_line. rewrite trim_after; [|done|done|done].
  change (is_empty ("STOR " +:+ name)) with false. cbn iota.
  assert (parseCommand ("STOR " +:+ name) = ("STOR", name)) as ->.
  { unfold parseCommand. change ("STOR " +:+ name) with ("STOR" +:+ String " " name). rewrite find_first_app by done.
    rewrite str_take_app_length. change (str_drop (S (String.length "STOR")) ("STOR" +:+ String " " name)) with name. by rewrite Ht. }
  change ("STOR" =s? "QUIT") with false. cbn iota. change (dispatch "STOR" name s) with (handleSTOR name s).
  destruct (handleSTOR name s) as [[e|[]] s']; done.
Qed.

Lemma command_loop_line fuel cmd rest s s' :
  one_line cmd = true -> serve_line cmd s = (true, s') ->
  command_loop (S fuel) (cmd +:+ crlf +:+ rest) s = command_loop fuel rest s'.
Proof. intros Hc Hs. cbn [command_loop]. by rewrite (recvLine_line _ _ Hc), Hs. Qed.

(** ** The client's side *)

Lemma readReply_reads c code_ msg rest :
  one_line (to_string code_ +:+ " " +:+ msg) = true -> (100 <= code_ <= 999)%Z -> String.length (to_string code_) = 3 ->
  input c = reply_text code_ msg +:+ rest ->
  exists screen', readReply c = (inr (mkReply code_ (to_string code_ +:+ " " +:+ msg)), set_screen screen' (set_input rest c)).
Proof.
  intros Hl Hc Hlen Hin. unfold readReply, recvLine. rewrite Hin. unfold reply_text.
  rewrite <- !str_app_assoc, str_app_assoc, recvLine_line by (by rewrite str_app_assoc).
  rewrite str_app_assoc. rewrite <- Hlen, str_take_app_length.
  destruct (to_string_spec code_) as (_ & Hd & Hv); [lia|].
  assert ((strlen (to_string code_ +:+ " " +:+ msg) <? 3)%Z = false) as ->.
  { apply Z.ltb_ge. rewrite strlen_app. unfold strlen at 1. rewrite Hlen. unfold strlen. lia. }
  rewrite Hd, Hv. cbn [negb orb]. by eexists.
Qed.

(** A command whose answer is there. *)
Lemma command_answered c cmd code_ msg rest :
  control_ok c = [] -> one_line (to_string code_ +:+ " " +:+ msg) = true -> (100 <= code_ <= 999)%Z ->
  String.length (to_string code_) = 3 -> input c = reply_text code_ msg +:+ rest ->
  exists screen', command cmd c = (inr (mkReply code_ (to_string code_ +:+ " " +:+ msg)),
    set_screen screen' (set_input rest (set_sent (sent c ++ [cmd +:+ crlf]) c))).
Proof.
  intros Hok Hl Hc Hlen Hin. unfold command, mbind, M_bind, print, modify, send_control.
  cbn [control_ok set_screen]. rewrite Hok. cbn [tail].
  destruct (readReply_reads (set_sent (sent (set_screen (screen c +:+ "> " +:+ cmd +:+ nl) c) ++ [cmd +:+ crlf])
    (set_control_ok [] (set_screen (screen c +:+ "> " +:+ cmd +:+ nl) c))) code_ msg rest Hl Hc Hlen Hin) as [screen' ->].
  exists screen'. f_equal. destruct c; cbn in *. by subst.
Qed.

(** A connection that takes the bytes. *)
Definition takes (sends : list taking) : Prop := Took 0 ∉ sends /\ Broke ∉ sends.

Lemma sendAll_all sends bytes done_ :
  takes sends -> exists rest, FtpClient.sendAll sends bytes done_ = (true, done_ +:+ bytes, rest) /\ takes rest.
Proof.
  revert bytes done_. induction sends as [|o sends IH]; intros bytes done_ [H0 Hb]; cbn [FtpClient.sendAll];
    (destruct (is_empty bytes) eqn:He; [apply is_empty_true in He as ->; rewrite str_app_nil_r; by eexists|]); [by eexists|].
  apply not_elem_of_cons in H0 as [Ho H0]. apply not_elem_of_cons in Hb as [Hob Hb].
  destruct o as [[|n]| |]; try done; [|by apply IH].
  destruct (IH (str_drop (S n) bytes) (done_ +:+ str_take (S n) bytes)) as (rest & -> & Hr); [done|].
  exists rest. by rewrite str_app_assoc, str_take_drop.
Qed.

Lemma kPiece_positive : 0 < kPiece.
Proof. unfold kPiece. lia. Qed.
#[local] Opaque kPiece.

Lemma send_pieces_all fuel sends content done_ :
  takes sends -> String.length content < fuel -> send_pieces fuel sends content done_ = (true, done_ +:+ content).
Proof.
  revert sends content done_. induction fuel as [|fuel IH]; intros sends content done_ Ht Hf; [lia|]. cbn [send_pieces].
  destruct (is_empty content) eqn:He; [apply is_empty_true in He as ->; by rewrite str_app_nil_r|].
  destruct (sendAll_all sends (str_take kPiece content) done_ Ht) as (rest & -> & Hr). pose proof kPiece_positive as Hk.
  rewrite IH; [by rewrite str_app_assoc, str_take_drop|done|]. rewrite str_drop_length. destruct content; [done|]. cbn [String.length] in *. lia.
Qed.

Ltac client_fields :=
  cbn [set_serverHost_ set_input set_sent set_control_ok set_dials set_dialled set_uploaded set_files set_writable set_screen
    serverHost_ input sent control_ok dials dialled uploaded files writable screen fst snd].

(** ** An upload from end to end *)

(** What the client writes for an upload. *)
Definition put_bytes (remote : string) : string := "PASV" +:+ crlf +:+ ("STOR " +:+ remote) +:+ crlf.

(** The server's replies, and the file it has at the end. *)
Lemma server_put s dir remote old port rest sends recvs cs :
  ready s dir remote -> file_content (tree_ s) (dir ++ [remote]) = Some old -> restOffset_ s = 0%Z -> opens s = [] -> disk s = [] ->
  ports s = (port, true) :: rest -> connects s = Connected sends recvs :: cs -> (received recvs).2 = true ->
  one_line ("STOR " +:+ remote) = true ->
  exists perms, let s' := command_loop (S (String.length (put_bytes remote))) (put_bytes remote) s in
    tree_ s' !! (dir ++ [remote]) = Some (File perms (received recvs).1) /\
    control s' = control s ++ [reply_text 227 (pasv_text (localIp s) port);
      reply_text 150 "Opening BINARY mode data connection for upload."; reply_text 226 "Transfer complete."].
Proof.
  intros Hr Hf Hz Ho Hd Hp Hc Hrec Hone. pose proof Hr as [H1 H2 H3 H4 H5 H6 (E1 & E2 & E3)].
  pose proof (serve_pasv s port rest H1 Hp) as Hs1. set (s1 := set_control _ _) in Hs1.
  assert (ready s1 dir remote) as Hr1 by (split; done).
  destruct (stor_effect s1 dir remote old sends recvs cs port) as (perms & w & r & fine & F1 & F2 & F3 & F4 & F5 & _); try done.
  { change (restOffset_ s1) with (restOffset_ s). rewrite Hz. lia. }
  destruct (F2 Hd Hrec) as [-> ->]. rewrite str_app_nil_r in F1. change (restOffset_ s1) with (restOffset_ s) in F5. rewrite Hz in F5.
  assert (remote <> "") as Hne by (intros ->; done).
  assert (command_loop (S (String.length (put_bytes remote))) (put_bytes remote) s = (handleSTOR remote s1).2) as Hrun.
  { unfold put_bytes. set (n := String.length _). assert (exists m, n = S (S (S m))) as [m Hm].
    { eexists. unfold n, crlf, nl. rewrite !str_length_app. cbn [String.length]. reflexivity. }
    rewrite Hm, (command_loop_line _ "PASV" _ s s1) by done. rewrite <- (str_app_nil_r crlf) at 1.
    by rewrite (command_loop_line _ ("STOR " +:+ remote) "" s1 (handleSTOR remote s1).2); [|done|apply serve_stor]. }
  exists perms. cbv zeta. rewrite Hrun, F4, F5. split.
  - rewrite lookup_insert_eq, F1. f_equal. f_equal. apply (write_at_end "" w).
  - unfold s1. session_fields. by rewrite <- app_assoc.
Qed.

(** C25: when the client uploads a file to a server whose session is logged in,
    and the connections carry the bytes, then what the client writes are lines
    that the server understands; the address it dials is the one the server
    listens on; the client reports success, having read exactly the server's
    three replies; and the server's file holds the bytes of the client's. *)
Theorem ftp_put s c dir local remote content old port rest sends recvs cs csends crecvs ds a b g h more :
  ready s dir remote -> file_content (tree_ s) (dir ++ [remote]) = Some old -> restOffset_ s = 0%Z -> opens s = [] -> disk s = [] ->
  ports s = (port, true) :: rest -> (0 <= port < 65536)%Z -> connects s = Connected sends recvs :: cs -> received recvs = (content, true) ->
  localIp s = dotted a b g h -> Forall (fun n => 0 <= n < 256)%Z [a; b; g; h] -> dotted a b g h <> "0.0.0.0" ->
  one_line ("STOR " +:+ remote) = true ->
  files c !! local = Some content -> control_ok c = [] -> dials c = Dialled csends crecvs :: ds -> takes csends ->
  let s' := command_loop (S (String.length (put_bytes remote))) (put_bytes remote) s in
  input c = String.concat "" (skipn (length (control s)) (control s')) +:+ more ->
  (exists perms, tree_ s' !! (dir ++ [remote]) = Some (File perms content)) /\
  exists c', upload local remote c = (inr (), c') /\ input c' = more /\
    String.concat "" (skipn (length (sent c)) (sent c')) = put_bytes remote /\
    dialled c' = dialled c ++ [(localIp s, port)] /\ uploaded c' = uploaded c ++ [content].
Proof.
  intros Hr Hf Hz Ho Hd Hp Hport Hc Hrec Hip Hbytes Hnz Hone Hfile Hok Hdial Htake s' Hin.
  destruct (server_put s dir remote old port rest sends recvs cs) as (perms & Ht & Hctl); try done; [by rewrite Hrec|].
  fold s' in Ht, Hctl. split; [exists perms; by rewrite Ht, Hrec|].
  rewrite Hctl, skipn_app, skipn_all, Nat.sub_diag in Hin. cbn [app skipn String.concat] in Hin. rewrite !str_app_nil_l, !str_app_assoc in Hin.
  unfold upload. unfold mbind at 1, M_bind at 1, get. rewrite Hfile.
  repeat (apply Forall_cons in Hbytes as [? Hbytes]).
  set (m150 := "Opening BINARY mode data connection for upload.") in *. set (m226 := "Transfer complete.") in *.
  assert (one_line (to_string 227 +:+ " " +:+ pasv_text (localIp s) port) = true) as Hl1.
  { rewrite Hip. by apply pasv_one_line; [repeat constructor; lia|]. }
  destruct (command_answered c "PASV" 227 (pasv_text (localIp s) port) (reply_text 150 m150 +:+ reply_text 226 m226 +:+ more)
    Hok Hl1 ltac:(lia) eq_refl Hin) as [sc1 E1].
  unfold openPassiveDataConnection. unfold mbind, M_bind. rewrite E1. unfold requireCode. cbn [code line].
  change (reject_if (negb (227 =? 227)%Z) ?e) with (mret (M := M Client) ()). unfold mret, M_ret, get.
  change (to_string 227 +:+ " " +:+ pasv_text (localIp s) port) with ("227 " +:+ pasv_text (localIp s) port).
  rewrite Hip, pasv_read by (done || lia). unfold print, modify, connectTcp. client_fields. rewrite Hdial. client_fields.
  match goal with |- context[command ("STOR " +:+ remote) ?x] => set (c1 := x) end.
  destruct (command_answered c1 ("STOR " +:+ remote) 150 m150 (reply_text 226 m226 +:+ more)
    Hok eq_refl ltac:(lia) eq_refl eq_refl) as [sc2 E2]. rewrite E2. cbn [code].
  change (reject_if (400 <=? 150)%Z ?e) with (mret (M := M Client) ()). unfold mret, M_ret. cbn iota beta.
  rewrite (send_pieces_all _ csends content "" Htake) by lia. rewrite str_app_nil_l. client_fields. cbn [negb].
  change (reject_if false ?e) with (mret (M := M Client) ()). unfold mret, M_ret. cbn iota beta.
  match goal with |- context[readReply ?x] => set (c2 := x) end.
  destruct (readReply_reads c2 226 m226 more eq_refl ltac:(lia) eq_refl eq_refl) as [sc3 E3]. rewrite E3. cbn [code].
  change (reject_if (negb (226 =? 226)%Z) ?e) with (mret (M := M Client) ()). eexists. split; [reflexivity|].
  unfold c2, c1. client_fields. split_and!; [done| |done|done].
  rewrite <- app_assoc, skipn_app, skipn_all, Nat.sub_diag. cbn [app skipn String.concat]. unfold put_bytes.
  by rewrite !str_app_nil_l, !str_app_assoc.
Qed.
End FtpExchange.
