(* ===== verification/LocalStore.v ===== *)
(** * The client's database, [ChatRoom/src/sqlite_client.cpp]

    Five tables in a SQLite file: private and group messages, finished file
    transfers, uploads to resume and downloads to resume, each row belonging to
    a local account.  A table is a map from its primary key to its row; every
    statement takes the next entry of a schedule of failures and changes
    nothing when it fails.

    SQLite stores 64-bit signed integers, so an id is stored as [int64] of it;
    texts are bound with their length and read back as C strings. *)
From S2P Require Import Prelude.

Module LocalStore.

(** ** Rows *)

Record LocalPrivateMessage := mkLocalPrivateMessage {
  pm_id : Z; pm_account : string; pm_peer : string; pm_sender : string; pm_recipient : string;
  pm_content : string; pm_received_at : Z; pm_outgoing : bool; pm_offline : bool }.

Record LocalGroupMessage := mkLocalGroupMessage {
  gm_id : Z; gm_account : string; gm_group : string; gm_sender : string;
  gm_content : string; gm_received_at : Z; gm_outgoing : bool; gm_offline : bool }.

Record LocalFileTransfer := mkLocalFileTransfer {
  ft_id : Z; ft_account : string; ft_scope : string; ft_peer : string; ft_group : string; ft_sender : string;
  ft_file_name : string; ft_local_path : string; ft_file_size : Z; ft_sha256 : string;
  ft_received_at : Z; ft_outgoing : bool }.

Record LocalPendingUpload := mkLocalPendingUpload {
  pu_token : string; pu_account : string; pu_scope : string; pu_target : string; pu_source_path : string;
  pu_file_name : string; pu_file_size : Z; pu_sha256 : string; pu_created_at : Z }.

Record LocalPartialDownload := mkLocalPartialDownload {
  pd_id : Z; pd_account : string; pd_scope : string; pd_sender : string; pd_group : string;
  pd_file_name : string; pd_temp_path : string; pd_file_size : Z; pd_sha256 : string }.

Record LocalCacheStats := mkLocalCacheStats { n_private : nat; n_group : nat; n_files : nat }.

(** ** The database *)

(** A row by account and id, or by account and token. *)
Abbreviation by_id V := (gmap (string * Z) V).
Abbreviation by_token V := (gmap (string * string) V).

Record Tables := mkTables {
  private_messages : by_id LocalPrivateMessage;
  group_messages : by_id LocalGroupMessage;
  file_transfers : by_id LocalFileTransfer;
  pending_uploads : by_token LocalPendingUpload;
  partial_downloads : by_id LocalPartialDownload }.

Definition no_tables : Tables := mkTables ∅ ∅ ∅ ∅ ∅.

(** [opened] is whether [database_] is not null; [faults] are the outcomes of
    the coming statements, an error text for one that fails. *)
Record Store := mkStore { opened : bool; tables : Tables; faults : list (option string) }.

Definition set_private_messages (x : by_id LocalPrivateMessage) (t : Tables) : Tables :=
  mkTables x (group_messages t) (file_transfers t) (pending_uploads t) (partial_downloads t).
Definition set_group_messages (x : by_id LocalGroupMessage) (t : Tables) : Tables :=
  mkTables (private_messages t) x (file_transfers t) (pending_uploads t) (partial_downloads t).
Definition set_file_transfers (x : by_id LocalFileTransfer) (t : Tables) : Tables :=
  mkTables (private_messages t) (group_messages t) x (pending_uploads t) (partial_downloads t).
Definition set_pending_uploads (x : by_token LocalPendingUpload) (t : Tables) : Tables :=
  mkTables (private_messages t) (group_messages t) (file_transfers t) x (partial_downloads t).
Definition set_partial_downloads (x : by_id LocalPartialDownload) (t : Tables) : Tables :=
  mkTables (private_messages t) (group_messages t) (file_transfers t) (pending_uploads t) x.
Definition set_tables (x : Tables) (s : Store) : Store := mkStore (opened s) x (faults s).
Definition set_faults (x : list (option string)) (s : Store) : Store := mkStore (opened s) (tables s) x.

(** [static_cast<sqlite3_int64>] of an unsigned number. *)
Definition int64 (z : Z) : Z := let u := wrap 64 z in if (u <? 2 ^ 63)%Z then u else (u - 2 ^ 64)%Z.
(** [std::string(sqlite3_column_text(...))]: up to the first zero byte. *)
Definition c_str (s : string) : string := take_while (fun c => negb (in_range 0 0 c)) s.

(** Preparing, binding and stepping a statement. *)
Definition statement {A} (f : Tables -> A * Tables) : M Store A := fun s =>
  if negb (opened s) then (inl "SQLite database is null", s)
  else
    match faults s with
    | Some e :: rest => (inl e, set_faults rest s)
    | None :: rest => let r := f (tables s) in (inr r.1, set_tables r.2 (set_faults rest s))
    | [] => let r := f (tables s) in (inr r.1, set_tables r.2 s)
    end.
Definition execute (f : Tables -> Tables) : M Store unit := statement (fun t => (tt, f t)).
Definition query {A} (f : Tables -> A) : M Store A := statement (fun t => (f t, t)).

(** ** Messages *)

(** [INSERT ... ON CONFLICT DO UPDATE]: the earlier time of receipt and the
    offline mark stay. *)
Definition cache_private_message (message : LocalPrivateMessage) : M Store unit :=
  execute (fun t =>
    let key := (pm_account message, int64 (pm_id message)) in
    let row old :=
      mkLocalPrivateMessage (int64 (pm_id message)) (pm_account message) (pm_peer message) (pm_sender message)
        (pm_recipient message) (pm_content message)
        (from_option (fun o => Z.min (pm_received_at o) (pm_received_at message)) (pm_received_at message) old)
        (pm_outgoing message) (from_option (fun o => pm_offline o || pm_offline message) (pm_offline message) old) in
    set_private_messages (<[key := row (private_messages t !! key)]> (private_messages t)) t).

Definition cache_group_message (message : LocalGroupMessage) : M Store unit :=
  execute (fun t =>
    let key := (gm_account message, int64 (gm_id message)) in
    let row old :=
      mkLocalGroupMessage (int64 (gm_id message)) (gm_account message) (gm_group message) (gm_sender message)
        (gm_content message)
        (from_option (fun o => Z.min (gm_received_at o) (gm_received_at message)) (gm_received_at message) old)
        (gm_outgoing message) (from_option (fun o => gm_offline o || gm_offline message) (gm_offline message) old) in
    set_group_messages (<[key := row (group_messages t !! key)]> (group_messages t)) t).

(** [WHERE p ORDER BY id DESC LIMIT count], put in ascending order again. *)
Definition rows {K V} `{Countable K} (p : V -> bool) (m : gmap K V) : list V :=
  filter (fun v => p v = true) (map snd (map_to_list m)).
Definition newer {V} (id : V -> Z) (a b : V) : Prop := (id b <= id a)%Z.
#[export] Instance newer_dec {V} (id : V -> Z) a b : Decision (newer id a b).
Proof. unfold newer. apply _. Defined.
Definition newest_first {V} (id : V -> Z) : list V -> list V := merge_sort (newer id).
Definition limit {V} (count : Z) (l : list V) : list V :=
  if (int64 count <? 0)%Z then l else take (Z.to_nat (int64 count)) l.
Definition recent {V} (id : V -> Z) (p : V -> bool) (count : Z) (m : by_id V) : list V :=
  reverse (limit count (newest_first id (rows p m))).

(** What a row reads as. *)
Definition read_private (account : string) (m : LocalPrivateMessage) : LocalPrivateMessage :=
  mkLocalPrivateMessage (wrap 64 (pm_id m)) account (c_str (pm_peer m)) (c_str (pm_sender m))
    (c_str (pm_recipient m)) (c_str (pm_content m)) (pm_received_at m) (pm_outgoing m) (pm_offline m).
Definition read_group (account : string) (m : LocalGroupMessage) : LocalGroupMessage :=
  mkLocalGroupMessage (wrap 64 (gm_id m)) account (c_str (gm_group m)) (c_str (gm_sender m))
    (c_str (gm_content m)) (gm_received_at m) (gm_outgoing m) (gm_offline m).

Definition recent_private_messages (account_username peer_username : string) (count : Z) :
    M Store (list LocalPrivateMessage) :=
  query (fun t => map (read_private account_username)
    (recent pm_id (fun m => (pm_account m =s? account_username) && (pm_peer m =s? peer_username)) count
       (private_messages t))).

Definition recent_group_messages (account_username group_name : string) (count : Z) :
    M Store (list LocalGroupMessage) :=
  query (fun t => map (read_group account_username)
    (recent gm_id (fun m => (gm_account m =s? account_username) && (gm_group m =s? group_name)) count
       (group_messages t))).

(** ** Finished files *)

Definition cache_file_transfer (file : LocalFileTransfer) : M Store unit :=
  execute (fun t =>
    set_file_transfers (<[(ft_account file, int64 (ft_id file)) :=
      mkLocalFileTransfer (int64 (ft_id file)) (ft_account file) (ft_scope file) (ft_peer file) (ft_group file)
        (ft_sender file) (ft_file_name file) (ft_local_path file) (int64 (ft_file_size file)) (ft_sha256 file)
        (ft_received_at file) (ft_outgoing file)]> (file_transfers t)) t).

Definition read_file (account : string) (f : LocalFileTransfer) : LocalFileTransfer :=
  mkLocalFileTransfer (wrap 64 (ft_id f)) account (c_str (ft_scope f)) (c_str (ft_peer f)) (c_str (ft_group f))
    (c_str (ft_sender f)) (c_str (ft_file_name f)) (c_str (ft_local_path f)) (wrap 64 (ft_file_size f))
    (c_str (ft_sha256 f)) (ft_received_at f) (ft_outgoing f).

Definition recent_file_transfers (account_username : string) (count : Z) : M Store (list LocalFileTransfer) :=
  query (fun t => map (read_file account_username)
    (recent ft_id (fun f => ft_account f =s? account_username) count (file_transfers t))).

Definition recent_file_transfers_for_chat (account_username scope target : string) (count : Z) :
    M Store (list LocalFileTransfer) :=
  if scope =s? "PRIVATE" then
    query (fun t => map (read_file account_username)
      (recent ft_id (fun f => (ft_account f =s? account_username) && (ft_scope f =s? "PRIVATE") && (ft_peer f =s? target))
         count (file_transfers t)))
  else if scope =s? "GROUP" then
    query (fun t => map (read_file account_username)
      (recent ft_id (fun f => (ft_account f =s? account_username) && (ft_scope f =s? "GROUP") && (ft_group f =s? target))
         count (file_transfers t)))
  else fail "文件历史记录的会话类型无效".

(** ** Uploads to resume *)

Definition save_pending_upload (upload : LocalPendingUpload) : M Store unit :=
  execute (fun t =>
    set_pending_uploads (<[(pu_account upload, pu_token upload) :=
      mkLocalPendingUpload (pu_token upload) (pu_account upload) (pu_scope upload) (pu_target upload)
        (pu_source_path upload) (pu_file_name upload) (int64 (pu_file_size upload)) (pu_sha256 upload)
        (pu_created_at upload)]> (pending_uploads t)) t).

Definition read_upload (account : string) (u : LocalPendingUpload) : LocalPendingUpload :=
  mkLocalPendingUpload (c_str (pu_token u)) account (c_str (pu_scope u)) (c_str (pu_target u))
    (c_str (pu_source_path u)) (c_str (pu_file_name u)) (wrap 64 (pu_file_size u)) (c_str (pu_sha256 u))
    (pu_created_at u).

(** [ORDER BY created_at_unix_ms, transfer_token] *)
Definition upload_before (u v : LocalPendingUpload) : Prop :=
  (pu_created_at u < pu_created_at v)%Z \/
  (pu_created_at u = pu_created_at v /\ String.leb (pu_token u) (pu_token v) = true).
#[export] Instance upload_before_dec u v : Decision (upload_before u v).
Proof. unfold upload_before. apply _. Defined.

Definition list_pending_uploads (account_username : string) : M Store (list LocalPendingUpload) :=
  query (fun t => map (read_upload account_username)
    (merge_sort upload_before (rows (fun u => pu_account u =s? account_username) (pending_uploads t)))).

Definition remove_pending_upload (account_username transfer_token : string) : M Store unit :=
  execute (fun t => set_pending_uploads (delete (account_username, transfer_token) (pending_uploads t)) t).

(** ** Downloads to resume *)

Definition save_partial_download (download : LocalPartialDownload) : M Store unit :=
  execute (fun t =>
    set_partial_downloads (<[(pd_account download, int64 (pd_id download)) :=
      mkLocalPartialDownload (int64 (pd_id download)) (pd_account download) (pd_scope download) (pd_sender download)
        (pd_group download) (pd_file_name download) (pd_temp_path download) (int64 (pd_file_size download))
        (pd_sha256 download)]> (partial_downloads t)) t).

Definition read_partial (account : string) (transfer_id : Z) (d : LocalPartialDownload) : LocalPartialDownload :=
  mkLocalPartialDownload transfer_id account (c_str (pd_scope d)) (c_str (pd_sender d)) (c_str (pd_group d))
    (c_str (pd_file_name d)) (c_str (pd_temp_path d)) (wrap 64 (pd_file_size d)) (c_str (pd_sha256 d)).

Definition get_partial_download (account_username : string) (transfer_id : Z) :
    M Store (option LocalPartialDownload) :=
  query (fun t => read_partial account_username transfer_id <$>
    partial_downloads t !! (account_username, int64 transfer_id)).

Definition remove_partial_download (account_username : string) (transfer_id : Z) : M Store unit :=
  execute (fun t => set_partial_downloads (delete (account_username, int64 transfer_id) (partial_downloads t)) t).

(** ** An account *)

Definition without_account {K V} `{Countable K} (account : string) (m : gmap (string * K) V) : gmap (string * K) V :=
  filter (fun kv => kv.1.1 <> account) m.

(** [DELETE FROM table WHERE account_username=?], table by table. *)
Definition deletions (account : string) : list (Tables -> Tables) :=
  [fun t => set_private_messages (without_account account (private_messages t)) t;
   fun t => set_group_messages (without_account account (group_messages t)) t;
   fun t => set_file_transfers (without_account account (file_transfers t)) t;
   fun t => set_pending_uploads (without_account account (pending_uploads t)) t;
   fun t => set_partial_downloads (without_account account (partial_downloads t)) t].

Fixpoint delete_all (l : list (Tables -> Tables)) : M Store unit :=
  match l with
  | [] => mret tt
  | f :: rest => execute f ;; delete_all rest
  end.

(** [ROLLBACK], whose own failure is ignored: the engine takes the changes back
    in either case. *)
Definition rollback (old : Tables) (s : Store) : Store := set_tables old (match faults s with
  | _ :: rest => set_faults rest s
  | [] => s
  end).

(** An error of a deletion or of [COMMIT] rolls the transaction back. *)
Definition or_rollback {A} (old : Tables) (m : M Store A) : M Store A := fun s =>
  match m s with
  | (inl e, s') => (inl e, rollback old s')
  | r => r
  end.

Definition clear_account_data (account_username : string) : M Store unit :=
  s ← get;
  reject_if (negb (opened s)) "SQLite 数据库尚未打开" ;;
  execute (fun t => t) ;;                                             (* BEGIN IMMEDIATE *)
  or_rollback (tables s) (delete_all (deletions account_username) ;; execute (fun t => t)).   (* COMMIT *)

Definition count_account {V} (account : string) (m : by_id V) : nat :=
  size (filter (fun kv => kv.1.1 = account) m).

Definition stats (account_username : string) : M Store LocalCacheStats :=
  query (fun t => mkLocalCacheStats (count_account account_username (private_messages t))
    (count_account account_username (group_messages t)) (count_account account_username (file_transfers t))).

(** ** Histories of calls *)

Inductive call :=
| CachePrivate (m : LocalPrivateMessage)
| CacheGroup (m : LocalGroupMessage)
| CacheFile (f : LocalFileTransfer)
| SaveUpload (u : LocalPendingUpload)
| RemoveUpload (account token : string)
| SavePartial (d : LocalPartialDownload)
| RemovePartial (account : string) (id : Z)
| ClearAccount (account : string).

Definition run_call (c : call) : M Store unit :=
  match c with
  | CachePrivate m => cache_private_message m
  | CacheGroup m => cache_group_message m
  | CacheFile f => cache_file_transfer f
  | SaveUpload u => save_pending_upload u
  | RemoveUpload a t => remove_pending_upload a t
  | SavePartial d => save_partial_download d
  | RemovePartial a i => remove_partial_download a i
  | ClearAccount a => clear_account_data a
  end.

Definition run_calls (l : list call) (s : Store) : Store := foldl (fun s c => (run_call c s).2) s l.

(** ** Invariants *)

(** Every statement leaves the tables as they were, or does its work. *)
Lemma statement_cases {A} (f : Tables -> A * Tables) s :
  opened (statement f s).2 = opened s /\
  ((exists e, (statement f s).1 = inl e /\ tables (statement f s).2 = tables s) \/
   ((statement f s).1 = inr (f (tables s)).1 /\ tables (statement f s).2 = (f (tables s)).2)).
Proof.
  unfold statement. destruct (negb (opened s)); [by eauto|]. destruct (faults s) as [|[e|] rest]; simpl; eauto.
Qed.

Lemma execute_preserves (I : Tables -> Prop) f :
  (forall t, I t -> I (f t)) -> preserves (fun s => I (tables s)) (execute f).
Proof.
  intros Hf s Hs. unfold execute. destruct (statement_cases (fun t => (tt, f t)) s) as [_ [(e & _ & E)|[_ E]]];
    rewrite E; [done|by apply Hf].
Qed.



(** The whole of a transaction works, or the tables are as they were. *)
Lemma delete_all_cases l s :
  opened (delete_all l s).2 = opened s /\
  ((delete_all l s).1 = inr tt -> tables (delete_all l s).2 = foldl (fun t f => f t) (tables s) l).
Proof.
  revert s. induction l as [|f l IH]; intros s; [done|]. cbn [delete_all foldl]. unfold mbind, M_bind, execute.
  destruct (statement_cases (fun t => (tt, f t)) s) as [Ho Hc]. destruct (statement _ s) as [r s1]. simpl in *.
  destruct Hc as [(e & -> & E)|[-> E]]; simpl; [done|]. destruct (IH s1) as [Ho1 E1].
  split; [congruence|]. intros Hr. by rewrite E1, E.
Qed.

Definition cleared (account : string) (t : Tables) : Tables :=
  mkTables (without_account account (private_messages t)) (without_account account (group_messages t))
    (without_account account (file_transfers t)) (without_account account (pending_uploads t))
    (without_account account (partial_downloads t)).

Lemma clear_cases account s :
  ((clear_account_data account s).1 = inr tt /\
   tables (clear_account_data account s).2 = cleared account (tables s)) \/
  (exists e, (clear_account_data account s).1 = inl e /\ tables (clear_account_data account s).2 = tables s).
Proof.
  unfold clear_account_data, mbind, M_bind. cbn [get]. unfold reject_if.
  destruct (negb (opened s)); [right; by eexists|]. cbn [mret M_ret].
  unfold execute. destruct (statement_cases (fun t => (tt, t)) s) as [_ Hb].
  destruct (statement (fun t => (tt, t)) s) as [r0 s0]. simpl in Hb.
  assert (tables s0 = tables s) as E0 by (by destruct Hb as [(e & _ & E)|[_ E]]).
  destruct r0 as [e|[]]; [right; by exists e|]. unfold or_rollback.
  destruct (delete_all_cases (deletions account) s0) as [_ Hd].
  destruct (delete_all (deletions account) s0) as [[e|[]] s1]; cbn [fst snd] in *.
  { right. exists e. split; [done|]. unfold rollback. by destruct (faults s1). }
  destruct (statement_cases (fun t => (tt, t)) s1) as [_ Hc].
  destruct (statement (fun t => (tt, t)) s1) as [r2 s2]. simpl in Hc.
  destruct Hc as [(e & -> & E)|[-> E]]; cbn [fst snd].
  - right. exists e. split; [done|]. unfold rollback. by destruct (faults s2).
  - left. split; [done|]. rewrite E, (Hd eq_refl), E0. done.
Qed.

(** A row is stored under its own account and id. *)
Definition keyed {V} (account : V -> string) (id : V -> Z) (m : by_id V) : Prop :=
  forall k v, m !! k = Some v -> k = (account v, id v).
Record tables_ok (t : Tables) : Prop := mkTablesOk {
  ok_private : keyed pm_account pm_id (private_messages t);
  ok_group : keyed gm_account gm_id (group_messages t);
  ok_files : keyed ft_account ft_id (file_transfers t) }.

Lemma keyed_insert {V} (account : V -> string) (id : V -> Z) (m : by_id V) (v : V) :
  keyed account id m -> keyed account id (<[(account v, id v) := v]> m).
Proof.
  intros Hm k w. destruct (decide (k = (account v, id v))) as [->|Hne].
  - rewrite lookup_insert_eq. by intros [= ->].
  - rewrite lookup_insert_ne by done. apply Hm.
Qed.
Lemma keyed_without {V} (account : V -> string) (id : V -> Z) (a : string) (m : by_id V) : keyed account id m -> keyed account id (without_account a m).
Proof. intros Hm k v [Hk _]%map_lookup_filter_Some. by apply Hm. Qed.

Lemma store_call_ok c s : tables_ok (tables s) -> tables_ok (tables (run_call c s).2).
Proof.
  intros Hs. destruct c; cbn [run_call];
    try (apply (execute_preserves tables_ok); [|exact Hs]; intros t [H1 H2 H3]; split; simpl; try done).
  - apply (keyed_insert pm_account pm_id _ (mkLocalPrivateMessage _ _ _ _ _ _ _ _ _)), H1.
  - apply (keyed_insert gm_account gm_id _ (mkLocalGroupMessage _ _ _ _ _ _ _ _)), H2.
  - apply (keyed_insert ft_account ft_id _ (mkLocalFileTransfer _ _ _ _ _ _ _ _ _ _ _ _)), H3.
  - destruct (clear_cases account s) as [[_ E]|(e & _ & E)]; rewrite E; [|done].
    destruct Hs as [H1 H2 H3]. by split; apply keyed_without.
Qed.

Lemma store_calls_ok l s : tables_ok (tables s) -> tables_ok (tables (run_calls l s)).
Proof. revert s. induction l as [|c l IH]; intros s Hs; [done|]. by apply IH, store_call_ok. Qed.

Lemma no_tables_ok : tables_ok no_tables.
Proof. split; intros k v; simpl; by rewrite lookup_empty. Qed.

(** ** Selections *)

Lemma rows_spec {V} (p : V -> bool) (m : by_id V) v :
  v ∈ rows p m <-> p v = true /\ exists k, m !! k = Some v.
Proof.
  unfold rows. rewrite list_elem_of_filter, list_elem_of_fmap. split.
  - intros (Hp & [k w] & -> & Hk). split; [done|]. exists k. by apply elem_of_map_to_list.
  - intros (Hp & k & Hk). split; [done|]. exists (k, v). split; [done|]. by apply elem_of_map_to_list.
Qed.

Lemma rows_nodup {V} (account : V -> string) (id : V -> Z) (p : V -> bool) (a : string) (m : by_id V) :
  keyed account id m -> (forall v, p v = true -> account v = a) -> NoDup (map id (rows p m)).
Proof.
  intros Hm Hp. apply NoDup_fmap_2_strong.
  - intros v w [Hv [k Hk]]%rows_spec [Hw [l Hl]]%rows_spec E.
    apply Hm in Hk as Ek. apply Hm in Hl as El. subst k l. rewrite Hp, E in Hk by done. rewrite Hp in Hl by done. congruence.
  - apply NoDup_filter. pose proof (NoDup_map_to_list m) as Hn.
    assert (forall l : list (string * Z * V), NoDup l -> (forall x y, x ∈ l -> y ∈ l -> x.2 = y.2 -> x = y) -> NoDup (map snd l)) as Hg.
    { intros l Hl Hi. apply NoDup_fmap_2_strong; [|done]. intros x y Hx Hy E. by apply Hi. }
    apply Hg; [done|]. intros [k v] [l w] Hk%elem_of_map_to_list Hl%elem_of_map_to_list. simpl. intros <-.
    apply Hm in Hk as ->. by apply Hm in Hl as ->.
Qed.

#[export] Instance newer_total {V} (id : V -> Z) : Total (newer id).
Proof. intros a b. unfold newer. lia. Qed.
#[export] Instance newer_trans {V} (id : V -> Z) : Transitive (newer id).
Proof. intros a b c. unfold newer. lia. Qed.

(** What a query for the recent rows of a conversation returns: the newest ones,
    in the order of their ids. *)
Record newest {V} (id : V -> Z) (p : V -> bool) (n : nat) (m : by_id V) (l : list V) : Prop := mkNewest {
  nw_order : StronglySorted (fun a b => (id a < id b)%Z) l;
  nw_from : forall v, v ∈ l -> p v = true /\ exists k, m !! k = Some v;
  nw_length : length l <= n;
  nw_rest : forall k v, m !! k = Some v -> p v = true -> v ∈ l \/ (length l = n /\ forall w, w ∈ l -> (id v < id w)%Z) }.

Lemma sorted_strict {V} (id : V -> Z) l :
  StronglySorted (newer id) l -> NoDup (map id l) -> StronglySorted (fun a b => (id b < id a)%Z) l.
Proof.
  induction l as [|v l IH]; intros Hs Hn; [constructor|]. simpl in Hn.
  apply StronglySorted_inv in Hs as [Hs Hf]. inversion Hn as [|? ? Hv Hn']; subst. constructor; [by apply IH|].
  rewrite Forall_forall in *. intros w Hw. specialize (Hf w Hw). unfold newer in Hf.
  assert (id w <> id v); [|lia]. intros E. apply Hv. rewrite <- E. by apply (list_elem_of_fmap_2 id).
Qed.

Lemma sorted_reverse {V} (R : V -> V -> Prop) l : StronglySorted R l -> StronglySorted (flip R) (reverse l).
Proof.
  induction l as [|v l IH]; intros Hs; [constructor|]. apply StronglySorted_inv in Hs as [Hs Hf].
  rewrite reverse_cons. apply StronglySorted_app_2; [|by apply IH|by repeat constructor].
  intros a b Ha Hb%list_elem_of_singleton. subst b. rewrite elem_of_reverse in Ha. rewrite Forall_forall in Hf. exact (Hf a Ha).
Qed.

Lemma newest_first_elem {V} (id : V -> Z) l v : v ∈ newest_first id l <-> v ∈ l.
Proof. unfold newest_first. by rewrite merge_sort_Permutation. Qed.

Lemma newest_first_strict {V} (id : V -> Z) l :
  NoDup (map id l) -> StronglySorted (fun a b => (id b < id a)%Z) (newest_first id l).
Proof.
  intros Hn. unfold newest_first. apply sorted_strict; [apply StronglySorted_merge_sort; apply _|].
  by rewrite merge_sort_Permutation.
Qed.

(** The query for the recent rows of an account. *)
Lemma recent_newest {V} (account : V -> string) (id : V -> Z) (p : V -> bool) (a : string) (count : Z) (m : by_id V) :
  keyed account id m -> (forall v, p v = true -> account v = a) -> (0 <= count < 2 ^ 63)%Z ->
  newest id p (Z.to_nat count) m (recent id p count m).
Proof.
  intros Hm Hp Hc. unfold recent, limit.
  assert (int64 count = count) as ->.
  { unfold int64, wrap. rewrite Z.mod_small by lia. by destruct (Z.ltb_spec count (2 ^ 63)); [|lia]. }
  destruct (Z.ltb_spec count 0) as [|_]; [lia|]. set (n := Z.to_nat count). set (l := newest_first id (rows p m)).
  pose proof (newest_first_strict id _ (rows_nodup account id p a m Hm Hp)) as Hs. fold l in Hs.
  rewrite <- (take_drop n l) in Hs. split.
  - apply (sorted_reverse (fun a b => (id b < id a)%Z)). by eapply StronglySorted_app_1_l.
  - intros v Hv. rewrite elem_of_reverse, elem_of_take in Hv. destruct Hv as (i & Hi & _).
    apply rows_spec, (newest_first_elem id). by eapply list_elem_of_lookup_2.
  - rewrite length_reverse, length_take. lia.
  - intros k v Hk Hv. assert (v ∈ l) as Hin.
    { apply newest_first_elem, rows_spec. eauto. }
    rewrite <- (take_drop n l) in Hin. apply elem_of_app in Hin as [Hin|Hin]; [left; by rewrite elem_of_reverse|right].
    split.
    + rewrite length_reverse, length_take. assert (n < length l); [|lia].
      destruct (drop n l) eqn:E; [by apply elem_of_nil in Hin|]. apply (f_equal length) in E.
      rewrite length_drop in E. simpl in E. lia.
    + intros w Hw. rewrite elem_of_reverse in Hw. eapply (StronglySorted_app_1_elem_of _ _ _ w v Hs); done.
Qed.

(** C39: the local history.  After any history of calls on the client's database,
    whatever fails, a query for the recent messages with a peer that succeeds
    returns the newest rows of that account and peer, at most as many as asked
    for and in the order of their ids: a row of the conversation that is left
    out is older than every row returned, and the list is full. *)
Theorem local_history calls fs account peer count messages s' :
  (0 <= count < 2 ^ 63)%Z ->
  let s := run_calls calls (mkStore true no_tables fs) in
  recent_private_messages account peer count s = (inr messages, s') ->
  exists l, messages = map (read_private account) l /\
    newest pm_id (fun m => (pm_account m =s? account) && (pm_peer m =s? peer)) (Z.to_nat count)
      (private_messages (tables s)) l.
Proof.
  intros Hc s Hq. pose proof (store_calls_ok calls (mkStore true no_tables fs) no_tables_ok) as Hs. fold s in Hs.
  unfold recent_private_messages, query in Hq.
  destruct (statement_cases (fun t => (map (read_private account) (recent pm_id
    (fun m => (pm_account m =s? account) && (pm_peer m =s? peer)) count (private_messages t)), t)) s)
    as [_ [(e & E & _)|[E _]]]; rewrite Hq in E; simpl in E; [done|]. injection E as ->.
  eexists. split; [done|]. apply (recent_newest pm_account pm_id _ account); [apply Hs| |done].
  intros v Hv. apply andb_true_iff in Hv as [Hv _]. by apply String.eqb_eq.
Qed.

End LocalStore.
