(* ===== verification/ClientTransport.v ===== *)
(** * The client's side of the connection, [ChatRoom/src/client/tls_client_transport.cpp]

    A queue of texts in front of a non-blocking TLS socket: [queue_send] puts a
    text into the queue and writes as much as the socket takes, [send] waits
    until everything is written, [send_file] writes a piece of a file after the
    queue.  OpenSSL and [poll] are schedules of outcomes; when the schedule of
    writes is used up the socket is full, when that of waits is, a wait times
    out.  Connecting and the handshake are not modelled: the transport is as
    [connect] leaves it. *)
From S2P Require Import Prelude.

Module ClientTransport.

Inductive QueuedWriteWait := WaitNone | WaitRead | WaitWrite.
#[export] Instance QueuedWriteWait_eq_dec : EqDecision QueuedWriteWait.
Proof. solve_decision. Defined.

(** What [SSL_write] and [SSL_sendfile] report, what [poll] reports, and what
    [SSL_read] reports; a text is [openssl_error_text] or [strerror]. *)
Inductive write_outcome := Took (n : nat) | WantWrite | WantRead | Interrupted | Broken (error : string).
Inductive poll_outcome := Ready | SocketError | TimedOut | PollInterrupted | PollFailed (error : string).
Inductive read_outcome := Got (bytes : string) | ReadRetry | ReadClosed | ReadBroken (error : string).

Record Transport := mkTransport {
  connected_ : bool;
  output_queue_ : list string;
  output_offset_ : nat;
  queued_output_bytes_ : Z;
  queued_write_wait_ : QueuedWriteWait;
  zero_copy : bool;
  wire : string;                  (* the bytes OpenSSL has taken *)
  writes : list write_outcome;
  polls : list poll_outcome;
  reads : list read_outcome }.

Definition set_connected_ (x : bool) (t : Transport) : Transport :=
  mkTransport x (output_queue_ t) (output_offset_ t) (queued_output_bytes_ t) (queued_write_wait_ t) (zero_copy t)
    (wire t) (writes t) (polls t) (reads t).
Definition set_queue (q : list string) (offset : nat) (bytes : Z) (t : Transport) : Transport :=
  mkTransport (connected_ t) q offset bytes (queued_write_wait_ t) (zero_copy t) (wire t) (writes t) (polls t) (reads t).
Definition set_wait (x : QueuedWriteWait) (t : Transport) : Transport :=
  mkTransport (connected_ t) (output_queue_ t) (output_offset_ t) (queued_output_bytes_ t) x (zero_copy t)
    (wire t) (writes t) (polls t) (reads t).
Definition set_wire (x : string) (t : Transport) : Transport :=
  mkTransport (connected_ t) (output_queue_ t) (output_offset_ t) (queued_output_bytes_ t) (queued_write_wait_ t)
    (zero_copy t) x (writes t) (polls t) (reads t).
Definition set_writes (x : list write_outcome) (t : Transport) : Transport :=
  mkTransport (connected_ t) (output_queue_ t) (output_offset_ t) (queued_output_bytes_ t) (queued_write_wait_ t)
    (zero_copy t) (wire t) x (polls t) (reads t).
Definition set_polls (x : list poll_outcome) (t : Transport) : Transport :=
  mkTransport (connected_ t) (output_queue_ t) (output_offset_ t) (queued_output_bytes_ t) (queued_write_wait_ t)
    (zero_copy t) (wire t) (writes t) x (reads t).
Definition set_reads (x : list read_outcome) (t : Transport) : Transport :=
  mkTransport (connected_ t) (output_queue_ t) (output_offset_ t) (queued_output_bytes_ t) (queued_write_wait_ t)
    (zero_copy t) (wire t) (writes t) (polls t) x.

Definition kMaxQueuedTextBytes : Z := 8 * 1024 * 1024.
Definition kQueuedFlushBudgetBytes : Z := 256 * 1024.
Definition INT_MAX : Z := 2 ^ 31 - 1.

Definition not_connected : string := "TLS 传输尚未连接".

(** The next outcome of a writing call. *)
Definition next_write : M Transport write_outcome := fun t =>
  match writes t with
  | [] => (inr WantWrite, t)
  | o :: rest => (inr o, set_writes rest t)
  end.

(** ** The queue *)

Definition enqueue_output (data : string) : M Transport unit :=
  t ← get;
  reject_if (negb (connected_ t)) not_connected ;;
  if is_empty data then mret tt
  else
    reject_if (kMaxQueuedTextBytes <? queued_output_bytes_ t + strlen data)%Z
      "聊天发送队列已超过 8 MiB，请等待网络发送完成后再继续" ;;
    modify (fun t => set_queue (output_queue_ t ++ [data]) (output_offset_ t) (queued_output_bytes_ t + strlen data) t).

(** OpenSSL takes [count] bytes of the front of the queue. *)
Definition take_front (front : string) (rest : list string) (count : nat) (t : Transport) : Transport :=
  let offset := output_offset_ t + count in
  let t := set_wire (wire t +:+ substr (output_offset_ t) count front) t in
  let t := if offset =? String.length front
           then set_queue rest 0 (queued_output_bytes_ t - Z.of_nat count) t
           else set_queue (front :: rest) offset (queued_output_bytes_ t - Z.of_nat count) t in
  set_wait WaitNone t.

(** The loop of [flush_queued]: [false] when the function returned from it. *)
Fixpoint flush_loop (fuel : nat) (budget : Z) : M Transport bool :=
  match fuel with
  | 0 => mret false
  | S fuel =>
      t ← get;
      match output_queue_ t with
      | [] => mret true
      | front :: rest =>
          if (budget <=? 0)%Z then mret true
          else
            let remaining := Z.of_nat (String.length front - output_offset_ t) in
            let request := Z.min remaining (Z.min budget INT_MAX) in
            o ← next_write;
            match o with
            | Took n =>
                let count := Z.min (Z.of_nat n) request in
                if (count <=? 0)%Z then modify (set_connected_ false) ;; fail "SSL_write"
                else
                  modify (take_front front rest (Z.to_nat count)) ;;
                  flush_loop fuel (budget - Z.min budget count)
            | WantWrite => modify (set_wait WaitWrite) ;; mret false
            | WantRead => modify (set_wait WaitRead) ;; mret false
            | Interrupted => flush_loop fuel budget
            | Broken e => modify (set_connected_ false) ;; fail e
            end
      end
  end.

Definition flush_queued : M Transport unit :=
  t ← get;
  reject_if (negb (connected_ t)) not_connected ;;
  whole ← flush_loop (S (length (writes t))) kQueuedFlushBudgetBytes;
  if whole : bool
  then modify (fun t =>
    match output_queue_ t with
    | [] => set_wait WaitNone (set_queue [] 0 (queued_output_bytes_ t) t)
    | _ => if decide (queued_write_wait_ t = WaitNone) then set_wait WaitWrite t else t
    end)
  else mret tt.

Definition queue_send (data : string) : M Transport unit := enqueue_output data ;; flush_queued.

Definition has_pending_output (t : Transport) : bool := negb (bool_decide (output_queue_ t = [])).
Definition wants_write_event (t : Transport) : bool :=
  has_pending_output t && negb (bool_decide (queued_write_wait_ t = WaitRead)).

(** ** Waiting *)

Fixpoint poll_loop (l : list poll_outcome) : (string + unit) * list poll_outcome :=
  match l with
  | [] => (inl "TLS 发送等待 socket 就绪超时", [])
  | Ready :: rest => (inr tt, rest)
  | SocketError :: rest => (inl "TLS socket 在等待发送时发生连接错误", rest)
  | TimedOut :: rest => (inl "TLS 发送等待 socket 就绪超时", rest)
  | PollInterrupted :: rest => poll_loop rest
  | PollFailed e :: rest => (inl ("poll 等待 TLS socket 失败：" +:+ e), rest)
  end.

Definition wait_for_socket : M Transport unit := fun t =>
  let r := poll_loop (polls t) in (r.1, set_polls r.2 t).

Fixpoint blocking_loop (fuel : nat) : M Transport unit :=
  match fuel with
  | 0 => mret tt
  | S fuel =>
      t ← get;
      if negb (has_pending_output t) then mret tt
      else
        flush_queued ;;
        t ← get;
        if negb (has_pending_output t) then mret tt
        else wait_for_socket ;; blocking_loop fuel
  end.

Definition flush_queued_blocking : M Transport unit := fun t => blocking_loop (S (length (polls t))) t.

Definition send (data : string) : M Transport unit := enqueue_output data ;; flush_queued_blocking.

(** ** Files

    [content] is what the file holds from [offset] on, at most [byte_count]
    bytes of it: less when it has become shorter. *)

Definition put (bytes : string) (t : Transport) : Transport := set_wire (wire t +:+ bytes) t.

Definition kSendfileRequest : Z := 1024 * 1024 * 1024.
Definition kFileBuffer : nat := Z.to_nat (256 * 1024).

(** The loop over [SSL_sendfile]: [content] and [missing] are what is left. *)
Fixpoint sendfile_loop (fuel : nat) (content : string) (missing : Z) : M Transport unit :=
  match fuel with
  | 0 => mret tt
  | S fuel =>
      if (missing <=? 0)%Z then mret tt
      else
        let request := Z.min missing kSendfileRequest in
        o ← next_write;
        match o with
        | Took n =>
            let sent := Z.min (Z.of_nat n) (Z.min request (strlen content)) in
            if (sent <=? 0)%Z then fail "SSL_sendfile"
            else
              modify (put (str_take (Z.to_nat sent) content)) ;;
              sendfile_loop fuel (str_drop (Z.to_nat sent) content) (missing - sent)
        | WantRead | WantWrite => wait_for_socket ;; sendfile_loop fuel content missing
        | Interrupted => fail "SSL_sendfile"
        | Broken e => fail e
        end
  end.

(** Writing one buffer. *)
Fixpoint buffer_loop (fuel : nat) (buffer : string) : M Transport unit :=
  match fuel with
  | 0 => mret tt
  | S fuel =>
      if is_empty buffer then mret tt
      else
        o ← next_write;
        match o with
        | Took n =>
            let result := n `min` String.length buffer in
            if result =? 0 then fail "SSL_write(file)"
            else modify (put (str_take result buffer)) ;; buffer_loop fuel (str_drop result buffer)
        | WantRead | WantWrite => wait_for_socket ;; buffer_loop fuel buffer
        | Interrupted => fail "SSL_write(file)"
        | Broken e => fail e
        end
  end.

Definition socket_fuel (t : Transport) : nat := S (length (writes t) + length (polls t)).

(** The loop over buffers; [fuel] bounds their number.  A [pread] gives what the
    file has; one that fails is not modelled. *)
Fixpoint copy_loop (fuel : nat) (content : string) (missing : Z) : M Transport unit :=
  match fuel with
  | 0 => mret tt
  | S fuel =>
      if (missing <=? 0)%Z then mret tt
      else
        let buffer := str_take kFileBuffer content in
        reject_if (is_empty buffer) "file became shorter during upload" ;;
        (fun t => buffer_loop (socket_fuel t) buffer t) ;;
        copy_loop fuel (str_drop kFileBuffer content) (missing - strlen buffer)
  end.

(** [file] is what [open] gives: the content of the file, or an error.  The
    result is [used_zero_copy]. *)
Definition send_file (file : string + string) (offset byte_count : Z) : M Transport bool :=
  t ← get;
  reject_if (negb (connected_ t)) not_connected ;;
  flush_queued_blocking ;;
  match file with
  | inl e => fail ("无法打开待上传文件：" +:+ e)
  | inr whole =>
      let content := substr (Z.to_nat offset) (Z.to_nat byte_count) whole in
      t ← get;
      if connected_ t && zero_copy t
      then sendfile_loop (socket_fuel t) content byte_count ;; mret true
      else copy_loop (S (String.length content)) content byte_count ;; mret false
  end.

(** ** Receiving and closing *)

Inductive TransportReadResult := Data (bytes : string) | Closed | Retry | Error (error : string).

Definition receive (capacity : nat) (t : Transport) : TransportReadResult * Transport :=
  if negb (connected_ t) || (capacity =? 0) then (Error "TLS 接收状态无效", t)
  else
    match reads t with
    | [] => (Retry, t)
    | Got bytes :: rest =>
        (* what does not fit is there for the next call *)
        let left := str_drop capacity bytes in
        (Data (str_take capacity bytes), set_reads (if is_empty left then rest else Got left :: rest) t)
    | ReadRetry :: rest => (Retry, set_reads rest t)
    | ReadClosed :: rest => (Closed, set_connected_ false (set_reads rest t))
    | ReadBroken e :: rest => (Error e, set_reads rest t)
    end.

Definition shutdown (t : Transport) : Transport := set_wait WaitNone (set_queue [] 0 0 (set_connected_ false t)).

(** As [connect] leaves it. *)
Definition new_transport (zero : bool) (ws : list write_outcome) (ps : list poll_outcome) (rs : list read_outcome) :
    Transport := mkTransport true [] 0 0 WaitNone zero "" ws ps rs.
End ClientTransport.
