(* ===== verification/TlsSetup.v ===== *)
(** * Setting up TLS

    [minimuduo/net/TlsContext.cpp], [minimuduo/net/SocketOptions.cpp] and the
    opening and closing of [client/tls_client_transport.cpp].  The objects of
    OpenSSL and the sockets are entries of tables: an entry is made by the call
    that allocates it and removed by the one that frees it, and a call on an
    object that is not there is recorded as misuse.  Every call that can fail
    takes the next entry of a schedule of answers. *)
From S2P Require Import Prelude Config ClientTransport.
Import Config.

Module TlsSetup.

(** ** OpenSSL and the kernel *)

(** An answer: success, or failure with what it leaves in the error queue of
    OpenSSL and as the text of [errno]. *)
Inductive Answer := Fine | Fails (details : list string) (errno : string).

Inductive Method := TLS_server_method | TLS_client_method.
Inductive VerifyMode := SSL_VERIFY_NONE | SSL_VERIFY_PEER.
Inductive Option := SSL_OP_NO_COMPRESSION | SSL_OP_ENABLE_KTLS.
Inductive Role := NoRole | AcceptState | ConnectState.

(** An [SSL_CTX]: versions are [0x0303] for TLS 1.2 and [0x0304] for TLS 1.3. *)
Record Ctx := mkCtx {
  method : Method; min_version : Z; max_version : Z; options : list Option; verify_mode : VerifyMode;
  ca_locations : option string; certificate : option string; private_key : option string; key_checked : bool }.
Definition TLS1_2_VERSION : Z := 771.
Definition TLS1_3_VERSION : Z := 772.
Definition new_ctx (m : Method) : Ctx := mkCtx m 0 0 [] SSL_VERIFY_NONE None None None false.

Definition set_min (v : Z) (x : Ctx) : Ctx := mkCtx (method x) v (max_version x) (options x) (verify_mode x) (ca_locations x) (certificate x) (private_key x) (key_checked x).
Definition set_max (v : Z) (x : Ctx) : Ctx := mkCtx (method x) (min_version x) v (options x) (verify_mode x) (ca_locations x) (certificate x) (private_key x) (key_checked x).
Definition add_option (o : Option) (x : Ctx) : Ctx := mkCtx (method x) (min_version x) (max_version x) (options x ++ [o]) (verify_mode x) (ca_locations x) (certificate x) (private_key x) (key_checked x).
Definition set_verify (v : VerifyMode) (x : Ctx) : Ctx := mkCtx (method x) (min_version x) (max_version x) (options x) v (ca_locations x) (certificate x) (private_key x) (key_checked x).
Definition set_ca (f : string) (x : Ctx) : Ctx := mkCtx (method x) (min_version x) (max_version x) (options x) (verify_mode x) (Some f) (certificate x) (private_key x) (key_checked x).
Definition set_certificate (f : string) (x : Ctx) : Ctx := mkCtx (method x) (min_version x) (max_version x) (options x) (verify_mode x) (ca_locations x) (Some f) (private_key x) (key_checked x).
Definition set_key (f : string) (x : Ctx) : Ctx := mkCtx (method x) (min_version x) (max_version x) (options x) (verify_mode x) (ca_locations x) (certificate x) (Some f) (key_checked x).
Definition set_key_checked (x : Ctx) : Ctx := mkCtx (method x) (min_version x) (max_version x) (options x) (verify_mode x) (ca_locations x) (certificate x) (private_key x) true.

(** An [SSL]: it keeps what its context held when it was made; [verified] is what
    [SSL_get_verify_result] reports after the handshake ([None] is [X509_V_OK]). *)
Record Ssl := mkSsl {
  config : Ctx; ssl_fd : option nat; host : option string; ip_address : option string; sni : option string;
  role : Role; handshake : bool; verified : option string }.
Definition new_ssl (x : Ctx) : Ssl := mkSsl x None None None None NoRole false None.
Definition set_fd (n : nat) (x : Ssl) : Ssl := mkSsl (config x) (Some n) (host x) (ip_address x) (sni x) (role x) (handshake x) (verified x).
Definition set_host (s : string) (x : Ssl) : Ssl := mkSsl (config x) (ssl_fd x) (Some s) (ip_address x) (sni x) (role x) (handshake x) (verified x).
Definition set_ip (s : string) (x : Ssl) : Ssl := mkSsl (config x) (ssl_fd x) (host x) (Some s) (sni x) (role x) (handshake x) (verified x).
Definition set_sni (s : string) (x : Ssl) : Ssl := mkSsl (config x) (ssl_fd x) (host x) (ip_address x) (Some s) (role x) (handshake x) (verified x).
Definition set_role (r : Role) (x : Ssl) : Ssl := mkSsl (config x) (ssl_fd x) (host x) (ip_address x) (sni x) r (handshake x) (verified x).
Definition set_handshake (v : option string) (x : Ssl) : Ssl := mkSsl (config x) (ssl_fd x) (host x) (ip_address x) (sni x) (role x) true v.

(** A socket. *)
Record Sock := mkSock { peer : option (string * Z); sock_options : list (string * Z); nonblocking : bool }.

(** [verdicts] are the results of [SSL_get_verify_result] of the handshakes to come. *)
Record Machine := mkMachine {
  ctxs : gmap nat Ctx; ssls : gmap nat Ssl; socks : gmap nat Sock; next : nat;
  answers : list Answer; verdicts : list (option string); err_queue : list string; misuse : bool }.
Definition set_ctxs (x : gmap nat Ctx) (m : Machine) : Machine := mkMachine x (ssls m) (socks m) (next m) (answers m) (verdicts m) (err_queue m) (misuse m).
Definition set_ssls (x : gmap nat Ssl) (m : Machine) : Machine := mkMachine (ctxs m) x (socks m) (next m) (answers m) (verdicts m) (err_queue m) (misuse m).
Definition set_socks (x : gmap nat Sock) (m : Machine) : Machine := mkMachine (ctxs m) (ssls m) x (next m) (answers m) (verdicts m) (err_queue m) (misuse m).
Definition set_next (x : nat) (m : Machine) : Machine := mkMachine (ctxs m) (ssls m) (socks m) x (answers m) (verdicts m) (err_queue m) (misuse m).
Definition set_answers (x : list Answer) (m : Machine) : Machine := mkMachine (ctxs m) (ssls m) (socks m) (next m) x (verdicts m) (err_queue m) (misuse m).
Definition set_verdicts (x : list (option string)) (m : Machine) : Machine := mkMachine (ctxs m) (ssls m) (socks m) (next m) (answers m) x (err_queue m) (misuse m).
Definition set_err_queue (x : list string) (m : Machine) : Machine := mkMachine (ctxs m) (ssls m) (socks m) (next m) (answers m) (verdicts m) x (misuse m).
Definition set_misuse (m : Machine) : Machine := mkMachine (ctxs m) (ssls m) (socks m) (next m) (answers m) (verdicts m) (err_queue m) true.

(** The next answer: [None] for success, or the text of [errno]. *)
Definition answer : M Machine (option string) := fun m =>
  match answers m with
  | [] => (inr None, m)
  | Fine :: rest => (inr None, set_answers rest m)
  | Fails details errno :: rest => (inr (Some errno), set_err_queue (err_queue m ++ details) (set_answers rest m))
  end.

(** The objects a call works on. *)
Definition at_ctx (i : nat) (f : Ctx -> Ctx) : M Machine unit :=
  modify (fun m => match ctxs m !! i with Some x => set_ctxs (<[i := f x]> (ctxs m)) m | None => set_misuse m end).
Definition at_ssl (i : nat) (f : Ssl -> Ssl) : M Machine unit :=
  modify (fun m => match ssls m !! i with Some x => set_ssls (<[i := f x]> (ssls m)) m | None => set_misuse m end).
Definition at_sock (i : nat) (f : Sock -> Sock) : M Machine unit :=
  modify (fun m => match socks m !! i with Some x => set_socks (<[i := f x]> (socks m)) m | None => set_misuse m end).

(** Making and freeing them. *)
Definition SSL_CTX_new (method : Method) : M Machine (option nat) :=
  failed ← answer;
  match failed with
  | Some _ => mret None
  | None => m ← get; modify (fun m => set_next (S (next m)) (set_ctxs (<[next m := new_ctx method]> (ctxs m)) m)) ;; mret (Some (next m))
  end.
Definition SSL_CTX_free (i : nat) : M Machine unit :=
  modify (fun m => match ctxs m !! i with Some _ => set_ctxs (delete i (ctxs m)) m | None => set_misuse m end).
Definition SSL_new (i : nat) : M Machine (option nat) :=
  failed ← answer;
  m ← get;
  match failed, ctxs m !! i with
  | Some _, Some _ => mret None
  | _, None => modify set_misuse ;; mret None
  | None, Some x => modify (fun m => set_next (S (next m)) (set_ssls (<[next m := new_ssl x]> (ssls m)) m)) ;; mret (Some (next m))
  end.
Definition SSL_free (i : nat) : M Machine unit :=
  modify (fun m => match ssls m !! i with Some _ => set_ssls (delete i (ssls m)) m | None => set_misuse m end).
Definition socket : M Machine (string + nat) :=
  failed ← answer;
  match failed with
  | Some errno => mret (inl errno)
  | None => m ← get; modify (fun m => set_next (S (next m)) (set_socks (<[next m := mkSock None [] false]> (socks m)) m)) ;; mret (inr (next m))
  end.
Definition close (i : nat) : M Machine unit :=
  modify (fun m => match socks m !! i with Some _ => set_socks (delete i (socks m)) m | None => set_misuse m end).

(** ** [TlsContext.cpp] *)

Fixpoint joined_details (l : list string) : string :=
  match l with [] => "" | d :: rest => " | " +:+ d +:+ joined_details rest end.
Definition openssl_error_text (operation : string) : M Machine string := fun m =>
  (inr (match err_queue m with
        | [] => operation +:+ ": no OpenSSL error detail"
        | d :: rest => operation +:+ ": " +:+ d +:+ joined_details rest
        end), set_err_queue [] m).

(** [if (call != 1) { error = openssl_error_text(operation); return false; }] *)
Definition checked_call (operation : string) (effect : M Machine unit) : M Machine unit :=
  failed ← answer;
  match failed with
  | None => effect
  | Some _ => text ← openssl_error_text operation; fail text
  end.
(** [if (call != 1) { error = text; return false; }] *)
Definition plain_call (text : string) (effect : M Machine unit) : M Machine unit :=
  failed ← answer;
  match failed with None => effect | Some _ => fail text end.

Definition configureCommonContext (context : option nat) : M Machine unit :=
  match context with
  | None => fail "SSL_CTX 为空"
  | Some i =>
      checked_call "SSL_CTX_set_min_proto_version" (at_ctx i (set_min TLS1_2_VERSION)) ;;
      checked_call "SSL_CTX_set_max_proto_version" (at_ctx i (set_max TLS1_3_VERSION)) ;;
      at_ctx i (add_option SSL_OP_NO_COMPRESSION) ;;
      at_ctx i (add_option SSL_OP_ENABLE_KTLS)
  end.

(** What [inet_pton] says of an address of the family. *)
Inductive Family := AF_INET | AF_INET6.
Class NetNames := { inet_pton : Family -> string -> bool }.

Section Contexts.
Context `{NetNames}.

Definition isIpLiteral (value : string) : bool := inet_pton AF_INET value || inet_pton AF_INET6 value.

(** An object with its [context_]; the machine beside it. *)
Record Held := mkHeld { context_ : option nat; verify_peer_ : bool; machine : Machine }.
Definition set_context (x : option nat) (h : Held) : Held := mkHeld x (verify_peer_ h) (machine h).
Definition set_verify_peer (x : bool) (h : Held) : Held := mkHeld (context_ h) x (machine h).
Definition on_machine {A} (c : M Machine A) : M Held A := fun h =>
  let r := c (machine h) in (r.1, mkHeld (context_ h) (verify_peer_ h) r.2).

(** [SSL_CTX_free(context_); context_ = nullptr;] *)
Definition free_context : M Held unit :=
  h ← get;
  match context_ h with
  | Some i => on_machine (SSL_CTX_free i) ;; modify (set_context None)
  | None => mret tt
  end.
(** [if (!call) { SSL_CTX_free(context_); context_ = nullptr; return false; }] *)
Definition or_free {A} (c : M Machine A) : M Held A := fun h =>
  match on_machine c h with
  | (inl error, h1) => (inl error, (free_context h1).2)
  | r => r
  end.

Definition initialize_server (config : TlsServerConfig) : M Held unit :=
  free_context ;;
  reject_if (negb (srv_enabled config)) "TLS 服务端被关闭，但当前版本要求启用 TLS" ;;
  context ← on_machine (SSL_CTX_new TLS_server_method);
  modify (set_context context) ;;
  match context with
  | None => text ← on_machine (openssl_error_text "SSL_CTX_new(TLS_server_method)"); fail text
  | Some i =>
      or_free (configureCommonContext (Some i)) ;;
      or_free (checked_call "SSL_CTX_use_certificate_chain_file" (at_ctx i (set_certificate (certificate_file config)))) ;;
      or_free (checked_call "SSL_CTX_use_PrivateKey_file" (at_ctx i (set_key (private_key_file config)))) ;;
      or_free (checked_call "SSL_CTX_check_private_key" (at_ctx i set_key_checked)) ;;
      on_machine (at_ctx i (set_verify SSL_VERIFY_NONE))
  end.

Definition initialize_client (config : TlsClientConfig) : M Held unit :=
  free_context ;;
  reject_if (negb (cl_enabled config)) "TLS 客户端被关闭，但当前版本要求启用 TLS" ;;
  context ← on_machine (SSL_CTX_new TLS_client_method);
  modify (set_context context) ;;
  match context with
  | None => text ← on_machine (openssl_error_text "SSL_CTX_new(TLS_client_method)"); fail text
  | Some i =>
      or_free (configureCommonContext (Some i)) ;;
      modify (set_verify_peer (verify_peer config)) ;;
      if verify_peer config then
        on_machine (at_ctx i (set_verify SSL_VERIFY_PEER)) ;;
        or_free (reject_if (is_empty (ca_file config)) "TLS 客户端启用对端校验时必须配置 CA 文件") ;;
        or_free (checked_call "SSL_CTX_load_verify_locations" (at_ctx i (set_ca (ca_file config))))
      else on_machine (at_ctx i (set_verify SSL_VERIFY_NONE))
  end.

(** An [SslPtr] that leaves its scope frees its object. *)
Definition scoped (i : nat) {A} (c : M Machine A) : M Machine A := fun m =>
  match c m with
  | (inl error, m1) => (inl error, (SSL_free i m1).2)
  | r => r
  end.

Definition new_of (context : option nat) (missing : string) : M Machine nat :=
  match context with
  | None => fail missing
  | Some c =>
      ssl ← SSL_new c;
      match ssl with
      | None => text ← openssl_error_text "SSL_new"; fail text
      | Some i => mret i
      end
  end.

Definition createSsl_server (context : option nat) (socketFd : nat) : M Machine nat :=
  i ← new_of context "TLS 服务端上下文尚未初始化";
  scoped i (checked_call "SSL_set_fd" (at_ssl i (set_fd socketFd)) ;; at_ssl i (set_role AcceptState) ;; mret i).

(** The identity that the certificate of the peer must have. *)
Definition expect_identity (i : nat) (peerIdentity : string) : M Machine unit :=
  reject_if (is_empty peerIdentity) "启用 TLS 身份校验时对端身份不能为空" ;;
  plain_call "SSL_get0_param 返回空指针" (mret tt) ;;
  if isIpLiteral peerIdentity then
    plain_call "设置 X509 IP 校验参数失败" (at_ssl i (set_ip peerIdentity))
  else
    plain_call "设置 TLS 主机名校验失败" (at_ssl i (set_host peerIdentity)) ;;
    checked_call "SSL_set_tlsext_host_name" (at_ssl i (set_sni peerIdentity)).

Definition createSsl_client (context : option nat) (verify : bool) (socketFd : nat) (peerIdentity : string) : M Machine nat :=
  i ← new_of context "TLS 客户端上下文尚未初始化";
  scoped i (
    checked_call "SSL_set_fd" (at_ssl i (set_fd socketFd)) ;;
    (if verify then expect_identity i peerIdentity else mret tt) ;;
    at_ssl i (set_role ConnectState) ;;
    mret i).

(** [SSL_connect]: the handshake, and the verdict on the certificate. *)
Definition SSL_connect (i : nat) : M Machine unit := fun m =>
  let verdict := match verdicts m with [] => None | v :: _ => v end in
  at_ssl i (set_handshake verdict) (set_verdicts (tail (verdicts m)) m).

Definition connectBlocking (verify : bool) (ssl : option nat) : M Machine unit :=
  match ssl with
  | None => fail "SSL 对象为空"
  | Some i =>
      checked_call "SSL_connect" (SSL_connect i) ;;
      m ← get;
      match ssls m !! i with
      | Some x =>
          match verified x with
          | Some text => reject_if verify ("TLS peer certificate verification failed: " +:+ text)
          | None => mret tt
          end
      | None => modify set_misuse
      end
  end.

(** ** [SocketOptions.cpp] *)

Definition setIntOption (socketFd : nat) (name : string) (value : Z) : M Machine unit :=
  failed ← answer;
  match failed with
  | None => at_sock socketFd (fun x => mkSock (peer x) (sock_options x ++ [(name, value)]) (nonblocking x))
  | Some errno => fail (name +:+ " 设置失败：" +:+ errno)
  end.
Definition configureTcpKeepAlive (socketFd : nat) (idleSeconds intervalSeconds probeCount : Z) : M Machine unit :=
  setIntOption socketFd "SO_KEEPALIVE" 1 ;;
  setIntOption socketFd "TCP_KEEPINTVL" intervalSeconds ;;
  setIntOption socketFd "TCP_KEEPIDLE" idleSeconds ;;
  setIntOption socketFd "TCP_KEEPCNT" probeCount.
Definition configureTcpNoDelay (socketFd : nat) (enabled : bool) : M Machine unit :=
  setIntOption socketFd "TCP_NODELAY" (if enabled then 1 else 0).

(** ** [tls_client_transport.cpp]: opening and closing *)

(** The queue of texts to send, as [ClientTransport.v] has it. *)
Record Output := mkOutput { output_queue_ : list string; output_offset_ : nat; queued_output_bytes_ : Z; queued_write_wait_ : ClientTransport.QueuedWriteWait }.
Definition no_output : Output := mkOutput [] 0 0 ClientTransport.WaitNone.

Record Transport := mkTransport {
  tls_context_ : Held; ssl_ : option nat; socket_fd_ : option nat; peer_identity_ : string; connected_ : bool; output_ : Output }.
Definition set_tls_context (x : Held) (t : Transport) : Transport := mkTransport x (ssl_ t) (socket_fd_ t) (peer_identity_ t) (connected_ t) (output_ t).
Definition set_ssl (x : option nat) (t : Transport) : Transport := mkTransport (tls_context_ t) x (socket_fd_ t) (peer_identity_ t) (connected_ t) (output_ t).
Definition set_socket_fd (x : option nat) (t : Transport) : Transport := mkTransport (tls_context_ t) (ssl_ t) x (peer_identity_ t) (connected_ t) (output_ t).
Definition set_peer_identity (x : string) (t : Transport) : Transport := mkTransport (tls_context_ t) (ssl_ t) (socket_fd_ t) x (connected_ t) (output_ t).
Definition set_connected (x : bool) (t : Transport) : Transport := mkTransport (tls_context_ t) (ssl_ t) (socket_fd_ t) (peer_identity_ t) x (output_ t).
Definition set_output (x : Output) (t : Transport) : Transport := mkTransport (tls_context_ t) (ssl_ t) (socket_fd_ t) (peer_identity_ t) (connected_ t) x.

Definition on_context {A} (c : M Held A) : M Transport A := fun t =>
  let r := c (tls_context_ t) in (r.1, set_tls_context r.2 t).
Definition calling {A} (c : M Machine A) : M Transport A := on_context (on_machine c).
(** [(void)call;] *)
Definition ignored {A} (c : M Transport A) : M Transport unit := fun t => (inr tt, (c t).2).

(** [ERR_clear_error(); (void)SSL_shutdown(ssl);] *)
Definition SSL_shutdown (i : nat) : M Machine unit :=
  modify (set_err_queue []) ;; answer ;; at_ssl i (fun x => x).

Definition shutdown : M Transport unit :=
  t ← get;
  match ssl_ t with
  | Some i => calling (SSL_shutdown i) ;; calling (SSL_free i) ;; modify (set_ssl None)
  | None => mret tt
  end ;;
  t ← get;
  match socket_fd_ t with
  | Some i => calling (close i) ;; modify (set_socket_fd None)
  | None => mret tt
  end ;;
  modify (set_output no_output) ;;
  modify (set_connected false) ;;
  modify (set_peer_identity "").

(** [if (!call) { shutdown(); return false; }] *)
Definition or_shutdown {A} (c : M Transport A) : M Transport A := fun t =>
  match c t with
  | (inl error, t1) => (inl error, (shutdown t1).2)
  | r => r
  end.

(** [::connect] and the two calls of [fcntl]. *)
Definition connect_call (fd : nat) (ip : string) (port : Z) : M Machine unit :=
  failed ← answer;
  match failed with
  | Some errno => fail ("连接失败：" +:+ errno)
  | None => at_sock fd (fun x => mkSock (Some (ip, port)) (sock_options x) (nonblocking x))
  end.
Definition set_nonblocking (fd : nat) : M Machine unit :=
  got ← answer;
  match got with
  | Some errno => fail ("无法把 TLS socket 切换为非阻塞模式：" +:+ errno)
  | None =>
      failed ← answer;
      match failed with
      | Some errno => fail ("无法把 TLS socket 切换为非阻塞模式：" +:+ errno)
      | None => at_sock fd (fun x => mkSock (peer x) (sock_options x) true)
      end
  end.

(** The identity to check: the configured name, or the address. *)
Definition identity_of (config : TlsClientConfig) (ip : string) : string :=
  if is_empty (cl_server_name config) then ip else cl_server_name config.

Definition connect (ip : string) (port : Z) (config : TlsClientConfig) : M Transport unit :=
  shutdown ;;
  on_context (initialize_client config) ;;
  made ← calling socket;
  match made with
  | inl errno => fail ("创建 socket 失败：" +:+ errno)
  | inr fd =>
      modify (set_socket_fd (Some fd)) ;;
      or_shutdown (reject_if (negb (inet_pton AF_INET ip)) "IPv4 地址无效") ;;
      or_shutdown (calling (connect_call fd ip (wrap 16 port))) ;;
      ignored (calling (configureTcpKeepAlive fd 60 15 3)) ;;
      modify (set_peer_identity (identity_of config ip)) ;;
      or_shutdown (
        t ← get;
        i ← calling (createSsl_client (context_ (tls_context_ t)) (verify_peer_ (tls_context_ t)) fd (peer_identity_ t));
        modify (set_ssl (Some i))) ;;
      or_shutdown (t ← get; calling (connectBlocking (verify_peer_ (tls_context_ t)) (ssl_ t))) ;;
      ignored (calling (configureTcpNoDelay fd true)) ;;
      or_shutdown (calling (set_nonblocking fd)) ;;
      modify (set_connected true)
  end.

(** The destructors: [shutdown], and then that of [tls_context_]. *)
Definition destroy : M Transport unit := shutdown ;; on_context free_context.

End Contexts.

(** ** What is alive *)

Definition from {A : Type} (o : option (nat * A)) : gmap nat A := match o with Some (i, x) => {[ i := x ]} | None => ∅ end.

(** Exactly these objects are alive, and nothing was used that was not. *)
Definition alive (c : option (nat * Ctx)) (s : option (nat * Ssl)) (k : option (nat * Sock)) (m : Machine) : Prop :=
  ctxs m = from c /\ ssls m = from s /\ socks m = from k /\ misuse m = false.

Lemma alive_answer c s k E : meets (alive c s k) answer (fun _ => alive c s k) E.
Proof. intros m Hm. unfold answer. destruct (answers m) as [|[|d e] rest]; exact Hm. Qed.
Lemma alive_text c s k op E : meets (alive c s k) (openssl_error_text op) (fun _ => alive c s k) E.
Proof. by intros m Hm. Qed.

Lemma at_ctx_alive i x f s k E : meets (alive (Some (i, x)) s k) (at_ctx i f) (fun _ => alive (Some (i, f x)) s k) E.
Proof.
  apply meets_modify. intros m (Hc & Hs & Hk & Hm). unfold alive. rewrite Hc. cbn. rewrite lookup_singleton_eq. cbn.
  split_and!; try done. by rewrite insert_singleton_eq.
Qed.
Lemma at_ssl_alive i x f c k E : meets (alive c (Some (i, x)) k) (at_ssl i f) (fun _ => alive c (Some (i, f x)) k) E.
Proof.
  apply meets_modify. intros m (Hc & Hs & Hk & Hm). unfold alive. rewrite Hs. cbn. rewrite lookup_singleton_eq. cbn.
  split_and!; try done. by rewrite insert_singleton_eq.
Qed.
Lemma at_sock_alive i x f c s E : meets (alive c s (Some (i, x))) (at_sock i f) (fun _ => alive c s (Some (i, f x))) E.
Proof.
  apply meets_modify. intros m (Hc & Hs & Hk & Hm). unfold alive. rewrite Hk. cbn. rewrite lookup_singleton_eq. cbn.
  split_and!; try done. by rewrite insert_singleton_eq.
Qed.

(** A checked call does its effect or fails and changes no object. *)
Lemma checked_alive op effect c s k Q (E : Machine -> Prop) :
  meets (alive c s k) effect Q E -> (forall m, alive c s k m -> E m) -> meets (alive c s k) (checked_call op effect) Q E.
Proof.
  intros He HE. eapply meets_bind; [apply alive_answer|]. intros [errno|]; [|done].
  eapply meets_bind; [apply alive_text|]. intros text. by apply meets_fail.
Qed.
Lemma plain_alive text effect c s k Q (E : Machine -> Prop) :
  meets (alive c s k) effect Q E -> (forall m, alive c s k m -> E m) -> meets (alive c s k) (plain_call text effect) Q E.
Proof. intros He HE. eapply meets_bind; [apply alive_answer|]. intros [errno|]; [by apply meets_fail|done]. Qed.

(** ** Contexts *)

Definition common (x : Ctx) : Ctx :=
  add_option SSL_OP_ENABLE_KTLS (add_option SSL_OP_NO_COMPRESSION (set_max TLS1_3_VERSION (set_min TLS1_2_VERSION x))).
(** A context that a failing step has left. *)
Definition some_ctx (i : nat) (s : option (nat * Ssl)) (k : option (nat * Sock)) (m : Machine) : Prop := exists x, alive (Some (i, x)) s k m.

Lemma ctx_call op i f x s k :
  meets (alive (Some (i, x)) s k) (checked_call op (at_ctx i f)) (fun _ => alive (Some (i, f x)) s k) (some_ctx i s k).
Proof. apply checked_alive; [apply at_ctx_alive|]. intros m Hm. by exists x. Qed.

Lemma configure_spec i x s k :
  meets (alive (Some (i, x)) s k) (configureCommonContext (Some i)) (fun _ => alive (Some (i, common x)) s k) (some_ctx i s k).
Proof.
  unfold common. cbn [configureCommonContext]. eapply meets_bind; [apply ctx_call|intros ?].
  eapply meets_bind; [apply ctx_call|intros ?]. eapply meets_bind; [apply at_ctx_alive|intros ?]. apply at_ctx_alive.
Qed.

(** The object beside the machine. *)
Definition object (o : option nat) (v : bool) (P : Machine -> Prop) (h : Held) : Prop :=
  context_ h = o /\ verify_peer_ h = v /\ P (machine h).

Lemma on_machine_spec {A} o v P (c : M Machine A) Q E :
  meets P c Q E -> meets (object o v P) (on_machine c) (fun a => object o v (Q a)) (object o v E).
Proof.
  intros Hc h (Ho & Hv & Hp). specialize (Hc _ Hp). unfold on_machine. destruct (c (machine h)) as [[e|a] m]; by split_and!.
Qed.

Lemma context_effect i x f v s k E :
  meets (object (Some i) v (alive (Some (i, x)) s k)) (on_machine (at_ctx i f)) (fun _ => object (Some i) v (alive (Some (i, f x)) s k)) E.
Proof.
  eapply meets_weaken; [apply on_machine_spec, (at_ctx_alive i x f s k (fun _ => False))|done|done|by intros h (_ & _ & ?)].
Qed.

Lemma free_spec c v s k E :
  meets (object (fst <$> c) v (alive c s k)) free_context (fun _ => object None v (alive None s k)) E.
Proof.
  intros h (Ho & Hv & Hc & Hs & Hk & Hm). unfold free_context, mbind, M_bind, get. rewrite Ho. destruct c as [[i x]|]; cbn in *.
  - unfold on_machine, SSL_CTX_free, modify. cbn. rewrite Hc, lookup_singleton_eq. cbn. split_and!; try done.
    unfold alive. cbn. rewrite delete_singleton_eq. done.
  - by split_and!.
Qed.

Lemma or_free_spec {A} i x v s k (c : M Machine A) Q :
  meets (alive (Some (i, x)) s k) c Q (some_ctx i s k) ->
  meets (object (Some i) v (alive (Some (i, x)) s k)) (or_free c) (fun a => object (Some i) v (Q a)) (object None v (alive None s k)).
Proof.
  intros Hc h Hh. pose proof (on_machine_spec (Some i) v _ c Q _ Hc h Hh) as H1. unfold or_free.
  destruct (on_machine c h) as [[e|a] h1]; [|done]. destruct H1 as (Ho & Hv & x' & Hx).
  pose proof (free_spec (Some (i, x')) v s k (fun _ => False) h1) as H2. destruct (free_context h1) as [[e'|[]] h2]; cbn in *; [exfalso|]; by apply H2.
Qed.

Lemma ctx_new_spec md s k E :
  meets (alive None s k) (SSL_CTX_new md)
    (fun r m => match r with Some i => alive (Some (i, new_ctx md)) s k m | None => alive None s k m end) E.
Proof.
  eapply meets_bind; [apply alive_answer|]. intros [errno|]; [by apply meets_ret|].
  intros m (Hc & Hs & Hk & Hm). unfold mbind, M_bind, get, modify, mret, M_ret. unfold alive. cbn. rewrite Hc. by split_and!.
Qed.

Section Specs.
Context `{NetNames}.

(** The context of a client. *)
Definition client_ctx (config : TlsClientConfig) : Ctx :=
  if verify_peer config then set_ca (ca_file config) (set_verify SSL_VERIFY_PEER (common (new_ctx TLS_client_method)))
  else set_verify SSL_VERIFY_NONE (common (new_ctx TLS_client_method)).
Definition server_ctx (config : TlsServerConfig) : Ctx :=
  set_verify SSL_VERIFY_NONE (set_key_checked (set_key (private_key_file config)
    (set_certificate (certificate_file config) (common (new_ctx TLS_server_method))))).

(** No context is left when setting one up fails. *)
Definition no_context (s : option (nat * Ssl)) (k : option (nat * Sock)) (h : Held) : Prop :=
  context_ h = None /\ alive None s k (machine h).

Lemma start_context md (enabled : bool) text op c v s k (rest : nat -> M Held unit) Q :
  (forall i, enabled = true -> meets (object (Some i) v (alive (Some (i, new_ctx md)) s k)) (rest i) Q (no_context s k)) ->
  meets (object (fst <$> c) v (alive c s k))
    (free_context ;;
     reject_if (negb enabled) text ;;
     context ← on_machine (SSL_CTX_new md);
     modify (set_context context) ;;
     match context with
     | None => error ← on_machine (openssl_error_text op); fail error
     | Some i => rest i
     end) Q (no_context s k).
Proof.
  intros Hrest. eapply meets_bind; [apply free_spec|intros ?].
  eapply meets_bind; [apply meets_reject; by intros h (? & _ & ?)|intros ?]. apply meets_pull. intros He%negb_false_iff.
  eapply meets_bind.
  { eapply meets_weaken; [apply on_machine_spec, (ctx_new_spec md s k (fun _ => False))|done|intros ? h Hh; exact Hh|by intros h (_ & _ & ?)]. }
  intros context. eapply (meets_bind _ _ _ (fun _ h => context_ h = context /\ verify_peer_ h = v /\
    match context with Some i => alive (Some (i, new_ctx md)) s k (machine h) | None => alive None s k (machine h) end)).
  { apply meets_modify. by intros h (_ & ? & ?). }
  intros ?. destruct context as [i|]; [by apply Hrest|].
  eapply meets_bind; [|intros error; apply meets_fail; intros h Hh; exact Hh].
  intros h (Ho & Hv & Ha). by split.
Qed.

Lemma initialize_client_spec config c v s k :
  meets (object (fst <$> c) v (alive c s k)) (initialize_client config)
    (fun _ h => cl_enabled config = true /\ (verify_peer config = true -> ca_file config <> "") /\
       exists i, object (Some i) (verify_peer config) (alive (Some (i, client_ctx config)) s k) h)
    (no_context s k).
Proof.
  apply start_context. intros i Hen.
  assert (forall h v, object None v (alive None s k) h -> no_context s k h) as Hno by (by intros h v' (? & _ & ?)).
  eapply meets_bind.
  { eapply meets_weaken; [apply or_free_spec, configure_spec|done|intros ? h Hh; exact Hh|intros h; apply Hno]. }
  intros ?. eapply (meets_bind _ _ _ (fun _ => object (Some i) (verify_peer config) (alive (Some (i, common (new_ctx TLS_client_method))) s k))).
  { apply meets_modify. by intros h (? & _ & ?). }
  intros ?. unfold client_ctx. destruct (verify_peer config).
  - eapply meets_bind; [apply context_effect|intros ?]. eapply meets_bind.
    { eapply meets_weaken; [apply or_free_spec, meets_reject; intros m Hm; by eexists|done|intros ? h Hh; exact Hh|intros h; apply Hno]. }
    intros ? h (Ho & Hv & Ha & Hca).
    pose proof (or_free_spec i _ true s k _ _ (ctx_call "SSL_CTX_load_verify_locations" i (set_ca (ca_file config)) (set_verify SSL_VERIFY_PEER (common (new_ctx TLS_client_method))) s k) h) as Hl.
    specialize (Hl ltac:(by split_and!)).
    destruct (or_free _ h) as [[e|[]] h1]; [by eapply Hno|]. split_and!; [done| |by exists i]. intros _ He. by rewrite He in Hca.
  - eapply meets_weaken; [apply context_effect|done| |intros h Hh; exact Hh].
    intros ? h Hh. split_and!; [done|done|by exists i].
Qed.

Lemma initialize_server_spec config c v s k :
  meets (object (fst <$> c) v (alive c s k)) (initialize_server config)
    (fun _ h => exists i, object (Some i) v (alive (Some (i, server_ctx config)) s k) h) (no_context s k).
Proof.
  apply start_context. intros i _.
  assert (forall h v, object None v (alive None s k) h -> no_context s k h) as Hno by (by intros h v' (? & _ & ?)).
  eapply meets_bind.
  { eapply meets_weaken; [apply or_free_spec, configure_spec|done|intros ? h Hh; exact Hh|intros h; apply Hno]. }
  intros ?. do 3 (eapply meets_bind;
    [eapply meets_weaken; [apply or_free_spec, ctx_call|done|intros ? h Hh; exact Hh|intros h; apply Hno]|intros ?]).
  eapply meets_weaken; [apply context_effect|done| |intros h Hh; exact Hh].
  intros ? h Hh. by exists i.
Qed.

(** ** Connections *)

Lemma new_of_spec ci x k missing :
  meets (alive (Some (ci, x)) None k) (new_of (Some ci) missing)
    (fun i => alive (Some (ci, x)) (Some (i, new_ssl x)) k) (alive (Some (ci, x)) None k).
Proof.
  cbn [new_of]. eapply (meets_bind _ _ _ (fun r m => match r with Some i => alive (Some (ci, x)) (Some (i, new_ssl x)) k m | None => alive (Some (ci, x)) None k m end)).
  - eapply meets_bind; [apply alive_answer|intros failed]. intros m (Hc & Hs & Hk & Hm). unfold mbind, M_bind, get.
    rewrite Hc. cbn [from]. rewrite lookup_singleton_eq. destruct failed; [done|]. unfold modify, mret, M_ret, alive. cbn.
    rewrite Hs. by split_and!.
  - intros [i|]; [by apply meets_ret|]. eapply meets_bind; [apply alive_text|intros ?]. by apply meets_fail.
Qed.

(** A connection that a failing step has left. *)
Definition some_ssl (c : option (nat * Ctx)) (i : nat) (k : option (nat * Sock)) (m : Machine) : Prop := exists y, alive c (Some (i, y)) k m.

Lemma scoped_spec {A} c i y k (body : M Machine A) Q :
  meets (alive c (Some (i, y)) k) body Q (some_ssl c i k) -> meets (alive c (Some (i, y)) k) (scoped i body) Q (alive c None k).
Proof.
  intros Hb m Hm. specialize (Hb m Hm). unfold scoped. destruct (body m) as [[e|a] m1]; [|done].
  destruct Hb as (y' & Hc & Hs & Hk & Hu). unfold SSL_free, modify, alive. cbn. rewrite Hs. cbn. rewrite lookup_singleton_eq. cbn.
  rewrite delete_singleton_eq. done.
Qed.

Lemma ssl_call op c i f y k :
  meets (alive c (Some (i, y)) k) (checked_call op (at_ssl i f)) (fun _ => alive c (Some (i, f y)) k) (some_ssl c i k).
Proof. apply checked_alive; [apply at_ssl_alive|]. intros m Hm. by exists y. Qed.
Lemma ssl_plain text c i f y k :
  meets (alive c (Some (i, y)) k) (plain_call text (at_ssl i f)) (fun _ => alive c (Some (i, f y)) k) (some_ssl c i k).
Proof. apply plain_alive; [apply at_ssl_alive|]. intros m Hm. by exists y. Qed.

Definition with_identity (peerIdentity : string) (y : Ssl) : Ssl :=
  if isIpLiteral peerIdentity then set_ip peerIdentity y else set_sni peerIdentity (set_host peerIdentity y).

Lemma expect_spec c i y k peerIdentity :
  meets (alive c (Some (i, y)) k) (expect_identity i peerIdentity)
    (fun _ m => alive c (Some (i, with_identity peerIdentity y)) k m /\ peerIdentity <> "") (some_ssl c i k).
Proof.
  unfold expect_identity, with_identity. eapply meets_bind; [apply meets_reject; intros m Hm; by exists y|intros ?].
  apply meets_pull. intros He. assert (peerIdentity <> "") as Hne by (by intros ->).
  eapply (meets_bind _ _ _ (fun _ => alive c (Some (i, y)) k)); [apply plain_alive; [by apply meets_ret|]; intros m Hm; by exists y|intros ?].
  destruct (isIpLiteral peerIdentity).
  - eapply meets_weaken; [apply ssl_plain|done|by intros ? m Hm|done].
  - eapply meets_bind; [apply ssl_plain|intros ?]. eapply meets_weaken; [apply ssl_call|done|by intros ? m Hm|done].
Qed.

(** The connection that a client makes of its context. *)
Definition client_ssl (config : TlsClientConfig) (fd : nat) (peerIdentity : string) : Ssl :=
  set_role ConnectState ((if verify_peer config then with_identity peerIdentity else fun y => y) (set_fd fd (new_ssl (client_ctx config)))).

Lemma createSsl_spec config ci fd peerIdentity k :
  meets (alive (Some (ci, client_ctx config)) None k) (createSsl_client (Some ci) (verify_peer config) fd peerIdentity)
    (fun i m => alive (Some (ci, client_ctx config)) (Some (i, client_ssl config fd peerIdentity)) k m /\ (verify_peer config = true -> peerIdentity <> ""))
    (alive (Some (ci, client_ctx config)) None k).
Proof.
  unfold createSsl_client. eapply meets_bind; [apply new_of_spec|]. intros i. apply scoped_spec.
  eapply meets_bind; [apply ssl_call|intros ?]. unfold client_ssl.
  eapply (meets_bind _ _ _ (fun _ m => alive (Some (ci, client_ctx config))
    (Some (i, (if verify_peer config then with_identity peerIdentity else fun y => y) (set_fd fd (new_ssl (client_ctx config))))) k m /\
    (verify_peer config = true -> peerIdentity <> ""))).
  - destruct (verify_peer config); [|by apply meets_ret].
    eapply meets_weaken; [apply expect_spec|done|by intros ? m [? ?]|done].
  - intros ?. apply meets_pull. intros Hid. eapply meets_bind; [apply at_ssl_alive|intros ?]. by apply meets_ret.
Qed.

Lemma connectBlocking_spec c i y k verify :
  meets (alive c (Some (i, y)) k) (connectBlocking verify (Some i))
    (fun _ m => exists v, alive c (Some (i, set_handshake v y)) k m /\ (verify = true -> v = None)) (some_ssl c i k).
Proof.
  cbn [connectBlocking]. eapply (meets_bind _ _ _ (fun _ m => exists v, alive c (Some (i, set_handshake v y)) k m)).
  - apply checked_alive; [|intros m Hm; by exists y]. intros m (Hc & Hs & Hk & Hm). unfold SSL_connect, at_ssl, modify.
    cbn. rewrite Hs. cbn. rewrite lookup_singleton_eq. eexists. unfold alive. cbn. split_and!; try done. by rewrite insert_singleton_eq.
  - intros ?. apply meets_pull_ex. intros v m Ha. pose proof Ha as (_ & Hs & _). unfold mbind, M_bind, get.
    rewrite Hs. cbn [from]. rewrite lookup_singleton_eq. cbn [verified set_handshake]. destruct v as [text|]; [|by exists None].
    unfold reject_if. destruct verify; [by eexists|]. by exists (Some text).
Qed.

(** A server whose context is set up makes connections that hold its certificate
    and its checked key; a failure leaves no connection. *)
Theorem createSsl_server_spec config ci fd k :
  meets (alive (Some (ci, server_ctx config)) None k) (createSsl_server (Some ci) fd)
    (fun i => alive (Some (ci, server_ctx config)) (Some (i, set_role AcceptState (set_fd fd (new_ssl (server_ctx config))))) k)
    (alive (Some (ci, server_ctx config)) None k).
Proof.
  unfold createSsl_server. eapply meets_bind; [apply new_of_spec|]. intros i. apply scoped_spec.
  eapply meets_bind; [apply ssl_call|intros ?]. eapply meets_bind; [apply at_ssl_alive|intros ?]. by apply meets_ret.
Qed.

(** ** The transport *)

Definition fields (t : Transport) : option nat * bool * option nat * option nat * string * bool * Output :=
  (context_ (tls_context_ t), verify_peer_ (tls_context_ t), ssl_ t, socket_fd_ t, peer_identity_ t, connected_ t, output_ t).
Definition has f (P : Machine -> Prop) (t : Transport) : Prop := fields t = f /\ P (machine (tls_context_ t)).

(** The transport owns all that is alive. *)
Definition owns c s k v p b o : Transport -> Prop := has (fst <$> c, v, fst <$> s, fst <$> k, p, b, o) (alive c s k).
Definition owned (t : Transport) : Prop := exists c s k v p b o, owns c s k v p b o t.
(** Closed: no connection and no socket. *)
Definition closed (t : Transport) : Prop := exists c v, owns c None None v "" false no_output t.

Lemma calling_spec {A} f P (b : M Machine A) Q E : meets P b Q E -> meets (has f P) (calling b) (fun a => has f (Q a)) (has f E).
Proof.
  intros Hb t [Hf Hp]. specialize (Hb _ Hp). unfold calling, on_context, on_machine. cbn.
  destruct (b (machine (tls_context_ t))) as [[e|a] m]; by split.
Qed.

Lemma calling_alive {A} f c s k c' s' k' (b : M Machine A) E :
  (forall E', meets (alive c s k) b (fun _ => alive c' s' k') E') ->
  meets (has f (alive c s k)) (calling b) (fun _ => has f (alive c' s' k')) E.
Proof. intros Hb. eapply meets_weaken; [apply calling_spec, (Hb (fun _ => False))|done|done|by intros t [_ ?]]. Qed.

Lemma get_fields {A} f P (k : Transport -> M Transport A) Q E :
  (forall t, fields t = f -> meets (has f P) (k t) Q E) -> meets (has f P) (t ← get; k t) Q E.
Proof. intros Hk t Ht. apply (Hk t); [apply Ht|done]. Qed.

Lemma ssl_shutdown_alive c i y k E : meets (alive c (Some (i, y)) k) (SSL_shutdown i) (fun _ => alive c (Some (i, y)) k) E.
Proof.
  unfold SSL_shutdown. eapply (meets_bind _ _ _ (fun _ => alive c (Some (i, y)) k)); [by apply meets_modify|intros ?].
  eapply meets_bind; [apply alive_answer|intros ?]. apply at_ssl_alive.
Qed.
Lemma ssl_free_alive c i y k E : meets (alive c (Some (i, y)) k) (SSL_free i) (fun _ => alive c None k) E.
Proof.
  apply meets_modify. intros m (Hc & Hs & Hk & Hm). unfold alive. rewrite Hs. cbn. rewrite lookup_singleton_eq. cbn.
  by rewrite delete_singleton_eq.
Qed.
Lemma close_alive c s i z E : meets (alive c s (Some (i, z))) (close i) (fun _ => alive c s None) E.
Proof.
  apply meets_modify. intros m (Hc & Hs & Hk & Hm). unfold alive. rewrite Hk. cbn. rewrite lookup_singleton_eq. cbn.
  by rewrite delete_singleton_eq.
Qed.

Lemma shutdown_spec c s k v p b o E : meets (owns c s k v p b o) shutdown (fun _ => owns c None None v "" false no_output) E.
Proof.
  unfold shutdown. apply get_fields. intros t Ht. injection Ht as _ _ -> _ _ _ _.
  eapply (meets_bind _ _ _ (fun _ => owns c None k v p b o)).
  { destruct s as [[i y]|]; [|by apply meets_ret].
    cbn [fmap option_fmap option_map fst]. eapply meets_bind; [apply calling_alive; intros; apply ssl_shutdown_alive|intros ?].
    eapply meets_bind; [apply calling_alive; intros; apply ssl_free_alive|intros ?].
    apply meets_modify. intros t1 [Hf Ha]. split; [|done]. unfold fields in *. cbn in *. congruence. }
  intros ?. apply get_fields. intros t' Ht'. injection Ht' as _ _ _ -> _ _ _.
  eapply (meets_bind _ _ _ (fun _ => owns c None None v p b o)).
  { destruct k as [[i z]|]; [|by apply meets_ret].
    cbn [fmap option_fmap option_map fst]. eapply meets_bind; [apply calling_alive; intros; apply close_alive|intros ?].
    apply meets_modify. intros t1 [Hf Ha]. split; [|done]. unfold fields in *. cbn in *. congruence. }
  intros ?. eapply (meets_bind _ _ _ (fun _ => owns c None None v p b no_output)); [|intros ?; eapply (meets_bind _ _ _ (fun _ => owns c None None v p false no_output)); [|intros ?]];
    apply meets_modify; intros t1 [Hf Ha]; (split; [|done]); unfold fields in *; cbn in *; congruence.
Qed.

Lemma or_shutdown_spec {A} (P : Transport -> Prop) (b : M Transport A) Q :
  meets P b Q owned -> meets P (or_shutdown b) Q closed.
Proof.
  intros Hb t Ht. specialize (Hb t Ht). unfold or_shutdown. destruct (b t) as [[e|a] t1]; [|done].
  destruct Hb as (c & s & k & v & p & x & o & Hb). pose proof (shutdown_spec c s k v p x o (fun _ => False) t1 Hb) as H1.
  destruct (shutdown t1) as [[e'|[]] t2]; [done|]. by exists c, v.
Qed.

(** A call of the machine inside [or_shutdown]: whatever it leaves, the transport owns. *)
Lemma or_shutdown_calling {A} c s k v p b o (body : M Machine A) Q :
  meets (alive c s k) body Q (fun m => exists c' s' k', fst <$> c' = fst <$> c /\ fst <$> s' = fst <$> s /\ fst <$> k' = fst <$> k /\ alive c' s' k' m) ->
  meets (owns c s k v p b o) (or_shutdown (calling body)) (fun a => has (fst <$> c, v, fst <$> s, fst <$> k, p, b, o) (Q a)) closed.
Proof.
  intros Hb. apply or_shutdown_spec. eapply meets_weaken; [apply calling_spec, Hb|done|done|].
  intros t [Hf (c' & s' & k' & Hc & Hs & Hk & Ha)]. exists c', s', k', v, p, b, o. split; [|done]. by rewrite Hc, Hs, Hk.
Qed.

(** The options of a socket may or may not be set. *)
Definition sock_like (c : option (nat * Ctx)) (s : option (nat * Ssl)) (fd : nat) (to : option (string * Z)) (nb : bool) (m : Machine) : Prop :=
  exists opts, alive c s (Some (fd, mkSock to opts nb)) m.

Lemma set_option_spec c s fd to nb name value :
  meets (sock_like c s fd to nb) (setIntOption fd name value) (fun _ => sock_like c s fd to nb) (sock_like c s fd to nb).
Proof.
  apply meets_pull_ex. intros opts. eapply meets_bind; [apply alive_answer|]. intros [errno|].
  - apply meets_fail. intros m Hm. by exists opts.
  - eapply meets_weaken; [eapply at_sock_alive with (E := fun _ => False)|done|intros ? m Hm; eexists; exact Hm|done].
Qed.
Lemma keepalive_spec c s fd to nb a b d :
  meets (sock_like c s fd to nb) (configureTcpKeepAlive fd a b d) (fun _ => sock_like c s fd to nb) (sock_like c s fd to nb).
Proof. unfold configureTcpKeepAlive. do 3 (eapply meets_bind; [apply set_option_spec|intros ?]). apply set_option_spec. Qed.

(** A socket option that is ignored when it cannot be set. *)
Lemma ignored_spec {A} f P (b : M Machine A) E : meets P b (fun _ => P) P -> meets (has f P) (ignored (calling b)) (fun _ => has f P) E.
Proof.
  intros Hb t Ht. pose proof (calling_spec f P b _ _ Hb t Ht) as H1. unfold ignored. destruct (calling b t) as [[e|a] t1]; exact H1.
Qed.

Lemma socket_spec c s E :
  meets (alive c s None) socket (fun r m => match r with inr fd => alive c s (Some (fd, mkSock None [] false)) m | inl _ => alive c s None m end) E.
Proof.
  eapply meets_bind; [apply alive_answer|]. intros [errno|]; [by apply meets_ret|].
  intros m (Hc & Hs & Hk & Hm). unfold mbind, M_bind, get, modify, mret, M_ret, alive. cbn. rewrite Hk. by split_and!.
Qed.

Lemma initialize_transport config c v :
  meets (owns c None None v "" false no_output) (on_context (initialize_client config))
    (fun _ t => ((verify_peer config = true -> ca_file config <> "") /\ cl_enabled config = true) /\
       exists ci, owns (Some (ci, client_ctx config)) None None (verify_peer config) "" false no_output t) closed.
Proof.
  intros t [Hf Ha]. injection Hf as Hc Hv Hs Hk Hp Hb Hout. pose proof (initialize_client_spec config c v None None (tls_context_ t)) as Hi.
  specialize (Hi ltac:(by split_and!)). unfold on_context. destruct (initialize_client config (tls_context_ t)) as [[e|[]] h]; cbn.
  - destruct Hi as [Hn Ha']. exists None, (verify_peer_ h). split; [|done]. unfold fields. cbn. by rewrite Hn, Hs, Hk, Hp, Hb, Hout.
  - destruct Hi as (He & Hca & ci & Ho & Hv' & Ha'). split; [done|]. exists ci. split; [|done]. unfold fields. cbn. by rewrite Ho, Hv', Hs, Hk, Hp, Hb, Hout.
Qed.

(** The state in which [connect] leaves the transport when it succeeds. *)
Definition secured (ip : string) (port : Z) (config : TlsClientConfig) (t : Transport) : Prop :=
  exists ci i fd opts v,
    owns (Some (ci, client_ctx config)) (Some (i, set_handshake v (client_ssl config fd (identity_of config ip))))
      (Some (fd, mkSock (Some (ip, wrap 16 port)) opts true)) (verify_peer config) (identity_of config ip) true no_output t /\
    (verify_peer config = true -> v = None).

(** What only the configuration and the address decide. *)
Definition acceptable (ip : string) (config : TlsClientConfig) : Prop :=
  cl_enabled config = true /\ inet_pton AF_INET ip = true /\
  (verify_peer config = true -> ca_file config <> "" /\ identity_of config ip <> "").

Lemma owns_owned c s k v p b o t : owns c s k v p b o t -> owned t.
Proof. intros Ht. by exists c, s, k, v, p, b, o. Qed.

(** The stages of [connect] once it has a socket. *)
Section Stages.
Context (ip : string) (port : Z) (config : TlsClientConfig) (ci fd : nat).

Definition stage (s : option (nat * Ssl)) (to : option (string * Z)) (nb : bool) (id : string) : Transport -> Prop :=
  has (Some ci, verify_peer config, fst <$> s, Some fd, id, false, no_output) (sock_like (Some (ci, client_ctx config)) s fd to nb).

Lemma stage_owned s to nb id t : stage s to nb id t -> owned t.
Proof. intros [Hf [opts Ha]]. by apply (owns_owned (Some (ci, client_ctx config)) s (Some (fd, mkSock to opts nb)) (verify_peer config) id false no_output). Qed.

(** A step on the machine, whose failure leaves something that the transport owns. *)
Lemma stage_call {A} s to nb id (body : M Machine A) Q :
  (forall opts, meets (alive (Some (ci, client_ctx config)) s (Some (fd, mkSock to opts nb))) body Q
    (fun m => exists s1 : option (nat * Ssl), fst <$> s1 = fst <$> s /\ alive (Some (ci, client_ctx config)) s1 (Some (fd, mkSock to opts nb)) m)) ->
  meets (stage s to nb id) (calling body)
    (fun a => has (Some ci, verify_peer config, fst <$> s, Some fd, id, false, no_output) (Q a)) owned.
Proof.
  intros Hb t [Hf [opts Ha]].
  pose proof (calling_spec _ _ body _ _ (Hb opts) t (conj Hf Ha)) as H1. destruct (calling body t) as [[e|a] t1]; [|done].
  destruct H1 as [Hf1 (s1 & Hs1 & Ha1)].
  apply (owns_owned (Some (ci, client_ctx config)) s1 (Some (fd, mkSock to opts nb)) (verify_peer config) id false no_output).
  split; [|done]. by rewrite Hf1, Hs1.
Qed.

(** A step that changes the socket only. *)
Lemma sock_step c s opts to nb f to' nb' E :
  (forall o, exists o', f (mkSock to o nb) = mkSock to' o' nb') ->
  meets (alive c s (Some (fd, mkSock to opts nb))) (at_sock fd f) (fun _ => sock_like c s fd to' nb') E.
Proof.
  intros Hf. eapply meets_weaken; [apply (at_sock_alive fd (mkSock to opts nb) f c s (fun _ => False))|done| |done].
  intros ? m Hm. destruct (Hf opts) as [o' He]. exists o'. by rewrite <- He.
Qed.

Lemma stage_connect :
  meets (stage None None false "") (or_shutdown (calling (connect_call fd ip (wrap 16 port))))
    (fun _ => stage None (Some (ip, wrap 16 port)) false "") closed.
Proof.
  apply or_shutdown_spec, (stage_call _ _ _ _ _ (fun _ => sock_like _ None fd (Some (ip, wrap 16 port)) false)).
  intros opts. eapply meets_bind; [apply alive_answer|]. intros [errno|]; [apply meets_fail; intros m Hm; by exists None|].
  apply sock_step. by eexists.
Qed.

Lemma stage_nonblocking i y to id :
  meets (stage (Some (i, y)) to false id) (or_shutdown (calling (set_nonblocking fd))) (fun _ => stage (Some (i, y)) to true id) closed.
Proof.
  apply or_shutdown_spec, (stage_call _ _ _ _ _ (fun _ => sock_like _ (Some (i, y)) fd to true)).
  intros opts. do 2 (eapply meets_bind; [apply alive_answer|]; intros [errno|]; [apply meets_fail; intros m Hm; by exists (Some (i, y))|]).
  apply sock_step. by eexists.
Qed.

Lemma stage_ignored s to nb id (body : M Machine unit) E :
  meets (sock_like (Some (ci, client_ctx config)) s fd to nb) body (fun _ => sock_like (Some (ci, client_ctx config)) s fd to nb)
    (sock_like (Some (ci, client_ctx config)) s fd to nb) ->
  meets (stage s to nb id) (ignored (calling body)) (fun _ => stage s to nb id) E.
Proof. apply ignored_spec. Qed.

Lemma stage_ssl to id :
  meets (stage None to false id)
    (or_shutdown (
       t ← get;
       i ← calling (createSsl_client (context_ (tls_context_ t)) (verify_peer_ (tls_context_ t)) fd (peer_identity_ t));
       modify (set_ssl (Some i))))
    (fun _ t => (exists i, stage (Some (i, client_ssl config fd id)) to false id t) /\ (verify_peer config = true -> id <> "")) closed.
Proof.
  apply or_shutdown_spec, get_fields. intros t Ht. injection Ht as -> -> _ _ -> _ _.
  eapply meets_bind.
  - apply (stage_call _ _ _ _ _ (fun i m => sock_like (Some (ci, client_ctx config)) (Some (i, client_ssl config fd id)) fd to false m /\ (verify_peer config = true -> id <> ""))).
    intros opts. eapply meets_weaken; [apply createSsl_spec|done| |intros m Hm; by exists None].
    intros i m [Ha Hid]. split; [by exists opts|done].
  - intros i. apply meets_modify. intros t1 (Hf & Ha & Hid). split; [|done]. exists i. split; [|done]. unfold fields in *. cbn in *. congruence.
Qed.

Lemma stage_handshake i y to id :
  meets (stage (Some (i, y)) to false id)
    (or_shutdown (t ← get; calling (connectBlocking (verify_peer_ (tls_context_ t)) (ssl_ t))))
    (fun _ t => exists w, stage (Some (i, set_handshake w y)) to false id t /\ (verify_peer config = true -> w = None)) closed.
Proof.
  apply or_shutdown_spec, get_fields. intros t Ht. injection Ht as _ -> -> _ _ _ _.
  eapply meets_weaken; [apply (stage_call (Some (i, y)) to false id _ (fun _ m => exists w, sock_like (Some (ci, client_ctx config)) (Some (i, set_handshake w y)) fd to false m /\ (verify_peer config = true -> w = None)))|done| |done].
  - intros opts. eapply meets_weaken; [apply connectBlocking_spec|done| |intros m [y' Hm]; by exists (Some (i, y'))].
    intros ? m (w & Ha & Hw). exists w. split; [by exists opts|done].
  - intros ? t1 (Hf & w & Ha & Hw). exists w. by split.
Qed.

Lemma after_socket :
  (verify_peer config = true -> ca_file config <> "") -> cl_enabled config = true ->
  meets (stage None None false "")
    (or_shutdown (reject_if (negb (inet_pton AF_INET ip)) "IPv4 地址无效") ;;
     or_shutdown (calling (connect_call fd ip (wrap 16 port))) ;;
     ignored (calling (configureTcpKeepAlive fd 60 15 3)) ;;
     modify (set_peer_identity (identity_of config ip)) ;;
     or_shutdown (
       t ← get;
       i ← calling (createSsl_client (context_ (tls_context_ t)) (verify_peer_ (tls_context_ t)) fd (peer_identity_ t));
       modify (set_ssl (Some i))) ;;
     or_shutdown (t ← get; calling (connectBlocking (verify_peer_ (tls_context_ t)) (ssl_ t))) ;;
     ignored (calling (configureTcpNoDelay fd true)) ;;
     or_shutdown (calling (set_nonblocking fd)) ;;
     modify (set_connected true))
    (fun _ t => secured ip port config t /\ acceptable ip config) closed.
Proof.
  intros Hca Hen.
  eapply meets_bind; [apply or_shutdown_spec, meets_reject; apply (stage_owned None None false "")|intros ?].
  apply meets_pull. intros Hip%negb_false_iff. eapply meets_bind; [apply stage_connect|intros ?].
  eapply meets_bind; [apply stage_ignored, keepalive_spec|intros ?].
  eapply (meets_bind _ _ _ (fun _ => stage None (Some (ip, wrap 16 port)) false (identity_of config ip))).
  { apply meets_modify. intros t [Hf Ha]. split; [|done]. unfold fields in *. cbn in *. congruence. }
  intros ?. eapply meets_bind; [apply stage_ssl|intros ?]. apply meets_pull. intros Hid. apply meets_pull_ex. intros i.
  eapply meets_bind; [apply stage_handshake|intros ?]. apply meets_pull_ex. intros w. apply meets_pull. intros Hw.
  eapply meets_bind; [apply stage_ignored, set_option_spec|intros ?]. eapply meets_bind; [apply stage_nonblocking|intros ?].
  apply meets_modify. intros t [Hf [o Ha]]. split.
  - exists ci, i, fd, o, w. split; [|done]. split; [|done]. unfold fields in *. cbn in *. congruence.
  - split_and!; auto.
Qed.

End Stages.

Lemma connect_spec ip port config :
  meets owned (connect ip port config) (fun _ t => secured ip port config t /\ acceptable ip config) closed.
Proof.
  unfold connect. eapply (meets_bind _ _ _ (fun _ => closed)).
  { intros t (c & s & k & v & p & b & o & Ht). pose proof (shutdown_spec c s k v p b o (fun _ => False) t Ht) as Hs.
    destruct (shutdown t) as [[e|[]] t1]; [done|]. by exists c, v. }
  intros ?. apply meets_pull_ex. intros c. apply meets_pull_ex. intros v. eapply meets_bind; [apply initialize_transport|intros ?].
  eapply meets_weaken with (E := closed) (P := fun t => (exists ci, owns (Some (ci, client_ctx config)) None None (verify_peer config) "" false no_output t) /\ ((verify_peer config = true -> ca_file config <> "") /\ cl_enabled config = true));
    [|tauto|intros ? t Ht; exact Ht|done].
  apply meets_pull. intros [Hca Hen]. apply meets_pull_ex. intros ci. eapply meets_bind.
  { eapply meets_weaken; [apply calling_spec, (socket_spec (Some (ci, client_ctx config)) None (fun _ => False))|done|intros ? t Ht; exact Ht|by intros t [_ ?]]. }
  intros [errno|fd]; [apply meets_fail; intros t Ht; by eexists _, _|].
  eapply (meets_bind _ _ _ (fun _ => stage config ci fd None None false "")); [|intros ?; by apply after_socket].
  apply meets_modify. intros t [Hf Ha]. split; [unfold fields in *; cbn in *; congruence|by exists []].
Qed.

(** ** Any use of a transport *)

Inductive Call := Connect (ip : string) (port : Z) (config : TlsClientConfig) | Shutdown.
Definition perform (call : Call) : M Transport unit :=
  match call with Connect ip port config => connect ip port config | Shutdown => shutdown end.
Definition perform_all (calls : list Call) (t : Transport) : Transport := foldl (fun t call => (perform call t).2) t calls.

(** A new transport. *)
Definition fresh (a : list Answer) (v : list (option string)) : Transport :=
  mkTransport (mkHeld None true (mkMachine ∅ ∅ ∅ 0 a v [] false)) None None "" false no_output.

Lemma fresh_owned a v : owned (fresh a v).
Proof. by exists None, None, None, true, "", false, no_output. Qed.

Lemma closed_owned t : closed t -> owned t.
Proof. intros (c & v & Ht). by eapply owns_owned. Qed.

Lemma perform_owned call t : owned t -> owned (perform call t).2.
Proof.
  intros Ht. destruct call as [ip port config|]; cbn [perform].
  - pose proof (connect_spec ip port config t Ht) as Hc. destruct (connect ip port config t) as [[e|[]] t1]; [by apply closed_owned|].
    destruct Hc as [(ci & i & fd & opts & v & Ho & _) _]. by eapply owns_owned.
  - destruct Ht as (c & s & k & v & p & b & o & Ht). pose proof (shutdown_spec c s k v p b o (fun _ => False) t Ht) as Hs.
    destruct (shutdown t) as [[e|[]] t1]; [done|]. by eapply owns_owned.
Qed.

Lemma perform_all_owned calls t : owned t -> owned (perform_all calls t).
Proof. revert t. induction calls as [|call rest IH]; intros t Ht; [done|]. by apply IH, perform_owned. Qed.

Lemma destroy_spec E : meets owned destroy (fun _ t => alive None None None (machine (tls_context_ t))) E.
Proof.
  intros t (c & s & k & v & p & b & o & Ht). unfold destroy, mbind, M_bind. pose proof (shutdown_spec c s k v p b o (fun _ => False) t Ht) as Hs.
  destruct (shutdown t) as [[e|[]] t1]; [done|]. destruct Hs as [Hf Ha]. injection Hf as Hc Hv _ _ _ _ _.
  pose proof (free_spec c v None None (fun _ => False) (tls_context_ t1) (conj Hc (conj Hv Ha))) as Hd.
  unfold on_context. destruct (free_context (tls_context_ t1)) as [[e|[]] h]; [done|]. apply Hd.
Qed.

(** What protects the connection of a transport to [ip] and [port]. *)
Definition protected (ip : string) (port : Z) (cfg : TlsClientConfig) (t : Transport) : Prop :=
  let m := machine (tls_context_ t) in
  let identity := identity_of cfg ip in
  exists i x fd k,
    ssl_ t = Some i /\ ssls m = {[i := x]} /\ socket_fd_ t = Some fd /\ socks m = {[fd := k]} /\
    peer k = Some (ip, wrap 16 port) /\ nonblocking k = true /\
    ssl_fd x = Some fd /\ role x = ConnectState /\ handshake x = true /\
    min_version (config x) = TLS1_2_VERSION /\ SSL_OP_NO_COMPRESSION ∈ options (config x) /\
    (verify_peer cfg = true ->
      verify_mode (config x) = SSL_VERIFY_PEER /\ ca_locations (config x) = Some (ca_file cfg) /\ ca_file cfg <> "" /\
      verified x = None /\ identity <> "" /\
      if isIpLiteral identity then ip_address x = Some identity else host x = Some identity /\ sni x = Some identity).

Lemma secured_protected ip port cfg t : secured ip port cfg t -> acceptable ip cfg -> protected ip port cfg t.
Proof.
  intros (ci & i & fd & opts & v & [Hf (Hc & Hs & Hk & _)] & Hv) (_ & _ & Hacc). injection Hf as _ _ Hi Hfd _ _ _.
  eexists i, _, fd, _. split_and!; [exact Hi|exact Hs|exact Hfd|exact Hk|done|done| | | | | |];
    unfold client_ssl, with_identity, client_ctx; destruct (verify_peer cfg); try destruct (isIpLiteral _); try done; cbn; try set_solver.
  all: intros _; destruct (Hacc eq_refl) as [Hca Hid]; split_and!; try done; by apply Hv.
Qed.

(** C37: Whatever connections a transport has opened and closed before, and
    whatever the calls of OpenSSL and of the kernel answer: [connect] uses and
    frees only objects that exist.  When it succeeds, the transport owns the only
    TLS connection and the only socket there are; the socket is connected to the
    address asked for and does not block, the handshake is done with TLS 1.2 or
    later and without compression, and with verification configured the
    certificate was checked against the CA file, the identity expected in it is
    the configured name, or else the address, and the verdict is good.  When it
    fails, neither a connection nor a socket is left and nothing is queued.  After
    the destructors no object is left. *)
Theorem connect_protected a v calls ip port cfg :
  let r := connect ip port cfg (perform_all calls (fresh a v)) in
  let m := machine (tls_context_ r.2) in
  let m' := machine (tls_context_ (destroy r.2).2) in
  misuse m = false /\
  match r.1 with
  | inr _ => connected_ r.2 = true /\ inet_pton AF_INET ip = true /\ protected ip port cfg r.2
  | inl _ => connected_ r.2 = false /\ ssl_ r.2 = None /\ socket_fd_ r.2 = None /\ ssls m = ∅ /\ socks m = ∅ /\ output_ r.2 = no_output
  end /\
  ctxs m' = ∅ /\ ssls m' = ∅ /\ socks m' = ∅ /\ misuse m' = false.
Proof.
  assert (owned (perform_all calls (fresh a v))) as Ho by apply perform_all_owned, fresh_owned.
  cbv zeta. pose proof (connect_spec ip port cfg _ Ho) as Hc. pose proof (perform_owned (Connect ip port cfg) _ Ho) as Ho'.
  cbn [perform] in Ho'. pose proof (destroy_spec (fun _ => False) _ Ho') as Hd.
  destruct (connect ip port cfg _) as [[e|[]] t]; cbn [fst snd] in *.
  - destruct Hc as (c & w & Hf & Ha). injection Hf as _ _ Hs Hk _ Hb Hout. destruct Ha as (_ & Hss & Hks & Hm).
    destruct (destroy t) as [[e'|[]] t']; [done|]. by split_and!; try apply Hd.
  - destruct Hc as [Hs Hacc]. pose proof (secured_protected _ _ _ _ Hs Hacc) as Hp. destruct Hs as (ci & i & fd & opts & w & [Hf Ha] & _).
    injection Hf as _ _ _ _ _ Hb _. destruct (destroy t) as [[e'|[]] t']; [done|]. split_and!; try apply Hd; try apply Hacc; try apply Ha; done.
Qed.

End Specs.

(** ** Examples *)

Section Examples.
Definition dotted (family : Family) (value : string) : bool :=
  match family with AF_INET => bool_decide (value = "10.0.0.7") | AF_INET6 => false end.
Local Instance names : NetNames := {| inet_pton := dotted |}.
Definition example_config : TlsClientConfig := mkTlsClient true true "ca.pem" "chat.example".

(** A first connection whose certificate is refused, and a second that succeeds. *)
Example refused_then_connected :
  let refused := connect "10.0.0.7" 7000 example_config (fresh [] [Some "self-signed certificate"]) in
  let second := connect "10.0.0.7" 7000 example_config refused.2 in
  refused.1 = inl "TLS peer certificate verification failed: self-signed certificate" /\
  second.1 = inr tt /\ peer_identity_ second.2 = "chat.example" /\ ssl_ second.2 = Some 5.
Proof. by vm_compute. Qed.

(** The text of an error has the details that OpenSSL has queued. *)
Example error_text_joined :
  (connect "10.0.0.7" 7000 example_config (fresh [Fine; Fine; Fine; Fails ["no such file"; "system lib"] ""] [])).1 =
    inl "SSL_CTX_load_verify_locations: no such file | system lib".
Proof. by vm_compute. Qed.
End Examples.

End TlsSetup.
