(* ===== verification/RedisLink.v ===== *)
(** * The link to Redis

    [redis_client.cpp]: connecting, authenticating, selecting a database, [PING]
    and closing.  The contexts of hiredis are entries of a table; a call on a
    context that was freed is recorded as misuse.  [Redis.v] has the commands that
    run over the link. *)
From S2P Require Import Prelude Config.
Import Config.

Module RedisLink.

(** ** hiredis *)

(** A context: the text of its error, the password it authenticated with and the
    database it selected. *)
Record Context := mkContext { err : option string; authenticated : option string; selected : option Z }.

(** A reply; [OtherReply] stands for integers, strings, arrays and nil. *)
Inductive Reply := StatusReply (str : string) | ErrorReply (str : string) | OtherReply.
#[export] Instance Reply_eq_dec : EqDecision Reply.
Proof. solve_decision. Defined.

(** What a call of [redisConnectWithTimeout] gives: no context, or one with or
    without an error. *)
Inductive Dial := NullContext | Dialled (errstr : option string).
(** What a command gives: the status that its documentation promises, another
    reply, or no reply and the error of the context. *)
Inductive Answer := Expected | Replied (r : Reply) | Broken (errstr : string).

Record Link := mkLink {
  config_ : RedisConfig; context_ : option nat; contexts : gmap nat Context; next : nat;
  dials : list Dial; replies : list Answer; misuse : bool }.
Definition set_config (x : RedisConfig) (l : Link) : Link := mkLink x (context_ l) (contexts l) (next l) (dials l) (replies l) (misuse l).
Definition set_context (x : option nat) (l : Link) : Link := mkLink (config_ l) x (contexts l) (next l) (dials l) (replies l) (misuse l).
Definition set_contexts (x : gmap nat Context) (l : Link) : Link := mkLink (config_ l) (context_ l) x (next l) (dials l) (replies l) (misuse l).
Definition set_replies (x : list Answer) (l : Link) : Link := mkLink (config_ l) (context_ l) (contexts l) (next l) (dials l) x (misuse l).
Definition set_misuse (l : Link) : Link := mkLink (config_ l) (context_ l) (contexts l) (next l) (dials l) (replies l) true.

Definition redisConnectWithTimeout : M Link (option nat) := fun l =>
  let rest := tail (dials l) in
  match dials l with
  | NullContext :: _ => (inr None, mkLink (config_ l) (context_ l) (contexts l) (next l) rest (replies l) (misuse l))
  | Dialled e :: _ => (inr (Some (next l)), mkLink (config_ l) (context_ l) (<[next l := mkContext e None None]> (contexts l)) (S (next l)) rest (replies l) (misuse l))
  | [] => (inr (Some (next l)), mkLink (config_ l) (context_ l) (<[next l := mkContext None None None]> (contexts l)) (S (next l)) rest (replies l) (misuse l))
  end.

Definition redisFree (i : nat) : M Link unit :=
  modify (fun l => match contexts l !! i with Some _ => set_contexts (delete i (contexts l)) l | None => set_misuse l end).

(** [redisCommand]: [effect] is what the server notes of this connection when it
    answers with [promised]. *)
Definition redisCommand (i : nat) (promised : string) (effect : Context -> Context) : M Link (option Reply) := fun l =>
  match contexts l !! i with
  | None => (inr None, set_misuse l)
  | Some x =>
      let l1 := set_replies (tail (replies l)) l in
      match replies l with
      | Replied r :: _ => (inr (Some r), if bool_decide (r = StatusReply promised) then set_contexts (<[i := effect x]> (contexts l)) l1 else l1)
      | Broken e :: _ => (inr None, set_contexts (<[i := mkContext (Some e) (authenticated x) (selected x)]> (contexts l)) l1)
      | _ => (inr (Some (StatusReply promised)), set_contexts (<[i := effect x]> (contexts l)) l1)
      end
  end.

(** The error of the context ([context_->err], [context_->errstr]). *)
Definition context_error (i : nat) : M Link (option string) := fun l =>
  match contexts l !! i with Some x => (inr (err x), l) | None => (inr None, set_misuse l) end.

(** ** [redis_client.cpp] *)

Definition reply_error_text (context : option nat) (reply : option Reply) : M Link string :=
  match reply with
  | Some (ErrorReply str) => mret str
  | _ =>
      match context with
      | Some i => e ← context_error i; mret (match e with Some text => text | None => "unknown Redis error" end)
      | None => mret "unknown Redis error"
      end
  end.
Definition is_ok_status (reply : option Reply) : bool :=
  match reply with Some (StatusReply str) => str =s? "OK" | _ => false end.

Definition close_locked : M Link unit :=
  l ← get;
  match context_ l with Some i => redisFree i ;; modify (set_context None) | None => mret tt end.

(** [error = reply_error_text(context_, reply); close_locked(); return false;] *)
Definition refuse (i : nat) (reply : option Reply) : M Link unit :=
  text ← reply_error_text (Some i) reply;
  close_locked ;;
  fail text.

Definition set_authenticated (p : string) (x : Context) : Context := mkContext (err x) (Some p) (selected x).
Definition set_selected (d : Z) (x : Context) : Context := mkContext (err x) (authenticated x) (Some d).

Definition authenticate_and_select_locked (i : nat) : M Link unit :=
  l ← get;
  (if is_empty (rd_password (config_ l)) then mret tt
   else
     auth_reply ← redisCommand i "OK" (set_authenticated (rd_password (config_ l)));
     if is_ok_status auth_reply then mret tt else refuse i auth_reply) ;;
  select_reply ← redisCommand i "OK" (set_selected (rd_database (config_ l)));
  if is_ok_status select_reply then mret tt else refuse i select_reply.

Definition connect_locked : M Link unit :=
  context ← redisConnectWithTimeout;
  modify (set_context context) ;;
  match context with
  | None => fail "Redis 超时连接返回空指针"
  | Some i =>
      e ← context_error i;
      match e with
      | Some text => close_locked ;; fail text
      | None => authenticate_and_select_locked i
      end
  end.

Definition ensure_connected_locked : M Link unit :=
  l ← get;
  match context_ l with
  | Some i =>
      e ← context_error i;
      match e with
      | None => mret tt
      | Some _ => close_locked ;; connect_locked
      end
  | None => close_locked ;; connect_locked
  end.

Definition connect (config : RedisConfig) : M Link unit :=
  modify (set_config config) ;;
  close_locked ;;
  connect_locked.

Definition ping : M Link unit :=
  ensure_connected_locked ;;
  l ← get;
  match context_ l with
  | None => modify set_misuse ;; fail "unknown Redis error"
  | Some i =>
      reply ← redisCommand i "PONG" (fun x => x);
      match reply with
      | Some (StatusReply str) => if str =s? "PONG" then mret tt else refuse i reply
      | _ => refuse i reply
      end
  end.

(** ** The link is closed, or open as configured *)

Definition closed (c : RedisConfig) (l : Link) : Prop := config_ l = c /\ context_ l = None /\ contexts l = ∅ /\ misuse l = false.

(** One context is alive, and it is the link's. *)
Definition holds (c : RedisConfig) (i : nat) (x : Context) (l : Link) : Prop :=
  config_ l = c /\ context_ l = Some i /\ contexts l = {[i := x]} /\ misuse l = false.
Definition held (c : RedisConfig) (i : nat) (l : Link) : Prop := exists x, holds c i x l.

(** A context on which commands work for the configured user and database. *)
Definition usable (c : RedisConfig) (x : Context) : Prop :=
  err x = None /\ selected x = Some (rd_database c) /\ (rd_password c <> "" -> authenticated x = Some (rd_password c)).
Definition open (c : RedisConfig) (l : Link) : Prop := exists i x, holds c i x l /\ usable c x.
(** Between two calls: closed, open, or open with an error that a command met. *)
Definition link_ok (c : RedisConfig) (l : Link) : Prop :=
  closed c l \/ exists i x, holds c i x l /\ (err x = None -> usable c x).

Lemma close_spec c i E : meets (held c i) close_locked (fun _ => closed c) E.
Proof.
  intros l (x & Hc & Hi & Hx & Hm). unfold close_locked, mbind, M_bind, get. rewrite Hi. unfold redisFree, modify. cbn.
  rewrite Hx, lookup_singleton_eq. cbn. unfold closed. cbn. by rewrite delete_singleton_eq.
Qed.
Lemma close_closed c E : meets (closed c) close_locked (fun _ => closed c) E.
Proof. intros l (Hc & Hi & Hx & Hm). unfold close_locked, mbind, M_bind, get. rewrite Hi. by split_and!. Qed.

Lemma error_spec c i x E : meets (holds c i x) (context_error i) (fun e l => holds c i x l /\ e = err x) E.
Proof. intros l (Hc & Hi & Hx & Hm). unfold context_error. rewrite Hx, lookup_singleton_eq. by split_and!. Qed.

Lemma refuse_spec c i reply Q : meets (held c i) (refuse i reply) Q (closed c).
Proof.
  eapply (meets_bind _ _ _ (fun _ => held c i)).
  - apply meets_pull_ex. intros x. unfold reply_error_text. destruct reply as [[str|str|]|]; try (apply meets_ret; intros l Hl; by exists x).
    all: eapply meets_bind; [apply error_spec|intros e]; apply meets_ret; intros l [Hl _]; by exists x.
  - intros text. eapply meets_bind; [apply close_spec|intros ?]. by apply meets_fail.
Qed.

Lemma command_spec c i x promised effect E :
  meets (holds c i x) (redisCommand i promised effect)
    (fun r l => if bool_decide (r = Some (StatusReply promised)) then holds c i (effect x) l else held c i l) E.
Proof.
  intros l (Hc & Hi & Hx & Hm). unfold redisCommand. rewrite Hx, lookup_singleton_eq.
  destruct (replies l) as [|[|r|e] rest]; cbn; rewrite ?insert_singleton_eq.
  - rewrite bool_decide_eq_true_2 by done. by split_and!.
  - rewrite bool_decide_eq_true_2 by done. by split_and!.
  - repeat case_bool_decide; try congruence; [by split_and!|]. by exists x.
  - rewrite bool_decide_eq_false_2 by done. by eexists; split_and!.
Qed.

Lemma ok_status reply : is_ok_status reply = true <-> reply = Some (StatusReply "OK").
Proof. destruct reply as [[str|str|]|]; cbn; try done. rewrite String.eqb_eq. split; [by intros ->|by intros [= ->]]. Qed.

(** A command that must be answered with [OK]. *)
Lemma ok_command c i x effect (k : M Link unit) Q :
  meets (holds c i (effect x)) k Q (closed c) ->
  meets (holds c i x) ((reply ← redisCommand i "OK" effect; if is_ok_status reply then mret tt else refuse i reply) ;; k) Q (closed c).
Proof.
  intros Hk. eapply (meets_bind _ _ _ (fun _ => holds c i (effect x))); [|intros ?; exact Hk].
  eapply meets_bind; [apply command_spec|intros reply]. destruct (is_ok_status reply) eqn:Eo.
  - apply ok_status in Eo as ->. rewrite bool_decide_eq_true_2 by done. by apply meets_ret.
  - rewrite bool_decide_eq_false_2 by (intros He; by rewrite He in Eo). apply refuse_spec.
Qed.

Lemma authenticate_spec c i :
  meets (holds c i (mkContext None None None)) (authenticate_and_select_locked i) (fun _ => open c) (closed c).
Proof.
  intros l Hl. pose proof Hl as [Hc _]. unfold authenticate_and_select_locked. unfold mbind at 1, M_bind at 1. cbn [get]. rewrite Hc.
  revert l Hl Hc. enough (forall y, (rd_password c <> "" -> authenticated y = Some (rd_password c)) -> err y = None ->
    meets (holds c i y) (select_reply ← redisCommand i "OK" (set_selected (rd_database c)); if is_ok_status select_reply then mret tt else refuse i select_reply) (fun _ => open c) (closed c)) as Hs.
  - intros l Hl _. destruct (is_empty (rd_password c)) eqn:Ep.
    + apply is_empty_true in Ep. by apply (Hs (mkContext None None None)).
    + apply (ok_command c i (mkContext None None None) (set_authenticated (rd_password c))); [|done]. by apply Hs.
  - intros y Hp He l Hl. eapply (meets_bind (holds c i y) _ (fun r => if is_ok_status r then mret tt else refuse i r) (fun r l => if bool_decide (r = Some (StatusReply "OK")) then holds c i (set_selected (rd_database c) y) l else held c i l)); [apply command_spec| |exact Hl].
    intros reply. destruct (is_ok_status reply) eqn:Eo.
    + apply ok_status in Eo as ->. rewrite bool_decide_eq_true_2 by done. apply meets_ret. intros l' Hl'. by exists i, (set_selected (rd_database c) y).
    + rewrite bool_decide_eq_false_2 by (intros Hr; by rewrite Hr in Eo). apply refuse_spec.
Qed.

Lemma connect_locked_spec c : meets (closed c) connect_locked (fun _ => open c) (closed c).
Proof.
  eapply (meets_bind _ _ _ (fun r l => config_ l = c /\ context_ l = None /\ misuse l = false /\
    match r with None => contexts l = ∅ | Some i => exists e, contexts l = {[i := mkContext e None None]} end)).
  { intros l (Hc & Hi & Hx & Hm). unfold redisConnectWithTimeout. destruct (dials l) as [|[|e] rest]; cbn; rewrite ?Hx; split_and!; eauto. }
  intros [i|].
  - eapply (meets_bind _ _ _ (fun _ l => exists e, holds c i (mkContext e None None) l)).
    { apply meets_modify. intros l (Hc & Hi & Hm & e & Hx). exists e. by split_and!. }
    intros ?. apply meets_pull_ex. intros e. eapply meets_bind; [apply error_spec|intros e']. apply meets_pull. intros ->.
    destruct e as [text|]; [|apply authenticate_spec]. eapply (meets_bind _ _ _ (fun _ => closed c)); [|intros ?; by apply meets_fail].
    intros l Hl. apply (close_spec c i). by eexists.
  - eapply (meets_bind _ _ _ (fun _ => closed c)); [|intros ?; by apply meets_fail]. apply meets_modify. by intros l (Hc & Hi & Hm & Hx).
Qed.

Lemma link_close c E : meets (link_ok c) close_locked (fun _ => closed c) E.
Proof.
  intros l [Hl|(i & x & Hl & _)]; [by apply close_closed|]. apply (close_spec c i). by exists x.
Qed.

(** [ensure_connected_locked] keeps a link without an error and makes a new one of
    any other; a new link is authenticated and on the configured database. *)
Theorem ensure_connected_spec c : meets (link_ok c) ensure_connected_locked (fun _ => open c) (closed c).
Proof.
  assert (meets (link_ok c) (close_locked ;; connect_locked) (fun _ => open c) (closed c)) as Hnew
    by (eapply meets_bind; [apply link_close|intros ?; apply connect_locked_spec]).
  intros l Hl. unfold ensure_connected_locked. unfold mbind at 1, M_bind at 1. cbn [get].
  destruct Hl as [Hl|(i & x & Hl & Hu)].
  - pose proof Hl as (_ & Hi & _). rewrite Hi. apply Hnew. by left.
  - pose proof Hl as (_ & Hi & Hx & _). rewrite Hi. unfold mbind at 1, M_bind at 1. unfold context_error. rewrite Hx, lookup_singleton_eq.
    destruct (err x) eqn:Ee; [|by exists i, x; auto]. apply Hnew. right. exists i, x. split; [done|]. congruence.
Qed.

Theorem connect_link_spec c c0 : meets (link_ok c0) (connect c) (fun _ => open c) (closed c).
Proof.
  eapply (meets_bind _ _ _ (fun _ l => exists k, closed k (set_config k l) /\ config_ l = c \/ exists i x, holds c i x l)).
  { apply meets_modify. intros l [(Hc & Hi & Hx & Hm)|(i & x & (Hc & Hi & Hx & Hm) & _)]; exists c; [left; by split_and!|].
    right. exists i, x. by split_and!. }
  intros ?. eapply meets_bind; [|intros ?; apply connect_locked_spec].
  intros l [k [[Hl Hc]|(i & x & Hl)]]; [|apply (close_spec c i); by exists x].
  apply (close_closed c). destruct Hl as (_ & Hi & Hx & Hm). by split_and!.
Qed.

Theorem ping_spec c : meets (link_ok c) ping (fun _ => open c) (closed c).
Proof.
  eapply meets_bind; [apply ensure_connected_spec|intros ?]. apply meets_pull_ex. intros i. apply meets_pull_ex. intros x.
  apply meets_pull. intros Hu l Hl. pose proof Hl as (_ & Hi & _). unfold mbind at 1, M_bind at 1. cbn [get]. rewrite Hi.
  revert l Hl Hi. enough (meets (holds c i x) (reply ← redisCommand i "PONG" (fun x => x);
    match reply with Some (StatusReply str) => if str =s? "PONG" then mret tt else refuse i reply | _ => refuse i reply end) (fun _ => open c) (closed c)) as Hs
    by (intros l Hl _; by apply Hs).
  eapply meets_bind; [apply command_spec|intros reply]. destruct reply as [[str|str|]|]; try (rewrite bool_decide_eq_false_2 by done; apply refuse_spec).
  destruct (String.eqb_spec str "PONG") as [->|Hne].
  - rewrite bool_decide_eq_true_2 by done. apply meets_ret. intros l Hl. by exists i, x.
  - rewrite bool_decide_eq_false_2 by congruence. apply refuse_spec.
Qed.

Lemma link_open_ok c l : open c l -> link_ok c l.
Proof. intros (i & x & Hl & Hu). right. exists i, x. auto. Qed.
Lemma link_closed_ok c l : closed c l -> link_ok c l.
Proof. by left. Qed.

End RedisLink.
