(* ===== verification/ServerMain.v ===== *)
(** * The server process

    [server_main.cpp], [server_console.cpp], [server_log.cpp], [MySqlDatabase]'s
    [connect] and [ping], the constructors of [EventLoop], [Acceptor] and
    [ChatServer], and [TcpServer::start]: from the command line to the loop, on
    top of the loaders of [Config.v], the TLS contexts of [TlsSetup.v], the pool of
    [ConnectionPool.v] and the link of [RedisLink.v]. *)
From S2P Require Import Prelude Protocol Config ConnectionPool TlsSetup RedisLink.
Import Protocol Config.

Module ServerMain.

(** ** The process and what it runs on *)

(** How [main] ends, or the loop it stays in. *)
Inductive Ending := Returned (code : Z) | Terminated (what : string) | Serving.

Record Listener := mkListener { reuse : bool; bound : option Z; listening : bool }.

(** The database layer: its pool, the handles that [mysql_init] made and
    [mysql_close] got, in order, and what [mysql_ping] will answer. *)
Record Db := mkDb { pool : ConnectionPool.Pool; made : list nat; closed : list nat; mysql_ping : option string }.

Record Host := mkHost {
  files : gmap string string;              (* the files that can be opened *)
  tty : bool;                              (* isatty(STDOUT_FILENO) *)
  attempts : nat -> ConnectionPool.Attempt;  (* of the connections to MySQL *)
  answers : list (option string);          (* of the kernel, in order: the text of a failure *)
  tls : TlsSetup.Held;
  db : Db;
  redis : RedisLink.Link;
  main_loop : bool;                        (* the loop is constructed *)
  listener : option Listener;
  threads : nat;                           (* running beside main *)
  cerr : list string; cout : list string; log : list string;
  ending : option Ending }.
Definition set_answers (x : list (option string)) (h : Host) : Host := mkHost (files h) (tty h) (attempts h) x (tls h) (db h) (redis h) (main_loop h) (listener h) (threads h) (cerr h) (cout h) (log h) (ending h).
Definition set_tls (x : TlsSetup.Held) (h : Host) : Host := mkHost (files h) (tty h) (attempts h) (answers h) x (db h) (redis h) (main_loop h) (listener h) (threads h) (cerr h) (cout h) (log h) (ending h).
Definition set_db (x : Db) (h : Host) : Host := mkHost (files h) (tty h) (attempts h) (answers h) (tls h) x (redis h) (main_loop h) (listener h) (threads h) (cerr h) (cout h) (log h) (ending h).
Definition set_redis (x : RedisLink.Link) (h : Host) : Host := mkHost (files h) (tty h) (attempts h) (answers h) (tls h) (db h) x (main_loop h) (listener h) (threads h) (cerr h) (cout h) (log h) (ending h).
Definition set_main_loop (x : bool) (h : Host) : Host := mkHost (files h) (tty h) (attempts h) (answers h) (tls h) (db h) (redis h) x (listener h) (threads h) (cerr h) (cout h) (log h) (ending h).
Definition set_listener (x : option Listener) (h : Host) : Host := mkHost (files h) (tty h) (attempts h) (answers h) (tls h) (db h) (redis h) (main_loop h) x (threads h) (cerr h) (cout h) (log h) (ending h).
Definition set_threads (x : nat) (h : Host) : Host := mkHost (files h) (tty h) (attempts h) (answers h) (tls h) (db h) (redis h) (main_loop h) (listener h) x (cerr h) (cout h) (log h) (ending h).
Definition print_cerr (x : string) (h : Host) : Host := mkHost (files h) (tty h) (attempts h) (answers h) (tls h) (db h) (redis h) (main_loop h) (listener h) (threads h) (cerr h ++ [x]) (cout h) (log h) (ending h).
Definition print_cout (x : string) (h : Host) : Host := mkHost (files h) (tty h) (attempts h) (answers h) (tls h) (db h) (redis h) (main_loop h) (listener h) (threads h) (cerr h) (cout h ++ [x]) (log h) (ending h).
Definition print_log (x : string) (h : Host) : Host := mkHost (files h) (tty h) (attempts h) (answers h) (tls h) (db h) (redis h) (main_loop h) (listener h) (threads h) (cerr h) (cout h) (log h ++ [x]) (ending h).
Definition set_ending (x : Ending) (h : Host) : Host := mkHost (files h) (tty h) (attempts h) (answers h) (tls h) (db h) (redis h) (main_loop h) (listener h) (threads h) (cerr h) (cout h) (log h) (Some x).

(** A call of the kernel, of the file system or of [std::thread]: it succeeds, or
    fails with a text. *)
Definition call : M Host unit := fun h =>
  match answers h with
  | [] => (inr tt, h)
  | None :: rest => (inr tt, set_answers rest h)
  | Some text :: rest => (inl text, set_answers rest h)
  end.
(** The text of an error behind another one. *)
Definition prefixed {S A} (prefix : string) (c : M S A) : M S A := fun s =>
  match c s with (inl e, s1) => (inl (prefix +:+ e), s1) | r => r end.

Definition on_tls {A} (c : M TlsSetup.Held A) : M Host A := fun h => let r := c (tls h) in (r.1, set_tls r.2 h).
Definition on_redis {A} (c : M RedisLink.Link A) : M Host A := fun h => let r := c (redis h) in (r.1, set_redis r.2 h).
Definition on_db {A} (c : M Db A) : M Host A := fun h => let r := c (db h) in (r.1, set_db r.2 h).

(** ** [MySqlDatabase::connect], [ping], [pool_size] and its destructor *)

Fixpoint tried (l : list ConnectionPool.Attempt) : list ConnectionPool.Attempt :=
  match l with
  | [] => []
  | a :: rest => a :: match ConnectionPool.open_connection a with inl _ => [] | inr _ => tried rest end
  end.

(** [MySqlConnectionPool::shutdown], when no lease is out. *)
Definition pool_shutdown : M Db unit :=
  modify (fun d =>
    let (over, p) := ConnectionPool.shutdown_begin (pool d) in
    if over then mkDb p (made d) (closed d) (mysql_ping d)
    else let (connections, p') := ConnectionPool.shutdown_end p in mkDb p' (made d) (closed d ++ connections) (mysql_ping d)).

Definition open_pool (config : MySqlConfig) (attempt : nat -> ConnectionPool.Attempt) : M Db unit := fun d =>
  let all := map attempt (seq 0 (Z.to_nat (pool_size config))) in
  let made' := made d ++ ConnectionPool.given (tried all) in
  match ConnectionPool.open_all (pool_size config) all 0 [] with
  | inl (error, opened) => (inl error, mkDb (pool d) made' (closed d ++ opened) (mysql_ping d))
  | inr opened => (inr tt, mkDb (ConnectionPool.install opened (pool d)) made' (closed d) (mysql_ping d))
  end.
Definition connect_database (config : MySqlConfig) (attempt : nat -> ConnectionPool.Attempt) : M Db unit :=
  pool_shutdown ;; open_pool config attempt.

(** Nobody else uses the pool, so the wait is over when a connection is free. *)
Definition ping_database : M Db unit := fun d =>
  let (lease, p) := ConnectionPool.acquire (ConnectionPool.ready (pool d)) (pool d) in
  match lease with
  | ConnectionPool.NoLease error => (inl error, mkDb p (made d) (closed d) (mysql_ping d))
  | ConnectionPool.Leased connection =>
      (match mysql_ping d with Some error => inl error | None => inr tt end,
       mkDb (ConnectionPool.release connection p) (made d) (closed d) (mysql_ping d))
  end.

(** ** Logging *)

Definition initialize_server_logging : M Host unit :=
  prefixed "无法创建日志目录：" call ;;
  prefixed "spdlog 初始化失败：" call.

(** ** Constructors; what they throw is the error *)

Definition construct_loop : M Host unit :=
  prefixed "epoll_create1 failed: " call ;;
  prefixed "eventfd failed: " call ;;
  prefixed "epoll_ctl failed: " call.
Definition new_main_loop : M Host unit := construct_loop ;; modify (set_main_loop true).

(** [TcpServer], whose constructor makes the [Acceptor]: the socket is closed
    before an exception. *)
Definition or_close (c : M Host unit) : M Host unit := fun h =>
  match c h with (inl e, h1) => (inl e, set_listener None h1) | r => r end.
Definition new_acceptor (port : Z) : M Host unit :=
  prefixed "socket failed: " call ;;
  modify (set_listener (Some (mkListener false None false))) ;;
  or_close (prefixed "setsockopt(SO_REUSEADDR) failed: " call) ;;
  modify (set_listener (Some (mkListener true None false))) ;;
  or_close (prefixed "bind failed: " call) ;;
  modify (set_listener (Some (mkListener true (Some (wrap 16 port)) false))).

(** [ChatServer]: an exception, or the end of the process when a vector or a
    member with a running thread is destroyed. *)
Inductive Built := Constructed | Threw (what : string) | Died (what : string).
Definition add_thread (h : Host) : Host := set_threads (S (threads h)) h.

Definition attempt_call (prefix : string) (failed : string -> M Host Built) (next : M Host Built) : M Host Built := fun h =>
  match call h with
  | (inl text, h1) => failed (prefix +:+ text) h1
  | (inr _, h1) => next h1
  end.
(** [stop] of the service joins its two workers. *)
Definition stop_file_service (what : string) : M Host Built := modify (set_threads 0) ;; mret (Threw what).
Definition new_chat_server : M Host Built :=
  attempt_call "" (fun what => mret (Threw what)) (
  modify add_thread ;;
  attempt_call "" (fun what => mret (Died what)) (
  modify add_thread ;;
  attempt_call "file transfer storage initialization failed: 无法创建文件传输临时目录：" stop_file_service (
  attempt_call "file transfer storage initialization failed: 无法创建文件传输存储目录：" stop_file_service (
  attempt_call "" stop_file_service (
  modify add_thread ;;
  attempt_call "" (fun what => mret (Died what)) (
  modify add_thread ;;
  mret Constructed)))))).

(** [EventLoopThreadPool::start]: a thread with a loop, [count] times. *)
Fixpoint start_loops (count : nat) : M Host unit :=
  match count with
  | O => mret tt
  | S rest => call ;; modify add_thread ;; construct_loop ;; start_loops rest
  end.
Definition listen : M Host unit :=
  prefixed "listen failed: " call ;;
  modify (fun h => set_listener ((fun l => mkListener (reuse l) (bound l) true) <$> listener h) h) ;;
  prefixed "epoll_ctl failed: " call.
Definition start_server (worker_threads : Z) : M Host unit :=
  start_loops (Z.to_nat worker_threads) ;;
  listen.

(** ** The console *)

Record ServerConsoleInfo := mkInfo {
  port : Z; worker_threads : Z; tls_certificate : string; server_instance_id : string;
  file_storage_root : string; log_directory : string; mysql_pool_size : Z }.

Fixpoint spaces (n : nat) : string := match n with O => "" | S k => " " +:+ spaces k end.
Definition row (label value : string) : string := "  " +:+ label +:+ spaces (18 - String.length label) +:+ value.

Definition esc : string := String "027"%char EmptyString.
Definition print_server_console (color : bool) (info : ServerConsoleInfo) : string :=
  let cyan := if color then esc +:+ "[36m" else "" in
  let green := if color then esc +:+ "[32m" else "" in
  let bold := if color then esc +:+ "[1m" else "" in
  let reset := if color then esc +:+ "[0m" else "" in
  let rule := cyan +:+ "+----------------------------------------------------------+" +:+ reset +:+ nl in
  nl +:+ rule +:+
  cyan +:+ "| " +:+ bold +:+ "Chatroom Server - Binary Zero-Copy Edition" +:+ reset +:+ cyan +:+ "                 |" +:+ reset +:+ nl +:+
  rule +:+
  row "Listen" ("0.0.0.0:" +:+ to_string_signed (port info)) +:+ nl +:+
  row "Reactors" ("1 main + " +:+ to_string_signed (worker_threads info) +:+ " worker(s)") +:+ nl +:+
  row "Heartbeat" "client PING -> server PONG + TCP keepalive" +:+ nl +:+
  row "File payload" "raw binary; kTLS SSL_sendfile when available" +:+ nl +:+
  row "MySQL pool" (to_string (mysql_pool_size info) +:+ " connection(s)") +:+ nl +:+
  row "Server ID" (server_instance_id info) +:+ nl +:+
  row "File storage" (file_storage_root info) +:+ nl +:+
  row "Log directory" (log_directory info) +:+ nl +:+
  row "TLS certificate" (tls_certificate info) +:+ nl +:+
  rule +:+
  green +:+ "  [READY] server event loop started" +:+ reset +:+ nl +:+ nl.

(** ** [main] *)

(** The destructors of its objects, the last one first; on an object that was not
    constructed yet they do nothing. *)
Definition unwind : M Host unit :=
  modify (set_listener None) ;;
  modify (set_main_loop false) ;;
  on_redis RedisLink.close_locked ;;
  on_db pool_shutdown ;;
  on_tls TlsSetup.free_context.

(** [if (!call) { std::cerr << ...; return 1; }], and an exception nobody catches. *)
Definition return_1 (h : Host) : Host := set_ending (Returned 1) (unwind h).2.
Definition or_return {A} (prefix : string) (c : M Host A) : M Host A := fun h =>
  match c h with (inl e, h1) => (inl e, return_1 (print_cerr (prefix +:+ e +:+ nl) h1)) | r => r end.
Definition or_log {A} (prefix : string) (c : M Host A) : M Host A := fun h =>
  match c h with (inl e, h1) => (inl e, return_1 (print_log (prefix +:+ e) h1)) | r => r end.
Definition or_terminate {A} (c : M Host A) : M Host A := fun h =>
  match c h with (inl e, h1) => (inl e, set_ending (Terminated e) h1) | r => r end.

(** The argument at a position, if it is given. *)
Definition argument (argv : list string) (i : nat) (otherwise : string) : string := default otherwise (argv !! i).
Definition parsed {A} (argument : option string) (parse : string -> option A) (otherwise : A) (error : string) : M Host A :=
  match argument with
  | None => mret otherwise
  | Some text => match parse text with Some a => mret a | None => fail error end
  end.

Definition load {C} (loader : string -> option string -> M C unit) (initial : C) (path : string) : M Host C := fun h =>
  match loader path (files h !! path) initial with
  | (inl e, _) => (inl e, h)
  | (inr _, config) => (inr config, h)
  end.

(** [argv] without the name of the program. *)
Definition main (argv : list string) : M Host unit :=
  port ← or_return "" (parsed (argv !! 0) parse_port 9000%Z "服务端端口号无效");
  let mysql_config_path := argument argv 1 "config/mysql.conf" in
  let redis_config_path := argument argv 2 "config/redis.conf" in
  let tls_config_path := argument argv 3 "config/tls_server.conf" in
  workers ← or_return "" (parsed (argv !! 4) (fun text => parse_count text 1 64) 4%Z "工作线程数必须在 1-64 之间");
  let storage := argument argv 5 "data/server_files" in
  let logs := argument argv 6 "logs" in
  or_return "" initialize_server_logging ;;
  modify (print_log "正在启动聊天室服务") ;;
  mysql_config ← or_return "" (load load_mysql_config default_mysql mysql_config_path);
  redis_config ← or_return "" (load load_redis_config default_redis redis_config_path);
  tls_config ← or_return "TLS 服务端配置加载失败：" (load load_tls_server_config default_tls_server tls_config_path);
  or_return "TLS 服务端初始化失败：" (on_tls (TlsSetup.initialize_server tls_config)) ;;
  h ← get;
  or_return "MySQL 连接失败：" (on_db (connect_database mysql_config (attempts h))) ;;
  or_log "MySQL 连接池健康检查失败：" (on_db ping_database) ;;
  h ← get;
  modify (print_log ("MySQL 连接池已就绪，共 " +:+ to_string (Z.of_nat (ConnectionPool.size (pool (db h)))) +:+ " 个连接")) ;;
  or_return "Redis 连接失败：" (on_redis (RedisLink.connect redis_config ;; RedisLink.ping)) ;;
  or_terminate new_main_loop ;;
  or_terminate (new_acceptor port) ;;
  let server_instance_id := rd_server_name redis_config +:+ ":" +:+ to_string_signed port in
  built ← new_chat_server;
  match built with
  | Constructed => mret tt
  | Threw what => or_return "聊天室服务初始化失败：" (fail what)
  | Died what => or_terminate (fail what)
  end ;;
  or_terminate (start_server workers) ;;
  h ← get;
  modify (print_cout (print_server_console (tty h)
    (mkInfo port workers (certificate_file tls_config) server_instance_id storage logs (Z.of_nat (ConnectionPool.size (pool (db h))))))) ;;
  modify (print_log ("服务端已就绪，端口 " +:+ to_string_signed port +:+ "，工作 Reactor 数量 " +:+ to_string_signed workers +:+
    "；heartbeat=client PING/server PONG; file_payload=raw binary")) ;;
  modify (set_ending Serving).

(** A process whose files, kernel, OpenSSL, MySQL and Redis answer as given. *)
Definition boot (f : gmap string string) (color : bool) (attempt : nat -> ConnectionPool.Attempt) (kernel : list (option string))
    (openssl : list TlsSetup.Answer) (ping : option string) (dials : list RedisLink.Dial) (replies : list RedisLink.Answer) : Host :=
  mkHost f color attempt kernel
    (TlsSetup.mkHeld None true (TlsSetup.mkMachine ∅ ∅ ∅ 0 openssl [] [] false))
    (mkDb ConnectionPool.empty_pool [] [] ping)
    (RedisLink.mkLink default_redis None ∅ 0 dials replies false)
    false None 0 [] [] [] None.

(** ** What the process holds *)

(** The value of an argument, or the default. *)
Definition chosen {A} (o : option string) (parse : string -> option A) (a0 a : A) : Prop :=
  match o with None => a = a0 | Some text => parse text = Some a end.
(** The configuration that a loader reads. *)
Definition from_file {C} (loader : string -> option string -> M C unit) (initial : C) (fs : gmap string string) (path : string) (config : C) : Prop :=
  loader path (fs !! path) initial = (inr tt, config).

Section Holding.
(** Whether the kernel refuses nothing, and the files. *)
Context (fine : Prop) (fs : gmap string string).

(** The connections [hs] are open and free. *)
Definition db_holds (hs : list nat) (d : Db) : Prop :=
  ConnectionPool.all_ (pool d) = hs /\ ConnectionPool.available_ (pool d) ≡ₚ hs /\ made d ≡ₚ closed d ++ hs /\
  (hs <> [] -> ConnectionPool.stopping_ (pool d) = false).
Definition tls_holds (c : option (nat * TlsSetup.Ctx)) (t : TlsSetup.Held) : Prop :=
  exists v, TlsSetup.object (fst <$> c) v (TlsSetup.alive c None None) t.
Definition redis_holds (r : option RedisConfig) (l : RedisLink.Link) : Prop :=
  match r with Some c => RedisLink.open c l | None => exists c, RedisLink.closed c l end.

Definition holds (c : option (nat * TlsSetup.Ctx)) (hs : list nat) (r : option RedisConfig) (lp : bool) (ls : option Listener) (th : nat)
    (e : option Ending) (h : Host) : Prop :=
  tls_holds c (tls h) /\ db_holds hs (db h) /\ redis_holds r (redis h) /\
  main_loop h = lp /\ listener h = ls /\ threads h = th /\ ending h = e /\ (fine -> Forall (.= None) (answers h)) /\ files h = fs.
(** Anything but threads. *)
Definition some_holds (h : Host) : Prop := exists c hs r lp ls, holds c hs r lp ls 0 None h.
(** The two ways in which [main] does not get to its loop. *)
Definition failed (h : Host) : Prop :=
  holds None [] None false None 0 (Some (Returned 1)) h \/ exists what, ending h = Some (Terminated what) /\ ~ fine.

Lemma holds_some c hs r lp ls h : holds c hs r lp ls 0 None h -> some_holds h.
Proof. intros Hh. by exists c, hs, r, lp, ls. Qed.

Lemma prefixed_spec {S A} prefix (P : S -> Prop) (b : M S A) Q E : meets P b Q E -> meets P (prefixed prefix b) Q E.
Proof. intros Hb s Hs. specialize (Hb s Hs). unfold prefixed. by destruct (b s) as [[e|a] s1]. Qed.

Lemma call_spec c hs r lp ls th e :
  meets (holds c hs r lp ls th e) call (fun _ => holds c hs r lp ls th e) (fun h => holds c hs r lp ls th e h /\ ~ fine).
Proof.
  intros h (Ht & Hd & Hr & Hlp & Hls & Hth & He & Ha & Hfs). unfold call. destruct (answers h) as [|[text|] rest] eqn:Eq.
  - by split_and!; rewrite ?Eq.
  - assert (~ fine) as Hnf by (intros Hf; by pose proof (Forall_inv (Ha Hf))). by split; [split_and!|].
  - split_and!; try done. intros Hf. by apply (Forall_inv_tail (Ha Hf)).
Qed.

(** A change of one part. *)
Lemma set_loop_spec c hs r lp lp' ls th e E : meets (holds c hs r lp ls th e) (modify (set_main_loop lp')) (fun _ => holds c hs r lp' ls th e) E.
Proof. apply meets_modify. intros h (Ht & Hd & Hr & Hlp & Hls & Hth & He & Ha & Hfs). by split_and!. Qed.
Lemma set_listener_spec c hs r lp ls ls' th e E : meets (holds c hs r lp ls th e) (modify (set_listener ls')) (fun _ => holds c hs r lp ls' th e) E.
Proof. apply meets_modify. intros h (Ht & Hd & Hr & Hlp & Hls & Hth & He & Ha & Hfs). by split_and!. Qed.
Lemma set_threads_spec c hs r lp ls th th' e E : meets (holds c hs r lp ls th e) (modify (set_threads th')) (fun _ => holds c hs r lp ls th' e) E.
Proof. apply meets_modify. intros h (Ht & Hd & Hr & Hlp & Hls & Hth & He & Ha & Hfs). by split_and!. Qed.
Lemma add_thread_spec c hs r lp ls th e E : meets (holds c hs r lp ls th e) (modify add_thread) (fun _ => holds c hs r lp ls (S th) e) E.
Proof. apply meets_modify. intros h (Ht & Hd & Hr & Hlp & Hls & Hth & He & Ha & Hfs). split_and!; try done. cbn. by rewrite Hth. Qed.
Lemma print_spec c hs r lp ls th e f E :
  (forall h, holds c hs r lp ls th e h -> holds c hs r lp ls th e (f h)) ->
  meets (holds c hs r lp ls th e) (modify f) (fun _ => holds c hs r lp ls th e) E.
Proof. intros Hf. by apply meets_modify. Qed.

(** A call of one part; the others stay as they are. *)
Lemma on_tls_spec c hs r lp ls th e {A} (b : M TlsSetup.Held A) (Q : A -> TlsSetup.Held -> Prop) (E : TlsSetup.Held -> Prop) :
  meets (tls_holds c) b Q E ->
  meets (holds c hs r lp ls th e) (on_tls b)
    (fun a h => Q a (tls h) /\ forall c', tls_holds c' (tls h) -> holds c' hs r lp ls th e h)
    (fun h => E (tls h) /\ forall c', tls_holds c' (tls h) -> holds c' hs r lp ls th e h).
Proof.
  intros Hb h (Ht & Hd & Hr & Hlp & Hls & Hth & He & Ha & Hfs). specialize (Hb _ Ht). unfold on_tls.
  destruct (b (tls h)) as [[x|a] t]; (split; [exact Hb|]); intros c' Hc'; by split_and!.
Qed.
Lemma on_db_spec c hs r lp ls th e {A} (b : M Db A) (Q : A -> Db -> Prop) (E : Db -> Prop) :
  meets (db_holds hs) b Q E ->
  meets (holds c hs r lp ls th e) (on_db b)
    (fun a h => Q a (db h) /\ forall hs', db_holds hs' (db h) -> holds c hs' r lp ls th e h)
    (fun h => E (db h) /\ forall hs', db_holds hs' (db h) -> holds c hs' r lp ls th e h).
Proof.
  intros Hb h (Ht & Hd & Hr & Hlp & Hls & Hth & He & Ha & Hfs). specialize (Hb _ Hd). unfold on_db.
  destruct (b (db h)) as [[x|a] t]; (split; [exact Hb|]); intros c' Hc'; by split_and!.
Qed.
Lemma on_redis_spec c hs r lp ls th e {A} (b : M RedisLink.Link A) (Q : A -> RedisLink.Link -> Prop) (E : RedisLink.Link -> Prop) :
  meets (redis_holds r) b Q E ->
  meets (holds c hs r lp ls th e) (on_redis b)
    (fun a h => Q a (redis h) /\ forall r', redis_holds r' (redis h) -> holds c hs r' lp ls th e h)
    (fun h => E (redis h) /\ forall r', redis_holds r' (redis h) -> holds c hs r' lp ls th e h).
Proof.
  intros Hb h (Ht & Hd & Hr & Hlp & Hls & Hth & He & Ha & Hfs). specialize (Hb _ Hr). unfold on_redis.
  destruct (b (redis h)) as [[x|a] t]; (split; [exact Hb|]); intros c' Hc'; by split_and!.
Qed.

(** ** The database layer *)

Lemma pool_shutdown_spec hs E : meets (db_holds hs) pool_shutdown (fun _ => db_holds []) E.
Proof.
  apply meets_modify. intros d (Ha & Hv & Hm & _). unfold ConnectionPool.shutdown_begin, ConnectionPool.shutdown_end. rewrite Ha.
  destruct hs as [|x hs]; cbn; unfold db_holds; cbn; [by rewrite Hm|]. rewrite app_nil_r. by split_and!.
Qed.

Lemma open_tried n l i acc :
  match ConnectionPool.open_all n l i acc with
  | inl (_, o) => o ≡ₚ acc ++ ConnectionPool.given (tried l)
  | inr o => o = acc ++ ConnectionPool.given (tried l) /\ length o = length acc + length l
  end.
Proof.
  revert i acc. induction l as [|a rest IH]; intros i acc; cbn [ConnectionPool.open_all tried].
  { cbn. rewrite app_nil_r. split; [done|lia]. }
  unfold ConnectionPool.open_connection. destruct a as [[c|] [e|] [e'|]]; cbn; rewrite ?app_nil_r; try done; try (by rewrite (Permutation_app_comm acc)).
  specialize (IH (i + 1)%Z (acc ++ [c])). unfold ConnectionPool.given in IH. destruct (ConnectionPool.open_all n rest (i + 1)%Z (acc ++ [c])) as [[e o]|o].
  - by rewrite IH, <- app_assoc.
  - destruct IH as [-> Hl]. rewrite <- app_assoc. split; [done|]. rewrite !length_app in *. cbn in *. lia.
Qed.

Lemma connect_database_spec config attempt hs :
  meets (db_holds hs) (connect_database config attempt)
    (fun _ d => exists opened, db_holds opened d /\ length opened = Z.to_nat (pool_size config)) (db_holds []).
Proof.
  eapply meets_bind; [apply pool_shutdown_spec|intros ?]. intros d (Ha & Hv & Hm & _). unfold open_pool.
  pose proof (open_tried (pool_size config) (map attempt (seq 0 (Z.to_nat (pool_size config)))) 0 []) as Ho.
  destruct (ConnectionPool.open_all _ _ 0 []) as [[e o]|o]; cbn in *.
  - unfold db_holds. cbn. rewrite Hm, !app_nil_r, Ho. by split_and!.
  - destruct Ho as [-> Hl]. rewrite length_map, length_seq in Hl. eexists. split; [|exact Hl].
    unfold db_holds, ConnectionPool.install. cbn. split_and!; try done; [|by rewrite Hm, app_nil_r].
    apply Permutation_nil_r in Hv. by rewrite Hv.
Qed.

Lemma ping_database_spec hs : meets (db_holds hs) ping_database (fun _ => db_holds hs) (db_holds hs).
Proof.
  intros d (Ha & Hv & Hm & Hs). unfold ping_database, ConnectionPool.acquire, db_holds.
  destruct (ConnectionPool.ready (pool d)); cbn; [|by split_and!].
  destruct (ConnectionPool.available_ (pool d)) as [|x rest] eqn:Ea; cbn; [by rewrite Ea; split_and!|].
  destruct (ConnectionPool.stopping_ (pool d)) eqn:Es; cbn; [by rewrite Ea, Es; split_and!|].
  destruct (mysql_ping d); cbn; split_and!; try done; by rewrite <- Hv, (Permutation_app_comm rest).
Qed.

Lemma read_spec {S} (P : S -> Prop) E : meets P get (fun _ => P) E.
Proof. by intros s Hs. Qed.

(** ** Ending *)

Lemma unwind_spec c hs r lp ls e E : meets (holds c hs r lp ls 0 e) unwind (fun _ => holds None [] None false None 0 e) E.
Proof.
  unfold unwind. eapply meets_bind; [apply set_listener_spec|intros ?]. eapply meets_bind; [apply set_loop_spec|intros ?].
  eapply (meets_bind _ _ _ (fun _ => holds c hs None false None 0 e)).
  { eapply meets_weaken; [apply (on_redis_spec c hs r false None 0 e _ (fun _ => redis_holds None) (fun _ => False))|done|intros ? h [Hq Hh]; by apply Hh|by intros h [? _]].
    destruct r as [rc|]; cbn.
    - intros l Hl. pose proof (RedisLink.link_close rc (fun _ => False) l (RedisLink.link_open_ok _ _ Hl)) as Hc.
      destruct (RedisLink.close_locked l) as [[x|[]] l']; [done|by exists rc].
    - intros l [rc Hl]. pose proof (RedisLink.close_closed rc (fun _ => False) l Hl) as Hc.
      destruct (RedisLink.close_locked l) as [[x|[]] l']; [done|by exists rc]. }
  intros ?. eapply (meets_bind _ _ _ (fun _ => holds c [] None false None 0 e)).
  { eapply meets_weaken; [apply on_db_spec, (pool_shutdown_spec hs (fun _ => False))|done|intros ? h [Hq Hh]; by apply Hh|by intros h [? _]]. }
  intros ?. eapply meets_weaken; [apply (on_tls_spec c [] None false None 0 e _ (fun _ => tls_holds None) (fun _ => False))|done|intros ? h [Hq Hh]; by apply Hh|by intros h [? _]].
  apply meets_pull_ex. intros v t Ht. pose proof (TlsSetup.free_spec c v None None (fun _ => False) t Ht) as Hf.
  destruct (TlsSetup.free_context t) as [[x|[]] t']; [done|by exists v].
Qed.

Lemma return_1_spec h : some_holds h -> holds None [] None false None 0 (Some (Returned 1)) (return_1 h).
Proof.
  intros (c & hs & r & lp & ls & Hh). pose proof (unwind_spec c hs r lp ls None (fun _ => False) h Hh) as Hu. unfold return_1.
  destruct (unwind h) as [[x|a] h1]; [done|]. destruct Hu as (Ht & Hd & Hr & Hlp & Hls & Hth & He & Ha & Hfs). by split_and!.
Qed.

Lemma or_return_spec {A} P prefix (b : M Host A) Q : meets P b Q some_holds -> meets P (or_return prefix b) Q failed.
Proof.
  intros Hb h Hh. specialize (Hb h Hh). unfold or_return. destruct (b h) as [[x|a] h1]; [|done]. left. apply return_1_spec.
  destruct Hb as (c & hs & r & lp & ls & Ht & Hd & Hr & Hlp & Hls & Hth & He & Ha & Hfs). exists c, hs, r, lp, ls. by split_and!.
Qed.
Lemma or_log_spec {A} P prefix (b : M Host A) Q : meets P b Q some_holds -> meets P (or_log prefix b) Q failed.
Proof.
  intros Hb h Hh. specialize (Hb h Hh). unfold or_log. destruct (b h) as [[x|a] h1]; [|done]. left. apply return_1_spec.
  destruct Hb as (c & hs & r & lp & ls & Ht & Hd & Hr & Hlp & Hls & Hth & He & Ha & Hfs). exists c, hs, r, lp, ls. by split_and!.
Qed.
Lemma or_terminate_spec {A} P (b : M Host A) Q : meets P b Q (fun _ => ~ fine) -> meets P (or_terminate b) Q failed.
Proof.
  intros Hb h Hh. specialize (Hb h Hh). unfold or_terminate. destruct (b h) as [[x|a] h1]; [|done]. right. by exists x.
Qed.

(** ** The steps of [main] *)

Lemma returning_call c hs r lp ls prefix :
  meets (holds c hs r lp ls 0 None) (prefixed prefix call) (fun _ => holds c hs r lp ls 0 None) some_holds.
Proof. apply prefixed_spec. eapply meets_weaken; [apply call_spec|done|done|intros h [Hh _]; by eapply holds_some]. Qed.
Lemma throwing_call c hs r lp ls th prefix :
  meets (holds c hs r lp ls th None) (prefixed prefix call) (fun _ => holds c hs r lp ls th None) (fun _ => ~ fine).
Proof. apply prefixed_spec. eapply meets_weaken; [apply call_spec|done|done|by intros h [_ ?]]. Qed.

Lemma logging_spec c hs r lp ls :
  meets (holds c hs r lp ls 0 None) initialize_server_logging (fun _ => holds c hs r lp ls 0 None) some_holds.
Proof. eapply meets_bind; [apply returning_call|intros ?; apply returning_call]. Qed.

Lemma parsed_spec c hs r lp ls {A} o parse (a0 : A) error :
  meets (holds c hs r lp ls 0 None) (parsed o parse a0 error) (fun a h => holds c hs r lp ls 0 None h /\ chosen o parse a0 a) some_holds.
Proof.
  unfold parsed, chosen. destruct o as [text|]; [|apply meets_ret; by split].
  destruct (parse text) as [a|] eqn:Ea; [apply meets_ret; by split|]. apply meets_fail, holds_some.
Qed.

Lemma load_spec c hs r lp ls {C} (loader : string -> option string -> M C unit) initial path :
  meets (holds c hs r lp ls 0 None) (load loader initial path)
    (fun config h => holds c hs r lp ls 0 None h /\ from_file loader initial fs path config) some_holds.
Proof.
  intros h Hh. pose proof Hh as (_ & _ & _ & _ & _ & _ & _ & _ & Hfs). unfold load, from_file. rewrite Hfs.
  destruct (loader path (fs !! path) initial) as [[x|[]] config]; [by eapply holds_some|done].
Qed.

Lemma tls_step hs r lp ls config :
  meets (holds None hs r lp ls 0 None) (on_tls (TlsSetup.initialize_server config))
    (fun _ h => exists ci, holds (Some (ci, TlsSetup.server_ctx config)) hs r lp ls 0 None h) some_holds.
Proof.
  eapply meets_weaken; [apply (on_tls_spec None hs r lp ls 0 None _ (fun _ t => exists ci, tls_holds (Some (ci, TlsSetup.server_ctx config)) t) (tls_holds None))|done| |].
  - apply meets_pull_ex. intros v. eapply meets_weaken; [apply (TlsSetup.initialize_server_spec config None v None None)|done| |].
    + intros ? t [ci Hci]. exists ci. by exists v.
    + intros t [Ho Ha]. by exists (TlsSetup.verify_peer_ t).
  - intros ? h [[ci Hq] Hh]. exists ci. by apply Hh.
  - intros h [Hq Hh]. apply (holds_some None hs r lp ls). by apply Hh.
Qed.

Lemma database_step c r lp ls config attempt :
  meets (holds c [] r lp ls 0 None) (on_db (connect_database config attempt))
    (fun _ h => exists hs, holds c hs r lp ls 0 None h /\ length hs = Z.to_nat (pool_size config)) some_holds.
Proof.
  eapply meets_weaken; [apply on_db_spec, connect_database_spec|done| |].
  - intros ? h [(hs & Hq & Hl) Hh]. exists hs. split; [by apply Hh|done].
  - intros h [Hq Hh]. eapply holds_some. by apply Hh.
Qed.

Lemma ping_step c hs r lp ls :
  meets (holds c hs r lp ls 0 None) (on_db ping_database) (fun _ => holds c hs r lp ls 0 None) some_holds.
Proof.
  eapply meets_weaken; [apply on_db_spec, ping_database_spec|done| |].
  - intros ? h [Hq Hh]. by apply Hh.
  - intros h [Hq Hh]. eapply holds_some. by apply Hh.
Qed.

Lemma redis_step c hs lp ls config :
  meets (holds c hs None lp ls 0 None) (on_redis (RedisLink.connect config ;; RedisLink.ping))
    (fun _ => holds c hs (Some config) lp ls 0 None) some_holds.
Proof.
  eapply meets_weaken; [apply (on_redis_spec c hs None lp ls 0 None _ (fun _ => redis_holds (Some config)) (redis_holds None))|done| |].
  - apply meets_pull_ex. intros c0. eapply meets_weaken with (E := RedisLink.closed config);
      [eapply meets_bind; [apply (RedisLink.connect_link_spec config c0)|intros ?]| |intros ? l Hl; exact Hl|intros l Hl; by exists config].
    + eapply meets_weaken; [apply RedisLink.ping_spec|apply RedisLink.link_open_ok|done|done].
    + intros l Hl. by apply RedisLink.link_closed_ok.
  - intros ? h [Hq Hh]. by apply Hh.
  - intros h [Hq Hh]. apply (holds_some c hs None lp ls). by apply Hh.
Qed.

Lemma loop_step c hs r lp ls th : meets (holds c hs r lp ls th None) construct_loop (fun _ => holds c hs r lp ls th None) (fun _ => ~ fine).
Proof. do 2 (eapply meets_bind; [apply throwing_call|intros ?]). apply throwing_call. Qed.

Lemma or_close_spec P (b : M Host unit) Q : meets P b Q (fun _ => ~ fine) -> meets P (or_close b) Q (fun _ => ~ fine).
Proof. intros Hb h Hh. specialize (Hb h Hh). unfold or_close. by destruct (b h) as [[x|a] h1]. Qed.

Lemma acceptor_step c hs r lp p :
  meets (holds c hs r lp None 0 None) (new_acceptor p) (fun _ => holds c hs r lp (Some (mkListener true (Some (wrap 16 p)) false)) 0 None) (fun _ => ~ fine).
Proof.
  eapply meets_bind; [apply throwing_call|intros ?]. eapply meets_bind; [apply set_listener_spec|intros ?].
  eapply meets_bind; [apply or_close_spec, throwing_call|intros ?]. eapply meets_bind; [apply set_listener_spec|intros ?].
  eapply meets_bind; [apply or_close_spec, throwing_call|intros ?]. apply set_listener_spec.
Qed.

Lemma attempt_spec c hs r lp ls th prefix b next Q E :
  (forall text, meets (fun h => holds c hs r lp ls th None h /\ ~ fine) (b text) Q E) ->
  meets (holds c hs r lp ls th None) next Q E -> meets (holds c hs r lp ls th None) (attempt_call prefix b next) Q E.
Proof.
  intros Hb Hn h Hh. pose proof (call_spec c hs r lp ls th None h Hh) as Hc. unfold attempt_call.
  destruct (call h) as [[text|a] h1]; [by apply Hb|by apply Hn].
Qed.

Lemma chat_server_step c hs r lp ls E :
  meets (holds c hs r lp ls 0 None) new_chat_server
    (fun b h => match b with Constructed => holds c hs r lp ls 4 None h | Threw _ => holds c hs r lp ls 0 None h | Died _ => ~ fine end) E.
Proof.
  assert (forall th text, meets (fun h => holds c hs r lp ls th None h /\ ~ fine) (stop_file_service text)
    (fun b h => match b with Constructed => holds c hs r lp ls 4 None h | Threw _ => holds c hs r lp ls 0 None h | Died _ => ~ fine end) E) as Hstop.
  { intros th text. apply meets_pull. intros _. eapply meets_bind; [apply set_threads_spec|intros ?]. by apply meets_ret. }
  apply attempt_spec; [intros ?; by apply meets_ret; intros h [? _]|]. eapply meets_bind; [apply add_thread_spec|intros ?].
  apply attempt_spec; [intros ?; by apply meets_ret; intros h [_ ?]|]. eapply meets_bind; [apply add_thread_spec|intros ?].
  do 3 (apply attempt_spec; [intros ?; apply Hstop|]). eapply meets_bind; [apply add_thread_spec|intros ?].
  apply attempt_spec; [intros ?; by apply meets_ret; intros h [_ ?]|]. eapply meets_bind; [apply add_thread_spec|intros ?].
  by apply meets_ret.
Qed.

Lemma start_loops_spec c hs r lp ls n th :
  meets (holds c hs r lp ls th None) (start_loops n) (fun _ => holds c hs r lp ls (n + th) None) (fun _ => ~ fine).
Proof.
  revert th. induction n as [|n IH]; intros th; cbn [start_loops]; [by apply meets_ret|].
  eapply meets_bind; [eapply meets_weaken; [apply call_spec|done|intros ? h Hh; exact Hh|by intros h [_ ?]]|intros ?].
  eapply meets_bind; [apply add_thread_spec|intros ?]. eapply meets_bind; [apply loop_step|intros ?].
  replace (S n + th) with (n + S th) by lia. apply IH.
Qed.

Lemma start_server_step c hs r lp p n :
  meets (holds c hs r lp (Some (mkListener true p false)) 4 None) (start_server n)
    (fun _ => holds c hs r lp (Some (mkListener true p true)) (Z.to_nat n + 4) None) (fun _ => ~ fine).
Proof.
  eapply meets_bind; [apply start_loops_spec|intros ?]. eapply meets_bind; [apply throwing_call|intros ?].
  eapply (meets_bind _ _ _ (fun _ => holds c hs r lp (Some (mkListener true p true)) (Z.to_nat n + 4) None)); [|intros ?; apply throwing_call].
  apply meets_modify. intros h (Ht & Hd & Hr & Hlp & Hls & Hth & He & Ha & Hfs). split_and!; try done. cbn. by rewrite Hls.
Qed.

(** ** [main] *)

Definition serving (argv : list string) (h : Host) : Prop :=
  exists p w mc rc tc ci hs,
    chosen (argv !! 0) parse_port 9000%Z p /\ chosen (argv !! 4) (fun text => parse_count text 1 64) 4%Z w /\
    from_file load_mysql_config default_mysql fs (argument argv 1 "config/mysql.conf") mc /\
    from_file load_redis_config default_redis fs (argument argv 2 "config/redis.conf") rc /\
    from_file load_tls_server_config default_tls_server fs (argument argv 3 "config/tls_server.conf") tc /\
    length hs = Z.to_nat (pool_size mc) /\
    holds (Some (ci, TlsSetup.server_ctx tc)) hs (Some rc) true (Some (mkListener true (Some (wrap 16 p)) true)) (Z.to_nat w + 4) (Some Serving) h.

Lemma main_spec argv : meets (holds None [] None false None 0 None) (main argv) (fun _ => serving argv) failed.
Proof.
  eapply meets_bind; [apply or_return_spec, parsed_spec|intros p]. apply meets_pull. intros Hp.
  eapply meets_bind; [apply or_return_spec, parsed_spec|intros w]. apply meets_pull. intros Hw.
  eapply meets_bind; [apply or_return_spec, logging_spec|intros ?]. eapply meets_bind; [by apply print_spec|intros ?].
  eapply meets_bind; [apply or_return_spec, load_spec|intros mc]. apply meets_pull. intros Hmc.
  eapply meets_bind; [apply or_return_spec, load_spec|intros rc]. apply meets_pull. intros Hrc.
  eapply meets_bind; [apply or_return_spec, load_spec|intros tc]. apply meets_pull. intros Htc.
  eapply meets_bind; [apply or_return_spec, tls_step|intros ?]. apply meets_pull_ex. intros ci.
  eapply meets_bind; [apply read_spec|intros h].
  eapply meets_bind; [apply or_return_spec, database_step|intros ?]. apply meets_pull_ex. intros hs. apply meets_pull. intros Hl.
  eapply meets_bind; [apply or_log_spec, ping_step|intros ?]. eapply meets_bind; [apply read_spec|intros h'].
  eapply meets_bind; [by apply print_spec|intros ?]. eapply meets_bind; [apply or_return_spec, redis_step|intros ?].
  eapply meets_bind; [apply or_terminate_spec; eapply meets_bind; [apply loop_step|intros ?; apply set_loop_spec]|intros ?].
  eapply meets_bind; [apply or_terminate_spec, acceptor_step|intros ?]. eapply meets_bind; [apply chat_server_step|intros built].
  eapply (meets_bind _ _ _ (fun _ => holds (Some (ci, TlsSetup.server_ctx tc)) hs (Some rc) true (Some (mkListener true (Some (wrap 16 p)) false)) 4 None)).
  { destruct built as [|what|what]; [by apply meets_ret|apply or_return_spec, meets_fail, holds_some|by apply or_terminate_spec, meets_fail]. }
  intros ?. eapply meets_bind; [apply or_terminate_spec, start_server_step|intros ?]. eapply meets_bind; [apply read_spec|intros h2].
  do 2 (eapply meets_bind; [by apply print_spec|intros ?]). apply meets_modify. intros h3 (Ht & Hd & Hr & Hlp & Hls & Hth & He & Ha & Hfs).
  exists p, w, mc, rc, tc, ci, hs. by split_and!.
Qed.

End Holding.

Lemma boot_holds fs color attempt kernel openssl ping dials replies :
  holds (Forall (.= None) kernel) fs None [] None false None 0 None (boot fs color attempt kernel openssl ping dials replies).
Proof. split_and!; try done; [by exists true|by exists default_redis]. Qed.

(** C35: However the command line, the files, the kernel, OpenSSL, MySQL and Redis
    answer, the process gets to its loop or stops.  In its loop it listens on the
    port asked for with as many workers as asked for, every configuration is the
    one its file holds and satisfies its limits, the TLS context carries the
    configured certificate and its checked key, the pool has the configured number
    of connections, all free, and Redis is authenticated and on the configured
    database.  When [main] returns it returns 1, and every context, connection,
    socket and thread has been released.  An exception that nobody catches ends
    the process only when the kernel refuses a call. *)
Theorem main_serves_or_cleans_up argv fs color attempt kernel openssl ping dials replies :
  let h := (main argv (boot fs color attempt kernel openssl ping dials replies)).2 in
  match ending h with
  | Some Serving =>
      exists p w mc rc tc ci,
        chosen (argv !! 0) parse_port 9000%Z p /\ (1 <= p <= 65535)%Z /\
        chosen (argv !! 4) (fun text => parse_count text 1 64) 4%Z w /\ (1 <= w <= 64)%Z /\
        from_file load_mysql_config default_mysql fs (argument argv 1 "config/mysql.conf") mc /\ mysql_valid mc /\
        from_file load_redis_config default_redis fs (argument argv 2 "config/redis.conf") rc /\ redis_valid rc /\
        from_file load_tls_server_config default_tls_server fs (argument argv 3 "config/tls_server.conf") tc /\ tls_server_valid tc /\
        TlsSetup.context_ (tls h) = Some ci /\ TlsSetup.ctxs (TlsSetup.machine (tls h)) = {[ci := TlsSetup.server_ctx tc]} /\
        length (ConnectionPool.all_ (pool (db h))) = Z.to_nat (pool_size mc) /\
        ConnectionPool.available_ (pool (db h)) ≡ₚ ConnectionPool.all_ (pool (db h)) /\
        made (db h) ≡ₚ closed (db h) ++ ConnectionPool.all_ (pool (db h)) /\
        RedisLink.open rc (redis h) /\
        listener h = Some (mkListener true (Some p) true) /\ threads h = Z.to_nat w + 4
  | Some (Returned code) =>
      code = 1%Z /\ TlsSetup.ctxs (TlsSetup.machine (tls h)) = ∅ /\ TlsSetup.misuse (TlsSetup.machine (tls h)) = false /\
      closed (db h) ≡ₚ made (db h) /\ RedisLink.contexts (redis h) = ∅ /\ RedisLink.misuse (redis h) = false /\
      listener h = None /\ main_loop h = false /\ threads h = 0
  | Some (Terminated _) => exists text, Some text ∈ kernel
  | None => False
  end.
Proof.
  cbv zeta. pose proof (main_spec _ _ argv _ (boot_holds fs color attempt kernel openssl ping dials replies)) as Hm.
  destruct (main argv _) as [[e|a] h]; cbn [snd].
  - destruct Hm as [(Ht & Hd & Hr & Hlp & Hls & Hth & He & _)|(what & He & Hnf)]; rewrite He.
    + destruct Ht as (v & _ & _ & Hc & _ & _ & Hu), Hd as (_ & _ & Hmade & _), Hr as (c & _ & _ & Hx & Hm). rewrite app_nil_r in Hmade. by split_and!.
    + apply not_Forall_Exists in Hnf; [|intros o; by apply _]. apply Exists_exists in Hnf as ([text|] & Hin & Hne); [by exists text|by destruct Hne].
  - destruct Hm as (p & w & mc & rc & tc & ci & hs & Hp & Hw & Hmc & Hrc & Htc & Hl & Ht & Hd & Hr & Hlp & Hls & Hth & He & _). rewrite He.
    destruct Ht as (v & Ho & _ & Hc & _), Hd as (Hall & Hav & Hmade & _).
    assert (1 <= p <= 65535)%Z as Hbp by (unfold chosen in Hp; destruct (argv !! 0); [by apply parse_port_bounds in Hp|subst; lia]).
    assert (1 <= w <= 64)%Z as Hbw by (unfold chosen in Hw; destruct (argv !! 4); [apply parse_count_bounds in Hw; lia|subst; lia]).
    assert (wrap 16 p = p) as Hwp by (apply Z.mod_small; lia). rewrite Hwp in Hls.
    exists p, w, mc, rc, tc, ci. split_and!; try done; try lia; try (by rewrite Hall).
    + by apply (load_mysql_hoare (argument argv 1 "config/mysql.conf") (fs !! argument argv 1 "config/mysql.conf") default_mysql tt mc).
    + by apply (load_redis_hoare (argument argv 2 "config/redis.conf") (fs !! argument argv 2 "config/redis.conf") default_redis tt rc).
    + by apply (load_tls_server_hoare (argument argv 3 "config/tls_server.conf") (fs !! argument argv 3 "config/tls_server.conf") default_tls_server tt tc).
Qed.

(** ** Examples *)

Definition mysql_file : string := "user = chat" +:+ nl +:+ "database = chat" +:+ nl +:+ "pool_size = 2" +:+ nl.
Definition redis_file : string := "host = localhost" +:+ nl +:+ "password = secret" +:+ nl.
Definition tls_file : string := "enabled = true" +:+ nl.
Definition example_files : gmap string string :=
  {[ "config/mysql.conf" := mysql_file; "config/redis.conf" := redis_file; "config/tls_server.conf" := tls_file ]}.
Definition example_boot (kernel : list (option string)) : Host :=
  boot example_files false (fun i => ConnectionPool.mkAttempt (Some i) None None) kernel [] None [] [].

Example serves_by_default :
  let h := (main ["7000"] (example_boot [])).2 in
  ending h = Some Serving /\ listener h = Some (mkListener true (Some 7000%Z) true) /\ threads h = 8 /\ made (db h) = [0; 1] /\ cerr h = [].
Proof. by vm_compute. Qed.

(** The port is taken: the constructor of [TcpServer] throws outside the [try] of
    [main], so the process is terminated with a connection to MySQL open, and no
    message is written. *)
Theorem port_in_use_terminates :
  let h := (main ["7000"] (example_boot (replicate 7 None ++ [Some "Address already in use"]))).2 in
  ending h = Some (Terminated "bind failed: Address already in use") /\ cerr h = [] /\ closed (db h) = [].
Proof. by vm_compute. Qed.

(** The storage directory cannot be made: [main] reports it and releases all. *)
Example storage_refused :
  let h := (main [] (example_boot (replicate 11 None ++ [Some "Permission denied"]))).2 in
  ending h = Some (Returned 1) /\ closed (db h) = [0; 1] /\ listener h = None /\
  cerr h = ["聊天室服务初始化失败：file transfer storage initialization failed: 无法创建文件传输存储目录：Permission denied" +:+ nl].
Proof. by vm_compute. Qed.

End ServerMain.
