(* ===== verification/ClientMain.v ===== *)
(** * The process of the client

    [client.cpp], [ClientApp::initialize] and the beginning and end of
    [ClientApp::run], [SqliteClient::open] and [close_locked], and the start and
    stop of [AsyncMessageCacheWriter]: from the command line to the loop of
    [ClientApp.v] and from there to the last destructor, on top of the loader of
    [Config.v] and the transport of [TlsSetup.v]. *)
From S2P Require Import Prelude Protocol Config TlsSetup.
Import Protocol Config.

Module ClientMain.

Inductive Ending := Returned (code : Z) | Terminated (what : string) | Running.

(** [SqliteClient]: its handle, with the error that opening it left, the path, and
    how many handles are open. *)
Record Sqlite := mkSqlite { database_ : option (option string); database_path_ : string; handles : nat }.

Record ClientAppConfig := mkConfig { host : string; port : Z; sqlite_path : string; download_root : string; tls_config_path : string }.
Definition default_config : ClientAppConfig := mkConfig "127.0.0.1" 9000 "chat_client.db" "downloads" "config/tls_client.conf".

Record Process := mkProcess {
  files : gmap string string;
  answers : list (option string);    (* of the file system, SQLite and std::thread, in order *)
  cache : Sqlite;
  writer : bool;                     (* the worker thread of cache_writer_ runs *)
  transport : TlsSetup.Transport;
  state_download_root : string;
  cerr : list string; cout : list string; ending : option Ending }.
Definition set_answers (x : list (option string)) (p : Process) : Process := mkProcess (files p) x (cache p) (writer p) (transport p) (state_download_root p) (cerr p) (cout p) (ending p).
Definition set_cache (x : Sqlite) (p : Process) : Process := mkProcess (files p) (answers p) x (writer p) (transport p) (state_download_root p) (cerr p) (cout p) (ending p).
Definition set_writer (x : bool) (p : Process) : Process := mkProcess (files p) (answers p) (cache p) x (transport p) (state_download_root p) (cerr p) (cout p) (ending p).
Definition set_transport (x : TlsSetup.Transport) (p : Process) : Process := mkProcess (files p) (answers p) (cache p) (writer p) x (state_download_root p) (cerr p) (cout p) (ending p).
Definition set_root (x : string) (p : Process) : Process := mkProcess (files p) (answers p) (cache p) (writer p) (transport p) x (cerr p) (cout p) (ending p).
Definition print_cerr (x : string) (p : Process) : Process := mkProcess (files p) (answers p) (cache p) (writer p) (transport p) (state_download_root p) (cerr p ++ [x]) (cout p) (ending p).
Definition print_cout (x : string) (p : Process) : Process := mkProcess (files p) (answers p) (cache p) (writer p) (transport p) (state_download_root p) (cerr p) (cout p ++ [x]) (ending p).
Definition set_ending (x : Ending) (p : Process) : Process := mkProcess (files p) (answers p) (cache p) (writer p) (transport p) (state_download_root p) (cerr p) (cout p) (Some x).

(** The next call: [None], or the text of its failure. *)
Definition answer : M Process (option string) := fun p =>
  match answers p with
  | [] => (inr None, p)
  | a :: rest => (inr a, set_answers rest p)
  end.
Definition on_transport {A} (c : M TlsSetup.Transport A) : M Process A := fun p => let r := c (transport p) in (r.1, set_transport r.2 p).

(** ** [SqliteClient] *)

Definition close_locked : M Process unit :=
  modify (fun p => match database_ (cache p) with
                   | Some _ => set_cache (mkSqlite None "" (pred (handles (cache p)))) p
                   | None => set_cache (mkSqlite None "" (handles (cache p))) p
                   end).

(** [parent_path] is not empty when there is a slash. *)
Definition has_parent (path : string) : bool := match find_first (fun c => bool_decide (c = "/"%char)) path with Some _ => true | None => false end.

(** The error of an exception, which is not caught, or of [open]. *)
Inductive Failure := Threw (what : string) | Failed (error : string).

(** [sqlite3_open_v2] makes a handle also when it fails; the result is not looked
    at, and [sqlite3_exec] then fails with the error the handle holds. *)
Definition sqlite3_open_v2 (path : string) : M Process unit :=
  failed ← answer;
  modify (fun p => set_cache (mkSqlite (Some failed) path (S (handles (cache p)))) p).
Definition initialize_schema : M Process (option Failure) :=
  p ← get;
  match database_ (cache p) with
  | None => mret (Some (Failed "SQLite database is null"))
  | Some (Some error) => mret (Some (Failed error))
  | Some None => failed ← answer; mret (Failed <$> failed)
  end.
Definition open (path : string) : M Process (option Failure) :=
  close_locked ;;
  made ← (if negb (path =s? ":memory:") && has_parent path then answer else mret None);
  match made with
  | Some what => mret (Some (Threw what))
  | None => sqlite3_open_v2 path ;; initialize_schema
  end.

(** ** [AsyncMessageCacheWriter] *)

Definition writer_stop : M Process unit := modify (set_writer false).
Definition writer_start : M Process (option string) :=
  writer_stop ;;
  failed ← answer;
  match failed with Some what => mret (Some what) | None => modify (set_writer true) ;; mret None end.

(** ** [ClientApp] and [main] *)

Section Main.
Context `{TlsSetup.NetNames}.

(** The destructors of [ClientApp], the last member first: the transport, the
    writer, the cache. *)
Definition destroy_app : M Process unit :=
  on_transport TlsSetup.destroy ;;
  writer_stop ;;
  close_locked.

(** [return code] out of [main], and an exception nobody catches. *)
Definition return_code (code : Z) : M Process unit := destroy_app ;; modify (set_ending (Returned code)).
Definition refuse {A} (text : string) : M Process A :=
  modify (print_cerr (text +:+ nl)) ;; return_code 1 ;; fail text.
Definition terminate {A} (what : string) : M Process A := modify (set_ending (Terminated what)) ;; fail what.

Definition load_tls (path : string) : M Process (string + TlsClientConfig) := fun p =>
  match load_tls_client_config path (files p !! path) default_tls_client with
  | (inl e, _) => (inr (inl e), p)
  | (inr _, c) => (inr (inr c), p)
  end.
Definition try_connect (host : string) (port : Z) (c : TlsClientConfig) : M Process (option string) := fun p =>
  match on_transport (TlsSetup.connect host port c) p with
  | (inl e, p1) => (inr (Some e), p1)
  | (inr _, p1) => (inr None, p1)
  end.

Definition initialize (config : ClientAppConfig) : M Process unit :=
  opened ← open (sqlite_path config);
  match opened with
  | Some (Threw what) => terminate what
  | Some (Failed error) => refuse ("SQLite 打开失败：" +:+ error)
  | None => mret tt
  end ;;
  started ← writer_start;
  match started with Some what => terminate what | None => mret tt end ;;
  loaded ← load_tls (tls_config_path config);
  match loaded with
  | inl error => refuse ("TLS 客户端配置加载失败：" +:+ error)
  | inr tls_config =>
      error ← try_connect (host config) (port config) tls_config;
      match error with Some text => refuse ("TLS 连接失败：" +:+ text) | None => mret tt end
  end ;;
  modify (set_root (download_root config)).

(** The banner of [run]; OpenSSL names the version and the cipher. *)
Definition banner (config : ClientAppConfig) (version cipher : string) (p : Process) : string :=
  "TLS 已连接到 " +:+ host config +:+ ":" +:+ to_string_signed (port config) +:+ nl +:+
  "[TLS] 版本：" +:+ version +:+ "，加密套件：" +:+ cipher +:+ nl +:+
  "[TLS] 已验证服务端身份：" +:+ TlsSetup.peer_identity_ (transport p) +:+ nl +:+
  "[心跳] 客户端每 20 秒发送 PING，服务端回复 PONG，60 秒未收到对应 PONG 则判定超时。" +:+ nl +:+
  "[本地] SQLite 缓存：" +:+ database_path_ (cache p) +:+ nl +:+
  "[本地] 下载目录：" +:+ state_download_root p +:+ nl.

(** [run] up to its loop, and from its end on. *)
Definition run_begin (config : ClientAppConfig) (version cipher : string) : M Process unit :=
  initialize config ;;
  p ← get;
  modify (print_cout (banner config version cipher p)) ;;
  modify (set_ending Running).
Definition run_end : M Process unit :=
  writer_stop ;;
  on_transport TlsSetup.shutdown ;;
  return_code 0.

(** [argv] without the name of the program. *)
Definition configured (argv : list string) : option ClientAppConfig :=
  match (match argv !! 1 with None => Some (port default_config) | Some text => parse_port text end) with
  | None => None
  | Some port =>
      Some (mkConfig (default (host default_config) (argv !! 0)) port (default (sqlite_path default_config) (argv !! 2))
              (default (download_root default_config) (argv !! 3)) (default (tls_config_path default_config) (argv !! 4)))
  end.
Definition main (argv : list string) (version cipher : string) : M Process unit :=
  match configured argv with
  | None => modify (print_cerr ("端口号无效" +:+ nl)) ;; modify (set_ending (Returned 1))
  | Some config => run_begin config version cipher
  end.

Definition boot (f : gmap string string) (kernel : list (option string)) (openssl : list TlsSetup.Answer) (verdicts : list (option string)) : Process :=
  mkProcess f kernel (mkSqlite None "" 0) false (TlsSetup.fresh openssl verdicts) "" [] [] None.

(** ** What the client holds *)

Section Holding.
(** Whether SQLite, the file system and [std::thread] refuse nothing; the files. *)
Context (fine : Prop) (fs : gmap string string).

(** The handle of the cache that is open, with its path, the writer, and that the
    transport owns what it has of OpenSSL and the kernel. *)
Definition holds (d : option (option string)) (path : string) (w : bool) (T : TlsSetup.Transport -> Prop) (p : Process) : Prop :=
  cache p = mkSqlite d path (match d with Some _ => 1 | None => 0 end) /\ writer p = w /\ T (transport p) /\
  files p = fs /\ ending p = None /\ (fine -> Forall (.= None) (answers p)).

(** Nothing at all. *)
Definition released (code : Z) (p : Process) : Prop :=
  handles (cache p) = 0 /\ writer p = false /\ TlsSetup.alive None None None (TlsSetup.machine (TlsSetup.tls_context_ (transport p))) /\
  ending p = Some (Returned code).
Definition stopped (p : Process) : Prop := released 1 p \/ exists what, ending p = Some (Terminated what) /\ ~ fine.

Lemma answer_meets d path w T E :
  meets (holds d path w T) answer (fun r p => holds d path w T p /\ (r <> None -> ~ fine)) E.
Proof.
  intros p (Hc & Hw & Ht & Hf & He & Ha). unfold answer. destruct (answers p) as [|a rest] eqn:Ea.
  - split; [split_and!; try done; by rewrite Ea|done].
  - split; [split_and!; try done; intros Hn; by apply (Forall_inv_tail (Ha Hn))|]. intros Hne Hn. apply Hne. apply (Forall_inv (Ha Hn)).
Qed.

Lemma shutdown_owned E : meets TlsSetup.owned TlsSetup.shutdown (fun _ => TlsSetup.owned) E.
Proof.
  intros t (c & s & k & v & p & b & o & Ht). pose proof (TlsSetup.shutdown_spec c s k v p b o (fun _ => False) t Ht) as Hs.
  destruct (TlsSetup.shutdown t) as [[e|[]] t1]; [done|]. by eapply TlsSetup.owns_owned.
Qed.

Lemma destroy_app_spec d path w E :
  meets (holds d path w TlsSetup.owned) destroy_app
    (fun _ p => handles (cache p) = 0 /\ writer p = false /\ TlsSetup.alive None None None (TlsSetup.machine (TlsSetup.tls_context_ (transport p)))) E.
Proof.
  intros p (Hc & Hw & Ht & Hf & He & Ha). unfold destroy_app, mbind, M_bind, on_transport.
  pose proof (TlsSetup.destroy_spec (fun _ => False) _ Ht) as Hd. destruct (TlsSetup.destroy (transport p)) as [[e|[]] t]; [done|].
  cbn. rewrite Hc. destruct d; by split_and!.
Qed.

Lemma return_spec d path w code E : meets (holds d path w TlsSetup.owned) (return_code code) (fun _ => released code) E.
Proof. eapply meets_bind; [apply destroy_app_spec|intros ?]. apply meets_modify. intros p (? & ? & ?). by split_and!. Qed.

Lemma app_refuse_spec {A} d path w text (Q : A -> Process -> Prop) : meets (holds d path w TlsSetup.owned) (refuse text) Q stopped.
Proof.
  eapply (meets_bind _ _ _ (fun _ => holds d path w TlsSetup.owned)); [by apply meets_modify|intros ?].
  eapply meets_bind; [apply return_spec|intros ?]. apply meets_fail. by left.
Qed.
Lemma terminate_spec {A} P what (Q : A -> Process -> Prop) : (forall p, P p -> ~ fine) -> meets P (terminate what) Q stopped.
Proof. intros Hf p Hp. right. exists what. split; [done|]. by eapply Hf. Qed.

Lemma close_cache d path w T E : meets (holds d path w T) close_locked (fun _ => holds None "" w T) E.
Proof. apply meets_modify. intros p (Hc & Hw & Ht & Hf & He & Ha). rewrite Hc. destruct d; by split_and!. Qed.

Lemma open_spec d path w T file E :
  meets (holds d path w T) (open file)
    (fun r p => match r with
                | None => holds (Some None) file w T p
                | Some (Failed _) => exists e, holds (Some e) file w T p
                | Some (Threw _) => ~ fine
                end) E.
Proof.
  unfold open. eapply meets_bind; [apply close_cache|intros ?].
  eapply (meets_bind _ _ _ (fun r p => holds None "" w T p /\ (r <> None -> ~ fine))).
  { destruct (_ && _); [apply answer_meets|by apply meets_ret]. }
  intros [what|]; apply meets_pull; intros Hr; [apply meets_ret; intros; by apply Hr|].
  eapply (meets_bind _ _ _ (fun _ p => exists e, holds (Some e) file w T p)).
  { unfold sqlite3_open_v2. eapply meets_bind; [apply answer_meets|intros failed]. apply meets_modify.
    intros p [(Hc & Hw & Ht & Hf & He & Ha) _]. exists failed. split_and!; try done. cbn. by rewrite Hc. }
  intros ?. apply meets_pull_ex. intros e p Hp. pose proof Hp as [Hc _]. unfold initialize_schema, mbind, M_bind, get. rewrite Hc. cbn [database_].
  destruct e as [error|]; [by exists (Some error)|]. pose proof (answer_meets (Some None) file w T (fun _ => False) p Hp) as Ha.
  destruct (answer p) as [[x|[error|]] p1]; [done| |]; destruct Ha as [Ha _]; [by exists None|done].
Qed.

Lemma writer_spec d path w T E :
  meets (holds d path w T) writer_start (fun r p => match r with None => holds d path true T p | Some _ => ~ fine end) E.
Proof.
  unfold writer_start, writer_stop. eapply (meets_bind _ _ _ (fun _ => holds d path false T)).
  { apply meets_modify. intros p (? & ? & ? & ? & ? & ?). by split_and!. }
  intros ?. eapply meets_bind; [apply answer_meets|]. intros [what|]; apply meets_pull; intros Hr; [apply meets_ret; intros; by apply Hr|].
  eapply (meets_bind _ _ _ (fun _ => holds d path true T)); [|intros ?; by apply meets_ret].
  apply meets_modify. intros p (? & ? & ? & ? & ? & ?). by split_and!.
Qed.

Lemma load_tls_spec d path w T file E :
  meets (holds d path w T) (load_tls file)
    (fun r p => holds d path w T p /\ match r with
                                      | inr c => load_tls_client_config file (fs !! file) default_tls_client = (inr tt, c)
                                      | inl _ => True
                                      end) E.
Proof.
  intros p Hp. pose proof Hp as (_ & _ & _ & Hf & _). unfold load_tls. rewrite Hf.
  destruct (load_tls_client_config file (fs !! file) default_tls_client) as [[e|[]] c]; by split.
Qed.

Lemma connect_meets d path w ip p c E :
  meets (holds d path w TlsSetup.owned) (try_connect ip p c)
    (fun r => match r with
              | None => holds d path w (fun t => TlsSetup.secured ip p c t /\ TlsSetup.acceptable ip c)
              | Some _ => holds d path w TlsSetup.owned
              end) E.
Proof.
  intros q (Hc & Hw & Ht & Hf & He & Ha). unfold try_connect, on_transport. pose proof (TlsSetup.connect_spec ip p c _ Ht) as Hs.
  destruct (TlsSetup.connect ip p c (transport q)) as [[e|[]] t]; cbn in *.
  - split_and!; try done. by apply TlsSetup.closed_owned.
  - by split_and!; try apply Hs.
Qed.

Definition running (config : ClientAppConfig) (p : Process) : Prop :=
  exists tls, load_tls_client_config (tls_config_path config) (fs !! tls_config_path config) default_tls_client = (inr tt, tls) /\
    cache p = mkSqlite (Some None) (sqlite_path config) 1 /\ writer p = true /\ state_download_root p = download_root config /\
    TlsSetup.secured (host config) (port config) tls (transport p) /\ TlsSetup.acceptable (host config) tls /\ ending p = Some Running.

Lemma run_begin_spec config version cipher :
  meets (holds None "" false TlsSetup.owned) (run_begin config version cipher) (fun _ => running config) stopped.
Proof.
  unfold run_begin. eapply (meets_bind _ _ _ (fun _ p => state_download_root p = download_root config /\ exists tls,
    holds (Some None) (sqlite_path config) true (fun t => TlsSetup.secured (host config) (port config) tls t /\ TlsSetup.acceptable (host config) tls) p /\
    load_tls_client_config (tls_config_path config) (fs !! tls_config_path config) default_tls_client = (inr tt, tls))).
  - unfold initialize. eapply meets_bind; [apply open_spec|intros opened].
    eapply (meets_bind _ _ _ (fun _ => holds (Some None) (sqlite_path config) false TlsSetup.owned)).
    { destruct opened as [[what|error]|]; [by apply terminate_spec|apply meets_pull_ex; intros e; apply app_refuse_spec|by apply meets_ret]. }
    intros ?. eapply meets_bind; [apply writer_spec|intros started].
    eapply (meets_bind _ _ _ (fun _ => holds (Some None) (sqlite_path config) true TlsSetup.owned)).
    { destruct started; [by apply terminate_spec|by apply meets_ret]. }
    intros ?. eapply meets_bind; [apply load_tls_spec|intros loaded]. apply meets_pull. intros Hload.
    eapply (meets_bind _ _ _ (fun _ p => exists tls,
      holds (Some None) (sqlite_path config) true (fun t => TlsSetup.secured (host config) (port config) tls t /\ TlsSetup.acceptable (host config) tls) p /\
      load_tls_client_config (tls_config_path config) (fs !! tls_config_path config) default_tls_client = (inr tt, tls))).
    { destruct loaded as [error|tls]; [apply app_refuse_spec|]. eapply meets_bind; [apply connect_meets|]. intros [text|]; [apply app_refuse_spec|].
      apply meets_ret. intros p Hp. by exists tls. }
    intros ?. apply meets_modify. intros p (tls & (Hc & Hw & Ht & Hf & He & Ha) & Hl). split; [done|]. exists tls. by split_and!.
  - intros ? p (Hroot & tls & (Hc & Hw & [Hs Hacc] & Hf & He & Ha) & Hl). exists tls. by split_and!.
Qed.

End Holding.

Lemma client_boot_holds fs kernel openssl verdicts :
  holds (Forall (.= None) kernel) fs None "" false TlsSetup.owned (boot fs kernel openssl verdicts).
Proof. split_and!; try done. apply TlsSetup.fresh_owned. Qed.

(** The client gets to its loop or stops, whatever the command line, the files, the
    kernel, SQLite and OpenSSL answer.  In its loop the port is in range, the TLS
    configuration is the one of its file and usable, the cache is open with its
    tables, the writer runs, and the connection is protected as configured; when
    the loop ends everything is released and the code is 0.  When [main] returns
    before, the code is 1 and everything is released.  An exception ends the
    process only when a directory or a thread cannot be made. *)
Theorem client_starts_or_cleans_up argv version cipher fs kernel openssl verdicts :
  let p := (main argv version cipher (boot fs kernel openssl verdicts)).2 in
  match ending p with
  | Some Running =>
      exists config tls, configured argv = Some config /\ (1 <= port config <= 65535)%Z /\
        load_tls_client_config (tls_config_path config) (fs !! tls_config_path config) default_tls_client = (inr tt, tls) /\ tls_client_valid tls /\
        cache p = mkSqlite (Some None) (sqlite_path config) 1 /\ writer p = true /\ state_download_root p = download_root config /\
        TlsSetup.protected (host config) (port config) tls (transport p) /\
        released 0 (run_end p).2
  | Some (Returned code) => code = 1%Z /\ released 1 p
  | Some (Terminated _) => exists text, Some text ∈ kernel
  | None => False
  end.
Proof.
  cbv zeta. unfold main. destruct (configured argv) as [config|] eqn:Ec.
  2:{ cbn. by split_and!. }
  pose proof (run_begin_spec _ _ config version cipher _ (client_boot_holds fs kernel openssl verdicts)) as Hm.
  destruct (run_begin config version cipher _) as [[e|a] p]; cbn [snd].
  - destruct Hm as [Hr|(what & He & Hnf)]; [pose proof Hr as (_ & _ & _ & He); by rewrite He|]. rewrite He.
    apply not_Forall_Exists in Hnf; [|intros o; by apply _]. apply Exists_exists in Hnf as ([text|] & Hin & Hne); [by exists text|by destruct Hne].
  - destruct Hm as (tls & Hl & Hc & Hw & Hroot & Hs & Hacc & He). rewrite He. exists config, tls.
    assert (1 <= port config <= 65535)%Z as Hport.
    { unfold configured in Ec. destruct (argv !! 1) as [text|]; [|injection Ec as <-; cbn; lia].
      destruct (parse_port text) as [n|] eqn:Ep; [|done]. injection Ec as <-. by apply parse_port_bounds in Ep. }
    split_and!; try done; try lia; [by eapply (load_tls_client_hoare _ _ default_tls_client tt tls I Hl)|by apply TlsSetup.secured_protected|].
    unfold run_end, mbind, M_bind, writer_stop, modify, on_transport. destruct Hs as (ci & i & fd & opts & v & Hown & _). cbn.
    assert (TlsSetup.owned (transport p)) as Hot by (by eapply TlsSetup.owns_owned).
    apply (shutdown_owned (fun _ => False)) in Hot. destruct (TlsSetup.shutdown (transport p)) as [[x|[]] t]; [done|]. cbn.
    pose proof (TlsSetup.destroy_spec (fun _ => False) t Hot) as Hd.
    unfold return_code, destroy_app, mbind, M_bind, on_transport. cbn. destruct (TlsSetup.destroy t) as [[x|[]] t']; [done|].
    cbn. rewrite Hc. by split_and!.
Qed.
End Main.

(** ** Examples *)

Section Examples.
Definition tls_file : string := "enabled = true" +:+ nl +:+ "verify_peer = true" +:+ nl +:+ "ca_file = ca.pem" +:+ nl +:+ "server_name = chat.example" +:+ nl.
Definition example_files : gmap string string := {[ "config/tls_client.conf" := tls_file ]}.
Local Instance dotted_names : TlsSetup.NetNames := {| TlsSetup.inet_pton family value := match family with TlsSetup.AF_INET => bool_decide (value = "127.0.0.1") | _ => false end |}.

Example client_runs :
  let p := (main [] "TLSv1.3" "TLS_AES_256_GCM_SHA384" (boot example_files [] [] [])).2 in
  ending p = Some Running /\ TlsSetup.peer_identity_ (transport p) = "chat.example" /\ database_path_ (cache p) = "chat_client.db".
Proof. by vm_compute. Qed.

(** A directory of the cache that cannot be made: [create_directories] throws out of
    [open], and nobody catches. *)
Theorem cache_directory_terminates :
  let p := (main ["127.0.0.1"; "9000"; "cache/chat.db"] "" "" (boot example_files [Some "Permission denied"] [] [])).2 in
  ending p = Some (Terminated "Permission denied") /\ cerr p = [].
Proof. by vm_compute. Qed.

(** A database that cannot be opened is reported. *)
Example cache_file_refused :
  let p := (main [] "" "" (boot example_files [Some "unable to open database file"] [] [])).2 in
  ending p = Some (Returned 1) /\ cerr p = ["SQLite 打开失败：unable to open database file" +:+ nl] /\ handles (cache p) = 0.
Proof. by vm_compute. Qed.
End Examples.

End ClientMain.
