(* ===== verification/TransportProps.v ===== *)
(** * The order of the client's output

    Whatever OpenSSL and [poll] do: the bytes on the wire are the texts and
    pieces of files handed over, in order; the queue holds what is missing and
    stays within its limit; a call that waits returns only when its bytes are
    written. *)
From S2P Require Import Prelude ClientTransport.
Import ClientTransport.

Module TransportProps.

(** The bytes in the queue. *)
Definition pending (t : Transport) : string :=
  match output_queue_ t with
  | [] => ""
  | front :: rest => str_drop (output_offset_ t) front +:+ foldr String.append "" rest
  end.

(** Everything handed over is [acc]. *)
Record ordered (acc : string) (t : Transport) : Prop := mkOrdered {
  or_bytes : wire t +:+ pending t = acc;
  or_count : queued_output_bytes_ t = strlen (pending t);
  or_limit : (queued_output_bytes_ t <= kMaxQueuedTextBytes)%Z;
  or_texts : Forall (fun s => s <> "") (output_queue_ t);
  or_offset : match output_queue_ t with [] => output_offset_ t = 0 | front :: _ => output_offset_ t < String.length front end }.

Lemma concat_snoc (l : list string) s : foldr String.append "" (l ++ [s]) = foldr String.append "" l +:+ s.
Proof.
  induction l as [|x l IH]; simpl; [apply str_app_nil_r|]. by rewrite IH, str_app_assoc.
Qed.

Lemma not_empty_length s : s <> "" -> 0 < String.length s.
Proof. destruct s; [done|simpl; lia]. Qed.

Lemma ordered_wait w acc t : ordered acc t -> ordered acc (set_wait w t).
Proof. intros []. by split. Qed.
Lemma ordered_connected b acc t : ordered acc t -> ordered acc (set_connected_ b t).
Proof. intros []. by split. Qed.
Lemma ordered_polls l acc t : ordered acc t -> ordered acc (set_polls l t).
Proof. intros []. by split. Qed.

Lemma next_write_ordered acc : preserves (ordered acc) next_write.
Proof. intros t Ht. unfold next_write. destruct (writes t); [done|]. destruct Ht. by split. Qed.

Lemma wait_ordered acc : preserves (ordered acc) wait_for_socket.
Proof. intros t Ht. unfold wait_for_socket. by apply ordered_polls. Qed.

(** OpenSSL takes a piece of the front of the queue. *)
Lemma take_front_ordered acc front rest count t :
  output_queue_ t = front :: rest -> count <= String.length front - output_offset_ t ->
  ordered acc t -> ordered acc (take_front front rest count t).
Proof.
  intros Hq Hc [Hb Hn Hl Ht Ho]. unfold pending in *. rewrite Hq in *. inversion Ht as [|? ? Hf Hr]; subst.
  set (o := output_offset_ t) in *.
  assert (substr o count front +:+ str_drop (o + count) front = str_drop o front) as E.
  { unfold substr. rewrite <- str_drop_drop. apply str_take_drop. }
  assert (strlen (substr o count front) = Z.of_nat count) as El.
  { unfold strlen, substr. rewrite str_take_length, str_drop_length. lia. }
  rewrite <- E, !strlen_app in Hn. unfold take_front. fold o.
  destruct (Nat.eqb_spec (o + count) (String.length front)) as [He|He].
  - rewrite str_drop_ge in Hn, E by lia. rewrite str_app_nil_r in E.
    match goal with |- ordered _ ?x => assert (pending x = foldr String.append "" rest) as Ep end.
    { unfold pending. simpl. by destruct rest. }
    split; try done.
    + rewrite Ep. cbn [wire set_wait set_queue set_wire]. rewrite <- E. by rewrite !str_app_assoc.
    + rewrite Ep. simpl. change (strlen "") with 0%Z in Hn. lia.
    + simpl. lia.
    + destruct rest as [|f r]; [done|]. inversion Hr; subst. by apply not_empty_length.
  - split; simpl; try done.
    + unfold pending. simpl. by rewrite str_app_assoc, <- (str_app_assoc (substr _ _ _)), E.
    + unfold pending. simpl. rewrite strlen_app. lia.
    + lia.
    + lia.
Qed.

Lemma flush_loop_ordered fuel budget acc : preserves (ordered acc) (flush_loop fuel budget).
Proof.
  revert budget. induction fuel as [|fuel IH]; intros budget t Ht; [done|]. cbn [flush_loop].
  unfold mbind at 1, M_bind at 1. cbn [get].
  destruct (output_queue_ t) as [|front rest] eqn:Eq; [done|]. destruct (budget <=? 0)%Z; [done|].
  unfold mbind at 1, M_bind at 1. unfold next_write at 1.
  set (r := match writes t with [] => _ | _ => _ end).
  assert (ordered acc r.2 /\ output_queue_ r.2 = front :: rest /\ output_offset_ r.2 = output_offset_ t /\ exists o, r.1 = inr o)
    as (Ht1 & Eq1 & Eo1 & o & Er).
  { unfold r. destruct (writes t); (split_and!; [|done..|by eexists]); [done|]. by destruct Ht. }
  destruct r as [q t1]. simpl in *. subst q. destruct o as [n| | | |e].
  - set (count := Z.min (Z.of_nat n) _). destruct (Z.leb_spec count 0).
    { unfold mbind, M_bind. simpl. by apply ordered_connected. }
    unfold mbind, M_bind. cbn [modify]. apply IH. apply take_front_ordered; [done| |done].
    rewrite Eo1. lia.
  - unfold mbind, M_bind. simpl. by apply ordered_wait.
  - unfold mbind, M_bind. simpl. by apply ordered_wait.
  - by apply IH.
  - unfold mbind, M_bind. simpl. by apply ordered_connected.
Qed.

Lemma flush_queued_ordered acc : preserves (ordered acc) flush_queued.
Proof.
  unfold flush_queued. apply preserves_bind; [apply preserves_get|]. intros t.
  apply preserves_bind; [apply preserves_reject|]. intros _.
  apply preserves_bind; [apply flush_loop_ordered|]. intros []; [|apply preserves_ret].
  apply preserves_modify. clear t. intros t Ht. destruct (output_queue_ t) as [|f r] eqn:Eq.
  - apply ordered_wait. destruct Ht as [Hb Hn Hl Ht Ho]. unfold pending in *. rewrite Eq in *.
    split; try done.
  - case_decide; [by apply ordered_wait|done].
Qed.

Lemma blocking_ordered fuel acc : preserves (ordered acc) (blocking_loop fuel).
Proof.
  induction fuel as [|fuel IH]; [apply preserves_ret|]. cbn [blocking_loop].
  apply preserves_bind; [apply preserves_get|]. intros t. apply preserves_if; [apply preserves_ret|].
  apply preserves_bind; [apply flush_queued_ordered|]. intros _.
  apply preserves_bind; [apply preserves_get|]. intros t1. apply preserves_if; [apply preserves_ret|].
  apply preserves_bind; [apply wait_ordered|]. done.
Qed.

(** A text is refused, or is in the queue. *)
Lemma enqueue_ordered data acc t :
  ordered acc t ->
  (enqueue_output data t).1 = inr tt /\ ordered (acc +:+ data) (enqueue_output data t).2 \/
  exists e, enqueue_output data t = (inl e, t).
Proof.
  intros Ht. unfold enqueue_output, mbind, M_bind. cbn [get]. unfold reject_if.
  destruct (negb (connected_ t)); [right; by eexists|]. cbn [mret M_ret].
  destruct (is_empty data) eqn:Ee.
  { apply is_empty_true in Ee as ->. left. by rewrite str_app_nil_r. }
  destruct (Z.ltb_spec kMaxQueuedTextBytes (queued_output_bytes_ t + strlen data)) as [|Hle]; [right; by eexists|].
  left. split; [done|]. cbn [mret M_ret modify snd].
  destruct Ht as [Hb Hn Hl Ht Ho]. unfold pending in *.
  assert (pending (set_queue (output_queue_ t ++ [data]) (output_offset_ t) (queued_output_bytes_ t + strlen data) t)
    = pending t +:+ data) as Ep.
  { unfold pending. simpl. destruct (output_queue_ t) as [|f r] eqn:Eq; simpl.
    - by rewrite Ho, str_drop_0, str_app_nil_r.
    - by rewrite concat_snoc, str_app_assoc. }
  split.
  - rewrite Ep. simpl. unfold pending. by rewrite <- Hb, str_app_assoc.
  - rewrite Ep, strlen_app. unfold pending. simpl. lia.
  - simpl. lia.
  - simpl. apply Forall_app. split; [done|]. repeat constructor. intros ->. done.
  - simpl. destruct (output_queue_ t) as [|f r]; simpl; [|done]. rewrite Ho.
    apply not_empty_length. intros ->. done.
Qed.

(** ** Waiting until the queue is empty *)

Lemma next_write_polls t : polls (next_write t).2 = polls t.
Proof. unfold next_write. by destruct (writes t). Qed.

Lemma flush_loop_polls fuel budget t : polls (flush_loop fuel budget t).2 = polls t.
Proof.
  revert budget t. induction fuel as [|fuel IH]; intros budget t; [done|]. cbn [flush_loop].
  unfold mbind at 1, M_bind at 1. cbn [get]. destruct (output_queue_ t) as [|front rest]; [done|].
  destruct (budget <=? 0)%Z; [done|]. unfold mbind at 1, M_bind at 1.
  pose proof (next_write_polls t) as Hp. destruct (next_write t) as [[e|o] t1]; simpl in *; [done|].
  destruct o as [n| | | |e]; unfold mbind, M_bind; simpl; try done.
  - destruct (_ <=? 0)%Z; simpl; [done|]. rewrite IH. rewrite <- Hp. unfold take_front. by case_match.
  - by rewrite IH.
Qed.

Lemma flush_queued_polls t : polls (flush_queued t).2 = polls t.
Proof.
  unfold flush_queued, mbind, M_bind. cbn [get]. unfold reject_if. destruct (negb (connected_ t)); [done|].
  cbn [mret M_ret]. pose proof (flush_loop_polls (S (length (writes t))) kQueuedFlushBudgetBytes t) as Hp.
  destruct (flush_loop _ _ t) as [[e|[]] t1]; simpl in *; try done.
  rewrite <- Hp. destruct (output_queue_ t1); [done|]. by case_decide.
Qed.

Lemma poll_loop_used l : (poll_loop l).1 = inr tt -> length (poll_loop l).2 < length l.
Proof.
  induction l as [|[] l IH]; simpl; try done; [lia|]. intros E. specialize (IH E). lia.
Qed.

Lemma blocking_empty fuel t :
  length (polls t) < fuel -> (blocking_loop fuel t).1 = inr tt -> output_queue_ (blocking_loop fuel t).2 = [].
Proof.
  revert t. induction fuel as [|fuel IH]; intros t Hf; [lia|]. cbn [blocking_loop]. unfold mbind, M_bind.
  cbn [get]. unfold has_pending_output. rewrite !negb_involutive. case_bool_decide; [done|].
  pose proof (flush_queued_polls t) as Hp. destruct (flush_queued t) as [[e|u] t1]; [done|].
  cbn [fst snd] in *. rewrite negb_involutive. case_bool_decide; [done|].
  unfold wait_for_socket. pose proof (poll_loop_used (polls t1)) as Hu.
  destruct (poll_loop (polls t1)) as [[e|[]] l]; [done|]. simpl in *. apply IH. simpl.
  specialize (Hu eq_refl). rewrite Hp in Hu. lia.
Qed.

(** ** Files *)

(** Only the wire grew, by [p]. *)
Definition grown (p : string) (t t' : Transport) : Prop :=
  wire t' = wire t +:+ p /\ output_queue_ t' = output_queue_ t /\ output_offset_ t' = output_offset_ t /\
  queued_output_bytes_ t' = queued_output_bytes_ t.

Lemma grown_refl t : grown "" t t.
Proof. unfold grown. by rewrite str_app_nil_r. Qed.
Lemma grown_trans p q t t1 t2 : grown p t t1 -> grown q t1 t2 -> grown (p +:+ q) t t2.
Proof.
  unfold grown. intros (A1 & A2 & A3 & A4) (B1 & B2 & B3 & B4).
  by rewrite B1, B2, B3, B4, A1, A2, A3, A4, str_app_assoc.
Qed.
Lemma grown_ordered p acc t t' : output_queue_ t = [] -> ordered acc t -> grown p t t' -> ordered (acc +:+ p) t'.
Proof.
  intros Hq [Hb Hn Hl Ht Ho] (A1 & A2 & A3 & A4). unfold pending in *. rewrite Hq in *. rewrite str_app_nil_r in Hb.
  split; unfold pending; rewrite ?A1, ?A2, ?A3, ?A4, ?Hq; try done. by rewrite Hb, str_app_nil_r.
Qed.

(** What a writing loop did: it wrote a prefix of [content]; when it succeeds
    it wrote all of it, and this was the [missing] bytes it was asked for. *)
Definition wrote (content : string) (missing : Z) (t : Transport) (r : (string + unit) * Transport) : Prop :=
  exists p rest, content = p +:+ rest /\ grown p t r.2 /\ (r.1 = inr tt -> rest = "" /\ strlen content = missing).

Lemma wrote_fail content missing t t' e : grown "" t t' -> wrote content missing t (inl e, t').
Proof. intros Hg. by exists "", content. Qed.
Lemma wrote_done content t : (strlen content <= 0)%Z -> wrote content (strlen content) t (inr tt, t).
Proof.
  intros Hz. exists "", content. split_and!; [done|apply grown_refl|]. intros _. split; [|done].
  destruct content; [done|]. unfold strlen in Hz. simpl in Hz. lia.
Qed.
Lemma wrote_more n content missing t t1 r :
  grown (str_take n content) t t1 -> wrote (str_drop n content) (missing - strlen (str_take n content)) t1 r ->
  wrote content missing t r.
Proof.
  intros Hg (p & rest & E & Hg' & Hr). exists (str_take n content +:+ p), rest.
  split; [by rewrite str_app_assoc, <- E, str_take_drop|]. split; [by eapply grown_trans|].
  intros Er. destruct (Hr Er) as [-> Hs]. split; [done|].
  rewrite <- (str_take_drop n content), strlen_app. lia.
Qed.
Lemma wrote_after content missing t t1 r : grown "" t t1 -> wrote content missing t1 r -> wrote content missing t r.
Proof. intros Hg (p & rest & E & Hg' & Hr). exists p, rest. split_and!; [done|by eapply (grown_trans "")|done]. Qed.

Lemma next_write_grown t : grown "" t (next_write t).2.
Proof. unfold next_write. destruct (writes t); [apply grown_refl|]. unfold grown. simpl. by rewrite str_app_nil_r. Qed.

Definition left_over (t : Transport) : nat := length (writes t) + length (polls t).

(** A round uses up an outcome of OpenSSL, or of [poll]. *)
Lemma next_write_left t o t' : next_write t = (inr o, t') ->
  (left_over t' < left_over t \/ (o = WantWrite /\ left_over t' = left_over t)) /\ grown "" t t'.
Proof.
  intros E. pose proof (next_write_grown t) as Hg. rewrite E in Hg. split; [|done].
  unfold next_write in E. unfold left_over.
  destruct (writes t) eqn:Ew; injection E as <- <-; [right; by rewrite Ew|left; simpl; lia].
Qed.
Lemma wait_left t : grown "" t (wait_for_socket t).2 /\
  ((exists e, (wait_for_socket t).1 = inl e) \/ ((wait_for_socket t).1 = inr tt /\ left_over (wait_for_socket t).2 < left_over t)).
Proof.
  unfold wait_for_socket. pose proof (poll_loop_used (polls t)) as Hu.
  split; [unfold grown; simpl; by rewrite str_app_nil_r|].
  destruct (poll_loop (polls t)) as [[e|[]] l]; simpl in *; [left; by eexists|right].
  split; [done|]. specialize (Hu eq_refl). unfold left_over. simpl. lia.
Qed.

Lemma put_grown p t : grown p t (put p t).
Proof. done. Qed.

(** Waiting for the socket, then the rest of the loop. *)
Lemma wrote_wait content missing (k : M Transport unit) t :
  (forall t1, left_over t1 < left_over t -> wrote content missing t1 (k t1)) ->
  wrote content missing t ((wait_for_socket ;; k) t).
Proof.
  intros Hk. unfold mbind, M_bind. destruct (wait_left t) as [Hg Hc]. destruct (wait_for_socket t) as [r t1]. simpl in *.
  destruct Hc as [[e ->]|[-> Hl]]; [by apply wrote_fail|]. by eapply wrote_after, Hk.
Qed.

Lemma next_write_inr t : exists o t1, next_write t = (inr o, t1).
Proof. unfold next_write. destruct (writes t); eauto. Qed.

Lemma taken n content : (0 <= n <= strlen content)%Z -> strlen (str_take (Z.to_nat n) content) = n.
Proof. unfold strlen. rewrite str_take_length. lia. Qed.

Lemma sendfile_wrote fuel content missing t :
  left_over t < fuel -> (strlen content <= missing)%Z -> wrote content missing t (sendfile_loop fuel content missing t).
Proof.
  revert content missing t. induction fuel as [|fuel IH]; intros content missing t Hf Hm; [lia|]. cbn [sendfile_loop].
  destruct (Z.leb_spec missing 0) as [Hz|Hz].
  { replace missing with (strlen content) by (unfold strlen in *; lia). apply wrote_done. lia. }
  unfold mbind at 1, M_bind at 1. destruct (next_write_inr t) as (o & t1 & E). rewrite E.
  apply next_write_left in E as [Hl Hg]. apply (wrote_after _ _ _ _ _ Hg).
  destruct o as [n| | | |e].
  - set (sent := Z.min _ _). destruct (Z.leb_spec sent 0); [apply wrote_fail, grown_refl|].
    assert (strlen (str_take (Z.to_nat sent) content) = sent) as Es by (apply taken; lia).
    unfold mbind, M_bind. cbn [modify]. apply (wrote_more (Z.to_nat sent) _ _ _ _ _ (put_grown _ _)). rewrite Es.
    destruct Hl as [Hl|[? _]]; [|done]. apply IH; [change (left_over t1 < fuel); lia|].
    unfold strlen in *. rewrite str_drop_length. lia.
  - apply wrote_wait. intros t2 Ht2. apply IH; [lia|done].
  - apply wrote_wait. intros t2 Ht2. apply IH; [lia|done].
  - apply wrote_fail, grown_refl.
  - apply wrote_fail, grown_refl.
Qed.

Lemma buffer_wrote fuel buffer t : left_over t < fuel -> wrote buffer (strlen buffer) t (buffer_loop fuel buffer t).
Proof.
  revert buffer t. induction fuel as [|fuel IH]; intros buffer t Hf; [lia|]. cbn [buffer_loop].
  destruct (is_empty buffer) eqn:Eb.
  { apply is_empty_true in Eb as ->. by apply wrote_done. }
  unfold mbind at 1, M_bind at 1. destruct (next_write_inr t) as (o & t1 & E). rewrite E.
  apply next_write_left in E as [Hl Hg]. apply (wrote_after _ _ _ _ _ Hg).
  destruct o as [n| | | |e].
  - destruct (_ =? 0); [apply wrote_fail, grown_refl|].
    unfold mbind, M_bind. cbn [modify]. set (k := n `min` String.length buffer).
    apply (wrote_more k _ _ _ _ _ (put_grown _ _)).
    replace (strlen buffer - strlen (str_take k buffer))%Z with (strlen (str_drop k buffer))
      by (unfold strlen; rewrite str_take_length, str_drop_length; lia).
    destruct Hl as [Hl|[? _]]; [|done]. apply IH. change (left_over t1 < fuel). lia.
  - apply wrote_wait. intros t2 Ht2. apply IH. lia.
  - apply wrote_wait. intros t2 Ht2. apply IH. lia.
  - apply wrote_fail, grown_refl.
  - apply wrote_fail, grown_refl.
Qed.

Lemma kFileBuffer_pos : 0 < kFileBuffer.
Proof. unfold kFileBuffer. lia. Qed.
#[local] Opaque kFileBuffer.

Lemma copy_wrote fuel content missing t :
  String.length content < fuel -> (strlen content <= missing)%Z ->
  wrote content missing t (copy_loop fuel content missing t).
Proof.
  pose proof kFileBuffer_pos as Hk.
  revert content missing t. induction fuel as [|fuel IH]; intros content missing t Hf Hm; [lia|]. cbn [copy_loop].
  destruct (Z.leb_spec missing 0) as [Hz|Hz].
  { replace missing with (strlen content) by (unfold strlen in *; lia). apply wrote_done. lia. }
  set (buffer := str_take kFileBuffer content). unfold reject_if.
  destruct (is_empty buffer) eqn:Eb; [apply wrote_fail, grown_refl|].
  unfold mbind, M_bind. cbn [mret M_ret].
  assert (0 < String.length buffer /\ String.length buffer <= String.length content) as [Hb1 Hb2].
  { split; [destruct buffer; [done|simpl; lia]|]. unfold buffer. rewrite str_take_length. lia. }
  destruct (buffer_wrote (socket_fuel t) buffer t) as (p & rest & E & Hg & Hr).
  { unfold socket_fuel, left_over. lia. }
  destruct (buffer_loop (socket_fuel t) buffer t) as [[e|[]] t1]; cbn [fst snd] in *.
  - exists p, (rest +:+ str_drop kFileBuffer content).
    split; [|done]. rewrite <- str_app_assoc, <- E. symmetry. apply str_take_drop.
  - destruct (Hr eq_refl) as [-> _]. rewrite str_app_nil_r in E. rewrite <- E in Hg.
    apply (wrote_more kFileBuffer _ _ _ _ _ Hg).
    apply IH; rewrite ?str_drop_length; [|unfold strlen in *; rewrite str_drop_length];
      unfold buffer, strlen in *; rewrite str_take_length in *; lia.
Qed.

(** ** Sequences of calls *)

Inductive call :=
  | Queue (data : string)
  | SendNow (data : string)
  | Flush
  | SendFile (file : string + string) (offset byte_count : Z).

Definition perform (c : call) : M Transport unit :=
  match c with
  | Queue data => queue_send data
  | SendNow data => send data
  | Flush => flush_queued
  | SendFile file offset byte_count => send_file file offset byte_count ;; mret tt
  end.

(** The part of the file a call asks for. *)
Definition slice (file : string + string) (offset byte_count : Z) : string :=
  match file with inl _ => "" | inr whole => substr (Z.to_nat offset) (Z.to_nat byte_count) whole end.

(** What a call that ends with [r] puts into the stream. *)
Inductive piece (t : Transport) : call -> string + unit -> string -> Prop :=
  | piece_queued data r : (enqueue_output data t).1 = inr tt -> piece t (Queue data) r data
  | piece_sent data r : (enqueue_output data t).1 = inr tt -> piece t (SendNow data) r data
  | piece_queue_refused data e : (enqueue_output data t).1 = inl e -> piece t (Queue data) (inl e) ""
  | piece_send_refused data e : (enqueue_output data t).1 = inl e -> piece t (SendNow data) (inl e) ""
  | piece_flush r : piece t Flush r ""
  | piece_file file offset byte_count :
      strlen (slice file offset byte_count) = byte_count ->
      piece t (SendFile file offset byte_count) (inr tt) (slice file offset byte_count)
  | piece_file_cut file offset byte_count e p rest :
      slice file offset byte_count = p +:+ rest -> piece t (SendFile file offset byte_count) (inl e) p.

(** A call that waits, and succeeds, leaves nothing behind. *)
Definition waits (c : call) : bool := match c with SendNow _ | SendFile _ _ _ => true | _ => false end.

Definition step_ok (t : Transport) (c : call) (acc : string) : Prop :=
  let r := perform c t in
  (exists p, piece t c r.1 p /\ ordered (acc +:+ p) r.2) /\
  (waits c = true -> r.1 = inr tt -> output_queue_ r.2 = []).

Lemma queue_step data acc t : ordered acc t -> step_ok t (Queue data) acc.
Proof.
  intros Ht. split; [|done]. simpl. unfold queue_send, mbind, M_bind.
  destruct (enqueue_ordered data acc t Ht) as [[E Ho]|[e E]].
  - exists data. destruct (enqueue_output data t) as [r t1] eqn:Eq. simpl in E. subst r.
    split; [constructor; by rewrite Eq|]. by apply flush_queued_ordered.
  - exists "". rewrite E. split; [constructor; by rewrite E|]. by rewrite str_app_nil_r.
Qed.

Lemma send_step data acc t : ordered acc t -> step_ok t (SendNow data) acc.
Proof.
  intros Ht. unfold step_ok. simpl. unfold send, mbind, M_bind.
  destruct (enqueue_ordered data acc t Ht) as [[E Ho]|[e E]].
  - destruct (enqueue_output data t) as [r t1] eqn:Eq. simpl in E. subst r.
    split; [exists data; split; [constructor; by rewrite Eq|by apply blocking_ordered]|].
    intros _. apply blocking_empty. lia.
  - rewrite E. split; [|done]. exists "". split; [constructor; by rewrite E|]. by rewrite str_app_nil_r.
Qed.

Lemma slice_length file offset byte_count : (0 <= byte_count)%Z -> (strlen (slice file offset byte_count) <= byte_count)%Z.
Proof. destruct file; simpl; unfold strlen, substr; rewrite ?str_take_length; simpl; lia. Qed.

(** Both ways of sending the file, behind the empty queue. *)
Lemma file_step file offset byte_count acc t :
  (0 <= byte_count)%Z -> ordered acc t -> step_ok t (SendFile file offset byte_count) acc.
Proof.
  intros Hn Ht. unfold step_ok. simpl. unfold send_file, mbind, M_bind. cbn [get]. unfold reject_if.
  assert (forall e t1, ordered acc t1 -> exists p, piece t (SendFile file offset byte_count) (inl e) p /\ ordered (acc +:+ p) t1) as Hfail.
  { intros e t1 H1. exists "". split; [by eapply piece_file_cut|]. by rewrite str_app_nil_r. }
  destruct (negb (connected_ t)); [split; [by apply Hfail|done]|]. cbn [mret M_ret].
  pose proof (blocking_ordered (S (length (polls t))) acc t Ht) as H1.
  pose proof (blocking_empty (S (length (polls t))) t) as H2. unfold flush_queued_blocking.
  destruct (blocking_loop _ t) as [[e|[]] t1]; cbn [fst snd] in *; [split; [by apply Hfail|done]|].
  specialize (H2 ltac:(lia) eq_refl). destruct file as [e|whole]; [split; [by apply Hfail|done]|].
  pose proof (slice_length (inr whole) offset byte_count Hn) as Hs. simpl in Hs.
  set (content := substr _ _ whole) in *. cbn [get].
  assert (forall (b : bool) r, wrote content byte_count t1 r ->
    let r' := match r with (inl e, t') => (inl e, t') | (inr _, t') => (inr tt, t') end : (string + unit) * Transport in
    (exists p, piece t (SendFile (inr whole) offset byte_count) r'.1 p /\ ordered (acc +:+ p) r'.2) /\
    (true = true -> r'.1 = inr tt -> output_queue_ r'.2 = [])) as Hend.
  { intros _ [[e|[]] t2] (p & rest & E & Hg & Hr); simpl in *.
    - split; [|done]. exists p. split; [by eapply piece_file_cut|by eapply grown_ordered].
    - destruct (Hr eq_refl) as [-> Hl]. rewrite str_app_nil_r in E. subst p. split.
      + exists content. split; [by apply (piece_file t (inr whole))|by eapply grown_ordered].
      + intros _ _. destruct Hg as (_ & -> & _). done. }
  destruct (connected_ t1 && zero_copy t1).
  - pose proof (Hend true _ (sendfile_wrote (socket_fuel t1) content byte_count t1 ltac:(unfold socket_fuel, left_over; lia) Hs)) as He.
    destruct (sendfile_loop _ _ _ t1) as [[e|[]] t2]; exact He.
  - pose proof (Hend true _ (copy_wrote (S (String.length content)) content byte_count t1 ltac:(lia) Hs)) as He.
    destruct (copy_loop _ _ _ t1) as [[e|[]] t2]; exact He.
Qed.

(** A call of [send_file] has a count that is not negative: the parameter is unsigned. *)
Definition well_typed (c : call) : Prop := match c with SendFile _ _ n => (0 <= n)%Z | _ => True end.

Lemma call_step c acc t : well_typed c -> ordered acc t -> step_ok t c acc.
Proof.
  destruct c as [data|data| |file offset n]; intros Hw Ht; [by apply queue_step|by apply send_step| |by apply file_step].
  split; [|done]. exists "". split; [constructor|]. rewrite str_app_nil_r. by apply flush_queued_ordered.
Qed.

Definition run_calls (l : list call) (t : Transport) : Transport := foldl (fun t c => (perform c t).2) t l.

(** The stream of a run: the pieces of its calls, in order. *)
Inductive pieces : Transport -> list call -> string -> Prop :=
  | pieces_nil t : pieces t [] ""
  | pieces_cons t c l p acc :
      piece t c (perform c t).1 p -> pieces (perform c t).2 l acc -> pieces t (c :: l) (p +:+ acc).

Lemma run_ordered l before t :
  Forall well_typed l -> ordered before t ->
  exists acc, pieces t l acc /\ ordered (before +:+ acc) (run_calls l t).
Proof.
  revert before t. induction l as [|c l IH]; intros before t Hl Ht; inversion Hl as [|? ? Hc Hl']; subst.
  { exists "". split; [constructor|]. by rewrite str_app_nil_r. }
  destruct (call_step c before t Hc Ht) as [(p & Hp & Ho) _].
  destruct (IH _ _ Hl' Ho) as (acc' & Hs & Ha). exists (p +:+ acc'). split; [by constructor|].
  by rewrite <- str_app_assoc.
Qed.

Lemma new_ordered zero ws ps rs : ordered "" (new_transport zero ws ps rs).
Proof. split; simpl; try done; try lia. Qed.

(** C38: whatever OpenSSL and [poll] report, and whatever the client queues,
    sends, flushes and uploads: the bytes on the wire, and behind them the bytes
    in the queue, are the pieces of the calls in order, where a text is there as
    a whole unless the call refused it, an upload that succeeds is the bytes
    asked for and one that fails is a prefix of them; the byte counter is right
    and stays within the limit of the queue; and a call that waits and succeeds
    leaves nothing in the queue. *)
Theorem transport_order zero ws ps rs l :
  Forall well_typed l ->
  (exists acc, pieces (new_transport zero ws ps rs) l acc /\
     wire (run_calls l (new_transport zero ws ps rs)) +:+ pending (run_calls l (new_transport zero ws ps rs)) = acc) /\
  queued_output_bytes_ (run_calls l (new_transport zero ws ps rs)) =
    strlen (pending (run_calls l (new_transport zero ws ps rs))) /\
  (queued_output_bytes_ (run_calls l (new_transport zero ws ps rs)) <= kMaxQueuedTextBytes)%Z /\
  forall l1 c l2, l = l1 ++ c :: l2 -> waits c = true ->
    (perform c (run_calls l1 (new_transport zero ws ps rs))).1 = inr tt ->
    output_queue_ (run_calls (l1 ++ [c]) (new_transport zero ws ps rs)) = [].
Proof.
  intros Hl. pose proof (new_ordered zero ws ps rs) as H0. split_and!.
  - destruct (run_ordered l "" _ Hl H0) as (acc & Hp & [Hb _ _ _ _]). by exists acc.
  - by destruct (run_ordered l "" _ Hl H0) as (acc & Hp & [_ Hn _ _ _]).
  - by destruct (run_ordered l "" _ Hl H0) as (acc & Hp & [_ Hn Hm _ _]).
  - intros l1 c l2 -> Hw He. apply Forall_app in Hl as [Hl1 Hc]. inversion Hc as [|? ? Hc1 _]; subst.
    destruct (run_ordered l1 "" _ Hl1 H0) as (acc & _ & Ho).
    destruct (call_step c _ _ Hc1 Ho) as [_ Hq]. unfold run_calls. rewrite foldl_app. by apply Hq.
Qed.
End TransportProps.
