(* ===== verification/ClientState.v ===== *)
(** * The state of the client, [ChatRoom/include/client/client_state.hpp]

    One record for everything the terminal client reads or changes: the members
    of [ClientState], grouped as its comments group them, the members of
    [ClientApp], the local database, the files, the connection, what stands on
    the terminal, and the clocks.  A function of the client is code in the monad
    [E R]: it changes the client and may return an [R] early; [fn] is the call of
    a function.  The file also holds [client_common.cpp] and the heartbeat. *)
From S2P Require Import Prelude Protocol FileUtils FileService LocalStore ClientTransport.

Module ClientState.

(** ** Transfers *)

Record PendingUpload := mkUpload {
  token : string; scope : string; target : string; source_path : string; file_name : string;
  file_size : Z; sha256_hex : string; source_sha_verified : bool; created_at_unix_ms : Z }.
Definition set_source_sha_verified (x : bool) (u : PendingUpload) : PendingUpload :=
  mkUpload (token u) (scope u) (target u) (source_path u) (file_name u) (file_size u) (sha256_hex u) x
    (created_at_unix_ms u).

Record IncomingDownload := mkDownload {
  transfer_id : Z; d_scope : string; sender_username : string; group_name : string; d_file_name : string;
  expected_size : Z; received_size : Z; d_sha256_hex : string; temp_path : string; final_path : string }.
Definition set_received_size (x : Z) (d : IncomingDownload) : IncomingDownload :=
  mkDownload (transfer_id d) (d_scope d) (sender_username d) (group_name d) (d_file_name d) (expected_size d) x
    (d_sha256_hex d) (temp_path d) (final_path d).

Record PendingBinaryDownloadFrame := mkBinary { bin_transfer_id : Z; remaining_bytes : Z }.
Definition no_binary : PendingBinaryDownloadFrame := mkBinary 0 0.

Record Transfers := mkTransfers {
  download_root : string;
  pending_uploads : gmap string PendingUpload;
  upload_queue : list string;
  active_upload_token : string;
  downloads : gmap Z IncomingDownload;
  binary_download : PendingBinaryDownloadFrame }.

Definition set_pending_uploads (x : gmap string PendingUpload) (r : Transfers) : Transfers :=
  mkTransfers (download_root r) x (upload_queue r) (active_upload_token r) (downloads r)
    (binary_download r).
Definition set_upload_queue (x : list string) (r : Transfers) : Transfers :=
  mkTransfers (download_root r) (pending_uploads r) x (active_upload_token r) (downloads r)
    (binary_download r).
Definition set_active_upload_token (x : string) (r : Transfers) : Transfers :=
  mkTransfers (download_root r) (pending_uploads r) (upload_queue r) x (downloads r)
    (binary_download r).
Definition set_downloads (x : gmap Z IncomingDownload) (r : Transfers) : Transfers :=
  mkTransfers (download_root r) (pending_uploads r) (upload_queue r) (active_upload_token r) x
    (binary_download r).
Definition set_binary_download (x : PendingBinaryDownloadFrame) (r : Transfers) : Transfers :=
  mkTransfers (download_root r) (pending_uploads r) (upload_queue r) (active_upload_token r)
    (downloads r) x.

(** ** Conversations *)

Inductive ClientChatScope := NoChat | Private | Group.
#[export] Instance ClientChatScope_eq_dec : EqDecision ClientChatScope.
Proof. solve_decision. Defined.
Inductive ChatInputMode := NoInput | Instant | MultiLine.
#[export] Instance ChatInputMode_eq_dec : EqDecision ChatInputMode.
Proof. solve_decision. Defined.

Record Chat := mkChat {
  chat_scope : ClientChatScope;
  chat_target : string;
  pending_chat_scope : ClientChatScope;
  pending_chat_target : string;
  chat_entry_pending : bool;
  chat_mode_selection_active : bool;
  chat_input_mode : ChatInputMode;
  chat_multiline_finished : bool;
  chat_message_lines : list string }.

Definition set_chat_scope (x : ClientChatScope) (r : Chat) : Chat :=
  mkChat x (chat_target r) (pending_chat_scope r) (pending_chat_target r) (chat_entry_pending r)
    (chat_mode_selection_active r) (chat_input_mode r) (chat_multiline_finished r)
    (chat_message_lines r).
Definition set_chat_target (x : string) (r : Chat) : Chat :=
  mkChat (chat_scope r) x (pending_chat_scope r) (pending_chat_target r) (chat_entry_pending r)
    (chat_mode_selection_active r) (chat_input_mode r) (chat_multiline_finished r)
    (chat_message_lines r).
Definition set_pending_chat_scope (x : ClientChatScope) (r : Chat) : Chat :=
  mkChat (chat_scope r) (chat_target r) x (pending_chat_target r) (chat_entry_pending r)
    (chat_mode_selection_active r) (chat_input_mode r) (chat_multiline_finished r)
    (chat_message_lines r).
Definition set_pending_chat_target (x : string) (r : Chat) : Chat :=
  mkChat (chat_scope r) (chat_target r) (pending_chat_scope r) x (chat_entry_pending r)
    (chat_mode_selection_active r) (chat_input_mode r) (chat_multiline_finished r)
    (chat_message_lines r).
Definition set_chat_entry_pending (x : bool) (r : Chat) : Chat :=
  mkChat (chat_scope r) (chat_target r) (pending_chat_scope r) (pending_chat_target r) x
    (chat_mode_selection_active r) (chat_input_mode r) (chat_multiline_finished r)
    (chat_message_lines r).
Definition set_chat_mode_selection_active (x : bool) (r : Chat) : Chat :=
  mkChat (chat_scope r) (chat_target r) (pending_chat_scope r) (pending_chat_target r)
    (chat_entry_pending r) x (chat_input_mode r) (chat_multiline_finished r)
    (chat_message_lines r).
Definition set_chat_input_mode (x : ChatInputMode) (r : Chat) : Chat :=
  mkChat (chat_scope r) (chat_target r) (pending_chat_scope r) (pending_chat_target r)
    (chat_entry_pending r) (chat_mode_selection_active r) x (chat_multiline_finished r)
    (chat_message_lines r).
Definition set_chat_multiline_finished (x : bool) (r : Chat) : Chat :=
  mkChat (chat_scope r) (chat_target r) (pending_chat_scope r) (pending_chat_target r)
    (chat_entry_pending r) (chat_mode_selection_active r) (chat_input_mode r) x
    (chat_message_lines r).
Definition set_chat_message_lines (x : list string) (r : Chat) : Chat :=
  mkChat (chat_scope r) (chat_target r) (pending_chat_scope r) (pending_chat_target r)
    (chat_entry_pending r) (chat_mode_selection_active r) (chat_input_mode r)
    (chat_multiline_finished r) x.
Definition no_chat : Chat := mkChat NoChat "" NoChat "" false false NoInput false [].

Inductive GroupRequestAction := NoAction | Approve | Reject.
#[export] Instance GroupRequestAction_eq_dec : EqDecision GroupRequestAction.
Proof. solve_decision. Defined.
Record PendingGroupJoinRequestItem := mkItem { item_group : string; item_username : string }.

Record GroupRequests := mkRequests {
  group_request_action : GroupRequestAction;
  group_request_loading : bool;
  group_request_selection_active : bool;
  group_request_items : list PendingGroupJoinRequestItem }.

Definition set_group_request_action (x : GroupRequestAction) (r : GroupRequests) : GroupRequests :=
  mkRequests x (group_request_loading r) (group_request_selection_active r)
    (group_request_items r).
Definition set_group_request_loading (x : bool) (r : GroupRequests) : GroupRequests :=
  mkRequests (group_request_action r) x (group_request_selection_active r) (group_request_items r).
Definition set_group_request_selection_active (x : bool) (r : GroupRequests) : GroupRequests :=
  mkRequests (group_request_action r) (group_request_loading r) x (group_request_items r).
Definition set_group_request_items (x : list PendingGroupJoinRequestItem) (r : GroupRequests) : GroupRequests :=
  mkRequests (group_request_action r) (group_request_loading r) (group_request_selection_active r)
    x.
Definition no_requests : GroupRequests := mkRequests NoAction false false [].

(** Lines kept for conversations that are not open, and those announced. *)
Record Unread := mkUnread {
  pending_private_message_lines : gmap string (list string);
  pending_group_message_lines : gmap string (list string);
  private_unread_notified : gset string;
  group_unread_notified : gset string;
  pending_private_file_offers : gmap string (list string);
  pending_group_file_offers : gmap string (list string);
  private_file_unread_notified : gset string;
  group_file_unread_notified : gset string }.

Definition set_pending_private_message_lines (x : gmap string (list string)) (r : Unread) : Unread :=
  mkUnread x (pending_group_message_lines r) (private_unread_notified r) (group_unread_notified r)
    (pending_private_file_offers r) (pending_group_file_offers r) (private_file_unread_notified r)
    (group_file_unread_notified r).
Definition set_pending_group_message_lines (x : gmap string (list string)) (r : Unread) : Unread :=
  mkUnread (pending_private_message_lines r) x (private_unread_notified r)
    (group_unread_notified r) (pending_private_file_offers r) (pending_group_file_offers r)
    (private_file_unread_notified r) (group_file_unread_notified r).
Definition set_private_unread_notified (x : gset string) (r : Unread) : Unread :=
  mkUnread (pending_private_message_lines r) (pending_group_message_lines r) x
    (group_unread_notified r) (pending_private_file_offers r) (pending_group_file_offers r)
    (private_file_unread_notified r) (group_file_unread_notified r).
Definition set_group_unread_notified (x : gset string) (r : Unread) : Unread :=
  mkUnread (pending_private_message_lines r) (pending_group_message_lines r)
    (private_unread_notified r) x (pending_private_file_offers r) (pending_group_file_offers r)
    (private_file_unread_notified r) (group_file_unread_notified r).
Definition set_pending_private_file_offers (x : gmap string (list string)) (r : Unread) : Unread :=
  mkUnread (pending_private_message_lines r) (pending_group_message_lines r)
    (private_unread_notified r) (group_unread_notified r) x (pending_group_file_offers r)
    (private_file_unread_notified r) (group_file_unread_notified r).
Definition set_pending_group_file_offers (x : gmap string (list string)) (r : Unread) : Unread :=
  mkUnread (pending_private_message_lines r) (pending_group_message_lines r)
    (private_unread_notified r) (group_unread_notified r) (pending_private_file_offers r) x
    (private_file_unread_notified r) (group_file_unread_notified r).
Definition set_private_file_unread_notified (x : gset string) (r : Unread) : Unread :=
  mkUnread (pending_private_message_lines r) (pending_group_message_lines r)
    (private_unread_notified r) (group_unread_notified r) (pending_private_file_offers r)
    (pending_group_file_offers r) x (group_file_unread_notified r).
Definition set_group_file_unread_notified (x : gset string) (r : Unread) : Unread :=
  mkUnread (pending_private_message_lines r) (pending_group_message_lines r)
    (private_unread_notified r) (group_unread_notified r) (pending_private_file_offers r)
    (pending_group_file_offers r) (private_file_unread_notified r) x.
Definition no_unread : Unread := mkUnread ∅ ∅ ∅ ∅ ∅ ∅ ∅ ∅.

(** ** The heartbeat, [include/client/client_heartbeat.hpp] *)

Record ClientHeartbeat := mkHeartbeat {
  ping_interval_ : Z;
  pong_timeout_ : Z;
  last_ping_ : Z;
  pending_since_ : Z;
  next_nonce_ : Z;
  pending_nonce_ : Z;
  waiting_for_pong_ : bool }.

Definition set_last_ping_ (x : Z) (r : ClientHeartbeat) : ClientHeartbeat :=
  mkHeartbeat (ping_interval_ r) (pong_timeout_ r) x (pending_since_ r) (next_nonce_ r)
    (pending_nonce_ r) (waiting_for_pong_ r).
Definition set_pending_since_ (x : Z) (r : ClientHeartbeat) : ClientHeartbeat :=
  mkHeartbeat (ping_interval_ r) (pong_timeout_ r) (last_ping_ r) x (next_nonce_ r)
    (pending_nonce_ r) (waiting_for_pong_ r).
Definition set_next_nonce_ (x : Z) (r : ClientHeartbeat) : ClientHeartbeat :=
  mkHeartbeat (ping_interval_ r) (pong_timeout_ r) (last_ping_ r) (pending_since_ r) x
    (pending_nonce_ r) (waiting_for_pong_ r).
Definition set_pending_nonce_ (x : Z) (r : ClientHeartbeat) : ClientHeartbeat :=
  mkHeartbeat (ping_interval_ r) (pong_timeout_ r) (last_ping_ r) (pending_since_ r)
    (next_nonce_ r) x (waiting_for_pong_ r).
Definition set_waiting_for_pong_ (x : bool) (r : ClientHeartbeat) : ClientHeartbeat :=
  mkHeartbeat (ping_interval_ r) (pong_timeout_ r) (last_ping_ r) (pending_since_ r)
    (next_nonce_ r) (pending_nonce_ r) x.

(** ** The whole client *)

(** A message the writer thread has still to store. *)
Inductive Job := PrivateJob (m : LocalStore.LocalPrivateMessage) | GroupJob (m : LocalStore.LocalGroupMessage).

(** [clock] and [steady] are the coming readings of the two clocks, the last one
    for good; [entropy] what [RAND_bytes] gives. *)
Record Client := mkClient {
  active_username : string;
  pending_login_username : string;
  chat : Chat;
  requests : GroupRequests;
  unread : Unread;
  transfers : Transfers;
  cache : LocalStore.Store;
  writer_jobs : list Job;
  disk : FileService.Fs;
  net : ClientTransport.Transport;
  heartbeat : ClientHeartbeat;
  pending_input_command_ : Z;
  menu_refresh_pending_ : bool;
  server_buffer_ : string;
  screen : list string;
  clock : list Z;
  steady : list Z;
  entropy : list (option string) }.

Definition set_active_username (x : string) (r : Client) : Client :=
  mkClient x (pending_login_username r) (chat r) (requests r) (unread r) (transfers r) (cache r)
    (writer_jobs r) (disk r) (net r) (heartbeat r) (pending_input_command_ r)
    (menu_refresh_pending_ r) (server_buffer_ r) (screen r) (clock r) (steady r) (entropy r).
Definition set_pending_login_username (x : string) (r : Client) : Client :=
  mkClient (active_username r) x (chat r) (requests r) (unread r) (transfers r) (cache r)
    (writer_jobs r) (disk r) (net r) (heartbeat r) (pending_input_command_ r)
    (menu_refresh_pending_ r) (server_buffer_ r) (screen r) (clock r) (steady r) (entropy r).
Definition set_chat (x : Chat) (r : Client) : Client :=
  mkClient (active_username r) (pending_login_username r) x (requests r) (unread r) (transfers r)
    (cache r) (writer_jobs r) (disk r) (net r) (heartbeat r) (pending_input_command_ r)
    (menu_refresh_pending_ r) (server_buffer_ r) (screen r) (clock r) (steady r) (entropy r).
Definition set_requests (x : GroupRequests) (r : Client) : Client :=
  mkClient (active_username r) (pending_login_username r) (chat r) x (unread r) (transfers r)
    (cache r) (writer_jobs r) (disk r) (net r) (heartbeat r) (pending_input_command_ r)
    (menu_refresh_pending_ r) (server_buffer_ r) (screen r) (clock r) (steady r) (entropy r).
Definition set_unread (x : Unread) (r : Client) : Client :=
  mkClient (active_username r) (pending_login_username r) (chat r) (requests r) x (transfers r)
    (cache r) (writer_jobs r) (disk r) (net r) (heartbeat r) (pending_input_command_ r)
    (menu_refresh_pending_ r) (server_buffer_ r) (screen r) (clock r) (steady r) (entropy r).
Definition set_transfers (x : Transfers) (r : Client) : Client :=
  mkClient (active_username r) (pending_login_username r) (chat r) (requests r) (unread r) x
    (cache r) (writer_jobs r) (disk r) (net r) (heartbeat r) (pending_input_command_ r)
    (menu_refresh_pending_ r) (server_buffer_ r) (screen r) (clock r) (steady r) (entropy r).
Definition set_cache (x : LocalStore.Store) (r : Client) : Client :=
  mkClient (active_username r) (pending_login_username r) (chat r) (requests r) (unread r)
    (transfers r) x (writer_jobs r) (disk r) (net r) (heartbeat r) (pending_input_command_ r)
    (menu_refresh_pending_ r) (server_buffer_ r) (screen r) (clock r) (steady r) (entropy r).
Definition set_writer_jobs (x : list Job) (r : Client) : Client :=
  mkClient (active_username r) (pending_login_username r) (chat r) (requests r) (unread r)
    (transfers r) (cache r) x (disk r) (net r) (heartbeat r) (pending_input_command_ r)
    (menu_refresh_pending_ r) (server_buffer_ r) (screen r) (clock r) (steady r) (entropy r).
Definition set_disk (x : FileService.Fs) (r : Client) : Client :=
  mkClient (active_username r) (pending_login_username r) (chat r) (requests r) (unread r)
    (transfers r) (cache r) (writer_jobs r) x (net r) (heartbeat r) (pending_input_command_ r)
    (menu_refresh_pending_ r) (server_buffer_ r) (screen r) (clock r) (steady r) (entropy r).
Definition set_net (x : ClientTransport.Transport) (r : Client) : Client :=
  mkClient (active_username r) (pending_login_username r) (chat r) (requests r) (unread r)
    (transfers r) (cache r) (writer_jobs r) (disk r) x (heartbeat r) (pending_input_command_ r)
    (menu_refresh_pending_ r) (server_buffer_ r) (screen r) (clock r) (steady r) (entropy r).
Definition set_heartbeat (x : ClientHeartbeat) (r : Client) : Client :=
  mkClient (active_username r) (pending_login_username r) (chat r) (requests r) (unread r)
    (transfers r) (cache r) (writer_jobs r) (disk r) (net r) x (pending_input_command_ r)
    (menu_refresh_pending_ r) (server_buffer_ r) (screen r) (clock r) (steady r) (entropy r).
Definition set_pending_input_command_ (x : Z) (r : Client) : Client :=
  mkClient (active_username r) (pending_login_username r) (chat r) (requests r) (unread r)
    (transfers r) (cache r) (writer_jobs r) (disk r) (net r) (heartbeat r) x
    (menu_refresh_pending_ r) (server_buffer_ r) (screen r) (clock r) (steady r) (entropy r).
Definition set_menu_refresh_pending_ (x : bool) (r : Client) : Client :=
  mkClient (active_username r) (pending_login_username r) (chat r) (requests r) (unread r)
    (transfers r) (cache r) (writer_jobs r) (disk r) (net r) (heartbeat r)
    (pending_input_command_ r) x (server_buffer_ r) (screen r) (clock r) (steady r) (entropy r).
Definition set_server_buffer_ (x : string) (r : Client) : Client :=
  mkClient (active_username r) (pending_login_username r) (chat r) (requests r) (unread r)
    (transfers r) (cache r) (writer_jobs r) (disk r) (net r) (heartbeat r)
    (pending_input_command_ r) (menu_refresh_pending_ r) x (screen r) (clock r) (steady r)
    (entropy r).
Definition set_screen (x : list string) (r : Client) : Client :=
  mkClient (active_username r) (pending_login_username r) (chat r) (requests r) (unread r)
    (transfers r) (cache r) (writer_jobs r) (disk r) (net r) (heartbeat r)
    (pending_input_command_ r) (menu_refresh_pending_ r) (server_buffer_ r) x (clock r) (steady r)
    (entropy r).
Definition set_clock (x : list Z) (r : Client) : Client :=
  mkClient (active_username r) (pending_login_username r) (chat r) (requests r) (unread r)
    (transfers r) (cache r) (writer_jobs r) (disk r) (net r) (heartbeat r)
    (pending_input_command_ r) (menu_refresh_pending_ r) (server_buffer_ r) (screen r) x
    (steady r) (entropy r).
Definition set_steady (x : list Z) (r : Client) : Client :=
  mkClient (active_username r) (pending_login_username r) (chat r) (requests r) (unread r)
    (transfers r) (cache r) (writer_jobs r) (disk r) (net r) (heartbeat r)
    (pending_input_command_ r) (menu_refresh_pending_ r) (server_buffer_ r) (screen r) (clock r) x
    (entropy r).
Definition set_entropy (x : list (option string)) (r : Client) : Client :=
  mkClient (active_username r) (pending_login_username r) (chat r) (requests r) (unread r)
    (transfers r) (cache r) (writer_jobs r) (disk r) (net r) (heartbeat r)
    (pending_input_command_ r) (menu_refresh_pending_ r) (server_buffer_ r) (screen r) (clock r)
    (steady r) x.

(** ** Code *)

(** Code inside a function that returns an [R]: [inl] when it has returned. *)
Definition E (R A : Type) : Type := Client -> (R + A) * Client.

#[export] Instance E_ret R : MRet (E R) := fun A a c => (inr a, c).
#[export] Instance E_bind R : MBind (E R) := fun A B k m c =>
  match m c with
  | (inr a, c') => k a c'
  | (inl r, c') => (inl r, c')
  end.

(** [return r;], and the call of a function. *)
Definition return_ {R A} (r : R) : E R A := fun c => (inl r, c).
Definition return_if {R} (b : bool) (r : R) : E R unit := if b then return_ r else mret tt.
Definition fn {R A} (body : E A A) : E R A := fun c =>
  match body c with
  | (inl a, c') => (inr a, c')
  | (inr a, c') => (inr a, c')
  end.

Definition gets {R A} (f : Client -> A) : E R A := fun c => (inr (f c), c).
Definition change {R} (f : Client -> Client) : E R unit := fun c => (inr tt, f c).

(** Calls of the parts: their error or their result. *)
Definition on_net {R A} (m : M ClientTransport.Transport A) : E R (string + A) := fun c =>
  let r := m (net c) in (inr r.1, set_net r.2 c).
Definition on_cache {R A} (m : M LocalStore.Store A) : E R (string + A) := fun c =>
  let r := m (cache c) in (inr r.1, set_cache r.2 c).
Definition on_disk {R A} (m : M FileService.Fs A) : E R (string + A) := fun c =>
  let r := m (disk c) in (inr r.1, set_disk r.2 c).

(** Changes of one part. *)
Definition on_chat {R} (f : Chat -> Chat) : E R unit := change (fun c => set_chat (f (chat c)) c).
Definition on_requests {R} (f : GroupRequests -> GroupRequests) : E R unit :=
  change (fun c => set_requests (f (requests c)) c).
Definition on_unread {R} (f : Unread -> Unread) : E R unit := change (fun c => set_unread (f (unread c)) c).
Definition on_transfers {R} (f : Transfers -> Transfers) : E R unit :=
  change (fun c => set_transfers (f (transfers c)) c).
Definition on_heartbeat {R} (f : ClientHeartbeat -> ClientHeartbeat) : E R unit :=
  change (fun c => set_heartbeat (f (heartbeat c)) c).

(** [std::cout <<] and [std::cerr <<]. *)
Definition say {R} (text : string) : E R unit := change (fun c => set_screen (screen c ++ [text]) c).

Fixpoint for_each {R A} (f : A -> E R unit) (l : list A) : E R unit :=
  match l with
  | [] => mret tt
  | a :: rest => f a ;; for_each f rest
  end.

(** The next reading of a clock. *)
Definition reading (l : list Z) : Z * list Z :=
  match l with
  | [] => (0%Z, [])
  | [t] => (t, [t])
  | t :: rest => (t, rest)
  end.
Definition steady_now {R} : E R Z := fun c =>
  let r := reading (steady c) in (inr r.1, set_steady r.2 c).
Definition RAND_bytes {R} : E R (option string) := fun c =>
  match entropy c with
  | [] => (inr None, c)
  | x :: rest => (inr x, set_entropy rest c)
  end.

(** ** [client_common.cpp] *)

Definition kClientBufferSize : nat := Z.to_nat (64 * 1024).
Definition kDefaultLocalHistory : Z := 20.
Definition kMaxLocalHistory : Z := 200.
Definition kMaxFileSize : Z := 100 * 1024 * 1024 * 1024.
Definition kFileFrameBytes : Z := 16 * 1024 * 1024.

Definition client_now_unix_ms {R} : E R Z := fun c =>
  let r := reading (clock c) in (inr r.1, set_clock r.2 c).

Definition starts_with (text prefix : string) : bool :=
  (String.length prefix <=? String.length text) && (str_take (String.length prefix) text =s? prefix).

Definition parse_uint64 (text : string) : option Z :=
  if is_empty text then None else whole (from_chars_unsigned 64 text).

Definition encode_text_token (text : string) : string := FileUtils.percent_encode text.

Definition decode_text_token (encoded : string) : FileUtils.decode_error + string :=
  if encoded =s? "-" then inr "" else FileUtils.percent_decode encoded.

Definition require_local_account {R} : E R bool :=
  user ← gets active_username;
  if negb (is_empty user) then mret true
  else say ("[本地错误] 请先登录，才能" +:+ "SQLite account context is known." +:+ nl) ;; mret false.

(** ** [client_heartbeat.cpp] *)

(** The heartbeat of a client started at [now]. *)
Definition new_heartbeat (now : Z) : ClientHeartbeat := mkHeartbeat 20000 60000 now now 1 0 false.

Definition tick {R} : E R (string + unit) := fn (
  now ← steady_now;
  h ← gets heartbeat;
  (if waiting_for_pong_ h then
     if (pong_timeout_ h <=? now - pending_since_ h)%Z
     then return_ (inl "服务端未响应客户端 TCP 心跳 PING")
     else return_ (inr tt)
   else mret tt) ;;
  return_if (now - last_ping_ h <? ping_interval_ h)%Z (inr tt) ;;
  let nonce := next_nonce_ h in
  on_heartbeat (set_next_nonce_ (wrap 64 (nonce + 1))) ;;
  sent ← on_net (ClientTransport.queue_send ("PING " +:+ to_string nonce +:+ nl));
  match sent with
  | inl error => return_ (inl error)
  | inr _ => mret tt
  end ;;
  on_heartbeat (fun h =>
    set_waiting_for_pong_ true (set_pending_nonce_ nonce (set_pending_since_ now (set_last_ping_ now h)))) ;;
  mret (inr tt)).

Definition consume_protocol_line {R} (line : string) : E R bool :=
  let command := Protocol.parse_command line in
  if Protocol.cmd_name command =s? "PONG" then
    h ← gets heartbeat;
    match parse_uint64 (Protocol.raw_arguments command) with
    | Some nonce =>
        if waiting_for_pong_ h && (nonce =? pending_nonce_ h)%Z
        then on_heartbeat (fun h => set_pending_nonce_ 0 (set_waiting_for_pong_ false h))
        else mret tt
    | None => mret tt
    end ;;
    mret true
  else mret (Protocol.cmd_name command =s? "PING").

Definition timed_out {R} : E R bool :=
  now ← steady_now;
  h ← gets heartbeat;
  mret (waiting_for_pong_ h && (pong_timeout_ h <=? now - pending_since_ h)%Z).

(** ** What code keeps

    [keeps I m]: code [m] keeps the property [I] of the client. *)

Class keeps {R A} (I : Client -> Prop) (m : E R A) : Prop := kept : forall c, I c -> I (m c).2.

Section Keeps.
Context (I : Client -> Prop).

Lemma E_keeps_ret {R A} (a : A) : keeps I (mret a : E R A).
Proof. by intros c Hc. Qed.
Lemma keeps_return {R A} (r : R) : keeps I (return_ (A := A) r).
Proof. by intros c Hc. Qed.
Lemma keeps_return_if {R} b (r : R) : keeps I (return_if b r).
Proof. by destruct b; intros c Hc. Qed.
Lemma keeps_gets {R A} (f : Client -> A) : keeps I (gets (R := R) f).
Proof. by intros c Hc. Qed.
Lemma E_keeps_bind {R A B} (m : E R A) (k : A -> E R B) :
  keeps I m -> (forall a, keeps I (k a)) -> keeps I (m ≫= k).
Proof.
  intros Hm Hk c Hc. unfold mbind, E_bind. specialize (Hm c Hc). destruct (m c) as [[r|a] c']; [done|by apply Hk].
Qed.
(** A value read from the client is what it holds there. *)
Lemma keeps_bind_gets {R A B} (f : Client -> A) (k : A -> E R B) :
  (forall c, I c -> I (k (f c) c).2) -> keeps I (gets f ≫= k).
Proof. intros Hk c Hc. by apply Hk. Qed.
Lemma keeps_fn {R A} (m : E A A) : keeps I m -> keeps I (fn (R := R) m).
Proof. intros Hm c Hc. unfold fn. specialize (Hm c Hc). by destruct (m c) as [[a|a] c']. Qed.
Lemma keeps_change {R} (f : Client -> Client) : (forall c, I c -> I (f c)) -> keeps I (change (R := R) f).
Proof. intros Hf c Hc. by apply Hf. Qed.
Lemma keeps_if {R A} (b : bool) (m n : E R A) : keeps I m -> keeps I n -> keeps I (if b then m else n).
Proof. by destruct b. Qed.
Lemma E_keeps_for_each {R A} (f : A -> E R unit) l : (forall a, keeps I (f a)) -> keeps I (for_each f l).
Proof. intros Hf. induction l as [|a l IH]; [apply E_keeps_ret|]. by apply E_keeps_bind. Qed.
End Keeps.

End ClientState.
