(* ===== verification/ClientFiles.v ===== *)
(** * Files at the client, [ChatRoom/src/client/client_file_transfer.cpp]

    Uploads wait in a queue, one of them active at a time; a download is a
    [.part] file that grows with the binary frames of the server and becomes the
    final file when its digest is right.  Texts go through the queue of the
    transport, and the file system is that of [FileService]. *)
From S2P Require Import Prelude Protocol FileUtils FileService LocalStore ClientTransport ClientState.
Import ClientState.

Module ClientFiles.

(** ** Files and paths *)

(** [std::filesystem::is_regular_file(path, ec)] and [exists]: an error is [false]. *)
Definition is_regular_file {R} (path : string) : E R bool :=
  r ← on_disk (FileService.fs_exists path);
  mret (match r with inr b => b | inl _ => false end).
Definition file_size_of {R} (path : string) : E R (string + Z) := on_disk (FileService.fs_size path).
Definition remove {R} (path : string) : E R unit := on_disk (FileService.fs_remove path) ;; mret tt.
Definition sha256_file_hex {R} `{FileUtils.DigestEngine} (path : string) : E R (string + string) :=
  on_disk (FileService.digest_of_file path).

(** [create_directories]: the model has no directories, so it only may fail. *)
Definition create_directories {R} (path : string) : E R (string + unit) :=
  on_disk (FileService.fs_call (fun fs => (inr tt, fs)) FileService.nothing).

(** [operator/] with a relative right-hand side. *)
Definition path_join (dir name : string) : string :=
  match String.length dir with
  | 0 => name
  | S n => if bool_decide (str_nth n dir = Some "/"%char) then dir +:+ name else dir +:+ "/" +:+ name
  end.

(** Closing a stream writes what it still holds; the code does not look at a
    failure, which loses some of the last bytes written. *)
Definition stream_close (path bytes : string) : M FileService.Fs unit :=
  FileService.fs_call (fun fs => (inr tt, fs)) (fun n fs =>
    let content := default "" (FileService.files fs !! path) in
    FileService.set_files
      (<[path := str_take (String.length content - Nat.min n (String.length bytes)) content]> (FileService.files fs)) fs).

(** [operator<<] of a path: quoted, with a backslash before quotes and backslashes. *)
Fixpoint escaped (s : string) : string :=
  match s with
  | EmptyString => EmptyString
  | String c s' =>
      if bool_decide (c = "034"%char) || bool_decide (c = "\"%char)
      then String "\" (String c (escaped s')) else String c (escaped s')
  end.
Definition quoted (path : string) : string := String "034" (escaped path) +:+ String "034" "".

Definition cache_error (error : string) : string := "[本地 SQLite 错误] " +:+ error +:+ nl.

Definition send_all {R} (data : string) : E R bool :=
  r ← on_net (ClientTransport.send data);
  match r with
  | inr _ => mret true
  | inl error => say ("TLS 发送失败：" +:+ error +:+ nl) ;; mret false
  end.

(** [(void)send_all] of a refusal. *)
Definition send_failed {R} (id : Z) : E R unit :=
  send_all ("FILE_RECEIVE_FAILED " +:+ to_string id +:+ nl) ;; mret tt.

(** ** Uploads *)

Definition pending_upload_from_local (l : LocalStore.LocalPendingUpload) : PendingUpload :=
  mkUpload (LocalStore.pu_token l) (LocalStore.pu_scope l) (LocalStore.pu_target l) (LocalStore.pu_source_path l)
    (LocalStore.pu_file_name l) (LocalStore.pu_file_size l) (LocalStore.pu_sha256 l) false
    (LocalStore.pu_created_at l).

Definition local_pending_upload (u : PendingUpload) (account_username : string) : LocalStore.LocalPendingUpload :=
  LocalStore.mkLocalPendingUpload (token u) account_username (scope u) (target u) (source_path u) (file_name u)
    (file_size u) (sha256_hex u) (created_at_unix_ms u).

Section Files.
Context `{FileUtils.DigestEngine}.

(** The reference parameter is the entry of [pending_uploads]. *)
Definition upload_source_matches {R} (upload : PendingUpload) : E R (string + unit) := fn (
  regular ← is_regular_file (source_path upload);
  return_if (negb regular) (inl "上传源文件不存在") ;;
  size ← file_size_of (source_path upload);
  match size with
  | inl e => return_ (inl ("无法读取上传源文件大小：" +:+ e))
  | inr size =>
      return_if (negb (size =? file_size upload)%Z) (inl "上传源文件大小与保存任务时不一致") ;;
      if source_sha_verified upload then mret (inr tt)
      else
        sha ← sha256_file_hex (source_path upload);
        match sha with
        | inl e => return_ (inl e)
        | inr current_sha =>
            return_if (negb (current_sha =s? sha256_hex upload)) (inl "上传源文件的 SHA-256 与保存任务时不一致") ;;
            on_transfers (fun t => set_pending_uploads
              (alter (set_source_sha_verified true) (token upload) (pending_uploads t)) t) ;;
            mret (inr tt)
        end
  end).

Definition send_upload_begin {R} (upload : PendingUpload) : E R bool :=
  let command := if scope upload =s? "PRIVATE" then "FILE_BEGIN_PRIVATE " else "FILE_BEGIN_GROUP " in
  send_all (command +:+ token upload +:+ " " +:+ target upload +:+ " " +:+ encode_text_token (file_name upload) +:+
    " " +:+ to_string (file_size upload) +:+ " " +:+ sha256_hex upload +:+ nl).

(** The loop takes a token off the queue in every round. *)
Fixpoint next_upload_loop (fuel : nat) : E bool bool :=
  match fuel with
  | 0 => mret true
  | S fuel =>
      t ← gets transfers;
      match upload_queue t with
      | [] => mret true
      | tok :: rest =>
          on_transfers (set_upload_queue rest) ;;
          match pending_uploads t !! tok with
          | None => next_upload_loop fuel
          | Some upload =>
              matches ← upload_source_matches upload;
              match matches with
              | inl error =>
                  say ("[断点续传] 丢弃无效的待上传任务 " +:+ tok +:+ ": " +:+ error +:+ nl) ;;
                  user ← gets active_username;
                  on_cache (LocalStore.remove_pending_upload user tok) ;;
                  on_transfers (fun t => set_pending_uploads (delete tok (pending_uploads t)) t) ;;
                  next_upload_loop fuel
              | inr _ =>
                  on_transfers (set_active_upload_token tok) ;;
                  sent ← send_upload_begin upload;
                  if negb sent then
                    on_transfers (fun t => set_upload_queue (tok :: upload_queue t) (set_active_upload_token "" t)) ;;
                    return_ false
                  else
                    say ("[断点续传] 正在向服务端请求断点：" +:+ file_name upload +:+ "，令牌=" +:+ tok +:+ "." +:+ nl) ;;
                    return_ true
              end
          end
      end
  end.

Definition start_next_queued_upload {R} : E R bool := fn (
  t ← gets transfers;
  return_if (negb (is_empty (active_upload_token t))) true ;;
  next_upload_loop (S (length (upload_queue t)))).

Definition load_and_resume_pending_uploads {R} : E R bool := fn (
  user ← gets active_username;
  r ← on_cache (LocalStore.list_pending_uploads user);
  match r with
  | inl error =>
      say ("[本地 SQLite 错误] 无法加载待上传任务：" +:+ error +:+ nl) ;; return_ true
  | inr saved =>
      on_transfers (fun t => set_active_upload_token "" (set_upload_queue [] (set_pending_uploads ∅ t))) ;;
      for_each (fun l =>
        let upload := pending_upload_from_local l in
        on_transfers (fun t => set_pending_uploads (<[token upload := upload]> (pending_uploads t))
          (set_upload_queue (upload_queue t ++ [token upload]) t))) saved ;;
      (match saved with
       | [] => mret tt
       | _ => say ("[断点续传] 找到 " +:+ to_string (Z.of_nat (length saved)) +:+ " 个 SQLite 待上传任务。" +:+ nl)
       end) ;;
      start_next_queued_upload
  end).

Definition prepare_upload {R} (scope target raw_path : string) : E R bool := fn (
  account ← require_local_account;
  return_if (negb account) true ;;
  let source_path := Protocol.trim raw_path in
  regular ← (if is_empty source_path then mret false else is_regular_file source_path);
  if negb regular then say ("[本地错误] 文件不存在，或者目标不是普通文件。" +:+ nl) ;; return_ true
  else
    size ← file_size_of source_path;
    match size with
    | inl e => say ("[本地错误] 无法读取文件大小：" +:+ e +:+ nl) ;; return_ true
    | inr file_size =>
        if (kMaxFileSize <? file_size)%Z
        then say ("[本地错误] 文件超过客户端允许的最大文件大小。" +:+ nl) ;; return_ true
        else
          sha ← sha256_file_hex source_path;
          match sha with
          | inl error => say ("[本地错误] " +:+ error +:+ nl) ;; return_ true
          | inr sha256_hex =>
              rand ← RAND_bytes;
              let token := FileUtils.make_transfer_token rand in
              if is_empty token
              then say ("[本地错误] 无法生成安全的文件传输令牌。" +:+ nl) ;; return_ true
              else
                now ← client_now_unix_ms;
                let upload := mkUpload token scope target source_path
                  (FileUtils.sanitize_filename (FileUtils.path_filename source_path)) file_size sha256_hex true now in
                user ← gets active_username;
                saved ← on_cache (LocalStore.save_pending_upload (local_pending_upload upload user));
                match saved with
                | inl error => say ("[本地 SQLite 错误] 无法保存断点续传任务：" +:+ error +:+ nl) ;; return_ true
                | inr _ =>
                    on_transfers (fun t => set_upload_queue (upload_queue t ++ [token])
                      (set_pending_uploads (<[token := upload]> (pending_uploads t)) t)) ;;
                    say ("[本地] 已加入断点续传上传队列：" +:+ scope +:+ " 上传 " +:+ file_name upload +:+ " (" +:+
                      to_string file_size +:+ " 字节，SHA-256 " +:+ sha256_hex +:+ "，传输令牌 " +:+ token +:+ "）。" +:+ nl) ;;
                    start_next_queued_upload
                end
          end
    end).

(** What opening the source file and reading it gives to [send_file]. *)
Definition read_source {R} (path : string) : E R (string + string) := on_disk (FileService.open_read path).

(** The loop over frames: [fuel] bounds their number. *)
Fixpoint send_frames (fuel : nat) (upload : PendingUpload) (offset : Z) (reported : bool) : E bool unit :=
  match fuel with
  | 0 => mret tt
  | S fuel =>
      if negb (offset <? file_size upload)%Z then mret tt
      else
        let frame_size := Z.min (file_size upload - offset) kFileFrameBytes in
        sent ← send_all ("FILE_CHUNK " +:+ token upload +:+ " " +:+ to_string offset +:+ " " +:+
                 to_string frame_size +:+ nl);
        return_if (negb sent) false ;;
        source ← read_source (source_path upload);
        r ← on_net (ClientTransport.send_file source offset frame_size);
        match r with
        | inl error => say ("[本地文件错误] 原始文件数据发送失败：" +:+ error +:+ nl) ;; return_ false
        | inr used_zero_copy =>
            (if reported then mret tt
             else say ("[文件传输] " +:+ (if used_zero_copy : bool then "已启用 kTLS SSL_sendfile 零拷贝"
                   else "raw binary streaming fallback " +:+ "(kTLS zero-copy unavailable)") +:+ "." +:+ nl)) ;;
            send_frames fuel upload (offset + frame_size) true
        end
  end.

Definition frames_fuel (upload : PendingUpload) (offset : Z) : nat :=
  S (Z.to_nat ((file_size upload - offset + kFileFrameBytes - 1) / kFileFrameBytes)).

Definition send_upload_data {R} (upload : PendingUpload) (start_offset : Z) : E R bool := fn (
  if (file_size upload <? start_offset)%Z
  then say ("[本地文件错误] 服务端断点位置超过本地文件大小。" +:+ nl) ;; return_ false
  else
    send_frames (frames_fuel upload start_offset) upload start_offset false ;;
    send_all ("FILE_END " +:+ token upload +:+ nl)).

(** ** Downloads *)

Definition account_dir (root user : string) : string := path_join root (FileUtils.sanitize_filename user).

(** A truncating [ofstream]; [false] when it could not be opened. *)
Definition create_file {R} (path : string) : E R bool :=
  r ← on_disk (FileService.open_trunc path);
  mret (match r with inr _ => true | inl _ => false end).

(** The final file is there, complete and right: it is acknowledged again. *)
Definition already_there {R} (download : IncomingDownload) : E R (option string) := fn (
  regular ← is_regular_file (final_path download);
  return_if (negb regular) None ;;
  size ← file_size_of (final_path download);
  return_if (negb (bool_decide (size = inr (expected_size download)))) None ;;
  sha ← sha256_file_hex (final_path download);
  match sha with
  | inr final_sha => mret (if final_sha =s? d_sha256_hex download then Some final_sha else None)
  | inl _ => mret None
  end).

(** The saved row describes the same transfer. *)
Definition reusable_partial (saved : LocalStore.LocalPartialDownload) (download : IncomingDownload) : bool :=
  (LocalStore.pd_scope saved =s? d_scope download) && (LocalStore.pd_sender saved =s? sender_username download) &&
  (LocalStore.pd_group saved =s? group_name download) && (LocalStore.pd_file_name saved =s? d_file_name download) &&
  (LocalStore.pd_file_size saved =? expected_size download)%Z &&
  (LocalStore.pd_sha256 saved =s? d_sha256_hex download) && (LocalStore.pd_temp_path saved =s? temp_path download).

(** The part file is created, or kept; [false] when it could not be created. *)
Definition open_part {R} (id : Z) (saved : option LocalStore.LocalPartialDownload) (download : IncomingDownload) :
    E R bool := fn (
  let reusable := match saved with Some s => reusable_partial s download | None => false end in
  if negb reusable then
    (match saved with
     | Some s =>
         remove (LocalStore.pd_temp_path s) ;;
         user ← gets active_username;
         on_cache (LocalStore.remove_partial_download user id) ;; mret tt
     | None => mret tt
     end) ;;
    created ← create_file (temp_path download);
    if negb created then say ("[文件错误] 无法创建 " +:+ quoted (temp_path download) +:+ nl) ;; return_ false else mret true
  else
    present ← is_regular_file (temp_path download);
    if (present : bool) then mret true
    else
      created ← create_file (temp_path download);
      if negb created then say ("[文件错误] 无法重新创建 " +:+ quoted (temp_path download) +:+ nl) ;; return_ false
      else mret true).

Definition reset_part {R} (download : IncomingDownload) : E R (option Z) :=
  reset ← create_file (temp_path download);
  if negb reset then say ("[文件错误] 无法重置无效的临时文件。" +:+ nl) ;; mret None else mret (Some 0%Z).

(** What of the part file counts: a file that is too long starts again. *)
Definition resume_offset {R} (download : IncomingDownload) : E R (option Z) :=
  size ← file_size_of (temp_path download);
  match size with
  | inr local_offset =>
      if (expected_size download <? local_offset)%Z then reset_part download else mret (Some local_offset)
  | inl _ => reset_part download
  end.

Definition local_partial (download : IncomingDownload) (user : string) : LocalStore.LocalPartialDownload :=
  LocalStore.mkLocalPartialDownload (transfer_id download) user (d_scope download) (sender_username download)
    (group_name download) (d_file_name download) (temp_path download) (expected_size download)
    (d_sha256_hex download).

(** The fields of an offer: [None] when one of them is wrong. *)
Definition offer_fields (words : list string) : option (Z * string * string * string * string * Z * string) :=
  match words with
  | [w0; w1; w2; w3; w4; w5; w6] =>
      match parse_uint64 w0, parse_uint64 w5 with
      | Some id, Some size =>
          if ((w1 =s? "PRIVATE") || (w1 =s? "GROUP")) && (size <=? kMaxFileSize)%Z &&
             FileUtils.is_valid_sha256_hex w6
          then Some (id, w1, w2, w3, w4, size, w6) else None
      | _, _ => None
      end
  | _ => None
  end.

Definition new_download (root user : string) (id : Z) (scope sender group safe_name : string) (size : Z)
    (sha : string) : IncomingDownload :=
  let dir := account_dir root user in
  mkDownload id scope sender group safe_name size 0 sha
    (path_join dir (to_string id +:+ "_" +:+ safe_name +:+ ".part"))
    (path_join dir (to_string id +:+ "_" +:+ safe_name)).

Definition begin_incoming_download {R} (words : list string) : E R bool := fn (
  user ← gets active_username;
  return_if (is_empty user) false ;;
  match offer_fields words with
  | None => return_ false
  | Some (id, scope, sender, w3, w4, size, sha) =>
      match decode_text_token w3, decode_text_token w4 with
      | inl e, _ | inr _, inl e =>
          say ("[文件错误] FILE_OFFER 文本字段无效：" +:+ FileUtils.decode_error_text e +:+ nl) ;; return_ false
      | inr group, inr name =>
          root ← gets (fun c => download_root (transfers c));
          made ← create_directories (account_dir root user);
          match made with
          | inl e => say ("[文件错误] 无法创建下载目录：" +:+ e +:+ nl) ;; return_ false
          | inr _ =>
              let download := new_download root user id scope sender group (FileUtils.sanitize_filename name) size sha in
              there ← already_there download;
              match there with
              | Some final_sha =>
                  send_all ("FILE_RECEIVED " +:+ to_string id +:+ " " +:+ final_sha +:+ nl) ;;
                  say ("[断点续传] #F" +:+ to_string id +:+ " already exists and verifies locally; " +:+
                    "re-sent FILE_RECEIVED acknowledgement." +:+ nl) ;;
                  return_ true
              | None =>
                  saved ← on_cache (LocalStore.get_partial_download user id);
                  match saved with
                  | inl error =>
                      say ("[本地 SQLite 错误] 无法加载未完成下载 #F" +:+ to_string id +:+ ": " +:+ error +:+ nl) ;;
                      return_ false
                  | inr saved =>
                      opened ← open_part id saved download;
                      return_if (negb opened) false ;;
                      offset ← resume_offset download;
                      match offset with
                      | None => return_ false
                      | Some offset =>
                          let download := set_received_size offset download in
                          stored ← on_cache (LocalStore.save_partial_download (local_partial download user));
                          match stored with
                          | inl error =>
                              say ("[本地 SQLite 错误] 无法保存未完成下载 #F" +:+ to_string id +:+ ": " +:+ error +:+ nl) ;;
                              return_ false
                          | inr _ =>
                              on_transfers (fun t => set_downloads (<[id := download]> (downloads t)) t) ;;
                              sent ← send_all ("FILE_RESUME_REQUEST " +:+ to_string id +:+ " " +:+
                                       to_string offset +:+ nl);
                              return_if (negb sent) false ;;
                              say ("[文件 #F" +:+ to_string id +:+ "] " +:+
                                (if (offset =? 0)%Z then "starting" else "resuming") +:+ " " +:+ scope +:+ " file " +:+
                                d_file_name download +:+ " at offset " +:+ to_string offset +:+ "/" +:+
                                to_string size +:+ "." +:+ nl) ;;
                              mret true
                          end
                      end
                  end
              end
          end
      end
  end).

Definition forget_download {R} (id : Z) : E R unit :=
  on_transfers (fun t => set_downloads (delete id (downloads t)) t).
Definition end_binary {R} : E R unit := on_transfers (set_binary_download no_binary).

(** [server_buffer] is the buffer of the application. *)
Definition consume_file_binary_payload {R} : E R bool := fn (
  t ← gets transfers;
  let frame := binary_download t in
  return_if (remaining_bytes frame =? 0)%Z true ;;
  let id := bin_transfer_id frame in
  match downloads t !! id with
  | None => end_binary ;; return_ false
  | Some download =>
      buffer ← gets server_buffer_;
      return_if (is_empty buffer) true ;;
      let consume := Z.min (remaining_bytes frame) (strlen buffer) in
      if (expected_size download <? wrap 64 (received_size download + consume))%Z
      then end_binary ;; send_failed id ;; return_ false
      else
        output ← on_disk (FileService.open_append (temp_path download));
        match output with
        | inl _ => end_binary ;; return_ false
        | inr _ =>
            let bytes := str_take (Z.to_nat consume) buffer in
            written ← on_disk (FileService.stream_write (temp_path download) bytes);
            on_disk (stream_close (temp_path download) bytes) ;;
            match written with
            | inl _ => end_binary ;; return_ false
            | inr _ =>
                change (fun c => set_server_buffer_ (str_drop (Z.to_nat consume) (server_buffer_ c)) c) ;;
                on_transfers (fun t => set_downloads
                  (<[id := set_received_size (wrap 64 (received_size download + consume)) download]> (downloads t)) t) ;;
                let remaining := (remaining_bytes frame - consume)%Z in
                on_transfers (set_binary_download (if (remaining =? 0)%Z then no_binary else mkBinary id remaining)) ;;
                mret true
            end
        end
  end).

(** The digest of the part file when it is the declared one. *)
Definition verified (sha : string + string) (download : IncomingDownload) : option string :=
  match sha with
  | inr actual => if actual =s? d_sha256_hex download then Some actual else None
  | inl _ => None
  end.

Definition finish_incoming_download {R} (id : Z) : E R bool := fn (
  t ← gets transfers;
  user ← gets active_username;
  match downloads t !! id with
  | None => return_ false
  | Some download =>
      if negb (received_size download =? expected_size download)%Z then
        say ("[文件错误] #F" +:+ to_string id +:+ " 接收不完整：" +:+ to_string (received_size download) +:+ "/" +:+
          to_string (expected_size download) +:+ " 字节；临时文件已保留，可用于断点续传。" +:+ nl) ;;
        send_failed id ;; forget_download id ;; return_ true
      else
        sha ← sha256_file_hex (temp_path download);
        match verified sha download with
        | None =>
            say ("[文件错误] #F" +:+ to_string id +:+ " SHA-256 校验失败；已删除损坏的临时文件，下次将从 0 开始。" +:+ nl) ;;
            remove (temp_path download) ;;
            on_cache (LocalStore.remove_partial_download user id) ;;
            forget_download id ;; send_failed id ;; return_ true
        | Some actual_sha256 =>
            remove (final_path download) ;;
            renamed ← on_disk (FileService.fs_rename (temp_path download) (final_path download));
            match renamed with
            | inl e =>
                say ("[文件错误] 无法完成文件 #F" +:+ to_string id +:+ "：" +:+ e +:+
                  "；.part 临时文件已保留，后续可重试。" +:+ nl) ;;
                forget_download id ;; send_failed id ;; return_ true
            | inr _ =>
                now ← client_now_unix_ms;
                stored ← on_cache (LocalStore.cache_file_transfer (LocalStore.mkLocalFileTransfer id user
                  (d_scope download) (if d_scope download =s? "PRIVATE" then sender_username download else "")
                  (group_name download) (sender_username download) (d_file_name download) (final_path download)
                  (expected_size download) (d_sha256_hex download) now false));
                (match stored with
                 | inl error => say ("[本地 SQLite 错误] 无法缓存文件 #F" +:+ to_string id +:+ "：" +:+ error +:+ nl)
                 | inr _ => mret tt
                 end) ;;
                on_cache (LocalStore.remove_partial_download user id) ;;
                forget_download id ;;
                sent ← send_all ("FILE_RECEIVED " +:+ to_string id +:+ " " +:+ actual_sha256 +:+ nl);
                return_if (negb sent) false ;;
                say ("[文件 #F" +:+ to_string id +:+ "] 已接收并通过 SHA-256 校验：" +:+ final_path download +:+ nl) ;;
                mret true
            end
        end
  end).

(** ** Lines of the file protocol *)

(** [(void)decode_text_token(word, reason, error)]: the reason stays when the
    word is not encoded properly. *)
Definition decoded_or (word reason : string) : string :=
  match decode_text_token word with inr text => text | inl _ => reason end.

Definition handle_ready {R} (words : list string) : E R unit := fn (
  match words with
  | [tok; w1] =>
      match parse_uint64 w1 with
      | None => mret tt
      | Some start_offset =>
          t ← gets transfers;
          match pending_uploads t !! tok with
          | None => mret tt
          | Some upload =>
              on_transfers (set_active_upload_token tok) ;;
              say ("[断点续传] 服务端已接受上传断点，文件：" +:+ file_name upload +:+ "；从偏移 " +:+
                to_string start_offset +:+ "/" +:+ to_string (file_size upload) +:+ " 开始发送。" +:+ nl) ;;
              sent ← send_upload_data upload start_offset;
              if negb sent then
                say ("[本地文件错误] 上传数据流中断；SQLite 任务已保留，" +:+ "下次连接后可以继续断点续传。" +:+ nl) ;;
                on_transfers (set_active_upload_token "")
              else mret tt
          end
      end
  | _ => mret tt
  end).

Definition clear_active_if (tok : string) (t : Transfers) : Transfers :=
  if active_upload_token t =s? tok then set_active_upload_token "" t else t.

Definition handle_paused {R} (words : list string) : E R unit :=
  match words with
  | tok :: w1 :: _ =>
      on_transfers (clear_active_if tok) ;;
      say ("[文件已暂停] " +:+ decoded_or w1 "服务端暂停了文件传输" +:+ nl +:+
        "[断点续传] task remains in SQLite; " +:+ "reconnect/login to resume the saved 上传 task." +:+ nl)
  | _ => mret tt
  end.

Definition handle_reject {R} (words : list string) : E R unit :=
  match words with
  | tok :: w1 :: _ =>
      user ← gets active_username;
      (if negb (is_empty user) then on_cache (LocalStore.remove_pending_upload user tok) ;; mret tt else mret tt) ;;
      on_transfers (fun t => clear_active_if tok (set_pending_uploads (delete tok (pending_uploads t)) t)) ;;
      say ("[文件被拒绝] " +:+ decoded_or w1 "服务端拒绝了文件传输" +:+ nl) ;;
      start_next_queued_upload ;; mret tt
  | _ => mret tt
  end.

(** The offers whose lines start with [prefix] go, and conversations without
    offers with them. *)
Definition remove_queued_offer (prefix : string) (offers : gmap string (list string)) : gmap string (list string) :=
  omap (fun lines : list string =>
    match filter (fun l => starts_with l prefix = false) lines with [] => None | kept => Some kept end) offers.

Definition handle_revoked {R} (words : list string) : E R unit := fn (
  match words with
  | [] => mret tt
  | w0 :: rest =>
      match parse_uint64 w0 with
      | None => mret tt
      | Some id =>
          let reason := match rest with
                        | w1 :: _ => decoded_or w1 "文件访问权限已被撤销"
                        | [] => "文件访问权限已被撤销"
                        end in
          t ← gets transfers;
          (match downloads t !! id with
           | Some active =>
               remove (temp_path active) ;;
               remove (final_path active) ;;
               user ← gets active_username;
               (if negb (is_empty user) then on_cache (LocalStore.remove_partial_download user id) ;; mret tt
                else mret tt) ;;
               forget_download id
           | None => mret tt
           end) ;;
          (if (bin_transfer_id (binary_download t) =? id)%Z then end_binary else mret tt) ;;
          let prefix := "FILE_OFFER " +:+ to_string id +:+ " " in
          on_unread (fun u => set_pending_group_file_offers (remove_queued_offer prefix (pending_group_file_offers u))
            (set_pending_private_file_offers (remove_queued_offer prefix (pending_private_file_offers u)) u)) ;;
          say ("[文件 #F" +:+ to_string id +:+ "] 访问权限已撤销：" +:+ reason +:+ ". Partial/local copy removed." +:+ nl)
      end
  end).

Definition handle_upload_ok {R} (words : list string) : E R unit := fn (
  match words with
  | [tok; w1] =>
      match parse_uint64 w1 with
      | None => mret tt
      | Some id =>
          t ← gets transfers;
          match pending_uploads t !! tok with
          | None => mret tt
          | Some upload =>
              user ← gets active_username;
              now ← client_now_unix_ms;
              stored ← on_cache (LocalStore.cache_file_transfer (LocalStore.mkLocalFileTransfer id user (scope upload)
                (if scope upload =s? "PRIVATE" then target upload else "")
                (if scope upload =s? "GROUP" then target upload else "")
                user (file_name upload) (source_path upload) (file_size upload) (sha256_hex upload) now true));
              (match stored with inl error => say (cache_error error) | inr _ => mret tt end) ;;
              on_cache (LocalStore.remove_pending_upload user (token upload)) ;;
              on_transfers (fun t => clear_active_if (token upload) (set_pending_uploads (delete tok (pending_uploads t)) t)) ;;
              say ("[文件 #F" +:+ to_string id +:+ "] 上传 persisted on server; resumable task cleared." +:+ nl) ;;
              start_next_queued_upload ;; mret tt
          end
      end
  | _ => mret tt
  end).

(** A queue of lines by conversation: the line is appended. *)
Definition queue_line (key line : string) (m : gmap string (list string)) : gmap string (list string) :=
  <[key := default [] (m !! key) ++ [line]]> m.

(** The offer belongs to the open conversation; otherwise it is put aside, and
    announced once. *)
Definition offer_in_chat {R} (line : string) (words : list string) : E R bool := fn (
  match words with
  | [_; w1; peer; w3; _; _; _] =>
      return_if (negb ((w1 =s? "PRIVATE") || (w1 =s? "GROUP"))) true ;;
      match decode_text_token w3 with
      | inl _ => say ("[文件错误] FILE_OFFER 群字段无效。" +:+ nl) ;; return_ false
      | inr group =>
          k ← gets chat;
          u ← gets unread;
          if w1 =s? "PRIVATE" then
            return_if (bool_decide (chat_scope k = Private) && (chat_target k =s? peer)) true ;;
            on_unread (fun u => set_private_file_unread_notified ({[peer]} ∪ private_file_unread_notified u)
              (set_pending_private_file_offers (queue_line peer line (pending_private_file_offers u)) u)) ;;
            (if bool_decide (peer ∈ private_file_unread_notified u) then mret tt
             else say ("[未读提示] 好友 " +:+ peer +:+ " 有待接收文件；进入与该好友的私聊后才开始接收。" +:+ nl)) ;;
            return_ false
          else
            return_if (bool_decide (chat_scope k = Group) && (chat_target k =s? group)) true ;;
            on_unread (fun u => set_group_file_unread_notified ({[group]} ∪ group_file_unread_notified u)
              (set_pending_group_file_offers (queue_line group line (pending_group_file_offers u)) u)) ;;
            (if bool_decide (group ∈ group_file_unread_notified u) then mret tt
             else say ("[未读提示] 群 " +:+ group +:+ " 有待接收文件；进入该群聊后才开始接收。" +:+ nl)) ;;
            return_ false
      end
  | _ => mret true
  end).

Definition handle_offer {R} (line : string) (words : list string) : E R unit :=
  mine ← offer_in_chat line words;
  if (mine : bool) then
    began ← begin_incoming_download words;
    if negb began then say ("[文件错误] FILE_OFFER 无效。" +:+ nl) else mret tt
  else mret tt.

Definition handle_resume_start {R} (words : list string) : E R unit :=
  match words with
  | [w0; w1] =>
      match parse_uint64 w0, parse_uint64 w1 with
      | Some id, Some offset =>
          t ← gets transfers;
          match downloads t !! id with
          | Some download =>
              if negb (received_size download =? offset)%Z then
                say ("[文件错误] 服务端断点位置 " +:+ to_string offset +:+ " does not match local offset " +:+
                  to_string (received_size download) +:+ " for #F" +:+ to_string id +:+ "." +:+ nl) ;;
                send_failed id ;; forget_download id
              else mret tt
          | None => mret tt
          end
      | _, _ => mret tt
      end
  | _ => mret tt
  end.

Definition handle_data {R} (words : list string) : E R unit :=
  match words with
  | [w0; w1; w2] =>
      match parse_uint64 w0, parse_uint64 w1, parse_uint64 w2 with
      | Some id, Some offset, Some byte_count =>
          t ← gets transfers;
          if (byte_count =? 0)%Z || (kFileFrameBytes <? byte_count)%Z ||
             negb (remaining_bytes (binary_download t) =? 0)%Z then mret tt
          else
            match downloads t !! id with
            | Some download =>
                if negb (received_size download =? offset)%Z ||
                   (expected_size download <? wrap 64 (offset + byte_count))%Z
                then send_failed id ;; forget_download id
                else on_transfers (set_binary_download (mkBinary id byte_count))
            | None => send_failed id ;; forget_download id
            end
      | _, _, _ => mret tt
      end
  | _ => mret tt
  end.

Definition handle_done {R} (words : list string) : E R unit :=
  match words with
  | [w0] =>
      match parse_uint64 w0 with
      | Some id => finish_incoming_download id ;; mret tt
      | None => mret tt
      end
  | _ => mret tt
  end.

Definition handle_file_protocol_line {R} (line : string) : E R bool :=
  let command := Protocol.parse_command line in
  let name := Protocol.cmd_name command in
  let words := Protocol.split_words (Protocol.raw_arguments command) in
  if name =s? "FILE_READY" then handle_ready words ;; mret true
  else if name =s? "FILE_PAUSED" then handle_paused words ;; mret true
  else if name =s? "FILE_REJECT" then handle_reject words ;; mret true
  else if name =s? "FILE_ACCESS_REVOKED" then handle_revoked words ;; mret true
  else if name =s? "FILE_UPLOAD_OK" then handle_upload_ok words ;; mret true
  else if name =s? "FILE_OFFER" then handle_offer line words ;; mret true
  else if name =s? "FILE_RESUME_START" then handle_resume_start words ;; mret true
  else if name =s? "FILE_DATA" then handle_data words ;; mret true
  else if name =s? "FILE_DONE" then handle_done words ;; mret true
  else mret (name =s? "FILE_ACK_OK").

Definition preserve_partial_downloads {R} : E R unit :=
  on_transfers (fun t => set_binary_download no_binary (set_downloads ∅ t)).
End Files.
End ClientFiles.
