(* ===== verification/ClientChat.v ===== *)
(** * Conversations at the client

    [ChatRoom/src/client/client_chat_session.cpp]: entering a conversation only
    when the server confirms it, choosing how to type, and sending what is
    typed.  [ChatRoom/src/client/client_message_cache.cpp]: reading message
    lines of the server, showing them, and the thread that stores them. *)
From S2P Require Import Prelude Protocol FileUtils LocalStore ClientTransport ClientState.
Import ClientState.

Module ClientChat.

(** ** Conversations *)

Definition kMaxEditableChatMessage : Z := 1000.

Definition scope_human_name (scope : ClientChatScope) : string :=
  match scope with
  | Private => "好友"
  | Group => "群"
  | NoChat => "聊天"
  end.

(** The lines with a newline between them. *)
Fixpoint join_message_lines (lines : list string) : string :=
  match lines with
  | [] => ""
  | [l] => l
  | l :: rest => l +:+ nl +:+ join_message_lines rest
  end.

Definition send_line {R} (line : string) : E R bool :=
  r ← on_net (ClientTransport.send line);
  match r with
  | inr _ => mret true
  | inl error => say ("[网络错误] TLS 发送失败：" +:+ error +:+ nl) ;; mret false
  end.

Definition clear_pending_entry (k : Chat) : Chat :=
  set_chat_entry_pending false (set_pending_chat_target "" (set_pending_chat_scope NoChat k)).

Definition reset_chat_input (k : Chat) : Chat :=
  set_chat_message_lines [] (set_chat_multiline_finished false (set_chat_input_mode NoInput
    (set_chat_mode_selection_active false k))).

Definition chat_line (k : Chat) (message : string) : string :=
  (if bool_decide (chat_scope k = Private) then "MSG" else "GROUP_MSG") +:+ " " +:+ chat_target k +:+ " " +:+
  encode_text_token message +:+ nl.

Definition send_chat_message {R} (message : string) : E R bool :=
  if is_empty message then say ("[本地错误] 消息内容不能为空。" +:+ nl) ;; mret true
  else if (kMaxEditableChatMessage <? strlen message)%Z then
    say ("[本地错误] 单条消息最多 1000 字节；当前为 " +:+ to_string (strlen message) +:+ " 字节。" +:+ nl) ;; mret true
  else
    k ← gets chat;
    sent ← on_net (ClientTransport.queue_send (chat_line k message));
    match sent with
    | inr _ => mret true
    | inl error =>
        say ("[网络错误] 消息加入发送队列失败：" +:+ error +:+ nl) ;;
        gets (fun c => ClientTransport.connected_ (net c))
    end.

Definition has_active_chat (k : Chat) : bool :=
  negb (bool_decide (chat_scope k = NoChat)) && negb (is_empty (chat_target k)).

Definition chat_input_active (k : Chat) : bool :=
  chat_mode_selection_active k || negb (bool_decide (chat_input_mode k = NoInput)).

Definition leave_chat_input_mode {R} (print_notice : bool) : E R unit :=
  k ← gets chat;
  on_chat reset_chat_input ;;
  if print_notice && chat_input_active k
  then say ("[本地] 已退出消息输入模式，仍停留在当前会话。" +:+ nl) else mret tt.

Definition leave_chat_session {R} (print_notice : bool) : E R unit :=
  k ← gets chat;
  let had_chat := has_active_chat k || chat_entry_pending k || chat_input_active k in
  on_chat (fun k => reset_chat_input (clear_pending_entry (set_chat_target "" (set_chat_scope NoChat k)))) ;;
  if print_notice && had_chat then say ("[系统] 已退出当前会话。" +:+ nl)
  else if print_notice then say ("[本地] 当前没有活动会话。" +:+ nl) else mret tt.

Definition request_chat_entry {R} (scope : ClientChatScope) (target : string) : E R bool := fn (
  account ← require_local_account;
  return_if (negb account) true ;;
  k ← gets chat;
  user ← gets active_username;
  if is_empty target || bool_decide (scope = NoChat)
  then say ("[本地错误] 必须指定聊天对象。" +:+ nl) ;; return_ true
  else if has_active_chat k || chat_input_active k
  then say ("[本地错误] 请先输入 10 退出当前会话，再切换聊天对象。" +:+ nl) ;; return_ true
  else if chat_entry_pending k
  then say ("[本地错误] 另一个会话目标仍在校验中，请稍后再试。" +:+ nl) ;; return_ true
  else if bool_decide (scope = Private) && (target =s? user)
  then say ("[本地错误] 不能与自己建立好友私聊会话。" +:+ nl) ;; return_ true
  else
    on_chat (fun k => set_chat_entry_pending true (set_pending_chat_target target (set_pending_chat_scope scope k))) ;;
    sent ← send_line ((if bool_decide (scope = Private) then "ENTER_PRIVATE " else "ENTER_GROUP ") +:+ target +:+ nl);
    if negb sent then on_chat clear_pending_entry ;; return_ false
    else
      say ("[本地] 正在校验" +:+ scope_human_name scope +:+ "会话目标：" +:+ target +:+ "……" +:+ nl) ;; mret true).

Definition scope_of (word : string) : ClientChatScope :=
  if word =s? "PRIVATE" then Private else if word =s? "GROUP" then Group else NoChat.

Definition ok_prefix : string := "[chat-enter-ok] ".
Definition error_prefix : string := "[chat-enter-error] ".

Definition consume_ok {R} (words : list string) : E R unit :=
  match words with
  | [w0; w1] =>
      k ← gets chat;
      let scope := scope_of w0 in
      if negb (chat_entry_pending k) || bool_decide (scope = NoChat) ||
         negb (bool_decide (scope = pending_chat_scope k)) || negb (w1 =s? pending_chat_target k)
      then say ("[本地警告] 已忽略不匹配的会话校验响应。" +:+ nl)
      else
        on_chat (fun k => clear_pending_entry (reset_chat_input (set_chat_target w1 (set_chat_scope scope k)))) ;;
        say ("[系统] 已进入" +:+ scope_human_name scope +:+ "会话：" +:+ w1 +:+
          "。需要发送消息时，请在会话菜单输入 6。" +:+ nl)
  | _ =>
      say ("[本地错误] 服务端返回的会话校验结果格式错误。" +:+ nl) ;; on_chat clear_pending_entry
  end.

Definition consume_error {R} (words : list string) : E R unit := fn (
  k ← gets chat;
  reason ←
    match words with
    | w0 :: w1 :: _ =>
        let scope := scope_of w0 in
        (if chat_entry_pending k && negb (bool_decide (scope = NoChat)) &&
            negb (bool_decide (scope = pending_chat_scope k))
         then say ("[本地警告] 已忽略过期的会话校验失败响应。" +:+ nl) ;; return_ tt else mret tt) ;;
        mret (match FileUtils.percent_decode w1 with inr decoded => decoded | inl _ => "聊天目标校验失败" end)
    | _ => mret "聊天目标校验失败"
    end;
  on_chat clear_pending_entry ;;
  say ("[错误] " +:+ reason +:+ nl)).

Definition consume_chat_entry_response {R} (line : string) : E R bool :=
  if starts_with line ok_prefix then
    consume_ok (Protocol.split_words (str_drop (String.length ok_prefix) line)) ;; mret true
  else if starts_with line error_prefix then
    consume_error (Protocol.split_words (str_drop (String.length error_prefix) line)) ;; mret true
  else mret false.

Definition begin_chat_mode_selection {R} : E R bool :=
  k ← gets chat;
  if chat_entry_pending k then say ("[本地错误] 请先等待 8/9 的会话目标校验完成。" +:+ nl) ;; mret false
  else if negb (has_active_chat k) then
    say ("[本地错误] 当前没有活动会话，请先用 8 进入好友私聊或用 9 进入群聊。" +:+ nl) ;; mret false
  else
    on_chat (fun k => set_chat_mode_selection_active true (reset_chat_input k)) ;;
    say (nl +:+ "请选择消息模式：" +:+ nl +:+ "1. 回车立即发送" +:+ nl +:+ "2. 长文本编辑模式（支持换行）" +:+ nl +:+
      "请输入 1 或 2；输入 /cancel 可返回当前会话菜单： ") ;;
    mret true.

Definition handle_chat_mode_selection_input {R} (line : string) : E R bool :=
  k ← gets chat;
  if negb (chat_mode_selection_active k) then mret true
  else
    let cleaned := Protocol.trim line in
    if (cleaned =s? "/cancel") || (cleaned =s? "取消") || (cleaned =s? "返回") then
      leave_chat_input_mode false ;; say ("[本地] 已取消消息模式选择。" +:+ nl) ;; mret true
    else if cleaned =s? "1" then
      on_chat (fun k => set_chat_input_mode Instant (set_chat_mode_selection_active false k)) ;;
      say ("[消息模式] 已进入“回车立即发送”。" +:+ nl +:+ "输入一行内容后按回车就会立即发送。" +:+ nl +:+
        "输入 /back 返回当前会话菜单；输入 /quit 退出当前会话。" +:+ nl) ;;
      mret true
    else if cleaned =s? "2" then
      on_chat (fun k => set_chat_message_lines [] (set_chat_multiline_finished false
        (set_chat_input_mode MultiLine (set_chat_mode_selection_active false k)))) ;;
      say ("[消息模式] 已进入“长文本编辑模式”，支持换行和空行。" +:+ nl +:+
        "逐行输入正文；输入“结束”结束本段编辑，再输入“发送”发送。" +:+ nl +:+
        "也可直接输入 /send 发送当前内容；/cancel 清空当前内容；" +:+ "/back 返回会话菜单；/quit 退出会话。" +:+ nl) ;;
      mret true
    else say ("[本地错误] 请选择 1（回车立即发送）或 2（长文本编辑模式）。" +:+ nl) ;; mret true.

(** Sending the text typed so far; it is dropped once it is in the queue. *)
Definition send_typed {R} : E R bool := fn (
  k ← gets chat;
  let message := join_message_lines (chat_message_lines k) in
  sent ← send_chat_message message;
  return_if (negb sent) false ;;
  (if negb (is_empty message) && (strlen message <=? kMaxEditableChatMessage)%Z then
     on_chat (fun k => set_chat_multiline_finished false (set_chat_message_lines [] k)) ;;
     say ("[长文本] 已加入发送队列，可以继续输入下一条长文本。" +:+ nl)
   else mret tt) ;;
  mret true).

(** A line typed in the long text mode. *)
Definition multiline_input {R} (line cleaned : string) : E R bool :=
  k ← gets chat;
  if (cleaned =s? "/cancel") || (cleaned =s? "取消") then
    on_chat (fun k => set_chat_multiline_finished false (set_chat_message_lines [] k)) ;;
    say ("[长文本] 已清空当前未发送内容，可以重新输入。" +:+ nl) ;; mret true
  else if chat_multiline_finished k then
    if (cleaned =s? "发送") || (cleaned =s? "/send") then send_typed
    else if cleaned =s? "继续" then
      on_chat (set_chat_multiline_finished false) ;; say ("[长文本] 继续编辑。" +:+ nl) ;; mret true
    else
      say ("[长文本] 当前正文已结束，请输入“发送”发送、" +:+ "“继续”继续编辑，或“取消”清空。" +:+ nl) ;; mret true
  else if cleaned =s? "结束" then
    match chat_message_lines k with
    | [] => say ("[本地错误] 当前长文本还没有内容。" +:+ nl) ;; mret true
    | _ =>
        on_chat (set_chat_multiline_finished true) ;;
        say ("[长文本] 已结束本段编辑。输入“发送”发送，" +:+ "输入“继续”返回编辑。" +:+ nl) ;; mret true
    end
  else if (cleaned =s? "/send") || (cleaned =s? "发送") then send_typed
  else
    on_chat (fun k => set_chat_message_lines (chat_message_lines k ++ [line]) k) ;;
    (if (kMaxEditableChatMessage <? strlen (join_message_lines (chat_message_lines k ++ [line])))%Z then
       on_chat (set_chat_message_lines (chat_message_lines k)) ;;
       say ("[本地错误] 加入这一行后会超过单条消息 1000 字节，" +:+ "本行未加入缓冲区。" +:+ nl)
     else mret tt) ;;
    mret true.

Definition handle_chat_message_input {R} (line : string) : E R bool :=
  k ← gets chat;
  let cleaned := Protocol.trim line in
  match chat_input_mode k with
  | NoInput => mret true
  | mode =>
      if cleaned =s? "/quit" then leave_chat_session true ;; mret true
      else if (cleaned =s? "/back") || (cleaned =s? "返回") then leave_chat_input_mode true ;; mret true
      else
        match mode with
        | Instant =>
            if is_empty line then say ("[本地错误] 空消息不会发送。" +:+ nl) ;; mret true
            else send_chat_message line
        | _ => multiline_input line cleaned
        end
  end.

(** ** Lines that carry messages *)

(** [find]: where the text [pat] first starts in [s], and from an index on. *)
Fixpoint find_sub (pat s : string) : option nat :=
  if starts_with s pat then Some 0
  else
    match s with
    | EmptyString => None
    | String _ s' => S <$> find_sub pat s'
    end.
Definition find_from (pat : string) (pos : nat) (s : string) : option nat :=
  Nat.add pos <$> find_sub pat (str_drop pos s).
(** [s.compare(pos, pat.size(), pat) == 0] *)
Definition is_at (pat : string) (pos : nat) (s : string) : bool :=
  substr pos (String.length pat) s =s? pat.

Definition from_marker : string := " [private from ".
Definition legacy_from_marker : string := " [private，来源：".
Definition to_marker : string := " [private to ".
Definition group_marker : string := " [group ".

(** The content: a word that is not encoded properly is taken as it is. *)
Definition content_of (word : string) : string :=
  match decode_text_token word with inr text => text | inl _ => word end.

(** The number between [id_begin] and the next bracket, and where that is. *)
Definition read_id (line : string) (id_begin : nat) : option (Z * nat) :=
  match find_from "]" id_begin line with
  | None => None
  | Some id_end => (fun id => (id, id_end)) <$> parse_uint64 (substr id_begin (id_end - id_begin) line)
  end.

(** [parse_private_message_line] up to the time, which it reads when the line is
    a message. *)
Definition private_message_of (line active_username : string) : option (Z -> LocalStore.LocalPrivateMessage) :=
  if is_empty active_username then None
  else
    start ← (if starts_with line "[offline #" then Some (true, String.length "[offline #")
             else if starts_with line "[#" && negb (starts_with line "[#G") then Some (false, 2) else None);
    let '(offline, id_begin) := (start : bool * nat) in
    id ← read_id line id_begin;
    let '(server_message_id, id_end) := (id : Z * nat) in
    let marker_begin := S id_end in
    mark ← (if is_at from_marker marker_begin line then Some (false, marker_begin + String.length from_marker)
            else if is_at legacy_from_marker marker_begin line
            then Some (false, marker_begin + String.length legacy_from_marker)
            else if is_at to_marker marker_begin line
            then Some (true, marker_begin + String.length to_marker) else None);
    let '(outgoing, name_begin) := (mark : bool * nat) in
    name_end ← find_from "] " name_begin line;
    let peer := substr name_begin (name_end - name_begin) line in
    if is_empty peer then None
    else
      let content := content_of (str_drop (name_end + 2) line) in
      let sender := if outgoing then active_username else peer in
      let recipient := if outgoing then peer else active_username in
      Some (fun now => LocalStore.mkLocalPrivateMessage server_message_id active_username peer sender recipient
        content now outgoing offline).

Definition parse_private_message_line {R} (line active_username : string) :
    E R (option LocalStore.LocalPrivateMessage) :=
  match private_message_of line active_username with
  | Some message => now ← client_now_unix_ms; mret (Some (message now))
  | None => mret None
  end.

Definition group_message_of (line active_username : string) : option (Z -> LocalStore.LocalGroupMessage) :=
  if is_empty active_username then None
  else
    start ← (if starts_with line "[offline #G" then Some (true, String.length "[offline #G")
             else if starts_with line "[#G" then Some (false, 3) else None);
    let '(offline, id_begin) := (start : bool * nat) in
    id ← read_id line id_begin;
    let '(server_message_id, id_end) := (id : Z * nat) in
    if negb (is_at group_marker (S id_end) line) then None
    else
      let group_name_begin := S id_end + String.length group_marker in
      group_name_end ← find_from "] [" group_name_begin line;
      let sender_begin := group_name_end + 3 in
      sender_end ← find_from "] " sender_begin line;
      let group := substr group_name_begin (group_name_end - group_name_begin) line in
      let sender := substr sender_begin (sender_end - sender_begin) line in
      let content := content_of (str_drop (sender_end + 2) line) in
      Some (fun now => LocalStore.mkLocalGroupMessage server_message_id active_username group sender content now
        (sender =s? active_username) offline).

Definition parse_group_message_line {R} (line active_username : string) :
    E R (option LocalStore.LocalGroupMessage) :=
  match group_message_of line active_username with
  | Some message =>
      now ← client_now_unix_ms;
      let m := message now in
      mret (if negb (is_empty (LocalStore.gm_group m)) && negb (is_empty (LocalStore.gm_sender m)) then Some m else None)
  | None => mret None
  end.

(** What is shown of a message. *)
Definition shown_private (m : LocalStore.LocalPrivateMessage) : string :=
  (if LocalStore.pm_offline m then "[离线消息 #" else "[消息 #") +:+ to_string (LocalStore.pm_id m) +:+ "] [私聊" +:+
  (if LocalStore.pm_outgoing m then "发给 " else "来自 ") +:+ LocalStore.pm_peer m +:+ "] " +:+
  LocalStore.pm_content m +:+ nl.
Definition shown_group (m : LocalStore.LocalGroupMessage) : string :=
  (if LocalStore.gm_offline m then "[离线群消息 #G" else "[群消息 #G") +:+ to_string (LocalStore.gm_id m) +:+ "] [群 " +:+
  LocalStore.gm_group m +:+ "] [发送者 " +:+ LocalStore.gm_sender m +:+ "] " +:+ LocalStore.gm_content m +:+ nl.

Definition display_chat_message_line {R} (line : string) : E R bool :=
  user ← gets active_username;
  if is_empty user then mret false
  else
    private ← parse_private_message_line line user;
    match private with
    | Some m => say (shown_private m) ;; mret true
    | None =>
        group ← parse_group_message_line line user;
        match group with
        | Some m => say (shown_group m) ;; mret true
        | None => mret false
        end
    end.

(** ** The thread that stores messages, [AsyncMessageCacheWriter]

    It runs as long as the client does, so every message is accepted. *)

Definition enqueue {R} (job : Job) : E R unit := change (fun c => set_writer_jobs (writer_jobs c ++ [job]) c).

Definition write_job {R} (job : Job) : E R unit :=
  r ← (match job with
       | PrivateJob m => on_cache (LocalStore.cache_private_message m)
       | GroupJob m => on_cache (LocalStore.cache_group_message m)
       end);
  match r with
  | inl error => say ("[本地 SQLite 后台写入错误] " +:+ error +:+ nl)
  | inr _ => mret tt
  end.

(** A round of [worker_loop]. *)
Definition worker_step {R} : E R unit :=
  jobs ← gets writer_jobs;
  match jobs with
  | [] => mret tt
  | job :: rest => change (set_writer_jobs rest) ;; write_job job
  end.

(** [flush] and [stop] wait until the thread has written everything. *)
Definition flush {R} : E R unit := jobs ← gets writer_jobs; for_each (fun _ => worker_step) jobs.

End ClientChat.
