(* ===== verification/ClientApp.v ===== *)
(** * The client application

    [ChatRoom/src/client/client_app.cpp]: the receive buffer with its text lines
    and binary frames, what a line of the server does, the menus and what a typed
    line does, and the loop over [poll]; with [client_numeric_commands.cpp] and
    [client_local_commands.cpp]. *)
From S2P Require Import Prelude Protocol FileUtils FileService LocalStore ClientTransport ClientState ClientFiles ClientChat.
Import ClientState ClientFiles ClientChat.

Module ClientApp.

(** ** Numeric commands *)

Definition numeric_command_name (number : Z) : option string :=
  match number with
  | 1 => Some "REGISTER" | 2 => Some "LOGIN" | 3 => Some "LOGOUT" | 4 => Some "DELETE_ACCOUNT"
  | 5 => Some "SAY" | 6 => Some "MSG" | 7 => Some "GROUP_MSG" | 8 => Some "ENTER_PRIVATE"
  | 9 => Some "ENTER_GROUP" | 10 => Some "LEAVE_CHAT" | 11 => Some "HISTORY_PRIVATE"
  | 12 => Some "HISTORY_GROUP" | 13 => Some "FILES" | 14 => Some "SEND_FILE" | 15 => Some "FRIENDS"
  | 16 => Some "FRIEND_REQUESTS" | 17 => Some "ADD_FRIEND" | 18 => Some "ACCEPT_FRIEND"
  | 19 => Some "REJECT_FRIEND" | 20 => Some "REMOVE_FRIEND" | 21 => Some "BLOCK_FRIEND"
  | 22 => Some "UNBLOCK_FRIEND" | 23 => Some "BLOCKED_FRIENDS" | 24 => Some "CREATE_GROUP"
  | 25 => Some "DISSOLVE_GROUP" | 26 => Some "APPLY_GROUP" | 27 => Some "MY_GROUPS"
  | 28 => Some "LEAVE_GROUP" | 29 => Some "GROUP_MEMBERS" | 30 => Some "ADD_GROUP_ADMIN"
  | 31 => Some "REMOVE_GROUP_ADMIN" | 33 => Some "APPROVE_GROUP" | 34 => Some "REJECT_GROUP"
  | 35 => Some "REMOVE_GROUP_MEMBER" | 36 => Some "WHO" | 37 => Some "PENDING" | 38 => Some "HELP"
  | 39 => Some "LOCAL_HELP" | 40 => Some "LOCAL_DB" | 41 => Some "HISTORY_PUBLIC"
  | _ => None
  end%Z.

Definition is_known_numeric_command (number : Z) : bool :=
  match numeric_command_name number with Some _ => true | None => false end.

(** The number and the arguments of a line. *)
Definition parse_numeric_command_line (line : string) : option (Z * string) :=
  let cleaned := Protocol.trim line in
  if is_empty cleaned then None
  else
    let separator := find_first (fun c => bool_decide (c = " "%char) || in_range 9 9 c) cleaned in
    let number_text := match separator with Some n => str_take n cleaned | None => cleaned end in
    match whole (from_chars_signed 32 number_text) with
    | Some number =>
        if is_known_numeric_command number
        then Some (number, match separator with Some n => Protocol.trim (str_drop (S n) cleaned) | None => "" end)
        else None
    | None => None
    end.

Definition numeric_help : string :=
  "[本地] 完整数字命令帮助：" +:+ nl +:+
  "  1  <用户名> <密码>                  注册账户" +:+ nl +:+
  "  2  <用户名> <密码>                  登录账户" +:+ nl +:+
  "  3                                   退出登录" +:+ nl +:+
  "  4  <密码> CONFIRM                   注销账户" +:+ nl +:+
  "  5  <消息>                            发送公共消息" +:+ nl +:+
  "  6                                   当前会话发送消息并选择输入模式" +:+ nl +:+
  "  8  <用户名>                          进入好友私聊" +:+ nl +:+
  "  9  <群名称>                          进入群聊" +:+ nl +:+
  " 10                                   退出当前会话" +:+ nl +:+
  " 11  <用户名> [条数]                   查看本地私聊历史（1-200）" +:+ nl +:+
  " 12  <群名称> [条数]                   查看本地群聊历史（1-200）" +:+ nl +:+
  " 13                                   查看当前会话文件记录" +:+ nl +:+
  " 14  <文件路径>                        向当前会话发送文件" +:+ nl +:+
  " 15                                   好友列表" +:+ nl +:+
  " 16                                   好友申请" +:+ nl +:+
  " 17  <用户名>                          添加好友" +:+ nl +:+
  " 18  <用户名>                          通过好友申请" +:+ nl +:+
  " 19  <用户名>                          拒绝好友申请" +:+ nl +:+
  " 20  <用户名>                          删除好友" +:+ nl +:+
  " 21  <用户名>                          屏蔽好友" +:+ nl +:+
  " 22  <用户名>                          解除屏蔽" +:+ nl +:+
  " 23                                   屏蔽列表" +:+ nl +:+
  " 24  <群名称>                          创建群" +:+ nl +:+
  " 25  <群名称>                          解散群" +:+ nl +:+
  " 26  <群名称>                          申请加入群" +:+ nl +:+
  " 27                                   我的群" +:+ nl +:+
  " 28  <群名称>                          退出群" +:+ nl +:+
  " 29  <群名称>                          查看群成员" +:+ nl +:+
  " 30  <群名称> <用户名>                 设置群管理员" +:+ nl +:+
  " 31  <群名称> <用户名>                 取消群管理员" +:+ nl +:+
  " 33                                   自动列出全部可处理申请并通过" +:+ nl +:+
  " 34                                   自动列出全部可处理申请并拒绝" +:+ nl +:+
  " 35  <群名称> <用户名>                 移出群成员" +:+ nl +:+
  " 36                                   在线用户" +:+ nl +:+
  " 37                                   待处理离线消息/文件" +:+ nl +:+
  " 38                                   查看服务端帮助" +:+ nl +:+
  " 39                                   查看本帮助" +:+ nl +:+
  " 40                                   查看本地 SQLite/下载路径" +:+ nl +:+
  " 41  [条数]                            公共消息历史" +:+ nl +:+
  "[本地] 进入好友或群会话后，必须先输入 6，再选择：" +:+ nl +:+
  "       1=回车立即发送；2=长文本编辑模式（支持换行）。" +:+ nl +:+
  "[本地] 数字 32 已取消用户入口；33/34 会自动调用公共申请查询流程。" +:+ nl.
Definition print_numeric_help {R} : E R unit := say numeric_help.

(** ** Local commands *)

(** What the client takes from its environment: the local time format, and the
    name of its database file. *)
Class ClientEnv := { format_local_time : Z -> string; database_path : string }.

Section App.
Context `{FileUtils.DigestEngine} `{ClientEnv}.

(** The lines of a text, split at every newline. *)
Fixpoint text_lines (s : string) : list string :=
  match s with
  | EmptyString => [""]
  | String c rest =>
      if in_range 10 10 c then "" :: text_lines rest
      else match text_lines rest with
           | l :: ls => String c l :: ls
           | [] => [String c ""]
           end
  end.

Definition print_indented_content {R} (content : string) : E R unit :=
  if is_empty content then say ("      <空内容>" +:+ nl)
  else for_each (fun l => say ("      " +:+ l +:+ nl)) (text_lines content).

Definition require_no_arguments {R} (number : Z) (arguments : string) : E R bool :=
  if is_empty (Protocol.trim arguments) then mret true
  else say ("[本地错误] 命令 " +:+ to_string number +:+ " 不接受额外参数。" +:+ nl) ;; mret false.

(** The target and the count of a history command. *)
Definition history_arguments (words : list string) : option (string * option Z) :=
  match words with
  | [t] => Some (t, Some kDefaultLocalHistory)
  | [t; n] => Some (t, Protocol.parse_count n 1 kMaxLocalHistory)
  | _ => None
  end.

Definition local_private_history {R} (arguments : string) : E R unit := fn (
  user ← gets active_username;
  match history_arguments (Protocol.split_words arguments) with
  | None => say ("[本地错误] 命令 11 需要输入 <好友用户名> [条数]。" +:+ nl)
  | Some (_, None) => say ("[本地错误] 历史条数必须在 1-200 之间。" +:+ nl)
  | Some (peer, Some count) =>
      r ← on_cache (LocalStore.recent_private_messages user peer count);
      match r with
      | inl error => say ("[本地 SQLite 错误] " +:+ error +:+ nl)
      | inr messages =>
          say ("[本地私聊历史] 好友：" +:+ peer +:+ "，共 " +:+ to_string (Z.of_nat (length messages)) +:+ " 条：" +:+ nl) ;;
          for_each (fun m =>
            say ("  #" +:+ to_string (LocalStore.pm_id m) +:+ "  " +:+ format_local_time (LocalStore.pm_received_at m) +:+
              "  " +:+ LocalStore.pm_sender m +:+ " -> " +:+ LocalStore.pm_recipient m +:+
              (if LocalStore.pm_offline m then "  [离线投递]" else "") +:+ nl) ;;
            print_indented_content (LocalStore.pm_content m)) messages
      end
  end).

Definition local_group_history {R} (arguments : string) : E R unit := fn (
  user ← gets active_username;
  match history_arguments (Protocol.split_words arguments) with
  | None => say ("[本地错误] 命令 12 需要输入 <群名称> [条数]。" +:+ nl)
  | Some (_, None) => say ("[本地错误] 历史条数必须在 1-200 之间。" +:+ nl)
  | Some (group, Some count) =>
      r ← on_cache (LocalStore.recent_group_messages user group count);
      match r with
      | inl error => say ("[本地 SQLite 错误] " +:+ error +:+ nl)
      | inr messages =>
          say ("[本地群聊历史] 群：" +:+ group +:+ "，共 " +:+ to_string (Z.of_nat (length messages)) +:+ " 条：" +:+ nl) ;;
          for_each (fun m =>
            say ("  #G" +:+ to_string (LocalStore.gm_id m) +:+ "  " +:+ format_local_time (LocalStore.gm_received_at m) +:+
              "  [" +:+ LocalStore.gm_sender m +:+ "]" +:+
              (if LocalStore.gm_offline m then "  [离线投递]" else "") +:+ nl) ;;
            print_indented_content (LocalStore.gm_content m)) messages
      end
  end).

Definition chat_scope_word (k : Chat) : string := if bool_decide (chat_scope k = Private) then "PRIVATE" else "GROUP".

Definition local_files {R} (arguments : string) : E R unit := fn (
  none ← require_no_arguments 13 arguments;
  return_if (negb none) tt ;;
  k ← gets chat;
  user ← gets active_username;
  if negb (has_active_chat k)
  then say ("[本地错误] 命令 13 需要当前已有活动会话，请先使用 8 或 9 进入会话。" +:+ nl)
  else
    r ← on_cache (LocalStore.recent_file_transfers_for_chat user (chat_scope_word k) (chat_target k) kMaxLocalHistory);
    match r with
    | inl error => say ("[本地 SQLite 错误] " +:+ error +:+ nl)
    | inr files =>
        say ("[本地文件记录] " +:+ (if bool_decide (chat_scope k = Private) then "好友私聊" else "群聊") +:+ "：" +:+
          chat_target k +:+ "，共 " +:+ to_string (Z.of_nat (length files)) +:+ " 条：" +:+ nl) ;;
        for_each (fun f =>
          say ("  #F" +:+ to_string (LocalStore.ft_id f) +:+ " " +:+
            (if LocalStore.ft_outgoing f then "已发送" else "已接收") +:+ " " +:+ LocalStore.ft_file_name f +:+ "（" +:+
            to_string (LocalStore.ft_file_size f) +:+ " 字节）路径=" +:+ LocalStore.ft_local_path f +:+ nl)) files
    end).

Definition local_send_file {R} (arguments : string) : E R unit := fn (
  k ← gets chat;
  if negb (has_active_chat k)
  then say ("[本地错误] 命令 14 需要当前已有活动会话，请先使用 8 或 9 进入会话。" +:+ nl)
  else
    let path := Protocol.trim arguments in
    if is_empty path then say ("[本地错误] 命令 14 需要输入文件路径。" +:+ nl)
    else prepare_upload (chat_scope_word k) (chat_target k) path ;; mret tt).

Definition handle_local_numeric_command {R} (number : Z) (arguments : string) : E R bool :=
  if (number =? 39)%Z then
    none ← require_no_arguments number arguments;
    (if (none : bool) then print_numeric_help else mret tt) ;; mret true
  else if (number =? 40)%Z then
    none ← require_no_arguments number arguments;
    root ← gets (fun c => download_root (transfers c));
    (if (none : bool)
     then say ("[本地] SQLite 数据库：" +:+ database_path +:+ nl +:+ "[本地] 下载目录：" +:+ root +:+ nl)
     else mret tt) ;; mret true
  else if negb ((number =? 11) || (number =? 12) || (number =? 13) || (number =? 14))%Z then mret false
  else
    account ← require_local_account;
    (if negb account then mret tt
     else if (number =? 11)%Z then local_private_history arguments
     else if (number =? 12)%Z then local_group_history arguments
     else if (number =? 13)%Z then local_files arguments
     else local_send_file arguments) ;;
    mret true.

(** ** Menus *)

Definition logged_out_menu : string :=
  nl +:+ "========== 未登录 ==========" +:+ nl +:+ "1-注册账户" +:+ nl +:+ "2-登录账户" +:+ nl +:+
  "38-查看服务端帮助" +:+ nl +:+ "39-查看完整数字命令帮助" +:+ nl +:+ "40-查看本地缓存/下载路径" +:+ nl +:+
  "请选择数字编号: ".

Definition chat_menu (k : Chat) : string :=
  let private_chat := bool_decide (chat_scope k = Private) in
  nl +:+ "========== " +:+ (if private_chat then "好友私聊" else "群聊") +:+ "：" +:+ chat_target k +:+ " ==========" +:+ nl +:+
  "6-发送消息（先选择“回车立即发送/长文本”模式）" +:+ nl +:+
  (if private_chat then "11-查看当前好友本地历史" else "12-查看当前群本地历史") +:+ nl +:+
  "13-查看当前会话文件记录" +:+ nl +:+ "14-向当前会话发送文件" +:+ nl +:+ "10-退出当前会话" +:+ nl +:+
  "39-查看完整数字命令帮助" +:+ nl +:+ "请选择数字编号: ".

Definition main_menu (user : string) : string :=
  nl +:+ "========== 已登录：" +:+ user +:+ " ==========" +:+ nl +:+
  nl +:+ "[好友/私聊]" +:+ nl +:+ "  8-进入私聊  11-私聊历史  15-好友列表  16-好友申请" +:+ nl +:+
  "  17-添加好友  18-通过申请  19-拒绝申请  20-删除好友" +:+ nl +:+ "  21-屏蔽  22-解除屏蔽  23-屏蔽列表" +:+ nl +:+
  nl +:+ "[群组]" +:+ nl +:+ "  9-进入群聊  12-群聊历史  24-创建群  25-解散群" +:+ nl +:+
  "  26-申请入群  27-我的群  28-退出群  29-群成员" +:+ nl +:+ "  30-设置管理  31-取消管理  33-通过入群" +:+ nl +:+
  "  34-拒绝入群  35-移出成员" +:+ nl +:+
  nl +:+ "[其他]" +:+ nl +:+ "  3-退出登录  4-注销账户  5-公共消息  36-在线用户" +:+ nl +:+
  "  37-待处理  41-公共历史  39-完整帮助" +:+ nl +:+ nl +:+ "请选择数字编号: ".

Definition print_current_menu {R} : E R unit :=
  user ← gets active_username;
  k ← gets chat;
  if is_empty user then say logged_out_menu
  else if has_active_chat k then say (chat_menu k)
  else say (main_menu user).

Definition request_menu_refresh {R} : E R unit := change (set_menu_refresh_pending_ true).

Definition flush_menu_refresh {R} : E R unit :=
  c ← gets (fun c => c);
  if negb (menu_refresh_pending_ c) || chat_input_active (chat c) || chat_entry_pending (chat c) ||
     (0 <? remaining_bytes (binary_download (transfers c)))%Z
  then mret tt
  else change (set_menu_refresh_pending_ false) ;; print_current_menu.

(** [std::cout << text; print_current_menu(); return true;] *)
Definition refuse {A} (text : string) : E bool A := say (text +:+ nl) ;; print_current_menu ;; return_ true.

(** ** Join requests *)

Definition clear_group_request_action {R} : E R unit := on_requests (fun _ => no_requests).

Definition begin_group_request_action {R} (action : GroupRequestAction) : E R bool :=
  if bool_decide (action = NoAction) then mret true
  else
    clear_group_request_action ;;
    on_requests (fun q => set_group_request_loading true (set_group_request_action action q)) ;;
    r ← on_net (ClientTransport.send ("GROUP_REQUESTS_ALL" +:+ nl));
    match r with
    | inl error =>
        clear_group_request_action ;; say ("[网络错误] 加载入群申请失败：" +:+ error +:+ nl) ;; mret false
    | inr _ => say ("[本地] 正在加载你作为群主或管理员可处理的全部入群申请……" +:+ nl) ;; mret true
    end.

Definition item_prefix : string := "[group-request-item] ".
Definition requests_error_prefix : string := "[group-requests-error] ".

Definition request_item {R} (words : list string) : E R unit :=
  match words with
  | [w0; w1] =>
      match FileUtils.percent_decode w0, FileUtils.percent_decode w1 with
      | inr group, inr username =>
          on_requests (fun q => set_group_request_items (group_request_items q ++ [mkItem group username]) q)
      | inl e, _ | inr _, inl e =>
          say ("[本地错误] 入群申请列表解码失败：" +:+ FileUtils.decode_error_text e +:+ nl) ;;
          clear_group_request_action ;; request_menu_refresh
      end
  | _ =>
      say ("[本地错误] 入群申请列表数据格式错误。" +:+ nl) ;; clear_group_request_action ;; request_menu_refresh
  end.

(** The numbered list, grouped by group. *)
Fixpoint request_list (i : nat) (last_group : string) (items : list PendingGroupJoinRequestItem) : string :=
  match items with
  | [] => ""
  | item :: rest =>
      (if item_group item =s? last_group then ""
       else (if is_empty last_group then "" else nl) +:+ item_group item +:+ "：" +:+ nl) +:+
      "  " +:+ to_string (Z.of_nat i) +:+ ". " +:+ item_username item +:+ nl +:+
      request_list (S i) (item_group item) rest
  end.

Definition requests_end {R} : E R unit :=
  on_requests (set_group_request_loading false) ;;
  q ← gets requests;
  match group_request_items q with
  | [] =>
      say (nl +:+ "【可处理入群申请】" +:+ nl +:+ "当前没有可处理的入群申请。" +:+ nl) ;;
      clear_group_request_action ;; request_menu_refresh
  | items =>
      say (nl +:+ "【可处理入群申请】" +:+ nl) ;;
      say (request_list 1 "" items) ;;
      on_requests (set_group_request_selection_active true) ;;
      say (nl +:+ "当前操作：" +:+ (if bool_decide (group_request_action q = Approve) then "通过入群申请" else "拒绝入群申请") +:+
        nl +:+ "请输入处理编号（1-" +:+ to_string (Z.of_nat (length items)) +:+ "），输入 /cancel 可取消： ")
  end.

Definition handle_group_request_protocol_line {R} (line : string) : E R bool :=
  q ← gets requests;
  let idle := bool_decide (group_request_action q = NoAction) in
  if line =s? "[group-requests-begin]" then
    (if idle then mret tt
     else on_requests (fun q => set_group_request_items [] (set_group_request_loading true q))) ;;
    mret true
  else if starts_with line item_prefix then
    (if idle then mret tt else request_item (Protocol.split_words (str_drop (String.length item_prefix) line))) ;;
    mret true
  else if starts_with line requests_error_prefix then
    let tok := Protocol.trim (str_drop (String.length requests_error_prefix) line) in
    let reason := if is_empty tok then "加载可处理入群申请失败"
                  else match FileUtils.percent_decode tok with
                       | inr decoded => decoded
                       | inl _ => "加载可处理入群申请失败"
                       end in
    say ("[错误] " +:+ reason +:+ nl) ;; clear_group_request_action ;; request_menu_refresh ;; mret true
  else if negb (line =s? "[group-requests-end]") then mret false
  else (if idle then mret tt else requests_end) ;; mret true.

(** [std::stoul(text, &consumed, 10)] on a text without leading space: the value
    and the characters used; [None] when it throws. *)
Definition stoul (text : string) : option (Z * nat) :=
  let neg := match text with String "-"%char _ => true | _ => false end in
  let sign := neg || match text with String "+"%char _ => true | _ => false end in
  let d := take_while isdigit (if sign then str_drop 1 text else text) in
  if is_empty d then None
  else if (dec_value 0 d <? 2 ^ 64)%Z
       then Some (if neg then wrap 64 (- dec_value 0 d) else dec_value 0 d, (if sign then 1 else 0) + String.length d)
       else None.

Definition selected_item (cleaned : string) (items : list PendingGroupJoinRequestItem) :
    option PendingGroupJoinRequestItem :=
  '(value, consumed) ← stoul cleaned;
  if negb (consumed =? String.length cleaned) || (value =? 0)%Z || (Z.of_nat (length items) <? value)%Z then None
  else items !! Z.to_nat (value - 1).

Definition handle_group_request_selection_input {R} (line : string) : E R bool := fn (
  let cleaned := Protocol.trim line in
  q ← gets requests;
  if (cleaned =s? "/cancel") || (cleaned =s? "取消") then
    clear_group_request_action ;; say ("[本地] 已取消处理入群申请。" +:+ nl) ;; print_current_menu ;; return_ true
  else
    match selected_item cleaned (group_request_items q) with
    | None =>
        say ("[本地错误] 请输入列表中的有效数字编号。" +:+ nl +:+ "请输入处理编号： ") ;; return_ true
    | Some item =>
        let approve := bool_decide (group_request_action q = Approve) in
        r ← on_net (ClientTransport.send ((if approve then "APPROVE_GROUP" else "REJECT_GROUP") +:+ " " +:+
              item_group item +:+ " " +:+ item_username item +:+ nl));
        match r with
        | inl error => say ("[网络错误] 提交入群申请处理结果失败：" +:+ error +:+ nl) ;; return_ false
        | inr _ =>
            say ("[本地] 已提交：" +:+ (if approve then "通过 " else "拒绝 ") +:+ item_group item +:+ " / " +:+
              item_username item +:+ "。" +:+ nl) ;;
            clear_group_request_action ;; request_menu_refresh ;; mret true
        end
    end).

(** ** What is typed *)

Definition command_requires_followup_input (k : Chat) (number : Z) : bool :=
  match number with
  | 1 | 2 | 4 | 5 | 8 | 9 | 14 | 17 | 18 | 19 | 20 | 21 | 22 | 24 | 25 | 26 | 28 | 29 | 30 | 31 | 35 => true
  | 11 => negb (bool_decide (chat_scope k = Private) && negb (is_empty (chat_target k)))
  | 12 => negb (bool_decide (chat_scope k = Group) && negb (is_empty (chat_target k)))
  | _ => false
  end%Z.

Definition followup_prompt (number : Z) : option string :=
  match number with
  | 1 => Some "[输入] 注册请输入: 用户名 密码"
  | 2 => Some "[输入] 登录请输入: 用户名 密码"
  | 4 => Some "[输入] 注销账户请输入当前密码（客户端会自动补 CONFIRM）:"
  | 5 => Some "[输入] 请输入公共消息内容:"
  | 8 => Some "[输入] 请输入要进入私聊的好友用户名:"
  | 9 => Some "[输入] 请输入要进入的群名称:"
  | 11 => Some "[输入] 请输入好友用户名，可选再加历史条数，例如: alice 20"
  | 12 => Some "[输入] 请输入群名称，可选再加历史条数，例如: group1 20"
  | 14 => Some "[输入] 请输入要发送的本地文件路径:"
  | 17 => Some "[输入] 请输入要添加的好友用户名:"
  | 18 => Some "[输入] 请输入要通过申请的好友用户名:"
  | 19 => Some "[输入] 请输入要拒绝申请的好友用户名:"
  | 20 => Some "[输入] 请输入要删除的好友用户名:"
  | 21 => Some "[输入] 请输入要屏蔽的好友用户名:"
  | 22 => Some "[输入] 请输入要解除屏蔽的用户名:"
  | 24 => Some "[输入] 请输入要创建的群名称:"
  | 25 => Some "[输入] 请输入要解散的群名称:"
  | 26 => Some "[输入] 请输入要申请加入的群名称:"
  | 28 => Some "[输入] 请输入要退出的群名称:"
  | 29 => Some "[输入] 请输入要查看成员的群名称:"
  | 30 => Some "[输入] 请输入: 群名称 用户名（设置管理员）"
  | 31 => Some "[输入] 请输入: 群名称 用户名（取消管理员）"
  | 35 => Some "[输入] 请输入: 群名称 用户名（移出群成员）"
  | _ => None
  end%Z.

Definition begin_followup_input {R} (number : Z) : E R unit :=
  change (set_pending_input_command_ number) ;;
  match followup_prompt number with
  | Some prompt => say (prompt +:+ nl) ;; say ("[输入] 输入 /cancel 可取消并返回当前菜单。" +:+ nl)
  | None =>
      change (set_pending_input_command_ 0) ;; say ("[本地错误] 该命令不需要额外输入。" +:+ nl) ;; print_current_menu
  end.

Definition remember_login_attempt {R} (line : string) : E R unit :=
  let command := Protocol.parse_command line in
  if negb (Protocol.cmd_name command =s? "LOGIN") then mret tt
  else
    match Protocol.split_words (Protocol.raw_arguments command) with
    | [user; _] => change (set_pending_login_username user)
    | _ => mret tt
    end.

(** What the three menus allow: an error text for what they do not. *)
Definition menu_refusal (user : string) (k : Chat) (number : Z) : option string :=
  if is_empty user then
    if negb ((number =? 1) || (number =? 2) || (number =? 38) || (number =? 39) || (number =? 40))%Z
    then Some "[本地错误] 当前未登录，只能使用未登录菜单中的操作。" else None
  else if has_active_chat k then
    if ((number =? 6) || (number =? 10) || (number =? 13) || (number =? 14) || (number =? 39))%Z ||
       (bool_decide (chat_scope k = Private) && (number =? 11)%Z) ||
       (bool_decide (chat_scope k = Group) && (number =? 12)%Z)
    then None
    else Some ("[本地错误] 当前处于会话中，请先用 10 或 /quit 退出会话，" +:+ "再处理好友申请、群管理等操作。")
  else
    if ((number =? 1) || (number =? 2) || (number =? 6) || (number =? 7) || (number =? 10) || (number =? 13) ||
        (number =? 14))%Z
    then Some "[本地错误] 该操作与当前登录状态不匹配。" else None.

(** The arguments of a command, completed: the confirmation of 4, the open
    conversation of 11 and 12. *)
Definition completed_arguments (k : Chat) (number : Z) (raw_arguments : string) : string :=
  let arguments := Protocol.trim raw_arguments in
  let arguments :=
    if (number =? 4)%Z && negb (is_empty arguments) then
      match Protocol.split_words arguments with [_] => arguments +:+ " CONFIRM" | _ => arguments end
    else arguments in
  let here := ((number =? 11)%Z && bool_decide (chat_scope k = Private)) ||
              ((number =? 12)%Z && bool_decide (chat_scope k = Group)) in
  if here && has_active_chat k && is_empty arguments then chat_target k else arguments.

Definition execute_numeric_command {R} (number : Z) (raw_arguments : string) : E R bool := fn (
  user ← gets active_username;
  k ← gets chat;
  match menu_refusal user k number with
  | Some text => refuse text
  | None =>
      let arguments := completed_arguments k number raw_arguments in
      if (number =? 6)%Z then
        (if negb (is_empty arguments) then refuse "[本地错误] 命令 6 不需要参数。" else mret tt) ;;
        begin_chat_mode_selection ;; return_ true
      else if (number =? 7)%Z then
        refuse ("[本地错误] 群聊发送消息也统一使用命令 6；" +:+ "进入群会话后请输入 6 再选择消息模式。")
      else if (number =? 33)%Z || (number =? 34)%Z then
        (if negb (is_empty arguments)
         then refuse ("[本地错误] 33/34 不需要手动输入群名和用户名；" +:+ "客户端会自动列出全部可处理申请。")
         else mret tt) ;;
        begin_group_request_action (if (number =? 33)%Z then Approve else Reject)
      else if (number =? 8)%Z || (number =? 9)%Z then
        match Protocol.split_words arguments with
        | [target] =>
            ok ← request_chat_entry (if (number =? 8)%Z then Private else Group) target;
            (if (ok : bool) then request_menu_refresh else mret tt) ;; return_ ok
        | _ => refuse ("[本地错误] 请输入且只输入一个" +:+ (if (number =? 8)%Z then "好友用户名" else "群名称") +:+ "。")
        end
      else if (number =? 10)%Z then
        (if negb (is_empty arguments) then refuse "[本地错误] 退出会话不需要参数。" else mret tt) ;;
        leave_chat_session true ;; print_current_menu ;; return_ true
      else
        local ← handle_local_numeric_command number arguments;
        if (local : bool) then print_current_menu ;; return_ true
        else
          match numeric_command_name number with
          | None => refuse "[本地错误] 未知数字命令。"
          | Some name =>
              let line := name +:+ (if is_empty arguments then "" else " " +:+ arguments) +:+ nl in
              remember_login_attempt line ;;
              r ← on_net (ClientTransport.send line);
              match r with
              | inl error => say ("TLS 发送失败：" +:+ error +:+ nl) ;; return_ false
              | inr _ => request_menu_refresh ;; mret true
              end
          end
  end).

(** A line typed while a message is being written: its menu is printed when the
    input or the conversation ends. *)
Definition message_input {R} (line : string) : E R bool :=
  k ← gets chat;
  ok ← handle_chat_message_input line;
  k' ← gets chat;
  (if (ok : bool) && (negb (chat_input_active k') || (has_active_chat k && negb (has_active_chat k')))
   then print_current_menu else mret tt) ;;
  mret ok.

Definition handle_user_input {R} (line : string) : E R bool := fn (
  c ← gets (fun c => c);
  if group_request_selection_active (requests c) then handle_group_request_selection_input line
  else if chat_mode_selection_active (chat c) then
    ok ← handle_chat_mode_selection_input line;
    k ← gets chat;
    (if (ok : bool) && negb (chat_input_active k) then print_current_menu else mret tt) ;; mret ok
  else if negb (bool_decide (chat_input_mode (chat c) = NoInput)) then message_input line
  else if negb (pending_input_command_ c =? 0)%Z then
    if Protocol.trim line =s? "/cancel" then
      change (set_pending_input_command_ 0) ;; say ("[本地] 已取消本次输入。" +:+ nl) ;; print_current_menu ;; mret true
    else
      change (set_pending_input_command_ 0) ;; execute_numeric_command (pending_input_command_ c) line
  else
    match parse_numeric_command_line line with
    | None => refuse "[本地错误] 当前状态只能输入菜单中的数字命令。"
    | Some (number, arguments) =>
        if is_empty arguments && command_requires_followup_input (chat c) number
        then begin_followup_input number ;; mret true
        else execute_numeric_command number arguments
    end).

(** ** Lines of the server *)

(** A message of a conversation that is not open is put aside, and announced
    once; it is stored in any case. *)
Definition private_visibility {R} (line : string) (m : LocalStore.LocalPrivateMessage) : E R unit :=
  enqueue (PrivateJob m) ;;
  k ← gets chat;
  u ← gets unread;
  let peer := LocalStore.pm_peer m in
  if bool_decide (chat_scope k = Private) && (chat_target k =s? peer) then display_chat_message_line line ;; mret tt
  else
    on_unread (fun u => set_private_unread_notified ({[peer]} ∪ private_unread_notified u)
      (set_pending_private_message_lines (queue_line peer line (pending_private_message_lines u)) u)) ;;
    if bool_decide (peer ∈ private_unread_notified u) then mret tt
    else say ("[未读提示] 好友 " +:+ peer +:+ " 有未读消息；进入与该好友的私聊后显示正文。" +:+ nl).

Definition group_visibility {R} (line : string) (m : LocalStore.LocalGroupMessage) : E R unit :=
  enqueue (GroupJob m) ;;
  k ← gets chat;
  u ← gets unread;
  let group := LocalStore.gm_group m in
  if bool_decide (chat_scope k = Group) && (chat_target k =s? group) then display_chat_message_line line ;; mret tt
  else
    on_unread (fun u => set_group_unread_notified ({[group]} ∪ group_unread_notified u)
      (set_pending_group_message_lines (queue_line group line (pending_group_message_lines u)) u)) ;;
    if bool_decide (group ∈ group_unread_notified u) then mret tt
    else say ("[未读提示] 群 " +:+ group +:+ " 有未读消息；进入该群聊后显示正文。" +:+ nl).

Definition handle_chat_message_visibility {R} (line : string) : E R bool :=
  user ← gets active_username;
  if is_empty user then mret false
  else
    private ← parse_private_message_line line user;
    match private with
    | Some m => private_visibility line m ;; mret true
    | None =>
        group ← parse_group_message_line line user;
        match group with
        | Some m => group_visibility line m ;; mret true
        | None => mret false
        end
    end.

(** The lines and offers kept for the conversation that is now open. *)
Definition flush_deferred_private {R} (target : string) : E R unit :=
  u ← gets unread;
  for_each (fun line => display_chat_message_line line ;; mret tt)
    (default [] (pending_private_message_lines u !! target)) ;;
  on_unread (fun u => set_private_unread_notified (private_unread_notified u ∖ {[target]})
    (set_pending_private_message_lines (delete target (pending_private_message_lines u)) u)) ;;
  match pending_private_file_offers u !! target with
  | None => mret tt
  | Some offers =>
      on_unread (fun u => set_private_file_unread_notified (private_file_unread_notified u ∖ {[target]})
        (set_pending_private_file_offers (delete target (pending_private_file_offers u)) u)) ;;
      for_each (fun offer => handle_file_protocol_line offer ;; mret tt) offers
  end.

Definition flush_deferred_group {R} (target : string) : E R unit :=
  u ← gets unread;
  for_each (fun line => display_chat_message_line line ;; mret tt)
    (default [] (pending_group_message_lines u !! target)) ;;
  on_unread (fun u => set_group_unread_notified (group_unread_notified u ∖ {[target]})
    (set_pending_group_message_lines (delete target (pending_group_message_lines u)) u)) ;;
  match pending_group_file_offers u !! target with
  | None => mret tt
  | Some offers =>
      on_unread (fun u => set_group_file_unread_notified (group_file_unread_notified u ∖ {[target]})
        (set_pending_group_file_offers (delete target (pending_group_file_offers u)) u)) ;;
      for_each (fun offer => handle_file_protocol_line offer ;; mret tt) offers
  end.

Definition flush_deferred_chat_items {R} : E R unit :=
  k ← gets chat;
  if negb (has_active_chat k) then mret tt
  else if bool_decide (chat_scope k = Private) then flush_deferred_private (chat_target k)
  else flush_deferred_group (chat_target k).

(** A line as it is shown. *)
Definition display_line (line : string) : string :=
  if starts_with line "[system]" then "[系统]" +:+ str_drop (String.length "[system]") line
  else if starts_with line "[error]" then "[错误]" +:+ str_drop (String.length "[error]") line
  else line.

(** The group a notice of removal names. *)
Definition removed_group (line : string) : option string :=
  let en := "[system] you were removed from group " in
  let zh := "[system] 你已被移出群 " in
  let name_after (prefix : string) :=
    let name_begin := String.length prefix in
    let by_ := match find_from " by " name_begin line with
               | Some n => Some n
               | None => find_from "，操作者：" name_begin line
               end in
    match by_ with
    | None => Protocol.trim (str_drop name_begin line)
    | Some n => substr name_begin (n - name_begin) line
    end in
  if starts_with line zh then Some (name_after zh)
  else if starts_with line en then Some (name_after en) else None.

Definition close_removed_group {R} (group : string) : E R unit :=
  if is_empty group then mret tt
  else
    on_unread (fun u => mkUnread (pending_private_message_lines u) (delete group (pending_group_message_lines u))
      (private_unread_notified u) (group_unread_notified u ∖ {[group]}) (pending_private_file_offers u)
      (delete group (pending_group_file_offers u)) (private_file_unread_notified u)
      (group_file_unread_notified u ∖ {[group]})) ;;
    k ← gets chat;
    if bool_decide (chat_scope k = Group) && (chat_target k =s? group) then
      leave_chat_session false ;; say ("[本地] 当前群会话已关闭，因为你已不再是该群成员。" +:+ nl) ;; request_menu_refresh
    else mret tt.

Definition login_succeeded (line : string) : bool :=
  starts_with line "[system] login successful." || starts_with line "[system] 登录成功".
Definition login_failed (line : string) : bool :=
  starts_with line "[error] invalid username or password." ||
  starts_with line "[error] this account is already logged in." ||
  starts_with line "[error] 用户名或密码错误" || starts_with line "[error] 该账号已经登录".
Definition logged_out (line : string) : bool :=
  starts_with line "[system] logout successful." || starts_with line "[system] 退出登录成功".
Definition account_deleted (line : string) : bool :=
  starts_with line "[system] account deleted successfully." || starts_with line "[system] 账户注销成功".

Definition complete_login {R} : E R unit :=
  pending ← gets pending_login_username;
  if is_empty pending then mret tt
  else
    change (fun c => set_pending_login_username "" (set_active_username pending c)) ;;
    say ("[本地] SQLite 缓存账户：" +:+ pending +:+ nl) ;;
    load_and_resume_pending_uploads ;; mret tt.

Definition forget_account {R} : E R unit :=
  user ← gets active_username;
  if is_empty user then mret tt
  else
    flush ;;
    r ← on_cache (LocalStore.clear_account_data user);
    match r with
    | inl error =>
        say ("[本地 SQLite 警告] " +:+ "account was deleted on the server, " +:+ "but local cache cleanup failed: " +:+
          error +:+ nl)
    | inr _ => mret tt
    end.

Definition end_session {R} : E R unit :=
  leave_chat_session false ;;
  change (fun c => set_pending_login_username "" (set_active_username "" c)) ;;
  on_transfers (fun t => mkTransfers (download_root t) ∅ [] "" ∅ no_binary) ;;
  on_unread (fun _ => no_unread).

(** A line that no protocol takes is shown, and may be a notice. *)
Definition notice_line {R} (line : string) : E R unit :=
  say (display_line line +:+ nl) ;;
  (match removed_group line with Some group => close_removed_group group | None => mret tt end) ;;
  (if login_succeeded line then complete_login else mret tt) ;;
  (if login_failed line then change (set_pending_login_username "") else mret tt) ;;
  (if account_deleted line then forget_account else mret tt) ;;
  if logged_out line || account_deleted line then end_session else mret tt.

Definition process_server_line {R} (line : string) : E R unit := fn (
  heartbeat ← consume_protocol_line line;
  return_if heartbeat tt ;;
  file ← handle_file_protocol_line line;
  return_if file tt ;;
  request ← handle_group_request_protocol_line line;
  return_if request tt ;;
  entry ← consume_chat_entry_response line;
  if (entry : bool) then
    k ← gets chat;
    (if has_active_chat k then flush_deferred_chat_items else mret tt) ;;
    request_menu_refresh
  else
    message ← handle_chat_message_visibility line;
    return_if message tt ;;
    notice_line line).

(** ** Receiving *)

Definition without_cr (line : string) : string :=
  match String.length line with
  | 0 => line
  | S n => if bool_decide (str_nth n line = Some "013"%char) then str_take n line else line
  end.

(** A round of the loop of [consume_complete_lines]: [false] when it breaks. *)
Definition consume_round {R} : E R bool :=
  t ← gets transfers;
  buffer ← gets server_buffer_;
  if (0 <? remaining_bytes (binary_download t))%Z then
    if is_empty buffer then mret false
    else
      ok ← consume_file_binary_payload;
      if negb ok then say ("[文件错误] 无法保存" +:+ "二进制下载数据。" +:+ nl) ;; mret false else mret true
  else
    match find_first (in_range 10 10) buffer with
    | None => mret false
    | Some newline =>
        change (set_server_buffer_ (str_drop (S newline) buffer)) ;;
        process_server_line (without_cr (str_take newline buffer)) ;; mret true
    end.

(** Every round takes at least a byte of the buffer or is the last one. *)
Fixpoint consume_loop {R} (fuel : nat) : E R unit :=
  match fuel with
  | 0 => mret tt
  | S fuel => more ← consume_round; if (more : bool) then consume_loop fuel else mret tt
  end.

Definition consume_complete_lines {R} : E R unit :=
  buffer ← gets server_buffer_;
  consume_loop (S (String.length buffer)) ;; flush_menu_refresh.

(** What is left to receive: a bound for the rounds of reading. *)
Definition reads_left (t : ClientTransport.Transport) : nat :=
  sum_list_with (fun o => match o with ClientTransport.Got bytes => S (String.length bytes) | _ => 1 end)
    (ClientTransport.reads t).

Fixpoint receive_loop (fuel : nat) (received_any : bool) : E bool bool :=
  match fuel with
  | 0 => mret true
  | S fuel =>
      result ← (fun c => let r := ClientTransport.receive kClientBufferSize (net c) in (inr r.1, set_net r.2 c));
      match result with
      | ClientTransport.Data bytes =>
          change (fun c => set_server_buffer_ (server_buffer_ c +:+ bytes) c) ;; receive_loop fuel true
      | ClientTransport.Retry => (if received_any then consume_complete_lines else mret tt) ;; mret true
      | ClientTransport.Closed => (if received_any then consume_complete_lines else mret tt) ;; mret false
      | ClientTransport.Error error => say ("TLS 接收失败：" +:+ error +:+ nl) ;; mret false
      end
  end.

Definition read_tls_available {R} : E R bool :=
  t ← gets net; fn (receive_loop (S (reads_left t)) false).

(** ** The loop over [poll] *)

(** What an iteration finds: how many messages the writer thread has stored
    since the last one, whether OpenSSL holds decrypted bytes, and what [poll]
    reports; the line is [None] at the end of the input. *)
Inductive poll_report :=
  | PollInterrupted
  | PollFailed (error : string)
  | Polled (tls_in : bool) (typed : option (option string)) (tls_out tls_error pending_at_error : bool).
Record Iteration := mkIteration { it_stored : nat; it_pending : bool; it_poll : poll_report }.

Definition flush_output {R} : E R bool :=
  r ← on_net ClientTransport.flush_queued;
  match r with
  | inr _ => mret true
  | inl error => say ("[网络错误] 刷新消息发送队列失败：" +:+ error +:+ nl) ;; mret false
  end.

(** [false] when the loop ends. *)
Definition iterate {R} (it : Iteration) : E R bool := fn (
  for_each (fun _ => worker_step) (seq 0 (it_stored it)) ;;
  (if it_pending it then ok ← read_tls_available; return_if (negb ok) false else mret tt) ;;
  match it_poll it with
  | PollInterrupted => return_ true
  | PollFailed error => say ("poll 调用失败：" +:+ error +:+ nl) ;; return_ false
  | Polled tls_in typed tls_out tls_error pending_at_error =>
      (if tls_in then
         ok ← read_tls_available;
         return_if (negb ok) false ;;
         t ← gets net;
         if ClientTransport.has_pending_output t then ok ← flush_output; return_if (negb ok) false else mret tt
       else mret tt) ;;
      (match typed with
       | None => mret tt
       | Some None => return_ false
       | Some (Some line) => ok ← handle_user_input line; return_if (negb ok) false
       end) ;;
      (if tls_out then ok ← flush_output; return_if (negb ok) false else mret tt) ;;
      (if tls_error then
         (if pending_at_error then read_tls_available ;; mret tt else mret tt) ;; return_ false
       else mret tt) ;;
      beat ← tick;
      match beat with
      | inl error => say ("[心跳] " +:+ error +:+ "；正在关闭连接。" +:+ nl) ;; mret false
      | inr _ => mret true
      end
  end).

(** After the loop. *)
Definition close_client {R} : E R unit :=
  buffer ← gets server_buffer_;
  (if is_empty buffer then mret tt else process_server_line buffer) ;;
  preserve_partial_downloads ;;
  flush ;;
  change (fun c => set_net (ClientTransport.shutdown (net c)) c).

Fixpoint run_iterations {R} (its : list Iteration) : E R unit :=
  match its with
  | [] => mret tt
  | it :: rest => go ← iterate it; if (go : bool) then run_iterations rest else close_client
  end.

(** The client as [initialize] leaves it. *)
Definition new_client (root : string) (store : LocalStore.Store) (fs : FileService.Fs)
    (t : ClientTransport.Transport) (now : Z) (clocks steadies : list Z) (random : list (option string)) : Client :=
  mkClient "" "" no_chat no_requests no_unread (mkTransfers root ∅ [] "" ∅ no_binary) store [] fs t
    (new_heartbeat now) 0 false "" [] clocks steadies random.

Definition run (its : list Iteration) (c : Client) : Client := (run_iterations (R := unit) its c).2.
End App.
End ClientApp.
