(* ===== verification/ClientLogic.v ===== *)
(** * Reasoning about the client

    [keeps I m] is a class with an instance for every function of the client.
    What an invariant promises about the parts of the client is stated by
    classes: [Outer] about what no conversation and no transfer depends on,
    [FilePart], [Downloads], [Leaving], [Responds], [Conversations] and [Sessions]
    about the others.  An
    invariant of all of them is kept by every run ([run_keeps]). *)
From S2P Require Import Prelude Protocol FileUtils FileService LocalStore ClientTransport ClientState ClientFiles ClientChat ClientApp.
Import ClientState ClientFiles ClientChat ClientApp.

Module ClientLogic.

(** Decomposes code into its steps, and looks them up. *)
Ltac keep_step :=
  lazymatch goal with
  | |- keeps _ (mret _) => apply E_keeps_ret
  | |- keeps _ (return_ _) => apply keeps_return
  | |- keeps _ (return_if _ _) => apply keeps_return_if
  | |- keeps _ (gets _) => apply keeps_gets
  | |- keeps _ (fn _) => apply keeps_fn
  | |- keeps _ (for_each _ _) => apply E_keeps_for_each; intros ?
  | |- keeps _ (mbind _ _) => apply E_keeps_bind; [|intros ?]
  | |- keeps _ (if ?b then _ else _) => destruct b
  | |- keeps _ (let _ := _ in _) => cbv zeta
  | |- keeps _ (match ?x with _ => _ end) => destruct x
  | |- keeps _ _ => apply _
  end.
Ltac keep := repeat keep_step.

(** The invariant does not look at a part. *)
Class Ignores {X} (I : Client -> Prop) (set : X -> Client -> Client) : Prop :=
  ignores : forall x c, I c -> I (set x c).

Class Outer (I : Client -> Prop) : Prop := {
  outer_screen :: Ignores I set_screen;
  outer_net :: Ignores I set_net;
  outer_clock :: Ignores I set_clock;
  outer_steady :: Ignores I set_steady;
  outer_entropy :: Ignores I set_entropy;
  outer_heartbeat :: Ignores I set_heartbeat;
  outer_input :: Ignores I set_pending_input_command_;
  outer_menu :: Ignores I set_menu_refresh_pending_;
  outer_login :: Ignores I set_pending_login_username;
  outer_jobs :: Ignores I set_writer_jobs;
  outer_requests :: Ignores I set_requests;
  outer_unread :: Ignores I set_unread }.

(** ** Single steps *)

Section Steps.
Context {I : Client -> Prop}.

#[export] Instance say_keeps `{!Ignores I set_screen} {R} text : keeps I (say (R := R) text).
Proof. intros c Hc. by apply (ignores (set := set_screen)). Qed.
#[export] Instance on_net_keeps `{!Ignores I set_net} {R A} (m : M ClientTransport.Transport A) :
  keeps I (on_net (R := R) m).
Proof. intros c Hc. by apply (ignores (set := set_net)). Qed.
#[export] Instance on_unread_keeps `{!Ignores I set_unread} {R} f : keeps I (on_unread (R := R) f).
Proof. intros c Hc. by apply (ignores (set := set_unread)). Qed.
#[export] Instance on_requests_keeps `{!Ignores I set_requests} {R} f : keeps I (on_requests (R := R) f).
Proof. intros c Hc. by apply (ignores (set := set_requests)). Qed.
#[export] Instance on_heartbeat_keeps `{!Ignores I set_heartbeat} {R} f : keeps I (on_heartbeat (R := R) f).
Proof. intros c Hc. by apply (ignores (set := set_heartbeat)). Qed.
#[export] Instance on_chat_keeps `{!Ignores I set_chat} {R} f : keeps I (on_chat (R := R) f).
Proof. intros c Hc. by apply (ignores (set := set_chat)). Qed.
#[export] Instance set_input_keeps `{!Ignores I set_pending_input_command_} {R} n :
  keeps I (change (R := R) (set_pending_input_command_ n)).
Proof. intros c Hc. by apply (ignores (set := set_pending_input_command_)). Qed.
#[export] Instance set_menu_keeps `{!Ignores I set_menu_refresh_pending_} {R} b :
  keeps I (change (R := R) (set_menu_refresh_pending_ b)).
Proof. intros c Hc. by apply (ignores (set := set_menu_refresh_pending_)). Qed.
#[export] Instance set_login_keeps `{!Ignores I set_pending_login_username} {R} u :
  keeps I (change (R := R) (set_pending_login_username u)).
Proof. intros c Hc. by apply (ignores (set := set_pending_login_username)). Qed.
#[export] Instance set_jobs_keeps `{!Ignores I set_writer_jobs} {R} l :
  keeps I (change (R := R) (set_writer_jobs l)).
Proof. intros c Hc. by apply (ignores (set := set_writer_jobs)). Qed.
#[export] Instance now_keeps `{!Ignores I set_clock} {R} : keeps I (client_now_unix_ms (R := R)).
Proof. intros c Hc. by apply (ignores (set := set_clock)). Qed.
#[export] Instance steady_keeps `{!Ignores I set_steady} {R} : keeps I (steady_now (R := R)).
Proof. intros c Hc. by apply (ignores (set := set_steady)). Qed.
#[export] Instance rand_keeps `{!Ignores I set_entropy} {R} : keeps I (RAND_bytes (R := R)).
Proof. intros c Hc. unfold RAND_bytes. destruct (entropy c); [done|]. by apply (ignores (set := set_entropy)). Qed.
End Steps.

(** ** Files *)

(** What an invariant may depend on: the contents of the files, the saved
    downloads, and the downloads in progress with their directory. *)
Class FilePart (I : Client -> Prop) : Prop := {
  part_disk c fs : I c -> FileService.files fs = FileService.files (disk c) -> I (set_disk fs c);
  part_cache c s : I c ->
    LocalStore.partial_downloads (LocalStore.tables s) = LocalStore.partial_downloads (LocalStore.tables (cache c)) ->
    I (set_cache s c);
  part_transfers c t : I c -> downloads t = downloads (transfers c) -> download_root t = download_root (transfers c) ->
    I (set_transfers t c) }.

(** Calls of the file system that only look, and statements that leave the saved
    downloads alone. *)
Class Looks {A} (m : M FileService.Fs A) : Prop :=
  looks : forall fs, FileService.files (m fs).2 = FileService.files fs.
Class OtherTables {A} (m : M LocalStore.Store A) : Prop :=
  other_tables : forall s, LocalStore.partial_downloads (LocalStore.tables (m s).2) =
    LocalStore.partial_downloads (LocalStore.tables s).

Lemma looks_call {A} (f : FileService.Fs -> (string + A) * FileService.Fs) :
  (forall fs, FileService.files (f fs).2 = FileService.files fs) -> Looks (FileService.fs_call f FileService.nothing).
Proof.
  intros Hf fs. unfold FileService.fs_call. destruct (FileService.fs_faults fs) as [|[|e n] l]; [done|by rewrite Hf|done].
Qed.
#[export] Instance exists_looks path : Looks (FileService.fs_exists path).
Proof. by apply looks_call. Qed.
#[export] Instance size_looks path : Looks (FileService.fs_size path).
Proof. by apply looks_call. Qed.
#[export] Instance read_looks path : Looks (FileService.open_read path).
Proof. by apply looks_call. Qed.
#[export] Instance digest_looks `{FileUtils.DigestEngine} path : Looks (FileService.digest_of_file path).
Proof.
  intros fs. unfold FileService.digest_of_file. pose proof (read_looks path fs) as E.
  destruct (FileService.open_read path fs) as [[e|content] fs1]; exact E.
Qed.
#[export] Instance directories_looks : Looks (FileService.fs_call (fun fs => (inr tt, fs)) FileService.nothing).
Proof. by apply looks_call. Qed.

Lemma other_statement {A} (f : LocalStore.Tables -> A * LocalStore.Tables) :
  (forall t, LocalStore.partial_downloads (f t).2 = LocalStore.partial_downloads t) -> OtherTables (LocalStore.statement f).
Proof.
  intros Hf s. destruct (LocalStore.statement_cases f s) as [_ [(e & _ & E)|[_ E]]]; rewrite E; [done|apply Hf].
Qed.
Ltac other_table := intros; apply other_statement; intros; reflexivity.
#[export] Instance cache_private_other m : OtherTables (LocalStore.cache_private_message m).
Proof. other_table. Qed.
#[export] Instance cache_group_other m : OtherTables (LocalStore.cache_group_message m).
Proof. other_table. Qed.
#[export] Instance recent_private_other a p n : OtherTables (LocalStore.recent_private_messages a p n).
Proof. other_table. Qed.
#[export] Instance recent_group_other a g n : OtherTables (LocalStore.recent_group_messages a g n).
Proof. other_table. Qed.
#[export] Instance cache_file_other f : OtherTables (LocalStore.cache_file_transfer f).
Proof. other_table. Qed.
#[export] Instance recent_files_other a s t n : OtherTables (LocalStore.recent_file_transfers_for_chat a s t n).
Proof.
  unfold LocalStore.recent_file_transfers_for_chat. destruct (s =s? "PRIVATE"); [other_table|].
  destruct (s =s? "GROUP"); [other_table|]. by intros st.
Qed.
#[export] Instance save_upload_other u : OtherTables (LocalStore.save_pending_upload u).
Proof. other_table. Qed.
#[export] Instance list_uploads_other a : OtherTables (LocalStore.list_pending_uploads a).
Proof. other_table. Qed.
#[export] Instance remove_upload_other a t : OtherTables (LocalStore.remove_pending_upload a t).
Proof. other_table. Qed.
#[export] Instance get_partial_other a id : OtherTables (LocalStore.get_partial_download a id).
Proof. other_table. Qed.

Section FileSteps.
Context {I : Client -> Prop} `{!FilePart I}.

#[export] Instance on_disk_keeps {R A} (m : M FileService.Fs A) : Looks m -> keeps I (on_disk (R := R) m).
Proof. intros Hm c Hc. by apply part_disk. Qed.
#[export] Instance on_cache_keeps {R A} (m : M LocalStore.Store A) : OtherTables m -> keeps I (on_cache (R := R) m).
Proof. intros Hm c Hc. by apply part_cache. Qed.

(** A change of the transfers that leaves the downloads alone. *)
Class OtherTransfers (f : Transfers -> Transfers) : Prop :=
  other_transfers : forall t, downloads (f t) = downloads t /\ download_root (f t) = download_root t.
#[export] Instance on_transfers_keeps {R} f : OtherTransfers f -> keeps I (on_transfers (R := R) f).
Proof. intros Hf c Hc. apply part_transfers; [done|apply Hf|apply Hf]. Qed.
End FileSteps.

#[export] Hint Extern 1 (OtherTransfers _) => (intros ?; split; reflexivity) : typeclass_instances.
#[export] Instance clear_active_other tok : OtherTransfers (clear_active_if tok).
Proof. intros t. unfold clear_active_if. by destruct (_ =s? _). Qed.
#[export] Instance reject_other tok tok' :
  OtherTransfers (fun t => clear_active_if tok' (set_pending_uploads (delete tok (pending_uploads t)) t)).
Proof. intros t. unfold clear_active_if. by destruct (_ =s? _). Qed.

(** The downloads of an invariant of files. *)
Class Downloads `{FileUtils.DigestEngine} (I : Client -> Prop) : Prop := {
  begin_keeps {R} words :: keeps I (begin_incoming_download (R := R) words);
  consume_keeps {R} :: keeps I (consume_file_binary_payload (R := R));
  finish_keeps {R} id :: keeps I (finish_incoming_download (R := R) id);
  revoked_keeps {R} words :: keeps I (handle_revoked (R := R) words);
  forget_keeps {R} id :: keeps I (forget_download (R := R) id);
  preserve_keeps {R} :: keeps I (preserve_partial_downloads (R := R));
  clear_account_keeps {R} user :: keeps I (on_cache (R := R) (LocalStore.clear_account_data user)) }.

Section Files.
Context `{FileUtils.DigestEngine} {I : Client -> Prop} `{!Outer I} `{!FilePart I}.

#[export] Instance send_all_keeps {R} data : keeps I (send_all (R := R) data).
Proof. unfold send_all. keep. Qed.
#[export] Instance send_failed_keeps {R} id : keeps I (send_failed (R := R) id).
Proof. unfold send_failed. keep. Qed.
#[export] Instance is_regular_keeps {R} path : keeps I (is_regular_file (R := R) path).
Proof. unfold is_regular_file. keep. Qed.
#[export] Instance file_size_keeps {R} path : keeps I (file_size_of (R := R) path).
Proof. unfold file_size_of. keep. Qed.
#[export] Instance sha256_keeps {R} path : keeps I (sha256_file_hex (R := R) path).
Proof. unfold sha256_file_hex. keep. Qed.
#[export] Instance read_source_keeps {R} path : keeps I (read_source (R := R) path).
Proof. unfold read_source. keep. Qed.
#[export] Instance directories_keeps {R} path : keeps I (create_directories (R := R) path).
Proof. unfold create_directories. keep. Qed.
#[export] Instance account_keeps {R} : keeps I (require_local_account (R := R)).
Proof. unfold require_local_account. keep. Qed.
#[export] Instance source_matches_keeps {R} u : keeps I (upload_source_matches (R := R) u).
Proof. unfold upload_source_matches. keep. Qed.
#[export] Instance send_begin_keeps {R} u : keeps I (send_upload_begin (R := R) u).
Proof. unfold send_upload_begin. keep. Qed.
#[export] Instance next_upload_keeps fuel : keeps I (next_upload_loop fuel).
Proof. induction fuel as [|fuel IH]; cbn [next_upload_loop]; keep. Qed.
#[export] Instance start_next_keeps {R} : keeps I (start_next_queued_upload (R := R)).
Proof. unfold start_next_queued_upload. keep. Qed.
#[export] Instance load_uploads_keeps {R} : keeps I (load_and_resume_pending_uploads (R := R)).
Proof. unfold load_and_resume_pending_uploads. keep. Qed.
#[export] Instance prepare_keeps {R} scope target path : keeps I (prepare_upload (R := R) scope target path).
Proof. unfold prepare_upload. keep. Qed.
#[export] Instance send_frames_keeps fuel u offset b : keeps I (send_frames fuel u offset b).
Proof. revert offset b. induction fuel as [|fuel IH]; intros offset b; cbn [send_frames]; keep. Qed.
#[export] Instance send_data_keeps {R} u offset : keeps I (send_upload_data (R := R) u offset).
Proof. unfold send_upload_data. keep. Qed.
#[export] Instance already_there_keeps {R} d : keeps I (already_there (R := R) d).
Proof. unfold already_there. keep. Qed.
#[export] Instance end_binary_keeps {R} : keeps I (end_binary (R := R)).
Proof. unfold end_binary. keep. Qed.
#[export] Instance ready_keeps {R} words : keeps I (handle_ready (R := R) words).
Proof. unfold handle_ready. keep. Qed.
#[export] Instance paused_keeps {R} words : keeps I (handle_paused (R := R) words).
Proof. unfold handle_paused. keep. Qed.
#[export] Instance reject_keeps {R} words : keeps I (handle_reject (R := R) words).
Proof. unfold handle_reject. keep. Qed.
#[export] Instance upload_ok_keeps {R} words : keeps I (handle_upload_ok (R := R) words).
Proof. unfold handle_upload_ok. keep. Qed.
#[export] Instance offer_in_chat_keeps {R} line words : keeps I (offer_in_chat (R := R) line words).
Proof. unfold offer_in_chat. keep. Qed.

Context `{!Downloads I}.

#[export] Instance offer_keeps {R} line words : keeps I (handle_offer (R := R) line words).
Proof. unfold handle_offer. keep. Qed.
#[export] Instance resume_start_keeps {R} words : keeps I (handle_resume_start (R := R) words).
Proof. unfold handle_resume_start. keep. Qed.
#[export] Instance data_keeps {R} words : keeps I (handle_data (R := R) words).
Proof. unfold handle_data. keep. Qed.
#[export] Instance done_keeps {R} words : keeps I (handle_done (R := R) words).
Proof. unfold handle_done. keep. Qed.
#[export] Instance file_line_keeps {R} line : keeps I (handle_file_protocol_line (R := R) line).
Proof. unfold handle_file_protocol_line. keep. Qed.
End Files.

(** ** Conversations and sessions *)

Class Leaving (I : Client -> Prop) : Prop := {
  leave_keeps {R} b :: keeps I (leave_chat_session (R := R) b) }.
Class Responds (I : Client -> Prop) : Prop := {
  response_keeps {R} line :: keeps I (consume_chat_entry_response (R := R) line) }.
Class Conversations (I : Client -> Prop) : Prop := {
  enter_keeps {R} scope target :: keeps I (request_chat_entry (R := R) scope target);
  mode_keeps {R} :: keeps I (begin_chat_mode_selection (R := R));
  selection_keeps {R} line :: keeps I (handle_chat_mode_selection_input (R := R) line);
  message_keeps {R} line :: keeps I (handle_chat_message_input (R := R) line) }.

Class Sessions `{FileUtils.DigestEngine} (I : Client -> Prop) : Prop := {
  complete_keeps {R} :: keeps I (complete_login (R := R));
  end_session_keeps {R} :: keeps I (end_session (R := R)) }.

(** ** The application *)

Section App.
Context `{FileUtils.DigestEngine} `{ClientEnv} {I : Client -> Prop}.
Context `{!Outer I} `{!FilePart I} `{!Downloads I} `{!Leaving I} `{!Responds I} `{!Conversations I} `{!Sessions I}.

#[export] Instance indented_keeps {R} text : keeps I (print_indented_content (R := R) text).
Proof. unfold print_indented_content. keep. Qed.
#[export] Instance no_arguments_keeps {R} n text : keeps I (require_no_arguments (R := R) n text).
Proof. unfold require_no_arguments. keep. Qed.
#[export] Instance private_history_keeps {R} text : keeps I (local_private_history (R := R) text).
Proof. unfold local_private_history. keep. Qed.
#[export] Instance group_history_keeps {R} text : keeps I (local_group_history (R := R) text).
Proof. unfold local_group_history. keep. Qed.
#[export] Instance local_files_keeps {R} text : keeps I (local_files (R := R) text).
Proof. unfold local_files. keep. Qed.
#[export] Instance local_send_keeps {R} text : keeps I (local_send_file (R := R) text).
Proof. unfold local_send_file. keep. Qed.
#[export] Instance help_keeps {R} : keeps I (print_numeric_help (R := R)).
Proof. unfold print_numeric_help. keep. Qed.
#[export] Instance local_command_keeps {R} n text : keeps I (handle_local_numeric_command (R := R) n text).
Proof. unfold handle_local_numeric_command. keep. Qed.
#[export] Instance menu_keeps {R} : keeps I (print_current_menu (R := R)).
Proof. unfold print_current_menu. keep. Qed.
#[export] Instance refresh_keeps {R} : keeps I (request_menu_refresh (R := R)).
Proof. unfold request_menu_refresh. keep. Qed.
#[export] Instance flush_refresh_keeps {R} : keeps I (flush_menu_refresh (R := R)).
Proof. unfold flush_menu_refresh. keep. Qed.
#[export] Instance refuse_keeps {A} text : keeps I (refuse (A := A) text).
Proof. unfold refuse. keep. Qed.
#[export] Instance clear_requests_keeps {R} : keeps I (clear_group_request_action (R := R)).
Proof. unfold clear_group_request_action. keep. Qed.
#[export] Instance begin_requests_keeps {R} a : keeps I (begin_group_request_action (R := R) a).
Proof. unfold begin_group_request_action. keep. Qed.
#[export] Instance request_item_keeps {R} words : keeps I (request_item (R := R) words).
Proof. unfold request_item. keep. Qed.
#[export] Instance requests_end_keeps {R} : keeps I (requests_end (R := R)).
Proof. unfold requests_end. keep. Qed.
#[export] Instance request_line_keeps {R} line : keeps I (handle_group_request_protocol_line (R := R) line).
Proof. unfold handle_group_request_protocol_line. keep. Qed.
#[export] Instance request_selection_keeps {R} line : keeps I (handle_group_request_selection_input (R := R) line).
Proof. unfold handle_group_request_selection_input. keep. Qed.
#[export] Instance followup_keeps {R} n : keeps I (begin_followup_input (R := R) n).
Proof. unfold begin_followup_input. keep. Qed.
#[export] Instance remember_keeps {R} line : keeps I (remember_login_attempt (R := R) line).
Proof. unfold remember_login_attempt. keep. Qed.
#[export] Instance execute_keeps {R} n text : keeps I (execute_numeric_command (R := R) n text).
Proof. unfold execute_numeric_command. keep. Qed.
#[export] Instance message_input_keeps {R} line : keeps I (message_input (R := R) line).
Proof. unfold message_input. keep. Qed.
#[export] Instance user_input_keeps {R} line : keeps I (handle_user_input (R := R) line).
Proof. unfold handle_user_input. keep. Qed.

#[export] Instance parse_private_keeps {R} line user : keeps I (parse_private_message_line (R := R) line user).
Proof. unfold parse_private_message_line. keep. Qed.
#[export] Instance parse_group_keeps {R} line user : keeps I (parse_group_message_line (R := R) line user).
Proof. unfold parse_group_message_line. keep. Qed.
#[export] Instance display_keeps {R} line : keeps I (display_chat_message_line (R := R) line).
Proof. unfold display_chat_message_line. keep. Qed.
#[export] Instance enqueue_keeps {R} job : keeps I (enqueue (R := R) job).
Proof. intros c Hc. by apply (ignores (set := set_writer_jobs)). Qed.
#[export] Instance write_job_keeps {R} job : keeps I (write_job (R := R) job).
Proof. unfold write_job. keep. Qed.
#[export] Instance worker_keeps {R} : keeps I (worker_step (R := R)).
Proof. unfold worker_step. keep. Qed.
#[export] Instance flush_keeps {R} : keeps I (flush (R := R)).
Proof. unfold flush. keep. Qed.
#[export] Instance private_visibility_keeps {R} line m : keeps I (private_visibility (R := R) line m).
Proof. unfold private_visibility. keep. Qed.
#[export] Instance group_visibility_keeps {R} line m : keeps I (group_visibility (R := R) line m).
Proof. unfold group_visibility. keep. Qed.
#[export] Instance visibility_keeps {R} line : keeps I (handle_chat_message_visibility (R := R) line).
Proof. unfold handle_chat_message_visibility. keep. Qed.
#[export] Instance deferred_private_keeps {R} target : keeps I (flush_deferred_private (R := R) target).
Proof. unfold flush_deferred_private. keep. Qed.
#[export] Instance deferred_group_keeps {R} target : keeps I (flush_deferred_group (R := R) target).
Proof. unfold flush_deferred_group. keep. Qed.
#[export] Instance deferred_keeps {R} : keeps I (flush_deferred_chat_items (R := R)).
Proof. unfold flush_deferred_chat_items. keep. Qed.
#[export] Instance close_group_keeps {R} group : keeps I (close_removed_group (R := R) group).
Proof. unfold close_removed_group. keep. Qed.
#[export] Instance forget_account_keeps {R} : keeps I (forget_account (R := R)).
Proof. unfold forget_account. keep. Qed.
#[export] Instance notice_keeps {R} line : keeps I (notice_line (R := R) line).
Proof. unfold notice_line. keep. Qed.
#[export] Instance consume_protocol_keeps {R} line : keeps I (consume_protocol_line (R := R) line).
Proof. unfold consume_protocol_line. keep. Qed.
#[export] Instance server_line_keeps {R} line : keeps I (process_server_line (R := R) line).
Proof. unfold process_server_line. keep. Qed.

Context `{!Ignores I set_server_buffer_}.

Lemma set_buffer_keeps {R} s : keeps I (change (R := R) (set_server_buffer_ s)).
Proof. intros c Hc. by apply (ignores (set := set_server_buffer_)). Qed.
Lemma append_buffer_keeps {R} s : keeps I (change (R := R) (fun c => set_server_buffer_ (server_buffer_ c +:+ s) c)).
Proof. intros c Hc. by apply (ignores (set := set_server_buffer_)). Qed.
#[local] Existing Instance set_buffer_keeps.
#[local] Existing Instance append_buffer_keeps.

#[export] Instance consume_round_keeps {R} : keeps I (consume_round (R := R)).
Proof. unfold consume_round. keep. Qed.
#[export] Instance consume_loop_keeps {R} fuel : keeps I (consume_loop (R := R) fuel).
Proof. induction fuel as [|fuel IH]; cbn [consume_loop]; keep. Qed.
#[export] Instance consume_lines_keeps {R} : keeps I (consume_complete_lines (R := R)).
Proof. unfold consume_complete_lines. keep. Qed.
Lemma receive_keeps {R} :
  keeps I (fun c => let r := ClientTransport.receive kClientBufferSize (net c) in (inr r.1, set_net r.2 c) : (R + _) * _).
Proof. intros c Hc. by apply (ignores (set := set_net)). Qed.
#[export] Instance receive_loop_keeps fuel b : keeps I (receive_loop fuel b).
Proof.
  revert b. induction fuel as [|fuel IH]; intros b; cbn [receive_loop]; [keep|].
  apply E_keeps_bind; [apply receive_keeps|]. intros []; keep.
Qed.
#[export] Instance read_tls_keeps {R} : keeps I (read_tls_available (R := R)).
Proof. unfold read_tls_available. keep. Qed.
#[export] Instance flush_output_keeps {R} : keeps I (flush_output (R := R)).
Proof. unfold flush_output. keep. Qed.
#[export] Instance tick_keeps {R} : keeps I (tick (R := R)).
Proof. unfold tick. keep. Qed.
#[export] Instance iterate_keeps {R} it : keeps I (iterate (R := R) it).
Proof. unfold iterate. keep. Qed.
Lemma close_net_keeps {R} : keeps I (change (R := R) (fun c => set_net (ClientTransport.shutdown (net c)) c)).
Proof. intros c Hc. by apply (ignores (set := set_net)). Qed.
#[local] Existing Instance close_net_keeps.
#[export] Instance close_client_keeps {R} : keeps I (close_client (R := R)).
Proof. unfold close_client. keep. Qed.
#[export] Instance run_iterations_keeps {R} its : keeps I (run_iterations (R := R) its).
Proof. induction its as [|it its IH]; cbn [run_iterations]; keep. Qed.

(** Every run keeps an invariant of all parts. *)
Lemma run_keeps its c : I c -> I (run its c).
Proof. intros Hc. unfold run. exact (run_iterations_keeps (R := unit) its c Hc). Qed.
End App.

(** ** Invariants that look at fewer parts *)

(** The invariant allows bytes to be taken from the buffer. *)
Class Shrinks (I : Client -> Prop) : Prop :=
  shrinks : forall n c, I c -> I (set_server_buffer_ (str_drop n (server_buffer_ c)) c).
#[export] Instance ignored_shrinks I : Ignores I set_server_buffer_ -> Shrinks I.
Proof. intros Hi n c Hc. by apply Hi. Qed.

(** An invariant of the conversations alone. *)
Section NoFiles.
Context {I : Client -> Prop} `{!Ignores I set_disk} `{!Ignores I set_cache} `{!Ignores I set_transfers}.
#[export] Instance no_file_part : FilePart I.
Proof.
  split; intros.
  - by apply (ignores (set := set_disk)).
  - by apply (ignores (set := set_cache)).
  - by apply (ignores (set := set_transfers)).
Qed.
Lemma any_disk {R A} (m : M FileService.Fs A) : keeps I (on_disk (R := R) m).
Proof. intros c Hc. by apply (ignores (set := set_disk)). Qed.
Lemma any_cache {R A} (m : M LocalStore.Store A) : keeps I (on_cache (R := R) m).
Proof. intros c Hc. by apply (ignores (set := set_cache)). Qed.
Lemma any_transfers {R} f : keeps I (on_transfers (R := R) f).
Proof. intros c Hc. by apply (ignores (set := set_transfers)). Qed.

Context `{FileUtils.DigestEngine} `{!Outer I} `{!Shrinks I}.
#[local] Existing Instance any_disk.
#[local] Existing Instance any_cache.
#[local] Existing Instance any_transfers.
#[local] Instance remove_any {R} path : keeps I (remove (R := R) path).
Proof. unfold remove. keep. Qed.
#[local] Instance create_any {R} path : keeps I (create_file (R := R) path).
Proof. unfold create_file. keep. Qed.
#[local] Instance open_part_any {R} id saved d : keeps I (open_part (R := R) id saved d).
Proof. unfold open_part. keep. Qed.
#[local] Instance reset_part_any {R} d : keeps I (reset_part (R := R) d).
Proof. unfold reset_part. keep. Qed.
#[local] Instance resume_offset_any {R} d : keeps I (resume_offset (R := R) d).
Proof. unfold resume_offset. keep. Qed.
#[local] Instance drop_buffer_any {R} n :
  keeps I (change (R := R) (fun c => set_server_buffer_ (str_drop n (server_buffer_ c)) c)).
Proof. intros c Hc. by apply shrinks. Qed.
#[local] Instance forget_any {R} id : keeps I (forget_download (R := R) id).
Proof. unfold forget_download. keep. Qed.

#[export] Instance no_file_downloads : Downloads I.
Proof.
  split; intros.
  - unfold begin_incoming_download. keep.
  - unfold consume_file_binary_payload. keep.
  - unfold finish_incoming_download. keep.
  - unfold handle_revoked. keep.
  - keep.
  - unfold preserve_partial_downloads. keep.
  - keep.
Qed.
End NoFiles.

(** An invariant of the files alone. *)
Section NoChat.
Context `{FileUtils.DigestEngine} {I : Client -> Prop} `{!Outer I} `{!FilePart I}.
Context `{!Ignores I set_chat} `{!Ignores I set_active_username}.
Lemma any_leave {R} b : keeps I (leave_chat_session (R := R) b).
Proof. unfold leave_chat_session. keep. Qed.
#[local] Existing Instance any_leave.
#[local] Instance leave_input_any {R} b : keeps I (leave_chat_input_mode (R := R) b).
Proof. unfold leave_chat_input_mode. keep. Qed.
#[local] Instance send_line_any {R} line : keeps I (send_line (R := R) line).
Proof. unfold send_line. keep. Qed.
#[local] Instance send_message_any {R} text : keeps I (send_chat_message (R := R) text).
Proof. unfold send_chat_message. keep. Qed.
#[local] Instance send_typed_any {R} : keeps I (send_typed (R := R)).
Proof. unfold send_typed. keep. Qed.
#[local] Instance multiline_any {R} line cleaned : keeps I (multiline_input (R := R) line cleaned).
Proof. unfold multiline_input. keep. Qed.
#[local] Instance ok_any {R} words : keeps I (consume_ok (R := R) words).
Proof. unfold consume_ok. keep. Qed.
#[local] Instance error_any {R} words : keeps I (consume_error (R := R) words).
Proof. unfold consume_error. keep. Qed.

#[export] Instance no_chat_leaving : Leaving I.
Proof. split; intros. keep. Qed.
#[export] Instance no_chat_responds : Responds I.
Proof. split; intros. unfold consume_chat_entry_response. keep. Qed.
#[export] Instance no_chat_conversations : Conversations I.
Proof.
  split; intros.
  - unfold request_chat_entry. keep.
  - unfold begin_chat_mode_selection. keep.
  - unfold handle_chat_mode_selection_input. keep.
  - unfold handle_chat_message_input. keep.
Qed.

Lemma set_user_any {R} u :
  keeps I (change (R := R) (fun c => set_pending_login_username "" (set_active_username u c))).
Proof. intros c Hc. apply (ignores (set := set_pending_login_username)), (ignores (set := set_active_username)), Hc. Qed.
#[export] Instance no_chat_complete {R} : keeps I (complete_login (R := R)).
Proof.
  unfold complete_login. keep. apply set_user_any.
Qed.
End NoChat.
End ClientLogic.
