(* ===== verification/ClientSafety.v ===== *)
(** * Files the client may touch

    Whatever bytes a server sends and whatever is typed, the client only writes
    to and removes files in the directory of an account below its download
    directory, under plain names. *)
From S2P Require Import Prelude Protocol FileUtils FileService FileServiceProps LocalStore ClientTransport ClientState.
From S2P Require Import ClientFiles ClientChat ClientApp ClientLogic.
Import ClientState ClientFiles ClientChat ClientApp ClientLogic.

Module ClientSafety.

(** ** Values that code yields *)

(** [yields I m Q]: code keeps [I], and a value it gives satisfies [Q]. *)
Definition yields {R A} (I : Client -> Prop) (m : E R A) (Q : A -> Prop) : Prop :=
  forall c, I c -> I (m c).2 /\ forall a, (m c).1 = inr a -> Q a.

Lemma keeps_bind_yields {R A B} I (m : E R A) (k : A -> E R B) Q :
  yields I m Q -> (forall a, Q a -> keeps I (k a)) -> keeps I (m ≫= k).
Proof.
  intros Hm Hk c Hc. destruct (Hm c Hc) as [H1 H2]. unfold mbind, E_bind.
  destruct (m c) as [[r|a] c']; [done|]. by apply (Hk a (H2 a eq_refl)).
Qed.
Lemma yields_gets {R A} I (f : Client -> A) (Q : A -> Prop) :
  (forall c, I c -> Q (f c)) -> yields I (gets (R := R) f) Q.
Proof. intros Hf c Hc. split; [done|]. intros a [= <-]. by apply Hf. Qed.
Lemma yields_keeps {R A} I (m : E R A) : keeps I m -> yields I m (fun _ => True).
Proof. intros Hm c Hc. split; [by apply Hm|done]. Qed.
Lemma yields_weaken {R A} I (m : E R A) (Q Q' : A -> Prop) : yields I m Q -> (forall a, Q a -> Q' a) -> yields I m Q'.
Proof. intros Hm HQ c Hc. destruct (Hm c Hc) as [H1 H2]. split; [done|]. intros a Ha. by apply HQ, H2. Qed.
Lemma yields_ret {R A} I (a : A) (Q : A -> Prop) : Q a -> yields I (mret a : E R A) Q.
Proof. intros Ha c Hc. split; [done|]. by intros ? [= <-]. Qed.
Lemma yields_bind {R A B} I (m : E R A) (k : A -> E R B) Q Q' :
  yields I m Q -> (forall a, Q a -> yields I (k a) Q') -> yields I (m ≫= k) Q'.
Proof.
  intros Hm Hk c Hc. destruct (Hm c Hc) as [H1 H2]. unfold mbind, E_bind.
  destruct (m c) as [[r|a] c']; [done|]. by apply (Hk a (H2 a eq_refl)).
Qed.
(** ** Paths *)

Definition plain (name : string) : Prop :=
  name <> "" /\ name <> "." /\ name <> ".." /\ str_forall FileUtils.safe_char name = true.

(** A file with a plain name in a directory with a plain name below [root]. *)
Definition inside (root path : string) : Prop :=
  exists dir name, plain dir /\ plain name /\ path = path_join (path_join root dir) name.

Lemma plain_sanitized name : plain (FileUtils.sanitize_filename name).
Proof. by destruct (FileUtils.sanitize_safe name). Qed.

Lemma digits_safe s : str_forall isdigit s = true -> str_forall FileUtils.safe_char s = true.
Proof. apply str_forall_impl. intros c. unfold FileUtils.safe_char, isalnum. by intros ->. Qed.

Lemma plain_with_id id rest :
  (0 <= id)%Z -> str_forall FileUtils.safe_char rest = true -> plain (to_string id +:+ "_" +:+ rest).
Proof.
  intros Hid Hr. destruct (to_string_spec id Hid) as (Hne & Hd & _).
  destruct (to_string id) as [|c s] eqn:E; [done|]. simpl in Hd. apply andb_true_iff in Hd as [Hc Hs].
  assert (c <> "."%char) as Hdot by (intros ->; done). split_and!; try done.
  - by intros [= ? ?].
  - by intros [= ? ?].
  - rewrite !str_forall_app. rewrite Hr. simpl str_forall at 2. rewrite andb_true_r.
    apply (digits_safe (String c s)). simpl. by rewrite Hc, Hs.
Qed.

Definition not_nul (c : ascii) : bool := negb (in_range 0 0 c).

Lemma safe_not_nul c : FileUtils.safe_char c = true -> not_nul c = true.
Proof. byte_cases c. Qed.

Lemma join_not_nul dir name :
  str_forall not_nul dir = true -> plain name -> str_forall not_nul (path_join dir name) = true.
Proof.
  intros Hd (_ & _ & _ & Hn). assert (str_forall not_nul name = true) as Hn'
    by (eapply str_forall_impl; [apply safe_not_nul|done]).
  unfold path_join. destruct (String.length dir); [done|]. case_bool_decide; by rewrite !str_forall_app, Hd, Hn'.
Qed.

Lemma inside_c_str root path :
  str_forall not_nul root = true -> inside root path -> LocalStore.c_str path = path.
Proof.
  intros Hr (dir & name & Hd & Hn & ->). unfold LocalStore.c_str. apply take_while_all.
  by repeat apply join_not_nul.
Qed.

Lemma new_download_inside root user id scope sender group name size sha :
  (0 <= id)%Z ->
  let d := new_download root user id scope sender group (FileUtils.sanitize_filename name) size sha in
  inside root (temp_path d) /\ inside root (final_path d).
Proof.
  intros Hid d. destruct (plain_sanitized name) as (_ & _ & _ & Hs).
  split; exists (FileUtils.sanitize_filename user); eexists;
    (split; [apply plain_sanitized|]; split; [|reflexivity]).
  - apply plain_with_id; [done|]. by rewrite str_forall_app, Hs.
  - by apply plain_with_id.
Qed.

(** ** The invariant *)

Definition download_ok (root : string) (id : Z) (d : IncomingDownload) : Prop :=
  transfer_id d = id /\ inside root (temp_path d) /\ inside root (final_path d) /\
  (0 <= received_size d <= expected_size d)%Z /\ (expected_size d <= kMaxFileSize)%Z.

Record held (root : string) (before files : gmap string string) (partials : gmap (string * Z) LocalStore.LocalPartialDownload)
    (dl : gmap Z IncomingDownload) (r : string) : Prop := mkHeld {
  held_root : r = root;
  held_files : forall path, ~ inside root path -> files !! path = before !! path;
  held_partials : map_Forall (fun _ row => inside root (LocalStore.pd_temp_path row)) partials;
  held_downloads : map_Forall (download_ok root) dl }.

Definition contained (root : string) (before : gmap string string) (c : Client) : Prop :=
  held root before (FileService.files (disk c)) (LocalStore.partial_downloads (LocalStore.tables (cache c)))
    (downloads (transfers c)) (download_root (transfers c)).

Lemma offer_fields_bounds words id scope sender w3 w4 size sha :
  offer_fields words = Some (id, scope, sender, w3, w4, size, sha) -> (0 <= id)%Z /\ (0 <= size <= kMaxFileSize)%Z.
Proof.
  unfold offer_fields, parse_uint64. intros E. repeat (case_match; try done). injection E as <- <- <- <- <- <- <-.
  repeat match goal with H : whole _ = Some _ |- _ => apply whole_unsigned_range in H end. case_bools. lia.
Qed.

Section Contained.
Context `{FileUtils.DigestEngine}.
Context (root : string) (before : gmap string string) (root_c_str : str_forall not_nul root = true).
#[local] Abbreviation I := (contained root before).

#[local] Instance contained_outer : Outer I.
Proof. split; intros x c Hc; exact Hc. Qed.
#[local] Instance contained_chat : Ignores I set_chat.
Proof. intros x c Hc. exact Hc. Qed.
#[local] Instance contained_user : Ignores I set_active_username.
Proof. intros x c Hc. exact Hc. Qed.
#[local] Instance contained_buffer : Ignores I set_server_buffer_.
Proof. intros x c Hc. exact Hc. Qed.

#[local] Instance contained_files : FilePart I.
Proof.
  split.
  - intros c fs [Hr Hf Hp Hd] E. split; try done. simpl. by rewrite E.
  - intros c s [Hr Hf Hp Hd] E. split; try done. simpl. by rewrite E.
  - intros c t [Hr Hf Hp Hd] E1 E2. split; simpl; [by rewrite E2|done|done|by rewrite E1].
Qed.

(** Calls of the file system that touch files inside only. *)
Class Touches {A} (m : M FileService.Fs A) : Prop :=
  touches : forall fs path, ~ inside root path -> FileService.files (m fs).2 !! path = FileService.files fs !! path.

#[local] Instance touch_keeps {R A} (m : M FileService.Fs A) : Touches m -> keeps I (on_disk (R := R) m).
Proof.
  intros Hm c [Hr Hf Hp Hd]. split; try done. simpl. intros path Hn. rewrite Hm by done. by apply Hf.
Qed.

Lemma touch_call {A} (f : FileService.Fs -> (string + A) * FileService.Fs) partial :
  Touches f -> (forall n fs path, ~ inside root path -> FileService.files (partial n fs) !! path = FileService.files fs !! path) ->
  Touches (FileService.fs_call f partial).
Proof.
  intros Hf Hp fs path Hn. unfold FileService.fs_call.
  destruct (FileService.fs_faults fs) as [|[|e n] l]; simpl; [by apply Hf|by rewrite Hf|by rewrite Hp].
Qed.

Lemma remove_touches path : inside root path -> Touches (FileService.fs_remove path).
Proof.
  intros Hi. apply touch_call; [|done]. intros fs q Hn. simpl. rewrite lookup_delete_ne; [done|]. by intros ->.
Qed.
Lemma trunc_touches path : inside root path -> Touches (FileService.open_trunc path).
Proof.
  intros Hi. apply touch_call; [|done]. intros fs q Hn. simpl. rewrite lookup_insert_ne; [done|]. by intros ->.
Qed.
Lemma append_touches path : inside root path -> Touches (FileService.open_append path).
Proof.
  intros Hi. apply touch_call; [|done]. intros fs q Hn. simpl. rewrite lookup_insert_ne; [done|]. by intros ->.
Qed.
Lemma write_touches path bytes : inside root path -> Touches (FileService.stream_write path bytes).
Proof.
  intros Hi. apply touch_call; [|intros n]; intros fs q Hn; simpl; (rewrite lookup_insert_ne; [done|]); by intros ->.
Qed.
Lemma close_touches path bytes : inside root path -> Touches (stream_close path bytes).
Proof.
  intros Hi. apply touch_call; [done|]. intros n fs q Hn. simpl. rewrite lookup_insert_ne; [done|]. by intros ->.
Qed.
Lemma rename_touches from to : inside root from -> inside root to -> Touches (FileService.fs_rename from to).
Proof.
  intros Hf Ht. apply touch_call; [|done]. intros fs q Hn. destruct (FileService.files fs !! from); [|done]. simpl.
  rewrite lookup_insert_ne, lookup_delete_ne; [done| |]; by intros ->.
Qed.

Lemma remove_inside {R} path : inside root path -> keeps I (remove (R := R) path).
Proof. intros Hi. pose proof (remove_touches path Hi). unfold remove. keep. Qed.
Lemma create_inside {R} path : inside root path -> keeps I (create_file (R := R) path).
Proof. intros Hi. pose proof (trunc_touches path Hi). unfold create_file. keep. Qed.

(** ** Statements about the saved downloads *)

Lemma partial_statement {R A} (f : LocalStore.Tables -> A * LocalStore.Tables) :
  (forall t, map_Forall (fun _ row => inside root (LocalStore.pd_temp_path row)) (LocalStore.partial_downloads t) ->
     map_Forall (fun _ row => inside root (LocalStore.pd_temp_path row)) (LocalStore.partial_downloads (f t).2)) ->
  keeps I (on_cache (R := R) (LocalStore.statement f)).
Proof.
  intros Hf c [Hr Hfs Hp Hd]. split; try done. simpl.
  destruct (LocalStore.statement_cases f (cache c)) as [_ [(e & _ & E)|[_ E]]]; rewrite E; [done|by apply Hf].
Qed.

#[local] Instance remove_partial_keeps {R} user id : keeps I (on_cache (R := R) (LocalStore.remove_partial_download user id)).
Proof. apply partial_statement. intros t Ht. simpl. by apply map_Forall_delete. Qed.

Lemma save_partial_keeps {R} row :
  inside root (LocalStore.pd_temp_path row) -> keeps I (on_cache (R := R) (LocalStore.save_partial_download row)).
Proof. intros Hi. apply partial_statement. intros t Ht. simpl. by apply map_Forall_insert_2. Qed.

#[local] Instance clear_account_contained {R} user : keeps I (on_cache (R := R) (LocalStore.clear_account_data user)).
Proof.
  intros c [Hr Hfs Hp Hd]. split; try done. simpl.
  destruct (LocalStore.clear_cases user (cache c)) as [[_ E]|(e & _ & E)]; rewrite E; [|done].
  intros k row Hk. apply map_lookup_filter_Some in Hk as [Hk _]. exact (Hp k row Hk).
Qed.

Lemma get_partial_yields {R} user id :
  yields I (on_cache (R := R) (LocalStore.get_partial_download user id))
    (fun r => forall row, r = inr (Some row) -> inside root (LocalStore.pd_temp_path row)).
Proof.
  intros c Hc. split; [exact (on_cache_keeps (R := R) (LocalStore.get_partial_download user id) _ c Hc)|].
  intros r [= <-] row Hr. destruct Hc as [_ _ Hp _].
  unfold LocalStore.get_partial_download, LocalStore.query in Hr.
  match type of Hr with (LocalStore.statement ?f _).1 = _ => destruct (LocalStore.statement_cases f (cache c)) as [_ Hs] end.
  rewrite Hr in Hs. destruct Hs as [(e & ? & _)|[E _]]; [done|]. injection E as E. simpl in E.
  destruct (LocalStore.partial_downloads _ !! _) as [old|] eqn:Eo; [|done]. injection E as ->. simpl.
  apply Hp in Eo. by rewrite (inside_c_str root).
Qed.

(** ** Downloads *)

Lemma change_downloads {R} (f : gmap Z IncomingDownload -> gmap Z IncomingDownload) :
  (forall dl, map_Forall (download_ok root) dl -> map_Forall (download_ok root) (f dl)) ->
  keeps I (on_transfers (R := R) (fun t => set_downloads (f (downloads t)) t)).
Proof. intros Hf c [Hr Hfs Hp Hd]. split; try done. simpl. by apply Hf. Qed.

#[local] Instance forget_contained {R} id : keeps I (forget_download (R := R) id).
Proof. apply (change_downloads (delete id)). intros dl Hd. by apply map_Forall_delete. Qed.

Lemma insert_contained {R} id d :
  download_ok root id d -> keeps I (on_transfers (R := R) (fun t => set_downloads (<[id := d]> (downloads t)) t)).
Proof. intros Hd. apply (change_downloads (insert id d)). intros dl Hdl. by apply map_Forall_insert_2. Qed.

Lemma transfers_yields {R} :
  yields I (gets (R := R) transfers) (fun t => map_Forall (download_ok root) (downloads t)).
Proof. apply yields_gets. by intros c []. Qed.

Lemma open_part_contained {R} id saved d :
  inside root (temp_path d) -> (forall row, saved = Some row -> inside root (LocalStore.pd_temp_path row)) ->
  keeps I (open_part (R := R) id saved d).
Proof.
  intros Hi Hs. pose proof (fun R => create_inside (R := R) (temp_path d) Hi).
  unfold open_part. destruct saved as [row|]; [|keep].
  pose proof (fun R => remove_inside (R := R) (LocalStore.pd_temp_path row) (Hs row eq_refl)). keep.
Qed.

Lemma size_nonneg {R} path : yields I (file_size_of (R := R) path) (fun r => forall n, r = inr n -> (0 <= n)%Z).
Proof.
  intros c Hc. split; [exact (file_size_keeps (R := R) path c Hc)|]. intros r [= <-] n Hn.
  destruct (FileService.fs_size path (disk c)) as [r fs] eqn:E. simpl in Hn. subst r.
  apply FileServiceProps.fs_size_inr in E as (x & _ & -> & _). unfold strlen. lia.
Qed.

Lemma reset_yields {R} d :
  inside root (temp_path d) -> yields I (reset_part (R := R) d) (fun r => forall n, r = Some n -> n = 0%Z).
Proof.
  intros Hi. pose proof (create_inside (R := R) (temp_path d) Hi). unfold reset_part.
  apply (yields_bind _ _ _ (fun _ => True)); [by apply yields_keeps|]. intros b _. destruct (negb b).
  - apply (yields_bind _ _ _ (fun _ => True)); [apply yields_keeps; keep|]. intros _ _. by apply yields_ret.
  - apply yields_ret. by intros n [= <-].
Qed.

Lemma resume_offset_yields {R} d :
  inside root (temp_path d) -> (0 <= expected_size d)%Z ->
  yields I (resume_offset (R := R) d) (fun r => forall n, r = Some n -> (0 <= n <= expected_size d)%Z).
Proof.
  intros Hi He. unfold resume_offset. eapply yields_bind; [apply size_nonneg|]. intros size Hs.
  assert (yields I (reset_part (R := R) d) (fun r => forall n, r = Some n -> (0 <= n <= expected_size d)%Z)) as Hr.
  { eapply yields_weaken; [by apply reset_yields|]. intros r Hr n Hn. specialize (Hr n Hn). lia. }
  destruct size as [e|n]; [done|]. specialize (Hs n eq_refl). destruct (Z.ltb_spec (expected_size d) n); [done|].
  apply yields_ret. intros m [= <-]. lia.
Qed.

#[local] Instance begin_contained {R} words : keeps I (begin_incoming_download (R := R) words).
Proof.
  unfold begin_incoming_download. apply keeps_fn, E_keeps_bind; [keep|]. intros user. apply E_keeps_bind; [keep|]. intros _.
  destruct (offer_fields words) as [[[[[[[id scope] sender] w3] w4] size] sha]|] eqn:Eo; [|keep].
  apply offer_fields_bounds in Eo as [Hid Hsize].
  destruct (decode_text_token w3) as [|group]; [keep|]. destruct (decode_text_token w4) as [|name]; [keep|].
  apply (keeps_bind_yields _ _ _ (fun r => r = root)); [apply yields_gets; by intros c []|]. intros r ->.
  apply E_keeps_bind; [keep|]. intros [|_]; [keep|]. cbv zeta.
  destruct (new_download_inside root user id scope sender group name size sha) as [Ht Hf]; [lia|].
  set (d := new_download _ _ _ _ _ _ _ _ _) in *. apply E_keeps_bind; [keep|]. intros [there|]; [keep|].
  apply (keeps_bind_yields _ _ _ _ (get_partial_yields user id)). intros [|saved] Hsaved; [keep|].
  apply E_keeps_bind; [apply open_part_contained; [done|]; intros row ->; by apply Hsaved|]. intros opened.
  apply E_keeps_bind; [keep|]. intros _.
  apply (keeps_bind_yields _ _ _ _ (resume_offset_yields d Ht ltac:(simpl; lia))). intros [offset|] Hoffset; [|keep].
  specialize (Hoffset offset eq_refl). pose proof (fun R => save_partial_keeps (R := R) (local_partial (set_received_size offset d) user) Ht).
  apply E_keeps_bind; [keep|]. intros [|_]; [keep|]. apply E_keeps_bind; [|intros _; keep].
  apply insert_contained. split_and!; try done; simpl in *; lia.
Qed.

(** The download of an entry of the table. *)
Lemma lookup_contained (dl : gmap Z IncomingDownload) id d :
  map_Forall (download_ok root) dl -> dl !! id = Some d -> download_ok root id d.
Proof. intros Hd Hi. exact (Hd id d Hi). Qed.

#[local] Instance drop_buffer_contained {R} n :
  keeps I (change (R := R) (fun c => set_server_buffer_ (str_drop n (server_buffer_ c)) c)).
Proof. intros c Hc. exact Hc. Qed.

#[local] Instance consume_contained {R} : keeps I (consume_file_binary_payload (R := R)).
Proof.
  unfold consume_file_binary_payload. apply keeps_fn. apply (keeps_bind_yields _ _ _ _ transfers_yields). intros t Ht.
  apply E_keeps_bind; [keep|]. intros _. destruct (downloads t !! _) as [d|] eqn:Ed; [|keep].
  apply (lookup_contained _ _ _ Ht) in Ed as (Hid & Hti & Hfi & Hr & He).
  apply E_keeps_bind; [keep|]. intros buffer. apply E_keeps_bind; [keep|]. intros _. cbv zeta.
  match goal with |- keeps _ (if (?a <? ?b)%Z then _ else _) => destruct (Z.ltb_spec a b) as [|Hle]; [keep|] end.
  pose proof (append_touches _ Hti). pose proof (fun bytes => write_touches _ bytes Hti).
  pose proof (fun bytes => close_touches _ bytes Hti).
  apply E_keeps_bind; [keep|]. intros [|_]; [keep|]. apply E_keeps_bind; [keep|]. intros written.
  apply E_keeps_bind; [keep|]. intros _. destruct written as [|_]; [keep|].
  apply E_keeps_bind; [keep|]. intros _. apply E_keeps_bind; [|intros _; keep].
  apply insert_contained. split_and!; try done. simpl. unfold wrap. by apply Z.mod_pos_bound.
Qed.

#[local] Instance finish_contained {R} id : keeps I (finish_incoming_download (R := R) id).
Proof.
  unfold finish_incoming_download. apply keeps_fn. apply (keeps_bind_yields _ _ _ _ transfers_yields). intros t Ht.
  apply E_keeps_bind; [keep|]. intros user. destruct (downloads t !! id) as [d|] eqn:Ed; [|keep].
  apply (lookup_contained _ _ _ Ht) in Ed as (Hid & Hti & Hfi & Hr & He).
  pose proof (fun R => remove_inside (R := R) _ Hti). pose proof (fun R => remove_inside (R := R) _ Hfi).
  pose proof (rename_touches _ _ Hti Hfi). keep.
Qed.

#[local] Instance revoked_contained {R} words : keeps I (handle_revoked (R := R) words).
Proof.
  unfold handle_revoked. apply keeps_fn. destruct words as [|w0 rest]; [keep|]. destruct (parse_uint64 w0) as [id|]; [|keep].
  cbv zeta. apply (keeps_bind_yields _ _ _ _ transfers_yields). intros t Ht.
  apply E_keeps_bind; [|intros _; keep]. destruct (downloads t !! id) as [d|] eqn:Ed; [|keep].
  apply (lookup_contained _ _ _ Ht) in Ed as (Hid & Hti & Hfi & Hr & He).
  pose proof (fun R => remove_inside (R := R) _ Hti). pose proof (fun R => remove_inside (R := R) _ Hfi). keep.
Qed.

#[local] Instance contained_downloads : Downloads I.
Proof.
  split; intros; try exact _. unfold preserve_partial_downloads. intros c [Hr Hfs Hp Hd]. by split.
Qed.

#[local] Instance contained_sessions : Sessions I.
Proof.
  split; intros; [keep|]. unfold end_session. apply E_keeps_bind; [apply any_leave|]. intros _.
  apply E_keeps_bind; [apply set_user_any|]. intros _. apply E_keeps_bind; [|intros _; keep].
  intros c [Hr Hfs Hp Hd]. by split.
Qed.

Lemma run_contained `{ClientEnv} its c : I c -> I (run its c).
Proof. apply run_keeps. Qed.
End Contained.

(** Rows of saved downloads name files inside. *)
Definition saved_inside (root : string) (store : LocalStore.Store) : Prop :=
  map_Forall (fun _ row => inside root (LocalStore.pd_temp_path row))
    (LocalStore.partial_downloads (LocalStore.tables store)).

(** C19: whatever a server sends and whatever is typed, under every failure of the
    disk, the database and the connection, the client changes no file but files
    with plain names in a directory with a plain name below its download
    directory; and what it saves for later runs names such files again.  The
    download directory is a C string, and the database holds such rows when the
    client starts. *)
Theorem download_contained `{FileUtils.DigestEngine} `{ClientEnv} root store fs t now clocks steadies random its :
  str_forall not_nul root = true -> saved_inside root store ->
  let c := run its (new_client root store fs t now clocks steadies random) in
  (forall path, ~ inside root path -> FileService.files (disk c) !! path = FileService.files fs !! path) /\
  saved_inside root (cache c).
Proof.
  intros Hroot Hsaved c.
  assert (contained root (FileService.files fs) c) as [Hr Hf Hp _] by (apply run_contained; [done|by split]).
  done.
Qed.
End ClientSafety.
