(* ===== verification/ClientConversation.v ===== *)
(** * Conversations are confirmed

    The input of the client is a state machine over [Chat]: a conversation is
    asked for, confirmed by the server, and only then written to. *)
From S2P Require Import Prelude Protocol FileUtils FileService LocalStore ClientTransport ClientState.
From S2P Require Import ClientFiles ClientChat ClientApp ClientLogic.
Import ClientState ClientFiles ClientChat ClientApp ClientLogic.

Module ClientConversation.

(** ** The states of the machine *)

(** A conversation is open or none is; one may be asked for only while none is
    open; input goes to an open one; a long text exists only in its mode, within
    the limit of a message. *)
Record chat_ok (user : string) (k : Chat) : Prop := mkChatOk {
  ok_open : chat_scope k = NoChat <-> chat_target k = "";
  ok_asked : chat_entry_pending k = true ->
    pending_chat_scope k <> NoChat /\ pending_chat_target k <> "" /\ chat_scope k = NoChat;
  ok_not_asked : chat_entry_pending k = false -> pending_chat_scope k = NoChat /\ pending_chat_target k = "";
  ok_input : chat_mode_selection_active k = true \/ chat_input_mode k <> NoInput -> chat_scope k <> NoChat;
  ok_mode : chat_mode_selection_active k = true -> chat_input_mode k = NoInput;
  ok_text : chat_input_mode k <> MultiLine -> chat_message_lines k = [] /\ chat_multiline_finished k = false;
  ok_limit : (strlen (join_message_lines (chat_message_lines k)) <= kMaxEditableChatMessage)%Z;
  ok_user : chat_scope k <> NoChat \/ chat_entry_pending k = true -> user <> "" }.

Definition conversing (c : Client) : Prop := chat_ok (active_username c) (chat c).

#[local] Instance conversing_outer : Outer conversing.
Proof. split; intros x c Hc; exact Hc. Qed.
#[local] Instance conversing_disk : Ignores conversing set_disk.
Proof. intros x c Hc. exact Hc. Qed.
#[local] Instance conversing_cache : Ignores conversing set_cache.
Proof. intros x c Hc. exact Hc. Qed.
#[local] Instance conversing_transfers : Ignores conversing set_transfers.
Proof. intros x c Hc. exact Hc. Qed.
#[local] Instance conversing_buffer : Ignores conversing set_server_buffer_.
Proof. intros x c Hc. exact Hc. Qed.

(** Facts of the code about a conversation, as facts of the machine. *)
Lemma active_chat user k : chat_ok user k -> has_active_chat k = true <-> chat_scope k <> NoChat.
Proof.
  intros Hk. unfold has_active_chat. rewrite andb_true_iff, !negb_true_iff, bool_decide_eq_false.
  split; [by intros []|]. intros Hs. split; [done|]. apply is_empty_false. intros Ht. by apply Hs, (ok_open _ _ Hk).
Qed.
Lemma input_active k : chat_input_active k = true <-> chat_mode_selection_active k = true \/ chat_input_mode k <> NoInput.
Proof. unfold chat_input_active. by rewrite orb_true_iff, negb_true_iff, bool_decide_eq_false. Qed.

Lemma kMaxEditable_pos : (0 <= kMaxEditableChatMessage)%Z.
Proof. done. Qed.

(** ** The changes of the machine *)

Lemma no_chat_ok user : chat_ok user no_chat.
Proof. split; simpl; try done; try (by intros []). Qed.

Lemma closed_ok user k :
  chat_ok user (reset_chat_input (clear_pending_entry (set_chat_target "" (set_chat_scope NoChat k)))).
Proof. split; simpl; try done; by intros []. Qed.

Lemma reset_ok user k : chat_ok user k -> chat_ok user (reset_chat_input k).
Proof. intros []. split; simpl; try done; by intros []. Qed.

Lemma clear_entry_ok user k : chat_ok user k -> chat_ok user (clear_pending_entry k).
Proof.
  intros []. split; simpl; try done. intros [?|?]; [|done]. apply ok_user0. by left.
Qed.

Lemma asked_ok user k scope target :
  chat_ok user k -> has_active_chat k = false -> chat_input_active k = false -> user <> "" -> target <> "" -> scope <> NoChat ->
  chat_ok user (set_chat_entry_pending true (set_pending_chat_target target (set_pending_chat_scope scope k))).
Proof.
  intros Hk Ha Hi Hu Ht Hs. assert (chat_scope k = NoChat) as Hn.
  { destruct (decide (chat_scope k = NoChat)) as [|Hne]; [done|]. apply (active_chat user) in Hne; [|done]. congruence. }
  destruct Hk. split; simpl; try done; by intros.
Qed.

Lemma entered_ok user k :
  chat_ok user k -> chat_entry_pending k = true ->
  chat_ok user (clear_pending_entry (reset_chat_input
    (set_chat_target (pending_chat_target k) (set_chat_scope (pending_chat_scope k) k)))).
Proof.
  intros [] Hp. destruct (ok_asked0 Hp) as (H1 & H2 & H3). split; simpl; try done; try (by intros []).
  intros _. apply ok_user0. by right.
Qed.

Lemma selecting_ok user k :
  chat_ok user k -> has_active_chat k = true -> chat_ok user (set_chat_mode_selection_active true (reset_chat_input k)).
Proof.
  intros Hk Ha. apply (active_chat user) in Ha; [|done]. destruct Hk. split; simpl; try done.
Qed.

Lemma instant_ok user k :
  chat_ok user k -> chat_mode_selection_active k = true ->
  chat_ok user (set_chat_input_mode Instant (set_chat_mode_selection_active false k)).
Proof.
  intros [] Hs. assert (chat_input_mode k <> MultiLine) by (by rewrite ok_mode0). split; simpl; try done; eauto.
Qed.
Lemma multiline_ok user k :
  chat_ok user k -> chat_mode_selection_active k = true ->
  chat_ok user (set_chat_message_lines [] (set_chat_multiline_finished false
    (set_chat_input_mode MultiLine (set_chat_mode_selection_active false k)))).
Proof. intros [] Hs. split; simpl; try done; eauto. Qed.

(** A change of the long text, in its mode. *)
Lemma text_ok user k lines finished :
  chat_ok user k -> chat_input_mode k = MultiLine ->
  (strlen (join_message_lines lines) <= kMaxEditableChatMessage)%Z ->
  chat_ok user (set_chat_multiline_finished finished (set_chat_message_lines lines k)).
Proof. intros [] Hm Hl. split; simpl; try done. Qed.
(** ** Code at a state of the machine *)

Definition at_state (user : string) (k : Chat) (c : Client) : Prop := active_username c = user /\ chat c = k.
#[local] Instance at_state_outer user k : Outer (at_state user k).
Proof. split; intros x c Hc; exact Hc. Qed.

(** From the state [k], code ends in a state of the machine. *)
Definition leads {R A} (user : string) (k : Chat) (m : E R A) : Prop :=
  forall c, at_state user k c -> conversing (m c).2.

Section Leads.
Context {R : Type} (user : string) (k : Chat).

Lemma leads_keeps {A} (m : E R A) : chat_ok user k -> keeps conversing m -> leads user k m.
Proof. intros Hk Hm c [<- <-]. by apply Hm. Qed.
Lemma leads_bind {A B} (m : E R A) (r : A -> E R B) :
  keeps (at_state user k) m -> (forall a, leads user k (r a)) -> chat_ok user k -> leads user k (m ≫= r).
Proof.
  intros Hm Hr Hk c Hc. specialize (Hm c Hc). unfold mbind, E_bind. destruct (m c) as [[e|a] c']; [|by apply Hr].
  simpl in *. destruct Hm as [<- <-]. done.
Qed.
Lemma leads_change {B} f (r : unit -> E R B) :
  chat_ok user (f k) -> keeps conversing (r tt) -> leads user k (on_chat f ≫= r).
Proof. intros Hf Hr c [<- <-]. by apply Hr. Qed.
Lemma leads_change_end f : chat_ok user (f k) -> leads user k (on_chat (R := R) f).
Proof. intros Hf c [<- <-]. exact Hf. Qed.
Lemma leads_user {B} (r : string -> E R B) : leads user k (r user) -> leads user k (gets active_username ≫= r).
Proof. intros Hr c Hc. unfold mbind, E_bind. simpl. rewrite (proj1 Hc). by apply Hr. Qed.
Lemma leads_chat {B} (r : Chat -> E R B) : leads user k (r k) -> leads user k (gets chat ≫= r).
Proof. intros Hr c Hc. unfold mbind, E_bind. simpl. rewrite (proj2 Hc). by apply Hr. Qed.
Lemma leads_fn {A} (m : E A A) : leads user k m -> leads user k (fn (R := R) m).
Proof. intros Hm c Hc. specialize (Hm c Hc). unfold fn. by destruct (m c) as [[e|a] c']. Qed.
Lemma leads_return_if {B} b x (r : unit -> E R B) :
  chat_ok user k -> (b = false -> leads user k (r tt)) -> leads user k (return_if b x ≫= r).
Proof. intros Hk Hr c Hc. destruct b; [|by apply Hr]. destruct Hc as [<- <-]. exact Hk. Qed.
Lemma leads_account {B} (r : bool -> E R B) :
  (user <> "" -> leads user k (r true)) -> leads user k (r false) -> leads user k (require_local_account ≫= r).
Proof.
  intros Ht Hf c Hc. unfold require_local_account, mbind, E_bind. cbn [gets]. rewrite (proj1 Hc).
  destruct (is_empty user) eqn:Eu; simpl.
  - apply Hf. exact Hc.
  - apply Ht; [|done]. intros ->. done.
Qed.
End Leads.

(** Code that reads the conversation first. *)
Lemma keeps_chat {R B} (r : Chat -> E R B) :
  (forall user k, chat_ok user k -> leads user k (r k)) -> keeps conversing (gets chat ≫= r).
Proof. intros Hr c Hc. unfold mbind, E_bind. simpl. by apply (Hr (active_username c) (chat c)). Qed.
Lemma keeps_leads {R A} (m : E R A) : (forall user k, chat_ok user k -> leads user k m) -> keeps conversing m.
Proof. intros Hm c Hc. by apply (Hm (active_username c) (chat c)). Qed.

Lemma on_chat_ok {R} f :
  (forall user k, chat_ok user k -> chat_ok user (f k)) -> keeps conversing (on_chat (R := R) f).
Proof. intros Hf c Hc. apply Hf, Hc. Qed.

(** ** The functions *)

#[local] Instance reset_keeps {R} : keeps conversing (on_chat (R := R) reset_chat_input).
Proof. apply on_chat_ok, reset_ok. Qed.
#[local] Instance clear_entry_keeps {R} : keeps conversing (on_chat (R := R) clear_pending_entry).
Proof. apply on_chat_ok, clear_entry_ok. Qed.
#[local] Instance send_line_talks {R} line : keeps conversing (send_line (R := R) line).
Proof. unfold send_line. keep. Qed.
#[local] Instance send_message_talks {R} text : keeps conversing (send_chat_message (R := R) text).
Proof. unfold send_chat_message. keep. Qed.

#[local] Instance leave_talks {R} b : keeps conversing (leave_chat_session (R := R) b).
Proof.
  unfold leave_chat_session. apply E_keeps_bind; [keep|]. intros k. apply E_keeps_bind; [|intros _; keep].
  apply on_chat_ok. intros user k' _. apply closed_ok.
Qed.
#[local] Instance leave_input_talks {R} b : keeps conversing (leave_chat_input_mode (R := R) b).
Proof. unfold leave_chat_input_mode. keep. Qed.

#[local] Instance enter_talks {R} scope target : keeps conversing (request_chat_entry (R := R) scope target).
Proof.
  apply keeps_leads. intros user k Hk. unfold request_chat_entry. apply leads_fn, leads_account.
  2:{ apply leads_keeps; [done|]. intros c Hc. exact Hc. }
  intros Hu. apply leads_return_if; [done|]. intros _. apply leads_chat, leads_user.
  destruct (is_empty target || bool_decide (scope = NoChat)) eqn:E1; [apply leads_keeps; [done|keep]|].
  destruct (has_active_chat k || chat_input_active k) eqn:E2; [apply leads_keeps; [done|keep]|].
  destruct (chat_entry_pending k); [apply leads_keeps; [done|keep]|].
  destruct (bool_decide (scope = Private) && (target =s? user)); [apply leads_keeps; [done|keep]|].
  apply orb_false_iff in E1 as [Ht Hs%bool_decide_eq_false], E2 as [Ha Hi].
  apply leads_change; [apply asked_ok; try done; by intros ->|keep].
Qed.

#[local] Instance ok_talks {R} words : keeps conversing (consume_ok (R := R) words).
Proof.
  unfold consume_ok. destruct words as [|w0 [|w1 [|w2 words]]]; [keep..| |keep].
  apply keeps_chat. intros user k Hk. cbv zeta.
  destruct (_ || negb (w1 =s? _)) eqn:E; [apply leads_keeps; [done|keep]|]. case_bools.
  rewrite ?bool_decide_eq_false, ?bool_decide_eq_true in *.
  apply leads_change; [|keep]. subst w1. replace (scope_of w0) with (pending_chat_scope k). by apply entered_ok.
Qed.

#[local] Instance error_talks {R} words : keeps conversing (consume_error (R := R) words).
Proof. unfold consume_error. keep. Qed.

#[local] Instance select_talks {R} : keeps conversing (begin_chat_mode_selection (R := R)).
Proof.
  apply keeps_chat. intros user k Hk. destruct (chat_entry_pending k); [apply leads_keeps; [done|keep]|].
  destruct (has_active_chat k) eqn:Ea; cbn [negb]; [|apply leads_keeps; [done|keep]].
  apply leads_change; [by apply selecting_ok|keep].
Qed.

#[local] Instance selection_talks {R} line : keeps conversing (handle_chat_mode_selection_input (R := R) line).
Proof.
  apply keeps_chat. intros user k Hk. destruct (chat_mode_selection_active k) eqn:Es; cbn [negb];
    [|apply leads_keeps; [done|keep]]. cbv zeta.
  destruct (_ || _); [apply leads_keeps; [done|keep]|].
  destruct (_ =s? "1"); [apply leads_change; [by apply instant_ok|keep]|].
  destruct (_ =s? "2"); [apply leads_change; [by apply multiline_ok|keep]|]. apply leads_keeps; [done|keep].
Qed.

Lemma finished_ok user k b :
  chat_ok user k -> chat_input_mode k = MultiLine -> chat_ok user (set_chat_multiline_finished b k).
Proof. intros [] Hm. split; simpl; try done. Qed.

Lemma send_message_at {R} user k text : keeps (at_state user k) (send_chat_message (R := R) text).
Proof. unfold send_chat_message. keep. Qed.

Lemma send_typed_leads {R} user k :
  chat_ok user k -> chat_input_mode k = MultiLine -> leads user k (send_typed (R := R)).
Proof.
  intros Hk Hm. unfold send_typed. apply leads_fn, leads_chat. cbv zeta.
  apply leads_bind; [apply send_message_at| |done]. intros sent. apply leads_return_if; [done|]. intros _.
  destruct (_ && _).
  - intros c Hc. unfold mbind at 1, E_bind at 1.
    enough (leads (R := bool) user k (on_chat (fun k => set_chat_multiline_finished false (set_chat_message_lines [] k)) ;;
      say ("[长文本] 已加入发送队列，可以继续输入下一条长文本。" +:+ nl))) as Hl by exact (Hl c Hc).
    apply leads_change; [by apply text_ok|keep].
  - by apply leads_keeps; [|keep].
Qed.

(** A line that makes the text too long is taken back. *)
Lemma append_leads {R} user k line :
  chat_ok user k -> chat_input_mode k = MultiLine ->
  leads user k (
    on_chat (R := R) (fun k => set_chat_message_lines (chat_message_lines k ++ [line]) k) ;;
    (if (kMaxEditableChatMessage <? strlen (join_message_lines (chat_message_lines k ++ [line])))%Z then
       on_chat (set_chat_message_lines (chat_message_lines k)) ;;
       say ("[本地错误] 加入这一行后会超过单条消息 1000 字节，" +:+ "本行未加入缓冲区。" +:+ nl)
     else mret tt) ;;
    mret true).
Proof.
  intros Hk Hm c Hc.
  destruct (Z.ltb_spec kMaxEditableChatMessage (strlen (join_message_lines (chat_message_lines k ++ [line])))) as [|Hle].
  - destruct Hc as [<- <-]. unfold conversing. simpl. by destruct (chat c).
  - destruct Hc as [<- <-]. unfold conversing. simpl. destruct Hk. split; simpl; try done.
Qed.

Lemma multiline_leads {R} user k line cleaned :
  chat_ok user k -> chat_input_mode k = MultiLine -> leads user k (multiline_input (R := R) line cleaned).
Proof.
  intros Hk Hm. apply leads_chat. destruct (_ || _).
  { apply leads_change; [by apply text_ok|keep]. }
  destruct (chat_multiline_finished k).
  { destruct (_ || _); [by apply send_typed_leads|]. destruct (_ =s? "继续"); [|by apply leads_keeps; [|keep]].
    apply leads_change; [by apply finished_ok|keep]. }
  destruct (_ =s? "结束").
  { destruct (chat_message_lines k); [by apply leads_keeps; [|keep]|]. apply leads_change; [by apply finished_ok|keep]. }
  destruct (_ || _); [by apply send_typed_leads|by apply append_leads].
Qed.

#[local] Instance message_talks {R} line : keeps conversing (handle_chat_message_input (R := R) line).
Proof.
  apply keeps_chat. intros user k Hk. cbv zeta. destruct (chat_input_mode k) eqn:Em; [apply leads_keeps; [done|keep]| |].
  - apply leads_keeps; [done|keep].
  - destruct (_ =s? "/quit"); [apply leads_keeps; [done|keep]|].
    destruct (_ || _); [apply leads_keeps; [done|keep]|by apply multiline_leads].
Qed.

#[local] Instance conversing_leaving : Leaving conversing.
Proof. split; intros; exact _. Qed.
#[local] Instance conversing_responds : Responds conversing.
Proof. split; intros. unfold consume_chat_entry_response. keep. Qed.
#[local] Instance conversing_conversations : Conversations conversing.
Proof. split; intros; exact _. Qed.

#[local] Instance conversing_sessions `{FileUtils.DigestEngine} : Sessions conversing.
Proof.
  split; intros.
  - unfold complete_login. apply keeps_bind_gets. intros c Hc. destruct (is_empty (pending_login_username c)) eqn:Ep; [done|].
    unfold mbind at 1, E_bind at 1. cbn [change].
    enough (keeps conversing (say (R := R) ("[本地] SQLite 缓存账户：" +:+ pending_login_username c +:+ nl) ;;
      load_and_resume_pending_uploads ;; mret tt)) as Hk.
    { apply Hk. destruct Hc as [H1 H2 H3 H4 H5 H6 H7 H8]. split; try done. simpl. intros _ E.
      rewrite E in Ep. done. }
    keep.
  - unfold end_session, leave_chat_session. intros c Hc. unfold conversing. simpl. apply closed_ok.
Qed.

Lemma run_conversing `{FileUtils.DigestEngine} `{ClientEnv} its c : conversing c -> conversing (run its c).
Proof. apply run_keeps. Qed.

(** ** Opening a conversation *)

(** The line confirms what was asked for at [k]. *)
Definition confirms (k : Chat) (line : string) : Prop :=
  chat_entry_pending k = true /\ starts_with line ok_prefix = true /\
  exists w0 w1, Protocol.split_words (str_drop (String.length ok_prefix) line) = [w0; w1] /\
    scope_of w0 = pending_chat_scope k /\ w1 = pending_chat_target k.

(** The conversation of [k'] is none, that of [k], or in [P]. *)
Definition same_or (k : Chat) (P : ClientChatScope -> string -> Prop) (k' : Chat) : Prop :=
  chat_scope k' = NoChat \/ (chat_scope k' = chat_scope k /\ chat_target k' = chat_target k) \/
  P (chat_scope k') (chat_target k').

Section SameOr.
Context (k : Chat) (P : ClientChatScope -> string -> Prop).
#[local] Abbreviation J := (fun c => same_or k P (chat c)).

#[local] Instance same_or_outer : Outer J.
Proof. split; intros x c Hc; exact Hc. Qed.
#[local] Instance same_or_disk : Ignores J set_disk.
Proof. intros x c Hc. exact Hc. Qed.
#[local] Instance same_or_cache : Ignores J set_cache.
Proof. intros x c Hc. exact Hc. Qed.
#[local] Instance same_or_transfers : Ignores J set_transfers.
Proof. intros x c Hc. exact Hc. Qed.
#[local] Instance same_or_buffer : Ignores J set_server_buffer_.
Proof. intros x c Hc. exact Hc. Qed.
#[local] Instance same_or_user : Ignores J set_active_username.
Proof. intros x c Hc. exact Hc. Qed.

(** Changes that leave the conversation alone. *)
Class SameChat (f : Chat -> Chat) : Prop :=
  same_chat : forall k, chat_scope (f k) = chat_scope k /\ chat_target (f k) = chat_target k.
#[local] Hint Extern 1 (SameChat _) => (intros ?; split; reflexivity) : typeclass_instances.
#[local] Instance same_chat_keeps {R} f : SameChat f -> keeps J (on_chat (R := R) f).
Proof.
  intros Hf c Hc. unfold same_or. simpl. destruct (Hf (chat c)) as [-> ->]. exact Hc.
Qed.

#[local] Instance same_or_leaving : Leaving J.
Proof.
  split. intros R b. unfold leave_chat_session. apply E_keeps_bind; [keep|]. intros k'.
  apply E_keeps_bind; [|intros _; keep]. intros c Hc. by left.
Qed.

#[local] Instance same_or_input {R} b : keeps J (leave_chat_input_mode (R := R) b).
Proof. unfold leave_chat_input_mode. keep. Qed.
#[local] Instance same_or_send {R} text : keeps J (send_chat_message (R := R) text).
Proof. unfold send_chat_message. keep. Qed.
#[local] Instance same_or_send_line {R} text : keeps J (send_line (R := R) text).
Proof. unfold send_line. keep. Qed.
#[local] Instance same_or_typed {R} : keeps J (send_typed (R := R)).
Proof. unfold send_typed. keep. Qed.
#[local] Instance same_or_multiline {R} line cleaned : keeps J (multiline_input (R := R) line cleaned).
Proof. unfold multiline_input. keep. Qed.
#[local] Instance same_or_conversations : Conversations J.
Proof.
  split; intros.
  - unfold request_chat_entry. keep.
  - unfold begin_chat_mode_selection. keep.
  - unfold handle_chat_mode_selection_input. keep.
  - unfold handle_chat_message_input. keep.
Qed.
#[local] Instance same_or_sessions `{FileUtils.DigestEngine} : Sessions J.
Proof.
  split; intros; [exact _|]. unfold end_session. apply E_keeps_bind; [keep|]. intros _.
  apply E_keeps_bind; [apply set_user_any|]. intros _. apply E_keeps_bind; [apply any_transfers|intros _; keep].
Qed.

Lemma typed_same `{FileUtils.DigestEngine} `{ClientEnv} line c : J c -> J (handle_user_input (R := unit) line c).2.
Proof. apply (user_input_keeps (R := unit) line). Qed.
Lemma deferred_same `{FileUtils.DigestEngine} `{ClientEnv} {R} : keeps J (flush_deferred_chat_items (R := R)).
Proof. keep. Qed.
Lemma notice_same `{FileUtils.DigestEngine} `{ClientEnv} {R} line : keeps J (notice_line (R := R) line).
Proof. keep. Qed.
Lemma visibility_same `{FileUtils.DigestEngine} `{ClientEnv} {R} line : keeps J (handle_chat_message_visibility (R := R) line).
Proof. keep. Qed.
End SameOr.

(** Code that does not touch the conversation at all. *)
Section Untouched.
Context (k : Chat).
#[local] Abbreviation U := (fun c => chat c = k).
#[local] Instance untouched_outer : Outer U.
Proof. split; intros x c Hc; exact Hc. Qed.
#[local] Instance untouched_disk : Ignores U set_disk.
Proof. intros x c Hc. exact Hc. Qed.
#[local] Instance untouched_cache : Ignores U set_cache.
Proof. intros x c Hc. exact Hc. Qed.
#[local] Instance untouched_transfers : Ignores U set_transfers.
Proof. intros x c Hc. exact Hc. Qed.
#[local] Instance untouched_buffer : Ignores U set_server_buffer_.
Proof. intros x c Hc. exact Hc. Qed.

Lemma beat_untouched {R} line : keeps U (consume_protocol_line (R := R) line).
Proof. keep. Qed.
Lemma file_untouched `{FileUtils.DigestEngine} {R} line : keeps U (handle_file_protocol_line (R := R) line).
Proof. keep. Qed.
Lemma request_untouched {R} line : keeps U (handle_group_request_protocol_line (R := R) line).
Proof. keep. Qed.
End Untouched.

(** A line that is not refused opens the conversation it confirms. *)
Lemma ok_opens {R} line c :
  starts_with line ok_prefix = true ->
  same_or (chat c) (fun scope target => confirms (chat c) line /\ scope = pending_chat_scope (chat c) /\
    target = pending_chat_target (chat c))
    (chat (consume_ok (R := R) (Protocol.split_words (str_drop (String.length ok_prefix) line)) c).2).
Proof.
  intros Hl. unfold consume_ok. destruct (Protocol.split_words _) as [|w0 [|w1 [|w2 words]]] eqn:Ew;
    [right; left; done..| |right; left; done].
  unfold mbind at 1, E_bind at 1. cbn [gets].
  destruct (_ || negb (w1 =s? _)) eqn:E; [by right; left|]. case_bools.
  rewrite ?bool_decide_eq_false, ?bool_decide_eq_true in *. right; right. simpl. split_and!; try done.
  split_and!; try done. by exists w0, w1.
Qed.

Lemma error_same {R} words c : chat_scope (chat (consume_error (R := R) words c).2) = chat_scope (chat c) /\
  chat_target (chat (consume_error (R := R) words c).2) = chat_target (chat c).
Proof.
  enough (keeps (fun c' => chat_scope (chat c') = chat_scope (chat c) /\ chat_target (chat c') = chat_target (chat c))
    (consume_error (R := R) words)) as Hk by by apply Hk.
  assert (forall R text, keeps (fun c' => chat_scope (chat c') = chat_scope (chat c) /\ chat_target (chat c') = chat_target (chat c))
    (say (R := R) text)) as Hs by (intros R' text c' Hc; exact Hc).
  assert (forall R, keeps (fun c' => chat_scope (chat c') = chat_scope (chat c) /\ chat_target (chat c') = chat_target (chat c))
    (on_chat (R := R) clear_pending_entry)) as Hc by (intros R' c' Hc; exact Hc).
  unfold consume_error. keep.
Qed.

Lemma response_opens {R} line c :
  same_or (chat c) (fun scope target => confirms (chat c) line /\ scope = pending_chat_scope (chat c) /\
    target = pending_chat_target (chat c)) (chat (consume_chat_entry_response (R := R) line c).2).
Proof.
  unfold consume_chat_entry_response. destruct (starts_with line ok_prefix) eqn:Eo.
  { pose proof (ok_opens (R := R) line c Eo) as Ho. unfold mbind, E_bind. by destruct (consume_ok _ c) as [[r|u] c']. }
  destruct (starts_with line error_prefix); [|by right; left].
  pose proof (error_same (R := R) (Protocol.split_words (str_drop (String.length error_prefix) line)) c) as He.
  unfold mbind, E_bind. destruct (consume_error _ c) as [[r|u] c']; right; by left.
Qed.

(** A step that leaves [k] as it is, before code that ends in [Q] from [k]. *)
Lemma after_untouched {R A B} k (m : E R A) (r : A -> E R B) (Q : Client -> Prop) :
  keeps (fun c => chat c = k) m -> (forall c, chat c = k -> Q c) ->
  (forall a c, chat c = k -> Q (r a c).2) -> forall c, chat c = k -> Q ((m ≫= r) c).2.
Proof.
  intros Hm Hq Hr c Hc. specialize (Hm c Hc). unfold mbind, E_bind. destruct (m c) as [[e|a] c']; [by apply Hq|by apply Hr].
Qed.

Section Line.
Context `{FileUtils.DigestEngine} `{ClientEnv}.

Lemma line_opens {R} line k c :
  chat c = k ->
  same_or k (fun scope target => confirms k line /\ scope = pending_chat_scope k /\ target = pending_chat_target k)
    (chat (process_server_line (R := R) line c).2).
Proof.
  set (P := fun scope target => _). assert (forall c, chat c = k -> same_or k P (chat c)) as Hrefl.
  { intros c' <-. by right; left. }
  unfold process_server_line, fn. intros Hc.
  match goal with |- same_or _ _ (chat (match ?m c with _ => _ end).2) =>
    enough (same_or k P (chat (m c).2)) as Hm by (by destruct (m c) as [[[]|[]] c']) end.
  revert c Hc. apply (after_untouched k _ _ (fun c => same_or k P (chat c))); [apply beat_untouched|done|]. intros beat.
  apply (after_untouched k _ _ (fun c => same_or k P (chat c))); [apply keeps_return_if|done|]. intros _.
  apply (after_untouched k _ _ (fun c => same_or k P (chat c))); [apply file_untouched|done|]. intros file.
  apply (after_untouched k _ _ (fun c => same_or k P (chat c))); [apply keeps_return_if|done|]. intros _.
  apply (after_untouched k _ _ (fun c => same_or k P (chat c))); [apply request_untouched|done|]. intros request.
  apply (after_untouched k _ _ (fun c => same_or k P (chat c))); [apply keeps_return_if|done|]. intros _.
  intros c Hc. pose proof (response_opens (R := unit) line c) as Hr. rewrite Hc in Hr. fold P in Hr.
  unfold mbind at 1, E_bind at 1. destruct (consume_chat_entry_response line c) as [[e|entry] c1]; simpl in Hr; [done|].
  enough (keeps (fun c => same_or k P (chat c)) (if entry : bool then
    k0 ← gets chat; (if has_active_chat k0 then flush_deferred_chat_items else mret tt) ;; request_menu_refresh
    else message ← handle_chat_message_visibility line; return_if message tt ;; notice_line line : E unit unit)) as Hk
    by exact (Hk c1 Hr).
  pose proof (deferred_same (R := unit) k P). pose proof (notice_same (R := unit) k P line).
  pose proof (visibility_same (R := unit) k P line).
  assert (keeps (fun c => same_or k P (chat c)) (request_menu_refresh (R := unit))) by (intros c' Hc'; exact Hc').
  keep.
Qed.
End Line.

Lemma new_conversing root store fs t now clocks steadies random :
  conversing (new_client root store fs t now clocks steadies random).
Proof. apply no_chat_ok. Qed.

(** C20: a conversation is confirmed before it is used.  In every run the input of
    the client is in a state of [chat_ok]; a line of the server opens a
    conversation only when it confirms the one the user asked for and is waiting
    for, and otherwise leaves the open one or closes it; a typed line never opens
    one. *)
Theorem conversation_confirmed `{FileUtils.DigestEngine} `{ClientEnv} root store fs t now clocks steadies random its :
  let c := run its (new_client root store fs t now clocks steadies random) in
  chat_ok (active_username c) (chat c) /\
  (forall line, let k' := chat (process_server_line (R := unit) line c).2 in
     chat_scope k' = NoChat \/ (chat_scope k' = chat_scope (chat c) /\ chat_target k' = chat_target (chat c)) \/
     (confirms (chat c) line /\ chat_scope k' = pending_chat_scope (chat c) /\
      chat_target k' = pending_chat_target (chat c))) /\
  (forall line, let k' := chat (handle_user_input (R := unit) line c).2 in
     chat_scope k' = NoChat \/ (chat_scope k' = chat_scope (chat c) /\ chat_target k' = chat_target (chat c))).
Proof.
  intros c. assert (conversing c) as Hc by apply run_conversing, new_conversing. clearbody c. split_and!.
  - exact Hc.
  - intros line. exact (line_opens line (chat c) c eq_refl).
  - intros line k'. destruct (typed_same (chat c) (fun _ _ => False) line c) as [Hn|[Hs|[]]]; [by right; left|by left|by right].
Qed.
End ClientConversation.
