(* ===== verification/ClientDownload.v ===== *)
(** * A download from the server's pump to the client's file

    The two ends composed: the bytes a [FileDeliveryPump] sends are cut at any
    places, given to the client piece by piece, and end as the file. *)
From S2P Require Import Prelude Protocol FileUtils FileService FileServiceProps LocalStore ClientTransport ClientState.
From S2P Require Import ClientFiles ClientChat ClientApp ClientLogic.
Import FileServiceProps ClientState ClientFiles ClientChat ClientApp ClientLogic.

Module ClientDownload.

(** ** Steps of code *)

Lemma bind_ok {R A B} (m : E R A) (k : A -> E R B) c a c' : m c = (inr a, c') -> (m ≫= k) c = k a c'.
Proof. intros E. unfold mbind, E_bind. by rewrite E. Qed.
Lemma fn_inr {R A} (m : E A A) c a c' : m c = (inr a, c') -> fn (R := R) m c = (inr a, c').
Proof. intros E. unfold fn. by rewrite E. Qed.

Lemma fn_state {R A} (m : E A A) c : (fn (R := R) m c).2 = (m c).2.
Proof. unfold fn. by destruct (m c) as [[a|a] c']. Qed.
Lemma bind_bind {R A B C} (m : E R A) (k : A -> E R B) (l : B -> E R C) c :
  ((m ≫= k) ≫= l) c = (m ≫= (fun a => k a ≫= l)) c.
Proof. unfold mbind, E_bind. by destruct (m c) as [[r|a] c']. Qed.

(** A step that needs no argument: reading or changing the client. *)
Ltac step := erewrite bind_ok by reflexivity; cbv beta.

(** ** Lines and the buffer *)

Definition not_newline (c : ascii) : bool := negb (in_range 10 10 c).

(** What has arrived of a line and what follows it. *)
Lemma first_line L b more rest :
  str_forall not_newline L = true -> b +:+ more = L +:+ nl +:+ rest ->
  find_first (in_range 10 10) b = None \/
  exists b2, b = L +:+ nl +:+ b2 /\ b2 +:+ more = rest /\ find_first (in_range 10 10) b = Some (String.length L).
Proof.
  intros HL E. destruct (decide (String.length b <= String.length L)) as [Hle|Hlt].
  - left. apply find_first_none. assert (b = str_take (String.length b) L) as ->.
    { rewrite <- (str_take_app_le (String.length b) L (nl +:+ rest)) by done. by rewrite <- E, str_take_app_length. }
    by apply str_forall_take.
  - right. assert (str_drop (String.length L) b +:+ more = nl +:+ rest) as E2.
    { rewrite <- str_drop_app_le by lia. by rewrite E, str_drop_app_length. }
    assert (str_take (String.length L) b = L) as E1.
    { rewrite <- (str_take_app_le (String.length L) b more) by lia. by rewrite E, str_take_app_length. }
    destruct (str_drop (String.length L) b) as [|c b2] eqn:Ed.
    { apply (f_equal String.length) in Ed. rewrite str_drop_length in Ed. simpl in Ed. lia. }
    simpl in E2. injection E2 as -> E3. exists b2.
    assert (b = L +:+ nl +:+ b2) as Eb by (by rewrite <- (str_take_drop (String.length L) b), E1, Ed).
    split_and!; [done|done|]. rewrite Eb. change (nl +:+ b2) with (String "010" b2). by apply find_first_app.
Qed.

Lemma newline_found L rest : find_first (in_range 10 10) (L +:+ nl +:+ rest) <> None.
Proof.
  intros E. induction L as [|c L IH]; [done|]. rewrite str_app_cons in E. simpl in E.
  destruct (in_range 10 10 c); [done|]. apply IH. by destruct (find_first _ _).
Qed.

(** The bytes of a frame that have arrived. *)
Lemma payload_split b more piece tail n :
  n <= String.length b -> n <= String.length piece -> b +:+ more = piece +:+ tail ->
  str_take n b = str_take n piece /\ str_drop n b +:+ more = str_drop n piece +:+ tail.
Proof.
  intros Hb Hp E. split.
  - by rewrite <- (str_take_app_le n b more), E, str_take_app_le.
  - by rewrite <- !str_drop_app_le, E.
Qed.

Lemma str_drop_take n m s : str_drop n (str_take m s) = str_take (m - n) (str_drop n s).
Proof. revert m s. induction n as [|n IH]; intros [|m] [|c s]; simpl; try done. by destruct (m - n). Qed.

Lemma substr_drop n m k s : str_drop k (substr n m s) = substr (n + k) (m - k) s.
Proof. unfold substr. by rewrite str_drop_take, str_drop_drop. Qed.

(** ** Words of the protocol *)

Lemma number_word n : (0 <= n)%Z -> Protocol.is_word (to_string n) = true.
Proof.
  intros Hn. destruct (to_string_spec n Hn) as (Hne & Hd & _). unfold Protocol.is_word.
  rewrite is_empty_false by done. eapply str_forall_impl; [|exact Hd]. intros c. byte_cases c.
Qed.

Lemma trim_words ws :
  Forall (fun w => Protocol.is_word w = true) ws -> Protocol.trim (Protocol.join_words ws) = Protocol.join_words ws /\
  (ws <> [] -> Protocol.join_words ws <> "").
Proof.
  induction 1 as [|w ws Hw Hws [IH1 IH2]]; [done|]. assert (w <> "") as Hne by (by intros ->).
  destruct ws as [|w' ws].
  - simpl. split; [|done]. apply Protocol.trim_word. unfold Protocol.is_word in Hw. by apply andb_true_iff in Hw as [_ Hw].
  - change (Protocol.join_words (w :: w' :: ws)) with (w +:+ String " " (Protocol.join_words (w' :: ws))).
    split; [by apply Protocol.trim_app; [|apply IH2|]|]. intros _. destruct w; done.
Qed.

(** A line of the server with its words. *)
Lemma parse_line name ws :
  Protocol.is_word name = true -> ws <> [] -> Forall (fun w => Protocol.is_word w = true) ws ->
  Protocol.parse_command (name +:+ String " " (Protocol.join_words ws)) =
    Protocol.mkCommand (Protocol.to_upper_ascii name) (Protocol.join_words ws) /\
  Protocol.split_words (Protocol.join_words ws) = ws.
Proof.
  intros Hn Hne Hws. destruct (trim_words ws Hws) as [Ht He]. split; [|by apply Protocol.split_words_join].
  apply Protocol.parse_command_line; auto.
Qed.

Lemma parse_number n : (0 <= n < 2 ^ 64)%Z -> parse_uint64 (to_string n) = Some n.
Proof.
  intros Hn. unfold parse_uint64. destruct (to_string_spec n) as (Hne & _); [lia|]. rewrite is_empty_false by done.
  by rewrite from_chars_to_string.
Qed.

Definition line_char (c : ascii) : bool := not_newline c && negb (bool_decide (c = "013"%char)).
Lemma digit_line_char c : isdigit c = true -> line_char c = true.
Proof. byte_cases c. Qed.
Lemma number_chars n : (0 <= n)%Z -> str_forall line_char (to_string n) = true.
Proof. intros Hn. destruct (to_string_spec n Hn) as (_ & Hd & _). eapply str_forall_impl; [apply digit_line_char|done]. Qed.

Lemma str_nth_forall p s n c : str_forall p s = true -> str_nth n s = Some c -> p c = true.
Proof.
  revert n. induction s as [|d s IH]; intros n; simpl; [by destruct n|]. rewrite andb_true_iff. intros [Hd Hs].
  destruct n; [by intros [= ->]|by apply IH].
Qed.

Lemma without_cr_line L : str_forall line_char L = true -> without_cr L = L.
Proof.
  intros HL. unfold without_cr. destruct (String.length L) as [|n]; [done|]. case_bool_decide as Hc; [|done].
  exfalso. by apply (str_nth_forall _ _ _ _ HL) in Hc.
Qed.
Lemma line_no_newline L : str_forall line_char L = true -> str_forall not_newline L = true.
Proof. apply str_forall_impl. intros c. unfold line_char. by intros [Hc _]%andb_true_iff. Qed.

(** ** Lines of the file protocol at the client *)

Section Lines.
Context `{FileUtils.DigestEngine} `{ClientEnv}.

Lemma server_line_returns {R} line c : (process_server_line (R := R) line c).1 = inr tt.
Proof. unfold process_server_line, fn. by match goal with |- context [match ?m with _ => _ end] => destruct m as [[[]|[]] c'] end. Qed.

Lemma file_line {R} line c command :
  Protocol.parse_command line = command ->
  (Protocol.cmd_name command =s? "PONG") = false -> (Protocol.cmd_name command =s? "PING") = false ->
  (handle_file_protocol_line (R := unit) line c).1 = inr true ->
  (process_server_line (R := R) line c).2 = (handle_file_protocol_line (R := unit) line c).2.
Proof.
  intros Hp H1 H2 Hf. unfold process_server_line, fn, mbind, E_bind at 1.
  unfold consume_protocol_line. rewrite Hp, H1, H2. cbn [mret E_ret return_if].
  unfold E_bind at 1. cbn [mret E_ret]. unfold E_bind at 1.
  destruct (handle_file_protocol_line line c) as [[r|b] c1]; simpl in *; [done|]. by injection Hf as ->.
Qed.

(** What the lines of a download are handed to. *)
Lemma dispatched {R} line name raw words :
  Protocol.parse_command line = Protocol.mkCommand name raw -> Protocol.split_words raw = words ->
  handle_file_protocol_line (R := R) line =
    if name =s? "FILE_DATA" then handle_data words ;; mret true
    else if name =s? "FILE_RESUME_START" then handle_resume_start words ;; mret true
    else if name =s? "FILE_DONE" then handle_done words ;; mret true
    else handle_file_protocol_line line.
Proof.
  intros Hp Hw. unfold handle_file_protocol_line. rewrite Hp. cbn [Protocol.cmd_name Protocol.raw_arguments]. rewrite Hw.
  destruct (name =s? "FILE_DATA") eqn:E1; [by apply String.eqb_eq in E1 as ->|].
  destruct (name =s? "FILE_RESUME_START") eqn:E2; [by apply String.eqb_eq in E2 as ->|].
  destruct (name =s? "FILE_DONE") eqn:E3; [by apply String.eqb_eq in E3 as ->|done].
Qed.

(** The lines of a transfer [id]. *)
Definition data_line (id offset count : Z) : string :=
  "FILE_DATA" +:+ String " " (Protocol.join_words [to_string id; to_string offset; to_string count]).
Definition start_text (id offset : Z) : string :=
  "FILE_RESUME_START" +:+ String " " (Protocol.join_words [to_string id; to_string offset]).
Definition done_line (id : Z) : string := "FILE_DONE" +:+ String " " (Protocol.join_words [to_string id]).

Lemma parse_data id offset count :
  (0 <= id)%Z -> (0 <= offset)%Z -> (0 <= count)%Z ->
  Protocol.parse_command (data_line id offset count) =
    Protocol.mkCommand "FILE_DATA" (Protocol.join_words [to_string id; to_string offset; to_string count]) /\
  Protocol.split_words (Protocol.join_words [to_string id; to_string offset; to_string count]) =
    [to_string id; to_string offset; to_string count].
Proof. intros. apply (parse_line "FILE_DATA"); [done|done|]. repeat constructor; by apply number_word. Qed.
Lemma parse_start id offset :
  (0 <= id)%Z -> (0 <= offset)%Z ->
  Protocol.parse_command (start_text id offset) =
    Protocol.mkCommand "FILE_RESUME_START" (Protocol.join_words [to_string id; to_string offset]) /\
  Protocol.split_words (Protocol.join_words [to_string id; to_string offset]) = [to_string id; to_string offset].
Proof. intros. apply (parse_line "FILE_RESUME_START"); [done|done|]. repeat constructor; by apply number_word. Qed.
Lemma parse_done id :
  (0 <= id)%Z ->
  Protocol.parse_command (done_line id) = Protocol.mkCommand "FILE_DONE" (Protocol.join_words [to_string id]) /\
  Protocol.split_words (Protocol.join_words [to_string id]) = [to_string id].
Proof. intros. apply (parse_line "FILE_DONE"); [done|done|]. repeat constructor; by apply number_word. Qed.

Lemma data_chars id offset count :
  (0 <= id)%Z -> (0 <= offset)%Z -> (0 <= count)%Z -> str_forall line_char (data_line id offset count) = true.
Proof.
  intros. unfold data_line. simpl Protocol.join_words. rewrite str_forall_app. simpl.
  rewrite str_forall_app, number_chars by done. simpl. rewrite str_forall_app, number_chars by done. simpl.
  by rewrite number_chars.
Qed.
Lemma start_chars id offset :
  (0 <= id)%Z -> (0 <= offset)%Z -> str_forall line_char (start_text id offset) = true.
Proof.
  intros. unfold start_text. simpl Protocol.join_words. rewrite str_forall_app. simpl.
  rewrite str_forall_app, number_chars by done. simpl. by rewrite number_chars.
Qed.
Lemma done_chars id : (0 <= id)%Z -> str_forall line_char (done_line id) = true.
Proof. intros. unfold done_line. simpl Protocol.join_words. rewrite str_forall_app. simpl. by rewrite number_chars. Qed.

(** A header opens a frame. *)
Lemma data_opens {R} id offset count d c :
  (0 <= id < 2 ^ 64)%Z -> (0 <= offset)%Z -> (0 < count <= kFileFrameBytes)%Z ->
  downloads (transfers c) !! id = Some d -> received_size d = offset ->
  (offset + count <= expected_size d)%Z -> (expected_size d < 2 ^ 64)%Z ->
  remaining_bytes (binary_download (transfers c)) = 0%Z ->
  (process_server_line (R := R) (data_line id offset count) c).2 =
    set_transfers (set_binary_download (mkBinary id count) (transfers c)) c.
Proof.
  intros Hid Ho Hc Hd Hr He Hm Hb. destruct (parse_data id offset count) as [Hp Hw]; [lia..|].
  assert (handle_data (R := unit) [to_string id; to_string offset; to_string count] c =
    (inr tt, set_transfers (set_binary_download (mkBinary id count) (transfers c)) c)) as Hh.
  { unfold handle_data. rewrite !parse_number by (unfold kFileFrameBytes in *; lia).
    unfold mbind, E_bind. cbn [gets]. rewrite Hb, Hd, Hr.
    destruct (Z.eqb_spec count 0); [lia|]. destruct (Z.ltb_spec kFileFrameBytes count); [lia|].
    rewrite !Z.eqb_refl. cbn [negb orb]. unfold wrap. rewrite Z.mod_small by lia.
    by destruct (Z.ltb_spec (expected_size d) (offset + count)); [lia|]. }
  assert (handle_file_protocol_line (R := unit) (data_line id offset count) c =
    (inr true, set_transfers (set_binary_download (mkBinary id count) (transfers c)) c)) as Hf.
  { rewrite (dispatched _ _ _ _ Hp Hw). cbn [String.eqb Ascii.eqb Bool.eqb]. unfold mbind, E_bind. by rewrite Hh. }
  rewrite (file_line _ _ _ Hp); [by rewrite Hf|done|done|by rewrite Hf].
Qed.

(** The server starts where the client stands. *)
Lemma start_agrees {R} id offset d c :
  (0 <= id < 2 ^ 64)%Z -> (0 <= offset < 2 ^ 64)%Z -> downloads (transfers c) !! id = Some d -> received_size d = offset ->
  (process_server_line (R := R) (start_text id offset) c).2 = c.
Proof.
  intros Hid Ho Hd Hr. destruct (parse_start id offset) as [Hp Hw]; [lia..|].
  assert (handle_file_protocol_line (R := unit) (start_text id offset) c = (inr true, c)) as Hf.
  { rewrite (dispatched _ _ _ _ Hp Hw). cbn [String.eqb Ascii.eqb Bool.eqb]. unfold handle_resume_start.
    rewrite !parse_number by done. unfold mbind, E_bind. cbn [gets]. by rewrite Hd, Hr, Z.eqb_refl. }
  rewrite (file_line _ _ _ Hp); [by rewrite Hf|done|done|by rewrite Hf].
Qed.

(** The client is told that everything was sent. *)
Lemma done_finishes {R} id c :
  (0 <= id < 2 ^ 64)%Z ->
  (process_server_line (R := R) (done_line id) c).2 = (finish_incoming_download (R := unit) id c).2.
Proof.
  intros Hid. destruct (parse_done id) as [Hp Hw]; [lia|].
  assert (exists b, (finish_incoming_download (R := unit) id c).1 = inr b) as [b Hb].
  { unfold finish_incoming_download, fn.
    match goal with |- context [match ?m with _ => _ end] => destruct m as [[b|b] c']; by exists b end. }
  assert (handle_file_protocol_line (R := unit) (done_line id) c = (inr true, (finish_incoming_download (R := unit) id c).2)) as Hf.
  { rewrite (dispatched _ _ _ _ Hp Hw). cbn [String.eqb Ascii.eqb Bool.eqb]. unfold handle_done.
    rewrite !parse_number by done. unfold mbind, E_bind.
    by destruct (finish_incoming_download id c) as [[r|r] c']; simpl in Hb. }
  rewrite (file_line _ _ _ Hp); [by rewrite Hf|done|done|by rewrite Hf].
Qed.

(** ** The bytes of a frame *)

Lemma wrap_small w z : (0 <= z < 2 ^ w)%Z -> wrap w z = z.
Proof. apply Z.mod_small. Qed.

(** A disk that works does what is asked. *)
Lemma fs_call_ok {A} (f : FileService.Fs -> (string + A) * FileService.Fs) partial fs :
  FileService.fs_faults fs = [] -> FileService.fs_call f partial fs = f fs.
Proof. intros Hf. unfold FileService.fs_call. by rewrite Hf. Qed.

Lemma bind_disk {R A B} f partial (k : string + A -> E R B) c :
  FileService.fs_faults (disk c) = [] ->
  (on_disk (FileService.fs_call f partial) ≫= k) c = k (f (disk c)).1 (set_disk (f (disk c)).2 c).
Proof. intros Hf. unfold mbind, E_bind, on_disk. by rewrite fs_call_ok. Qed.

Definition appended_to (path bytes : string) (c : Client) : FileService.Fs :=
  FileService.appended path bytes (FileService.set_files
    (<[path := default "" (FileService.files (disk c) !! path)]> (FileService.files (disk c))) (disk c)).

Lemma payload_saved {R} id remaining d k c :
  binary_download (transfers c) = mkBinary id remaining -> downloads (transfers c) !! id = Some d ->
  server_buffer_ c <> "" -> k = Z.min remaining (strlen (server_buffer_ c)) -> (0 < remaining)%Z ->
  (0 <= received_size d)%Z -> (received_size d + remaining <= expected_size d < 2 ^ 64)%Z ->
  FileService.fs_faults (disk c) = [] ->
  let bytes := str_take (Z.to_nat k) (server_buffer_ c) in
  exists c', consume_file_binary_payload (R := R) c = (inr true, c') /\
    server_buffer_ c' = str_drop (Z.to_nat k) (server_buffer_ c) /\
    FileService.files (disk c') = FileService.files (appended_to (temp_path d) bytes c) /\
    FileService.fs_faults (disk c') = [] /\
    downloads (transfers c') = <[id := set_received_size (received_size d + k) d]> (downloads (transfers c)) /\
    binary_download (transfers c') = (if (remaining - k =? 0)%Z then no_binary else mkBinary id (remaining - k)).
Proof.
  intros Hb Hd Hne -> Hr H0r He Hf bytes.
  assert (0 < strlen (server_buffer_ c))%Z as Hl by (destruct (server_buffer_ c); [done|unfold strlen; simpl; lia]).
  eexists. split.
  - unfold consume_file_binary_payload. apply fn_inr. step. rewrite Hb. cbn [remaining_bytes bin_transfer_id].
    destruct (Z.eqb_spec remaining 0); [lia|]. step. rewrite Hd. step. rewrite is_empty_false by done. step.
    rewrite !wrap_small by lia. destruct (Z.ltb_spec (expected_size d)
      (received_size d + Z.min remaining (strlen (server_buffer_ c)))); [lia|].
    unfold FileService.open_append, FileService.stream_write, stream_close.
    rewrite bind_disk by done. cbn [fst snd]. rewrite bind_disk by done. cbn [fst snd].
    rewrite bind_disk by done. cbn [fst snd]. step. step. step. reflexivity.
  - done.
Qed.

(** ** The end of a download *)

Lemma bind_cache {R A B} (m : M LocalStore.Store A) (k : string + A -> E R B) c :
  (on_cache m ≫= k) c = k (m (cache c)).1 (set_cache (m (cache c)).2 c).
Proof. done. Qed.

Lemma bind_net {R A B} (m : M ClientTransport.Transport A) (k : string + A -> E R B) c :
  (on_net m ≫= k) c = k (m (net c)).1 (set_net (m (net c)).2 c).
Proof. done. Qed.

(** The file is there and the download is over. *)
Definition delivered (id : Z) (path file : string) (b : string) (frame : PendingBinaryDownloadFrame) (c : Client) : Prop :=
  FileService.files (disk c) !! path = Some file /\ downloads (transfers c) !! id = None /\
  binary_download (transfers c) = frame /\ server_buffer_ c = b.

Lemma finish_complete {R} id d file c :
  downloads (transfers c) !! id = Some d -> received_size d = expected_size d ->
  FileService.fs_faults (disk c) = [] -> FileService.files (disk c) !! temp_path d = Some file ->
  FileUtils.sha256_file_hex (temp_path d) (FileUtils.ReadBytes file true) = inr (d_sha256_hex d) ->
  temp_path d <> final_path d ->
  delivered id (final_path d) file (server_buffer_ c) (binary_download (transfers c))
    (finish_incoming_download (R := R) id c).2.
Proof.
  intros Hd Hr Hf Ht Hs Hne. unfold finish_incoming_download. rewrite fn_state.
  step. step. rewrite Hd, Hr, Z.eqb_refl. cbn [negb].
  unfold sha256_file_hex, remove. rewrite (bind_ok (on_disk _) _ c (inr (d_sha256_hex d)) c).
  2:{ unfold on_disk, FileService.digest_of_file, FileService.open_read. rewrite fs_call_ok, Ht by done.
      rewrite Hs. cbn [fst snd]. by destruct c. }
  unfold verified. rewrite String.eqb_refl. unfold FileService.fs_remove, FileService.fs_rename.
  rewrite bind_bind, bind_disk by done. cbn [fst snd]. step. rewrite bind_disk by done.
  cbn [disk set_disk FileService.files FileService.set_files]. rewrite lookup_delete_ne by done. rewrite Ht. cbn [fst snd].
  step. rewrite bind_cache. match goal with |- context [set_cache ?r.2 ?c0] => set (stored := r); set (c1 := c0) end.
  assert (delivered id (final_path d) file (server_buffer_ c) (binary_download (transfers c))
    (set_transfers (set_downloads (delete id (downloads (transfers c1))) (transfers c1)) c1)) as Hc1.
  { split_and!; [apply lookup_insert_eq|apply lookup_delete_eq|done..]. }
  clearbody stored c1. destruct stored as [[error|u] s]; cbn [fst snd]; step; rewrite bind_cache; step;
    unfold send_all; rewrite bind_bind, bind_net; destruct (ClientTransport.send _ _) as [[e|w] t]; exact Hc1.
Qed.
End Lines.

(** ** The stream of the pump *)

(** What an output is on the wire; the connection sends the bytes of a frame
    after its header. *)
Definition wire_of (file : string) (out : FileService.pump_output) : string :=
  match out with
  | FileService.PumpStart text | FileService.PumpEnd text => text
  | FileService.PumpFrame header _ offset count => header +:+ substr (Z.to_nat offset) (Z.to_nat count) file
  end.
Definition frames (file : string) (fuel : nat) (p : FileService.Pump) : string :=
  foldr String.append "" (map (wire_of file) (pump_run fuel p).1).

Definition enough (fuel : nat) (p : FileService.Pump) : Prop :=
  (FileService.pump_total p - FileService.pump_offset p + FileService.kBinaryFileFrameBytes <=
   Z.of_nat fuel * FileService.kBinaryFileFrameBytes)%Z.

Ltac flatten := repeat first [rewrite str_app_assoc | rewrite str_app_cons].
Lemma start_line_text p : FileService.start_line p = start_text (FileService.pump_id p) (FileService.pump_offset p) +:+ nl.
Proof. unfold FileService.start_line, start_text. simpl. by flatten. Qed.

(** The stream ends, or goes on with a frame. *)
Lemma frames_step file fuel p :
  enough fuel p -> (0 <= FileService.pump_offset p <= FileService.pump_total p)%Z ->
  (FileService.pump_offset p = FileService.pump_total p /\ frames file fuel p = done_line (FileService.pump_id p) +:+ nl) \/
  exists fuel' count p', (0 < count <= FileService.kBinaryFileFrameBytes)%Z /\
    p' = FileService.set_pump_offset (FileService.pump_offset p + count) p /\
    (FileService.pump_offset p' <= FileService.pump_total p)%Z /\ enough fuel' p' /\
    frames file fuel p = data_line (FileService.pump_id p) (FileService.pump_offset p) count +:+ nl +:+
      substr (Z.to_nat (FileService.pump_offset p)) (Z.to_nat count) file +:+ frames file fuel' p'.
Proof.
  unfold enough. assert (FileService.kBinaryFileFrameBytes = 4194304)%Z as HB by done. rewrite HB. intros Hf Ho.
  destruct fuel as [|fuel]; [lia|]. unfold frames. simpl. unfold FileService.send_next. simpl.
  destruct (Z.leb_spec (FileService.pump_total p) (FileService.pump_offset p)) as [Hle|Hlt]; simpl.
  - left. split; [lia|]. unfold done_line. simpl. by flatten.
  - right. rewrite HB. eexists fuel, (Z.min (FileService.pump_total p - FileService.pump_offset p) 4194304), _.
    split; [lia|]. split; [reflexivity|]. simpl. split_and!; [lia|lia|].
    unfold data_line. simpl. by flatten.
Qed.

Section Receiving.
Context `{FileUtils.DigestEngine} `{ClientEnv}.
Context (id : Z) (part dest sha file : string).
Context (id_ok : (0 <= id < 2 ^ 64)%Z) (size_ok : (strlen file < 2 ^ 64)%Z) (paths_differ : part <> dest).
Context (sha_ok : FileUtils.sha256_file_hex part (FileUtils.ReadBytes file true) = inr sha).

(** The client holds the first [got] bytes. *)
Definition holds (got : Z) (c : Client) : Prop :=
  (0 <= got <= strlen file)%Z /\ FileService.fs_faults (disk c) = [] /\
  FileService.files (disk c) !! part = Some (str_take (Z.to_nat got) file) /\
  exists d, downloads (transfers c) !! id = Some d /\ temp_path d = part /\ final_path d = dest /\
    d_sha256_hex d = sha /\ expected_size d = strlen file /\ received_size d = got.

(** A pump of this file with steps enough for the rest of it. *)
Definition pump_ok (fuel : nat) (p : FileService.Pump) : Prop :=
  FileService.pump_id p = id /\ FileService.pump_total p = strlen file /\ enough fuel p /\
  (0 <= FileService.pump_offset p <= FileService.pump_total p)%Z.

(** What the client, in each of its states, still expects. *)
Inductive waiting (c : Client) : string -> Prop :=
  | wait_start fuel p :
      holds (FileService.pump_offset p) c -> remaining_bytes (binary_download (transfers c)) = 0%Z ->
      pump_ok fuel p -> waiting c (FileService.start_line p +:+ frames file fuel p)
  | wait_frame fuel p :
      holds (FileService.pump_offset p) c -> remaining_bytes (binary_download (transfers c)) = 0%Z ->
      pump_ok fuel p -> waiting c (frames file fuel p)
  | wait_bytes fuel p got left :
      holds got c -> binary_download (transfers c) = mkBinary id left -> (0 < left)%Z ->
      (got + left = FileService.pump_offset p)%Z ->
      pump_ok fuel p -> waiting c (substr (Z.to_nat got) (Z.to_nat left) file +:+ frames file fuel p)
  | wait_nothing :
      FileService.files (disk c) !! dest = Some file -> downloads (transfers c) !! id = None ->
      remaining_bytes (binary_download (transfers c)) = 0%Z -> waiting c "".

(** The bytes in the buffer and those to come are what the client expects; when
    none are to come, it expects nothing more. *)
Definition agreed (more : string) (c : Client) : Prop :=
  exists rest, waiting c rest /\ server_buffer_ c +:+ more = rest /\ (more = "" -> rest = "").

#[local] Instance agreed_outer more : Outer (agreed more).
Proof.
  split; intros x c (rest & Hw & Hb); exists rest; (split; [|exact Hb]); destruct Hw; econstructor; eauto.
Qed.

(** A round of the loop that takes a line, or finds it incomplete. *)
Lemma line_round {R} c L rest more :
  remaining_bytes (binary_download (transfers c)) = 0%Z -> str_forall line_char L = true ->
  server_buffer_ c +:+ more = L +:+ nl +:+ rest ->
  (consume_round (R := R) c = (inr false, c) /\ more <> "") \/
  exists b2, b2 +:+ more = rest /\ String.length b2 < String.length (server_buffer_ c) /\
    consume_round (R := R) c = (inr true, (process_server_line (R := R) L (set_server_buffer_ b2 c)).2).
Proof.
  intros Hr HL E.
  destruct (first_line L (server_buffer_ c) more rest (line_no_newline L HL) E) as [Hn|(b2 & Eb & E2 & Hn)].
  - left. split.
    + unfold consume_round. step. step. rewrite Hr, Hn. done.
    + intros ->. rewrite str_app_nil_r in E. rewrite E in Hn. by apply newline_found in Hn.
  - right. exists b2. split; [done|]. split; [rewrite Eb, !str_length_app; simpl; lia|].
    unfold consume_round. step. step. rewrite Hr, Hn. cbn [Z.ltb Z.compare]. step.
    rewrite Eb. rewrite str_take_app_length, without_cr_line by done.
    assert (str_drop (S (String.length L)) (L +:+ nl +:+ b2) = b2) as ->.
    { replace (S (String.length L)) with (String.length (L +:+ nl)) by (rewrite str_length_app; simpl; lia).
      by rewrite <- str_app_assoc, str_drop_app_length. }
    pose proof (server_line_returns (R := R) L (set_server_buffer_ b2 c)) as Hret.
    erewrite bind_ok; [reflexivity|]. rewrite <- Hret. apply surjective_pairing.
Qed.

(** What a round leaves: the same agreement, and less to read. *)
Definition goes_on {R} (more : string) (c : Client) : Prop :=
  exists go c' rest, consume_round (R := R) c = (inr go, c') /\ waiting c' rest /\ server_buffer_ c' +:+ more = rest /\
    if go then String.length (server_buffer_ c') < String.length (server_buffer_ c) else more = "" -> rest = "".

Lemma stops {R} more c rest :
  consume_round (R := R) c = (inr false, c) -> waiting c rest -> server_buffer_ c +:+ more = rest -> more <> "" ->
  goes_on (R := R) more c.
Proof. intros Hc Hw E Hm. by exists false, c, rest. Qed.

Lemma start_round {R} fuel p c more :
  holds (FileService.pump_offset p) c -> remaining_bytes (binary_download (transfers c)) = 0%Z -> pump_ok fuel p ->
  server_buffer_ c +:+ more = FileService.start_line p +:+ frames file fuel p -> goes_on (R := R) more c.
Proof.
  intros Hh Hr Hp E. pose proof Hp as (Hid & Ht & He & Ho). pose proof (wait_start c fuel p Hh Hr Hp) as Hw.
  destruct (line_round (R := R) c (start_text id (FileService.pump_offset p)) (frames file fuel p) more)
    as [[Hc Hm]|(b2 & E2 & Hlen & Hc)]; [done|apply start_chars; lia| |by eapply stops|].
  { by rewrite E, start_line_text, Hid, str_app_assoc. }
  pose proof Hh as (_ & _ & _ & d & Hd & _ & _ & _ & _ & Hrd).
  rewrite (start_agrees _ _ d) in Hc by (try done; lia).
  exists true, (set_server_buffer_ b2 c), (frames file fuel p). split_and!; [done| |done|done]. by apply wait_frame.
Qed.

Lemma frame_round {R} fuel p c more :
  holds (FileService.pump_offset p) c -> remaining_bytes (binary_download (transfers c)) = 0%Z -> pump_ok fuel p ->
  server_buffer_ c +:+ more = frames file fuel p -> goes_on (R := R) more c.
Proof.
  intros Hh Hr Hp E. pose proof Hp as (Hid & Ht & He & Ho). pose proof (wait_frame c fuel p Hh Hr Hp) as Hw.
  pose proof Hh as (Hg & Hf & Hpart & d & Hd & Htp & Hfp & Hsha & Hes & Hrd).
  destruct (frames_step file fuel p He Ho) as [[Hend Hfr]|(fuel' & count & p' & Hcount & -> & Hle & He' & Hfr)].
  - destruct (line_round (R := R) c (done_line id) "" more) as [[Hc Hm]|(b2 & E2 & Hlen & Hc)];
      [done|apply done_chars; lia|by rewrite E, Hfr, Hid, str_app_nil_r|by eapply stops|].
    rewrite done_finishes in Hc by done.
    destruct (finish_complete (R := unit) id d file (set_server_buffer_ b2 c)) as (H1 & H2 & H3 & H4);
      [done|by rewrite Hrd, Hes, Hend, Ht|done| |by rewrite Htp, Hsha|by rewrite Htp, Hfp|].
    { rewrite Htp. simpl. rewrite Hpart, Hend, Ht, str_take_ge; [done|]. unfold strlen. lia. }
    do 3 eexists. split; [exact Hc|]. rewrite Hfp in H1. split; [apply wait_nothing; [done|done|by rewrite H3]|].
    by rewrite H4.
  - destruct (line_round (R := R) c (data_line id (FileService.pump_offset p) count)
      (substr (Z.to_nat (FileService.pump_offset p)) (Z.to_nat count) file +:+
       frames file fuel' (FileService.set_pump_offset (FileService.pump_offset p + count) p)) more)
      as [[Hc Hm]|(b2 & E2 & Hlen & Hc)];
      [done|apply data_chars; lia|by rewrite E, Hfr, Hid|by eapply stops|].
    assert (FileService.kBinaryFileFrameBytes < kFileFrameBytes)%Z as Hsmall by done. simpl in Hle.
    rewrite (data_opens _ _ _ d) in Hc by (try done; simpl; lia).
    do 3 eexists. split; [exact Hc|]. split; [|by split].
    eapply wait_bytes; [exact Hh|reflexivity|lia|reflexivity|]. split_and!; simpl; [done|done|done|lia|lia].
Qed.

Lemma bytes_round {R} fuel p got left c more :
  holds got c -> binary_download (transfers c) = mkBinary id left -> (0 < left)%Z ->
  (got + left = FileService.pump_offset p)%Z -> pump_ok fuel p ->
  server_buffer_ c +:+ more = substr (Z.to_nat got) (Z.to_nat left) file +:+ frames file fuel p -> goes_on (R := R) more c.
Proof.
  intros Hh Hb Hl Hsum Hp E. pose proof (wait_bytes c fuel p got left Hh Hb Hl Hsum Hp) as Hw.
  pose proof Hp as (Hid & Ht & He & Ho).
  pose proof Hh as (Hg & Hf & Hpart & d & Hd & Htp & Hfp & Hsha & Hes & Hrd).
  assert (String.length (substr (Z.to_nat got) (Z.to_nat left) file) = Z.to_nat left) as Hpiece.
  { unfold substr. rewrite str_take_length, str_drop_length. unfold strlen in *. lia. }
  destruct (decide (server_buffer_ c = "")) as [Hempty|Hne].
  - exists false, c. eexists. split_and!; [|exact Hw|exact E|].
    + unfold consume_round. step. step. rewrite Hb, Hempty. cbn [remaining_bytes].
      by destruct (Z.ltb_spec 0 left); [|lia].
    + intros ->. by rewrite <- E, Hempty.
  - destruct (payload_saved (R := R) id left d (Z.min left (strlen (server_buffer_ c))) c)
      as (c' & Hc & Hbuf & Hfiles & Hfaults & Hdl & Hbin); [done..|lia|lia|done|].
    set (k := Z.min left (strlen (server_buffer_ c))) in *.
    assert (0 < k)%Z as Hk by (unfold k, strlen; destruct (server_buffer_ c); [done|simpl; lia]).
    destruct (payload_split (server_buffer_ c) more (substr (Z.to_nat got) (Z.to_nat left) file) (frames file fuel p)
      (Z.to_nat k)) as [E1 E2]; [unfold strlen in *; lia|lia|done|].
    assert (holds (got + k) c') as Hh'.
    { split; [lia|]. split; [done|]. split.
      - rewrite Hfiles. unfold appended_to, FileService.appended. simpl. rewrite Htp, !lookup_insert_eq, Hpart. simpl.
        rewrite E1. unfold substr. rewrite str_take_take, Nat.min_l, str_take_drop_take by lia. do 2 f_equal. lia.
      - exists (set_received_size (got + k) d). rewrite Hdl, Hrd. by rewrite lookup_insert_eq. }
    exists true, c', (substr (Z.to_nat (got + k)) (Z.to_nat (left - k)) file +:+ frames file fuel p). split_and!.
    + unfold consume_round. step. step. rewrite Hb, is_empty_false by done. cbn [remaining_bytes].
      destruct (Z.ltb_spec 0 left); [|lia]. by rewrite (bind_ok _ _ _ _ _ Hc).
    + destruct (Z.eqb_spec (left - k) 0) as [Hz|Hz].
      * rewrite Hz. unfold substr. rewrite str_take_0.
        apply wait_frame; [|by rewrite Hbin|done]. by replace (FileService.pump_offset p) with (got + k)%Z by lia.
      * eapply wait_bytes; [done|done|lia|lia|done].
    + rewrite Hbuf, E2, substr_drop. by rewrite Z2Nat.inj_add, Z2Nat.inj_sub by lia.
    + rewrite Hbuf, str_drop_length. unfold strlen in *. lia.
Qed.

Lemma waiting_round {R} c rest more :
  waiting c rest -> server_buffer_ c +:+ more = rest -> goes_on (R := R) more c.
Proof.
  intros Hw E. destruct Hw as [fuel p|fuel p|fuel p got left|H1 H2 H3].
  - by eapply start_round.
  - by eapply frame_round.
  - by eapply bytes_round.
  - assert (server_buffer_ c = "") as Hb by (by destruct (server_buffer_ c)).
    exists false, c, "". split_and!; [|by apply wait_nothing|done|done].
    unfold consume_round. step. step. by rewrite H3, Hb.
Qed.

(** The loop reads until it cannot go on. *)
Lemma waiting_loop {R} fuel c rest more :
  waiting c rest -> server_buffer_ c +:+ more = rest -> String.length (server_buffer_ c) < fuel ->
  exists c', consume_loop (R := R) fuel c = (inr tt, c') /\ agreed more c'.
Proof.
  revert c rest. induction fuel as [|fuel IH]; intros c rest Hw E Hf; [lia|].
  destruct (waiting_round (R := R) c rest more Hw E) as ([] & c' & rest' & Hc & Hw' & E' & Hgo); simpl;
    rewrite (bind_ok _ _ _ _ _ Hc).
  - apply (IH c' rest'); [done|done|lia].
  - exists c'. by split; [|exists rest'].
Qed.

(** What [receive_loop] does with the bytes of one wake-up. *)
Definition arrive (c : Client) (bytes : string) : Client :=
  (consume_complete_lines (R := unit) (set_server_buffer_ (server_buffer_ c +:+ bytes) c)).2.

Lemma waiting_arrive c rest bytes more :
  waiting c rest -> server_buffer_ c +:+ bytes +:+ more = rest -> agreed more (arrive c bytes).
Proof.
  intros Hw E. set (c1 := set_server_buffer_ (server_buffer_ c +:+ bytes) c).
  assert (waiting c1 rest) as Hw1 by (destruct Hw; econstructor; eauto).
  destruct (waiting_loop (R := unit) (S (String.length (server_buffer_ c1))) c1 rest more)
    as (c' & Hc & Ha); [done|by simpl; rewrite str_app_assoc|lia|].
  unfold arrive, consume_complete_lines. fold c1. step. rewrite (bind_ok _ _ _ _ _ Hc).
  by apply (flush_refresh_keeps (I := agreed more)).
Qed.

Lemma waiting_pieces pieces c rest :
  pieces <> [] -> waiting c rest -> server_buffer_ c +:+ foldr String.append "" pieces = rest ->
  agreed "" (foldl arrive c pieces).
Proof.
  revert c rest. induction pieces as [|x pieces IH]; intros c rest Hne Hw E; [done|].
  cbn [foldr] in E. cbn [foldl]. destruct pieces as [|y pieces]; [by eapply waiting_arrive|].
  destruct (waiting_arrive c rest x (foldr String.append "" (y :: pieces)) Hw E) as (rest' & Hw' & E' & _).
  by apply (IH _ rest').
Qed.

Lemma frames_not_empty fuel p : pump_ok fuel p -> frames file fuel p <> "".
Proof.
  intros (_ & _ & He & Ho). by destruct (frames_step file fuel p He Ho) as [[_ ->]|(? & ? & ? & _ & _ & _ & _ & ->)].
Qed.

(** Nothing is expected only when the file has been delivered. *)
Lemma agreed_end c :
  agreed "" c -> delivered id dest file "" (binary_download (transfers c)) c /\
    remaining_bytes (binary_download (transfers c)) = 0%Z.
Proof.
  intros (rest & Hw & E & Hr). specialize (Hr eq_refl). rewrite str_app_nil_r in E. rewrite <- E in Hr.
  destruct Hw as [fuel p _ _ Hp|fuel p _ _ Hp|fuel p got left _ _ _ _ Hp|H1 H2 H3].
  - rewrite Hr, start_line_text in E. done.
  - rewrite Hr in E. symmetry in E. by apply frames_not_empty in E.
  - rewrite Hr in E. destruct (frames_not_empty fuel p Hp). by destruct (substr _ _ _).
  - by unfold delivered.
Qed.
End Receiving.

(** As many rounds as the rest of the file has frames, and one for the end. *)
Definition pump_rounds (p : FileService.Pump) : nat :=
  S (Z.to_nat ((FileService.pump_total p - FileService.pump_offset p + FileService.kBinaryFileFrameBytes - 1) /
    FileService.kBinaryFileFrameBytes)).

Lemma rounds_enough p : (FileService.pump_offset p <= FileService.pump_total p)%Z -> enough (pump_rounds p) p.
Proof.
  intros Ho. unfold enough, pump_rounds. assert (FileService.kBinaryFileFrameBytes = 4194304)%Z as -> by done.
  rewrite Nat2Z.inj_succ, Z2Nat.id by (apply Z.div_pos; lia).
  pose proof (Z.div_mod (FileService.pump_total p - FileService.pump_offset p + 4194304 - 1) 4194304 ltac:(done)).
  pose proof (Z.mod_pos_bound (FileService.pump_total p - FileService.pump_offset p + 4194304 - 1) 4194304 eq_refl). lia.
Qed.

(** C17: a download, from the server's file to the client's.  The server's pump
    starts at the offset up to which the client has the file; its outputs, from
    [FILE_RESUME_START] over the frames to [FILE_DONE], are cut into pieces at
    any places and reach the client one wake-up each.  After the last piece the
    file stands under its final name at the client, byte for byte, the download
    is over, nothing is left in the buffer and the next bytes are read as a line. *)
Theorem download_end_to_end `{FileUtils.DigestEngine} `{ClientEnv} p d file pieces c :
  (0 <= FileService.pump_id p < 2 ^ 64)%Z -> FileService.pump_total p = strlen file -> (strlen file < 2 ^ 64)%Z ->
  (0 <= FileService.pump_offset p <= FileService.pump_total p)%Z ->
  downloads (transfers c) !! FileService.pump_id p = Some d -> temp_path d <> final_path d ->
  expected_size d = strlen file -> received_size d = FileService.pump_offset p ->
  FileUtils.sha256_file_hex (temp_path d) (FileUtils.ReadBytes file true) = inr (d_sha256_hex d) ->
  FileService.files (disk c) !! temp_path d = Some (str_take (Z.to_nat (FileService.pump_offset p)) file) ->
  FileService.fs_faults (disk c) = [] -> remaining_bytes (binary_download (transfers c)) = 0%Z -> server_buffer_ c = "" ->
  foldr String.append "" pieces = FileService.start_line p +:+ frames file (pump_rounds p) p ->
  let c' := foldl arrive c pieces in
  FileService.files (disk c') !! final_path d = Some file /\ downloads (transfers c') !! FileService.pump_id p = None /\
  server_buffer_ c' = "" /\ remaining_bytes (binary_download (transfers c')) = 0%Z.
Proof.
  intros Hid Ht Hlt Ho Hd Hne He Hr Hsha Hpart Hfaults Hbin Hbuf Hpieces c'.
  assert (pieces <> []) as Hnil by (intros ->; by rewrite start_line_text in Hpieces).
  edestruct (agreed_end (FileService.pump_id p) (temp_path d) (final_path d) (d_sha256_hex d) file)
    as [(H1 & H2 & _ & H3) H4]; [|by split_and!; [exact H1|exact H2|exact H3|exact H4]].
  apply waiting_pieces with (rest := FileService.start_line p +:+ frames file (pump_rounds p) p); try done.
  - apply wait_start; [|done|by split_and!; [| |apply rounds_enough|..]; lia].
    split; [lia|]. split; [done|]. split; [done|]. by exists d.
  - by rewrite Hbuf.
Qed.
End ClientDownload.
