(* ===== verification/ClientLoop.v ===== *)
(** * The loop over what has arrived at the client

    [consume_complete_lines] ends: every round takes bytes from the buffer or is
    the last one, so its length bounds the rounds. *)
From S2P Require Import Prelude Protocol FileUtils FileService LocalStore ClientTransport ClientState.
From S2P Require Import ClientFiles ClientChat ClientApp ClientLogic ClientDownload.
Import ClientState ClientFiles ClientChat ClientApp ClientLogic ClientDownload.

Module ClientLoop.

(** At most [n] bytes wait. *)
Definition waits (n : nat) (c : Client) : Prop := String.length (server_buffer_ c) <= n.

Section Loop.
Context `{FileUtils.DigestEngine} `{ClientEnv}.

#[local] Instance waits_outer n : Outer (waits n).
Proof. split; intros x c Hc; exact Hc. Qed.
#[local] Instance waits_disk n : Ignores (waits n) set_disk.
Proof. intros x c Hc. exact Hc. Qed.
#[local] Instance waits_cache n : Ignores (waits n) set_cache.
Proof. intros x c Hc. exact Hc. Qed.
#[local] Instance waits_transfers n : Ignores (waits n) set_transfers.
Proof. intros x c Hc. exact Hc. Qed.
#[local] Instance waits_chat n : Ignores (waits n) set_chat.
Proof. intros x c Hc. exact Hc. Qed.
#[local] Instance waits_user n : Ignores (waits n) set_active_username.
Proof. intros x c Hc. exact Hc. Qed.
#[local] Instance waits_shrinks n : Shrinks (waits n).
Proof. intros k c Hc. unfold waits in *. simpl. rewrite str_drop_length. lia. Qed.
#[local] Instance waits_sessions n : Sessions (waits n).
Proof.
  split; intros; [keep|]. unfold end_session. apply E_keeps_bind; [apply any_leave|]. intros _.
  apply E_keeps_bind; [apply set_user_any|]. intros _. apply E_keeps_bind; [apply any_transfers|intros _; keep].
Qed.

Lemma server_line_waits {R} line c :
  String.length (server_buffer_ (process_server_line (R := R) line c).2) <= String.length (server_buffer_ c).
Proof. apply (server_line_keeps (I := waits (String.length (server_buffer_ c)))). unfold waits. lia. Qed.

(** Bytes of a frame that are saved leave the buffer. *)
Lemma payload_shrinks {R} c :
  (0 < remaining_bytes (binary_download (transfers c)))%Z -> server_buffer_ c <> "" ->
  (consume_file_binary_payload (R := R) c).1 = inr true ->
  String.length (server_buffer_ (consume_file_binary_payload (R := R) c).2) < String.length (server_buffer_ c).
Proof.
  intros Hr Hne. unfold consume_file_binary_payload, fn, mbind, E_bind. cbn [gets].
  destruct (Z.eqb_spec (remaining_bytes (binary_download (transfers c))) 0); [lia|]. cbn [return_if mret E_ret].
  destruct (downloads (transfers c) !! _) as [d|]; [|done]. rewrite is_empty_false by done. cbn [return_if mret E_ret].
  assert (0 < strlen (server_buffer_ c))%Z as Hl by (destruct (server_buffer_ c); [done|unfold strlen; simpl; lia]).
  destruct (_ <? _)%Z.
  { unfold send_failed, send_all, mbind, E_bind, on_net, end_binary, on_transfers, change. simpl.
    by destruct (ClientTransport.send _ _) as [[e|u] t]. }
  unfold on_disk. destruct (FileService.open_append _ _) as [[e|u] fs1]; [done|]. cbn [fst snd].
  destruct (FileService.stream_write _ _ _) as [[e|u2] fs2]; [done|]. cbn [fst snd].
  destruct (stream_close _ _ _) as [r3 fs3]. intros _. cbn. rewrite str_drop_length. unfold strlen in *. lia.
Qed.

(** A round takes bytes, or is the last. *)
Lemma round_shrinks {R} c :
  exists go c', consume_round (R := R) c = (inr go, c') /\
    (go = true -> String.length (server_buffer_ c') < String.length (server_buffer_ c)).
Proof.
  unfold consume_round. erewrite bind_ok by reflexivity. cbv beta. erewrite bind_ok by reflexivity. cbv beta.
  destruct (Z.ltb_spec 0 (remaining_bytes (binary_download (transfers c)))) as [Hr|Hr].
  - destruct (is_empty (server_buffer_ c)) eqn:Hb; [by eexists false, c|].
    assert (server_buffer_ c <> "") as Hne by (by intros E; rewrite E in Hb).
    pose proof (payload_shrinks (R := R) c Hr Hne) as Hs. unfold mbind, E_bind.
    assert (exists b, (consume_file_binary_payload (R := R) c).1 = inr b) as [b Hok].
    { unfold consume_file_binary_payload, fn.
      match goal with |- context [match ?m c with _ => _ end] => destruct (m c) as [[b|b] c']; by exists b end. }
    destruct (consume_file_binary_payload c) as [r c']. simpl in *. subst r. destruct b; cbn.
    + exists true, c'. split; [done|]. intros _. by apply Hs.
    + by eexists false, _.
  - destruct (find_first (in_range 10 10) (server_buffer_ c)) as [n|] eqn:Hn; [|by eexists false, c].
    erewrite bind_ok by reflexivity. cbv beta.
    set (c1 := set_server_buffer_ (str_drop (S n) (server_buffer_ c)) c).
    set (line := without_cr _). pose proof (server_line_returns (R := R) line c1) as Hret.
    pose proof (server_line_waits (R := R) line c1) as Hlen. unfold mbind, E_bind.
    destruct (process_server_line line c1) as [r c']. cbn [fst snd] in *. subst r. exists true, c'. split; [done|]. intros _.
    unfold c1 in Hlen. cbn [server_buffer_ set_server_buffer_] in Hlen. rewrite str_drop_length in Hlen.
    destruct (server_buffer_ c); [done|]. cbn [String.length] in *. lia.
Qed.

(** C22: the loop over the received bytes ends.  However the bytes are cut into
    lines and frames and whatever fails, more rounds than the buffer has bytes
    change nothing: the loop has ended with one of its breaks. *)
Theorem client_lines_end c fuel :
  String.length (server_buffer_ c) < fuel ->
  consume_loop (R := unit) fuel c = consume_loop (S (String.length (server_buffer_ c))) c /\
  exists c1 c2, consume_loop (R := unit) fuel c = (inr tt, c2) /\ consume_round (R := unit) c1 = (inr false, c2).
Proof.
  intros Hf. assert (forall n m c, String.length (server_buffer_ c) < n -> String.length (server_buffer_ c) < m ->
    consume_loop (R := unit) n c = consume_loop m c /\
    exists c1 c2, consume_loop (R := unit) n c = (inr tt, c2) /\ consume_round (R := unit) c1 = (inr false, c2)) as Hloop.
  { clear. induction n as [|n IH]; intros [|m] c Hn Hm; try lia.
    destruct (round_shrinks (R := unit) c) as ([] & c' & Hc & Hs); cbn [consume_loop]; rewrite !(bind_ok _ _ _ _ _ Hc).
    - specialize (Hs eq_refl). apply IH; lia.
    - split; [done|]. by exists c, c'. }
  apply Hloop; lia.
Qed.
End Loop.
End ClientLoop.
