(* ===== verification/ClientMessages.v ===== *)
(** * Messages between the server and the client

    Every text in which the server hands over a message is read by the client as
    that message: the number, the conversation, the sender and the content come
    out as they went in. *)
From S2P Require Import Prelude Protocol Payloads Tables Database FileUtils World Delivery Messages LocalStore ClientState ClientChat.
From S2P Require Import ClientDownload.
Import Payloads Database World Delivery Messages ClientState ClientChat ClientDownload.

Module ClientMessages.

(** ** Searching in texts *)

Definition not_bracket (c : ascii) : bool := negb (bool_decide (c = "]"%char)).

Lemma starts_with_app s pat : starts_with (pat +:+ s) pat = true.
Proof.
  unfold starts_with. rewrite str_take_app_length, String.eqb_refl, str_length_app, andb_true_r.
  apply Nat.leb_le. lia.
Qed.
Lemma starts_with_other c d s pat : c <> d -> starts_with (String c s) (String d pat) = false.
Proof. intros Hne. unfold starts_with. simpl. by rewrite (proj2 (Ascii.eqb_neq c d) Hne), andb_false_r. Qed.

(** A text without brackets is skipped. *)
Lemma find_sub_bracket pat L rest :
  str_forall not_bracket L = true -> find_sub (String "]" pat) (L +:+ String "]" pat +:+ rest) = Some (String.length L).
Proof.
  induction L as [|c L IH]; intros HL.
  - pose proof (starts_with_app rest (String "]" pat)) as Hs. change ("" +:+ String "]" pat +:+ rest) with (String "]" pat +:+ rest).
    rewrite str_app_cons in *. unfold find_sub. by rewrite Hs.
  - simpl in HL. apply andb_true_iff in HL as [Hc HL]. rewrite str_app_cons. cbn [find_sub].
    unfold not_bracket in Hc. case_bool_decide; [done|]. rewrite starts_with_other by done. by rewrite IH.
Qed.
Lemma find_from_bracket pat P L rest :
  str_forall not_bracket L = true ->
  find_from (String "]" pat) (String.length P) (P +:+ L +:+ String "]" pat +:+ rest) = Some (String.length P + String.length L).
Proof. intros HL. unfold find_from. by rewrite str_drop_app_length, find_sub_bracket. Qed.

Lemma is_at_app pat P s : is_at pat (String.length P) (P +:+ s) = (str_take (String.length pat) s =s? pat).
Proof. unfold is_at, substr. by rewrite str_drop_app_length. Qed.
Lemma substr_app P L rest k : k = String.length L -> substr (String.length P) k (P +:+ L +:+ rest) = L.
Proof. intros ->. unfold substr. by rewrite str_drop_app_length, str_take_app_length. Qed.

Lemma after_word P L Q s k :
  k = String.length Q -> str_drop (String.length P + String.length L + k) (P +:+ L +:+ Q +:+ s) = s.
Proof.
  intros ->. rewrite <- !str_app_assoc.
  replace (String.length P + String.length L + String.length Q) with (String.length ((P +:+ L) +:+ Q))
    by (rewrite !str_length_app; lia).
  apply str_drop_app_length.
Qed.

(** ** Words of a message *)

Lemma digit_not_bracket c : isdigit c = true -> not_bracket c = true.
Proof. byte_cases c. Qed.
Lemma name_not_bracket c : isalnum c || in_range 95 95 c || in_range 45 45 c = true -> not_bracket c = true.
Proof. byte_cases c. Qed.

Lemma username_chars name : is_valid_username name = true -> name <> "" /\ str_forall not_bracket name = true.
Proof.
  unfold is_valid_username. intros Hv. case_match; [done|]. split; [by intros ->|].
  eapply str_forall_impl; [|exact Hv]. intros c Hc. apply name_not_bracket. by rewrite Hc.
Qed.
Lemma group_name_chars name : is_valid_group_name name = true -> name <> "" /\ str_forall not_bracket name = true.
Proof.
  unfold is_valid_group_name. intros Hv. case_match; [done|]. split; [by intros ->|].
  eapply str_forall_impl; [|exact Hv]. apply name_not_bracket.
Qed.

Lemma content_read message : message <> "-" -> content_of (World.encode_text_token message) = message.
Proof.
  intros Hd. unfold content_of, decode_text_token, World.encode_text_token.
  destruct (FileUtils.percent_encode message =s? "-") eqn:E.
  - apply String.eqb_eq in E. pose proof (FileUtils.decode_encode message) as Hr. rewrite E in Hr.
    vm_compute in Hr. by injection Hr as <-.
  - by rewrite FileUtils.decode_encode.
Qed.

Lemma read_id_at P id rest :
  (0 <= id < 2 ^ 64)%Z ->
  read_id (P +:+ to_string id +:+ "]" +:+ rest) (String.length P) =
    Some (id, String.length P + String.length (to_string id)).
Proof.
  intros Hid. unfold read_id. destruct (to_string_spec id) as (Hne & Hd & _); [lia|].
  rewrite (find_from_bracket "" P (to_string id) rest).
  2:{ eapply str_forall_impl; [apply digit_not_bracket|done]. }
  rewrite substr_app by lia. unfold parse_uint64. rewrite is_empty_false by done. by rewrite from_chars_to_string.
Qed.

(** ** Lines *)

Lemma some_bind {A B} (a : A) (f : A -> option B) : Some a ≫= f = f a.
Proof. done. Qed.

(** The first character of a number is a digit. *)
Lemma number_head id : (0 <= id)%Z -> exists d rest, to_string id = String d rest /\ isdigit d = true.
Proof.
  intros Hid. destruct (to_string_spec id Hid) as (Hne & Hd & _). destruct (to_string id) as [|d rest]; [done|].
  exists d, rest. split; [done|]. simpl in Hd. by apply andb_true_iff in Hd as [Hd _].
Qed.

Lemma starts_with_cons c s pat : starts_with (String c s) (String c pat) = starts_with s pat.
Proof. unfold starts_with. simpl. by rewrite Ascii.eqb_refl. Qed.

Lemma live_start d s : d <> "G"%char -> (exists t, s = "[#" +:+ String d t) ->
  (if starts_with s "[offline #" then Some (true, String.length "[offline #")
   else if starts_with s "[#" && negb (starts_with s "[#G") then Some (false, 2) else None) = Some (false, 2).
Proof.
  intros Hd (t & ->). change ("[#" +:+ String d t) with (String "[" (String "#" (String d t))).
  rewrite !starts_with_cons, (starts_with_other "#" "o"), (starts_with_other d "G") by done. done.
Qed.

(** A private message, from somebody or to somebody. *)
Lemma private_line_read (offline outgoing : bool) id name word me :
  (0 <= id < 2 ^ 64)%Z -> name <> "" -> str_forall not_bracket name = true -> me <> "" ->
  private_message_of ((if offline then "[offline #" else "[#") +:+ to_string id +:+ "]" +:+
      (if outgoing then to_marker else from_marker) +:+ name +:+ "] " +:+ word) me =
  Some (fun now => LocalStore.mkLocalPrivateMessage id me name (if outgoing then me else name)
    (if outgoing then name else me) (content_of word) now outgoing offline).
Proof.
  intros Hid Hn Hb Hme. unfold private_message_of. rewrite is_empty_false by done.
  set (A := if offline then "[offline #" else "[#"). set (M := if outgoing then to_marker else from_marker).
  set (rest := M +:+ name +:+ "] " +:+ word). set (line := A +:+ to_string id +:+ "]" +:+ rest).
  assert ((if starts_with line "[offline #" then Some (true, String.length "[offline #")
           else if starts_with line "[#" && negb (starts_with line "[#G") then Some (false, 2) else None) =
          Some (offline, String.length A)) as ->.
  { unfold line. destruct offline; unfold A; [by rewrite starts_with_app|].
    destruct (number_head id) as (d & r & -> & Hd); [lia|]. apply (live_start d); [by intros ->|by eexists]. }
  rewrite some_bind. cbv beta iota. 
  assert (read_id line (String.length A) = Some (id, String.length A + String.length (to_string id))) as ->
    by (by apply read_id_at).
  rewrite some_bind. cbv beta iota zeta.
  set (P := A +:+ to_string id +:+ "]"). assert (line = P +:+ rest) as El by (unfold line, P; by rewrite !str_app_assoc).
  replace (S (String.length A + String.length (to_string id))) with (String.length P)
    by (unfold P; rewrite !str_length_app; simpl; lia).
  assert ((if is_at from_marker (String.length P) line then Some (false, String.length P + String.length from_marker)
           else if is_at legacy_from_marker (String.length P) line
           then Some (false, String.length P + String.length legacy_from_marker)
           else if is_at to_marker (String.length P) line
           then Some (true, String.length P + String.length to_marker) else None) =
          Some (outgoing, String.length (P +:+ M))) as ->.
  { rewrite El, !is_at_app, str_length_app. unfold rest, M. destruct outgoing; [|by rewrite str_take_app_length, String.eqb_refl].
    rewrite (str_take_app_length to_marker), String.eqb_refl. done. }
  rewrite some_bind. cbv beta iota. rewrite El. unfold rest. rewrite <- (str_app_assoc P M).
  rewrite (find_from_bracket " " (P +:+ M) name word) by done. rewrite some_bind. cbv beta zeta.
  rewrite substr_app by lia. by rewrite is_empty_false, after_word by done.
Qed.

Lemma group_not_private (offline : bool) id rest me :
  (0 <= id)%Z -> private_message_of ((if offline then "[offline #G" else "[#G") +:+ to_string id +:+ "]" +:+ rest) me = None.
Proof.
  intros Hid. unfold private_message_of. destruct (is_empty me); [done|]. destruct offline.
  - change ("[offline #G" +:+ ?x) with ("[offline #" +:+ "G" +:+ x). rewrite starts_with_app, some_bind. cbv beta iota.
    unfold read_id. destruct (to_string_spec id Hid) as (_ & Hd & _).
    rewrite <- (str_app_assoc "G"). rewrite (find_from_bracket "" "[offline #" ("G" +:+ to_string id) rest).
    2:{ rewrite str_forall_app. simpl. eapply str_forall_impl; [apply digit_not_bracket|done]. }
    by rewrite substr_app by lia.
  - rewrite starts_with_app, andb_false_r. change ("[#G" +:+ ?x) with (String "[" (String "#" ("G" +:+ x))).
    by rewrite starts_with_cons, starts_with_other.
Qed.

(** A message of a group is not a private one. *)
Lemma group_line_read (offline : bool) id group sender word me :
  (0 <= id < 2 ^ 64)%Z -> str_forall not_bracket group = true -> str_forall not_bracket sender = true -> me <> "" ->
  let line := (if offline then "[offline #G" else "[#G") +:+ to_string id +:+ "]" +:+ group_marker +:+ group +:+ "] [" +:+
    sender +:+ "] " +:+ word in
  private_message_of line me = None /\
  group_message_of line me = Some (fun now => LocalStore.mkLocalGroupMessage id me group sender (content_of word) now
    (sender =s? me) offline).
Proof.
  intros Hid Hg Hs Hme. set (A := if offline then "[offline #G" else "[#G").
  set (rest := group +:+ "] [" +:+ sender +:+ "] " +:+ word). intros line. split.
  { apply (group_not_private offline id). lia. }
  unfold group_message_of. rewrite is_empty_false by done.
  assert ((if starts_with line "[offline #G" then Some (true, String.length "[offline #G")
           else if starts_with line "[#G" then Some (false, 3) else None) = Some (offline, String.length A)) as ->.
  { unfold line, A. destruct offline; [by rewrite starts_with_app|]. rewrite starts_with_app.
    change ("[#G" +:+ ?x) with (String "[" (String "#" (String "G" x))).
    by rewrite starts_with_cons, starts_with_other. }
  rewrite some_bind. cbv beta iota.
  assert (read_id line (String.length A) = Some (id, String.length A + String.length (to_string id))) as ->
    by (by apply read_id_at).
  rewrite some_bind. cbv beta iota zeta.
  set (P := A +:+ to_string id +:+ "]").
  assert (line = P +:+ group_marker +:+ rest) as El by (unfold line, P; by rewrite !str_app_assoc).
  replace (S (String.length A + String.length (to_string id))) with (String.length P)
    by (unfold P; rewrite !str_length_app; simpl; lia).
  rewrite El, is_at_app, str_take_app_length, String.eqb_refl. cbn [negb].
  rewrite <- str_app_assoc, <- str_length_app. unfold rest.
  rewrite (find_from_bracket " [" (P +:+ group_marker) group (sender +:+ "] " +:+ word)) by done.
  rewrite some_bind. cbv beta. rewrite substr_app by lia.
  set (Q := (P +:+ group_marker) +:+ group +:+ "] [").
  replace (String.length (P +:+ group_marker) + String.length group + 3) with (String.length Q)
    by (unfold Q; rewrite !str_length_app; simpl; lia).
  replace ((P +:+ group_marker) +:+ group +:+ "] [" +:+ sender +:+ "] " +:+ word) with (Q +:+ sender +:+ "] " +:+ word)
    by (unfold Q; by rewrite !str_app_assoc).
  rewrite (find_from_bracket " " Q sender word) by done. rewrite some_bind.
  rewrite substr_app by lia. by rewrite after_word.
Qed.

(** ** The texts of the server *)

(** A text that is one line, with this line. *)
Definition one_line (text line : string) : Prop := text = line +:+ nl /\ str_forall line_char line = true.

Lemma name_line_char c : isalnum c || in_range 95 95 c || in_range 45 45 c = true -> line_char c = true.
Proof. byte_cases c. Qed.
Lemma encoded_line_char c : FileUtils.encoded_char c = true -> line_char c = true.
Proof. byte_cases c. Qed.
Lemma username_line name : is_valid_username name = true -> str_forall line_char name = true.
Proof.
  unfold is_valid_username. intros Hv. case_match; [done|]. eapply str_forall_impl; [|exact Hv].
  intros c Hc. apply name_line_char. by rewrite Hc.
Qed.
Lemma group_name_line name : is_valid_group_name name = true -> str_forall line_char name = true.
Proof.
  unfold is_valid_group_name. intros Hv. case_match; [done|]. eapply str_forall_impl; [|exact Hv]. apply name_line_char.
Qed.

Lemma message_line A id B message :
  (0 <= id)%Z -> str_forall line_char A = true -> str_forall line_char B = true ->
  one_line (A +:+ to_string id +:+ B +:+ World.encode_text_token message +:+ nl)
    (A +:+ to_string id +:+ B +:+ World.encode_text_token message).
Proof.
  intros Hid HA HB. split; [by rewrite !str_app_assoc|]. rewrite !str_forall_app, HA, HB, number_chars by done.
  simpl. eapply str_forall_impl; [apply encoded_line_char|apply FileUtils.percent_encode_chars].
Qed.

Lemma private_text_read (offline outgoing : bool) id name message me :
  (0 <= id < 2 ^ 64)%Z -> is_valid_username name = true -> me <> "" -> message <> "-" ->
  exists line, one_line ((if offline then "[offline #" else "[#") +:+ to_string id +:+ "]" +:+
    (if outgoing then to_marker else from_marker) +:+ name +:+ "] " +:+ World.encode_text_token message +:+ nl) line /\
  private_message_of line me = Some (fun now => LocalStore.mkLocalPrivateMessage id me name (if outgoing then me else name)
    (if outgoing then name else me) message now outgoing offline).
Proof.
  intros Hid Hn Hme Hm. destruct (username_chars name Hn) as [Hn1 Hn2].
  pose proof (private_line_read offline outgoing id name (World.encode_text_token message) me Hid Hn1 Hn2 Hme) as Hr.
  rewrite content_read in Hr by done. eexists. split; [|exact Hr].
  set (B := "]" +:+ (if outgoing then to_marker else from_marker) +:+ name +:+ "] ").
  assert (forall t, "]" +:+ (if outgoing then to_marker else from_marker) +:+ name +:+ "] " +:+ t = B +:+ t) as EB
    by (intros t; unfold B; by rewrite !str_app_assoc).
  rewrite !EB. apply message_line; [lia|by destruct offline|]. unfold B. rewrite !str_forall_app, (username_line name Hn).
  by destruct outgoing.
Qed.

Lemma group_text_read (offline : bool) id group sender message me :
  (0 <= id < 2 ^ 64)%Z -> is_valid_group_name group = true -> is_valid_username sender = true -> me <> "" ->
  message <> "-" ->
  exists line, one_line ((if offline then "[offline #G" else "[#G") +:+ to_string id +:+ "]" +:+ group_marker +:+ group +:+
    "] [" +:+ sender +:+ "] " +:+ World.encode_text_token message +:+ nl) line /\
  private_message_of line me = None /\
  group_message_of line me = Some (fun now => LocalStore.mkLocalGroupMessage id me group sender message now
    (sender =s? me) offline).
Proof.
  intros Hid Hg Hs Hme Hm. destruct (group_name_chars group Hg) as [_ Hg2]. destruct (username_chars sender Hs) as [_ Hs2].
  pose proof (group_line_read offline id group sender (World.encode_text_token message) me Hid Hg2 Hs2 Hme) as Hr.
  cbv zeta in Hr. rewrite content_read in Hr by done. eexists. split; [|exact Hr].
  set (B := "]" +:+ group_marker +:+ group +:+ "] [" +:+ sender +:+ "] ").
  assert (forall t, "]" +:+ group_marker +:+ group +:+ "] [" +:+ sender +:+ "] " +:+ t = B +:+ t) as EB
    by (intros t; unfold B; by rewrite !str_app_assoc).
  rewrite !EB. apply message_line; [lia|by destruct offline|]. unfold B.
  by rewrite !str_forall_app, (username_line sender Hs), (group_name_line group Hg).
Qed.

(** C21: messages other than ["-"] reach the client as they are.  Each of the five
    texts in which the server hands over a message, live to its recipient and to
    its sender, to a group, and from the offline queues of both kinds, is one
    line, whatever the content, and the client reads from it the number, the
    conversation, the sender, the direction and the content; a group's line is
    not taken for a private one.  The message of the single character ["-"] is
    excluded: it is read as an empty one ([dash_message_lost]). *)
Theorem message_texts_read id sender target group me message (pm : StoredMessage) (gm : StoredGroupMessage) :
  (0 <= id < 2 ^ 64)%Z -> is_valid_username sender = true -> is_valid_username target = true ->
  is_valid_group_name group = true -> me <> "" -> message <> "-" ->
  sm_id pm = id -> cm_sender (sm_payload pm) = sender -> cm_content (sm_payload pm) = message ->
  sg_id gm = id -> gp_group_name (sg_payload gm) = group -> gp_sender (sg_payload gm) = sender ->
  gp_content (sg_payload gm) = message ->
  (exists line, one_line (private_text id sender message) line /\ private_message_of line me =
     Some (fun now => LocalStore.mkLocalPrivateMessage id me sender sender me message now false false)) /\
  (exists line, one_line (private_echo id target message) line /\ private_message_of line me =
     Some (fun now => LocalStore.mkLocalPrivateMessage id me target me target message now true false)) /\
  (exists line, one_line (offline_private_text pm) line /\ private_message_of line me =
     Some (fun now => LocalStore.mkLocalPrivateMessage id me sender sender me message now false true)) /\
  (exists line, one_line (group_text id group sender message) line /\ private_message_of line me = None /\
     group_message_of line me =
     Some (fun now => LocalStore.mkLocalGroupMessage id me group sender message now (sender =s? me) false)) /\
  (exists line, one_line (offline_group_text gm) line /\ private_message_of line me = None /\
     group_message_of line me =
     Some (fun now => LocalStore.mkLocalGroupMessage id me group sender message now (sender =s? me) true)).
Proof.
  intros Hid Hs Ht Hg Hme Hm Hpi Hps Hpc Hgi Hgg Hgs Hgc. unfold offline_private_text, offline_group_text.
  rewrite Hpi, Hps, Hpc, Hgi, Hgg, Hgs, Hgc. split_and!.
  - by apply (private_text_read false false).
  - by apply (private_text_read false true).
  - by apply (private_text_read true false).
  - by apply (group_text_read false).
  - by apply (group_text_read true).
Qed.

(** The exception: "-" stands for no text, so a message of this one character is
    stored and shown as an empty one. *)
Theorem dash_message_lost id sender me :
  (0 <= id < 2 ^ 64)%Z -> is_valid_username sender = true -> me <> "" ->
  exists line message, one_line (private_text id sender "-") line /\
    private_message_of line me = Some message /\ LocalStore.pm_content (message 0%Z) = "".
Proof.
  intros Hid Hs Hme. destruct (username_chars sender Hs) as [Hn1 Hn2].
  exists ("[#" +:+ to_string id +:+ "]" +:+ from_marker +:+ sender +:+ "] " +:+ "-"). eexists. split; [split|split].
  - unfold private_text. simpl. by rewrite !str_app_assoc.
  - change (str_forall line_char ("[#" +:+ to_string id +:+ "]" +:+ from_marker +:+ sender +:+ "] " +:+ "-") = true).
    rewrite !str_forall_app, number_chars, (username_line sender Hs) by lia. done.
  - by apply (private_line_read false false id sender "-" me).
  - done.
Qed.
End ClientMessages.
