(* ===== verification/LoopProps.v ===== *)
(** * The router and the framing loop

    Every command goes to its own handler, an unknown one is answered and changes
    nothing, and the loop of [ChatServer::on_message] ends: each round that goes
    on has taken input. *)
From S2P Require Import Prelude Protocol FileUtils Payloads Tables ExampleCodec Database Transactions.
From S2P Require Import Registry Redis FileService Policy World Delivery Accounts Friends Groups Messages.
From S2P Require Import Files Server ServerLogic HandlerLogic EventLogic ServerProps UploadProps.
Import Payloads Tables Database Transactions World Delivery Accounts Friends Groups Messages Files Server
  ServerLogic HandlerLogic EventLogic.

Module LoopProps.

(** ** Routing *)

Definition command_names : list string := [
  "HELP"; "REGISTER"; "LOGIN"; "LOGOUT"; "DELETE_ACCOUNT"; "SAY"; "MSG"; "ENTER_PRIVATE"; "ENTER_GROUP";
  "WHO"; "ADD_FRIEND"; "ACCEPT_FRIEND"; "REJECT_FRIEND"; "REMOVE_FRIEND"; "BLOCK_FRIEND";
  "UNBLOCK_FRIEND"; "BLOCKED_FRIENDS"; "FRIENDS"; "FRIEND_REQUESTS"; "HISTORY_PUBLIC"; "HISTORY_PRIVATE";
  "CREATE_GROUP"; "DISSOLVE_GROUP"; "APPLY_GROUP"; "MY_GROUPS"; "LEAVE_GROUP"; "GROUP_MEMBERS";
  "ADD_GROUP_ADMIN"; "REMOVE_GROUP_ADMIN"; "GROUP_REQUESTS"; "GROUP_REQUESTS_ALL"; "APPROVE_GROUP";
  "REJECT_GROUP"; "REMOVE_GROUP_MEMBER"; "GROUP_MSG"; "HISTORY_GROUP"; "FILE_BEGIN_PRIVATE";
  "FILE_BEGIN_GROUP"; "FILE_CHUNK"; "FILE_END"; "FILE_ABORT"; "FILE_RESUME_REQUEST"; "FILE_RECEIVED";
  "FILE_RECEIVE_FAILED"; "PENDING"; "PING"; "QUIT" ].

Section Routing.
Context `{SqlEngine} `{ProtoCodecs} `{FileUtils.DigestEngine} `{ServerEnv}.

Lemma routes_names : map fst routes = command_names.
Proof. reflexivity. Qed.

Lemma add_all_lookup (l : list (string * Handler)) (r : Router) name h :
  NoDup (map fst l) -> (name, h) ∈ l ->
  foldl (fun r item => Server.add item.1 item.2 r) r l !! name = Some h.
Proof.
  revert r. induction l as [|[n h'] l IH]; intros r Hn Hin; [by apply elem_of_nil in Hin|].
  simpl in *. apply NoDup_cons in Hn as [Hn Hd]. apply elem_of_cons in Hin as [[= -> ->]|Hin]; [|by apply IH].
  clear IH Hd. assert (Server.add n h' r !! n = Some h') as Hr by apply lookup_insert_eq.
  revert Hr. generalize (Server.add n h' r) as r'. clear r.
  induction l as [|[m g] l IH]; intros r' Hr; [done|]. simpl in *.
  apply not_elem_of_cons in Hn as [Hne Hn]. apply IH; [done|]. unfold Server.add. by rewrite lookup_insert_ne.
Qed.

Lemma add_all_none (l : list (string * Handler)) (r : Router) name :
  name ∉ map fst l -> foldl (fun r item => Server.add item.1 item.2 r) r l !! name = r !! name.
Proof.
  revert r. induction l as [|[n h'] l IH]; intros r Hn; [done|]. simpl in *.
  apply not_elem_of_cons in Hn as [Hne Hn]. rewrite IH by done. unfold Server.add. by rewrite lookup_insert_ne.
Qed.

Lemma names_distinct : NoDup command_names.
Proof. apply (bool_decide_unpack _). by vm_compute. Qed.

(** The router is a function of the command name.  Each registered name has
    its own handler, which gets the raw arguments; a name that is not registered
    (names are compared in upper case, see [parse_command]) is answered with an
    error and changes nothing else. *)
Theorem routing c command w :
  (forall name h, (name, h) ∈ routes -> Protocol.cmd_name command = name ->
     (handle_command c command w).2 = (h c (Protocol.raw_arguments command) w).2) /\
  (Protocol.cmd_name command ∉ command_names ->
     handle_command c command w =
     send c ("[error] 未知命令，请输入当前状态支持的数字命令。 " +:+ nl +:+
             "Type HELP to see available commands." +:+ nl) w).
Proof.
  unfold handle_command, dispatch, command_router. split.
  - intros name h Hin ->. rewrite (add_all_lookup _ _ name h); [done| |done].
    rewrite routes_names. apply names_distinct.
  - intros Hn. rewrite add_all_none; [done|]. by rewrite routes_names.
Qed.
End Routing.

(** ** The loop ends *)

(** At most [n] bytes of input are left on [c]. *)
Definition input_le (c : ConnId) (n : nat) (w : World) : Prop := forall k,
  w_conns w !! c = Some k -> (String.length (c_in k) <= n)%nat.

Lemma input_conn c n d f w :
  (forall k, (String.length (c_in (f k)) <= String.length (c_in k))%nat) ->
  input_le c n w -> input_le c n (set_w_conns (alter f d (w_conns w)) w).
Proof.
  intros Hf Hw k. simpl. intros [(<- & k0 & Hk0 & ->)|[Hne Hk]]%lookup_alter_Some; [|by apply Hw].
  specialize (Hw k0 Hk0). specialize (Hf k0). lia.
Qed.

Section Loop.
Context `{SqlEngine} `{ProtoCodecs} `{FileUtils.DigestEngine} `{ServerEnv}.

#[local] Instance input_core c n : Core (input_le c n).
Proof.
  split; [| | |by intros w users _|by intros A m Hm w].
  - intros w w' _ E _ _ _. unfold input_le. by rewrite E.
  - intros d f Hf w. apply input_conn. intros k. apply Hf.
  - intros d f Hf w. by apply input_conn.
Qed.
#[local] Instance input_any_call c n : AnyCall (input_le c n).
Proof. split; [by intros A m w|by intros w|by intros w]. Qed.
#[local] Instance input_any_upload c n : AnyUpload (input_le c n).
Proof. split. intros d f Hf w. by apply input_conn. Qed.
#[local] Instance input_any_login c n : AnyLogin (input_le c n).
Proof. split; [intros d f Hf w; by apply input_conn|by intros A f w]. Qed.

(** Other threads do not write to the input of a connection. *)
Hypothesis others_input : forall c n w, input_le c n w -> input_le c n (others w).

#[local] Instance input_any_realtime c n : AnyRealtime (input_le c n).
Proof. split; [intros d f Hf w; by apply input_conn|intros w; apply others_input]. Qed.

Lemma input_command c n d command : keeps (input_le c n) (handle_command d command).
Proof. apply keeps_handle_command; [apply _|]. walk_routes. Qed.

Lemma retrieve_triple c m n :
  (0 < n)%nat ->
  triple (fun w => input_le c m w /\ exists k, w_conns w !! c = Some k /\ (n <= String.length (c_in k))%nat)
    (with_conn c (retrieve n)) (fun _ w => exists m', m = S m' /\ input_le c m' w) (fun _ => True).
Proof.
  intros Hn w [Hw (k & Hk & Hl)]. simpl. specialize (Hw k Hk). exists (m - 1)%nat. split; [lia|].
  intros k'. simpl. rewrite lookup_alter_eq, Hk. intros [= <-]. simpl. rewrite str_drop_length. lia.
Qed.

(** [n] bytes of input may follow the one the round has taken. *)
Definition taken (c : ConnId) (m : nat) (w : World) : Prop := exists m', m = S m' /\ input_le c m' w.

Lemma taken_keeps {A} c m (h : World.H A) :
  (forall m', keeps (input_le c m') h) -> triple (taken c m) h (fun _ => taken c m) (fun _ => True).
Proof.
  intros Hh w (m' & Hm & Hw). specialize (Hh m' w Hw). destruct (h w) as [[a|] w']; [|done]. by exists m'.
Qed.

Lemma triple_any {A} P (h : World.H A) : triple P h (fun _ _ => True) (fun _ => True).
Proof. intros w _. by destruct (h w) as [[a|] w']. Qed.

Lemma text_line_triple c k m n :
  triple (fun w => input_le c m w /\ w_conns w !! c = Some k) (text_line c k n)
    (fun r w => r.1 = true -> taken c m w) (fun _ => True).
Proof.
  unfold text_line. destruct (find_first _ _) as [i|] eqn:E; [|by intros w Hw].
  apply find_first_lt in E. cbv zeta.
  apply (triple_bind _ _ _ _ (fun _ => taken c m)).
  { apply (triple_weaken _ (fun w => input_le c m w /\
      exists k, w_conns w !! c = Some k /\ (S i <= String.length (c_in k))%nat) _ _ _ (fun _ => True));
      [|done|apply retrieve_triple; lia]. intros w [Hw Hk]. split; [done|]. exists k. split; [done|lia]. }
  intros ?. apply (triple_bind _ _ _ _ (fun _ => taken c m)).
  { apply taken_keeps. intros m'. case_match; [apply input_command|apply keeps_ret]. }
  intros ?. apply (triple_bind _ _ _ _ (fun _ => taken c m)); [by apply taken_keeps; intros m'; apply keeps_look|].
  intros w2 w Hw. destruct (w_conns w2 !! c); [|done]. destruct (session_of w2 c); [|done].
  destruct (_ && _); [done|]. by intros _.
Qed.

Lemma piece_rest_keeps c m u g :
  keeps (input_le c m) (set_session c (set_binary_upload (Some g)) ;;
    if (fr_remaining_bytes g =? 0)%Z then
      r ← on_fs (FileService.append_upload_bytes (up_temp_path u) (fr_start_offset g) (fr_bytes g));
      match r with
      | inl error => pause_file_upload c (up_token u) error
      | inr accepted =>
          set_session c (fun s => set_binary_upload None
            (set_upload (set_up_received_size accepted <$> upload s) s))
      end
    else mret tt).
Proof. walk_keeps. Qed.

Lemma round_triple c m n :
  triple (input_le c m) (message_round c n) (fun r w => r.1 = true -> taken c m w) (fun _ => True).
Proof.
  intros w Hw. unfold message_round. unfold mbind at 1, H_bind at 1. cbn [look].
  destruct (w_conns w !! c) as [k|] eqn:Ek; [|done]. destruct (session_of w c) as [s|]; [|done].
  destruct (negb (bool_decide (c_state k = Connected))); [done|].
  pose proof (text_line_triple c k m n w (conj Hw Ek)) as Ht.
  destruct (binary_upload s) as [f|]; [|exact Ht].
  destruct (Z.ltb_spec 0 (fr_remaining_bytes f)) as [Hf|]; [|exact Ht].
  destruct (upload s) as [u|]; [|done].
  destruct (negb _); [done|].
  destruct (is_empty (c_in k)) eqn:Ee; [done|].
  cut (triple (fun w => input_le c m w /\ w_conns w !! c = Some k)
    (binary_piece c u f (c_in k) ;; mret (true, n)) (fun r w => r.1 = true -> taken c m w) (fun _ => True)).
  { intros Hp. apply (Hp w). done. }
  apply (triple_bind _ _ _ _ (fun _ => taken c m)); [|intros ? w' Hw' _; exact Hw'].
  assert (0 < String.length (c_in k))%nat as Hl by (destruct (c_in k); simpl in *; [done|lia]).
  unfold binary_piece. cbv zeta. apply (triple_bind _ _ _ _ (fun _ => taken c m)).
  - eapply triple_weaken; [|done|apply (retrieve_triple c m); unfold strlen; lia].
    intros w' [Hw' Hk]. split; [done|]. exists k. split; [done|]. unfold strlen. lia.
  - intros ?. eapply triple_weaken; [done| |apply taken_keeps; intros m'; apply piece_rest_keeps]. done.
Qed.

(** With fuel beyond the length of the input the loop ends, as it does with one
    more than that length. *)
Lemma loop_fuel c m n extra w :
  input_le c m w ->
  (message_loop (S m + extra) c n w).1 <> Some false /\ message_loop (S m + extra) c n w = message_loop (S m) c n w.
Proof.
  revert n w. induction m as [m IH] using lt_wf_ind. intros n w Hw.
  change (S m + extra)%nat with (S (m + extra)). cbn [message_loop]. unfold mbind, H_bind.
  pose proof (round_triple c m n w Hw) as Hr.
  destruct (message_round c n w) as [[[[] n']|] w']; [|done..]. destruct (Hr eq_refl) as (m' & -> & Hw').
  simpl fst. simpl snd. change (S m' + extra)%nat with (S m' + extra)%nat. by apply IH; [lia|].
Qed.

(** C32: the loop of [on_message] ends.  With fuel for one round per byte of the
    input at hand and one, or more, the loop does not run out of it (its answer
    would be [Some false]): it breaks, or the handler returns; and it does the
    same whatever the fuel beyond that. *)
Theorem message_loop_ends c n w k fuel :
  w_conns w !! c = Some k -> (String.length (c_in k) < fuel)%nat ->
  (message_loop fuel c n w).1 <> Some false /\ message_loop fuel c n w = message_loop (S (String.length (c_in k))) c n w.
Proof.
  intros Hk Hf. replace fuel with (S (String.length (c_in k)) + (fuel - S (String.length (c_in k))))%nat by lia.
  apply loop_fuel. intros k' Hk'. by replace k' with k by congruence.
Qed.
End Loop.
End LoopProps.
