(* ===== verification/ClientUpload.v ===== *)
(** * An upload from the client's file to the server's part file

    The two ends composed: the bytes that the client's [send_upload_data] hands
    to its transport are cut at any places, given to the server piece by piece,
    and end as the part file that [finalize_upload] accepts. *)
From S2P Require Import Prelude Protocol FileUtils Payloads Tables Database FileService FileServiceProps World Files Server LoopProps.
From S2P Require Import ClientTransport TransportProps ClientState ClientFiles ClientDownload.
Import Payloads Tables World Files Server LoopProps ClientDownload.

Module ClientUpload.

(** ** The stream *)

Definition chunk_line (tok : string) (offset count : Z) : string :=
  "FILE_CHUNK" +:+ String " " (Protocol.join_words [tok; to_string offset; to_string count]).
Definition end_text (tok : string) : string := "FILE_END " +:+ tok +:+ nl.

(** The frames from [offset] on, at most [fuel] of them. *)
Fixpoint chunks (fuel : nat) (tok file : string) (offset : Z) : string :=
  match fuel with
  | 0 => ""
  | S fuel =>
      if negb (offset <? strlen file)%Z then ""
      else
        let count := Z.min (strlen file - offset) ClientState.kFileFrameBytes in
        chunk_line tok offset count +:+ nl +:+ substr (Z.to_nat offset) (Z.to_nat count) file +:+
        chunks fuel tok file (offset + count)
  end.
Definition enough_frames (fuel : nat) (file : string) (offset : Z) : Prop :=
  (strlen file - offset <= Z.of_nat fuel * ClientState.kFileFrameBytes)%Z.

Lemma chunks_step fuel tok file offset :
  enough_frames fuel file offset -> (0 <= offset <= strlen file)%Z ->
  (offset = strlen file /\ chunks fuel tok file offset = "") \/
  exists fuel' count, (0 < count <= kMaxFileFrameBytes)%Z /\ (offset + count <= strlen file)%Z /\
    enough_frames fuel' file (offset + count) /\
    chunks fuel tok file offset =
      chunk_line tok offset count +:+ nl +:+ substr (Z.to_nat offset) (Z.to_nat count) file +:+ chunks fuel' tok file (offset + count).
Proof.
  unfold enough_frames. assert (ClientState.kFileFrameBytes = 16777216)%Z as HB by done. intros Hf Ho.
  destruct fuel as [|fuel]; cbn [chunks]; [left; split; [lia|done]|].
  destruct (Z.ltb_spec offset (strlen file)) as [Hlt|Hle]; cbn [negb]; [right|left; split; [lia|done]].
  exists fuel, (Z.min (strlen file - offset) ClientState.kFileFrameBytes).
  assert (kMaxFileFrameBytes = 16777216)%Z as -> by done. rewrite HB in *. split_and!; [lia..|done].
Qed.

(** ** What the client hands over *)

Section Sending.
Import ClientState ClientFiles TransportProps ClientTransport.

Lemma send_all_sends {R} data c acc c' :
  ordered acc (net c) -> send_all (R := R) data c = (inr true, c') ->
  ordered (acc +:+ data) (net c') /\ output_queue_ (net c') = [] /\ disk c' = disk c.
Proof.
  intros Ho. unfold send_all, mbind, E_bind, on_net.
  destruct (send_step data acc (net c) Ho) as [(p & Hp & Hop) Hw]. cbn [perform waits] in *.
  destruct (ClientTransport.send data (net c)) as [[e|[]] t] eqn:Hs; cbn [fst snd] in *; [done|].
  intros [= <-]. cbn. inversion Hp; subst. auto.
Qed.

Lemma send_all_result {R} data c : exists b c', send_all (R := R) data c = (inr b, c').
Proof. unfold send_all, mbind, E_bind, on_net. destruct (ClientTransport.send data (net c)) as [[e|u] t]; cbn; eauto. Qed.

Lemma read_source_files {R} path c content c' :
  read_source (R := R) path c = (inr (inr content), c') ->
  FileService.files (disk c) !! path = Some content /\ FileService.files (disk c') = FileService.files (disk c).
Proof.
  unfold read_source, on_disk, FileService.open_read, FileService.fs_call. intros [= Hr <-]. revert Hr. cbn [fst snd].
  destruct (FileService.fs_faults (disk c)) as [|[|]]; cbn; destruct (FileService.files (disk c) !! path); cbn; naive_solver.
Qed.

Lemma read_source_net {R} path c r c' : read_source (R := R) path c = (r, c') -> net c' = net c.
Proof. by intros [= _ <-]. Qed.

Lemma send_file_sends source offset count acc t b t' :
  (0 < count)%Z -> ordered acc t -> ClientTransport.send_file source offset count t = (inr b, t') ->
  exists content, source = inr content /\ ordered (acc +:+ substr (Z.to_nat offset) (Z.to_nat count) content) t'.
Proof.
  intros Hc Ho Hs. destruct (file_step source offset count acc t) as [(p & Hp & Hop) _]; [lia|done|].
  cbn [perform] in *. unfold mbind, M_bind in *. rewrite Hs in *. cbn in *. inversion Hp as [| | | | |f o n Hl|]; subst.
  destruct source as [e|content]; [unfold strlen in Hl; cbn in Hl; lia|by exists content].
Qed.

(** The loop over the frames: what it hands over when it ends, and that it ends
    early only with [false]. *)
Lemma send_frames_sends fuel u offset reported c acc file r c' :
  ordered acc (net c) -> FileService.files (disk c) !! source_path u = Some file -> file_size u = strlen file -> (0 <= offset)%Z ->
  send_frames fuel u offset reported c = (r, c') ->
  r = inl false \/ r = inr tt /\ ordered (acc +:+ chunks fuel (token u) file offset) (net c').
Proof.
  revert offset reported c acc. induction fuel as [|fuel IH]; intros offset reported c acc Ho Hf Hs Hoff; cbn [send_frames chunks].
  { intros [= <- <-]. right. by rewrite str_app_nil_r. }
  rewrite Hs. destruct (Z.ltb_spec offset (strlen file)) as [Hlt|Hle]; cbn [negb];
    [|intros [= <- <-]; right; by rewrite str_app_nil_r].
  set (count := Z.min (strlen file - offset) kFileFrameBytes).
  assert (0 <= count)%Z as Hcount by (unfold count, kFileFrameBytes; lia).
  set (header := "FILE_CHUNK " +:+ token u +:+ " " +:+ to_string offset +:+ " " +:+ to_string count +:+ nl).
  destruct (send_all_result (R := bool) header c) as (b & c1 & Hsend). rewrite (bind_ok _ _ _ _ _ Hsend).
  destruct b; cbn [negb]; [|intros [= <- <-]; by left].
  destruct (send_all_sends header c acc c1 Ho Hsend) as (Ho1 & _ & Hd1).
  unfold mbind at 1, E_bind at 1. cbn [return_if mret E_ret].
  destruct (read_source (R := bool) (source_path u) c1) as [[r1|source] c2] eqn:Hread; [by injection Hread|].
  unfold mbind at 1, E_bind at 1. rewrite Hread. unfold mbind at 1, E_bind at 1.
  destruct (on_net (R := bool) (send_file source offset count) c2) as [[r2|sent] c3] eqn:Hnet; [by injection Hnet|].
  injection Hnet as Hn1 Hn2. destruct sent as [error|b]; [intros [= <- <-]; by left|].
  destruct (send_file_sends source offset count (acc +:+ header) (net c2) b (net c3)) as (content & -> & Ho3).
  { unfold count, kFileFrameBytes. lia. }
  { apply read_source_net in Hread. by rewrite Hread. }
  { rewrite <- Hn2. cbn. destruct (send_file source offset count (net c2)) as [x t]. cbn in *. by rewrite Hn1. }
  destruct (read_source_files (source_path u) c1 content c2 Hread) as (Hcont & Hfiles).
  rewrite Hd1, Hf in Hcont. injection Hcont as <-.
  intros Hr. assert (exists c4, net c4 = net c3 /\ disk c4 = disk c3 /\ send_frames fuel u (offset + count) true c4 = (r, c')) as (c4 & E1 & E2 & Hrest).
  { destruct reported; [by exists c3|]. eexists. split_and!; [| |exact Hr]; done. }
  destruct (IH (offset + count)%Z true c4 (acc +:+ header +:+ substr (Z.to_nat offset) (Z.to_nat count) file)) as [->|[-> Hord]];
    [by rewrite E1, <- str_app_assoc| |done|lia|done|by left|].
  { rewrite E2. rewrite <- Hn2. cbn. by rewrite Hfiles, Hd1. }
  right. split; [done|]. revert Hord. unfold header, chunk_line. cbn [Protocol.join_words]. by flatten.
Qed.

Lemma send_upload_sends {R} u start c acc file c' :
  ordered acc (net c) -> FileService.files (disk c) !! source_path u = Some file -> file_size u = strlen file -> (0 <= start)%Z ->
  send_upload_data (R := R) u start c = (inr true, c') ->
  (start <= strlen file)%Z /\
  wire (net c') = acc +:+ chunks (frames_fuel u start) (token u) file start +:+ end_text (token u).
Proof.
  intros Ho Hf Hs H0. unfold send_upload_data, fn. rewrite Hs.
  destruct (Z.ltb_spec (strlen file) start) as [Hlt|Hle]; [done|]. intros Hr. split; [done|]. revert Hr.
  unfold mbind, E_bind. destruct (send_frames (frames_fuel u start) u start false c) as [r c1] eqn:Hsf.
  destruct (send_frames_sends _ _ _ _ _ acc file _ _ Ho Hf Hs H0 Hsf) as [->|[-> Ho1]]; [done|].
  destruct (send_all_result (R := bool) ("FILE_END " +:+ token u +:+ nl) c1) as (b & c2 & Hend).
  rewrite Hend. intros [= -> <-]. destruct (send_all_sends _ c1 _ c2 Ho1 Hend) as (Ho2 & Hq & _).
  destruct Ho2 as [Hb _ _ _ _]. unfold pending in Hb. rewrite Hq, str_app_nil_r in Hb.
  rewrite Hb. unfold end_text. by flatten.
Qed.

Lemma frames_fuel_enough u start file : file_size u = strlen file -> (start <= strlen file)%Z -> enough_frames (frames_fuel u start) file start.
Proof.
  intros Hs Hle. unfold enough_frames, frames_fuel. rewrite Hs. assert (kFileFrameBytes = 16777216)%Z as -> by done.
  rewrite Nat2Z.inj_succ, Z2Nat.id by (apply Z.div_pos; lia).
  pose proof (Z.div_mod (strlen file - start + 16777216 - 1) 16777216 ltac:(done)).
  pose proof (Z.mod_pos_bound (strlen file - start + 16777216 - 1) 16777216 eq_refl). lia.
Qed.

End Sending.

(** ** What the server does with it *)

Lemma not_cr ch : line_char ch = true -> in_range 13 13 ch = false.
Proof. byte_cases ch. Qed.

Lemma strip_cr_line L : str_forall line_char L = true -> strip_cr L = L.
Proof.
  intros HL. unfold strip_cr. destruct (str_nth (String.length L - 1) L) as [ch|] eqn:Hn; [|done].
  apply (str_nth_forall _ _ _ _ HL), not_cr in Hn. by rewrite Hn.
Qed.

Lemma uint64_text n : (0 <= n < 2 ^ 64)%Z -> parse_uint64_value (to_string n) = Some n.
Proof.
  intros Hn. unfold parse_uint64_value. destruct (to_string_spec n) as (Hne & _); [lia|]. rewrite is_empty_false by done.
  by rewrite from_chars_to_string.
Qed.

Lemma dec_digits_length fuel n acc : String.length (dec_digits fuel n acc) <= fuel + String.length acc.
Proof.
  revert n acc. induction fuel as [|fuel IH]; intros n acc; cbn [dec_digits]; [lia|].
  destruct (n <? 10)%Z; [cbn; lia|]. etrans; [apply IH|]. cbn. lia.
Qed.
Lemma number_length n : (0 <= n < 2 ^ 63)%Z -> String.length (to_string n) <= 63.
Proof.
  intros Hn. unfold to_string. etrans; [apply dec_digits_length|]. cbn [String.length].
  assert (Z.log2 n < 63)%Z by (destruct (decide (n = 0)%Z) as [->|]; [done|apply Z.log2_lt_pow2; lia]). lia.
Qed.

(** What has arrived of a line that is not complete is no longer than it. *)
Lemma part_of_line L b more rest : find_first is_nl b = None -> b +:+ more = L +:+ nl +:+ rest -> String.length b <= String.length L.
Proof.
  intros Hn E. destruct (decide (String.length b <= String.length L)) as [|Hlt]; [done|exfalso].
  assert (str_take (String.length (L +:+ nl)) b = L +:+ nl) as Et.
  { rewrite <- (str_take_app_le _ b more) by (rewrite str_length_app; cbn; lia). rewrite E, <- str_app_assoc. apply str_take_app_length. }
  apply (newline_found L (str_drop (String.length (L +:+ nl)) b)). rewrite <- str_app_assoc, <- Et at 1. by rewrite str_take_drop.
Qed.

Section Receiving.
Context `{SqlEngine} `{ProtoCodecs} `{FileUtils.DigestEngine} `{ServerEnv}.
Context (c : ConnId) (tok file part name sha root : string).
Context (tok_ok : FileUtils.is_valid_transfer_token tok = true) (size_ok : (strlen file < 2 ^ 63)%Z).

Lemma tok_digits : str_forall isxdigit tok = true /\ strlen tok = 32%Z.
Proof. unfold FileUtils.is_valid_transfer_token in tok_ok. destruct (Z.eqb_spec (strlen tok) 32); [done|discriminate]. Qed.
Lemma tok_word : Protocol.is_word tok = true.
Proof.
  destruct tok_digits as [Hd Hl]. unfold Protocol.is_word. rewrite is_empty_false by (by intros ->).
  eapply str_forall_impl; [|exact Hd]. intros ch. byte_cases ch.
Qed.
Lemma tok_chars : str_forall line_char tok = true.
Proof. eapply str_forall_impl; [|apply tok_digits]. intros ch. byte_cases ch. Qed.

Lemma parse_chunk offset count :
  (0 <= offset)%Z -> (0 <= count)%Z ->
  Protocol.parse_command (chunk_line tok offset count) =
    Protocol.mkCommand "FILE_CHUNK" (Protocol.join_words [tok; to_string offset; to_string count]) /\
  Protocol.split_words (Protocol.join_words [tok; to_string offset; to_string count]) = [tok; to_string offset; to_string count].
Proof. intros. apply (parse_line "FILE_CHUNK"); [done|done|]. repeat constructor; [apply tok_word|by apply number_word..]. Qed.
Lemma chunk_chars offset count : (0 <= offset)%Z -> (0 <= count)%Z -> str_forall line_char (chunk_line tok offset count) = true.
Proof.
  intros. unfold chunk_line. cbn [Protocol.join_words]. rewrite str_forall_app. simpl.
  rewrite str_forall_app, tok_chars. simpl. rewrite str_forall_app, number_chars by done. simpl. by rewrite number_chars.
Qed.

(** The connection is logged in and uploads [file]; the server has [got] bytes in
    the part file, a frame or none, and [input] to read. *)
Definition server_at (got : Z) (fr : option PendingBinaryUploadFrame) (input : string) (w : World) : Prop :=
  exists k s u, w_conns w !! c = Some k /\ c_state k = Connected /\ c_in k = input /\ c_session k = Some s /\
    logged_in s = true /\ upload s = Some u /\ binary_upload s = fr /\
    up_token u = tok /\ up_temp_path u = part /\ up_expected_size u = strlen file /\ up_received_size u = got /\
    up_file_name u = name /\ up_sha256_hex u = sha /\
    FileService.fs_faults (w_fs w) = [] /\ FileService.storage_root (w_fs w) = root /\
    FileService.files (w_fs w) !! part = Some (str_take (Z.to_nat got) file) /\ (0 <= got <= strlen file)%Z.

Lemma router_chunk : command_router !! "FILE_CHUNK" = Some handle_file_chunk.
Proof.
  unfold command_router. apply add_all_lookup; [rewrite routes_names; apply names_distinct|].
  unfold routes. repeat (first [apply list_elem_of_here | apply list_elem_of_further]).
Qed.

Lemma hbind_ok {A B} (h : H A) (k : A -> H B) w a w' : h w = (Some a, w') -> (h ≫= k) w = k a w'.
Proof. intros E. unfold mbind, H_bind. by rewrite E. Qed.

(** The header of the next frame. *)
Lemma chunk_accepted got count s u w :
  session_of w c = Some s -> logged_in s = true -> upload s = Some u -> binary_upload s = None -> up_token u = tok ->
  up_expected_size u = strlen file -> up_received_size u = got -> (0 <= got)%Z -> (0 < count <= kMaxFileFrameBytes)%Z ->
  (got + count <= strlen file)%Z ->
  handle_file_chunk c (Protocol.join_words [tok; to_string got; to_string count]) w =
  set_session c (set_binary_upload (Some (mkFrame tok got got count ""))) w.
Proof.
  intros Hs Hl Hu Hb Ht He Hr Hpos Hc Hle. unfold handle_file_chunk.
  rewrite (hbind_ok _ _ w s w) by (unfold require_login, mbind, H_bind, session; by rewrite Hs, Hl).
  rewrite (proj2 (parse_chunk got count ltac:(lia) ltac:(lia))). cbn [token_of]. rewrite Hu, Ht, Hb, String.eqb_refl.
  cbn [negb pause_upload_if]. rewrite bool_decide_eq_false_2 by (by intros [? [=]]).
  unfold pause_upload_if. rewrite !(hbind_ok (mret tt) _ w tt w) by done.
  assert (kMaxFileFrameBytes = 16777216)%Z as HB by done.
  rewrite !uint64_text by lia. rewrite Hr, He, Z.eqb_refl. rewrite wrap_small by lia.
  destruct (Z.eqb_spec count 0); [lia|]. destruct (Z.ltb_spec kMaxFileFrameBytes count); [lia|].
  by destruct (Z.ltb_spec (strlen file) (got + count)); [lia|].
Qed.

(** A round that takes the header. *)
Lemma chunk_round got count b2 n w :
  server_at got None (chunk_line tok got count +:+ nl +:+ b2) w -> (0 < count <= kMaxFileFrameBytes)%Z -> (got + count <= strlen file)%Z ->
  exists w', message_round c n w = (Some (true, S n), w') /\ server_at got (Some (mkFrame tok got got count "")) b2 w'.
Proof.
  intros (k & s & u & Hk & Hst & Hin & Hses & Hlog & Hup & Hbin & Htok & Hpart & Hexp & Hrec & Hname & Hsha & Hfaults & Hroot & Hfile & Hgot) Hc Hle.
  unfold message_round. rewrite (hbind_ok look _ w w w) by done.
  assert (session_of w c = Some s) as Hso by (unfold session_of; by rewrite Hk).
  rewrite Hk, Hso, Hst, Hbin. rewrite bool_decide_eq_true_2 by done. cbn [negb].
  assert (str_forall line_char (chunk_line tok got count) = true) as Hch by (apply chunk_chars; lia).
  unfold text_line. rewrite Hin.
  assert (find_first is_nl (chunk_line tok got count +:+ nl +:+ b2) = Some (String.length (chunk_line tok got count))) as ->
    by (apply find_first_app; [by apply line_no_newline|done]).
  rewrite str_take_app_length, strip_cr_line by done. destruct (parse_chunk got count) as [-> _]; [lia..|].
  cbn [Protocol.cmd_name Protocol.raw_arguments is_empty negb].
  set (w1 := set_w_conns (alter (retrieve (S (String.length (chunk_line tok got count)))) c (w_conns w)) w).
  rewrite (hbind_ok (with_conn c _) _ w tt w1) by done.
  set (k1 := retrieve (S (String.length (chunk_line tok got count))) k).
  assert (w_conns w1 !! c = Some k1) as Hk1 by (unfold w1; cbn; by rewrite lookup_alter_eq, Hk).
  set (f := set_binary_upload (Some (mkFrame tok got got count ""))).
  set (w2 := set_w_conns (alter (fun k => set_c_session (f <$> c_session k) k) c (w_conns w1)) w1).
  assert (handle_command c (Protocol.mkCommand "FILE_CHUNK" (Protocol.join_words [tok; to_string got; to_string count])) w1 = (Some tt, w2)) as Hcmd.
  { unfold handle_command, dispatch. cbn [Protocol.cmd_name Protocol.raw_arguments]. rewrite router_chunk.
    unfold mbind, H_bind, call. rewrite (chunk_accepted got count s u) by (try done; try lia; unfold session_of; by rewrite Hk1). done. }
  rewrite (hbind_ok _ _ w1 tt w2) by exact Hcmd. rewrite (hbind_ok look _ w2 w2 w2) by done.
  assert (w_conns w2 !! c = Some (set_c_session (Some (f s)) k1)) as Hk2.
  { unfold w2. cbn [w_conns set_w_conns]. rewrite lookup_alter_eq, Hk1. cbn. unfold k1. cbn. by rewrite Hses. }
  unfold session_of. rewrite Hk2. cbn [mbind option_bind c_session set_c_session].
  rewrite (bool_decide_eq_true_2 (is_Some (binary_upload (f s)))) by (by eexists). rewrite andb_false_r, andb_false_l.
  exists w2. split; [done|]. exists (set_c_session (Some (f s)) k1), (f s), u. split_and!; try done; [|lia..].
  change (str_drop (S (String.length (chunk_line tok got count))) (c_in k) = b2). rewrite Hin.
  replace (S (String.length (chunk_line tok got count))) with (String.length (chunk_line tok got count +:+ nl)) by (rewrite str_length_app; cbn; lia).
  by rewrite <- str_app_assoc, str_drop_app_length.
Qed.

(** A disk that works appends the bytes of a frame. *)
Lemma append_works path cur bytes fs :
  FileService.fs_faults fs = [] -> FileService.files fs !! path = Some cur ->
  exists fs', FileService.append_upload_bytes path (strlen cur) bytes fs = (inr (strlen cur + strlen bytes)%Z, fs') /\
    FileService.fs_faults fs' = [] /\ FileService.storage_root fs' = FileService.storage_root fs /\
    FileService.files fs' !! path = Some (cur +:+ bytes).
Proof.
  destruct fs as [r fl ft]. cbn. intros -> Hp. unfold FileService.append_upload_bytes, mbind, M_bind.
  unfold FileService.or_error at 1, FileService.fs_size, FileService.fs_call at 1. cbn [FileService.fs_faults FileService.files].
  rewrite Hp. unfold reject_if. rewrite Z.eqb_refl. cbn [negb mret M_ret].
  destruct bytes as [|ch bytes]; (eexists; split; [done|]); cbn; rewrite ?lookup_insert_eq, Hp, ?str_app_nil_r; done.
Qed.

Lemma substr_more n m j (s : string) : substr n m s +:+ substr (n + m) j s = substr n (m + j) s.
Proof. unfold substr. by rewrite <- str_drop_drop, str_take_drop_take. Qed.

(** A round that takes bytes of a frame. *)
Lemma piece_round off m left input n w :
  server_at off (Some (mkFrame tok off (off + m) left (substr (Z.to_nat off) (Z.to_nat m) file))) input w ->
  (0 <= m)%Z -> (0 < left)%Z -> (off + m + left <= strlen file)%Z -> input <> "" ->
  let j := Z.min left (strlen input) in
  str_take (Z.to_nat j) input = substr (Z.to_nat (off + m)) (Z.to_nat j) file ->
  exists w', message_round c n w = (Some (true, n), w') /\
    if (left - j =? 0)%Z then server_at (off + m + left) None (str_drop (Z.to_nat j) input) w'
    else server_at off (Some (mkFrame tok off (off + m + j) (left - j) (substr (Z.to_nat off) (Z.to_nat (m + j)) file)))
           (str_drop (Z.to_nat j) input) w'.
Proof.
  intros (k & s & u & Hk & Hst & Hin & Hses & Hlog & Hup & Hbin & Htok & Hpart & Hexp & Hrec & Hname & Hsha & Hfaults & Hroot & Hfile & Hgot) Hm Hl Hle Hne j Hj.
  assert (0 < strlen input)%Z as Hlen by (destruct input; [done|unfold strlen; cbn; lia]). assert (0 < j <= left)%Z as Hj0 by lia.
  assert (substr (Z.to_nat off) (Z.to_nat m) file +:+ str_take (Z.to_nat j) input = substr (Z.to_nat off) (Z.to_nat (m + j)) file) as Hacc.
  { rewrite Hj, Z2Nat.inj_add, substr_more by lia. by rewrite Z2Nat.inj_add by lia. }
  unfold message_round. rewrite (hbind_ok look _ w w w) by done.
  assert (session_of w c = Some s) as Hso by (unfold session_of; by rewrite Hk).
  rewrite Hk, Hso, Hst, Hbin, Hup, Hin. rewrite bool_decide_eq_true_2 by done. cbn [negb fr_remaining_bytes fr_token].
  destruct (Z.ltb_spec 0 left); [|lia]. rewrite Htok, String.eqb_refl, is_empty_false by done. cbn [negb].
  unfold binary_piece. cbn [fr_remaining_bytes fr_token fr_start_offset fr_next_offset fr_bytes]. fold j. rewrite Hacc.
  set (fr := mkFrame tok off (off + m + j) (left - j) (substr (Z.to_nat off) (Z.to_nat (m + j)) file)).
  set (k1 := retrieve (Z.to_nat j) k). set (w1 := set_w_conns (alter (retrieve (Z.to_nat j)) c (w_conns w)) w).
  set (f := set_binary_upload (Some fr)).
  set (w2 := set_w_conns (alter (fun k => set_c_session (f <$> c_session k) k) c (w_conns w1)) w1).
  assert (w_conns w2 !! c = Some (set_c_session (Some (f s)) k1)) as Hk2.
  { unfold w2, w1. cbn [w_conns set_w_conns]. rewrite !lookup_alter_eq, Hk. unfold k1. cbn. by rewrite Hses. }
  assert (forall h : H unit, (with_conn c (retrieve (Z.to_nat j)) ;; set_session c f ;; h) w = h w2) as Hstart by done.
  destruct (Z.eqb_spec (left - j) 0) as [Hz|Hz].
  - assert (strlen (str_take (Z.to_nat off) file) = off) as Hoff by (unfold strlen in *; rewrite str_take_length; lia).
    destruct (append_works part (str_take (Z.to_nat off) file) (fr_bytes fr) (w_fs w2)) as (fs' & Happ & Hf' & Hr' & Hp'); [done|done|].
    rewrite Hoff in Happ.
    set (g := fun s0 => set_binary_upload None (set_upload (set_up_received_size (off + strlen (fr_bytes fr)) <$> upload s0) s0)).
    set (w4 := set_w_conns (alter (fun k => set_c_session (g <$> c_session k) k) c (w_conns w2)) (set_w_fs fs' w2)).
    exists w4. split.
    + rewrite (hbind_ok _ _ w tt w4); [done|]. rewrite Hstart. unfold mbind, H_bind, on_fs. rewrite Hpart.
      cbn [fr_start_offset fr_bytes fr] in Happ |- *. rewrite Happ. done.
    + assert (strlen (fr_bytes fr) = m + left)%Z as Hb.
      { cbn [fr_bytes fr]. unfold substr, strlen in *. rewrite str_take_length, str_drop_length. lia. }
      exists (set_c_session (Some (g (f s))) k1), (g (f s)), (set_up_received_size (off + m + left) u).
      split_and!; try done; try lia; cbn [w_conns set_w_conns w4].
      * by rewrite lookup_alter_eq, Hk2.
      * cbn. by rewrite Hin.
      * unfold g, f. cbn [upload set_binary_upload set_upload]. rewrite Hup, Hb. cbn. by rewrite Z.add_assoc.
      * change (FileService.storage_root fs' = root). by rewrite Hr'.
      * change (FileService.files fs' !! part = Some (str_take (Z.to_nat (off + m + left)) file)). rewrite Hp'. cbn [fr_bytes fr]. unfold substr. rewrite str_take_drop_take. do 2 f_equal. lia.
  - exists w2. split; [by rewrite (hbind_ok _ _ w tt w2)|].
    exists (set_c_session (Some (f s)) k1), (f s), u. split_and!; try done; try lia. cbn. by rewrite Hin.
Qed.

(** A round without a whole line, and a round that waits for bytes of a frame. *)
Lemma no_line_round got input n w :
  server_at got None input w -> find_first is_nl input = None -> message_round c n w = (Some (false, n), w).
Proof.
  intros (k & s & u & Hk & Hst & Hin & Hses & Hlog & Hup & Hbin & _) Hn. unfold message_round.
  rewrite (hbind_ok look _ w w w) by done. assert (session_of w c = Some s) as Hso by (unfold session_of; by rewrite Hk).
  rewrite Hk, Hso, Hst, Hbin. rewrite bool_decide_eq_true_2 by done. cbn [negb]. unfold text_line. by rewrite Hin, Hn.
Qed.
Lemma no_bytes_round got off m left bytes n w :
  server_at got (Some (mkFrame tok off m left bytes)) "" w -> (0 < left)%Z -> message_round c n w = (None, w).
Proof.
  intros (k & s & u & Hk & Hst & Hin & Hses & Hlog & Hup & Hbin & Htok & _) Hl. unfold message_round.
  rewrite (hbind_ok look _ w w w) by done. assert (session_of w c = Some s) as Hso by (unfold session_of; by rewrite Hk).
  rewrite Hk, Hso, Hst, Hbin, Hup, Hin. rewrite bool_decide_eq_true_2 by done. cbn [negb fr_remaining_bytes fr_token is_empty].
  destruct (Z.ltb_spec 0 left); [|lia]. by rewrite Htok, String.eqb_refl.
Qed.

(** What the server, in each of its states, still expects. *)
Inductive awaiting (input : string) (w : World) : string -> Prop :=
  | await_line fuel off :
      server_at off None input w -> enough_frames fuel file off ->
      awaiting input w (chunks fuel tok file off +:+ end_text tok)
  | await_bytes fuel off m left :
      server_at off (Some (mkFrame tok off (off + m) left (substr (Z.to_nat off) (Z.to_nat m) file))) input w ->
      (0 <= m)%Z -> (0 < left)%Z -> (off + m + left <= strlen file)%Z -> enough_frames fuel file (off + m + left) ->
      awaiting input w (substr (Z.to_nat (off + m)) (Z.to_nat left) file +:+ chunks fuel tok file (off + m + left) +:+ end_text tok).

(** Where the server stops to read, with [more] to come: inside a line, or behind
    all the bytes of a frame that have arrived. *)
Inductive paused (more : string) (w : World) : Prop :=
  | paused_line fuel off input :
      server_at off None input w -> enough_frames fuel file off -> find_first is_nl input = None ->
      input +:+ more = chunks fuel tok file off +:+ end_text tok -> paused more w
  | paused_bytes fuel off m left :
      server_at off (Some (mkFrame tok off (off + m) left (substr (Z.to_nat off) (Z.to_nat m) file))) "" w ->
      (0 <= m)%Z -> (0 < left)%Z -> (off + m + left <= strlen file)%Z -> enough_frames fuel file (off + m + left) ->
      more = substr (Z.to_nat (off + m)) (Z.to_nat left) file +:+ chunks fuel tok file (off + m + left) +:+ end_text tok ->
      paused more w.

(** A round leaves the agreement with less to read, or changes nothing and waits. *)
Definition round_ok (more input : string) (n : nat) (w : World) : Prop :=
  (exists n' w' input' rest, message_round c n w = (Some (true, n'), w') /\ awaiting input' w' rest /\ input' +:+ more = rest /\
     String.length input' < String.length input) \/
  paused more w /\ (message_round c n w = (None, w) \/
    message_round c n w = (Some (false, n), w) /\ (strlen input <= kMaxInputBuffer)%Z).

Lemma short_line fuel off input n w L more rest :
  server_at off None input w -> enough_frames fuel file off -> input +:+ more = chunks fuel tok file off +:+ end_text tok ->
  find_first is_nl input = None -> input +:+ more = L +:+ nl +:+ rest -> String.length L <= 1000 -> round_ok more input n w.
Proof.
  intros Hs Hf Ho Hn E HL. right. split; [by eapply paused_line|]. right. split; [by eapply no_line_round|].
  pose proof (part_of_line _ _ _ _ Hn E). unfold strlen, kMaxInputBuffer. lia.
Qed.

Lemma round_line fuel off input more n w :
  server_at off None input w -> enough_frames fuel file off -> input +:+ more = chunks fuel tok file off +:+ end_text tok ->
  more <> "" -> round_ok more input n w.
Proof.
  intros Hs Hf E Hm. pose proof E as E0. pose proof Hs as (_ & _ & _ & _ & _ & _ & _ & _ & _ & _ & _ & _ & _ & _ & _ & _ & _ & _ & _ & Hoff).
  destruct tok_digits as [_ Htl]. unfold strlen in Htl.
  destruct (chunks_step fuel tok file off Hf Hoff) as [[Hend Hch]|(fuel' & count & Hcount & Hle & Hf' & Hch)]; rewrite Hch in E.
  - rewrite str_app_nil_l in E. unfold end_text in E.
    assert (input +:+ more = ("FILE_END " +:+ tok) +:+ nl +:+ "") as E' by (rewrite E; by flatten).
    destruct (first_line ("FILE_END " +:+ tok) input more "") as [Hn|(b2 & Eb & E2 & _)];
      [by rewrite str_forall_app, (line_no_newline _ tok_chars)|done| |].
    + eapply short_line; [done..|exact E'|]. rewrite str_length_app. cbn. lia.
    + by destruct b2, more.
  - rewrite !str_app_assoc in E.
    destruct (first_line (chunk_line tok off count) input more
      (substr (Z.to_nat off) (Z.to_nat count) file +:+ chunks fuel' tok file (off + count) +:+ end_text tok)) as [Hn|(b2 & Eb & E2 & _)];
      [apply line_no_newline, chunk_chars; lia|done| |].
    + eapply short_line; [done..|exact E|]. unfold chunk_line. cbn [Protocol.join_words].
      rewrite !str_length_app. cbn [String.length]. rewrite !str_length_app. cbn [String.length]. rewrite !str_length_app. cbn [String.length].
      pose proof (number_length off ltac:(lia)). pose proof (number_length count ltac:(lia)). lia.
    + left. subst input. destruct (chunk_round off count b2 n w Hs Hcount Hle) as (w' & Hr & Hs').
      exists (S n), w', b2, (substr (Z.to_nat off) (Z.to_nat count) file +:+ chunks fuel' tok file (off + count) +:+ end_text tok).
      split_and!; [done| |done|rewrite !str_length_app; cbn; lia].
      pose proof (await_bytes b2 w' fuel' off 0 count) as Ha. rewrite !Z.add_0_r in Ha. apply Ha; try done; lia.
Qed.

Lemma round_bytes fuel off m left input more n w :
  server_at off (Some (mkFrame tok off (off + m) left (substr (Z.to_nat off) (Z.to_nat m) file))) input w ->
  (0 <= m)%Z -> (0 < left)%Z -> (off + m + left <= strlen file)%Z -> enough_frames fuel file (off + m + left) ->
  input +:+ more = substr (Z.to_nat (off + m)) (Z.to_nat left) file +:+ chunks fuel tok file (off + m + left) +:+ end_text tok ->
  round_ok more input n w.
Proof.
  intros Hs Hm Hl Hle Hf E. pose proof Hs as (_ & _ & _ & _ & _ & _ & _ & _ & _ & _ & _ & _ & _ & _ & _ & _ & _ & _ & _ & Hoff).
  destruct (decide (input = "")) as [->|Hne].
  { right. split; [by eapply paused_bytes|left; by eapply no_bytes_round]. }
  left.
  set (j := Z.min left (strlen input)).
  assert (0 < strlen input)%Z as Hlen by (destruct input; [done|unfold strlen; cbn; lia]).
  assert (String.length (substr (Z.to_nat (off + m)) (Z.to_nat left) file) = Z.to_nat left) as Hpiece.
  { unfold substr. rewrite str_take_length, str_drop_length. unfold strlen in *. lia. }
  destruct (payload_split input more (substr (Z.to_nat (off + m)) (Z.to_nat left) file)
    (chunks fuel tok file (off + m + left) +:+ end_text tok) (Z.to_nat j)) as [E1 E2]; [unfold strlen in *; lia|lia|done|].
  assert (str_take (Z.to_nat j) input = substr (Z.to_nat (off + m)) (Z.to_nat j) file) as Hj.
  { rewrite E1. unfold substr. rewrite str_take_take. f_equal. lia. }
  destruct (piece_round off m left input n w Hs Hm Hl Hle Hne Hj) as (w' & Hr & Hs'). fold j in Hs'.
  rewrite substr_drop, <- Z2Nat.inj_add, <- Z2Nat.inj_sub in E2 by lia.
  eexists n, w', (str_drop (Z.to_nat j) input), _. split; [done|]. split; [|split; [exact E2|rewrite str_drop_length; unfold strlen in *; lia]].
  destruct (Z.eqb_spec (left - j) 0) as [Hz|Hz].
  - rewrite Hz. unfold substr. rewrite str_take_0, str_app_nil_l. by apply await_line.
  - pose proof (await_bytes (str_drop (Z.to_nat j) input) w' fuel off (m + j) (left - j)) as Ha.
    replace (off + (m + j))%Z with (off + m + j)%Z in Ha by lia. replace (off + m + j + (left - j))%Z with (off + m + left)%Z in Ha by lia.
    apply Ha; try done; lia.
Qed.

Lemma awaiting_round input w rest more n :
  awaiting input w rest -> input +:+ more = rest -> more <> "" -> round_ok more input n w.
Proof. intros [] E Hm; [by eapply round_line|by eapply round_bytes]. Qed.

Lemma awaiting_loop fuel input w rest more n :
  awaiting input w rest -> input +:+ more = rest -> more <> "" -> String.length input < fuel ->
  exists w' r, message_loop fuel c n w = (r, w') /\ paused more w' /\
    (r = None \/ r = Some true /\ exists input', (strlen input' <= kMaxInputBuffer)%Z /\
       exists k, w_conns w' !! c = Some k /\ c_in k = input').
Proof.
  revert input w rest n. induction fuel as [|fuel IH]; intros input w rest n Ha E Hm Hlt; [lia|]. cbn [message_loop].
  assert (exists k, w_conns w !! c = Some k /\ c_in k = input) as (k & Hk & Hin).
  { destruct Ha as [fuel' off (k & s & u & Hk & _ & Hin & _)|fuel' off m left (k & s & u & Hk & _ & Hin & _)]; by exists k. }
  destruct (awaiting_round input w rest more n Ha E Hm) as [(n' & w' & input' & rest' & Hr & Ha' & E' & Hl)|[Hp [Hr|[Hr Hs]]]];
    unfold mbind, H_bind; rewrite Hr.
  - cbn [fst snd]. apply (IH input' w' rest' n'); [done..|lia].
  - exists w, None. auto.
  - exists w, (Some true). cbn. split_and!; [done|done|]. right. split; [done|]. exists input. split; [done|]. by exists k.
Qed.

(** More input. *)
Lemma server_at_input got fr input bytes w k :
  w_conns w !! c = Some k -> server_at got fr input w ->
  server_at got fr (input +:+ bytes) (set_w_conns (<[c := set_c_in (c_in k +:+ bytes) k]> (w_conns w)) w).
Proof.
  intros Hk (k' & s & u & Hk' & Hst & Hin & Hrest). assert (k' = k) as -> by congruence.
  exists (set_c_in (c_in k +:+ bytes) k), s, u. split; [apply lookup_insert_eq|]. split; [exact Hst|].
  split; [by rewrite <- Hin|exact Hrest].
Qed.

(** One piece arrives. *)
Lemma piece_arrives input w rest bytes more :
  awaiting input w rest -> input +:+ bytes +:+ more = rest -> more <> "" -> paused more (step (EvBytes c bytes) w).
Proof.
  intros Ha E Hm. assert (exists k s, w_conns w !! c = Some k /\ c_state k = Connected /\ c_in k = input /\ c_session k = Some s) as (k & s & Hk & Hst & Hin & Hse).
  { destruct Ha as [fuel off (k & s & u & Hk & Hst & Hin & Hse & _)|fuel off m left (k & s & u & Hk & Hst & Hin & Hse & _)]; by exists k, s. }
  cbn [step]. rewrite Hk, Hst. set (w1 := set_w_conns _ w).
  assert (w_conns w1 !! c = Some (set_c_in (c_in k +:+ bytes) k)) as Hk1 by apply lookup_insert_eq.
  assert (awaiting (input +:+ bytes) w1 rest) as Ha1.
  { destruct Ha as [fuel off Hs Hf|fuel off m left Hs Hm0 Hl Hle Hf]; [apply await_line; [|done]|apply await_bytes; [|done..]];
      by apply server_at_input. }
  unfold on_message. rewrite (hbind_ok look _ w1 w1 w1) by done. unfold session_of. rewrite Hk1.
  cbn [mbind option_bind c_session set_c_in fmap option_fmap option_map default c_in]. rewrite Hse, Hin.
  destruct (awaiting_loop (S (String.length (input +:+ bytes))) (input +:+ bytes) w1 rest more 0) as (w' & r & Hr & Hp & Hcase);
    [done|by rewrite str_app_assoc|done|cbn; lia|].
  unfold mbind at 1, H_bind at 1. cbn [fmap option_fmap option_map c_in set_c_in default id from_option]. rewrite Hr. destruct Hcase as [->|(-> & input' & Hs & k' & Hk' & Hin')]; [done|].
  rewrite (hbind_ok look _ w' w' w') by done. rewrite Hk'. cbn. destruct (c_session k') as [s'|]; [|done].
  rewrite Hin'. destruct (Z.ltb_spec kMaxInputBuffer (strlen input')); [lia|]. by rewrite andb_false_r.
Qed.

Lemma paused_awaiting more w : paused more w -> exists input rest, awaiting input w rest /\ input +:+ more = rest.
Proof.
  intros [fuel off input Hs Hf _ E|fuel off m left Hs Hm Hl Hle Hf E].
  - exists input. eexists. split; [by apply (await_line _ _ fuel off)|done].
  - exists "". eexists. split; [by apply (await_bytes _ _ fuel off m left)|done].
Qed.

Lemma pieces_arrive pieces input w rest more :
  pieces <> [] -> awaiting input w rest -> input +:+ foldr String.append "" pieces +:+ more = rest -> more <> "" ->
  paused more (run (map (EvBytes c) pieces) w).
Proof.
  intros Hne Ha E Hm. revert input w rest Hne Ha E. induction pieces as [|x pieces IH]; intros input w rest Hne Ha E; [done|].
  cbn [foldr map run] in *. rewrite str_app_assoc in E.
  destruct pieces as [|y pieces]; [eapply piece_arrives; by try done|].
  assert (foldr String.append "" (y :: pieces) +:+ more <> "") as Hm' by (by destruct (foldr String.append "" (y :: pieces)), more).
  destruct (paused_awaiting _ _ (piece_arrives _ _ _ _ _ Ha E Hm')) as (input' & rest' & Ha' & E').
  by apply (IH input' _ rest').
Qed.

(** When only the last line, or a part of it, is still to come. *)
Lemma paused_end more w :
  paused more w -> 0 < String.length more <= String.length (end_text tok) ->
  exists input, server_at (strlen file) None input w /\ input +:+ more = end_text tok.
Proof.
  intros [fuel off input Hs Hf Hn E|fuel off m left Hs Hm Hl Hle Hf E] Hmore.
  - pose proof Hs as (_ & _ & _ & _ & _ & _ & _ & _ & _ & _ & _ & _ & _ & _ & _ & _ & _ & _ & _ & Hoff).
    destruct (chunks_step fuel tok file off Hf Hoff) as [[-> Hch]|(fuel' & count & Hcount & Hle & Hf' & Hch)]; rewrite Hch in E.
    + exists input. by rewrite str_app_nil_l in E.
    + exfalso. pose proof (f_equal String.length E) as El. rewrite !str_app_assoc in E. apply part_of_line in E; [|done].
      rewrite !str_length_app in El. cbn in El. lia.
  - exfalso. apply (f_equal String.length) in E. rewrite !str_length_app in E.
    assert (String.length (substr (Z.to_nat (off + m)) (Z.to_nat left) file) = Z.to_nat left).
    { pose proof Hs as (_ & _ & _ & _ & _ & _ & _ & _ & _ & _ & _ & _ & _ & _ & _ & _ & _ & _ & _ & Hoff).
      unfold substr. rewrite str_take_length, str_drop_length. unfold strlen in *. lia. }
    lia.
Qed.

End Receiving.

(** What [FILE_END] then finds: the upload is accepted. *)
Lemma finalize_works `{ProtoCodecs} `{FileUtils.DigestEngine} tok name sha file fs :
  FileService.fs_faults fs = [] -> FileService.files fs !! FileService.upload_part_path fs tok = Some file ->
  FileUtils.sha256_file_hex (FileService.upload_part_path fs tok) (FileUtils.ReadBytes file true) = inr (str_map tolower sha) ->
  exists rel fs', FileService.finalize_upload (FileService.upload_part_path fs tok) tok name (strlen file) sha fs = (inr rel, fs') /\
    FileServiceProps.content_of fs' (FileService.storage_root fs +:+ "/" +:+ rel) = file.
Proof.
  destruct fs as [r fl ft]. cbn [FileService.fs_faults FileService.files]. intros -> Hp Hs.
  unfold FileService.finalize_upload, mbind, M_bind.
  unfold FileService.or_error at 1, FileService.fs_size, FileService.fs_call at 1. cbn [FileService.fs_faults FileService.files].
  rewrite Hp. unfold reject_if. rewrite Z.eqb_refl. cbn [negb mret M_ret].
  unfold FileService.digest_of_file, FileService.open_read, FileService.fs_call at 1. cbn [FileService.fs_faults FileService.files].
  rewrite Hp, Hs, String.eqb_refl. cbn [negb mret M_ret get].
  unfold FileService.fs_rename, FileService.fs_call at 1. cbn [FileService.fs_faults FileService.files]. rewrite Hp.
  unfold FileService.ignoring, FileService.fs_remove, FileService.fs_call. cbn [snd FileService.fs_faults FileService.set_files].
  eexists _, _. split; [reflexivity|]. unfold FileServiceProps.content_of. cbn [snd FileService.files FileService.set_files FileService.storage_root].
  change (r +:+ "/" +:+ _) with (FileServiceProps.final_path r tok name).
  rewrite lookup_delete_ne; [by rewrite lookup_insert_eq|]. apply not_eq_sym, FileServiceProps.final_not_tmp.
Qed.

(** C18: an upload, from the client's file to the server's.  When
    [send_upload_data] reports success, the bytes it has put on the wire, cut
    at any places and given to the server one event each up to somewhere in
    the last line, make the server's part file the client's file, byte for
    byte; the upload has its declared size, no frame is open, the connection
    lives and its buffer holds what has arrived of [FILE_END]; and
    [finalize_upload], which that line calls, accepts the file under the
    declared digest and stores it. *)
Theorem upload_end_to_end `{SqlEngine} `{ProtoCodecs} `{FileUtils.DigestEngine} `{ServerEnv} {R}
    (up : ClientState.PendingUpload) start file (cl cl' : ClientState.Client) acc c w k s u pieces more :
  TransportProps.ordered acc (ClientState.net cl) -> FileService.files (ClientState.disk cl) !! ClientState.source_path up = Some file ->
  ClientState.file_size up = strlen file -> FileUtils.is_valid_transfer_token (ClientState.token up) = true ->
  (0 <= start)%Z -> (strlen file < 2 ^ 63)%Z -> ClientFiles.send_upload_data (R := R) up start cl = (inr true, cl') ->
  w_conns w !! c = Some k -> c_state k = Connected -> c_in k = "" -> c_session k = Some s -> logged_in s = true ->
  upload s = Some u -> binary_upload s = None -> up_token u = ClientState.token up ->
  up_expected_size u = strlen file -> up_received_size u = start -> FileService.fs_faults (w_fs w) = [] ->
  up_temp_path u = FileService.upload_part_path (w_fs w) (up_token u) ->
  FileService.files (w_fs w) !! up_temp_path u = Some (str_take (Z.to_nat start) file) ->
  FileUtils.sha256_file_hex (up_temp_path u) (FileUtils.ReadBytes file true) = inr (str_map tolower (up_sha256_hex u)) ->
  pieces <> [] -> acc +:+ foldr String.append "" pieces +:+ more = ClientTransport.wire (ClientState.net cl') ->
  0 < String.length more <= String.length (end_text (ClientState.token up)) ->
  let w' := run (map (EvBytes c) pieces) w in
  FileService.files (w_fs w') !! up_temp_path u = Some file /\
  (exists k' s' u', w_conns w' !! c = Some k' /\ c_state k' = Connected /\ c_session k' = Some s' /\
     c_in k' +:+ more = end_text (ClientState.token up) /\ binary_upload s' = None /\ upload s' = Some u' /\
     up_token u' = up_token u /\ up_received_size u' = up_expected_size u' /\ up_expected_size u' = strlen file) /\
  exists rel fs', FileService.finalize_upload (up_temp_path u) (up_token u) (up_file_name u) (up_expected_size u) (up_sha256_hex u) (w_fs w') = (inr rel, fs') /\
    FileServiceProps.content_of fs' (FileService.storage_root (w_fs w) +:+ "/" +:+ rel) = file.
Proof.
  intros Ho Hf Hsz Htok Hpos Hlt Hsend Hk Hst Hin Hse Hlog Hup Hbin Hut Hexp Hrec Hfaults Htmp Hpart Hsha Hne Hwire Hmore w'.
  destruct (send_upload_sends up start cl acc file cl' Ho Hf Hsz Hpos Hsend) as [Hle Hw]. rewrite Hw in Hwire.
  apply (inj (String.append acc)) in Hwire.
  set (tok := ClientState.token up) in *.
  assert (server_at c tok file (up_temp_path u) (up_file_name u) (up_sha256_hex u) (FileService.storage_root (w_fs w)) start None "" w) as Hs0
    by (exists k, s, u; split_and!; done || lia).
  destruct (paused_end c tok file (up_temp_path u) (up_file_name u) (up_sha256_hex u) (FileService.storage_root (w_fs w)) more w')
    as (input & (k' & s' & u' & H') & Hend).
  - apply (pieces_arrive c tok file _ _ _ _ Htok Hlt pieces "" w (chunks (ClientFiles.frames_fuel up start) tok file start +:+ end_text tok)); [done| |by rewrite str_app_nil_l|].
    + apply await_line; [done|]. by apply frames_fuel_enough.
    + intros ->. cbn in Hmore. lia.
  - done.
  - destruct H' as (Hk' & Hst' & Hin' & Hse' & Hlog' & Hup' & Hbin' & Htok' & Hpart' & Hexp' & Hrec' & Hname' & Hsha' & Hfaults' & Hroot' & Hfile' & _).
    assert (str_take (Z.to_nat (strlen file)) file = file) as Hall by (apply str_take_ge; unfold strlen; lia). rewrite Hall in Hfile'.
    split_and!; [done|exists k', s', u'; split_and!; congruence|].
    assert (up_temp_path u = FileService.upload_part_path (w_fs w') (up_token u)) as Hp by (rewrite Htmp; unfold FileService.upload_part_path; congruence).
    rewrite Hexp, <- Hroot'. rewrite Hp in Hfile', Hsha |- *. by apply finalize_works.
Qed.

End ClientUpload.
