(* ===== verification/Scenario.v ===== *)
(** * A concrete server

    A server with concrete parameters (the engine's texts, the codecs of
    [ExampleCodec], a digest and a key derivation that keep a prefix of their
    input) and a conversation of two users, on which statements about runs can
    be evaluated. *)
From S2P Require Import Prelude Protocol FileUtils Password Payloads Tables ExampleCodec Database.
From S2P Require Import Transactions Registry Redis FileService Policy World Delivery Accounts Friends Groups.
From S2P Require Import Messages Files Server ServerLogic ServerProps.
Import Payloads Tables ExampleCodec Database World Server.

Module Scenario.

#[export] Existing Instance example_engine.
#[export] Existing Instance example_codecs.

Definition padding : string := "xxxxxxxxxxxxxxxxxxxxxxxxxxxxxxxx".
Definition pad_to (n : nat) (s : string) : string := str_take n (s +:+ padding +:+ padding).

#[export] Instance example_digest : FileUtils.DigestEngine := {|
  FileUtils.md_ctx := string;
  FileUtils.EVP_MD_CTX_new := Some "";
  FileUtils.EVP_DigestInit := fun _ => Some "";
  FileUtils.EVP_DigestUpdate := fun ctx bytes => Some (ctx +:+ bytes);
  FileUtils.EVP_DigestFinal := fun ctx => Some (pad_to 32 ctx);
|}.

Lemma updates_append chunks ctx ctx' :
  foldr (fun c k ctx => FileUtils.EVP_DigestUpdate ctx c ≫= k) Some chunks ctx = Some ctx' ->
  ctx' = ctx +:+ foldr String.append "" chunks.
Proof.
  revert ctx. induction chunks as [|c chunks IH]; intros ctx; simpl.
  - intros [= <-]. by rewrite str_app_nil_r.
  - intros Hf. apply IH in Hf as ->. by rewrite str_app_assoc.
Qed.

#[export] Instance example_digest_laws : FileUtils.DigestLaws (pad_to 32).
Proof.
  split. intros ctx0 ctx chunks [= <-] Hf d [= <-]. by rewrite (updates_append _ _ _ Hf).
Defined.

#[export] Instance example_env : ServerEnv := {|
  server_instance_id := "server-1";
  derive := fun password salt iterations n => Some (pad_to n (password +:+ salt));
  format_unix_ms := fun ms => to_string ms;
  others := fun w => w;
|}.

Lemma alone (P : World -> Prop) w : P w -> P (others w).
Proof. done. Qed.

Definition line (text : string) : string := text +:+ nl.
Definition salt16 : string := "0123456789abcdef".

Definition server0 : World :=
  ServerProps.started (Transactions.fresh_db 1000) (Redis.mkRedis "chat" ∅ ∅ [])
    (FileService.mkFs "/srv" ∅ []) 1000 [Some salt16; Some salt16].

(** Two users register and log in. *)
Definition logins : list event := [
  EvConnect 1; EvConnect 2;
  EvBytes 1 (line "REGISTER ann secret"); EvBytes 2 (line "register bob passwd");
  EvBytes 1 (line "LOGIN ann secret"); EvBytes 2 (line "LOGIN bob passwd") ].
(** They become friends. *)
Definition friendship : list event := [
  EvBytes 1 (line "ADD_FRIEND bob"); EvBytes 2 (line "ACCEPT_FRIEND ann") ].
(** One enters a conversation and sends a message. *)
Definition talk : list event := [
  EvBytes 1 (line "ENTER_PRIVATE bob"); EvBytes 1 (line "MSG bob hello%20bob") ].
(** The other sends a file of ten bytes; the first frame is under way. *)
Definition token32 : string := "0123456789abcdef0123456789abcdef".
Definition sha_of (content : string) : string := FileUtils.to_hex (pad_to 32 content).
Definition sending : list event := [
  EvBytes 2 (line ("FILE_BEGIN_PRIVATE " +:+ token32 +:+ " ann notes.txt 10 " +:+ sha_of "0123456789"));
  EvBytes 2 (line ("FILE_CHUNK " +:+ token32 +:+ " 0 6") +:+ "0123") ].
Definition sent : list event := [
  EvBytes 2 ("45" +:+ line ("FILE_CHUNK " +:+ token32 +:+ " 6 4") +:+ "6789" +:+ line ("FILE_END " +:+ token32)) ].

Definition after (events : list event) : World := run events server0.

Definition output (w : World) (c : ConnId) : string :=
  match w_conns w !! c with
  | Some k => foldr (fun o s => o_text o +:+ s) "" (c_out k)
  | None => ""
  end.
End Scenario.
