(* ===== verification/Witnesses.v ===== *)
(** * The theorems on concrete runs

    For each theorem with hypotheses, an instance on the concrete server of
    [Scenario] (or on concrete values) at which its hypotheses hold. *)
From S2P Require Import Prelude Protocol FileUtils Password Payloads Tables ExampleCodec Database Integrity.
From S2P Require Import Transactions DatabaseProps Registry Redis FileService FileServiceProps Policy World.
From S2P Require Import Delivery Accounts Friends Groups Messages Files Server ServerLogic ServerProps.
From S2P Require Import UploadProps LoopProps EventLoop Connection ConnectionProps ConnectionFrames ConnectionOrder ConnectionLive LocalStore.
From S2P Require Import ClientTransport TransportProps ConnectionPool TcpServer ServerConnections Scenario.
Import Payloads Tables ExampleCodec Database Transactions DatabaseProps World Server Scenario.
Import (hints) ServerProps.

Module Witnesses.

(** The database of the concrete server after some events. *)
Definition db_of (events : list event) : Db := w_db (after events).

Lemma db_of_inv events : db_inv (db_of events).
Proof.
  refine (ServerProps.run_stored db_inv (fresh_db 1000) _ _ _ _ _ _ _); [done|].
  split; [apply Integrity.empty_integrity|by intros old].
Qed.

Lemma result_eq {A} (r : (string + A) * Db) a : r.1 = inr a -> r = (inr a, r.2).
Proof. destruct r. simpl. by intros ->. Qed.

(** ** Passwords *)

Lemma verify_hash_witness :
  let d := fun (p s : string) (i : Z) n => Some (pad_to (Nat.min n 64) (p +:+ s)) in
  Password.verify_password_pbkdf2 (fun p s i n => if (n <=? 64)%nat then d p s i n else None) "secret"
    ("pbkdf2_sha256$210000$" +:+ FileUtils.to_hex salt16 +:+ "$" +:+
     FileUtils.to_hex (pad_to 32 ("secret" +:+ salt16))) = true.
Proof.
  intros d. apply (Password.verify_hash _ "secret" salt16); [|reflexivity|vm_compute; reflexivity].
  intros p s i n out. destruct (Nat.leb_spec n 64) as [Hn|]; [|done]. intros [= <-].
  unfold pad_to. rewrite str_take_length, !str_length_app. simpl. lia.
Defined.

Lemma verify_sound_witness :
  exists iters salt_hex hash_hex iterations salt hash,
    ("pbkdf2_sha256$10000$00$78" = Password.encode_fields "pbkdf2_sha256" iters salt_hex hash_hex) /\
    Password.stoi iters = Some iterations /\ (10000 <= iterations <= 2000000)%Z /\
    Password.from_hex salt_hex = Some salt /\ salt <> "" /\
    Password.from_hex hash_hex = Some hash /\ hash <> "" /\ Some "x" = Some hash.
Proof.
  apply (Password.verify_sound (fun _ _ _ _ => Some "x") "secret"). vm_compute. reflexivity.
Defined.

(** ** The database *)

Definition asked : list event := logins ++ [EvBytes 1 (line "ADD_FRIEND bob")].

Lemma accept_makes_friends_witness :
  ask (are_friends "ann" "bob") (accept_friend_request "ann" "bob" (db_of asked)).2 = inr true.
Proof.
  apply (accept_makes_friends "ann" "bob" (db_of asked)); [apply db_of_inv|].
  apply result_eq. vm_compute. reflexivity.
Defined.

Lemma remove_friendship_effect_witness :
  let db' := (remove_friendship "ann" "bob" (db_of (logins ++ friendship))).2 in
  ask (are_friends "ann" "bob") db' = inr false /\ ask (is_friend_blocked "ann" "bob") db' = inr false.
Proof.
  assert ((remove_friendship "ann" "bob" (db_of (logins ++ friendship))).1 = inr true) as E
    by (vm_compute; reflexivity).
  pose proof (remove_friendship_effect "ann" "bob" _ _ _ (db_of_inv _) (result_eq _ _ E)) as (_ & Hf & Hb & _).
  exact (conj Hf (proj1 (Hb eq_refl))).
Defined.

Definition greeting : ChatMessagePayload := mkChatMessage PRIVATE "ann" "bob" "hello" 1000.

#[local] Instance greeting_laws : @ProtoLaws ChatMessagePayload (@chat_codec example_codecs) := bit_laws.

Lemma offline_push_witness :
  let db := db_of (logins ++ friendship) in
  ask (pending_private_messages "bob" 10) (add_private_message_with_delivery greeting db).2 =
    inr [mkStoredMessage 1 greeting].
Proof.
  intros db. apply (offline_push greeting db 1 _ 10 []);
    [apply db_of_inv|exact Logic.I|vm_compute; reflexivity..|reflexivity|].
  apply result_eq. vm_compute. reflexivity.
Defined.

Lemma with_greeting_inv db : db_inv db -> db_inv (add_private_message_with_delivery greeting db).2.
Proof. exact (run_call_inv (AddPrivateMessageWithDelivery greeting) db). Qed.

Lemma offline_pop_witness :
  let db := (add_private_message_with_delivery greeting (db_of (logins ++ friendship))).2 in
  ask (pending_private_messages "bob" 10) (mark_private_message_delivered 1 "bob" 2000 db).2 = inr [].
Proof.
  intros db.
  assert ((mark_private_message_delivered 1 "bob" 2000 db).1 = inr tt) as E by (vm_compute; reflexivity).
  assert (ask (pending_private_messages "bob" 10) db = inr [mkStoredMessage 1 greeting]) as Ep
    by (vm_compute; reflexivity).
  exact (proj1 (offline_pop 1 "bob" 2000 db _ 10 [mkStoredMessage 1 greeting] (with_greeting_inv _ (db_of_inv _))
    Ep eq_refl (result_eq _ _ E))).
Defined.

Lemma delete_user_forgets_witness :
  let db' := (delete_user "ann" (db_of (logins ++ friendship ++ talk))).2 in
  ask (user_exists "ann") db' = inr false /\ Integrity.unreferenced "ann" (tables db').
Proof.
  assert ((delete_user "ann" (db_of (logins ++ friendship ++ talk))).1 = inr true) as E
    by (vm_compute; reflexivity).
  pose proof (delete_user_forgets "ann" _ _ _ (db_of_inv _) (result_eq _ _ E)) as (_ & Hu & Hr & _).
  exact (conj Hu Hr).
Defined.

Lemma list_friends_correct_witness :
  ask (list_friends "bob") (db_of (logins ++ friendship)) = inr ["ann"] /\
  forall v, v ∈ ["ann"] <-> ask (are_friends "bob" v) (db_of (logins ++ friendship)) = inr true.
Proof.
  assert (ask (list_friends "bob") (db_of (logins ++ friendship)) = inr ["ann"]) as E by (vm_compute; reflexivity).
  split; [exact E|].
  apply (list_friends_correct "bob" (db_of (logins ++ friendship)) ["ann"]); [apply db_of_inv|exact E].
Defined.

Lemma pending_batch_witness :
  let db := (add_private_message_with_delivery greeting (db_of (logins ++ friendship))).2 in
  ask (pending_private_messages "bob" 1) db = inr [mkStoredMessage 1 greeting] /\
  (Z.of_nat (length [mkStoredMessage 1 greeting]) <= 1)%Z.
Proof.
  intros db.
  assert (ask (pending_private_messages "bob" 1) db = inr [mkStoredMessage 1 greeting]) as E
    by (vm_compute; reflexivity).
  split; [exact E|]. apply (pending_batch "bob" 1 db [mkStoredMessage 1 greeting]); [lia|exact E].
Defined.

Definition applied : list event :=
  logins ++ [EvBytes 1 (line "CREATE_GROUP crew"); EvBytes 2 (line "APPLY_GROUP crew")].

Lemma approve_makes_member_witness :
  ask (get_group_role "crew" "bob") (approve_group_join_request "crew" "bob" (db_of applied)).2 =
    inr (Some Member).
Proof.
  assert ((approve_group_join_request "crew" "bob" (db_of applied)).1 = inr tt) as E by (vm_compute; reflexivity).
  pose proof (approve_makes_member "crew" "bob" _ _ (db_of_inv _) (result_eq _ _ E)) as (_ & _ & Hr & _).
  exact Hr.
Defined.

(** ** Files *)



Definition notes_meta : FileTransferMetadata :=
  mkFileMeta token32 FILE_TRANSFER_PRIVATE "bob" "ann" 0 "" "my notes.txt" 10 (sha_of "0123456789") 1000
    ("files/" +:+ token32 +:+ "_my_notes.txt").

(** An upload of ten bytes in two pieces. *)
Definition begun_notes := FileService.begin_or_resume_upload (mkResumeState (Some notes_meta) ["ann"]) (FileService.mkFs "/srv" ∅ []).
Definition notes_part : string := "/srv/tmp/" +:+ token32 +:+ ".part".
Definition full_disk : FileService.Fs :=
  (FileService.append_upload_bytes notes_part 4 "456789" (FileService.append_upload_bytes notes_part 0 "0123" begun_notes.2).2).2.

Lemma finalize_sound_witness :
  let r := FileService.finalize_upload notes_part token32 "my notes.txt" 10 (sha_of "0123456789") full_disk in
  FileServiceProps.content_of r.2 ("/srv/files/" +:+ token32 +:+ "_my_notes.txt") = "0123456789".
Proof.
  intros r.
  destruct (FileServiceProps.finalize_sound (mkResumeState (Some notes_meta) ["ann"]) notes_meta (FileService.mkFs "/srv" ∅ [])
    (mkResumeState (Some notes_meta) ["ann"]) notes_part 0 begun_notes.2 "my notes.txt" 10 (sha_of "0123456789") full_disk
    ("files/" +:+ token32 +:+ "_my_notes.txt") r.2) as (_ & _ & Hc & _);
    [reflexivity|vm_compute; reflexivity|vm_compute; reflexivity|vm_compute; reflexivity|].
  exact Hc.
Defined.

(** The stored file, resumed behind its fourth byte; the connection lasts. *)
Definition stored_disk : FileService.Fs :=
  FileService.mkFs "/srv" {[ "/srv/files/" +:+ token32 +:+ "_my_notes.txt" := "0123456789" ]} [].

Lemma pump_complete_witness :
  exists p out, (FileService.deliver_file 1 notes_meta 4 true stored_disk).1 = inr (p, out) /\
    FileService.pump_done (FileServiceProps.pump_rounds_run [FileServiceProps.all_up; FileServiceProps.all_up] p).2 = Some (true, "").
Proof.
  eexists _, _. split; [vm_compute; reflexivity|].
  match goal with |- FileService.pump_done (FileServiceProps.pump_rounds_run ?rounds ?p).2 = _ =>
    destruct (FileServiceProps.pump_complete 1 notes_meta 4 stored_disk p _ stored_disk rounds
      ltac:(vm_compute; reflexivity) ltac:(done)) as (_ & _ & _ & _ & Hdone & Hall) end.
  apply Hdone, Hall; [by repeat constructor|vm_compute; lia].
Defined.

(** ** The server *)

Lemma after_run events :
  after events = run events (ServerProps.started (fresh_db 1000) (Redis.mkRedis "chat" ∅ ∅ [])
    (FileService.mkFs "/srv" ∅ []) 1000 [Some salt16; Some salt16]).
Proof. reflexivity. Qed.

Lemma server_integrity_witness :
  let db := db_of (logins ++ friendship ++ talk) in
  Integrity.integrity (tables db) /\ saved db = None.
Proof.
  destruct (ServerProps.server_integrity 1000 [] [] (Redis.mkRedis "chat" ∅ ∅ []) (FileService.mkFs "/srv" ∅ [])
    [Some salt16; Some salt16] (logins ++ friendship ++ talk)) as [Hi Hs]; [done|].
  split; [exact Hi|]. apply Hs; [by constructor|done].
Defined.

Lemma login_unique_witness :
  let w := after logins in
  exists k s, w_conns w !! 1 = Some k /\ c_session k = Some s /\ username s = "ann" /\
    w_online w !! username s = Some 1.
Proof.
  intros w. destruct (w_conns w !! 1) as [k|] eqn:Ek; [|by vm_compute in Ek].
  destruct (c_session k) as [s|] eqn:Es; [|exfalso; vm_compute in Ek; injection Ek as <-; by vm_compute in Es].
  exists k, s.
  assert (c_state k = Connected /\ logged_in s = true /\ username s = "ann") as (H1 & H2 & H3).
  { vm_compute in Ek. injection Ek as <-. vm_compute in Es. by injection Es as <-. }
  split; [done|]. split; [done|]. split; [done|].
  apply (ServerProps.login_unique (fresh_db 1000) (Redis.mkRedis "chat" ∅ ∅ []) (FileService.mkFs "/srv" ∅ [])
    1000 [Some salt16; Some salt16] logins 1 1 k k s s); done.
Defined.

Lemma upload_bounded_witness :
  exists s f u, session_of (after (logins ++ friendship ++ sending)) 2 = Some s /\
    binary_upload s = Some f /\ upload s = Some u /\ UploadProps.frame_bounds u f.
Proof.
  assert (exists s f u, session_of (after (logins ++ friendship ++ sending)) 2 = Some s /\
    binary_upload s = Some f /\ upload s = Some u) as (s & f & u & Es & Ef & Eu).
  { vm_compute. eexists _, _, _. by split_and!. }
  exists s, f, u. split_and!; [done..|]. rewrite after_run in Es.
  apply UploadProps.upload_bounded with (u := u) in Es as [_ Hf]; [|done].
  destruct (Hf f Ef) as (u' & Eu' & Hb). rewrite Eu in Eu'. injection Eu' as ->. exact Hb.
Defined.

Definition half_line : World := after (logins ++ [EvBytes 1 "PING 7"]).

Lemma message_loop_ends_witness :
  (message_loop 107 1 0 half_line).1 <> Some false /\ message_loop 107 1 0 half_line = message_loop 7 1 0 half_line.
Proof.
  destruct (w_conns half_line !! 1) as [k|] eqn:Ek; [|by vm_compute in Ek].
  assert (String.length (c_in k) = 6) as El by (vm_compute in Ek; by injection Ek as <-).
  pose proof (LoopProps.message_loop_ends (fun c n w Hw => Hw) 1 0 half_line k 107 Ek) as Hl.
  rewrite El in Hl. apply Hl. lia.
Defined.
(** ** The network library *)

Definition some_actions : list EventLoop.action :=
  [EventLoop.ForeignQueue 1; EventLoop.Enter; EventLoop.Check; EventLoop.ForeignWakeup].
Definition one_round : list EventLoop.action :=
  [EventLoop.PollReturns [EventLoop.Wakeup]; EventLoop.HandleEvent []; EventLoop.BeginFunctors; EventLoop.Swap;
   EventLoop.RunFunctor [EventLoop.QueueInLoop 2]; EventLoop.EndFunctors].
Definition waiting_loop : EventLoop.Loop := default EventLoop.fresh (EventLoop.run some_actions EventLoop.fresh).
Definition checking_loop : EventLoop.Loop := default EventLoop.fresh (EventLoop.run one_round waiting_loop).

Lemma no_lost_wakeup_witness :
  EventLoop.executed checking_loop ++ EventLoop.ids (EventLoop.running checking_loop) ++
    EventLoop.ids (EventLoop.pendingFunctors_ checking_loop) = EventLoop.queued checking_loop /\
  (EventLoop.l_pc checking_loop = EventLoop.Polling -> EventLoop.eventfd checking_loop = 0 ->
   EventLoop.waking checking_loop = 0 -> EventLoop.quit_ checking_loop = false /\ EventLoop.all_early checking_loop).
Proof. exact (EventLoop.no_lost_wakeup (some_actions ++ one_round) checking_loop ltac:(vm_compute; reflexivity)). Defined.

Lemma iteration_serves_witness : [1] ⊆ EventLoop.executed checking_loop.
Proof.
  apply (EventLoop.iteration_serves some_actions one_round waiting_loop checking_loop);
    [reflexivity|left; reflexivity|reflexivity|left; reflexivity].
Defined.

Definition some_ops : list (Z * option EventLoop.channel_op) :=
  [(5%Z, None); (5%Z, Some EventLoop.enableReading); (5%Z, Some EventLoop.enableWriting)].
Definition some_poller : EventLoop.Poller :=
  default (EventLoop.mkPoller ∅ ∅) (EventLoop.poller_run some_ops (EventLoop.mkPoller ∅ ∅)).

Lemma interest_matches_witness :
  EventLoop.channel_step 5 EventLoop.remove some_poller = None <->
  EventLoop.p_channels some_poller !! 5%Z = None \/
  exists c, EventLoop.p_channels some_poller !! 5%Z = Some c /\
    EventLoop.remove = EventLoop.remove /\ EventLoop.ch_events c <> EventLoop.kNoneEvent.
Proof. apply (EventLoop.interest_matches some_ops some_poller). reflexivity. Defined.

(** A TLS connection that sends two texts and a file frame. *)
Definition some_socket : Connection.Socket :=
  Connection.mkSocket "" false false [Connection.Took 3; Connection.WantWrite; Connection.Took 9; Connection.Took 1]
    [Connection.Got "hello"] [Connection.AcceptWantRead; Connection.Accepted true].
Definition some_reactions : list Connection.reaction :=
  [Connection.mkReaction 0 [Connection.Send "welcome" (Some [])];
   Connection.mkReaction 5 [Connection.SendFileFrame "h" "f" 1 2 None; Connection.Send "end" None]].
Definition some_events : list Connection.event :=
  [Connection.Readable; Connection.Readable; Connection.Writable; Connection.RunJob].
Definition some_connection : Connection.Tcp :=
  Connection.run ConnectionLive.some_files true false some_socket some_reactions some_events.

(** One text is on the wire, and the second waits behind the frame. *)
Lemma stream_order_witness :
  let o := Connection.output some_connection in
  Connection.texts (Connection.asked o) = ["welcome"; "end"] /\
  Connection.texts (Connection.items o) ++ (Connection.deferredSends_ o).*1 = Connection.texts (Connection.asked o).
Proof.
  split; [vm_compute; reflexivity|].
  apply (ConnectionOrder.stream_order ConnectionLive.some_files true false some_socket some_reactions some_events eq_refl).
  by vm_compute.
Defined.

Definition welcome_sent : Connection.waiting := Connection.mkWaiting [] 0.

Lemma notices_in_order_witness : exists before m behind,
  Connection.items (Connection.output some_connection) = before ++ Connection.Text m :: behind /\ length (Connection.texts before) = 0 /\
  Connection.texts (Connection.asked (Connection.output some_connection)) !! 0 = Some m /\
  ConnectionProps.is_prefix (ConnectionProps.stream ConnectionLive.some_files (before ++ [Connection.Text m]))
    (Connection.wire (Connection.socket some_connection)).
Proof.
  apply (proj2 (ConnectionOrder.notices_in_order ConnectionLive.some_files true false some_socket some_reactions
    some_events eq_refl) welcome_sent).
  replace (Connection.posted _) with [Connection.Complete welcome_sent; Connection.WriteComplete];
    [left|vm_compute; reflexivity].
Defined.

Lemma no_stall_witness : Connection.reading some_connection = true.
Proof.
  apply (ConnectionLive.no_stall ConnectionLive.some_files true false some_socket some_reactions some_events);
    [reflexivity|intros _; reflexivity|vm_compute; reflexivity].
Defined.

Definition some_frame : Connection.PendingFileSend := Connection.mkPendingFile "h" "f" 1 2 None.
Definition idle_connection : Connection.Tcp := Connection.new_connection false false some_socket [].

Lemma file_frames_end_witness :
  Connection.startFileFrame ConnectionLive.some_files 7 some_frame idle_connection =
  Connection.startFileFrame ConnectionLive.some_files 1 some_frame idle_connection.
Proof.
  apply (proj1 (ConnectionFrames.file_frames_end ConnectionLive.some_files idle_connection 6) some_frame). reflexivity.
Defined.

(** ** The client *)

Definition some_calls : list ClientTransport.write_outcome -> ClientTransport.Transport :=
  fun ws => ClientTransport.new_transport false ws [ClientTransport.PollInterrupted; ClientTransport.Ready] [].
Definition some_writes : list ClientTransport.write_outcome :=
  [ClientTransport.Took 2; ClientTransport.WantWrite; ClientTransport.Took 9; ClientTransport.Took 1;
   ClientTransport.WantRead; ClientTransport.Took 9].

Lemma transport_order_witness :
  ClientTransport.output_queue_ (TransportProps.run_calls
    ([TransportProps.Queue "one"] ++ [TransportProps.SendFile (inr "content") 1 3]) (some_calls some_writes)) = [].
Proof.
  refine (proj2 (proj2 (proj2 (TransportProps.transport_order false some_writes
    [ClientTransport.PollInterrupted; ClientTransport.Ready] []
    [TransportProps.Queue "one"; TransportProps.SendFile (inr "content") 1 3] _)))
    [TransportProps.Queue "one"] (TransportProps.SendFile (inr "content") 1 3) [] eq_refl eq_refl _).
  - repeat constructor. discriminate.
  - vm_compute. reflexivity.
Defined.

Definition some_message (id : Z) (peer : string) : LocalStore.LocalPrivateMessage :=
  LocalStore.mkLocalPrivateMessage id "ann" peer peer "ann" "hello" 1000 false false.
Definition some_history : list LocalStore.call :=
  [LocalStore.CachePrivate (some_message 7 "bob"); LocalStore.CachePrivate (some_message 9 "cy");
   LocalStore.CachePrivate (some_message 8 "bob")].
Definition some_store : LocalStore.Store :=
  LocalStore.run_calls some_history (LocalStore.mkStore true LocalStore.no_tables [None; Some "disk full"]).

Lemma local_history_witness :
  exists l, [some_message 7 "bob"; some_message 8 "bob"] = map (LocalStore.read_private "ann") l /\
    LocalStore.newest LocalStore.pm_id
      (fun m => (LocalStore.pm_account m =s? "ann") && (LocalStore.pm_peer m =s? "bob")) 20
      (LocalStore.private_messages (LocalStore.tables some_store)) l.
Proof.
  exact (LocalStore.local_history some_history [None; Some "disk full"] "ann" "bob" 20 _ some_store
    ltac:(lia) ltac:(vm_compute; reflexivity)).
Defined.

(** A pool of two connections: one is leased, and the owner waits in [shutdown]. *)
Module PoolRun.
Import ConnectionPool.
Definition attempts : list Attempt := [mkAttempt (Some 1) None None; mkAttempt (Some 2) None None].
Definition leased : Sys := mkSys (mkPool [1; 2] [2] false) Idle [Holding 1] [1; 2] [].
Definition closing : Sys := mkSys (mkPool [1; 2] [2] true) (Draining false None) [Holding 1] [1; 2] [].
Lemma leased_from_started : rtc step (started [1; 2]) leased.
Proof.
  eapply rtc_l; [apply (s_acquire (mkPool [1; 2] [1; 2] false) Idle [])|].
  eapply rtc_l; [apply (s_check (mkPool [1; 2] [1; 2] false) Idle [] [])|]. apply rtc_refl.
Qed.
Lemma leased_from_start : rtc step start leased.
Proof.
  eapply rtc_l; [apply (s_shutdown empty_pool [] (Some attempts))|].
  eapply rtc_l; [apply (s_open (mkPool [] [] true) [] attempts 2 [] [])|apply leased_from_started].
  - lia.
  - reflexivity.
  - apply (bool_decide_unpack _); vm_compute; exact I.
  - repeat constructor; apply not_elem_of_nil.
Qed.
Lemma closing_from_started : rtc step (started [1; 2]) closing.
Proof.
  transitivity leased; [apply leased_from_started|].
  eapply rtc_l; [apply (s_shutdown (mkPool [1; 2] [2] false) [Holding 1] None)|].
  eapply rtc_l; [apply (s_drain (mkPool [1; 2] [2] true) [Holding 1] None)|]. apply rtc_refl.
Qed.
End PoolRun.

Lemma pool_leases_witness :
  1%nat ∉ ConnectionPool.available_ (ConnectionPool.pool PoolRun.leased).
Proof.
  refine (proj1 (proj2 (proj1 (proj2 (proj2 (proj2 (ConnectionPool.pool_leases PoolRun.leased PoolRun.leased_from_start)))) 1%nat _))).
  left.
Defined.

Lemma pool_no_lost_wakeup_witness :
  ConnectionPool.held (ConnectionPool.threads PoolRun.closing) <> [] \/
  ConnectionPool.Notifying ∈ ConnectionPool.threads PoolRun.closing.
Proof.
  refine (proj2 (ConnectionPool.pool_no_lost_wakeup [1%nat; 2%nat] PoolRun.closing _ _ PoolRun.closing_from_started) None eq_refl).
  - discriminate.
  - apply (bool_decide_unpack _); vm_compute; exact I.
Defined.

(** A server with one thread accepts a connection, which hangs up. *)
Module ServerRun.
Import TcpServer ServerConnections.
Definition no_files (path : string) : option string := None.
#[export] Instance life_here : Life Connection.Tcp seed Connection.event := tcp_life no_files.
Definition plain : seed := mkSeed false false (Connection.mkSocket "" false false [] [] []) [].
Definition set_up : Server := start 0 None (set_pool (mkLoopPool false 1 0 []) (@new_server Connection.Tcp)).
Definition accepted : Server := (handleRead "chat" [Socket plain None None] set_up).2.
Definition connected : Server := call 1 (Establish 0) (set_pending [] accepted).
Definition hung_up : Server := live_on 1 0 [] (serve Connection.Hangup) connected.
Definition removed : Server := call 0 (RemoveInLoop 0) (set_pending [] hung_up).
Definition over : Server := call 1 (DestroyConnection 0) (set_pending [] removed).

Lemma accepted_step : step "chat" set_up accepted.
Proof. refine (t_accept "chat" [Socket plain None None] set_up _ _ _); vm_compute; reflexivity. Qed.
Lemma connected_step : step "chat" accepted connected.
Proof. refine (t_run "chat" 1 (Establish 0) [] [] accepted _ _ _); [vm_compute; reflexivity|constructor|done]. Qed.
Lemma hung_up_step : step "chat" connected hung_up.
Proof.
  refine (t_serve "chat" 0 (mkObject "chat-conn-1" 1 (connectEstablished (make plain)) [(1, Established)]) Connection.Hangup connected _ _ _);
    [vm_compute; reflexivity|done|by left].
Qed.
Lemma removed_step : step "chat" hung_up removed.
Proof. refine (t_run "chat" 0 (RemoveInLoop 0) [] [] hung_up _ _ _); [vm_compute; reflexivity|constructor|]. intros _. vm_compute. reflexivity. Qed.
Lemma over_step : step "chat" removed over.
Proof. refine (t_run "chat" 1 (DestroyConnection 0) [] [] removed _ _ _); [vm_compute; reflexivity|constructor|done]. Qed.

Lemma over_reached : rtc (step "chat") new_server over.
Proof.
  apply (rtc_l _ _ (set_pool (mkLoopPool false 1 0 []) new_server)); [by apply t_threads with 1%Z|].
  apply (rtc_l _ _ set_up); [by apply t_start|]. apply (rtc_l _ _ accepted); [apply accepted_step|].
  apply (rtc_l _ _ connected); [apply connected_step|]. apply (rtc_l _ _ hung_up); [apply hung_up_step|].
  apply (rtc_l _ _ removed); [apply removed_step|]. apply rtc_once, over_step.
Qed.
Definition object_over : Object := mkObject "chat-conn-1" 1 (connectDestroyed (serve Connection.Hangup (connectEstablished (make plain))))
  [(1, Established); (1, Destroyed)].
Lemma object_over_lookup : objects over !! 0 = Some object_over.
Proof. vm_compute. reflexivity. Qed.
Lemma over_quiet : pending over = [] /\ gone over = false /\ Connection.is_state Connection.kDisconnected (o_connection object_over) = true.
Proof. vm_compute. done. Qed.
End ServerRun.

Lemma connection_lives_witness :
  TcpServer.connections_ ServerRun.over !! TcpServer.o_name ServerRun.object_over =
    (if Connection.is_state Connection.kDisconnected (TcpServer.o_connection ServerRun.object_over) then None else Some 0) /\
  Connection.is_state Connection.kDisconnected (TcpServer.o_connection ServerRun.object_over) = true.
Proof.
  destruct ServerRun.over_quiet as (Hp & Hg & Hd). split; [|exact Hd].
  exact (proj1 (proj1 (proj2 (ServerConnections.connection_lives ServerRun.no_files "chat" ServerRun.over 0 ServerRun.object_over
    ServerRun.over_reached ServerRun.object_over_lookup)) Hp Hg)).
Defined.
End Witnesses.
