(* ===== verification/ThreadPool.v ===== *)
(** * The thread pool, [Threadpool/include/ThreadPool.h]

    What [submit], [waitAll], [shutdown] and the loop of a worker do under the
    mutex, and the steps that the worker threads and the callers take.  The
    type of the tasks is a parameter, and so is what a task does: it changes a
    shared state [Env], given the worker that runs it and what it observes
    ([Seen]: times, thread identifiers).  A task is a [std::packaged_task],
    which keeps an exception for the future: none reaches the worker. *)
From S2P Require Import Prelude.

Module ThreadPool.

Section pool.
Context {Task Env Seen : Type} (exec : nat -> Seen -> Task -> Env -> Env).

(** ** The members and what is done under the mutex *)

(** [activeTasks_] counts workers: it does not wrap around. *)
Record Pool := mkPool { tasks_ : list Task; accepting_ : bool; stopping_ : bool; activeTasks_ : nat }.

Definition empty (p : Pool) : bool := match tasks_ p with [] => true | _ => false end.

(** [submit]: the exception, or the task is queued. *)
Definition submit (t : Task) (p : Pool) : string + Pool :=
  if negb (accepting_ p) then inl "ThreadPool is stopping. Cannot submit new task."
  else inr (mkPool (tasks_ p ++ [t]) (accepting_ p) (stopping_ p) (activeTasks_ p)).

(** The predicate of [waitAll]. *)
Definition finished (p : Pool) : bool := empty p && (activeTasks_ p =? 0).

(** [shutdown] up to its notification; [None] when it returns at once. *)
Definition shutdown (p : Pool) : option Pool :=
  if stopping_ p then None else Some (mkPool (tasks_ p) false true (activeTasks_ p)).

(** The predicate of the workers' wait, and what follows it: the worker ends, or
    takes a task. *)
Definition ready (p : Pool) : bool := stopping_ p || negb (empty p).
Definition take (p : Pool) : option (Task * Pool) :=
  match tasks_ p with
  | [] => None
  | t :: rest => Some (t, mkPool rest (accepting_ p) (stopping_ p) (S (activeTasks_ p)))
  end.

(** After the task. *)
Definition complete (p : Pool) : Pool := mkPool (tasks_ p) (accepting_ p) (stopping_ p) (pred (activeTasks_ p)).

(** ** Threads *)

(** A worker about to look at its predicate, asleep in its wait, running a task,
    about to take the mutex after one, or ended. *)
Inductive Worker := Checking | Asleep | Running (t : Task) | Finishing | Exited.

(** A call under way: [submit] about to notify, [waitAll] awake or asleep,
    [shutdown] about to notify, or joining the worker of a given index. *)
Inductive Caller := NotifyOne | Waiting (awake : bool) | NotifyAll | Joining (next : nat).

(** [submitted_], [taken_] and [done_] are the tasks accepted, taken and run so
    far, in order. *)
Record Sys := mkSys
  { pool : Pool; workers : list Worker; callers : list Caller; env : Env;
    submitted_ : list Task; taken_ : list Task; done_ : list Task }.

(** The constructor. *)
Definition start (threadCount : nat) (e : Env) : Sys :=
  mkSys (mkPool [] true false 0) (replicate (if threadCount =? 0 then 1 else threadCount) Checking) [] e [] [] [].

Definition wake_workers (l : list Worker) : list Worker :=
  map (fun w => match w with Asleep => Checking | _ => w end) l.
Definition wake_callers (l : list Caller) : list Caller :=
  map (fun c => match c with Waiting _ => Waiting true | _ => c end) l.

(** [notify_one]: one of the sleepers wakes up, if there is one. *)
Inductive notify_one : list Worker -> list Worker -> Prop :=
  | notify_worker l1 l2 : notify_one (l1 ++ Asleep :: l2) (l1 ++ Checking :: l2)
  | notify_nobody l : Asleep ∉ l -> notify_one l l.

(** What the threads under way do. *)
Inductive work : Sys -> Sys -> Prop :=
  | w_check p l1 l2 cs e sb tk dn :
      work (mkSys p (l1 ++ Checking :: l2) cs e sb tk dn)
        (if ready p then
           match take p with
           | None => mkSys p (l1 ++ Exited :: l2) cs e sb tk dn
           | Some (t, p') => mkSys p' (l1 ++ Running t :: l2) cs e sb (tk ++ [t]) dn
           end
         else mkSys p (l1 ++ Asleep :: l2) cs e sb tk dn)
  | w_run p l1 l2 t seen cs e sb tk dn :
      work (mkSys p (l1 ++ Running t :: l2) cs e sb tk dn)
        (mkSys p (l1 ++ Finishing :: l2) cs (exec (length l1) seen t e) sb tk (dn ++ [t]))
  | w_complete p l1 l2 cs e sb tk dn :
      work (mkSys p (l1 ++ Finishing :: l2) cs e sb tk dn)
        (mkSys (complete p) (l1 ++ Checking :: l2) (if finished (complete p) then wake_callers cs else cs) e sb tk dn)
  | w_notify_one p l l' c1 c2 e sb tk dn :
      notify_one l l' ->
      work (mkSys p l (c1 ++ NotifyOne :: c2) e sb tk dn) (mkSys p l' (c1 ++ c2) e sb tk dn)
  | w_wait p l c1 c2 e sb tk dn :
      work (mkSys p l (c1 ++ Waiting true :: c2) e sb tk dn)
        (mkSys p l (if finished p then c1 ++ c2 else c1 ++ Waiting false :: c2) e sb tk dn)
  | w_notify_all p l c1 c2 e sb tk dn :
      work (mkSys p l (c1 ++ NotifyAll :: c2) e sb tk dn) (mkSys p (wake_workers l) (c1 ++ Joining 0 :: c2) e sb tk dn)
  | w_join p l c1 c2 i e sb tk dn :
      l !! i = Some Exited ->
      work (mkSys p l (c1 ++ Joining i :: c2) e sb tk dn) (mkSys p l (c1 ++ Joining (S i) :: c2) e sb tk dn)
  | w_joined p l c1 c2 e sb tk dn :
      work (mkSys p l (c1 ++ Joining (length l) :: c2) e sb tk dn) (mkSys p l (c1 ++ c2) e sb tk dn).

(** What comes from outside: the calls, and wake-ups for no reason.  A refused
    [submit] throws, and a second [shutdown] returns. *)
Inductive arrive : Sys -> Sys -> Prop :=
  | a_submit p l cs t e sb tk dn :
      arrive (mkSys p l cs e sb tk dn)
        (match submit t p with
         | inl _ => mkSys p l cs e sb tk dn
         | inr p' => mkSys p' l (cs ++ [NotifyOne]) e (sb ++ [t]) tk dn
         end)
  | a_waitAll p l cs e sb tk dn :
      arrive (mkSys p l cs e sb tk dn) (mkSys p l (cs ++ [Waiting true]) e sb tk dn)
  | a_shutdown p l cs e sb tk dn :
      arrive (mkSys p l cs e sb tk dn)
        (match shutdown p with
         | None => mkSys p l cs e sb tk dn
         | Some p' => mkSys p' l (cs ++ [NotifyAll]) e sb tk dn
         end)
  | a_spurious p l1 l2 cs e sb tk dn :
      arrive (mkSys p (l1 ++ Asleep :: l2) cs e sb tk dn) (mkSys p (l1 ++ Checking :: l2) cs e sb tk dn)
  | a_spurious_wait p l c1 c2 e sb tk dn :
      arrive (mkSys p l (c1 ++ Waiting false :: c2) e sb tk dn) (mkSys p l (c1 ++ Waiting true :: c2) e sb tk dn)
  (** The owner of the shared state changes it. *)
  | a_env p l cs e e' sb tk dn : arrive (mkSys p l cs e sb tk dn) (mkSys p l cs e' sb tk dn).

Definition step (s s' : Sys) : Prop := work s s' \/ arrive s s'.

(** ** Counting threads *)

Definition running (l : list Worker) : list Task := omap (fun w => match w with Running t => Some t | _ => None end) l.
Definition checks (w : Worker) : nat := match w with Checking => 1 | _ => 0 end.
Definition sleeps (w : Worker) : nat := match w with Asleep => 1 | _ => 0 end.
Definition busy (w : Worker) : nat := match w with Running _ | Finishing => 1 | _ => 0 end.
Definition exited (w : Worker) : nat := match w with Exited => 1 | _ => 0 end.
Definition notifies (c : Caller) : nat := match c with NotifyOne => 1 | _ => 0 end.
Definition notifies_all (c : Caller) : nat := match c with NotifyAll => 1 | _ => 0 end.
Definition waits (c : Caller) : nat := match c with Waiting false => 1 | _ => 0 end.
Definition joins (c : Caller) : nat := match c with NotifyAll | Joining _ => 1 | _ => 0 end.
#[local] Abbreviation total := sum_list_with.

Lemma running_app l1 l2 : running (l1 ++ l2) = running l1 ++ running l2.
Proof. apply omap_app. Qed.
Lemma running_cons w l : running (w :: l) = match w with Running t => t :: running l | _ => running l end.
Proof. by destruct w. Qed.

Lemma running_wake l : running (wake_workers l) = running l.
Proof.
  induction l as [|w l IH]; [done|]. cbn [wake_workers map]. fold (wake_workers l). rewrite !running_cons, IH. by destruct w.
Qed.
Lemma total_wake_workers (f : Worker -> nat) l : f Asleep = 0 -> f Checking = 0 -> total f (wake_workers l) = total f l.
Proof. intros H1 H2. induction l as [|w l IH]; [done|]. cbn. unfold wake_workers in IH. rewrite IH. destruct w; lia. Qed.
Lemma total_wake_callers (f : Caller -> nat) l :
  f (Waiting true) = 0 -> f (Waiting false) = 0 -> total f (wake_callers l) = total f l.
Proof. intros H1 H2. induction l as [|[|[]| |] l IH]; cbn; [done|..]; unfold wake_callers in IH; rewrite IH; lia. Qed.
Lemma nobody_sleeps l : total sleeps (wake_workers l) = 0.
Proof. induction l as [|w l IH]; [done|]. cbn. unfold wake_workers in IH. rewrite IH. by destruct w. Qed.
Lemma nobody_waits l : total waits (wake_callers l) = 0.
Proof. induction l as [|c l IH]; [done|]. cbn. unfold wake_callers in IH. rewrite IH. by destruct c. Qed.
Lemma total_zero {A} (f : A -> nat) (l : list A) x : total f l = 0 -> x ∈ l -> f x = 0.
Proof. intros Hz Hx. apply list_elem_of_split in Hx as (l1 & l2 & ->). rewrite sum_list_with_app in Hz. cbn in Hz. lia. Qed.
Lemma idle_running l : total busy l = 0 -> running l = [].
Proof. induction l as [|[]]; cbn; auto; lia. Qed.

(** ** What holds at every moment *)

(** Tasks are taken in the order in which they were accepted, and each one taken
    is running or done. *)
Definition log_ok (s : Sys) : Prop :=
  submitted_ s = taken_ s ++ tasks_ (pool s) /\ taken_ s ≡ₚ done_ s ++ running (workers s) /\
  activeTasks_ (pool s) = total busy (workers s).

(** Workers that have ended leave no task; a sleeping worker has no task to take
    that is not spoken for, unless [shutdown] is about to wake it; a sleeping
    [waitAll] has something to wait for. *)
Definition threads_ok (s : Sys) : Prop :=
  let p := pool s in let l := workers s in let c := callers s in
  accepting_ p = negb (stopping_ p) /\ l <> [] /\
  ((0 < total exited l)%nat -> stopping_ p = true /\ tasks_ p = []) /\
  ((0 < total sleeps l)%nat ->
     if stopping_ p then (0 < total notifies_all c)%nat
     else (length (tasks_ p) <= total checks l + total notifies c)%nat) /\
  ((0 < total waits c)%nat -> finished p = false) /\
  ((0 < total joins c)%nat -> stopping_ p = true).

(** A worker that has been joined has ended. *)
Definition joined_ok (s : Sys) : Prop :=
  forall i, Joining i ∈ callers s -> forall j, (j < i)%nat -> workers s !! j = Some Exited.

#[local] Ltac fields := cbn [pool workers callers env submitted_ taken_ done_ tasks_ accepting_ stopping_ activeTasks_] in *.
#[local] Ltac sums := rewrite ?sum_list_with_app in *; cbn [sum_list_with checks sleeps busy exited notifies notifies_all waits joins] in *.

Lemma notify_same (f : Worker -> nat) l l' : f Asleep = f Checking -> notify_one l l' -> total f l' = total f l.
Proof. intros Hf [l1 l2|]; [|done]. rewrite !sum_list_with_app. cbn. lia. Qed.
Lemma notify_running l l' : notify_one l l' -> running l' = running l.
Proof. intros [l1 l2|]; [|done]. by rewrite !running_app, !running_cons. Qed.

Lemma log_start n e : log_ok (start n e).
Proof.
  unfold log_ok, start. fields. split; [done|].
  assert (forall k, running (replicate k Checking) = [] /\ total busy (replicate k Checking) = 0) as Hk
    by (induction k as [|k [IH1 IH2]]; [done|]; cbn; by rewrite IH2).
  destruct (Hk (if n =? 0 then 1 else n)) as [-> ->]. done.
Qed.

Lemma log_work s s' : work s s' -> log_ok s -> log_ok s'.
Proof.
  unfold log_ok. destruct 1 as [p l1 l2 cs e sb tk dn|p l1 l2 t x cs e sb tk dn|p l1 l2 cs e sb tk dn|p l l' c1 c2 e sb tk dn Hn
    |p l c1 c2 e sb tk dn|p l c1 c2 e sb tk dn|p l c1 c2 i e sb tk dn Hi|p l c1 c2 e sb tk dn]; fields; intros (Hs & Ht & Ha).
  - unfold ready, empty, take. destruct p as [[|t ts] ac [] n]; cbn in *; rewrite ?running_app, ?running_cons in *; sums;
      split_and!; auto; try (rewrite Ht; solve_Permutation); try lia. all: try by rewrite <- app_assoc.
  - rewrite running_app, running_cons in *. sums. split_and!; [done| |lia]. rewrite Ht. solve_Permutation.
  - unfold complete. fields. rewrite running_app, running_cons in *. sums. split_and!; [done..|lia].
  - rewrite (notify_running _ _ Hn), (notify_same busy _ _ eq_refl Hn). done.
  - done.
  - rewrite running_wake, total_wake_workers; done.
  - done.
  - done.
Qed.

Lemma log_arrive s s' : arrive s s' -> log_ok s -> log_ok s'.
Proof.
  unfold log_ok. destruct 1 as [p l cs t e sb tk dn|p l cs e sb tk dn|p l cs e sb tk dn|p l1 l2 cs e sb tk dn
    |p l c1 c2 e sb tk dn|p l cs e e' sb tk dn]; fields; intros (Hs & Ht & Ha); try done.
  - unfold submit. destruct (accepting_ p); cbn; split_and!; auto. rewrite Hs. by rewrite <- app_assoc.
  - unfold shutdown. destruct (stopping_ p); cbn; auto.
  - rewrite running_app, running_cons in *. sums. auto.
Qed.

Lemma finished_spec p : finished p = true <-> tasks_ p = [] /\ activeTasks_ p = 0.
Proof. unfold finished, empty. rewrite andb_true_iff, Nat.eqb_eq. destruct (tasks_ p); naive_solver. Qed.

Lemma threads_start n e : threads_ok (start n e).
Proof.
  unfold threads_ok, start. fields.
  assert (forall k, total exited (replicate k Checking) = 0 /\ total sleeps (replicate k Checking) = 0) as Hk
    by (induction k as [|k [IH1 IH2]]; [done|]; by split).
  destruct (Hk (if n =? 0 then 1 else n)) as [-> ->]. cbn. split_and!; auto; try lia. by destruct n.
Qed.

(** A task more to do, or one taken and under way, is something to wait for. *)
Lemma unfinished p : tasks_ p <> [] \/ activeTasks_ p <> 0 -> finished p = false.
Proof. intros Hu. destruct (finished p) eqn:Hf; [|done]. apply finished_spec in Hf. naive_solver. Qed.

Lemma threads_check p l1 l2 cs e sb tk dn s' :
  threads_ok (mkSys p (l1 ++ Checking :: l2) cs e sb tk dn) ->
  s' = (if ready p then
          match take p with
          | None => mkSys p (l1 ++ Exited :: l2) cs e sb tk dn
          | Some (t, p') => mkSys p' (l1 ++ Running t :: l2) cs e sb (tk ++ [t]) dn
          end
        else mkSys p (l1 ++ Asleep :: l2) cs e sb tk dn) -> threads_ok s'.
Proof.
  intros (Hac & Hne & Hex & Hsl & Hw & Hj) ->. unfold ready, take, empty, threads_ok.
  destruct p as [[|t ts] ac st n]; destruct st; cbn [orb negb tasks_ stopping_ accepting_ activeTasks_]; fields; sums; cbn [length] in *.
  all: split_and!; auto; try by destruct l1.
  all: try (intros; destruct Hex; [lia|done]).
  all: try (intros Hs; specialize (Hsl ltac:(lia))); try lia.
  all: intros _; apply unfinished; by right.
Qed.

Lemma threads_complete p l1 l2 cs e sb tk dn :
  log_ok (mkSys p (l1 ++ Finishing :: l2) cs e sb tk dn) -> threads_ok (mkSys p (l1 ++ Finishing :: l2) cs e sb tk dn) ->
  threads_ok (mkSys (complete p) (l1 ++ Checking :: l2) (if finished (complete p) then wake_callers cs else cs) e sb tk dn).
Proof.
  intros (_ & _ & Ha) (Hac & Hne & Hex & Hsl & Hw & Hj). unfold threads_ok. fields. cbn [complete tasks_ accepting_ stopping_].
  sums. split_and!; auto; [by destruct l1|..].
  - destruct (finished (complete p)) eqn:Hf; rewrite ?total_wake_callers by done; destruct (stopping_ p); intros Hs;
      (specialize (Hsl Hs)); lia.
  - destruct (finished (complete p)) eqn:Hf; [rewrite nobody_waits; lia|done].
  - by destruct (finished (complete p)); rewrite ?total_wake_callers by done.
Qed.

Lemma threads_work s s' : work s s' -> log_ok s -> threads_ok s -> threads_ok s'.
Proof.
  destruct 1 as [p l1 l2 cs e sb tk dn|p l1 l2 t x cs e sb tk dn|p l1 l2 cs e sb tk dn|p l l' c1 c2 e sb tk dn Hn
    |p l c1 c2 e sb tk dn|p l c1 c2 e sb tk dn|p l c1 c2 i e sb tk dn Hi|p l c1 c2 e sb tk dn]; intros Hl Hok.
  - by eapply threads_check.
  - destruct Hok as (Hac & Hne & Hex & Hsl & Hw & Hj). unfold threads_ok. fields. sums. split_and!; auto. by destruct l1.
  - by apply threads_complete.
  - destruct Hok as (Hac & Hne & Hex & Hsl & Hw & Hj). unfold threads_ok. fields. sums.
    rewrite (notify_same exited _ _ eq_refl Hn). destruct Hn as [l1 l2|l Hno]; sums; split_and!; auto; try by destruct l1.
    + intros. specialize (Hsl ltac:(lia)). destruct (stopping_ p); lia.
    + intros Hs. exfalso. apply Hno. clear -Hs. induction l as [|[] l IH]; cbn in Hs; [lia| |by left|..]; right; by apply IH.
  - destruct Hok as (Hac & Hne & Hex & Hsl & Hw & Hj). unfold threads_ok. fields.
    destruct (finished p) eqn:Hf; fields; sums; split_and!; auto.
  - destruct Hok as (Hac & Hne & Hex & Hsl & Hw & Hj). unfold threads_ok. fields. sums.
    rewrite nobody_sleeps, (total_wake_workers exited) by done. split_and!; auto; [|lia]. by destruct l.
  - destruct Hok as (Hac & Hne & Hex & Hsl & Hw & Hj). unfold threads_ok. fields. sums. by split_and!.
  - destruct Hok as (Hac & Hne & Hex & Hsl & Hw & Hj). unfold threads_ok. fields. sums. split_and!; auto. intros; apply Hj; lia.
Qed.

Lemma threads_arrive s s' : arrive s s' -> threads_ok s -> threads_ok s'.
Proof.
  destruct 1 as [p l cs t e sb tk dn|p l cs e sb tk dn|p l cs e sb tk dn|p l1 l2 cs e sb tk dn
    |p l c1 c2 e sb tk dn|p l cs e e' sb tk dn]; intros Hok; pose proof Hok as (Hac & Hne & Hex & Hsl & Hw & Hj).
  - unfold submit. fields. case_eq (accepting_ p); intros Hap; cbn [negb]; [|exact Hok]. rewrite Hap in *.
    case_eq (stopping_ p); intros Hsp; rewrite Hsp in *; [done|]. unfold threads_ok. fields. rewrite length_app. sums. cbn [length].
    split_and!; auto; intros.
    + destruct Hex; [lia|done].
    + specialize (Hsl ltac:(lia)). lia.
    + apply unfinished. fields. left. by destruct (tasks_ p).
    + apply Hj. lia.
  - unfold threads_ok. fields. sums. split_and!; auto; intros; [|apply Hw; lia|apply Hj; lia].
    specialize (Hsl ltac:(lia)). destruct (stopping_ p); lia.
  - unfold shutdown. case_eq (stopping_ p); intros Hsp; [exact Hok|]. unfold threads_ok. fields. sums. rewrite Hsp in *.
    split_and!; auto; try lia. intros. apply Hw. lia.
  - unfold threads_ok. fields. sums. split_and!; auto; [by destruct l1|]. intros. specialize (Hsl ltac:(lia)). destruct (stopping_ p); lia.
  - unfold threads_ok. fields. sums. split_and!; auto. intros; apply Hw; lia.
  - done.
Qed.

(** Workers that have ended stay so. *)
Definition ended_stay (l l' : list Worker) : Prop :=
  length l' = length l /\ forall i, l !! i = Some Exited -> l' !! i = Some Exited.

Lemma ended_stay_at w w' l1 l2 : w <> Exited -> ended_stay (l1 ++ w :: l2) (l1 ++ w' :: l2).
Proof.
  intros Hw. split; [by rewrite !length_app|]. intros i.
  destruct (decide (i < length l1)%nat) as [Hi|Hi]; [by rewrite !lookup_app_l|].
  rewrite !lookup_app_r by lia. destruct (i - length l1); cbn; [congruence|done].
Qed.
Lemma ended_stay_wake l : ended_stay l (wake_workers l).
Proof.
  split; [apply length_map|]. intros i Hi. unfold wake_workers. rewrite (list_lookup_fmap _ l i : map _ l !! i = _), Hi. done.
Qed.
Lemma ended_stay_notify l l' : notify_one l l' -> ended_stay l l'.
Proof. destruct 1; [by apply ended_stay_at|by split]. Qed.
Lemma ended_stay_work s s' : work s s' -> ended_stay (workers s) (workers s').
Proof.
  destruct 1 as [p l1 l2 cs e sb tk dn| | | | | | |]; fields; try by (apply ended_stay_at + split).
  - unfold ready, take. destruct p as [[|t ts] ac [] n]; cbn; by apply ended_stay_at.
  - by apply ended_stay_notify.
  - apply ended_stay_wake.
Qed.


Lemma joined_callers (s s' : Sys) :
  ended_stay (workers s) (workers s') ->
  (forall i, Joining i ∈ callers s' -> Joining i ∈ callers s \/ forall j, (j < i)%nat -> workers s' !! j = Some Exited) ->
  joined_ok s -> joined_ok s'.
Proof. intros [_ He] Hc Hok i Hi j Hj. destruct (Hc i Hi) as [Hi'|Hd]; [|by apply Hd]. apply He. by apply (Hok i). Qed.

Lemma joining_woken i cs : Joining i ∈ wake_callers cs -> Joining i ∈ cs.
Proof. intros ([|b| |k] & He & Hc)%list_elem_of_fmap; [done..|]. by rewrite He. Qed.

Lemma joined_work s s' : work s s' -> joined_ok s -> joined_ok s'.
Proof.
  intros Hw Hok. apply (joined_callers s); [by apply ended_stay_work| |done]. unfold joined_ok in Hok. intros i.
  destruct Hw as [p l1 l2 cs e sb tk dn| |p l1 l2 cs e sb tk dn|p l l' c1 c2 e sb tk dn Hn
    |p l c1 c2 e sb tk dn|p l c1 c2 e sb tk dn|p l c1 c2 k e sb tk dn Hk|p l c1 c2 e sb tk dn]; fields; try by left.
  - unfold ready, take. destruct p as [[|t ts] ac [] n]; cbn; by left.
  - destruct (finished (complete p)); [|by left]. left. by apply joining_woken.
  - left. set_solver.
  - destruct (finished p); left; set_solver.
  - rewrite elem_of_app, elem_of_cons. intros [?|[[= ->]|?]]; [left; set_solver|right; lia|left; set_solver].
  - rewrite elem_of_app, elem_of_cons. intros [?|[[= ->]|?]]; [left; set_solver|right|left; set_solver].
    intros j Hj. destruct (decide (j = k)) as [->|]; [done|]. apply (Hok k); [set_solver|lia].
  - left. set_solver.
Qed.

Lemma joined_arrive s s' : arrive s s' -> joined_ok s -> joined_ok s'.
Proof.
  clear exec. intros Ha Hok. apply (joined_callers s); [| |done].
  - destruct Ha; fields; repeat case_match; try by split. by apply ended_stay_at.
  - intros i Hi. left. revert Hi. destruct Ha; fields; repeat case_match; set_solver.
Qed.

(** Everything together, at every moment. *)
Definition pool_ok (s : Sys) : Prop := log_ok s /\ threads_ok s /\ joined_ok s.

Lemma pool_work s s' : work s s' -> pool_ok s -> pool_ok s'.
Proof. intros Hw (Hl & Ht & Hj). split; [by eapply log_work|]. split; [by eapply threads_work|by eapply joined_work]. Qed.
Lemma pool_arrive s s' : arrive s s' -> pool_ok s -> pool_ok s'.
Proof. intros Hw (Hl & Ht & Hj). split; [by eapply log_arrive|]. split; [by eapply threads_arrive|by eapply joined_arrive]. Qed.
Lemma pool_start n e : pool_ok (start n e).
Proof. split; [apply log_start|]. split; [apply threads_start|]. by intros i Hi%elem_of_nil. Qed.
Lemma pool_steps s s' : rtc step s s' -> pool_ok s -> pool_ok s'.
Proof. induction 1 as [|s1 s2 s3 [Hw|Ha] _ IH]; eauto using pool_work, pool_arrive. Qed.

(** ** What the callers can rely on *)

Lemma finished_done s : log_ok s -> finished (pool s) = true -> done_ s ≡ₚ submitted_ s.
Proof.
  intros (Hs & Ht & Ha) [Hn Hz]%finished_spec. rewrite Hs, Hn, app_nil_r, Ht, idle_running, app_nil_r; [done|congruence].
Qed.

Lemma exited_total l : Forall (eq Exited) l -> total exited l = length l /\ total busy l = 0.
Proof. induction 1 as [|w l <- _ [IH1 IH2]]; [done|]. cbn. by rewrite IH1, IH2. Qed.

Lemma joined_done s :
  pool_ok s -> Joining (length (workers s)) ∈ callers s -> Forall (eq Exited) (workers s) /\ done_ s ≡ₚ submitted_ s.
Proof.
  intros (Hl & (_ & Hne & Hex & _) & Hj) Hi.
  assert (Forall (eq Exited) (workers s)) as Hall.
  { apply Forall_lookup. intros j w Hw. pose proof (Hj _ Hi j (lookup_lt_Some _ _ _ Hw)). congruence. }
  split; [done|]. destruct (exited_total _ Hall) as [He Hb]. apply finished_done; [done|].
  apply finished_spec. destruct Hl as (_ & _ & ->). split; [|done]. apply Hex. rewrite He.
  destruct (workers s); [done|cbn; lia].
Qed.

(** ** What one step of the threads under way changes *)

Lemma work_effect s s' :
  work s s' ->
  submitted_ s' = submitted_ s /\ stopping_ (pool s') = stopping_ (pool s) /\ (callers s = [] -> callers s' = []) /\
  ((env s' = env s /\ done_ s' = done_ s) \/
   exists w seen t, t ∈ running (workers s) /\ env s' = exec w seen t (env s) /\ done_ s' = done_ s ++ [t]).
Proof.
  destruct 1 as [p l1 l2 cs e sb tk dn|p l1 l2 t x cs e sb tk dn| | | | | |]; fields;
    try (split_and!; auto; by intros [-> [=]]%app_nil).
  - unfold ready, take. destruct p as [[|t ts] ac [] n]; cbn; split_and!; auto.
  - split_and!; auto. right. exists (length l1), x, t. rewrite running_app, running_cons. set_solver.
  - split_and!; auto. intros ->. by case_match.
Qed.

(** What is running, and what waits, is not done yet. *)
Lemma log_split s : log_ok s -> submitted_ s ≡ₚ done_ s ++ running (workers s) ++ tasks_ (pool s).
Proof. intros (-> & -> & _). by rewrite app_assoc. Qed.

(** [shutdown] is under way, or every worker has ended. *)
Definition closing (s : Sys) : Prop := (0 < total joins (callers s))%nat \/ Forall (eq Exited) (workers s).

Lemma ended_all l l' : ended_stay l l' -> Forall (eq Exited) l -> Forall (eq Exited) l'.
Proof.
  intros [Hl He] Hf. apply Forall_lookup. intros i w Hw. destruct (lookup_lt_is_Some_2 l i) as [w' Hw'].
  { rewrite <- Hl. by eapply lookup_lt_Some. }
  pose proof (Forall_lookup_1 _ _ _ _ Hf Hw') as <-. apply He in Hw'. congruence.
Qed.

Lemma closing_work s s' : work s s' -> pool_ok s -> closing s -> closing s'.
Proof.
  intros Hw Hok [Hc|Hc]; [|right; eapply ended_all, Hc; by apply ended_stay_work].
  pose proof (joined_done s Hok) as Hj. unfold closing.
  destruct Hw as [p l1 l2 cs e sb tk dn| | | | | | |p l c1 c2 e sb tk dn]; fields.
  - unfold ready, take. destruct p as [[|t ts] ac [] n]; cbn in *; by left.
  - by left.
  - left. case_match; rewrite ?total_wake_callers; done.
  - left. by sums.
  - left. case_match; by sums.
  - left. sums. lia.
  - left. by sums.
  - right. apply Hj. set_solver.
Qed.

(** ** The work comes to an end *)

Definition worker_weight (w : Worker) : nat := match w with Checking => 1 | Running _ => 3 | Finishing => 2 | Asleep | Exited => 0 end.
Definition caller_weight (n : nat) (c : Caller) : nat :=
  match c with NotifyOne => 2 | Waiting true => 1 | Waiting false => 0 | NotifyAll => 2 * n + 3 | Joining i => S n - i end.
Definition measure (s : Sys) : nat :=
  (length (tasks_ (pool s)) + total busy (workers s)) * S (length (callers s)) + 3 * length (tasks_ (pool s)) +
  total worker_weight (workers s) + total (caller_weight (length (workers s))) (callers s).

Lemma wake_workers_weight l : (total worker_weight (wake_workers l) <= total worker_weight l + length l)%nat.
Proof. induction l as [|w l IH]; [done|]. cbn. unfold wake_workers in IH. destruct w; cbn; lia. Qed.
Lemma wake_callers_weight n l : (total (caller_weight n) (wake_callers l) <= total (caller_weight n) l + length l)%nat.
Proof. induction l as [|c l IH]; [done|]. cbn. unfold wake_callers in IH. destruct c as [|[]| |]; cbn; lia. Qed.
Lemma length_wake_callers l : length (wake_callers l) = length l.
Proof. apply length_map. Qed.

Lemma measure_work s s' : work s s' -> (measure s' < measure s)%nat.
Proof.
  unfold measure. intros Hw. destruct (ended_stay_work _ _ Hw) as [Hlen _]. revert Hlen.
  destruct Hw as [p l1 l2 cs e sb tk dn| |p l1 l2 cs e sb tk dn|p l l' c1 c2 e sb tk dn Hn
    |p l c1 c2 e sb tk dn|p l c1 c2 e sb tk dn|p l c1 c2 k e sb tk dn Hk|p l c1 c2 e sb tk dn]; fields.
  - unfold ready, take, empty. destruct p as [[|t ts] ac [] n]; cbn; intros ->; sums; cbn; nia.
  - intros ->. sums. cbn. nia.
  - intros ->. cbn [complete tasks_]. sums. pose proof (wake_callers_weight (length (l1 ++ Finishing :: l2)) cs).
    destruct (finished (complete p)); rewrite ?length_wake_callers; cbn; nia.
  - intros ->. rewrite (notify_same busy _ _ eq_refl Hn), !length_app. sums. cbn [length caller_weight].
    assert (total worker_weight l' <= S (total worker_weight l))%nat by (destruct Hn; sums; cbn; lia). nia.
  - intros _. destruct (finished p); sums; rewrite !length_app; cbn; nia.
  - intros ->. rewrite total_wake_workers, !length_app by done. sums. pose proof (wake_workers_weight l). cbn. nia.
  - intros _. sums. rewrite !length_app. apply lookup_lt_Some in Hk. cbn [length caller_weight]. nia.
  - intros _. sums. rewrite !length_app. cbn [length caller_weight]. nia.
Qed.

(** Nothing is left to do: no call is under way, every task accepted is done, and
    the workers sleep, or have ended once [shutdown] was called. *)
Definition quiet (s : Sys) : Prop :=
  callers s = [] /\ tasks_ (pool s) = [] /\ done_ s ≡ₚ submitted_ s /\
  Forall (eq (if stopping_ (pool s) then Exited else Asleep)) (workers s).

Context `{!Inhabited Seen}.

(** A thread that can go on. *)
Definition moves (w : Worker) : bool := match w with Checking | Running _ | Finishing => true | Asleep | Exited => false end.

Definition goes_on (l : list Worker) (c : Caller) : bool :=
  match c with
  | Waiting awake => awake
  | Joining i => (i =? length l) || match l !! i with Some Exited => true | _ => false end
  | _ => true
  end.

Lemma worker_moves s w : w ∈ workers s -> moves w = true -> exists s', work s s'.
Proof.
  destruct s as [p l cs e sb tk dn]. intros (l1 & l2 & Hl)%list_elem_of_split Hm. fields. subst l.
  destruct w as [| |t| |]; try done; eexists; [apply w_check|apply (w_run _ _ _ _ inhabitant)|apply w_complete].
Qed.

Lemma notify_possible l : exists l', notify_one l l'.
Proof.
  destruct (sum_list_with sleeps l) eqn:Hs.
  - exists l. constructor. intros Ha. by pose proof (total_zero _ _ _ Hs Ha).
  - assert (Asleep ∈ l) as (l1 & l2 & ->)%list_elem_of_split; [|eexists; constructor].
    revert n Hs. induction l as [|w l IH]; [done|]. intros n Hs. apply elem_of_cons. destruct w; cbn in Hs; eauto.
Qed.

Lemma caller_moves s c :
  c ∈ callers s -> goes_on (workers s) c = true -> exists s', work s s'.
Proof.
  destruct s as [p l cs e sb tk dn]. intros (c1 & c2 & Hc)%list_elem_of_split Hm. fields. subst cs.
  destruct c as [|[]| |i]; try done.
  - destruct (notify_possible l) as [l' Hn]. eexists. by apply w_notify_one.
  - eexists. apply w_wait.
  - eexists. apply w_notify_all.
  - cbn in Hm. apply orb_true_iff in Hm as [->%Nat.eqb_eq|Hm]; [eexists; apply w_joined|].
    destruct (l !! i) as [[]|] eqn:Hi; try done. eexists. by apply w_join.
Qed.

(** Workers none of which can go on: all asleep, or all ended. *)
Lemma still_workers s :
  threads_ok s -> (forall w, w ∈ workers s -> moves w = false) -> NotifyAll ∉ callers s -> NotifyOne ∉ callers s ->
  tasks_ (pool s) = [] /\ Forall (eq (if stopping_ (pool s) then Exited else Asleep)) (workers s).
Proof.
  intros (_ & Hne & Hex & Hsl & _) Hm Hna Hno.
  assert (total checks (workers s) = 0 /\ total notifies (callers s) = 0 /\ total notifies_all (callers s) = 0) as (Hc & Hn & Hn').
  { split_and!.
    - clear -Hm. induction (workers s) as [|w l IH]; [done|]. cbn. rewrite IH by set_solver.
      specialize (Hm w ltac:(set_solver)). by destruct w.
    - clear -Hno. induction (callers s) as [|[] l IH]; [done|set_solver|..]; cbn; apply IH; set_solver.
    - clear -Hna. induction (callers s) as [|[] l IH]; [done|..|set_solver|]; cbn; apply IH; set_solver. }
  assert (forall w, w ∈ workers s -> w = Asleep \/ w = Exited) as Hw.
  { intros w Hw. specialize (Hm w Hw). destruct w; auto; done. }
  destruct (total sleeps (workers s)) eqn:Hs.
  - assert (Forall (eq Exited) (workers s)) as Hall.
    { apply Forall_forall. intros w Hw'. destruct (Hw w Hw') as [->| ->]; [by pose proof (total_zero _ _ _ Hs Hw')|done]. }
    destruct (exited_total _ Hall) as [He _]. destruct Hex as [-> ->]; [|done]. rewrite He. destruct (workers s); [done|cbn; lia].
  - rewrite Hc, Hn, Hn' in Hsl. specialize (Hsl ltac:(lia)). destruct (stopping_ (pool s)) eqn:Hst; [lia|].
    split; [apply nil_length_inv; lia|]. apply Forall_forall. intros w Hw'. destruct (Hw w Hw') as [->| ->]; [done|].
    exfalso. apply list_elem_of_split in Hw' as (l1 & l2 & El). rewrite El, !sum_list_with_app in Hex. cbn in Hex.
    destruct Hex; [lia|done].
Qed.

Lemma stuck_quiet s :
  pool_ok s -> (forall w, w ∈ workers s -> moves w = false) -> (forall c, c ∈ callers s -> goes_on (workers s) c = false) -> quiet s.
Proof.
  intros (Hl & Ht & Hj) Hm Hc.
  destruct (still_workers s Ht Hm) as [Hn Hw]; [intros Hc'; by specialize (Hc _ Hc')..|].
  assert (total busy (workers s) = 0) as Hb.
  { clear -Hm. induction (workers s) as [|w l IH]; [done|]. cbn. rewrite IH by set_solver.
    specialize (Hm w ltac:(set_solver)). by destruct w. }
  assert (finished (pool s) = true) as Hf. { apply finished_spec. destruct Hl as (_ & _ & ->). done. }
  split_and!; [|done|by apply finished_done|done].
  destruct (callers s) as [|c cs] eqn:Ec; [done|exfalso]. destruct Ht as (_ & Hne & _ & _ & Hwt & Hjn). rewrite Ec in *.
  specialize (Hc c ltac:(by left)). destruct c as [|[]| |i]; try done.
  - cbn in Hwt. rewrite Hf in Hwt. by specialize (Hwt ltac:(lia)).
  - cbn in Hjn. rewrite Hjn in Hw by lia. cbn in Hc. apply orb_false_iff in Hc as [Hi%Nat.eqb_neq Hc].
    destruct (workers s !! i) as [w|] eqn:Hwi.
    + by rewrite <- (Forall_lookup_1 _ _ _ _ Hw Hwi) in Hc.
    + apply lookup_ge_None in Hwi. specialize (Hj i). rewrite Ec in Hj.
      specialize (Hj ltac:(by left) (length (workers s)) ltac:(lia)). apply lookup_lt_Some in Hj. lia.
Qed.

Lemma quiet_or_works s : pool_ok s -> quiet s \/ exists s', work s s'.
Proof.
  intros Hok. destruct (existsb moves (workers s)) eqn:Hw.
  { apply existsb_exists in Hw as (w & Hin & Hm). right. apply (worker_moves s w); [by apply list_elem_of_In|done]. }
  destruct (existsb (goes_on (workers s)) (callers s)) eqn:Hc.
  { apply existsb_exists in Hc as (c & Hin & Hm). right. apply (caller_moves s c); [by apply list_elem_of_In|done]. }
  left. apply stuck_quiet; [done|..]; intros x Hx; apply not_true_is_false; intros Hm;
    [apply not_true_iff_false in Hw; apply Hw|apply not_true_iff_false in Hc; apply Hc];
    apply existsb_exists; exists x; by rewrite <- list_elem_of_In.
Qed.

(** C27: The thread pool loses and repeats nothing, whatever the interleaving of
    its callers and workers: the tasks accepted are those taken, in the order of
    [submit], followed by those in the queue, and each task taken is running or
    has run once; when the predicate of [waitAll] holds, and when [shutdown] has
    joined the last worker, every task accepted so far has run (and in the
    second case every worker has ended). *)
Theorem tasks_once n e s :
  rtc step (start n e) s ->
  submitted_ s = taken_ s ++ tasks_ (pool s) /\ taken_ s ≡ₚ done_ s ++ running (workers s) /\
  (finished (pool s) = true -> done_ s ≡ₚ submitted_ s) /\
  (Joining (length (workers s)) ∈ callers s -> Forall (eq Exited) (workers s) /\ done_ s ≡ₚ submitted_ s).
Proof.
  intros Hr. assert (pool_ok s) as Hok by (eapply pool_steps, pool_start; done).
  pose proof (joined_done s Hok). destruct Hok as (Hl & _ & _). pose proof (finished_done s Hl). destruct Hl as (? & ? & _). auto.
Qed.

(** C28: The thread pool gets its work done: from any state that it can reach, the
    threads under way take finitely many steps if nothing new arrives, and they
    stop only when no call is under way, every task accepted has run, and the
    workers sleep, or have ended if [shutdown] was called.  No wake-up is lost
    and nobody waits for ever. *)
Theorem pool_completes n e s :
  rtc step (start n e) s ->
  sn work s /\ forall s', rtc work s s' -> quiet s' \/ exists s'', work s' s''.
Proof.
  intros Hr. split.
  - clear Hr. induction s as [s IH] using (well_founded_induction (well_founded_ltof _ measure)).
    constructor. intros s' Hw. apply IH. by apply measure_work.
  - intros s' Hr'. assert (pool_ok s') as Hok.
    { eapply pool_steps, pool_start. etrans; [done|]. eapply rtc_subrel, Hr'. intros ???; by left. }
    by apply quiet_or_works.
Qed.

End pool.

End ThreadPool.
