(* ===== verification/FileWorkers.v ===== *)
(** * The worker threads of the file transfer service

    [submit], [worker_loop], [stop] and [deliver_async] of
    [file_transfer_service.cpp] as steps of any number of threads.  The workers
    do what those of [ThreadPool.v] do, with less around them, so the service is
    shown to implement that thread pool step by step, and what holds of the pool
    holds of the service. *)
From S2P Require Import Prelude ThreadPool.

Module FileWorkers.

Section service.
Context {Task Env Seen : Type} (exec : nat -> Seen -> Task -> Env -> Env).

(** ** The members and what is done under [queue_mutex_] *)

Record Service := mkService { tasks_ : list Task; stopping_ : bool }.

(** [submit] up to its notification; [None] when it returns at once. *)
Definition submit (t : Task) (v : Service) : option Service :=
  if stopping_ v then None else Some (mkService (tasks_ v ++ [t]) (stopping_ v)).
(** The predicate of the wait in [worker_loop], and the end of a worker. *)
Definition ready (v : Service) : bool := stopping_ v || match tasks_ v with [] => false | _ => true end.
Definition take (v : Service) : option (Task * Service) :=
  match tasks_ v with [] => None | t :: rest => Some (t, mkService rest (stopping_ v)) end.
(** [stop] up to its notification, and its last block. *)
Definition stop (v : Service) : option Service := if stopping_ v then None else Some (mkService (tasks_ v) true).
Definition swap_tasks (v : Service) : Service := mkService [] (stopping_ v).

(** ** Threads *)

Inductive Worker := Checking | Asleep | Running (t : Task) | Exited.
(** A call under way: [submit] about to notify, [stop] about to notify, joining
    the worker of an index, or about to empty the queue. *)
Inductive Caller := Notifying | StopNotifying | Joining (next : nat) | Swapping.

Record Sys := mkSys { service : Service; workers : list Worker; callers : list Caller; env : Env;
                      submitted : list Task; taken : list Task; run : list Task }.
Definition start (worker_count : nat) (e : Env) : Sys :=
  mkSys (mkService [] false) (replicate (Nat.max 1 worker_count) Checking) [] e [] [] [].

Definition wake_all (l : list Worker) : list Worker := map (fun w => match w with Asleep => Checking | _ => w end) l.
Inductive notify_one : list Worker -> list Worker -> Prop :=
  | notify_worker l1 l2 : notify_one (l1 ++ Asleep :: l2) (l1 ++ Checking :: l2)
  | notify_nobody l : Asleep ∉ l -> notify_one l l.

(** What the threads under way do. *)
Inductive work : Sys -> Sys -> Prop :=
  | w_check v l1 l2 cs e sb tk rn :
      work (mkSys v (l1 ++ Checking :: l2) cs e sb tk rn)
        (if ready v then
           match take v with
           | None => mkSys v (l1 ++ Exited :: l2) cs e sb tk rn
           | Some (t, v') => mkSys v' (l1 ++ Running t :: l2) cs e sb (tk ++ [t]) rn
           end
         else mkSys v (l1 ++ Asleep :: l2) cs e sb tk rn)
  | w_run v l1 l2 t seen cs e sb tk rn :
      work (mkSys v (l1 ++ Running t :: l2) cs e sb tk rn)
        (mkSys v (l1 ++ Checking :: l2) cs (exec (length l1) seen t e) sb tk (rn ++ [t]))
  | w_notify v l l' c1 c2 e sb tk rn :
      notify_one l l' -> work (mkSys v l (c1 ++ Notifying :: c2) e sb tk rn) (mkSys v l' (c1 ++ c2) e sb tk rn)
  | w_notify_all v l c1 c2 e sb tk rn :
      work (mkSys v l (c1 ++ StopNotifying :: c2) e sb tk rn) (mkSys v (wake_all l) (c1 ++ Joining 0 :: c2) e sb tk rn)
  | w_join v l c1 c2 i e sb tk rn :
      l !! i = Some Exited ->
      work (mkSys v l (c1 ++ Joining i :: c2) e sb tk rn) (mkSys v l (c1 ++ Joining (S i) :: c2) e sb tk rn)
  | w_joined v l c1 c2 e sb tk rn :
      work (mkSys v l (c1 ++ Joining (length l) :: c2) e sb tk rn) (mkSys v l (c1 ++ Swapping :: c2) e sb tk rn)
  (** The threads that have ended stay in the list; [workers_.clear()] forgets them. *)
  | w_swap v l c1 c2 e sb tk rn :
      work (mkSys v l (c1 ++ Swapping :: c2) e sb tk rn) (mkSys (swap_tasks v) l (c1 ++ c2) e sb tk rn).

(** What comes from outside: [deliver_async], [stop], wake-ups for no reason, and
    changes of the shared state. *)
Inductive arrive : Sys -> Sys -> Prop :=
  | a_submit v l cs t e sb tk rn :
      arrive (mkSys v l cs e sb tk rn)
        (match submit t v with
         | None => mkSys v l cs e sb tk rn
         | Some v' => mkSys v' l (cs ++ [Notifying]) e (sb ++ [t]) tk rn
         end)
  | a_stop v l cs e sb tk rn :
      arrive (mkSys v l cs e sb tk rn)
        (match stop v with None => mkSys v l cs e sb tk rn | Some v' => mkSys v' l (cs ++ [StopNotifying]) e sb tk rn end)
  | a_spurious v l1 l2 cs e sb tk rn :
      arrive (mkSys v (l1 ++ Asleep :: l2) cs e sb tk rn) (mkSys v (l1 ++ Checking :: l2) cs e sb tk rn)
  | a_env v l cs e e' sb tk rn : arrive (mkSys v l cs e sb tk rn) (mkSys v l cs e' sb tk rn).

Definition step (s s' : Sys) : Prop := work s s' \/ arrive s s'.

(** ** The thread pool that it implements *)

Definition pool_worker (w : Worker) : ThreadPool.Worker (Task := Task) :=
  match w with Checking => ThreadPool.Checking | Asleep => ThreadPool.Asleep | Running t => ThreadPool.Running t | Exited => ThreadPool.Exited end.
Definition pool_caller (c : Caller) : option ThreadPool.Caller :=
  match c with
  | Notifying => Some ThreadPool.NotifyOne
  | StopNotifying => Some ThreadPool.NotifyAll
  | Joining i => Some (ThreadPool.Joining i)
  | Swapping => None
  end.
(** Workers of the pool that run a task are counted; a service has one as well
    between taking a task and having run it. *)
Definition pool_of (s : Sys) : ThreadPool.Sys (Task := Task) (Env := Env) :=
  let l := map pool_worker (workers s) in
  ThreadPool.mkSys
    (ThreadPool.mkPool (tasks_ (service s)) (negb (stopping_ (service s))) (stopping_ (service s)) (sum_list_with ThreadPool.busy l))
    l (omap pool_caller (callers s)) (env s) (submitted s) (taken s) (run s).

(** The queue is emptied when it is empty already. *)
Definition swapping_ok (s : Sys) : Prop := Swapping ∈ callers s -> tasks_ (service s) = [] /\ stopping_ (service s) = true.
Definition service_ok (s : Sys) : Prop := ThreadPool.pool_ok (pool_of s) /\ swapping_ok s.

#[local] Ltac fields := cbn [service workers callers env submitted taken run tasks_ stopping_] in *.

Lemma pool_wake l : map pool_worker (wake_all l) = ThreadPool.wake_workers (map pool_worker l).
Proof. induction l as [|w l IH]; [done|]. cbn. unfold wake_all, ThreadPool.wake_workers in IH. rewrite IH. by destruct w. Qed.
Lemma pool_asleep l : ThreadPool.Asleep ∈ map pool_worker l -> Asleep ∈ l.
Proof. intros (w & He & Hw)%list_elem_of_fmap. destruct w; try done. Qed.
Lemma busy_wake l : sum_list_with ThreadPool.busy (map pool_worker (wake_all l)) = sum_list_with ThreadPool.busy (map pool_worker l).
Proof. rewrite pool_wake. by apply ThreadPool.total_wake_workers. Qed.
Lemma pool_notify l l' : notify_one l l' -> ThreadPool.notify_one (map pool_worker l) (map pool_worker l').
Proof. destruct 1; [rewrite !map_app; constructor|]. apply ThreadPool.notify_nobody. by intros ?%pool_asleep. Qed.

Lemma pool_wake_callers cs : ThreadPool.wake_callers (omap pool_caller cs) = omap pool_caller cs.
Proof.
  unfold ThreadPool.wake_callers. induction cs as [|c cs IH]; [done|]. change (omap pool_caller (c :: cs)) with (match pool_caller c with Some x => x :: omap pool_caller cs | None => omap pool_caller cs end).
  destruct c; cbn [pool_caller map]; by rewrite IH.
Qed.

(** Each step of the service is one or two of the pool, or none. *)
Lemma pool_simulates s s' :
  work s s' -> service_ok s ->
  rtc (ThreadPool.work exec) (pool_of s) (pool_of s') /\
  (ThreadPool.measure (pool_of s') < ThreadPool.measure (pool_of s) \/
   pool_of s' = pool_of s /\ length (callers s') < length (callers s)).
Proof.
  intros Hw [Hok Hsw].
  assert (forall t, ThreadPool.work exec (pool_of s) t -> t = pool_of s' ->
    rtc (ThreadPool.work exec) (pool_of s) (pool_of s') /\ (ThreadPool.measure (pool_of s') < ThreadPool.measure (pool_of s) \/
    pool_of s' = pool_of s /\ length (callers s') < length (callers s))) as Hone
    by (intros t Ht <-; split; [by apply rtc_once|left; by apply (ThreadPool.measure_work exec)]).
  destruct Hw as [v l1 l2 cs e sb tk rn|v l1 l2 t x cs e sb tk rn|v l l' c1 c2 e sb tk rn Hn|v l c1 c2 e sb tk rn
    |v l c1 c2 i e sb tk rn Hi|v l c1 c2 e sb tk rn|v l c1 c2 e sb tk rn]; unfold pool_of in *; fields.
  - rewrite map_app in *. eapply Hone; [apply ThreadPool.w_check|]. unfold ready, take, ThreadPool.ready, ThreadPool.take, ThreadPool.empty.
    destruct v as [[|t ts] []]; cbn; rewrite ?map_app, ?sum_list_with_app; cbn; rewrite ?sum_list_with_app; cbn; repeat f_equal; lia.
  - rewrite !map_app, !sum_list_with_app in *. cbn in *. clear Hone.
    assert (ThreadPool.work exec
      (ThreadPool.mkSys (ThreadPool.mkPool (tasks_ v) (negb (stopping_ v)) (stopping_ v) (sum_list_with ThreadPool.busy (map pool_worker l1) + S (sum_list_with ThreadPool.busy (map pool_worker l2))))
        (map pool_worker l1 ++ ThreadPool.Running t :: map pool_worker l2) (omap pool_caller cs) e sb tk rn)
      (ThreadPool.mkSys (ThreadPool.mkPool (tasks_ v) (negb (stopping_ v)) (stopping_ v) (sum_list_with ThreadPool.busy (map pool_worker l1) + S (sum_list_with ThreadPool.busy (map pool_worker l2))))
        (map pool_worker l1 ++ ThreadPool.Finishing :: map pool_worker l2) (omap pool_caller cs) (exec (length l1) x t e) sb tk (rn ++ [t]))) as H1
      by (rewrite <- (length_map pool_worker l1); apply ThreadPool.w_run).
    match type of H1 with ThreadPool.work _ _ ?m =>
      assert (ThreadPool.work exec m
        (ThreadPool.mkSys (ThreadPool.mkPool (tasks_ v) (negb (stopping_ v)) (stopping_ v) (sum_list_with ThreadPool.busy (map pool_worker l1) + sum_list_with ThreadPool.busy (map pool_worker l2)))
          (map pool_worker l1 ++ ThreadPool.Checking :: map pool_worker l2) (omap pool_caller cs) (exec (length l1) x t e) sb tk (rn ++ [t]))) as H2 end.
    { eapply eq_ind; [apply ThreadPool.w_complete|]. unfold ThreadPool.complete. cbn.
      replace (pred _) with (sum_list_with ThreadPool.busy (map pool_worker l1) + sum_list_with ThreadPool.busy (map pool_worker l2)) by lia.
      f_equal. destruct (ThreadPool.finished _); [|done].
      apply pool_wake_callers. }
    split; [eapply rtc_l, rtc_once; [exact H1|exact H2]|]. left.
    eapply Nat.lt_trans; [exact (ThreadPool.measure_work exec _ _ H2)|exact (ThreadPool.measure_work exec _ _ H1)].
  - rewrite omap_app in *. eapply Hone; [apply ThreadPool.w_notify_one, pool_notify, Hn|]. rewrite omap_app.
    by rewrite (ThreadPool.notify_same ThreadPool.busy _ _ eq_refl (pool_notify _ _ Hn)).
  - rewrite omap_app in *. eapply Hone; [apply ThreadPool.w_notify_all|]. rewrite omap_app, busy_wake, pool_wake. done.
  - rewrite omap_app in *. eapply Hone; [apply ThreadPool.w_join|]; [|by rewrite omap_app].
    change (map pool_worker l) with (pool_worker <$> l). by rewrite list_lookup_fmap, Hi.
  - rewrite omap_app in *. eapply Hone; [|rewrite omap_app; reflexivity].
    cbn. rewrite <- (length_map pool_worker l). apply ThreadPool.w_joined.
  - destruct Hsw as [Ht Hst]; [fields; set_solver|]. fields. destruct v as [ts st]. fields. subst. rewrite !omap_app. cbn.
    split; [done|]. right. split; [done|]. fields. rewrite !length_app. cbn. lia.
Qed.

Lemma pool_arrives s s' : arrive s s' -> rtc ThreadPool.arrive (pool_of s) (pool_of s').
Proof.
  clear exec. destruct 1 as [v l cs t e sb tk rn|v l cs e sb tk rn|v l1 l2 cs e sb tk rn|v l cs e e' sb tk rn]; unfold pool_of; fields.
  - unfold submit. destruct v as [ts []]; fields; [done|]. apply rtc_once. rewrite omap_app. eapply eq_ind; [apply (ThreadPool.a_submit _ _ _ t)|]. done.
  - unfold stop. destruct v as [ts []]; fields; [done|]. apply rtc_once. rewrite omap_app. eapply eq_ind; [apply ThreadPool.a_shutdown|]. done.
  - rewrite !map_app, !sum_list_with_app. apply rtc_once, ThreadPool.a_spurious.
  - apply rtc_once, ThreadPool.a_env.
Qed.

Lemma pool_starts n e : pool_of (start n e) = ThreadPool.start n e.
Proof.
  unfold pool_of, start, ThreadPool.start. fields. cbn. replace (if n =? 0 then 1 else n) with (Nat.max 1 n) by (destruct n; cbn; lia).
  assert (forall k, map pool_worker (replicate k Checking) = replicate k ThreadPool.Checking /\
    sum_list_with ThreadPool.busy (map pool_worker (replicate k Checking)) = 0) as Hk
    by (induction k as [|k [IH1 IH2]]; [done|]; split; [cbn; by rewrite IH1|exact IH2]).
  by destruct (Hk (Nat.max 1 n)) as [-> ->].
Qed.

(** The last worker has been joined: all have ended, and no task is left. *)
Lemma all_joined s :
  ThreadPool.pool_ok (pool_of s) -> Joining (length (workers s)) ∈ callers s ->
  Forall (eq Exited) (workers s) /\ tasks_ (service s) = [] /\ stopping_ (service s) = true /\ run s ≡ₚ submitted s.
Proof.
  intros Hok Hj. destruct (ThreadPool.joined_done (pool_of s) Hok) as [Hex Hd].
  { cbn. rewrite length_map. apply list_elem_of_omap. by exists (Joining (length (workers s))). }
  pose proof Hok as (_ & (_ & Hne & Hx & _) & _). cbn in *.
  destruct (ThreadPool.exited_total _ Hex) as [He _]. destruct Hx as [Hst Ht].
  { rewrite He. destruct (map pool_worker (workers s)); [done|cbn; lia]. }
  split_and!; [|done|done|done]. clear -Hex. induction (workers s) as [|w l IH]; [done|]. cbn in Hex. inversion Hex as [|? ? Hw Hl]; subst.
  constructor; [by destruct w|by apply IH].
Qed.

Lemma swapping_work s s' : work s s' -> service_ok s -> swapping_ok s'.
Proof.
  intros Hw [Hok Hsw]. pose proof (all_joined s Hok) as Hj. unfold swapping_ok in *.
  destruct Hw as [v l1 l2 cs e sb tk rn| | | | |v l c1 c2 e sb tk rn|]; fields;
    try (intros Hs; apply Hsw; clear -Hs; set_solver).
  - clear Hj. unfold ready, take. destruct v as [[|t ts] []]; cbn; intros Hs; destruct (Hsw Hs); done.
  - intros _. destruct Hj as (_ & ? & ? & _); [clear; set_solver|done].
  - intros Hs. destruct Hsw as [_ Hst]; [clear; set_solver|]. done.
Qed.
Lemma swapping_arrive s s' : arrive s s' -> swapping_ok s -> swapping_ok s'.
Proof.
  clear exec. unfold swapping_ok. destruct 1 as [v l cs t e sb tk rn|v l cs e sb tk rn| |]; fields; intros Hsw; try done.
  - unfold submit. destruct v as [ts []]; fields; [done|]. intros Hs. destruct Hsw as [_ ?]; [|done]. clear -Hs. set_solver.
  - unfold stop. destruct v as [ts []]; fields; [done|]. intros Hs. destruct Hsw as [_ ?]; [|done]. clear -Hs. set_solver.
Qed.

Lemma pool_works s s' : rtc (ThreadPool.work exec) s s' -> ThreadPool.pool_ok s -> ThreadPool.pool_ok s'.
Proof. induction 1; eauto using ThreadPool.pool_work. Qed.
Lemma pool_arrivals (s s' : ThreadPool.Sys (Task := Task) (Env := Env)) : rtc ThreadPool.arrive s s' -> ThreadPool.pool_ok s -> ThreadPool.pool_ok s'.
Proof. induction 1; eauto using ThreadPool.pool_arrive. Qed.

Lemma service_step s s' : step s s' -> service_ok s -> service_ok s' /\ rtc (ThreadPool.step exec) (pool_of s) (pool_of s').
Proof.
  intros [Hw|Ha] Hok.
  - destruct (pool_simulates s s' Hw Hok) as [Hr _]. split; [|eapply rtc_subrel, Hr; intros ???; by left].
    split; [by eapply pool_works, Hok|by eapply swapping_work].
  - pose proof (pool_arrives s s' Ha) as Hr. split; [|eapply rtc_subrel, Hr; intros ???; by right].
    split; [by eapply pool_arrivals, Hok|by eapply swapping_arrive, Hok].
Qed.

Lemma service_steps s s' : rtc step s s' -> service_ok s -> service_ok s' /\ rtc (ThreadPool.step exec) (pool_of s) (pool_of s').
Proof.
  induction 1 as [|s1 s2 s3 Hs _ IH]; [done|]. intros Hok. destruct (service_step _ _ Hs Hok) as [Hok2 Hr].
  destruct (IH Hok2) as [Hok3 Hr2]. split; [done|]. by etrans.
Qed.

Lemma service_starts n e : service_ok (start n e).
Proof. split; [rewrite pool_starts; apply ThreadPool.pool_start|]. by intros Hs%elem_of_nil. Qed.

(** ** The work comes to an end *)

Definition quiet (s : Sys) : Prop :=
  callers s = [] /\ tasks_ (service s) = [] /\ run s ≡ₚ submitted s /\ Forall (eq (if stopping_ (service s) then Exited else Asleep)) (workers s).

Lemma works_end s : service_ok s -> sn work s.
Proof.
  remember (ThreadPool.measure (pool_of s)) as n eqn:Hn. revert s Hn. induction n as [n IHn] using lt_wf_ind. intros s Hn.
  remember (length (callers s)) as m eqn:Hm. revert s Hn Hm. induction m as [m IHm] using lt_wf_ind. intros s Hn Hm Hok.
  constructor. intros s' Hw. pose proof (proj1 (service_step s s' (or_introl Hw) Hok)) as Hok'.
  destruct (pool_simulates s s' Hw Hok) as [_ [Hlt|[He Hlt]]]; [by apply (IHn (ThreadPool.measure (pool_of s'))); subst|].
  apply (IHm (length (callers s'))); subst; [done|by rewrite He|done|done].
Qed.

Context `{!Inhabited Seen}.

Lemma wakeup_possible l : exists l', notify_one l l'.
Proof.
  destruct (existsb (fun w => match w with Asleep => true | _ => false end) l) eqn:He.
  - apply existsb_exists in He as ([] & Hin & Hw); try done. apply list_elem_of_In, list_elem_of_split in Hin as (l1 & l2 & ->). eexists. constructor.
  - exists l. constructor. intros Hin. apply not_true_iff_false in He. apply He, existsb_exists. exists Asleep. by rewrite <- list_elem_of_In.
Qed.

Lemma worker_in w l : pool_worker w ∈ map pool_worker l -> w ∈ l.
Proof. intros (w' & He & Hw)%list_elem_of_fmap. destruct w, w'; try done. by injection He as ->. Qed.
Lemma worker_works s w : w ∈ workers s -> (match w with Checking | Running _ => True | _ => False end) -> exists s', work s s'.
Proof.
  destruct s as [v l cs e sb tk rn]. intros (l1 & l2 & Hl)%list_elem_of_split Hm. fields. subst l.
  destruct w; try done; eexists; [apply w_check|apply (w_run _ _ _ _ inhabitant)].
Qed.
Lemma caller_works s c :
  c ∈ callers s -> (match c with Joining i => i = length (workers s) \/ workers s !! i = Some Exited | _ => True end) -> exists s', work s s'.
Proof.
  destruct s as [v l cs e sb tk rn]. intros (c1 & c2 & Hc)%list_elem_of_split Hm. fields. subst cs. destruct c as [| |i|].
  - destruct (wakeup_possible l) as [l' Hn]. eexists. by apply w_notify.
  - eexists. apply w_notify_all.
  - destruct Hm as [->|Hm]; eexists; [apply w_joined|by apply w_join].
  - eexists. apply w_swap.
Qed.

(** Where the pool can go on, so can the service. *)
Lemma pool_can s q t : q = pool_of s -> ThreadPool.work exec q t -> exists s', work s s'.
Proof.
  intros Hq Hw. assert (forall w l1 l2, l1 ++ w :: l2 = map pool_worker (workers s) -> w ∈ map pool_worker (workers s)) as Hin
    by (intros w l1 l2 <-; set_solver).
  assert (forall x c1 c2, c1 ++ x :: c2 = omap pool_caller (callers s) -> exists c, c ∈ callers s /\ pool_caller c = Some x) as Hcin
    by (intros x c1 c2 Hc; apply list_elem_of_omap; rewrite <- Hc; set_solver).
  unfold pool_of in Hq. destruct Hw as [p l1 l2 cs e sb tk rn|p l1 l2 u x cs e sb tk rn|p l1 l2 cs e sb tk rn|p l l' c1 c2 e sb tk rn Hn
    |p l c1 c2 e sb tk rn|p l c1 c2 e sb tk rn|p l c1 c2 i e sb tk rn Hi|p l c1 c2 e sb tk rn]; injection Hq as Hp Hl Hc He Hs Ht Hr.
  - apply (worker_works s Checking); [|done]. by eapply worker_in, Hin.
  - apply (worker_works s (Running u)); [|done]. by eapply worker_in, Hin.
  - apply Hin in Hl. apply list_elem_of_fmap in Hl as ([] & ? & _); done.
  - destruct (Hcin _ _ _ Hc) as ([] & Hin' & [=]). by apply (caller_works s Notifying).
  - by destruct (Hcin _ _ _ Hc) as ([] & _ & [=]).
  - destruct (Hcin _ _ _ Hc) as ([] & Hin' & [=]). by apply (caller_works s StopNotifying).
  - destruct (Hcin _ _ _ Hc) as ([] & Hin' & [= ->]). apply (caller_works s (Joining i)); [done|right].
    subst l. rewrite (list_lookup_fmap pool_worker (workers s) i : map _ (workers s) !! i = _) in Hi.
    destruct (workers s !! i) as [[]|]; done.
  - destruct (Hcin _ _ _ Hc) as ([] & Hin' & [= Hnext]). subst l. rewrite length_map in Hnext.
    apply (caller_works s (Joining next)); [done|by left].
Qed.

Lemma service_quiet_or_works s : service_ok s -> quiet s \/ exists s', work s s'.
Proof.
  intros [Hok Hsw]. destruct (ThreadPool.quiet_or_works exec (pool_of s) Hok) as [(Hc & Ht & Hr & Hw)|[t Hw]].
  - destruct s as [v l [|c cs] e sb tk rn].
    + left. split_and!; [done|exact Ht|exact Hr|]. cbn in *. clear -Hw. induction l as [|w l IH]; [done|]. cbn in Hw. inversion Hw as [|? ? Hh Hl]; subst.
      constructor; [destruct (stopping_ v), w; done|by apply IH].
    + right. cbn in Hc. destruct c; try done. eexists. by apply (w_swap v l [] cs).
  - right. by eapply pool_can.
Qed.

(** C30: The workers of the file service implement the thread pool of [ThreadPool.v]:
    whatever the interleaving of [deliver_async], [stop] and the workers, every
    run is a run of the pool.  So deliveries start in the order in which they
    were accepted and each runs once; the threads under way come to rest after
    finitely many steps, with every delivery run and the workers asleep, or ended
    after [stop]; and when [stop] empties the queue, all workers have ended and
    every delivery that was accepted has run: none is dropped. *)
Theorem deliveries_run n e s :
  rtc step (start n e) s ->
  rtc (ThreadPool.step exec) (ThreadPool.start n e) (pool_of s) /\
  submitted s = taken s ++ tasks_ (service s) /\ taken s ≡ₚ run s ++ ThreadPool.running (map pool_worker (workers s)) /\
  (Swapping ∈ callers s -> tasks_ (service s) = []) /\
  (Joining (length (workers s)) ∈ callers s -> Forall (eq Exited) (workers s) /\ run s ≡ₚ submitted s) /\
  sn work s /\ (forall s', rtc work s s' -> quiet s' \/ exists s'', work s' s'').
Proof.
  intros Hr. destruct (service_steps _ _ Hr (service_starts n e)) as [Hok Hp]. rewrite pool_starts in Hp.
  split_and!; [done|apply Hok|apply Hok| | |by apply works_end|].
  - intros Hs. apply (proj2 Hok Hs).
  - intros Hj. destruct (all_joined s (proj1 Hok) Hj) as (? & _ & _ & ?). done.
  - intros s' Hr'. apply service_quiet_or_works. apply (service_steps s s'); [|done]. eapply rtc_subrel, Hr'. intros ???; by left.
Qed.

End service.
End FileWorkers.
