(* ===== verification/Matrix.v ===== *)
(** * Matrices, [Threadpool/include/MatrixTaskScheduler.h]

    [validateMatrix], [generateMatrix], [multiplyMatrix] and [printMatrix].  A
    [long long] is an integer between [-2^63] and [2^63 - 1]; an operation that
    leaves this range, or an access outside a vector, has no defined result. *)
From S2P Require Import Prelude.

Module Matrix.

Abbreviation Matrix := (list (list Z)).

(** A value, a [std::runtime_error], or no defined behaviour. *)
Inductive Outcome (A : Type) := Value (a : A) | Thrown (error : string) | Undefined.
#[global] Arguments Value {A} _.
#[global] Arguments Thrown {A} _.
#[global] Arguments Undefined {A}.

Definition bind {A B} (m : Outcome A) (k : A -> Outcome B) : Outcome B :=
  match m with Value a => k a | Thrown error => Thrown error | Undefined => Undefined end.
#[local] Notation "x <~ m ; k" := (bind m (fun x => k)) (at level 100, m at level 90, right associativity).

Definition check (b : bool) : Outcome () := if b then Value () else Undefined.
Definition long_long (z : Z) : bool := (- 2 ^ 63 <=? z)%Z && (z <=? 2 ^ 63 - 1)%Z.

(** [for] over the indices of [l], on a variable that the body changes. *)
Fixpoint loop {A} (l : list nat) (body : nat -> A -> Outcome A) (a : A) : Outcome A :=
  match l with
  | [] => Value a
  | i :: rest => a' <~ body i a; loop rest body a'
  end.

Definition validateMatrix (matrix : Matrix) (name : string) : Outcome () :=
  match matrix with
  | [] => Thrown (name +:+ " cannot be empty.")
  | [] :: _ => Thrown (name +:+ " cannot have empty row.")
  | first :: rest =>
      if forallb (fun row => length row =? length first) rest then Value ()
      else Thrown (name +:+ " is not a rectangular matrix.")
  end.

(** The element [m[i][j]], and its assignment. *)
Definition cell (m : Matrix) (i j : nat) : option Z := row ← m !! i; row !! j.
Definition set_cell (m : Matrix) (i j : nat) (z : Z) : Matrix := alter (fun row => <[j:=z]> row) i m.

(** The variables [matrix] and [value]. *)
Definition generateMatrix (rows cols : nat) (seed : Z) : Outcome Matrix :=
  r <~ loop (seq 0 rows) (fun i => loop (seq 0 cols) (fun j '(matrix, value) =>
         _ <~ check (long_long (value + 3));
         Value (set_cell matrix i j (Z.rem value 10 + 1)%Z, (value + 3)%Z)))
         (replicate rows (replicate cols 0%Z), seed);
  Value r.1.

(** [result[i][j] += a[i][k] * b[k][j]] *)
Definition accumulate (a b : Matrix) (i j k : nat) (result : Matrix) : Outcome Matrix :=
  match cell a i k, cell b k j, cell result i j with
  | Some x, Some y, Some r =>
      _ <~ check (long_long (x * y) && long_long (r + x * y));
      Value (set_cell result i j (r + x * y)%Z)
  | _, _, _ => Undefined
  end.

Definition multiplyMatrix (a b : Matrix) : Outcome Matrix :=
  _ <~ validateMatrix a "Matrix A";
  _ <~ validateMatrix b "Matrix B";
  let aRows := length a in
  let aCols := length (hd [] a) in
  let bRows := length b in
  let bCols := length (hd [] b) in
  if negb (aCols =? bRows) then Thrown "Matrix size mismatch: A columns must equal B rows."
  else
    loop (seq 0 aRows) (fun i => loop (seq 0 bCols) (fun j => loop (seq 0 aCols) (accumulate a b i j)))
      (replicate aRows (replicate bCols 0%Z)).

Definition tab : string := String "009" "".

Definition print_row (maxCols : nat) (row : list Z) : string :=
  foldr (fun z s => to_string_signed z +:+ tab +:+ s) "" (take maxCols row) +:+
  (if maxCols <? length row then "..." else "") +:+ nl.
Definition printMatrix (matrix : Matrix) (maxRows maxCols : nat) : string :=
  foldr (fun row s => print_row maxCols row +:+ s) "" (take maxRows matrix) +:+
  (if maxRows <? length matrix then "..." +:+ nl else "").

(** ** The product as it is defined *)

(** The terms of the sum at column [j], for a row of the first matrix. *)
Definition terms (row : list Z) (b : Matrix) (j : nat) : list Z := zip_with (fun x r => x * r !!! j)%Z row b.
Definition sum (l : list Z) : Z := foldr Z.add 0%Z l.
Definition product (a b : Matrix) : Matrix :=
  map (fun row => map (fun j => sum (terms row b j)) (seq 0 (length (hd [] b)))) a.

(** Each term and each partial sum is a [long long]. *)
Fixpoint sums_fit (r : Z) (l : list Z) : bool :=
  match l with
  | [] => true
  | z :: rest => long_long z && long_long (r + z) && sums_fit (r + z)%Z rest
  end.
Definition fits (a b : Matrix) : bool :=
  forallb (fun row => forallb (fun j => sums_fit 0 (terms row b j)) (seq 0 (length (hd [] b)))) a.

(** The shape that [validateMatrix] asks for. *)
Definition rectangular (m : Matrix) (cols : nat) : Prop :=
  m <> [] /\ (0 < cols)%nat /\ Forall (fun row => length row = cols) m.

Lemma validate_rectangular m name :
  match validateMatrix m name with Value _ => rectangular m (length (hd [] m)) | Thrown _ => forall c, ~ rectangular m c | Undefined => False end.
Proof.
  destruct m as [|[|z first] rest]; cbn [validateMatrix].
  - by intros c [? _].
  - intros c (_ & Hc & Hf). apply Forall_cons in Hf as [<- _]. cbn in Hc. lia.
  - destruct (forallb _ rest) eqn:Hr.
    + split_and!; [done|cbn; lia|]. apply Forall_cons. split; [done|]. apply Forall_forall. intros row Hrow.
      rewrite forallb_forall in Hr. by apply Nat.eqb_eq, Hr, list_elem_of_In.
    + intros c (_ & _ & Hf). apply not_true_iff_false in Hr. apply Hr. apply Forall_cons in Hf as [Hc Hf].
      apply forallb_forall. intros row Hrow. apply Nat.eqb_eq. rewrite Hc. rewrite Forall_forall in Hf.
      by apply Hf, list_elem_of_In.
Qed.

(** ** The loops *)

Definition when (b : bool) {A} (a : A) : Outcome A := if b then Value a else Undefined.

Lemma loop_app {A} l1 l2 (body : nat -> A -> Outcome A) a : loop (l1 ++ l2) body a = bind (loop l1 body a) (loop l2 body).
Proof. revert a. induction l1 as [|i l1 IH]; intros a; [done|]. cbn. destruct (body i a); [cbn; by rewrite IH|done|done]. Qed.

Lemma set_cell_at R1 c1 z c2 R2 z' :
  set_cell (R1 ++ (c1 ++ z :: c2) :: R2) (length R1) (length c1) z' = R1 ++ (c1 ++ z' :: c2) :: R2.
Proof.
  unfold set_cell. rewrite alter_app_r_alt, Nat.sub_diag by lia. cbn. f_equal. f_equal.
  rewrite insert_app_r_alt, Nat.sub_diag by lia. done.
Qed.
Lemma cell_at (R1 R2 : Matrix) c1 z c2 : cell (R1 ++ (c1 ++ z :: c2) :: R2) (length R1) (length c1) = Some z.
Proof. unfold cell. rewrite list_lookup_middle by done. cbn. by rewrite list_lookup_middle. Qed.


(** The innermost loop adds the terms one after the other. *)
Lemma inner_loop a b R1 c1 r c2 R2 ks zs :
  Forall2 (fun k z => exists x y, cell a (length R1) k = Some x /\ cell b k (length c1) = Some y /\ z = (x * y)%Z) ks zs ->
  loop ks (accumulate a b (length R1) (length c1)) (R1 ++ (c1 ++ r :: c2) :: R2) =
  when (sums_fit r zs) (R1 ++ (c1 ++ (r + sum zs)%Z :: c2) :: R2).
Proof.
  intros Hz. revert r. induction Hz as [|k z ks zs (x & y & Hx & Hy & ->) _ IH]; intros r; cbn [loop sums_fit sum foldr].
  { by rewrite Z.add_0_r. }
  unfold accumulate at 1. rewrite Hx, Hy, cell_at. destruct (_ && long_long (r + x * y)); [|done].
  cbn [check bind]. rewrite set_cell_at, IH. cbn [andb]. unfold sum. by rewrite Z.add_assoc.
Qed.

Lemma terms_cells a b i row j n :
  a !! i = Some row -> length row = length b -> Forall (fun r => length r = n) b -> (j < n)%nat ->
  Forall2 (fun k z => exists x y, cell a i k = Some x /\ cell b k j = Some y /\ z = (x * y)%Z) (seq 0 (length row)) (terms row b j).
Proof.
  intros Hi Hl Hb Hj. apply Forall2_same_length_lookup. unfold terms. split; [rewrite length_seq, length_zip_with; lia|].
  intros k i' z [-> Hk]%lookup_seq (x & r & -> & Hx & Hr)%lookup_zip_with_Some. exists x, (r !!! j).
  split_and!; [unfold cell; by rewrite Hi| |done]. unfold cell. cbn. rewrite Hr. cbn.
  apply list_lookup_lookup_total_lt. rewrite (Forall_lookup_1 _ _ _ _ Hb Hr). done.
Qed.

Lemma when_bind {A B} b (a : A) (k : A -> Outcome B) : bind (when b a) k = if b then k a else Undefined.
Proof. by destruct b. Qed.

Lemma row_loop a b R1 R2 row n m c1 :
  a !! length R1 = Some row -> length row = length b -> Forall (fun r => length r = n) b -> (length c1 + m = n)%nat ->
  loop (seq (length c1) m) (fun j => loop (seq 0 (length row)) (accumulate a b (length R1) j)) (R1 ++ (c1 ++ replicate m 0%Z) :: R2) =
  when (forallb (fun j => sums_fit 0 (terms row b j)) (seq (length c1) m))
    (R1 ++ (c1 ++ map (fun j => sum (terms row b j)) (seq (length c1) m)) :: R2).
Proof.
  intros Hi Hl Hb. revert c1. induction m as [|m IH]; intros c1 Hm; cbn [seq loop replicate forallb map]; [done|].
  rewrite (inner_loop _ _ _ _ _ _ _ _ (terms row b (length c1))) by (eapply terms_cells; [done..|lia]). rewrite when_bind.
  destruct (sums_fit 0 _); [|done]. cbn [andb]. rewrite Z.add_0_l.
  specialize (IH (c1 ++ [sum (terms row b (length c1))])). rewrite length_app, Nat.add_1_r, <- !app_assoc in IH. cbn [app] in IH.
  rewrite IH by lia. done.
Qed.

Lemma matrix_loop b n cols before rest R1 :
  Forall (fun r => length r = n) b -> length b = cols -> Forall (fun r => length r = cols) rest -> length R1 = length before ->
  loop (seq (length before) (length rest))
    (fun i => loop (seq 0 n) (fun j => loop (seq 0 cols) (accumulate (before ++ rest) b i j)))
    (R1 ++ replicate (length rest) (replicate n 0%Z)) =
  when (forallb (fun row => forallb (fun j => sums_fit 0 (terms row b j)) (seq 0 n)) rest)
    (R1 ++ map (fun row => map (fun j => sum (terms row b j)) (seq 0 n)) rest).
Proof.
  intros Hb Hc. revert before R1. induction rest as [|row rest IH]; intros before R1 Hr Hl; cbn [seq length loop replicate forallb map]; [done|].
  apply Forall_cons in Hr as [Hrow Hr]. rewrite <- Hl.
  destruct Hrow. rewrite (row_loop _ _ R1 _ row n n []); [|by rewrite Hl, list_lookup_middle|congruence|done|done].
  rewrite when_bind. cbn [length app]. destruct (forallb _ (seq 0 n)); [|done]. cbn [andb].
  specialize (IH (before ++ [row]) (R1 ++ [map (fun j => sum (terms row b j)) (seq 0 n)]) Hr).
  rewrite !length_app, !Nat.add_1_r, <- !app_assoc in IH. cbn [app] in IH. rewrite Hl. rewrite IH by lia. done.
Qed.

(** C29: [multiplyMatrix] computes the matrix product: for every two matrices it
    throws when one of them is empty or not rectangular or the sizes do not
    match, and otherwise its three nested loops, which update one cell of the
    result at a time, give the matrix of the sums of products, provided that
    the terms and the partial sums are in the range of [long long]; outside of
    it the signed overflow has no defined result. *)
Theorem multiply_is_product a b :
  multiplyMatrix a b =
  bind (validateMatrix a "Matrix A") (fun _ => bind (validateMatrix b "Matrix B") (fun _ =>
    if negb (length (hd [] a) =? length b) then Thrown "Matrix size mismatch: A columns must equal B rows."
    else if fits a b then Value (product a b) else Undefined)).
Proof.
  unfold multiplyMatrix. pose proof (validate_rectangular a "Matrix A") as Ha. pose proof (validate_rectangular b "Matrix B") as Hb.
  destruct (validateMatrix a "Matrix A"); [cbn [bind]|done|done]. destruct (validateMatrix b "Matrix B"); [cbn [bind]|done|done].
  destruct (length (hd [] a) =? length b) eqn:Hs; [|done]. apply Nat.eqb_eq in Hs. cbn [negb].
  destruct Ha as (_ & _ & Ha), Hb as (_ & _ & Hb).
  apply (matrix_loop b _ _ [] a []); [done|done| |done]. by rewrite Hs in *.
Qed.

(** [%] keeps the sign of a negative seed, so that an element may be below 1. *)
Theorem generated_negative : generateMatrix 1 2 (-5) = Value [[-4; -1]]%Z.
Proof. reflexivity. Qed.

End Matrix.
