(* ===== verification/MatrixTasks.v ===== *)
(** * Matrix tasks on the thread pool

    [CallbackDispatcher.h], the scheduler of [MatrixTaskScheduler.h] and
    [runMatrixDemo], which [Threadpool/src/main.cpp] runs.  The thread of the
    demo is one more thread beside those of the pool. *)
From S2P Require Import Prelude Matrix ThreadPool.
Import Matrix ThreadPool.

Module MatrixTasks.

(** What a task measures and posts. *)
Record Observed := mkObserved { cost : Z; thread_id : string }.
Record Callback := mkCallback { taskId : Z; result : Matrix; costMs : Z; workerThreadId : string }.
#[global] Instance Observed_inhabited : Inhabited Observed := populate (mkObserved 0 "").

(** A task of [addMatrixMultiplyTask], and the number of its future. *)
Record Task := mkTask { ticket : nat; id : Z; a : Matrix; b : Matrix }.

(** What the threads share: the queue of the dispatcher, [None] once it is
    destroyed; the futures that are ready, with the exception if there is one;
    and whether something undefined has happened. *)
Record Shared := mkShared { callbacks_ : option (list Callback); futures : gmap nat (option string); undefined : bool }.
Definition fresh : Shared := mkShared (Some []) ∅ false.

(** [CallbackDispatcher] *)
Definition post (c : Callback) (e : Shared) : Shared :=
  match callbacks_ e with
  | Some l => mkShared (Some (l ++ [c])) (futures e) (undefined e)
  | None => mkShared None (futures e) true
  end.
(** The callbacks to run; the queue is left empty. *)
Definition processAll (e : Shared) : list Callback * Shared :=
  match callbacks_ e with
  | Some l => (l, mkShared (Some []) (futures e) (undefined e))
  | None => ([], mkShared None (futures e) true)
  end.

Definition callbacks_empty (e : Shared) : bool := match callbacks_ e with Some [] => true | _ => false end.

Definition set_future (n : nat) (r : option string) (e : Shared) : Shared :=
  mkShared (callbacks_ e) (<[n := r]> (futures e)) (undefined e).

(** The body of a task: only [post] and the future touch what is shared. *)
Definition matrix_task (worker : nat) (seen : Observed) (t : Task) (e : Shared) : Shared :=
  match multiplyMatrix (a t) (b t) with
  | Value result => set_future (ticket t) None (post (mkCallback (id t) result (cost seen) (thread_id seen)) e)
  | Thrown error => set_future (ticket t) (Some error) e
  | Undefined => mkShared (callbacks_ e) (futures e) true
  end.

(** What a callback prints. *)
Definition callback_text (c : Callback) : string :=
  nl +:+ "[Callback] Matrix task " +:+ to_string_signed (taskId c) +:+ " finished." +:+ nl +:+
  "Executed by worker thread: " +:+ workerThreadId c +:+ nl +:+
  "Cost: " +:+ to_string_signed (costMs c) +:+ " ms" +:+ nl +:+
  "Result matrix preview:" +:+ nl +:+ printMatrix (result c) 4 4.

(** The destructor of the scheduler: [callbacks_], declared last, is destroyed
    first, and then [pool_], which shuts down if it has not. *)
Definition destroy_callbacks (e : Shared) : Shared := mkShared None (futures e) (undefined e).

Abbreviation Scheduler := (Sys (Task := Task) (Env := Shared)).
Abbreviation pool_step := (work (Seen := Observed) matrix_task).

Definition set_env (e : Shared) (s : Scheduler) : Scheduler :=
  mkSys (pool s) (workers s) (callers s) e (submitted_ s) (taken_ s) (done_ s).

(** ** The demo *)

Definition threadCount : nat := 10.
Definition taskCount : Z := 12.

(** The matrices of task [i]. *)
Definition demo_task (i : Z) : Outcome Task :=
  bind (generateMatrix (Z.to_nat (3 + i `rem` 3)) 4 i) (fun a =>
  bind (generateMatrix 4 (Z.to_nat (3 + i `rem` 2)) (i * 10)) (fun b =>
  Value (mkTask (Z.to_nat (i - 1)) i a b))).

(** Where the demo is: about to submit task [i], inside [submit], waiting for
    the future of a ticket, running callbacks, inside [shutdown], at the end, or
    stopped by an exception or something undefined. *)
Inductive Place :=
  | Submitting (i : Z) | Submitted (i : Z) | Getting (n : nat) | Processing (local : list Callback) | Closing | Finished | Failed.

Record Demo := mkDemo { sched : Scheduler; place : Place; out : string; err : string }.

Definition demo_start : Demo :=
  mkDemo (start threadCount fresh) (Submitting 1) ("========== Matrix Thread Pool Demo ==========" +:+ nl) "".

(** The demo's own steps.  It goes on after [submit] and after [shutdown] when
    the call has returned, that is, when no call is under way. *)
Inductive demo_step : Demo -> Demo -> Prop :=
  | d_work s s' q o r : pool_step s s' -> demo_step (mkDemo s q o r) (mkDemo s' q o r)
  | d_submit s i o r :
      (i <= taskCount)%Z ->
      demo_step (mkDemo s (Submitting i) o r)
        (match demo_task i with
         | Value t =>
             match submit t (pool s) with
             | inr p => mkDemo (mkSys p (workers s) (callers s ++ [NotifyOne]) (env s) (submitted_ s ++ [t]) (taken_ s) (done_ s)) (Submitted i) o r
             | inl _ => mkDemo s Failed o r
             end
         | _ => mkDemo s Failed o r
         end)
  | d_submitted s i o r :
      callers s = [] ->
      demo_step (mkDemo s (Submitted i) o r)
        (mkDemo s (Submitting (i + 1)) (o +:+ "Submitted matrix task " +:+ to_string_signed i +:+ nl) r)
  | d_all_submitted s i o r :
      (taskCount < i)%Z -> demo_step (mkDemo s (Submitting i) o r) (mkDemo s (Getting 0) o r)
  | d_get s n o r f :
      futures (env s) !! n = Some f -> (n < Z.to_nat taskCount)%nat ->
      demo_step (mkDemo s (Getting n) o r)
        (mkDemo s (Getting (S n)) o
           (match f with None => r | Some error => r +:+ "[Main] Matrix task failed: " +:+ error +:+ nl end))
  | d_process s o r :
      demo_step (mkDemo s (Getting (Z.to_nat taskCount)) o r)
        (mkDemo (set_env (processAll (env s)).2 s) (Processing (processAll (env s)).1) o r)
  | d_callback s c rest o r :
      demo_step (mkDemo s (Processing (c :: rest)) o r) (mkDemo s (Processing rest) (o +:+ callback_text c) r)
  | d_shutdown s o r :
      demo_step (mkDemo s (Processing []) o r)
        (match shutdown (pool s) with
         | Some p => mkDemo (mkSys p (workers s) (callers s ++ [NotifyAll]) (env s) (submitted_ s) (taken_ s) (done_ s)) Closing o r
         | None => mkDemo s Closing o r
         end)
  (** The last line, and the destructor of the scheduler, whose second [shutdown] returns. *)
  | d_closed s o r :
      callers s = [] ->
      demo_step (mkDemo s Closing o r)
        (mkDemo (set_env (destroy_callbacks (env s)) s) Finished
           (o +:+ nl +:+ "All matrix tasks finished. Scheduler closed safely." +:+ nl) r).

(** Threads of the pool may also wake up for no reason. *)
Inductive spurious : Demo -> Demo -> Prop :=
  | sp_worker p l1 l2 cs e sb tk dn q o r :
      spurious (mkDemo (mkSys p (l1 ++ Asleep :: l2) cs e sb tk dn) q o r)
        (mkDemo (mkSys p (l1 ++ Checking :: l2) cs e sb tk dn) q o r).

Definition demo_any (d d' : Demo) : Prop := demo_step d d' \/ spurious d d'.

(** ** The tasks of the demo *)

Definition value {A} (m : Outcome A) : option A := match m with Value x => Some x | _ => None end.
Definition numbers (n : nat) : list Z := map Z.of_nat (seq 1 n).
Definition all_tasks : list Task := omap (fun i => value (demo_task i)) (numbers 12).

(** The callback that a task posts. *)
Definition posted (t : Task) (c : Callback) : Prop := taskId c = id t /\ result c = product (a t) (b t).

Definition multiplies (t : Task) : bool :=
  match multiplyMatrix (a t) (b t) with Value r => bool_decide (r = product (a t) (b t)) | _ => false end.

Lemma all_tasks_known :
  map ticket all_tasks = seq 0 12 /\ map id all_tasks = numbers 12 /\ forallb multiplies all_tasks = true /\
  map (fun i => value (demo_task i)) (numbers 12) = map Some all_tasks.
Proof. vm_compute. auto. Qed.

Lemma task_multiplies t : t ∈ all_tasks -> multiplyMatrix (a t) (b t) = Value (product (a t) (b t)).
Proof.
  intros Ht. destruct all_tasks_known as (_ & _ & Hm & _). rewrite forallb_forall in Hm.
  specialize (Hm t (proj1 (list_elem_of_In _ _) Ht)). unfold multiplies in Hm.
  destruct (multiplyMatrix _ _) as [r| |]; [|done|done]. apply bool_decide_eq_true in Hm. by rewrite Hm.
Qed.

Lemma task_number i : (1 <= i <= 12)%Z -> exists t, demo_task i = Value t /\ all_tasks !! Z.to_nat (i - 1) = Some t.
Proof.
  intros Hi. destruct all_tasks_known as (_ & _ & _ & Hv). apply (f_equal (.!! Z.to_nat (i - 1))) in Hv.
  unfold numbers in Hv. rewrite map_map in Hv.
  rewrite !(list_lookup_fmap _ _ _ : map _ _ !! _ = _) in Hv. rewrite lookup_seq_lt in Hv by lia. cbn [fmap option_fmap option_map] in Hv.
  replace (Z.of_nat (1 + Z.to_nat (i - 1))) with i in Hv by lia.
  destruct (all_tasks !! Z.to_nat (i - 1)) as [t|]; [|done]. exists t. split; [|done].
  injection Hv as Hv. destruct (demo_task i); cbn in Hv; congruence.
Qed.

Lemma ticket_at k t : all_tasks !! k = Some t -> ticket t = k.
Proof.
  intros Hk. destruct all_tasks_known as (Ht & _). apply (f_equal (.!! k)) in Ht.
  rewrite (list_lookup_fmap _ _ _ : map _ _ !! _ = _), Hk in Ht. symmetry in Ht. apply lookup_seq in Ht as [Ht _].
  cbn in Ht. lia.
Qed.

Lemma length_all_tasks : length all_tasks = 12.
Proof. destruct all_tasks_known as (Ht & _). by rewrite <- (length_map ticket), Ht, length_seq. Qed.

Lemma all_tasks_NoDup : NoDup all_tasks.
Proof.
  apply (NoDup_fmap_1 ticket). destruct all_tasks_known as (Ht & _). change (ticket <$> all_tasks) with (map ticket all_tasks).
  rewrite Ht. apply NoDup_seq.
Qed.
#[local] Opaque all_tasks demo_task.

(** ** What holds at every moment of the demo *)

(** The effect of a task of the demo. *)
Lemma task_effect w seen t e l :
  t ∈ all_tasks -> callbacks_ e = Some l ->
  exists c, posted t c /\
    matrix_task w seen t e = mkShared (Some (l ++ [c])) (<[ticket t := None]> (futures e)) (undefined e).
Proof.
  intros Ht He. unfold matrix_task. rewrite (task_multiplies t Ht). eexists. split; [|unfold post; by rewrite He]. done.
Qed.

(** The tasks done have posted their callbacks [l], and their futures, and no
    others, are ready. *)
Definition effects (s : Scheduler) (l : list Callback) : Prop :=
  Forall2 posted (done_ s) l /\ undefined (env s) = false /\
  forall n f, futures (env s) !! n = Some f <-> f = None /\ exists t, t ∈ done_ s /\ ticket t = n.

Definition lines (n : nat) : string :=
  foldr (fun i rest => "Submitted matrix task " +:+ to_string_signed i +:+ nl +:+ rest) "" (numbers n).
Definition header : string := "========== Matrix Thread Pool Demo ==========" +:+ nl.
Definition texts (l : list Callback) : string := foldr (fun c rest => callback_text c +:+ rest) "" l.
Definition footer : string := nl +:+ "All matrix tasks finished. Scheduler closed safely." +:+ nl.

Definition all_done (s : Scheduler) : Prop := submitted_ s = all_tasks /\ done_ s ≡ₚ all_tasks.

(** What holds at each place; [l] are the callbacks posted so far. *)
Definition at_place (d : Demo) (l : list Callback) : Prop :=
  let s := sched d in
  match place d with
  | Submitting i => (1 <= i <= 13)%Z /\ callers s = [] /\ submitted_ s = firstn (Z.to_nat (i - 1)) all_tasks /\
      callbacks_ (env s) = Some l /\ stopping_ (pool s) = false /\ out d = header +:+ lines (Z.to_nat (i - 1))
  | Submitted i => (1 <= i <= 12)%Z /\ submitted_ s = firstn (Z.to_nat i) all_tasks /\
      callbacks_ (env s) = Some l /\ stopping_ (pool s) = false /\ out d = header +:+ lines (Z.to_nat (i - 1))
  | Getting n => (n <= 12)%nat /\ callers s = [] /\ submitted_ s = all_tasks /\
      (forall k, (k < n)%nat -> is_Some (futures (env s) !! k)) /\
      callbacks_ (env s) = Some l /\ stopping_ (pool s) = false /\ out d = header +:+ lines 12
  | Processing local => callers s = [] /\ all_done s /\ callbacks_ (env s) = Some [] /\ stopping_ (pool s) = false /\
      exists printed, l = printed ++ local /\ out d = header +:+ lines 12 +:+ texts printed
  | Closing => all_done s /\ callbacks_ (env s) = Some [] /\ closing s /\ out d = header +:+ lines 12 +:+ texts l
  | Finished => callers s = [] /\ all_done s /\ closing s /\ out d = header +:+ lines 12 +:+ texts l +:+ footer
  | Failed => False
  end.

Definition demo_ok (d : Demo) : Prop :=
  pool_ok (sched d) /\ err d = "" /\ exists l, effects (sched d) l /\ at_place d l.


(** ** It holds at the start and after every step *)

Lemma demo_ok_start : demo_ok demo_start.
Proof.
  split_and!; [apply pool_start|done|]. exists []. split.
  - split_and!; [constructor|done|]. intros n f. cbn. rewrite lookup_empty. split; [done|]. intros (_ & t & []%elem_of_nil & _).
  - split_and!; done.
Qed.

(** The tasks in the pool are those of the demo. *)
Definition known (s : Scheduler) : Prop := forall t, t ∈ submitted_ s -> t ∈ all_tasks.

Lemma running_known s : log_ok s -> known s -> forall t, t ∈ running (workers s) -> t ∈ all_tasks.
Proof. intros Hl Hk t Ht. apply Hk. rewrite (log_split s Hl). set_solver. Qed.

Lemma effects_same (s s' : Scheduler) l : env s' = env s -> done_ s' = done_ s -> effects s l -> effects s' l.
Proof. unfold effects. by intros -> ->. Qed.

(** A step of the pool before the callbacks are run. *)
Lemma effects_work s s' l :
  pool_step s s' -> log_ok s -> known s -> effects s l -> callbacks_ (env s) = Some l ->
  exists l', effects s' l' /\ callbacks_ (env s') = Some l' /\
    forall k, is_Some (futures (env s) !! k) -> is_Some (futures (env s') !! k).
Proof.
  intros Hw Hl Hk (Hp & Hu & Hf) Hc. destruct (work_effect _ _ _ Hw) as (_ & _ & _ & [[He Hd]|(w & seen & t & Ht & He & Hd)]).
  - exists l. unfold effects. by rewrite He, Hd.
  - destruct (task_effect w seen t (env s) l) as (c & Hpc & Hm); [by eapply running_known|done|].
    exists (l ++ [c]). unfold effects. rewrite He, Hd, Hm. cbn [callbacks_ futures undefined]. split_and!; [|done| |done|].
    + apply Forall2_app; [done|]. by constructor.
    + intros n f. rewrite lookup_insert_Some, Hf. split.
      * intros [[Hn <-]|(_ & -> & t' & Ht' & Hn)]; (split; [done|]); [exists t|exists t']; (split; [set_solver|done]).
      * intros (-> & t' & [Ht'|Ht']%elem_of_app & Hn); [|apply list_elem_of_singleton in Ht' as ->; by left].
        destruct (decide (ticket t = n)); [by left|right; eauto].
    + intros k Hs. destruct (decide (ticket t = k)) as [->|Hne]; [by rewrite lookup_insert_eq|by rewrite lookup_insert_ne].
Qed.

(** A step of the pool after that has nothing to run. *)
Lemma all_done_work s s' : pool_step s s' -> log_ok s -> all_done s -> all_done s' /\ env s' = env s /\ done_ s' = done_ s.
Proof.
  intros Hw Hl [Hs Hd]. destruct (work_effect _ _ _ Hw) as (Hsub & _ & _ & [[He Hd']|(w & seen & t & Ht & _)]).
  - unfold all_done. rewrite Hsub, Hd'. done.
  - exfalso. pose proof (log_split s Hl) as Hp. rewrite Hs, Hd in Hp. apply Permutation_length in Hp. rewrite !length_app in Hp.
    destruct (running (workers s)); [by apply elem_of_nil in Ht|cbn in Hp; lia].
Qed.

Lemma take_known (s : Scheduler) n : submitted_ s = firstn n all_tasks -> known s.
Proof. intros He t Ht. rewrite He in Ht. by eapply elem_of_take in Ht as (? & ?%list_elem_of_lookup_2 & _). Qed.

Lemma demo_ok_work s s' q o r : pool_step s s' -> demo_ok (mkDemo s q o r) -> demo_ok (mkDemo s' q o r).
Proof.
  intros Hw (Hok & Hr & l & He & Hp). pose proof (ThreadPool.pool_work _ _ _ Hw Hok) as Hok'.
  split_and!; [done|done|]. destruct (work_effect _ _ _ Hw) as (Hs & Hst & Hc & _). pose proof (proj1 Hok) as Hl.
  unfold at_place in *. cbn [sched place out] in *. destruct q as [i|i|n|local| | |].
  - destruct Hp as (Hi & Hcs & Hsub & Hcb & Hstop & Ho).
    destruct (effects_work s s' l) as (l' & He' & Hcb' & _); [done|done|by eapply take_known|done|done|].
    exists l'. rewrite Hs, Hst. auto 10.
  - destruct Hp as (Hi & Hsub & Hcb & Hstop & Ho).
    destruct (effects_work s s' l) as (l' & He' & Hcb' & _); [done|done|by eapply take_known|done|done|].
    exists l'. rewrite Hs, Hst. auto 10.
  - destruct Hp as (Hn & Hcs & Hsub & Hfu & Hcb & Hstop & Ho).
    destruct (effects_work s s' l) as (l' & He' & Hcb' & Hfu'); [done|done|by intros t; rewrite Hsub|done|done|].
    exists l'. rewrite Hs, Hst. split_and!; auto.
  - destruct Hp as (Hcs & Hd & Hp). destruct (all_done_work s s' Hw Hl Hd) as (Hd' & Hen & Hdn).
    exists l. rewrite Hst, Hen. split; [by apply (effects_same s)|]. auto.
  - destruct Hp as (Hd & Hcb & Hcl & Ho). destruct (all_done_work s s' Hw Hl Hd) as (Hd' & Hen & Hdn).
    exists l. rewrite ?Hen. split; [by apply (effects_same s)|]. split_and!; auto. by eapply closing_work.
  - destruct Hp as (Hcs & Hd & Hcl & Ho). destruct (all_done_work s s' Hw Hl Hd) as (Hd' & Hen & Hdn).
    exists l. rewrite ?Hen. split; [by apply (effects_same s)|]. split_and!; auto. by eapply closing_work.
  - done.
Qed.

(** The text grows at its end. *)
Lemma foldr_text {A : Type} (f : A -> string) (l1 l2 : list A) :
  foldr (fun x rest => f x +:+ rest) "" (l1 ++ l2) =
  foldr (fun x rest => f x +:+ rest) "" l1 +:+ foldr (fun x rest => f x +:+ rest) "" l2.
Proof. induction l1 as [|x l1 IH]; [done|]. cbn [app foldr]. by rewrite IH, str_app_assoc. Qed.

Lemma lines_next i : (1 <= i)%Z -> lines (Z.to_nat i) = lines (Z.to_nat (i - 1)) +:+ "Submitted matrix task " +:+ to_string_signed i +:+ nl.
Proof.
  intros Hi. set (f := fun i : Z => "Submitted matrix task " +:+ to_string_signed i +:+ nl).
  assert (forall l : list Z, foldr (fun i rest => "Submitted matrix task " +:+ to_string_signed i +:+ nl +:+ rest) "" l =
    foldr (fun x rest => f x +:+ rest) "" l) as Hf.
  { induction l as [|z l IH]; [done|]. cbn [foldr]. rewrite IH. unfold f. by rewrite !str_app_assoc. }
  unfold lines, numbers. rewrite !Hf. replace (Z.to_nat i) with (Z.to_nat (i - 1) + 1) by lia.
  rewrite seq_app, map_app, foldr_text. cbn [seq map foldr]. replace (Z.of_nat (1 + Z.to_nat (i - 1))) with i by lia.
  by rewrite str_app_nil_r.
Qed.

Lemma texts_snoc l c : texts (l ++ [c]) = texts l +:+ callback_text c.
Proof. unfold texts. rewrite foldr_text. cbn [foldr]. by rewrite str_app_nil_r. Qed.

Lemma demo_ok_submit s i o r t :
  demo_ok (mkDemo s (Submitting i) o r) -> demo_task i = Value t -> all_tasks !! Z.to_nat (i - 1) = Some t -> (i <= 12)%Z ->
  exists p, submit t (pool s) = inr p /\
    demo_ok (mkDemo (mkSys p (workers s) (callers s ++ [NotifyOne]) (env s) (submitted_ s ++ [t]) (taken_ s) (done_ s)) (Submitted i) o r).
Proof.
  intros (Hok & Hr & l & He & Hi & Hcs & Hsub & Hcb & Hst & Ho) Ht Hall Hle. cbn [sched out] in *.
  destruct s as [p ws cs e sb tk dn]. cbn [pool workers callers env submitted_ taken_ done_] in *.
  pose proof (pool_arrive _ _ (a_submit p ws cs t e sb tk dn) Hok) as Hok'. destruct Hok as (_ & (Hac & _) & _). cbn in Hac.
  unfold submit in *. rewrite Hac, Hst in *. cbn [negb] in *. eexists. split; [done|]. split_and!; [done|done|].
  exists l. split; [by apply (effects_same (mkSys p ws cs e sb tk dn))|]. unfold at_place. cbn. split_and!; auto; [lia|].
  rewrite Hsub. replace (Z.to_nat i) with (S (Z.to_nat (i - 1))) by lia. by rewrite (take_S_r _ _ _ Hall).
Qed.

(** When all the futures are ready, all the tasks are done. *)
Lemma futures_all_done s l :
  log_ok s -> effects s l -> submitted_ s = all_tasks -> (forall k, (k < 12)%nat -> is_Some (futures (env s) !! k)) -> all_done s.
Proof.
  intros Hl (_ & _ & Hf) Hs Hk. split; [done|]. pose proof (log_split s Hl) as Hp. rewrite Hs in Hp.
  pose proof all_tasks_NoDup as Hnd. rewrite Hp in Hnd. apply NoDup_app in Hnd as (_ & Hdis & _).
  assert (running (workers s) ++ tasks_ (pool s) = []) as Hnil; [|by rewrite Hp, Hnil, app_nil_r].
  destruct (running (workers s) ++ tasks_ (pool s)) as [|t rest] eqn:Hrest; [done|exfalso].
  assert (t ∈ all_tasks) as Ht by (rewrite Hp; set_solver). apply list_elem_of_lookup in Ht as [k Htk].
  assert (k < 12)%nat as Hk12 by (rewrite <- length_all_tasks; by eapply lookup_lt_Some).
  destruct (Hk k Hk12) as [f Hfk]. apply Hf in Hfk as (_ & t' & Ht' & Htt).
  assert (t' ∈ all_tasks) as Hin by (rewrite Hp; set_solver). apply list_elem_of_lookup in Hin as [k' Htk'].
  pose proof (ticket_at _ _ Htk'). assert (k' = k) as -> by congruence. rewrite Htk in Htk'. injection Htk' as <-.
  apply (Hdis t Ht'). set_solver.
Qed.

(** Changing the queue of the dispatcher alone. *)
Lemma set_env_ok (s : Scheduler) e l :
  futures e = futures (env s) -> undefined e = undefined (env s) -> pool_ok s -> effects s l ->
  pool_ok (set_env e s) /\ effects (set_env e s) l /\ (closing s -> closing (set_env e s)).
Proof.
  intros Hf Hu Hok (Hp & Hun & Hfu). split; [by destruct s; apply (pool_arrive _ _ (a_env _ _ _ _ _ _ _ _) Hok)|].
  unfold effects, set_env, closing. cbn. by rewrite Hf, Hu.
Qed.

Lemma demo_ok_step d d' : demo_step d d' -> demo_ok d -> demo_ok d'.
Proof.
  destruct 1 as [s s' q o r Hw|s i o r Hle|s i o r Hcs|s i o r Hlt|s n o r f Hf Hn|s o r|s c rest o r|s o r|s o r Hcs].
  - by apply demo_ok_work.
  - intros Hd. pose proof Hd as (_ & _ & l & _ & Hi & _). destruct (task_number i) as (t & Ht & Hall); [unfold taskCount in *; lia|].
    destruct (demo_ok_submit s i o r t) as (p & Hp & Hok); [done..|]. by rewrite Ht, Hp.
  - intros (Hok & Hr & l & He & Hi & Hsub & Hcb & Hst & Ho). split_and!; [done|done|]. exists l. split; [done|].
    unfold at_place. cbn in *. replace (i + 1 - 1)%Z with i by lia. split_and!; auto; [lia..|].
    rewrite Ho, (lines_next i) by lia. by rewrite str_app_assoc.
  - intros (Hok & Hr & l & He & Hi & Hcs & Hsub & Hcb & Hst & Ho). unfold taskCount in Hlt. cbn in *. assert (i = 13%Z) as -> by lia.
    split_and!; [done|done|]. exists l. split; [done|]. unfold at_place. cbn in *. rewrite Hsub, take_ge by (by rewrite length_all_tasks).
    split_and!; auto; lia.
  - intros (Hok & Hr & l & He & Hle & Hcs & Hsub & Hfu & Hp). assert (n < 12)%nat as Hn12 by (unfold taskCount in Hn; lia).
    cbn [sched out err] in *. pose proof He as (_ & _ & Hff).
    apply Hff in Hf as Hf'. destruct Hf' as [-> _]. split_and!; [done|done|]. exists l. split; [done|]. unfold at_place. cbn.
    split_and!; [done|done|done| |apply Hp..].
    intros k Hk. destruct (decide (k = n)) as [->|]; [by rewrite Hf|apply Hfu; lia].
  - intros (Hok & Hr & l & He & Hle & Hcs & Hsub & Hfu & Hcb & Hst & Ho). cbn [sched out err] in *.
    pose proof (futures_all_done s l (proj1 Hok) He Hsub Hfu) as Hd. unfold processAll. rewrite Hcb. cbn [fst snd].
    destruct (set_env_ok s (mkShared (Some []) (futures (env s)) (undefined (env s))) l) as (Hok' & He' & _); [done..|].
    split_and!; [done|done|]. exists l. split; [done|]. unfold at_place. cbn. split_and!; auto.
    exists []. cbn. by rewrite Ho, str_app_nil_r.
  - intros (Hok & Hr & l & He & Hcs & Hd & Hcb & Hst & printed & -> & Ho). split_and!; [done|done|].
    exists (printed ++ c :: rest). split; [done|]. unfold at_place. cbn in *. split_and!; auto. exists (printed ++ [c]).
    rewrite <- app_assoc. split; [done|]. by rewrite Ho, texts_snoc, !str_app_assoc.
  - intros (Hok & Hr & l & He & Hcs & Hd & Hcb & Hst & printed & -> & Ho). cbn [sched out err] in *. rewrite app_nil_r in He.
    destruct s as [p ws cs e sb tk dn]. cbn in Hst, Hcs. pose proof (pool_arrive _ _ (a_shutdown p ws cs e sb tk dn) Hok) as Hok'.
    unfold shutdown in *. cbn [pool] in *. rewrite Hst in *. split_and!; [done|done|]. exists printed.
    split; [by apply (effects_same (mkSys p ws cs e sb tk dn))|]. unfold at_place. cbn. split_and!; auto.
    left. cbn. rewrite sum_list_with_app. cbn. lia.
  - intros (Hok & Hr & l & He & Hd & Hcb & Hcl & Ho). cbn [sched out err] in *.
    destruct (set_env_ok s (destroy_callbacks (env s)) l) as (Hok' & He' & Hcl'); [done..|].
    split_and!; [done|done|]. exists l. split; [done|]. unfold at_place. cbn. split_and!; auto.
    rewrite Ho. unfold footer. by rewrite !str_app_assoc.
Qed.

Lemma demo_ok_spurious d d' : spurious d d' -> demo_ok d -> demo_ok d'.
Proof.
  intros [p l1 l2 cs e sb tk dn q o r] (Hok & Hr & l & He & Hp). cbn in Hok.
  pose proof (pool_arrive _ _ (a_spurious p l1 l2 cs e sb tk dn) Hok) as Hok'. split_and!; [done|done|].
  exists l. split; [done|]. unfold at_place in *. cbn in *.
  assert (closing (mkSys p (l1 ++ Asleep :: l2) cs e sb tk dn) -> closing (mkSys p (l1 ++ Checking :: l2) cs e sb tk dn)) as Hcl.
  { intros [?|Hex]; [by left|right]. eapply ended_all, Hex. by apply ended_stay_at. }
  destruct q; naive_solver.
Qed.

Lemma demo_ok_run d : rtc demo_any demo_start d -> demo_ok d.
Proof.
  intros Hr. assert (forall d1 d2, rtc demo_any d1 d2 -> demo_ok d1 -> demo_ok d2) as H.
  { clear d Hr. induction 1 as [|d1 d2 d3 [Hs|Hs] _ IH]; eauto using demo_ok_step, demo_ok_spurious. }
  by eapply H, demo_ok_start.
Qed.

(** ** The demo comes to its end *)

(** How far the demo is, and then how much the pool has to do. *)
Definition rank (q : Place) : nat :=
  match q with
  | Submitting i => 101 + 2 * Z.to_nat (13 - i) | Submitted i => 100 + 2 * Z.to_nat (13 - i)
  | Getting n => 50 + (12 - n) | Processing local => 20 + length local | Closing => 1 | Finished | Failed => 0
  end.

Lemma demo_decreases d d' :
  demo_step d d' -> demo_ok d ->
  (rank (place d') < rank (place d))%nat \/ place d' = place d /\ (measure (sched d') < measure (sched d))%nat.
Proof.
  destruct 1 as [s s' q o r Hw|s i o r Hle|s i o r Hcs|s i o r Hlt|s n o r f Hf Hn|s o r|s c rest o r|s o r|s o r Hcs];
    intros (Hok & Hr & l & He & Hp); unfold at_place, taskCount in *; cbn [place sched out] in *.
  - right. split; [done|]. by eapply measure_work.
  - left. repeat case_match; cbn [place rank]; lia.
  - left. cbn [rank]. lia.
  - left. cbn [rank]. lia.
  - left. cbn [rank]. lia.
  - left. destruct Hp as (_ & _ & Hsub & Hfu & Hcb & _). pose proof (futures_all_done s l (proj1 Hok) He Hsub Hfu) as [_ Hd].
    unfold processAll. rewrite Hcb. cbn [rank fst]. destruct He as (Hpo & _). apply Forall2_length in Hpo.
    rewrite Hd, length_all_tasks in Hpo. lia.
  - left. cbn. lia.
  - left. case_match; cbn; lia.
  - left. cbn. lia.
Qed.

Lemma demo_ends d : demo_ok d -> sn demo_step d.
Proof.
  remember (rank (place d)) as n eqn:En. revert d En. induction n as [n IHn] using lt_wf_ind. intros d En.
  remember (measure (sched d)) as m eqn:Em. revert d En Em. induction m as [m IHm] using lt_wf_ind. intros d En Em Hd.
  constructor. intros d' Hs. pose proof (demo_ok_step d d' Hs Hd) as Hd'.
  destruct (demo_decreases d d' Hs Hd) as [Hlt|[Hq Hlt]]; [eapply IHn|eapply IHm]; try done; [by subst..|congruence].
Qed.

Lemma demo_goes_on d : demo_ok d -> place d = Finished \/ exists d', demo_step d d'.
Proof.
  destruct d as [s q o r]. intros (Hok & Hr & l & He & Hp). cbn [sched place] in *.
  destruct (quiet_or_works matrix_task s Hok) as [(Hcs & _ & Hd & _)|[s' Hw]]; [|right; eexists; by apply d_work].
  unfold at_place in Hp. cbn [sched place] in Hp. destruct q as [i|i|n|local| | |].
  - right. destruct (decide (i <= taskCount)%Z); eexists; [by apply d_submit|apply d_all_submitted; unfold taskCount in *; lia].
  - right. eexists. by apply d_submitted.
  - right. destruct Hp as (Hn & _ & Hsub & _). destruct (decide (n = 12)) as [->|Hne]; [eexists; apply d_process|].
    destruct (lookup_lt_is_Some_2 all_tasks n) as [t Ht]; [rewrite length_all_tasks; lia|].
    eexists. apply (d_get s n o r None); [|unfold taskCount; lia]. apply He. split; [done|]. exists t.
    split; [|by apply ticket_at]. rewrite Hd, Hsub. by eapply list_elem_of_lookup_2.
  - right. destruct local; eexists; [apply d_shutdown|apply d_callback].
  - right. eexists. by apply d_closed.
  - by left.
  - done.
Qed.

Lemma posted_product t c : t ∈ all_tasks -> posted t c -> exists t', demo_task (taskId c) = Value t' /\ result c = product (a t') (b t').
Proof.
  intros [k Hk]%list_elem_of_lookup [Hi Hr]. destruct (all_tasks_known) as (_ & Hid & _ & _).
  apply (f_equal (.!! k)) in Hid. unfold numbers in Hid. rewrite !(list_lookup_fmap _ _ _ : map _ _ !! _ = _), Hk in Hid.
  assert (k < 12)%nat as Hlt by (rewrite <- length_all_tasks; by eapply lookup_lt_Some).
  rewrite lookup_seq_lt in Hid by done. injection Hid as Hid.
  destruct (task_number (taskId c)) as (t' & Ht' & Hall); [lia|]. exists t'. split; [done|].
  replace (Z.to_nat (taskId c - 1)) with k in Hall by lia. congruence.
Qed.

Lemma Forall2_map_perm {A B C : Type} (f : A -> C) (g : B -> C) (P : A -> B -> Prop) l1 l2 :
  (forall x y, P x y -> g y = f x) -> Forall2 P l1 l2 -> map g l2 = map f l1.
Proof. intros Hp. induction 1 as [|x y l1 l2 Hxy _ IH]; [done|]. cbn. by rewrite (Hp _ _ Hxy), IH. Qed.

Lemma demo_reaches_end : exists d, rtc demo_step demo_start d /\ place d = Finished.
Proof.
  assert (forall d, sn demo_step d -> demo_ok d -> exists d', rtc demo_step d d' /\ place d' = Finished) as H.
  { induction 1 as [d _ IH]. intros Hok. destruct (demo_goes_on d Hok) as [Hf|[d' Hs]]; [by exists d|].
    destruct (IH d' Hs (demo_ok_step _ _ Hs Hok)) as (d'' & Hr & Hf). exists d''. split; [by eapply rtc_l|done]. }
  apply H; [apply demo_ends|]; apply demo_ok_start.
Qed.

(** A scheduler that is destroyed while a task is in its queue, with no call of
    [shutdown] before, destroys the dispatcher first; the destructor of the pool
    then lets the worker run the task, which posts to the destroyed
    dispatcher. *)
Theorem destroyed_dispatcher_used t :
  t ∈ all_tasks ->
  exists s queued, rtc (step matrix_task) (start 1 fresh) queued /\ tasks_ (pool queued) = [t] /\
    rtc (step matrix_task) (set_env (destroy_callbacks (env queued)) queued) s /\ undefined (env s) = true.
Proof.
  intros Ht. eexists _, (mkSys (mkPool [t] true false 0) [Checking] [NotifyOne] fresh [t] [] []). split_and!; [|done| |].
  - eapply rtc_l; [right; apply (a_submit _ _ _ t)|]. apply rtc_refl.
  - eapply rtc_l; [right; apply a_shutdown|]. cbn.
    eapply rtc_l; [left; apply (w_check _ _ [] [])|]. cbn. eapply rtc_l; [left; apply (w_run _ _ [] [] t inhabitant)|]. apply rtc_refl.
  - cbn. unfold matrix_task. by rewrite (task_multiplies t Ht).
Qed.

(** C26: The program of [Threadpool/src/main.cpp] does what it announces, in every
    interleaving of its eleven threads and with wake-ups for no reason: it never
    fails or does something undefined; without further such wake-ups it takes
    finitely many steps and stops only at its end; and at its end every worker
    has ended, nothing was written to the error stream, and the output is the
    title, the lines of the twelve submissions in order, the texts of twelve
    callbacks, one for each task in some order, each with the product of the two
    matrices of its task, and the closing line. *)
Theorem demo_prints_products d :
  rtc demo_any demo_start d ->
  place d <> Failed /\ undefined (env (sched d)) = false /\
  sn demo_step d /\ (forall d', rtc demo_step d d' -> place d' = Finished \/ exists d'', demo_step d' d'') /\
  (place d = Finished ->
     Forall (eq Exited) (workers (sched d)) /\ err d = "" /\
     exists l, map taskId l ≡ₚ numbers 12 /\
       Forall (fun c => exists t, demo_task (taskId c) = Value t /\ result c = product (a t) (b t)) l /\
       out d = header +:+ lines 12 +:+ texts l +:+ footer).
Proof.
  intros Hr. pose proof (demo_ok_run d Hr) as Hok. split_and!.
  - intros Hf. destruct Hok as (_ & _ & l & _ & Hp). unfold at_place in Hp. by rewrite Hf in Hp.
  - by destruct Hok as (_ & _ & l & (_ & Hu & _) & _).
  - by apply demo_ends.
  - intros d' Hr'. apply demo_goes_on, demo_ok_run. etrans; [done|]. eapply rtc_subrel, Hr'. by left.
  - intros Hf. destruct Hok as (Hok & He & l & (Hpo & _) & Hp). unfold at_place in Hp. rewrite Hf in Hp.
    destruct Hp as (Hcs & [_ Hd] & [Hj|Hex] & Ho); [rewrite Hcs in Hj; cbn in Hj; lia|]. split_and!; [done|done|].
    exists l. split_and!; [| |done].
    + rewrite (Forall2_map_perm id taskId posted (done_ (sched d)) l) by (by intros ?? [-> _] || done).
      destruct all_tasks_known as (_ & <- & _). by rewrite Hd.
    + apply Forall_lookup. intros k c Hk. destruct (Forall2_lookup_r _ _ _ _ _ Hpo Hk) as (t & Ht & Hp).
      apply (posted_product t); [|done]. rewrite <- Hd. by eapply list_elem_of_lookup_2.
Qed.

End MatrixTasks.
