(* ===== verification/ThreadWitnesses.v ===== *)
(** * Runs of the thread pool

    The theorems on the thread pool and on the matrix demo at concrete runs. *)
From S2P Require Import Prelude ThreadPool FileWorkers Matrix MatrixTasks.
Import ThreadPool.

Module ThreadWitnesses.

(** Tasks are numbers, and running one writes it down. *)
Definition note (worker : nat) (seen : ()) (t : nat) (e : list nat) : list nat := e ++ [t].

(** One worker runs task 7 and ends, and [shutdown] has joined it. *)
Definition after_shutdown : Sys (Task := nat) (Env := list nat) :=
  mkSys (mkPool [] false true 0) [Exited] [Joining 1] [7] [7] [7] [7].

Lemma shutdown_run : rtc (step note) (start 1 []) after_shutdown.
Proof.
  eapply rtc_l; [right; apply (a_submit _ _ _ 7)|]. cbn.
  eapply rtc_l; [left; apply (w_notify_one note _ [Checking] [Checking] [] []), notify_nobody; set_solver|]. cbn.
  eapply rtc_l; [left; apply (w_check _ _ [] [])|]. cbn. eapply rtc_l; [left; apply (w_run _ _ [] [] 7 ())|]. cbn.
  eapply rtc_l; [left; apply (w_complete _ _ [] [])|]. cbn. eapply rtc_l; [right; apply a_shutdown|]. cbn.
  eapply rtc_l; [left; apply (w_notify_all _ _ _ [] [])|]. cbn. eapply rtc_l; [left; apply (w_check _ _ [] [])|]. cbn.
  eapply rtc_l; [left; by apply (w_join _ _ _ [] [])|]. apply rtc_refl.
Qed.

Lemma tasks_once_witness : Forall (eq Exited) (workers after_shutdown) /\ done_ after_shutdown ≡ₚ submitted_ after_shutdown.
Proof. destruct (tasks_once note 1 [] after_shutdown shutdown_run) as (_ & _ & _ & H). apply H. apply list_elem_of_here. Defined.

Lemma pool_completes_witness : sn (work note) after_shutdown.
Proof. exact (proj1 (pool_completes note 1 [] after_shutdown shutdown_run)). Defined.

Lemma demo_finished : exists d, rtc MatrixTasks.demo_any MatrixTasks.demo_start d /\ MatrixTasks.place d = MatrixTasks.Finished.
Proof.
  destruct MatrixTasks.demo_reaches_end as (d & Hr & Hf). exists d. split; [|done]. eapply rtc_subrel, Hr. by left.
Qed.

Lemma demo_prints_products_witness :
  exists d, MatrixTasks.place d = MatrixTasks.Finished /\ MatrixTasks.err d = "" /\ Forall (eq Exited) (workers (MatrixTasks.sched d)).
Proof.
  destruct demo_finished as (d & Hr & Hf). exists d.
  destruct (MatrixTasks.demo_prints_products d Hr) as (_ & _ & _ & _ & H). destruct (H Hf) as (Hw & He & _). auto.
Defined.

(** A delivery is accepted, runs, and [stop] has joined the only worker. *)
Definition after_stop : FileWorkers.Sys (Task := nat) (Env := list nat) :=
  FileWorkers.mkSys (FileWorkers.mkService [] true) [FileWorkers.Exited] [FileWorkers.Joining 1] [7] [7] [7] [7].

Lemma stop_run : rtc (FileWorkers.step note) (FileWorkers.start 1 []) after_stop.
Proof.
  eapply rtc_l; [right; apply (FileWorkers.a_submit _ _ _ 7)|]. cbn.
  eapply rtc_l; [left; apply (FileWorkers.w_notify note _ [FileWorkers.Checking] [FileWorkers.Checking] [] []), FileWorkers.notify_nobody; set_solver|]. cbn.
  eapply rtc_l; [left; apply (FileWorkers.w_check _ _ [] [])|]. cbn. eapply rtc_l; [left; apply (FileWorkers.w_run _ _ [] [] 7 ())|]. cbn.
  eapply rtc_l; [right; apply FileWorkers.a_stop|]. cbn. eapply rtc_l; [left; apply (FileWorkers.w_notify_all _ _ _ [] [])|]. cbn.
  eapply rtc_l; [left; apply (FileWorkers.w_check _ _ [] [])|]. cbn.
  eapply rtc_l; [left; by apply (FileWorkers.w_join _ _ _ [] [])|]. apply rtc_refl.
Qed.

Lemma deliveries_run_witness : Forall (eq FileWorkers.Exited) (FileWorkers.workers after_stop) /\ sn (FileWorkers.work note) after_stop.
Proof.
  destruct (FileWorkers.deliveries_run note 1 [] after_stop stop_run) as (_ & _ & _ & _ & H & Hsn & _).
  split; [|exact Hsn]. apply H. apply list_elem_of_here.
Defined.

End ThreadWitnesses.
