(* ===== verification/ClientWitnesses.v ===== *)
(** * The theorems about the client on concrete runs

    Instances of the theorems with hypotheses, on a concrete client that
    receives a file of ten bytes, of which it has four. *)
From S2P Require Import Prelude Protocol FileUtils Payloads Tables Database FileService FileServiceProps World Delivery Messages Files Server LocalStore.
From S2P Require Import ClientTransport ClientState ClientFiles ClientChat ClientApp ClientSafety ClientDownload ClientLoop ClientMessages TransportProps ClientUpload Scenario.
Import Payloads Database Messages ClientState ClientApp Scenario.

Module ClientWitnesses.

#[export] Instance example_client_env : ClientEnv := {| format_local_time := to_string; database_path := "chat.db" |}.

Definition no_rows : LocalStore.Store := LocalStore.mkStore true (LocalStore.mkTables ∅ ∅ ∅ ∅ ∅) [].
Definition fresh_client (fs : FileService.Fs) : Client :=
  new_client "/dl" no_rows fs (ClientTransport.new_transport false [] [] []) 0 [5%Z] [5%Z] [].

(** ** Files *)

Definition helped : Client :=
  run [mkIteration 0 false (Polled false (Some (Some "39")) false false false)]
    (fresh_client (FileService.mkFs "/" {[ "/etc/hosts" := "x" ]} [])).
Lemma download_contained_witness : ClientSafety.saved_inside "/dl" (cache helped).
Proof.
  exact (proj2 (ClientSafety.download_contained "/dl" no_rows (FileService.mkFs "/" {[ "/etc/hosts" := "x" ]} [])
    (ClientTransport.new_transport false [] [] []) 0 [5%Z] [5%Z] []
    [mkIteration 0 false (Polled false (Some (Some "39")) false false false)]
    ltac:(vm_compute; reflexivity) (map_Forall_empty _))).
Defined.

Definition ten : string := "0123456789".
Definition part_path : string := "/dl/bob/7_notes.txt.part".
Definition file_path : string := "/dl/bob/7_notes.txt".
Definition half_done : IncomingDownload :=
  mkDownload 7 "PRIVATE" "ann" "" "notes.txt" 10 4 (sha_of ten) part_path file_path.
Definition receiver : Client :=
  set_transfers (mkTransfers "/dl" ∅ [] "" {[ 7%Z := half_done ]} no_binary)
    (fresh_client (FileService.mkFs "/" {[ part_path := "0123" ]} [])).
Definition sender : FileService.Pump := FileService.mkPump 7 "/srv/files/notes.txt" 4 10 None.
Definition cut : list string :=
  ["FILE_RESUME_START 7 4" +:+ nl +:+ "FILE_"; "DATA 7 4 6" +:+ nl +:+ "45"; "6789FILE_DONE 7" +:+ nl].

Lemma download_end_to_end_witness :
  FileService.files (disk (foldl ClientDownload.arrive receiver cut)) !! file_path = Some ten.
Proof.
  exact (proj1 (ClientDownload.download_end_to_end sender half_done ten cut receiver
    ltac:(vm_compute; split; congruence) ltac:(vm_compute; reflexivity) ltac:(vm_compute; reflexivity)
    ltac:(vm_compute; split; congruence) ltac:(vm_compute; reflexivity) ltac:(vm_compute; congruence)
    ltac:(vm_compute; reflexivity) ltac:(vm_compute; reflexivity) ltac:(vm_compute; reflexivity)
    ltac:(vm_compute; reflexivity) ltac:(vm_compute; reflexivity) ltac:(vm_compute; reflexivity)
    ltac:(vm_compute; reflexivity) ltac:(vm_compute; reflexivity))).
Defined.

(** The same file the other way: the server has accepted [FILE_BEGIN]. *)
Definition begun : World.World :=
  after (logins ++ friendship ++
    [Server.EvBytes 2 (line ("FILE_BEGIN_PRIVATE " +:+ token32 +:+ " ann notes.txt 10 " +:+ sha_of ten))]).
Definition begun_conn : World.Conn := default (World.mkConn World.Connected None "" []) (World.w_conns begun !! 2).
Definition begun_session : World.ClientSession := default World.new_session (World.c_session begun_conn).
Definition begun_upload : World.IncomingFileUpload :=
  default (World.mkUpload "" FILE_TRANSFER_SCOPE_UNSPECIFIED "" 0 "" 0 0 "" "" [] (mkResumeState None [])) (World.upload begun_session).
Definition notes : PendingUpload := mkUpload token32 "PRIVATE" "ann" "/home/notes.txt" "notes.txt" 10 (sha_of ten) true 0.
Definition uploader : Client :=
  set_net (ClientTransport.new_transport false (repeat (ClientTransport.Took 100) 5) [] [])
    (fresh_client (FileService.mkFs "/" {[ "/home/notes.txt" := ten ]} [])).
Definition uploaded : Client := (ClientFiles.send_upload_data (R := unit) notes 0 uploader).2.
Definition upload_cut : list string := ["FILE_CHUNK " +:+ token32 +:+ " 0 10" +:+ nl +:+ "012"; "3456789FILE_E"].

Lemma upload_sent :
  ClientFiles.send_upload_data (R := unit) notes 0 uploader = (inr true, uploaded) /\
  "" +:+ foldr String.append "" upload_cut +:+ "ND " +:+ token32 +:+ nl = ClientTransport.wire (net uploaded).
Proof. split; vm_compute; reflexivity. Qed.
Lemma upload_begun :
  World.w_conns begun !! 2 = Some begun_conn /\ World.c_state begun_conn = World.Connected /\ World.c_in begun_conn = "" /\
  World.c_session begun_conn = Some begun_session /\ World.logged_in begun_session = true /\
  World.upload begun_session = Some begun_upload /\ World.binary_upload begun_session = None /\
  World.up_token begun_upload = token32 /\ World.up_expected_size begun_upload = strlen ten /\
  World.up_received_size begun_upload = 0%Z /\ FileService.fs_faults (World.w_fs begun) = [] /\
  World.up_temp_path begun_upload = FileService.upload_part_path (World.w_fs begun) (World.up_token begun_upload) /\
  FileService.files (World.w_fs begun) !! World.up_temp_path begun_upload = Some (str_take (Z.to_nat 0) ten) /\
  FileUtils.sha256_file_hex (World.up_temp_path begun_upload) (FileUtils.ReadBytes ten true) =
    inr (str_map tolower (World.up_sha256_hex begun_upload)).
Proof. split_and!; vm_compute; reflexivity. Qed.

Lemma upload_end_to_end_witness :
  FileService.files (World.w_fs (Server.run (map (Server.EvBytes 2) upload_cut) begun)) !! World.up_temp_path begun_upload = Some ten.
Proof.
  destruct upload_sent as [H1 H2]. destruct upload_begun as (G1 & G2 & G3 & G4 & G5 & G6 & G7 & G8 & G9 & G10 & G11 & G12 & G13 & G14).
  exact (proj1 (ClientUpload.upload_end_to_end notes 0 ten uploader uploaded "" 2 begun begun_conn begun_session begun_upload upload_cut
    ("ND " +:+ token32 +:+ nl) (TransportProps.new_ordered _ _ _ _) ltac:(reflexivity) ltac:(reflexivity) ltac:(reflexivity)
    ltac:(lia) ltac:(reflexivity) H1 G1 G2 G3 G4 G5 G6 G7 G8 G9 G10 G11 G12 G13 G14 ltac:(discriminate) H2 ltac:(vm_compute; lia))).
Defined.

(** ** Lines *)

Definition greeted : Client := set_server_buffer_ ("hello" +:+ nl) (fresh_client (FileService.mkFs "/" ∅ [])).
Lemma client_lines_end_witness : consume_loop (R := unit) 100 greeted = consume_loop 7 greeted.
Proof.
  exact (proj1 (ClientLoop.client_lines_end greeted 100 ltac:(vm_compute; lia))).
Defined.

Definition stored_private : StoredMessage := mkStoredMessage 5 (mkChatMessage PRIVATE "ann" "bob" "hi there" 1000).
Definition stored_group : StoredGroupMessage := mkStoredGroupMessage 5 (mkGroupMessage 3 "team-1" "ann" "hi there" 1000).

Lemma message_texts_read_witness :
  exists line, ClientMessages.one_line (private_text 5 "ann" "hi there") line /\
    ClientChat.private_message_of line "bob" =
      Some (fun now => LocalStore.mkLocalPrivateMessage 5 "bob" "ann" "ann" "bob" "hi there" now false false).
Proof.
  exact (proj1 (ClientMessages.message_texts_read 5 "ann" "bob" "team-1" "bob" "hi there" stored_private stored_group
    ltac:(lia) ltac:(vm_compute; reflexivity) ltac:(vm_compute; reflexivity) ltac:(vm_compute; reflexivity)
    ltac:(congruence) ltac:(congruence) eq_refl eq_refl eq_refl eq_refl eq_refl eq_refl eq_refl)).
Defined.
End ClientWitnesses.
