(* ===== verification/FtpWitnesses.v ===== *)
(** * The FTP programs on concrete runs

    Instances of the theorems on the FTP programs, and runs that show what their
    code leaves open. *)
From S2P Require Import Prelude Filesystem FtpServer FtpProps FtpClient FtpExchange.
Import Filesystem FtpServer FtpProps FtpExchange.

Module FtpWitnesses.

(** A server directory with one file, and a file outside. *)
Definition files : tree :=
  <[[] := Dir 493]> (<[["srv"] := Dir 493]> (<[["srv"; "a.txt"] := File 420 "hello"]>
  (<[["etc"] := Dir 493]> (<[["etc"; "pw"] := File 420 "secret"]> ∅)))).
(** The same with a link that leads nowhere. *)
Definition files_with_link : tree := <[["srv"; "l"] := Link "/etc/new"]> files.

Lemma root_is_real : real_dir files ["srv"].
Proof.
  split; [by repeat constructor|]. intros q Hq. destruct q as [|x q]; [vm_compute; reflexivity|].
  apply prefix_cons_inv_1 in Hq as Hx. apply prefix_cons_inv_2 in Hq. apply prefix_nil_inv in Hq as ->. subst x. vm_compute. reflexivity.
Qed.

Definition input (lines : list string) : string := String.concat "" (map (fun l => l +:+ crlf) lines).
Definition session (t : tree) (connects : list connecting) : Session :=
  new_session ["srv"] t [(50001%Z, true); (50002%Z, true)] "10.0.0.1" connects [] [].
Definition some_lines : string := input ["USER a"; "RETR a.txt"; "PASS b"; "PASV"; "RETR ../etc/pw"; "RETR a.txt"; "QUIT"].

Lemma ftp_confined_witness :
  Forall (fun a => ["srv"] `prefix_of` location_of a \/ astray a = true) (touched (run some_lines (session files [Connected [] []]))).
Proof. exact (proj1 (proj2 (ftp_confined ["srv"] files _ _ _ _ _ some_lines root_is_real))). Defined.

(** A session that is logged in, with a data connection to come. *)
Definition logged (connects : list connecting) (offset : Z) (t : tree) : Session :=
  mkSession ["srv"] ["."] true true offset (Some 50001%Z) t [(50002%Z, true)] "10.0.0.1" connects [] [] [] [] [].

Lemma logged_ready connects : ready (logged connects 0 files) ["srv"] "n".
Proof.
  split; [reflexivity|exact root_is_real|exact root_is_real|done|vm_compute; reflexivity|by vm_compute|].
  split_and!; vm_compute; reflexivity.
Qed.

(** An upload in two parts, and a download. *)
Definition first : Session := logged [Connected [] [Got "da"; GotBroke]] 0 files.
(** The session after [PASV] and [REST]. *)
Definition resume (connects : list connecting) (offset : Z) (s : Session) : Session :=
  set_connects connects (set_restOffset_ offset (set_pasvPort_ (Some 50001%Z) s)).
Lemma resume_continues connects offset s : continues s (resume connects offset s).
Proof. by repeat split. Qed.
Definition second : Session := resume [Connected [] [Got "ta"]] 2 (handleSTOR "n" first).2.
Definition third : Session := resume [Connected [Took 2; Intr] []] 1 (handleSTOR "n" second).2.

Lemma second_content : file_content (tree_ second) (["srv"] ++ ["n"]) = Some "da".
Proof. vm_compute. reflexivity. Qed.

Lemma quiet : disk second = [] /\ opens second = [] /\ opens third = [].
Proof. vm_compute. done. Qed.
Lemma second_connected : connected second [] [Got "ta"].
Proof. split; [apply quiet|]. by exists 50001%Z, []. Qed.
Lemma third_connected : connected third [Took 2; Intr] [].
Proof. split; [apply quiet|]. by exists 50001%Z, []. Qed.

Lemma ftp_resumed_upload_witness :
  data (handleRETR "n" third).2 = data third ++ [str_drop (Z.to_nat (restOffset_ third)) ("da" +:+ (received [Got "ta"]).1)].
Proof.
  refine (proj2 (ftp_resumed_upload first second third ["srv"] "n" "" [] [Got "da"; GotBroke] [] [Got "ta"] [Took 2; Intr] [] "da"
    (logged_ready _) _ _ _ _ _ _ _ _ _ _ _ _ _ _ _)).
  - vm_compute. reflexivity.
  - split; [reflexivity|]. by do 2 eexists.
  - reflexivity.
  - apply resume_continues.
  - exact second_content.
  - exact second_connected.
  - reflexivity.
  - reflexivity.
  - exact (proj1 quiet).
  - reflexivity.
  - apply resume_continues.
  - exact third_connected.
  - split; [discriminate|]. cbn. discriminate.
  - intros Hx. rewrite !elem_of_cons in Hx. destruct Hx as [Hx|[Hx|Hx]]; [done|done|by apply not_elem_of_nil in Hx].
  - intros Hx. rewrite !elem_of_cons in Hx. destruct Hx as [Hx|[Hx|Hx]]; [done|done|by apply not_elem_of_nil in Hx].
Defined.

(** An upload by the client. *)
Definition waiting : Session := logged [Connected [] [Got "data"]] 0 files.
Definition put_client : FtpClient.Client :=
  FtpClient.mkClient "10.0.0.1" (String.concat "" (skipn 0 (control (command_loop (S (String.length (put_bytes "n"))) (put_bytes "n") waiting))))
    [] [] [FtpClient.Dialled [Took 3] []] [] [] {[ "f.txt" := "data" ]} [] "".

Lemma ftp_put_witness :
  exists c', FtpClient.upload "f.txt" "n" put_client = (inr (), c') /\ FtpClient.input c' = "" /\
    String.concat "" (skipn 0 (FtpClient.sent c')) = put_bytes "n" /\
    FtpClient.dialled c' = [("10.0.0.1", 50002%Z)] /\ FtpClient.uploaded c' = ["data"].
Proof.
  refine (proj2 (ftp_put waiting put_client ["srv"] "f.txt" "n" "data" "" 50002 [] [] [Got "data"] [] [Took 3] [] [] 10 0 0 1 ""
    (logged_ready _) _ _ _ _ _ _ _ _ _ _ _ _ _ _ _ _ _)).
  all: try (vm_compute; reflexivity).
  - lia.
  - repeat constructor; lia.
  - by vm_compute.
  - split; intros Hx; apply list_elem_of_singleton in Hx; done.
Defined.

(** ** What the code leaves open *)

(** A link that leads nowhere is not followed by the test and is followed by
    [open]: the file is created outside. *)
Theorem dangling_link_escapes :
  touched (run (input ["PASS b"; "PASV"; "STOR l"]) (session files_with_link [Connected [] [Got "x"]])) = [Wrote ["etc"; "new"] false].
Proof. vm_compute. reflexivity. Qed.

(** [STOR] empties the file before it knows that there is a data connection. *)
Theorem stor_without_pasv_empties :
  tree_ (run (input ["PASS b"; "STOR a.txt"]) (session files [])) !! ["srv"; "a.txt"] = Some (File 420 "").
Proof. vm_compute. reflexivity. Qed.

(** The offset of [REST] outlives a transfer that failed, and meets the next. *)
Theorem rest_outlives_failure :
  tree_ (run (input ["PASS b"; "REST 2"; "RETR nothing"; "PASV"; "STOR a.txt"]) (session files [Connected [] [Got "XY"]]))
    !! ["srv"; "a.txt"] = Some (File 420 "heXYo").
Proof. vm_compute. reflexivity. Qed.

(** A negative offset is accepted, as [std::stoull] takes a minus sign. *)
Theorem rest_takes_negative : restOffset_ (run (input ["PASS b"; "REST -1"]) (session files [])) = (2 ^ 64 - 1)%Z.
Proof. vm_compute. reflexivity. Qed.

(** ** The client *)

Definition client (input : string) (dials : list FtpClient.dialling) (writable : list bool) : FtpClient.Client :=
  FtpClient.mkClient "10.0.0.1" input [] [] dials [] [] {[ "f.txt" := "data" ]} writable "".

(** A download whose local file cannot be made leaves the server's last reply
    unread; the next command takes it for its own. *)
Theorem failed_download_shifts_replies :
  (FtpClient.pwd (FtpClient.download "a.txt" "x" (client
     (input ["227 Entering Passive Mode (10,0,0,1,195,81)."; "150 Opening."; "226 Transfer complete."; "257 / is current directory."])
     [FtpClient.Dialled [] [Got "hello"]] [false])).2).1 = inl "PWD expected 257, got 226".
Proof. vm_compute. reflexivity. Qed.
End FtpWitnesses.
